(* ===== verification/_CoqProject ===== *)
-Q . S2P
Prelude.v
TaskList.v
Mem.v
Priority.v
Kernel.v
Sched.v
Task.v
Sem.v
Mutex.v
Queue.v
Event.v
Swtmr.v
Tick.v
Memp.v
Fifo.v
Format.v
Salof.v
Start.v
SysArch.v
MemSpec.v
Ring.v
TaskListSpec.v
KernelInv.v
MemInv.v
KernelCheck.v
Boot.v
ListProps.v
SchedSpec.v
IpcSpec.v
FrameSpec.v
LockSpec.v
AllocSpec.v
TaskSpec.v
MempSpec.v
SemSpec.v
MutexSpec.v
QueueSpec.v
EventSpec.v
ObjSpec.v
SysArchSpec.v
TickSpec.v
SleepSpec.v
SwtmrSpec.v
System.v
SystemInv.v
SystemSpec.v
SystemLive.v
FifoSpec.v
FormatSpec.v
NetDef.v
Ip4Addr.v
InetChksum.v
Timeouts.v
NetSpec.v
ChksumSpec.v
TimeoutsSpec.v
LwipMem.v
LwipMemSpec.v
LwipMemp.v
LwipMempSpec.v
Pbuf.v
PbufData.v
PbufSpec.v
PbufChain.v
