(* ===== verification/Prelude.v ===== *)
(** * DoraOS: verification of the kernel and its libraries

    DoraOS is a real-time operating system for Cortex-M processors.  This
    development models its C sources as executable Rocq definitions and proves
    what they promise.

    ** The program and its parts

    - [src/src/list.c]: circular doubly linked task lists, sorted by value.
    - [src/src/task.c], [src/src/sys.c]: task control blocks, ready lists with
      a bit map of ready priorities, two sleep lists (wake-up before and after
      the wrap-around of the tick counter), scheduler lock, interrupt nesting,
      start-up, the idle task that recycles deleted tasks.
    - [src/src/sem.c], [mutex.c], [queue.c], [event.c]: kernel objects on which
      tasks wait with a timeout, in the order of the values of their pend items:
      the priorities they were created with, the earlier first among equals.
    - [src/src/swtmr.c]: software timers served by a timer task that reads
      commands from a queue.
    - [src/mem/mem.c], [memp.c]: the best-fit heap every object is allocated
      from, and pools of fixed-size blocks.
    - [src/port]: interrupt masking, the PendSV context switch, the initial
      stack frame of a task.
    - [src/common/salof]: byte FIFO, formatter, log output;
      [src/common/cmd_parser]: command table; [src/common/lwip/arch/sys_arch.c]:
      the system layer of the lwIP stack on top of the kernel calls;
      [src/common/lwip/core]: the utilities the protocols are built on, and the
      heap, the pools and the packet buffers of the network stack.

    ** How the code is modelled

    A C function is a [prog S A]: it takes a state and returns [Done] with a
    result and the next state, [Fault] when it dereferences an address that
    holds no object, or [NoFuel] when the iteration bound of a modelled loop is
    reached.  Machine integers are [Z] with the wrap-around written out ([u8],
    [u16], [u32]).  The kernel state is one record ([Kernel.kernel]): the heap,
    the store of list headers and items, the globals of task.c, sys.c and
    swtmr.c, the processor state, and one finite map from addresses to control
    blocks per kind of object.

    A call that blocks is split at its context switch: it returns [Suspend]
    with the rest of the call, which the caller runs when it is scheduled again;
    a call that does not block returns [Return].  What other tasks and
    interrupts do in between is any sequence of kernel operations that keeps
    the invariant.  The critical sections of the code run with interrupts
    masked, so each is one step; where the code leaves interrupts enabled, that
    a call is one step is an assumption (see the system relation below).

    ** Files

    Definitions (one file per component, named after its source file):
    [Prelude] (integers, the program monad, tactics), [TaskList], [Mem],
    [Priority], [Kernel] (state), [Sched] (task.c and sys.c: lists, choice of
    the task, lock), [Task] (create, delete, sleep), [Sem], [Mutex], [Queue],
    [Event], [Swtmr], [Tick] (tick update and SysTick handler), [Memp], [Fifo],
    [Format], [Salof] (log output and command table), [Start] (system
    initialisation, idle task), [SysArch].

    [NetDef], [Ip4Addr], [InetChksum], [Timeouts]: the utilities of lwIP
    (byte order and text helpers of def.c, addresses, Internet checksum, timeout
    list).  [LwipMem] (mem.c), [LwipMemp] (memp.c), [Pbuf] (pbuf.c, and
    [mem_calloc] of mem.c): the memory of the network stack.

    Specifications and proofs:
    - [MemSpec]: a heap is a sequence of adjacent blocks ([heap_rep]);
      initialisation, allocation and release refine operations on that
      sequence; a request that meets a tight fit leaves no such sequence.
    - [Ring]: circular doubly linked lists with a sentinel and sorted insertion,
      shared by the task lists and the timer lists.
    - [TaskListSpec], [ListProps]: [store_rep] relates the pointer structure to
      a finite map from lists to sequences of items; insertion is stable sorted
      insertion, removal its inverse, the cursor goes round robin; the two
      searches of the ready map agree.
    - [KernelInv]: the kernel invariant [kinv]: every list well formed and
      sorted, each task in exactly the list its status says, the ready map equal
      to the set of non-empty ready lists, the idle task ready.  [KernelCheck]
      decides it on concrete states; [Boot] runs the start-up code and builds
      the states the witnesses use.
    - [SchedSpec], [IpcSpec], [FrameSpec], [LockSpec]: the scheduler operations
      and what all kernel objects share (waiting, waking, timing out, the
      scheduler lock, allocation under it) keep [kinv], and what they leave
      alone.
    - [SemSpec], [MutexSpec], [QueueSpec], [EventSpec]: refinement of an abstract
      counting semaphore, a mutex with priority inheritance, a FIFO with
      reserved messages, and an event group that serves its waiters in order.
    - [TickSpec], [SleepSpec]: the tick interrupt wakes exactly the tasks whose
      time has come, across wrap-around; a sleep of [n] ticks lasts [n] ticks.
    - [SwtmrSpec]: the running timers are two sorted rings; start, stop and
      delete commands, and the expiry loop of the timer task with its
      termination.
    - [MempSpec]: a pool is a stack of free blocks inside one heap block.
    - [MemInv], [AllocSpec]: the memory invariant [mem_inv]: every object of the
      kernel has a block of the heap to itself; an allocation gives a block that
      is no object's.
    - [TaskSpec], [ObjSpec]: creation and deletion of tasks (with the recycling
      by the idle task), semaphores, mutexes, queues and event groups keep the
      kernel invariant and the memory invariant; a new object looks through its
      specification as it was requested, and a deleted one gives its memory back.
    - [SysArchSpec]: the mailboxes of the lwIP system layer refine a bounded
      list of pointers.
    - [System], [SystemInv], [SystemSpec], [SystemLive]: the composition.  Tasks
      call the kernel, are switched, and interrupts come, in any order; every
      reachable state keeps the invariant, no call faults, the running task is
      always one of the highest priority, and a wait with a timeout ends after
      at most as many ticks as it asked for (see below).
    - [FifoSpec], [FormatSpec]: the byte FIFO refines a bounded queue; the
      formatter stays inside its buffer, faults only at an argument of the wrong
      type or a number its 32-bit variable cannot hold, and prints what its
      directives say.
    - [NetSpec], [ChksumSpec], [TimeoutsSpec]: round trip of address texts, the
      three checksum algorithms agree and verify, timeouts fire in order.
    - [LwipMemSpec], [LwipMempSpec]: the heap of lwIP is a first-fit allocator of
      disjoint blocks over the layout functions of [MemSpec]; its pools are
      stacks of free elements.
    - [PbufData], [PbufSpec], [PbufChain]: packet buffers.  A packet is a chain
      of pbufs with its bytes ([packet]); [pbuf_take], [pbuf_copy_partial] and
      [pbuf_memfind] act on the flat contents however they are cut into pbufs.
      Every pbuf lies in memory that its allocator gave out ([net_rep]):
      [pbuf_alloc] makes a fresh packet or changes nothing, [pbuf_free] gives
      back exactly the pbufs that lose their last reference, [pbuf_cat] and
      [pbuf_realloc] are concatenation and prefix.

    ** The system relation

    A step of [System] is one kernel call of the running task up to its context
    switch, the rest of a call after the task was switched back in, a tick
    interrupt, or the PendSV switch; no interrupt cuts a step.  For the calls whose
    work is one masked section (semaphores, mutexes, [dos_event_wait], sleeping, the
    scheduler lock) this is what the code does.  Two groups of calls run partly
    with interrupts enabled, and for them it is an assumption: the loop of
    [dos_event_set], which runs under the scheduler lock, and the queue calls, which
    enable interrupts between the count, the copy, the test of the pend list, the
    waking and the second count (queue.c:95-110) and in the end of a timed out wait
    (queue.c:88-94).  For the queues the difference is a defect of the code: a tick
    that ends the wait of the only waiter between the test and the waking makes the
    waking fault ([QueueSpec.queue_wake_race]; [queue_wake_waiter] is that part on
    its own).  The theorems of [System*] are about runs without such a cut.

    Tasks wait in the order of the values of their pend items.  The value is set to
    the priority when a task is created ([TaskSpec.task_create_ok]);
    [dos_set_task_priority] does not change it, so a task that waits after it
    inherited a priority is served by the old one.

    Creation and deletion are not steps of
    the relation: [dos_mem_alloc] unlocks the scheduler in the middle of a
    creation, so another task may run there; [TaskSpec] and [ObjSpec] state them
    for a call that is not preempted.  The
    rules of use a task must keep (no blocking call with the scheduler locked or
    in an interrupt, unlock by the owner, ...) are the predicate [permitted].

    ** The memory of the network stack

    The models take the configuration of lwipopts.h: no statistics, no overflow
    checks, no freeing from other contexts, custom pbufs.  The heap calls hold a
    mutex and the pool calls mask interrupts, so each call is one step; the pbuf
    functions are stated for a packet that one task works on.  An assertion
    prints and the code goes on.  The headers of the heap, the links of the pools
    and the [struct pbuf]s are kept by address apart from the bytes of the
    payloads, so a program that writes over a structure through a byte pointer is
    outside the model; a released pbuf is gone, and a later use of it is a
    [Fault].  The function of a custom pbuf is a parameter.

    ** Bounds

    Loops over a list take their fuel from the number of items in the store,
    loops over the heap from the number of nodes, loops over a packet from the
    number of pbufs; the theorems show that the operations end with [Done], so
    the fuel is enough.

    ** Not modelled

    Register save and restore of the context switch, the words of the initial
    stack frame (where the frame lies is modelled, the contents of a stack are not
    part of the state) and the system control registers ([dos_port_start]), the text of log messages, device output (a
    parameter), the board support packages under [src/demo], the protocols (ARP,
    IP, TCP, UDP, ...), sockets and applications of lwIP and the Ethernet driver,
    the example applications; of pbuf.c what lwipopts.h switches off (freeing of
    out-of-sequence segments, splitting at 64 KB, checksums on copy).  Deleting an object removes it from the state, so a later use
    is a [Fault]; the control block of a deleted task stays, because the code
    reads it after it gave its memory back. *)

From stdpp Require Export base list gmap sorting.
From Stdlib Require Export ZArith Lia.

#[global] Open Scope Z_scope.

(** ** Machine integers *)

Definition u8 (x : Z) : Z := x mod 2 ^ 8.
Definition u16 (x : Z) : Z := x mod 2 ^ 16.
Definition u32 (x : Z) : Z := x mod 2 ^ 32.

(** Bitwise complement of an [unsigned int]. *)
Definition not32 (x : Z) : Z := u32 (Z.lnot x).

Definition DOS_UINT32_MAX : Z := 0xFFFFFFFF.
Definition DOS_NULL : Z := 0.
Definition DOS_OK : Z := 0.
Definition DOS_NOK : Z := 1.

(** ** Programs: state passing with faults *)

(** [Fault] is the dereference of an address that holds no object; [NoFuel]
    says that the iteration bound of a modelled loop was reached. *)
Inductive result (A : Type) : Type :=
| Done (a : A)
| Fault
| NoFuel.
Arguments Done {A} a.
Arguments Fault {A}.
Arguments NoFuel {A}.

Definition prog (S A : Type) : Type := S -> result (A * S).

#[export] Instance prog_ret {S} : MRet (prog S) := fun A a s => Done (a, s).

#[export] Instance prog_bind {S} : MBind (prog S) := fun A B f m s =>
  match m s with
  | Done (a, s') => f a s'
  | Fault => Fault
  | NoFuel => NoFuel
  end.

Definition fault {S A} : prog S A := fun _ => Fault.
Definition gets {S A} (f : S -> A) : prog S A := fun s => Done (f s, s).
Definition modify {S} (f : S -> S) : prog S unit := fun s => Done (tt, f s).

(** Reading through a pointer that may be invalid. *)
Definition deref {S A} (f : S -> option A) : prog S A := fun s =>
  match f s with Some a => Done (a, s) | None => Fault end.

(** Running a program on a part of a larger state. *)
Definition zoom {S T A} (get : T -> S) (put : S -> T -> T) (m : prog S A) : prog T A :=
  fun t => match m (get t) with
           | Done (a, s) => Done (a, put s t)
           | Fault => Fault
           | NoFuel => NoFuel
           end.

Lemma bind_done {S A B} (m : prog S A) (f : A -> prog S B) s a s' :
  m s = Done (a, s') -> (m ≫= f) s = f a s'.
Proof. intros H. unfold mbind, prog_bind. by rewrite H. Qed.

Lemma bind_done_inv {S A B} (m : prog S A) (f : A -> prog S B) s r :
  (m ≫= f) s = Done r -> exists a s', m s = Done (a, s') /\ f a s' = Done r.
Proof.
  unfold mbind, prog_bind. destruct (m s) as [[a s']| |] eqn:E; try discriminate.
  intros H. eauto.
Qed.

Lemma deref_some {S A} (f : S -> option A) s a :
  f s = Some a -> deref f s = Done (a, s).
Proof. intros H. unfold deref. by rewrite H. Qed.

Lemma zoom_done {S T A} (get : T -> S) put (m : prog S A) t a s :
  m (get t) = Done (a, s) -> zoom get put m t = Done (a, put s t).
Proof. intros H. unfold zoom. by rewrite H. Qed.

(** ** Automation *)

Create HintDb dora discriminated.

(** Runs the first instruction of a program when its result is known. *)
Ltac run_with H := erewrite bind_done; [ | exact H ]; cbv beta.
Ltac run_by tac := erewrite bind_done; [ | solve [tac] ]; cbv beta.

(** ** Machine integer lemmas *)

Lemma u32_small x : 0 <= x < 2 ^ 32 -> u32 x = x.
Proof. intros. by apply Z.mod_small. Qed.

Lemma u32_range x : 0 <= u32 x < 2 ^ 32.
Proof. apply Z.mod_pos_bound. lia. Qed.

Lemma u16_small x : 0 <= x < 2 ^ 16 -> u16 x = x.
Proof. intros. by apply Z.mod_small. Qed.

Lemma u16_range x : 0 <= u16 x < 2 ^ 16.
Proof. apply Z.mod_pos_bound. lia. Qed.

Lemma u8_small x : 0 <= x < 2 ^ 8 -> u8 x = x.
Proof. intros. by apply Z.mod_small. Qed.

Lemma u8_range x : 0 <= u8 x < 2 ^ 8.
Proof. apply Z.mod_pos_bound. lia. Qed.

Lemma testbit_u32 x i : 0 <= i -> Z.testbit (u32 x) i = (i <? 32) && Z.testbit x i.
Proof.
  intros. unfold u32. destruct (Z.ltb_spec i 32); simpl.
  - by apply Z.mod_pow2_bits_low.
  - apply Z.mod_pow2_bits_high. lia.
Qed.

(** Clearing the low bits rounds down. *)
Lemma land_not_ones x n :
  0 <= n -> 0 <= x < 2 ^ 32 -> Z.land x (not32 (Z.ones n)) = 2 ^ n * (x / 2 ^ n).
Proof.
  intros Hn Hx. rewrite Z.mul_comm, <- Z.shiftr_div_pow2, <- Z.shiftl_mul_pow2 by done.
  apply Z.bits_inj'. intros i Hi. rewrite Z.land_spec, Z.shiftl_spec by done.
  unfold not32. rewrite testbit_u32, Z.lnot_spec by done. destruct (Z.lt_ge_cases i n).
  - rewrite Z.ones_spec_low, (Z.testbit_neg_r _ (i - n)) by lia. by rewrite !andb_false_r.
  - rewrite Z.ones_spec_high, Z.shiftr_spec, Z.sub_add, andb_true_r by lia.
    destruct (Z.ltb_spec i 32); [by rewrite andb_true_r|]. rewrite andb_false_r.
    rewrite <- (Z.mod_small x (2 ^ 32)) by lia. symmetry. apply Z.mod_pow2_bits_high. lia.
Qed.

(** ** Filters *)

Lemma filter_ext_in {A} (P Q : A -> Prop) `{!forall x, Decision (P x), !forall x, Decision (Q x)} (xs : list A) :
  (forall x, x ∈ xs -> P x <-> Q x) -> filter P xs = filter Q xs.
Proof.
  induction xs as [|x xs IH]; intros Hx; [done|].
  assert (E : filter P xs = filter Q xs) by (apply IH; intros y Hy; apply Hx; by right).
  assert (Hx' : P x <-> Q x) by (apply Hx; left). destruct (decide (P x)).
  - rewrite !filter_cons_True by tauto. by rewrite E.
  - rewrite !filter_cons_False by tauto. done.
Qed.

Lemma filter_all {A} (P : A -> Prop) `{!forall x, Decision (P x)} (xs : list A) :
  (forall x, x ∈ xs -> P x) -> filter P xs = xs.
Proof.
  induction xs as [|x xs IH]; intros Hx; [done|]. rewrite filter_cons_True by (apply Hx; left).
  rewrite IH; [done|]. intros y Hy. apply Hx. by right.
Qed.

(** ** Stepping through a program *)

Lemma bind_gets {S A B} (f : S -> A) (c : A -> prog S B) s : (gets f ≫= c) s = c (f s) s.
Proof. done. Qed.

Lemma bind_modify {S B} (f : S -> S) (c : unit -> prog S B) s : (modify f ≫= c) s = c tt (f s).
Proof. done. Qed.

Lemma bind_mret {S A B} (a : A) (c : A -> prog S B) s : (mret a ≫= c) s = c a s.
Proof. done. Qed.

Lemma bind_assoc {S A B C} (m : prog S A) (f : A -> prog S B) (g : B -> prog S C) s :
  ((m ≫= f) ≫= g) s = (m ≫= (fun a => f a ≫= g)) s.
Proof. unfold mbind, prog_bind. by destruct (m s) as [[]| |]. Qed.

Lemma bind_bind_run {S A B C} (m : prog S A) (f : A -> prog S B) (g : B -> prog S C) s b s' :
  (m ≫= f) s = Done (b, s') -> (m ≫= (fun a => f a ≫= g)) s = g b s'.
Proof. intros H. rewrite <- bind_assoc. by apply bind_done. Qed.

Ltac kstep := repeat (rewrite bind_gets || rewrite bind_modify || rewrite bind_mret); cbv beta.
