(* ===== verification/TaskList.v ===== *)
(** * Task lists (src/src/list.c, include/list.h, list accessors of task.c)

    The circular doubly linked lists every kernel object hangs its tasks on.
    A list header embeds its own end item, whose value is 0xFFFFFFFF; an item
    lives inside a task control block.  Pointers to items are therefore one of
    three shapes (end item of a list, [status_item] or [pend_item] of a task)
    and pointers to lists name the object that embeds the list.  The store maps
    pointers to the structures they point to, and an access to an address
    without a structure is a [Fault]. The representation
    predicates and the proofs are in [Ring] and [TaskListSpec]. *)

From S2P Require Import Prelude.

(** ** Pointers *)

Inductive list_ptr : Type :=
| ListNull
| PriorityList (i : Z)             (* &dos_task_priority_list[i] *)
| SleepList1                       (* &_dos_sleep_list1 *)
| SleepList2                       (* &_dos_sleep_list2 *)
| RecycleList                      (* &_dos_recycle_list *)
| SemPendList (sem : Z)            (* &sem->sem_pend_list *)
| MutexPendList (mutex : Z)        (* &mutex->mutex_pend_list *)
| QueuePendList (queue op : Z)     (* &queue->queue_pend_list[op] *)
| EventPendList (event : Z).       (* &event->event_pend_list *)

Inductive item_ptr : Type :=
| EndItem (l : list_ptr)           (* &list->task_end_item *)
| StatusItem (task : Z)            (* &task->status_item *)
| PendItem (task : Z).             (* &task->pend_item *)

#[export] Instance list_ptr_eq_dec : EqDecision list_ptr.
Proof. solve_decision. Defined.

#[export] Instance item_ptr_eq_dec : EqDecision item_ptr.
Proof. solve_decision. Defined.

Definition list_ptr_code (l : list_ptr) : Z * Z * Z :=
  match l with
  | ListNull => (0, 0, 0)
  | PriorityList i => (1, i, 0)
  | SleepList1 => (2, 0, 0)
  | SleepList2 => (3, 0, 0)
  | RecycleList => (4, 0, 0)
  | SemPendList s => (5, s, 0)
  | MutexPendList m => (6, m, 0)
  | QueuePendList q op => (7, q, op)
  | EventPendList e => (8, e, 0)
  end.

Definition list_ptr_decode (c : Z * Z * Z) : list_ptr :=
  match c with
  | (1, i, _) => PriorityList i
  | (2, _, _) => SleepList1
  | (3, _, _) => SleepList2
  | (4, _, _) => RecycleList
  | (5, s, _) => SemPendList s
  | (6, m, _) => MutexPendList m
  | (7, q, op) => QueuePendList q op
  | (8, e, _) => EventPendList e
  | _ => ListNull
  end.

#[export] Instance list_ptr_countable : Countable list_ptr.
Proof. apply (inj_countable' list_ptr_code list_ptr_decode). by intros []. Defined.

Definition item_ptr_code (p : item_ptr) : list_ptr + (Z + Z) :=
  match p with
  | EndItem l => inl l
  | StatusItem t => inr (inl t)
  | PendItem t => inr (inr t)
  end.

Definition item_ptr_decode (c : list_ptr + (Z + Z)) : item_ptr :=
  match c with
  | inl l => EndItem l
  | inr (inl t) => StatusItem t
  | inr (inr t) => PendItem t
  end.

#[export] Instance item_ptr_countable : Countable item_ptr.
Proof. apply (inj_countable' item_ptr_code item_ptr_decode). by intros []. Defined.

(** ** Structures and the store *)

(** [struct task_item]. *)
Record dos_task_item_t : Type := mk_item {
  prev : item_ptr;
  next : item_ptr;
  dos_task_value : Z;
  dos_task : Z;
  dos_task_list : list_ptr
}.

(** [struct dos_task_list]; its [task_end_item] is stored at [EndItem l]. *)
Record dos_task_list_t : Type := mk_list {
  task_item : item_ptr;
  Task_ItemValue : Z
}.

Record store : Type := mk_store {
  items : gmap item_ptr dos_task_item_t;
  lists : gmap list_ptr dos_task_list_t
}.

Definition empty_store : store := mk_store ∅ ∅.

Definition set_prev (q : item_ptr) (it : dos_task_item_t) : dos_task_item_t :=
  mk_item q (next it) (dos_task_value it) (dos_task it) (dos_task_list it).
Definition set_next (q : item_ptr) (it : dos_task_item_t) : dos_task_item_t :=
  mk_item (prev it) q (dos_task_value it) (dos_task it) (dos_task_list it).
Definition set_value (v : Z) (it : dos_task_item_t) : dos_task_item_t :=
  mk_item (prev it) (next it) v (dos_task it) (dos_task_list it).
Definition set_owner (t : Z) (it : dos_task_item_t) : dos_task_item_t :=
  mk_item (prev it) (next it) (dos_task_value it) t (dos_task_list it).
Definition set_list (l : list_ptr) (it : dos_task_item_t) : dos_task_item_t :=
  mk_item (prev it) (next it) (dos_task_value it) (dos_task it) l.

Definition set_cursor (p : item_ptr) (h : dos_task_list_t) : dos_task_list_t :=
  mk_list p (Task_ItemValue h).
Definition set_count (n : Z) (h : dos_task_list_t) : dos_task_list_t :=
  mk_list (task_item h) n.

Definition put_item (p : item_ptr) (it : dos_task_item_t) (s : store) : store :=
  mk_store (<[p := it]> (items s)) (lists s).
Definition put_list (l : list_ptr) (h : dos_task_list_t) (s : store) : store :=
  mk_store (items s) (<[l := h]> (lists s)).

Definition item_at (p : item_ptr) : prog store dos_task_item_t :=
  deref (fun s => items s !! p).
Definition list_at (l : list_ptr) : prog store dos_task_list_t :=
  deref (fun s => lists s !! l).

Definition upd_item (p : item_ptr) (f : dos_task_item_t -> dos_task_item_t) : prog store unit :=
  it ← item_at p; modify (put_item p (f it)).
Definition upd_list (l : list_ptr) (f : dos_task_list_t -> dos_task_list_t) : prog store unit :=
  h ← list_at l; modify (put_list l (f h)).

(** ** list.c *)

(** Every field of the item is written, so the item need not exist before. *)
Definition dos_task_item_init (dos_item : item_ptr) : prog store unit :=
  modify (put_item dos_item (mk_item dos_item dos_item 0 DOS_NULL ListNull)).

(** [for (item = &end; item->next->dos_task_value <= value; item = item->next);] *)
Fixpoint insert_position (fuel : nat) (item : item_ptr) (value : Z) : prog store item_ptr :=
  match fuel with
  | O => fun _ => NoFuel
  | S fuel' =>
      it ← item_at item;
      nx ← item_at (next it);
      if dos_task_value nx <=? value
      then insert_position fuel' (next it) value
      else mret item
  end.

Definition dos_task_item_insert (dos_list : list_ptr) (new_item : item_ptr) : prog store unit :=
  new ← item_at new_item;
  let value := dos_task_value new in
  item ← (if value =? 0xFFFFFFFF
          then e ← item_at (EndItem dos_list); mret (prev e)
          else fuel ← gets (fun s => S (size (items s)));
               insert_position fuel (EndItem dos_list) value);
  it ← item_at item;
  upd_item new_item (set_next (next it));;
  new' ← item_at new_item;
  upd_item (next new') (set_prev new_item);;
  upd_item new_item (set_prev item);;
  upd_item item (set_next new_item);;
  upd_item new_item (set_list dos_list);;
  upd_list dos_list (fun h => set_count (u32 (Task_ItemValue h + 1)) h).

Definition dos_task_item_del (dos_item : item_ptr) : prog store Z :=
  it ← item_at dos_item;
  let dos_list := dos_task_list it in
  (if decide (dos_list = ListNull) then mret tt
   else
     upd_item (prev it) (set_next (next it));;
     it1 ← item_at dos_item;
     upd_item (next it1) (set_prev (prev it1));;
     upd_item dos_item (set_list ListNull);;
     h ← list_at dos_list;
     (if decide (task_item h = dos_item)
      then it2 ← item_at dos_item; upd_list dos_list (set_cursor (prev it2))
      else mret tt);;
     upd_item dos_item (set_next dos_item);;
     upd_item dos_item (set_prev dos_item);;
     upd_list dos_list (fun h => set_count (u32 (Task_ItemValue h - 1)) h));;
  h ← list_at dos_list;
  mret (Task_ItemValue h).

Definition dos_task_list_is_empty (dos_tasklist : list_ptr) : prog store bool :=
  h ← list_at dos_tasklist; mret (Task_ItemValue h =? 0).

Definition dos_get_task_list_value (dos_tasklist : list_ptr) : prog store Z :=
  h ← list_at dos_tasklist; mret (Task_ItemValue h).

Definition dos_task_list_init (dos_tasklist : list_ptr) : prog store unit :=
  s ← gets id;
  let task := match items s !! EndItem dos_tasklist with Some e => dos_task e | None => 0 end in
  modify (put_list dos_tasklist (mk_list (EndItem dos_tasklist) 0));;
  modify (put_item (EndItem dos_tasklist)
    (mk_item (EndItem dos_tasklist) (EndItem dos_tasklist) 0xFFFFFFFF task dos_tasklist)).

(** ** List accessors of task.c *)

(** Steps over the end item, as [dos_get_first_task] and [dos_get_next_task] do. *)
Definition skip_end_item (list : list_ptr) : prog store Z :=
  h ← list_at list;
  (if decide (task_item h = EndItem list)
   then it ← item_at (task_item h); upd_list list (set_cursor (next it))
   else mret tt);;
  h' ← list_at list;
  it ← item_at (task_item h');
  mret (dos_task it).

Definition dos_get_first_task (list : list_ptr) : prog store Z :=
  e ← item_at (EndItem list);
  upd_list list (set_cursor (next e));;
  skip_end_item list.

Definition dos_get_next_task (list : list_ptr) : prog store Z :=
  h ← list_at list;
  it ← item_at (task_item h);
  upd_list list (set_cursor (next it));;
  skip_end_item list.
