(* ===== verification/Mem.v ===== *)
(** * Memory heap (src/mem/mem.c, include/mem/mem.h)

    The heap is a static array that starts with a control block
    ([dos_mem_heap_info_t], 16 bytes) followed by memory nodes: a header
    ([dos_mem_heap_node_t], 8 bytes) and the user bytes behind it.  A state
    holds the control block and the headers by address; reading a header where
    none was written is a [Fault].  User bytes are not part of the state.

    [dos_mem_alloc] runs with the scheduler locked; the locking is added in
    [Sched], where the allocator meets the rest of the kernel.  The address of
    the static array [_mem_heap] is chosen by the linker: it is an argument of
    [dos_mem_heap_init]. *)

From S2P Require Import Prelude.

Definition DOS_ALIGN_SIZE : Z := 4.
Definition DOS_MEM_HEAP_SIZE : Z := 1024 * 30.
Definition MEM_INFO_SIZE : Z := 16.
Definition MEM_NODE_SIZE : Z := 8.

Definition DOS_ALIGN (addr size : Z) : Z := Z.land (u32 (addr + (size - 1))) (not32 (size - 1)).
Definition DOS_ALIGN_DOWN (addr size : Z) : Z := Z.land addr (not32 (size - 1)).

(** [mem_node_size] is a 30-bit field. *)
Definition u30 (x : Z) : Z := x mod 2 ^ 30.

Record mem_node : Type := mk_node {
  node_prev : Z;
  mem_node_size : Z;
  mem_used : Z;
  mem_align : Z
}.

Record mem_heap_info : Type := mk_info {
  mem_heap_addr : Z;
  mem_heap_size : Z;
  MemHead : Z;
  mem_tail : Z
}.

Record heap : Type := mk_heap {
  align_mem_heap_begin : Z;
  align_mem_heap_end : Z;
  heap_info : mem_heap_info;
  nodes : gmap Z mem_node
}.

(** Static storage before [dos_mem_heap_init]. *)
Definition heap_zero : heap := mk_heap 0 0 (mk_info 0 0 0 0) ∅.

Definition set_info (i : mem_heap_info) (h : heap) : heap :=
  mk_heap (align_mem_heap_begin h) (align_mem_heap_end h) i (nodes h).
Definition set_tail (t : Z) (h : heap) : heap :=
  let i := heap_info h in
  set_info (mk_info (mem_heap_addr i) (mem_heap_size i) (MemHead i) t) h.
Definition set_heap_size (n : Z) (h : heap) : heap :=
  let i := heap_info h in
  set_info (mk_info (mem_heap_addr i) n (MemHead i) (mem_tail i)) h.

Definition put_node (a : Z) (n : mem_node) (h : heap) : heap :=
  mk_heap (align_mem_heap_begin h) (align_mem_heap_end h) (heap_info h) (<[a := n]> (nodes h)).

Definition node_at (a : Z) : prog heap mem_node := deref (fun h => nodes h !! a).
Definition upd_node (a : Z) (f : mem_node -> mem_node) : prog heap unit :=
  n ← node_at a; modify (put_node a (f n)).
Definition info_at : prog heap mem_heap_info := gets heap_info.

Definition node_set_prev (p : Z) (n : mem_node) : mem_node :=
  mk_node p (mem_node_size n) (mem_used n) (mem_align n).
Definition node_set_size (s : Z) (n : mem_node) : mem_node :=
  mk_node (node_prev n) (u30 s) (mem_used n) (mem_align n).
Definition node_set_used (u : Z) (n : mem_node) : mem_node :=
  mk_node (node_prev n) (mem_node_size n) u (mem_align n).
Definition node_set_align (a : Z) (n : mem_node) : mem_node :=
  mk_node (node_prev n) (mem_node_size n) (mem_used n) a.

(** [node->user_mem] *)
Definition user_mem (node : Z) : Z := u32 (node + MEM_NODE_SIZE).

Definition _dos_get_next_node (node : Z) : prog heap Z :=
  i ← info_at;
  if mem_tail i =? node then mret DOS_NULL
  else n ← node_at node; mret (u32 (user_mem node + mem_node_size n)).

(** The [while (mem_node)] loop of [dos_mem_alloc]: the best node so far and
    whether the loop was left by the [goto]. *)
Fixpoint find_best (fuel : nat) (mem_node best_node size : Z) : prog heap (Z * bool) :=
  match fuel with
  | O => fun _ => NoFuel
  | S fuel' =>
      if mem_node =? DOS_NULL then mret (best_node, false)
      else
        n ← node_at mem_node;
        better ← (if (mem_used n =? 0) && (mem_node_size n >? size) then
                    if best_node =? DOS_NULL then mret true
                    else b ← node_at best_node; mret (mem_node_size b >? mem_node_size n)
                  else mret false);
        if (better : bool) then
          if mem_node_size n =? size then mret (mem_node, true)
          else find_best fuel' (node_prev n) mem_node size
        else find_best fuel' (node_prev n) best_node size
  end.

(** "Can cut the memory node": a free node is made of what is left over. *)
Definition cut_node (best_node size : Z) : prog heap unit :=
  b ← node_at best_node;
  if u32 (mem_node_size b - size) >? MEM_NODE_SIZE then
    let mem_node := u32 (user_mem best_node + size) in
    h ← gets id;
    let al := match nodes h !! mem_node with Some n => mem_align n | None => 0 end in
    modify (put_node mem_node
      (mk_node best_node (u30 (u32 (mem_node_size b - size - MEM_NODE_SIZE))) 0 al));;
    i ← info_at;
    if negb (best_node =? mem_tail i) then
      node ← _dos_get_next_node mem_node;
      if negb (node =? DOS_NULL) then upd_node node (node_set_prev mem_node) else mret tt
    else modify (set_tail mem_node)
  else mret tt.

(** [dos_mem_alloc] between the scheduler lock and unlock, on an initialised heap. *)
Definition mem_alloc (size : Z) : prog heap Z :=
  let size := DOS_ALIGN size DOS_ALIGN_SIZE in
  i ← info_at;
  fuel ← gets (fun h => S (S (base.size (nodes h))));
  '(best_node, exact) ← find_best fuel (mem_tail i) DOS_NULL size;
  if best_node =? DOS_NULL then mret DOS_NULL
  else
    (if (exact : bool) then mret tt else cut_node best_node size);;
    upd_node best_node (node_set_align 0);;
    upd_node best_node (node_set_used 1);;
    upd_node best_node (node_set_size size);;
    i ← info_at;
    modify (set_heap_size (u32 (mem_heap_size i - size)));;
    mret (user_mem best_node).

(** [while ((NULL != free_node->prev) && (0 == free_node->prev->mem_used))] *)
Fixpoint merge_prev (fuel : nat) (free_node : Z) : prog heap Z :=
  match fuel with
  | O => fun _ => NoFuel
  | S fuel' =>
      n ← node_at free_node;
      if node_prev n =? DOS_NULL then mret free_node
      else
        p ← node_at (node_prev n);
        if mem_used p =? 0 then merge_prev fuel' (node_prev n) else mret free_node
  end.

(** [while (((node = _dos_get_next_node(free_node)) != NULL) && (0 == node->mem_used))] *)
Fixpoint merge_next (fuel : nat) (free_node : Z) : prog heap unit :=
  match fuel with
  | O => fun _ => NoFuel
  | S fuel' =>
      node ← _dos_get_next_node free_node;
      if node =? DOS_NULL then mret tt
      else
        n ← node_at node;
        if mem_used n =? 0 then
          f ← node_at free_node;
          upd_node free_node
            (node_set_size (u32 (mem_node_size f + (MEM_NODE_SIZE + mem_node_size n))));;
          i ← info_at;
          (if node =? mem_tail i then modify (set_tail free_node) else mret tt);;
          merge_next fuel' free_node
        else mret tt
  end.

Definition dos_mem_free (mem : Z) : prog heap Z :=
  if mem =? DOS_NULL then mret DOS_NOK
  else
    begin ← gets align_mem_heap_begin;
    if begin =? DOS_NULL then mret DOS_NOK
    else
      let free_node := u32 (mem - MEM_NODE_SIZE) in
      n ← node_at free_node;
      if mem_used n =? 0 then mret DOS_NOK
      else
        upd_node free_node (node_set_used 0);;
        i ← info_at;
        modify (set_heap_size (u32 (mem_heap_size i + mem_node_size n)));;
        fuel ← gets (fun h => S (S (base.size (nodes h))));
        free_node ← merge_prev fuel free_node;
        merge_next fuel free_node;;
        node ← _dos_get_next_node free_node;
        (if negb (node =? DOS_NULL) then upd_node node (node_set_prev free_node) else mret tt);;
        mret DOS_OK.

Definition dos_mem_heap_init (memheap_addr : Z) : prog heap bool :=
  let begin := DOS_ALIGN memheap_addr DOS_ALIGN_SIZE in
  let end_ := DOS_ALIGN_DOWN (u32 (memheap_addr + DOS_MEM_HEAP_SIZE)) DOS_ALIGN_SIZE in
  let align_memheap_size := u32 (end_ - begin) in
  h ← gets id;
  if (begin =? DOS_NULL) || (align_memheap_size <=? MEM_INFO_SIZE + MEM_NODE_SIZE)
  then modify (fun h => mk_heap begin end_ (heap_info h) (nodes h));; mret false
  else
    let total := u32 (align_memheap_size - MEM_INFO_SIZE - MEM_NODE_SIZE) in
    let head := u32 (begin + MEM_INFO_SIZE) in
    modify (fun _ => mk_heap begin end_ (mk_info begin total head head)
                       {[ head := mk_node DOS_NULL (u30 total) 0 0 ]});;
    mret true.

Definition dos_get_mem_heap_info : prog heap Z :=
  i ← info_at; mret (mem_heap_size i).
