(* ===== verification/Priority.v ===== *)
(** * Priority bit map (task.c [_dos_get_highest_priority], port.s [hard_ware_clz])

    A set bit [i] of the ready map says that priority [i] has ready tasks;
    priority 0 is the highest.  task.c finds the highest ready priority with
    the processor's bit instructions or, without [DOS_HW_CLZ_SUPT], with a
    table indexed by one byte of the map.  Both are modelled and proved to
    return the lowest set bit. *)

From S2P Require Import Prelude.

(** [rbit]: reverses the lowest [n] bits. *)
Fixpoint rbit (n : nat) (x : Z) : Z :=
  match n with
  | O => 0
  | S n' => Z.lor (Z.shiftl (Z.b2z (Z.testbit x 0)) (Z.of_nat n')) (rbit n' (Z.shiftr x 1))
  end.

(** [clz]: leading zeros of a 32-bit word. *)
Definition clz (x : Z) : Z := if x =? 0 then 32 else 31 - Z.log2 x.

Definition hard_ware_clz (pri : Z) : Z := clz (rbit 32 pri).

(** [_dos_get_highest_priority] with [DOS_HW_CLZ_SUPT], the shipped configuration. *)
Definition _dos_get_highest_priority (pri : Z) : Z :=
  if pri =? 0 then 0 else hard_ware_clz pri.

Definition dos_bit_map : list Z := [
  0; 0; 1; 0; 2; 0; 1; 0; 3; 0; 1; 0; 2; 0; 1; 0;
  4; 0; 1; 0; 2; 0; 1; 0; 3; 0; 1; 0; 2; 0; 1; 0;
  5; 0; 1; 0; 2; 0; 1; 0; 3; 0; 1; 0; 2; 0; 1; 0;
  4; 0; 1; 0; 2; 0; 1; 0; 3; 0; 1; 0; 2; 0; 1; 0;
  6; 0; 1; 0; 2; 0; 1; 0; 3; 0; 1; 0; 2; 0; 1; 0;
  4; 0; 1; 0; 2; 0; 1; 0; 3; 0; 1; 0; 2; 0; 1; 0;
  5; 0; 1; 0; 2; 0; 1; 0; 3; 0; 1; 0; 2; 0; 1; 0;
  4; 0; 1; 0; 2; 0; 1; 0; 3; 0; 1; 0; 2; 0; 1; 0;
  7; 0; 1; 0; 2; 0; 1; 0; 3; 0; 1; 0; 2; 0; 1; 0;
  4; 0; 1; 0; 2; 0; 1; 0; 3; 0; 1; 0; 2; 0; 1; 0;
  5; 0; 1; 0; 2; 0; 1; 0; 3; 0; 1; 0; 2; 0; 1; 0;
  4; 0; 1; 0; 2; 0; 1; 0; 3; 0; 1; 0; 2; 0; 1; 0;
  6; 0; 1; 0; 2; 0; 1; 0; 3; 0; 1; 0; 2; 0; 1; 0;
  4; 0; 1; 0; 2; 0; 1; 0; 3; 0; 1; 0; 2; 0; 1; 0;
  5; 0; 1; 0; 2; 0; 1; 0; 3; 0; 1; 0; 2; 0; 1; 0;
  4; 0; 1; 0; 2; 0; 1; 0; 3; 0; 1; 0; 2; 0; 1; 0 ].

(** [dos_bit_map[i]] *)
Definition bit_map_at (i : Z) : option Z := dos_bit_map !! Z.to_nat i.

(** [_dos_get_highest_priority] without [DOS_HW_CLZ_SUPT]; [None] is a read
    outside the table. *)
Definition get_highest_priority_table (pri : Z) : option Z :=
  if pri =? 0 then Some 0
  else if negb (Z.land pri 0xff =? 0) then bit_map_at (Z.land pri 0xff)
  else if negb (Z.land pri 0xff00 =? 0) then
    (fun b => b + 8) <$> bit_map_at (Z.shiftr (Z.land pri 0xff00) 8)
  else if negb (Z.land pri 0xff0000 =? 0) then
    (fun b => b + 16) <$> bit_map_at (Z.shiftr (Z.land pri 0xff0000) 16)
  else (fun b => b + 24) <$> bit_map_at (Z.shiftr (Z.land pri 0xff000000) 24).

(** ** Lowest set bit *)

Definition lowest_bit (x r : Z) : Prop :=
  0 <= r /\ Z.testbit x r = true /\ forall j, 0 <= j < r -> Z.testbit x j = false.

Lemma lowest_bit_unique x r1 r2 : lowest_bit x r1 -> lowest_bit x r2 -> r1 = r2.
Proof.
  intros (H1 & T1 & L1) (H2 & T2 & L2).
  destruct (Z.lt_trichotomy r1 r2) as [H|[H|H]]; [|done|].
  - rewrite L2 in T1 by lia. done.
  - rewrite L1 in T2 by lia. done.
Qed.

Lemma rbit_spec n : forall x i, 0 <= i ->
  Z.testbit (rbit n x) i = if i <? Z.of_nat n then Z.testbit x (Z.of_nat n - 1 - i) else false.
Proof.
  induction n as [|n IH]; intros x i Hi.
  - cbn [rbit]. rewrite Z.testbit_0_l. destruct (Z.ltb_spec i (Z.of_nat 0)); [lia|done].
  - cbn [rbit]. rewrite Z.lor_spec, IH by done.
    rewrite Z.shiftl_spec by done.
    destruct (Z.ltb_spec i (Z.of_nat n)), (Z.ltb_spec i (Z.of_nat (S n))); try lia.
    + rewrite Z.testbit_neg_r by lia. simpl. rewrite Z.shiftr_spec by lia. f_equal. lia.
    + assert (i = Z.of_nat n) as -> by lia. rewrite Z.sub_diag, orb_false_r.
      replace (Z.of_nat (S n) - 1 - Z.of_nat n) with 0 by lia. by destruct (Z.testbit x 0).
    + rewrite orb_false_r. apply Z.bits_above_log2.
      * by destruct (Z.testbit x 0).
      * destruct (Z.testbit x 0); simpl; lia.
Qed.

Lemma rbit_nonneg n x : 0 <= rbit n x.
Proof.
  revert x. induction n as [|n IH]; intros x; cbn [rbit]; [lia|].
  apply Z.lor_nonneg. split; [|done]. apply Z.shiftl_nonneg. by destruct (Z.testbit x 0).
Qed.

Lemma bit_below x i : 0 <= x < 2 ^ 32 -> 0 <= i -> Z.testbit x i = true -> i < 32.
Proof.
  intros Hx Hi Hb. destruct (Z.lt_ge_cases i 32) as [|Hge]; [done|].
  rewrite Z.bits_above_log2 in Hb; [done | lia |].
  destruct (Z.eq_dec x 0) as [->|]; [simpl; lia|].
  enough (Z.log2 x < 32) by lia. apply Z.log2_lt_pow2; lia.
Qed.

Lemma nonzero_bit x : 0 <= x -> x <> 0 -> exists i, 0 <= i /\ Z.testbit x i = true.
Proof.
  intros Hx Hne. exists (Z.log2 x). split; [apply Z.log2_nonneg|]. apply Z.bit_log2. lia.
Qed.

Lemma clz_lowest_bit x : 0 < x < 2 ^ 32 -> lowest_bit x (hard_ware_clz x).
Proof.
  intros Hx. unfold hard_ware_clz, clz.
  destruct (nonzero_bit x) as (i & Hi & Hb); [lia..|].
  pose proof (bit_below x i ltac:(lia) Hi Hb) as Hi32.
  assert (Hr : rbit 32 x <> 0).
  { intros E. assert (Z.testbit (rbit 32 x) (31 - i) = true) as T.
    { rewrite rbit_spec by lia. destruct (Z.ltb_spec (31 - i) (Z.of_nat 32)); [|lia].
      rewrite <- Hb. f_equal. lia. }
    rewrite E, Z.testbit_0_l in T. done. }
  destruct (Z.eqb_spec (rbit 32 x) 0); [done|].
  pose proof (rbit_nonneg 32 x). pose proof (Z.log2_nonneg (rbit 32 x)).
  pose proof (Z.bit_log2 (rbit 32 x) ltac:(lia)) as Hlog.
  rewrite rbit_spec in Hlog by done.
  destruct (Z.ltb_spec (Z.log2 (rbit 32 x)) (Z.of_nat 32)); [|done].
  split_and!; [lia | |].
  - rewrite <- Hlog. f_equal; lia.
  - intros j Hj. assert (Z.testbit (rbit 32 x) (31 - j) = false) as T.
    { apply Z.bits_above_log2; lia. }
    rewrite rbit_spec in T by lia.
    destruct (Z.ltb_spec (31 - j) (Z.of_nat 32)); [|lia]. rewrite <- T. f_equal. lia.
Qed.

Lemma highest_priority_spec pri :
  0 < pri < 2 ^ 32 -> lowest_bit pri (_dos_get_highest_priority pri).
Proof.
  intros H. unfold _dos_get_highest_priority.
  destruct (Z.eqb_spec pri 0); [lia|]. by apply clz_lowest_bit.
Qed.

Lemma highest_priority_range pri :
  0 <= pri < 2 ^ 32 -> 0 <= _dos_get_highest_priority pri < 32.
Proof.
  intros H. destruct (Z.eq_dec pri 0) as [->|]; [by vm_compute|].
  destruct (highest_priority_spec pri ltac:(lia)) as (H0 & H1 & _).
  split; [done|]. by eapply bit_below.
Qed.

(** ** The table *)

Definition lowest_bit_b (x r : Z) : bool :=
  (0 <=? r) && Z.testbit x r &&
  forallb (fun j => negb (Z.testbit x (Z.of_nat j))) (seq 0 (Z.to_nat r)).

Lemma lowest_bit_b_spec x r : lowest_bit_b x r = true -> lowest_bit x r.
Proof.
  unfold lowest_bit_b. intros [[H1%Z.leb_le H2]%andb_prop H3]%andb_prop.
  split_and!; [done | done |]. intros j Hj. rewrite forallb_forall in H3.
  specialize (H3 (Z.to_nat j)). rewrite Z2Nat.id in H3 by lia.
  apply negb_true_iff. apply H3. apply in_seq. lia.
Qed.

Lemma table_byte i : 0 < i < 256 -> exists b, bit_map_at i = Some b /\ lowest_bit i b.
Proof.
  intros Hi.
  assert (H : forallb (fun n => match bit_map_at (Z.of_nat n) with
      | Some b => lowest_bit_b (Z.of_nat n) b | None => false end) (seq 1 255) = true)
    by (vm_compute; done).
  rewrite forallb_forall in H. specialize (H (Z.to_nat i)).
  rewrite Z2Nat.id in H by lia. specialize (H ltac:(apply in_seq; lia)).
  destruct (bit_map_at i) as [b|]; [|done]. exists b. split; [done|]. by apply lowest_bit_b_spec.
Qed.

(** The byte of [x] at bit [k] decides when the bytes below are zero. *)
Lemma table_at x k :
  0 <= x -> 0 <= k ->
  (forall j, 0 <= j < k -> Z.testbit x j = false) ->
  Z.land x (Z.shiftl 0xff k) <> 0 ->
  exists b, bit_map_at (Z.shiftr (Z.land x (Z.shiftl 0xff k)) k) = Some b /\ lowest_bit x (b + k).
Proof.
  intros Hx Hk Hlow Hnz.
  set (y := Z.shiftr (Z.land x (Z.shiftl 0xff k)) k).
  assert (Hy : forall i, 0 <= i -> Z.testbit y i = (i <? 8) && Z.testbit x (i + k)).
  { intros i Hi. unfold y. rewrite Z.shiftr_spec, Z.land_spec, Z.shiftl_spec by lia.
    replace (i + k - k) with i by lia. change 0xff with (Z.ones 8).
    destruct (Z.ltb_spec i 8).
    - rewrite Z.ones_spec_low by lia. by rewrite andb_true_r.
    - rewrite Z.ones_spec_high by lia. by rewrite andb_false_r. }
  assert (Hy0 : 0 <= y).
  { unfold y. apply Z.shiftr_nonneg, Z.land_nonneg. by left. }
  assert (Hyn : y <> 0).
  { intros E. apply Hnz. apply Z.bits_inj'. intros i Hi. rewrite Z.testbit_0_l.
    rewrite Z.land_spec, Z.shiftl_spec by lia.
    destruct (Z.lt_ge_cases i k); [rewrite (Z.testbit_neg_r _ (i - k)) by lia; apply andb_false_r|].
    change 0xff with (Z.ones 8). destruct (Z.lt_ge_cases (i - k) 8).
    - specialize (Hy (i - k) ltac:(lia)). rewrite E, Z.testbit_0_l in Hy.
      destruct (Z.ltb_spec (i - k) 8); [|lia]. simpl in Hy.
      replace (i - k + k) with i in Hy by lia. by rewrite <- Hy.
    - rewrite Z.ones_spec_high by lia. apply andb_false_r. }
  assert (Hy256 : y < 256).
  { change 256 with (2 ^ 8). apply Z.log2_lt_pow2; [lia|].
    pose proof (Z.bit_log2 y ltac:(lia)) as T. rewrite Hy in T by apply Z.log2_nonneg.
    apply andb_prop in T as [T _]. by apply Z.ltb_lt in T. }
  destruct (table_byte y ltac:(lia)) as (b & Hb & Hb0 & Hb1 & Hb2).
  exists b. split; [done|]. rewrite Hy in Hb1 by done. apply andb_prop in Hb1 as [Hb8 Hb1].
  apply Z.ltb_lt in Hb8. split_and!; [lia | done |].
  intros j Hj. destruct (Z.lt_ge_cases j k); [by apply Hlow; lia|].
  specialize (Hb2 (j - k) ltac:(lia)). rewrite Hy in Hb2 by lia.
  destruct (Z.ltb_spec (j - k) 8); [|lia]. simpl in Hb2. by replace (j - k + k) with j in Hb2 by lia.
Qed.

(** A zero byte has no bits. *)
Lemma land_byte_zero x k j :
  Z.land x (Z.shiftl 0xff k) = 0 -> 0 <= k <= j -> j < k + 8 -> Z.testbit x j = false.
Proof.
  intros E Hj Hk. assert (T : Z.testbit (Z.land x (Z.shiftl 0xff k)) j = false)
    by (rewrite E; apply Z.testbit_0_l).
  rewrite Z.land_spec, Z.shiftl_spec in T by lia. change 0xff with (Z.ones 8) in T.
  rewrite Z.ones_spec_low, andb_true_r in T by lia. done.
Qed.

Lemma table_lowest_bit pri :
  0 < pri < 2 ^ 32 -> exists r, get_highest_priority_table pri = Some r /\ lowest_bit pri r.
Proof.
  intros Hp. unfold get_highest_priority_table.
  destruct (Z.eqb_spec pri 0); [lia|].
  destruct (Z.eqb_spec (Z.land pri 0xff) 0) as [E0|N0]; cbn [negb].
  2:{ destruct (table_at pri 0) as (b & Hb & Hl); [lia.. | done |].
      rewrite Z.shiftl_0_r, Z.shiftr_0_r in Hb. exists b. by rewrite Z.add_0_r in Hl. }
  pose proof (land_byte_zero pri 0) as L0. rewrite Z.shiftl_0_r in L0.
  destruct (Z.eqb_spec (Z.land pri 0xff00) 0) as [E1|N1]; cbn [negb].
  2:{ destruct (table_at pri 8) as (b & Hb & Hl); [lia | lia | | done |].
      { intros j Hj. apply L0; [done | lia | lia]. }
      exists (b + 8). change (Z.shiftl 0xff 8) with 0xff00 in Hb. by rewrite Hb. }
  pose proof (land_byte_zero pri 8) as L1. change (Z.shiftl 0xff 8) with 0xff00 in L1.
  destruct (Z.eqb_spec (Z.land pri 0xff0000) 0) as [E2|N2]; cbn [negb].
  2:{ destruct (table_at pri 16) as (b & Hb & Hl); [lia | lia | | done |].
      { intros j Hj. destruct (Z.lt_ge_cases j 8); [apply L0 | apply L1]; lia || done. }
      exists (b + 16). change (Z.shiftl 0xff 16) with 0xff0000 in Hb. by rewrite Hb. }
  pose proof (land_byte_zero pri 16) as L2. change (Z.shiftl 0xff 16) with 0xff0000 in L2.
  assert (Hlow : forall j, 0 <= j < 24 -> Z.testbit pri j = false).
  { intros j Hj. destruct (Z.lt_ge_cases j 8); [apply L0; lia || done|].
    destruct (Z.lt_ge_cases j 16); [apply L1 | apply L2]; lia || done. }
  destruct (table_at pri 24) as (b & Hb & Hl); [lia | lia | done | |].
  - destruct (nonzero_bit pri) as (i & Hi & Hb); [lia..|].
    pose proof (bit_below pri i ltac:(lia) Hi Hb). intros E.
    destruct (Z.lt_ge_cases i 24); [by rewrite Hlow in Hb|].
    by rewrite (land_byte_zero pri 24) in Hb by (done || lia).
  - exists (b + 24). change (Z.shiftl 0xff 24) with 0xff000000 in Hb. by rewrite Hb.
Qed.
