(* ===== verification/Kernel.v ===== *)
(** * Kernel state (structures of include/*.h, globals of task.c and sys.c)

    One record holds what the kernel's translation units share: the item and
    list store, the task control blocks, the globals of task.c and sys.c, the
    part of the processor state the kernel reads and writes, the heap, and the
    control blocks of semaphores, mutexes, queues, events and software timers.
    Control blocks live at the address their allocation returned.

    The address 0 is the vector table on the Cortex-M parts the kernel runs
    on: whether a read through a null pointer faults is a property of the
    state (whether the maps have an entry for it), not of the model. *)

From S2P Require Import Prelude TaskList Mem.

(** ** Configuration (include/config/dos_config.h) *)

Definition DOS_MAX_PRIORITY_NUM : Z := 32.
Definition DOS_IDLE_TASK_PRIORITY : Z := DOS_MAX_PRIORITY_NUM - 1.
Definition DOS_IDLE_TASK_SIZE : Z := 512.
Definition DOS_IDLE_TASK_TICK : Z := 20.
Definition DOS_WAIT_FOREVER : Z := 0xFFFFFFFF.
Definition DOS_YES : Z := 1.
Definition DOS_NO : Z := 0.

(** ** Task status (include/task.h) *)

Definition DOS_TASK_STATUS_MASK : Z := 0xFF.
Definition DOS_TASK_STATUS_UNUSED : Z := 0x01.
Definition DOS_TASK_STATUS_READY : Z := 0x02.
Definition DOS_TASK_STATUS_DELAY : Z := 0x08.
Definition DOS_TASK_STATUS_TIMEOUT : Z := 0x10.
Definition DOS_TASK_STATUS_SUSPEND : Z := 0x20.

(** [struct dos_task]; its [status_item] and [pend_item] are in the store. *)
Record dos_task_cb : Type := mk_task {
  stack_point : Z;
  stack_addr : Z;
  task_status : Z;
  priority : Z;
  stack_size : Z;
  top_of_stack : Z;
  task_entry : Z;
  parameter : Z;
  task_name : Z;
  task_tick : Z;
  task_init_tick : Z;
  wait_event : Z;
  wait_event_opt : Z;
  event_get : Z
}.

(** [sizeof(struct dos_task)] on the 32-bit targets. *)
Definition SIZEOF_TASK : Z := 92.

Definition set_status (v : Z) (c : dos_task_cb) : dos_task_cb :=
  mk_task (stack_point c) (stack_addr c) v (priority c) (stack_size c) (top_of_stack c)
    (task_entry c) (parameter c) (task_name c) (task_tick c) (task_init_tick c)
    (wait_event c) (wait_event_opt c) (event_get c).
Definition set_prio (v : Z) (c : dos_task_cb) : dos_task_cb :=
  mk_task (stack_point c) (stack_addr c) (task_status c) v (stack_size c) (top_of_stack c)
    (task_entry c) (parameter c) (task_name c) (task_tick c) (task_init_tick c)
    (wait_event c) (wait_event_opt c) (event_get c).
Definition set_task_tick (v : Z) (c : dos_task_cb) : dos_task_cb :=
  mk_task (stack_point c) (stack_addr c) (task_status c) (priority c) (stack_size c)
    (top_of_stack c) (task_entry c) (parameter c) (task_name c) v (task_init_tick c)
    (wait_event c) (wait_event_opt c) (event_get c).
Definition set_wait_event (ev op : Z) (c : dos_task_cb) : dos_task_cb :=
  mk_task (stack_point c) (stack_addr c) (task_status c) (priority c) (stack_size c)
    (top_of_stack c) (task_entry c) (parameter c) (task_name c) (task_tick c)
    (task_init_tick c) ev op (event_get c).
Definition set_event_get (v : Z) (c : dos_task_cb) : dos_task_cb :=
  mk_task (stack_point c) (stack_addr c) (task_status c) (priority c) (stack_size c)
    (top_of_stack c) (task_entry c) (parameter c) (task_name c) (task_tick c)
    (task_init_tick c) (wait_event c) (wait_event_opt c) v.

(** [task_status] is 16 bits wide. *)
Definition DOS_SET_TASK_STATUS (status : Z) (c : dos_task_cb) : dos_task_cb :=
  set_status (u16 (Z.lor (task_status c) status)) c.
Definition DOS_RESET_TASK_STATUS (status : Z) (c : dos_task_cb) : dos_task_cb :=
  set_status (u16 (Z.land (task_status c) (Z.lnot status))) c.

(** [task->task_status & status] *)
Definition has_status (c : dos_task_cb) (status : Z) : bool :=
  negb (Z.land (task_status c) status =? 0).

(** ** IPC control blocks (include/sem.h, mutex.h, queue.h, event.h) *)

Record dos_sem : Type := mk_sem {
  sem_count : Z;
  sem_max_count : Z
}.
Definition SIZEOF_SEM : Z := 36.

Record dos_mutex : Type := mk_mutex {
  mutex_count : Z;
  mutex_priority : Z;
  mutex_owner : Z
}.
Definition SIZEOF_MUTEX : Z := 36.

(** The message area behind the control block is [queue_data]; the arrays
    indexed by [QUEUE_READ] and [QUEUE_WRITE] are two fields each. *)
Record dos_queue : Type := mk_queue {
  queue_len : Z;
  queue_size : Z;
  queue_head_ptr : Z;
  queue_tail_ptr : Z;
  queue_read_count : Z;
  queue_write_count : Z;
  queue_read_ptr : Z;
  queue_write_ptr : Z;
  queue_data : list Z
}.
Definition SIZEOF_QUEUE : Z := 84.

Record dos_event : Type := mk_event {
  event_flag : Z
}.
Definition SIZEOF_EVENT : Z := 32.

(** [struct dos_swtmr] (include/swtmr.h): a timer is one of the two list heads
    of swtmr.c or a control block on the heap. *)
Inductive swtmr_ptr : Type :=
| SwtmrList1                       (* &_dos_swtmr_list1 *)
| SwtmrList2                       (* &_dos_swtmr_list2 *)
| Swtmr (addr : Z).

#[export] Instance swtmr_ptr_eq_dec : EqDecision swtmr_ptr.
Proof. solve_decision. Defined.

Definition swtmr_ptr_code (p : swtmr_ptr) : Z * Z :=
  match p with SwtmrList1 => (1, 0) | SwtmrList2 => (2, 0) | Swtmr a => (0, a) end.
Definition swtmr_ptr_decode (c : Z * Z) : swtmr_ptr :=
  match c with (1, _) => SwtmrList1 | (2, _) => SwtmrList2 | (_, a) => Swtmr a end.

#[export] Instance swtmr_ptr_countable : Countable swtmr_ptr.
Proof. apply (inj_countable' swtmr_ptr_code swtmr_ptr_decode). by intros []. Defined.

Record dos_swtmr : Type := mk_swtmr {
  swtmr_prev : swtmr_ptr;
  swtmr_next : swtmr_ptr;
  swtmr_parameter : Z;
  swtmr_call_backe : Z;
  swtmr_status : Z;
  swtmr_mode : Z;
  swtmr_timeout : Z;
  swtmr_wake_time : Z
}.
Definition SIZEOF_SWTMR : Z := 28.
Definition SIZEOF_SWTMR_MSG : Z := 8.

(** [struct dos_memp_node] and [struct dos_memp] (include/mem/memp.h);
    [memp_free_next] is [memp_free.next], the only field of it that is used. *)
Record dos_memp_node : Type := mk_memp_node {
  memp_status : Z;
  memp_owner : Z;
  memp_next : Z
}.
Definition SIZEOF_MEMP_NODE : Z := 12.

Record dos_memp : Type := mk_memp {
  memp_size : Z;
  memp_total_count : Z;
  memp_free_count : Z;
  memp_base : Z;
  memp_free_next : Z
}.
Definition SIZEOF_MEMP : Z := 28.

(** [struct dos_fifo] (include/salof/fifo.h) with its data area. *)
Record dos_fifo : Type := mk_fifo {
  fifo_size : Z;
  fifo_in : Z;
  fifo_out : Z;
  fifo_mutex_read : Z;
  fifo_mutex_write : Z;
  fifo_buffer : list Z
}.
Definition SIZEOF_FIFO : Z := 24.

(** ** Globals *)

(** swtmr.c *)
Record swtmr_globals : Type := mk_swtmr_globals {
  dos_swtmr_queue : Z;
  dos_swtmr_tcb : Z;
  dos_swtmr_ptr : swtmr_ptr;
  dos_swtmr_overflow_ptr : swtmr_ptr
}.

(** task.c *)
Record task_globals : Type := mk_globals {
  dos_task_priority : Z;
  dos_task_sleep_list : list_ptr;
  dos_task_sleep_overflow_list : list_ptr;
  dos_next_wake_tick : Z;
  dos_current_task : Z;
  dos_idle_task : Z;
  dos_tick_count : Z;
  dos_cur_priority : Z
}.

(** sys.c *)
Record sys_globals : Type := mk_sys {
  dos_system_is_run : Z;
  dos_scheduler_lock_count : Z;
  dos_interrupt_count : Z
}.

(** PRIMASK, IPSR and the PendSV pending bit. *)
Record cpu : Type := mk_cpu {
  primask : Z;
  ipsr : Z;
  pendsv : bool
}.

Record kernel : Type := mk_kernel {
  k_store : store;
  k_tcbs : gmap Z dos_task_cb;
  k_task : task_globals;
  k_sys : sys_globals;
  k_cpu : cpu;
  k_heap : heap;
  k_sems : gmap Z dos_sem;
  k_mutexes : gmap Z dos_mutex;
  k_queues : gmap Z dos_queue;
  k_events : gmap Z dos_event;
  k_swtmr : swtmr_globals;
  k_swtmrs : gmap swtmr_ptr dos_swtmr;
  k_memps : gmap Z dos_memp;
  k_memp_nodes : gmap Z dos_memp_node;
  k_fifos : gmap Z dos_fifo
}.

Definition set_k_store (v : store) (k : kernel) : kernel :=
  mk_kernel v (k_tcbs k) (k_task k) (k_sys k) (k_cpu k) (k_heap k)
    (k_sems k) (k_mutexes k) (k_queues k) (k_events k) (k_swtmr k)
    (k_swtmrs k) (k_memps k) (k_memp_nodes k) (k_fifos k).
Definition set_k_tcbs (v : gmap Z dos_task_cb) (k : kernel) : kernel :=
  mk_kernel (k_store k) v (k_task k) (k_sys k) (k_cpu k) (k_heap k)
    (k_sems k) (k_mutexes k) (k_queues k) (k_events k) (k_swtmr k)
    (k_swtmrs k) (k_memps k) (k_memp_nodes k) (k_fifos k).
Definition set_k_task (v : task_globals) (k : kernel) : kernel :=
  mk_kernel (k_store k) (k_tcbs k) v (k_sys k) (k_cpu k) (k_heap k)
    (k_sems k) (k_mutexes k) (k_queues k) (k_events k) (k_swtmr k)
    (k_swtmrs k) (k_memps k) (k_memp_nodes k) (k_fifos k).
Definition set_k_sys (v : sys_globals) (k : kernel) : kernel :=
  mk_kernel (k_store k) (k_tcbs k) (k_task k) v (k_cpu k) (k_heap k)
    (k_sems k) (k_mutexes k) (k_queues k) (k_events k) (k_swtmr k)
    (k_swtmrs k) (k_memps k) (k_memp_nodes k) (k_fifos k).
Definition set_k_cpu (v : cpu) (k : kernel) : kernel :=
  mk_kernel (k_store k) (k_tcbs k) (k_task k) (k_sys k) v (k_heap k)
    (k_sems k) (k_mutexes k) (k_queues k) (k_events k) (k_swtmr k)
    (k_swtmrs k) (k_memps k) (k_memp_nodes k) (k_fifos k).
Definition set_k_heap (v : heap) (k : kernel) : kernel :=
  mk_kernel (k_store k) (k_tcbs k) (k_task k) (k_sys k) (k_cpu k) v
    (k_sems k) (k_mutexes k) (k_queues k) (k_events k) (k_swtmr k)
    (k_swtmrs k) (k_memps k) (k_memp_nodes k) (k_fifos k).
Definition set_k_sems (v : gmap Z dos_sem) (k : kernel) : kernel :=
  mk_kernel (k_store k) (k_tcbs k) (k_task k) (k_sys k) (k_cpu k) (k_heap k)
    v (k_mutexes k) (k_queues k) (k_events k) (k_swtmr k)
    (k_swtmrs k) (k_memps k) (k_memp_nodes k) (k_fifos k).
Definition set_k_mutexes (v : gmap Z dos_mutex) (k : kernel) : kernel :=
  mk_kernel (k_store k) (k_tcbs k) (k_task k) (k_sys k) (k_cpu k) (k_heap k)
    (k_sems k) v (k_queues k) (k_events k) (k_swtmr k)
    (k_swtmrs k) (k_memps k) (k_memp_nodes k) (k_fifos k).
Definition set_k_queues (v : gmap Z dos_queue) (k : kernel) : kernel :=
  mk_kernel (k_store k) (k_tcbs k) (k_task k) (k_sys k) (k_cpu k) (k_heap k)
    (k_sems k) (k_mutexes k) v (k_events k) (k_swtmr k)
    (k_swtmrs k) (k_memps k) (k_memp_nodes k) (k_fifos k).
Definition set_k_events (v : gmap Z dos_event) (k : kernel) : kernel :=
  mk_kernel (k_store k) (k_tcbs k) (k_task k) (k_sys k) (k_cpu k) (k_heap k)
    (k_sems k) (k_mutexes k) (k_queues k) v (k_swtmr k)
    (k_swtmrs k) (k_memps k) (k_memp_nodes k) (k_fifos k).
Definition set_k_swtmr (v : swtmr_globals) (k : kernel) : kernel :=
  mk_kernel (k_store k) (k_tcbs k) (k_task k) (k_sys k) (k_cpu k) (k_heap k)
    (k_sems k) (k_mutexes k) (k_queues k) (k_events k) v
    (k_swtmrs k) (k_memps k) (k_memp_nodes k) (k_fifos k).
Definition set_k_swtmrs (v : gmap swtmr_ptr dos_swtmr) (k : kernel) : kernel :=
  mk_kernel (k_store k) (k_tcbs k) (k_task k) (k_sys k) (k_cpu k) (k_heap k)
    (k_sems k) (k_mutexes k) (k_queues k) (k_events k) (k_swtmr k)
    v (k_memps k) (k_memp_nodes k) (k_fifos k).
Definition set_k_memps (v : gmap Z dos_memp) (k : kernel) : kernel :=
  mk_kernel (k_store k) (k_tcbs k) (k_task k) (k_sys k) (k_cpu k) (k_heap k)
    (k_sems k) (k_mutexes k) (k_queues k) (k_events k) (k_swtmr k)
    (k_swtmrs k) v (k_memp_nodes k) (k_fifos k).
Definition set_k_memp_nodes (v : gmap Z dos_memp_node) (k : kernel) : kernel :=
  mk_kernel (k_store k) (k_tcbs k) (k_task k) (k_sys k) (k_cpu k) (k_heap k)
    (k_sems k) (k_mutexes k) (k_queues k) (k_events k) (k_swtmr k)
    (k_swtmrs k) (k_memps k) v (k_fifos k).
Definition set_k_fifos (v : gmap Z dos_fifo) (k : kernel) : kernel :=
  mk_kernel (k_store k) (k_tcbs k) (k_task k) (k_sys k) (k_cpu k) (k_heap k)
    (k_sems k) (k_mutexes k) (k_queues k) (k_events k) (k_swtmr k)
    (k_swtmrs k) (k_memps k) (k_memp_nodes k) v.

(** Assignments to the globals. *)
Definition assign_dos_task_priority (v : Z) (k : kernel) : kernel :=
  let g := k_task k in
  set_k_task (mk_globals v (dos_task_sleep_list g) (dos_task_sleep_overflow_list g) (dos_next_wake_tick g)
    (dos_current_task g) (dos_idle_task g) (dos_tick_count g) (dos_cur_priority g)) k.
Definition assign_dos_task_sleep_list (v : list_ptr) (k : kernel) : kernel :=
  let g := k_task k in
  set_k_task (mk_globals (dos_task_priority g) v (dos_task_sleep_overflow_list g) (dos_next_wake_tick g)
    (dos_current_task g) (dos_idle_task g) (dos_tick_count g) (dos_cur_priority g)) k.
Definition assign_dos_task_sleep_overflow_list (v : list_ptr) (k : kernel) : kernel :=
  let g := k_task k in
  set_k_task (mk_globals (dos_task_priority g) (dos_task_sleep_list g) v (dos_next_wake_tick g)
    (dos_current_task g) (dos_idle_task g) (dos_tick_count g) (dos_cur_priority g)) k.
Definition assign_dos_next_wake_tick (v : Z) (k : kernel) : kernel :=
  let g := k_task k in
  set_k_task (mk_globals (dos_task_priority g) (dos_task_sleep_list g) (dos_task_sleep_overflow_list g) v
    (dos_current_task g) (dos_idle_task g) (dos_tick_count g) (dos_cur_priority g)) k.
Definition assign_dos_current_task (v : Z) (k : kernel) : kernel :=
  let g := k_task k in
  set_k_task (mk_globals (dos_task_priority g) (dos_task_sleep_list g) (dos_task_sleep_overflow_list g)
    (dos_next_wake_tick g) v (dos_idle_task g) (dos_tick_count g) (dos_cur_priority g)) k.
Definition assign_dos_idle_task (v : Z) (k : kernel) : kernel :=
  let g := k_task k in
  set_k_task (mk_globals (dos_task_priority g) (dos_task_sleep_list g) (dos_task_sleep_overflow_list g)
    (dos_next_wake_tick g) (dos_current_task g) v (dos_tick_count g) (dos_cur_priority g)) k.
Definition assign_dos_tick_count (v : Z) (k : kernel) : kernel :=
  let g := k_task k in
  set_k_task (mk_globals (dos_task_priority g) (dos_task_sleep_list g) (dos_task_sleep_overflow_list g)
    (dos_next_wake_tick g) (dos_current_task g) (dos_idle_task g) v (dos_cur_priority g)) k.
Definition assign_dos_cur_priority (v : Z) (k : kernel) : kernel :=
  let g := k_task k in
  set_k_task (mk_globals (dos_task_priority g) (dos_task_sleep_list g) (dos_task_sleep_overflow_list g)
    (dos_next_wake_tick g) (dos_current_task g) (dos_idle_task g) (dos_tick_count g) v) k.
Definition assign_dos_system_is_run (v : Z) (k : kernel) : kernel :=
  let g := k_sys k in
  set_k_sys (mk_sys v (dos_scheduler_lock_count g) (dos_interrupt_count g)) k.
Definition assign_dos_scheduler_lock_count (v : Z) (k : kernel) : kernel :=
  let g := k_sys k in
  set_k_sys (mk_sys (dos_system_is_run g) v (dos_interrupt_count g)) k.
Definition assign_dos_interrupt_count (v : Z) (k : kernel) : kernel :=
  let g := k_sys k in
  set_k_sys (mk_sys (dos_system_is_run g) (dos_scheduler_lock_count g) v) k.
Definition assign_primask (v : Z) (k : kernel) : kernel :=
  let g := k_cpu k in
  set_k_cpu (mk_cpu v (ipsr g) (pendsv g)) k.
Definition assign_ipsr (v : Z) (k : kernel) : kernel :=
  let g := k_cpu k in
  set_k_cpu (mk_cpu (primask g) v (pendsv g)) k.
Definition assign_pendsv (v : bool) (k : kernel) : kernel :=
  let g := k_cpu k in
  set_k_cpu (mk_cpu (primask g) (ipsr g) v) k.

(** ** Access *)

Abbreviation kprog := (prog kernel).

Definition on_store {A} (m : prog store A) : kprog A := zoom k_store set_k_store m.
Definition on_heap {A} (m : prog heap A) : kprog A := zoom k_heap set_k_heap m.

Definition getg {A} (f : task_globals -> A) : kprog A := gets (fun k => f (k_task k)).

Definition put_task (t : Z) (c : dos_task_cb) (k : kernel) : kernel :=
  set_k_tcbs (<[t := c]> (k_tcbs k)) k.

Definition task_at (t : Z) : kprog dos_task_cb := deref (fun k => k_tcbs k !! t).
Definition upd_task (t : Z) (f : dos_task_cb -> dos_task_cb) : kprog unit :=
  c ← task_at t; modify (put_task t (f c)).

Definition sem_at (a : Z) : kprog dos_sem := deref (fun k => k_sems k !! a).
Definition put_sem (a : Z) (v : dos_sem) (k : kernel) : kernel :=
  set_k_sems (<[a := v]> (k_sems k)) k.
Definition mutex_at (a : Z) : kprog dos_mutex := deref (fun k => k_mutexes k !! a).
Definition put_mutex (a : Z) (v : dos_mutex) (k : kernel) : kernel :=
  set_k_mutexes (<[a := v]> (k_mutexes k)) k.
Definition queue_at (a : Z) : kprog dos_queue := deref (fun k => k_queues k !! a).
Definition put_queue (a : Z) (v : dos_queue) (k : kernel) : kernel :=
  set_k_queues (<[a := v]> (k_queues k)) k.
Definition event_at (a : Z) : kprog dos_event := deref (fun k => k_events k !! a).
Definition put_event (a : Z) (v : dos_event) (k : kernel) : kernel :=
  set_k_events (<[a := v]> (k_events k)) k.

Definition swtmr_at (p : swtmr_ptr) : kprog dos_swtmr := deref (fun k => k_swtmrs k !! p).
Definition put_swtmr (p : swtmr_ptr) (v : dos_swtmr) (k : kernel) : kernel :=
  set_k_swtmrs (<[p := v]> (k_swtmrs k)) k.
Definition upd_swtmr (p : swtmr_ptr) (f : dos_swtmr -> dos_swtmr) : kprog unit :=
  v ← swtmr_at p; modify (put_swtmr p (f v)).

Definition memp_at (a : Z) : kprog dos_memp := deref (fun k => k_memps k !! a).
Definition put_memp (a : Z) (v : dos_memp) (k : kernel) : kernel :=
  set_k_memps (<[a := v]> (k_memps k)) k.
Definition memp_node_at (a : Z) : kprog dos_memp_node := deref (fun k => k_memp_nodes k !! a).
Definition put_memp_node (a : Z) (v : dos_memp_node) (k : kernel) : kernel :=
  set_k_memp_nodes (<[a := v]> (k_memp_nodes k)) k.
Definition fifo_at (a : Z) : kprog dos_fifo := deref (fun k => k_fifos k !! a).
Definition put_fifo (a : Z) (v : dos_fifo) (k : kernel) : kernel :=
  set_k_fifos (<[a := v]> (k_fifos k)) k.

(** ** Port layer (src/port/arm/cortex-m3/port.s, port.c) *)

(** [mrs r0, primask; cpsid i] *)
Definition dos_interrupt_disable : kprog Z :=
  p ← gets (fun k => primask (k_cpu k));
  modify (assign_primask 1);;
  mret p.

(** [msr primask, r0] *)
Definition dos_interrupt_enable (pri : Z) : kprog unit := modify (assign_primask pri).

Definition dos_context_is_interrupt : kprog bool :=
  gets (fun k => negb (ipsr (k_cpu k) =? 0)).

(** [INT_CTRL_REG |= PENDSVSET_BIT] *)
Definition DOS_TASK_YIELD : kprog unit := modify (assign_pendsv true).

(** ** Suspension

    A call that blocks gives up the processor in its middle.  [Suspend k] is
    such a call stopped at its preemption point: [k] is the rest of the call,
    to be run when the scheduler has chosen the calling task again. *)
Inductive call (R : Type) : Type :=
| Return (r : R)
| Suspend (k : kprog R).
Arguments Return {R} r.
Arguments Suspend {R} k.
