(* ===== verification/Sched.v ===== *)
(** * Ready lists, sleep lists and the scheduler (task.c, sys.c)

    The functions of task.c that move a task between the ready, sleep and pend
    lists, the choice of the next task, and the scheduler with its lock and
    interrupt nesting counters from sys.c.  [PendSV_Handler] is the context
    switch of port.s as far as the kernel state sees it. *)

From S2P Require Import Prelude TaskList Mem Priority Kernel.

(** ** Ready map *)

(** [0x01 << prio] on a 32-bit register. *)
Definition priority_bit (prio : Z) : Z := u32 (Z.shiftl 1 prio).

Definition DOS_SET_TASK_PTIORITY (c : dos_task_cb) : kprog unit :=
  m ← getg dos_task_priority;
  modify (assign_dos_task_priority (Z.lor m (priority_bit (priority c)))).

Definition DOS_RESET_TASK_PTIORITY (c : dos_task_cb) : kprog unit :=
  m ← getg dos_task_priority;
  modify (assign_dos_task_priority (Z.land m (not32 (priority_bit (priority c))))).

(** ** List initialisation *)

(** [for (i = 0; i < DOS_MAX_PRIORITY_NUM; i++) dos_task_list_init(&list[i])] *)
Fixpoint priority_lists_init (n : nat) (i : Z) : kprog unit :=
  match n with
  | O => mret tt
  | S n' => on_store (dos_task_list_init (PriorityList i));; priority_lists_init n' (i + 1)
  end.

Definition _dos_task_priority_list_init : kprog unit :=
  modify (assign_dos_task_priority 0);;
  priority_lists_init (Z.to_nat DOS_MAX_PRIORITY_NUM) 0.

Definition _dos_task_sleep_list_init : kprog unit :=
  modify (assign_dos_task_sleep_list SleepList1);;
  modify (assign_dos_task_sleep_overflow_list SleepList2);;
  on_store (dos_task_list_init SleepList1);;
  on_store (dos_task_list_init SleepList2).

Definition _dos_task_list_init : kprog unit :=
  on_store (dos_task_list_init RecycleList);;
  _dos_task_priority_list_init;;
  _dos_task_sleep_list_init.

(** ** Moving tasks between lists *)

Definition _dos_insert_task_priority_list (task : Z) : kprog unit :=
  c ← task_at task;
  DOS_SET_TASK_PTIORITY c;;
  upd_task task (DOS_SET_TASK_STATUS DOS_TASK_STATUS_READY);;
  c ← task_at task;
  on_store (dos_task_item_insert (PriorityList (priority c)) (StatusItem task)).

(** "Remove a task from the corresponding status list", and clear the bit of
    its priority when no task of that priority is ready any more. *)
Definition remove_from_status_list (task : Z) : kprog unit :=
  n ← on_store (dos_task_item_del (StatusItem task));
  if n =? 0 then
    c ← task_at task;
    e ← on_store (dos_task_list_is_empty (PriorityList (priority c)));
    if (e : bool) then DOS_RESET_TASK_PTIORITY c else mret tt
  else mret tt.

Definition _dos_insert_task_sleep_list (sleep_tick : Z) : kprog unit :=
  cur_task ← getg dos_current_task;
  idle ← getg dos_idle_task;
  if idle =? cur_task then mret tt
  else
    upd_task cur_task (DOS_RESET_TASK_STATUS DOS_TASK_STATUS_READY);;
    upd_task cur_task (DOS_SET_TASK_STATUS DOS_TASK_STATUS_DELAY);;
    remove_from_status_list cur_task;;
    tick ← getg dos_tick_count;
    let value := u32 (tick + sleep_tick) in
    on_store (upd_item (StatusItem cur_task) (set_value value));;
    if value <? tick then
      ov ← getg dos_task_sleep_overflow_list;
      on_store (dos_task_item_insert ov (StatusItem cur_task))
    else
      sl ← getg dos_task_sleep_list;
      on_store (dos_task_item_insert sl (StatusItem cur_task));;
      nw ← getg dos_next_wake_tick;
      if nw >=? value then modify (assign_dos_next_wake_tick value) else mret tt.

Definition _dos_switch_sleep_list : kprog unit :=
  sl ← getg dos_task_sleep_list;
  e ← on_store (dos_task_list_is_empty sl);
  if (e : bool) then
    ov ← getg dos_task_sleep_overflow_list;
    modify (assign_dos_task_sleep_list ov);;
    modify (assign_dos_task_sleep_overflow_list sl);;
    e' ← on_store (dos_task_list_is_empty ov);
    if (e' : bool) then modify (assign_dos_next_wake_tick DOS_UINT32_MAX)
    else
      task ← on_store (dos_get_first_task ov);
      it ← on_store (item_at (StatusItem task));
      modify (assign_dos_next_wake_tick (dos_task_value it))
  else mret tt.

Definition dos_get_current_task : kprog Z :=
  pri ← dos_interrupt_disable;
  task ← getg dos_current_task;
  dos_interrupt_enable pri;;
  mret task.

Definition dos_get_tick : kprog Z := getg dos_tick_count.

Definition dos_get_task_name : kprog Z :=
  t ← getg dos_current_task; c ← task_at t; mret (task_name c).

Definition dos_task_wait (list : list_ptr) (timeout : Z) : kprog unit :=
  task ← getg dos_current_task;
  upd_task task (DOS_SET_TASK_STATUS DOS_TASK_STATUS_SUSPEND);;
  on_store (dos_task_item_insert list (PendItem task));;
  if negb (timeout =? DOS_WAIT_FOREVER) then _dos_insert_task_sleep_list timeout
  else
    upd_task task (DOS_RESET_TASK_STATUS DOS_TASK_STATUS_READY);;
    remove_from_status_list task.

Definition dos_task_wake (task : Z) : kprog unit :=
  on_store (dos_task_item_del (PendItem task));;
  on_store (dos_task_item_del (StatusItem task));;
  upd_task task
    (DOS_RESET_TASK_STATUS (Z.lor DOS_TASK_STATUS_SUSPEND DOS_TASK_STATUS_DELAY));;
  _dos_insert_task_priority_list task.

Definition dos_set_task_priority (task prio : Z) : kprog unit :=
  c ← task_at task;
  if has_status c DOS_TASK_STATUS_READY then
    remove_from_status_list task;;
    upd_task task (DOS_RESET_TASK_STATUS DOS_TASK_STATUS_READY);;
    upd_task task (set_prio prio);;
    _dos_insert_task_priority_list task
  else upd_task task (set_prio prio).

(** ** Choosing the next task *)

Definition dos_choose_task : kprog unit :=
  p ← getg dos_cur_priority;
  t ← on_store (dos_get_next_task (PriorityList p));
  modify (assign_dos_current_task t).

Definition dos_choose_highest_priority_task : kprog unit :=
  p ← getg dos_cur_priority;
  t ← on_store (dos_get_first_task (PriorityList p));
  modify (assign_dos_current_task t).

Definition dos_check_task_priority : kprog bool :=
  m ← getg dos_task_priority;
  modify (assign_dos_cur_priority (_dos_get_highest_priority m));;
  cp ← getg dos_cur_priority;
  cur ← getg dos_current_task;
  c ← task_at cur;
  if (cp <? priority c) || negb (has_status c DOS_TASK_STATUS_READY) then mret true
  else
    n ← on_store (dos_get_task_list_value (PriorityList (priority c)));
    if n >? 1 then
      upd_task cur (set_task_tick (u32 (task_tick c - 1)));;
      if u32 (task_tick c - 1) =? 0
      then upd_task cur (set_task_tick (task_init_tick c));; mret true
      else mret false
    else mret false.

Definition dos_reset_tick : kprog unit := modify (assign_dos_tick_count 0).

(** ** sys.c *)

Definition dos_set_system_status (status : Z) : kprog unit :=
  modify (assign_dos_system_is_run (u8 status)).

Definition dos_system_is_running : kprog bool :=
  gets (fun k => dos_system_is_run (k_sys k) =? DOS_YES).

Definition _dos_scheduler : kprog bool :=
  r ← dos_system_is_running;
  if (r : bool) then dos_check_task_priority else mret false.

Definition dos_scheduler_is_lock : kprog bool :=
  gets (fun k => negb (dos_scheduler_lock_count (k_sys k) =? 0)).

Definition dos_is_in_interrupt : kprog bool :=
  gets (fun k => negb (dos_interrupt_count (k_sys k) =? 0)).

Definition dos_scheduler : kprog unit :=
  i ← dos_is_in_interrupt;
  if (i : bool) then mret tt
  else
    l ← dos_scheduler_is_lock;
    if (l : bool) then mret tt
    else
      s ← _dos_scheduler;
      if (s : bool) then DOS_TASK_YIELD else mret tt.

Definition dos_scheduler_lock : kprog unit :=
  pri ← dos_interrupt_disable;
  n ← gets (fun k => dos_scheduler_lock_count (k_sys k));
  modify (assign_dos_scheduler_lock_count (u8 (n + 1)));;
  dos_interrupt_enable pri.

Definition dos_scheduler_unlock : kprog unit :=
  pri ← dos_interrupt_disable;
  n ← gets (fun k => dos_scheduler_lock_count (k_sys k));
  if n >? 0 then
    modify (assign_dos_scheduler_lock_count (u8 (n - 1)));;
    if u8 (n - 1) =? 0 then dos_interrupt_enable pri;; dos_scheduler
    else dos_interrupt_enable pri
  else dos_interrupt_enable pri.

Definition dos_interrupt_enter : kprog unit :=
  pri ← dos_interrupt_disable;
  r ← dos_system_is_running;
  x ← dos_context_is_interrupt;
  if negb r || negb x then dos_interrupt_enable pri
  else
    n ← gets (fun k => dos_interrupt_count (k_sys k));
    modify (assign_dos_interrupt_count (u8 (n + 1)));;
    dos_interrupt_enable pri.

Definition dos_interrupt_leave : kprog unit :=
  pri ← dos_interrupt_disable;
  r ← dos_system_is_running;
  x ← dos_context_is_interrupt;
  if negb r || negb x then dos_interrupt_enable pri
  else
    n ← gets (fun k => dos_interrupt_count (k_sys k));
    modify (assign_dos_interrupt_count (u8 (n - 1)));;
    i ← dos_is_in_interrupt;
    if (i : bool) then dos_interrupt_enable pri
    else dos_interrupt_enable pri;; dos_scheduler.

(** The context switch: it runs with interrupts masked, calls
    [dos_choose_task] and restores PRIMASK. *)
Definition PendSV_Handler : kprog unit :=
  pri ← dos_interrupt_disable;
  modify (assign_pendsv false);;
  dos_choose_task;;
  dos_interrupt_enable pri.

(** The processor takes a pending PendSV, the exception of the lowest
    priority, once interrupts are enabled and no handler is active. *)
Definition take_pendsv : kprog unit :=
  c ← gets k_cpu;
  if pendsv c && (primask c =? 0) && (ipsr c =? 0) then PendSV_Handler else mret tt.

(** ** Allocation under the scheduler lock (mem.c) *)

Definition dos_mem_alloc (size : Z) : kprog Z :=
  dos_scheduler_lock;;
  begin ← gets (fun k => align_mem_heap_begin (k_heap k));
  if begin =? DOS_NULL then mret DOS_NULL
  else
    r ← on_heap (mem_alloc size);
    dos_scheduler_unlock;;
    mret r.

Definition dos_mem_free (mem : Z) : kprog Z := on_heap (Mem.dos_mem_free mem).
