(* ===== verification/Task.v ===== *)
(** * Task life cycle and system start (task.c, sys.c, port.c)

    Creation, deletion, sleeping and exit of tasks, the idle task's
    reclamation of deleted tasks, and the initialisation of the kernel.

    [dos_task_create] does not write every field of the control block it
    allocates ([task_status] is only or-ed, [event_get] not touched): what the
    memory held before is the argument [raw].  The address of [dos_task_exit],
    which every task returns to, is an argument of [dos_stack_init]. *)

From S2P Require Import Prelude TaskList Mem Priority Kernel Sched.

(** ** Initial stack (port.c) *)

(** [*--sp = v] *)
Definition push (v : Z) (x : Z * gmap Z Z) : Z * gmap Z Z :=
  let sp := u32 (x.1 - 4) in (sp, <[sp := v]> x.2).

(** [sp -= n] *)
Definition skip_words (n : Z) (x : Z * gmap Z Z) : Z * gmap Z Z := (u32 (x.1 - 4 * n), x.2).

Definition dos_stack_init (mem : gmap Z Z) (sp task_entry task_exit parameter : Z) :
    Z * gmap Z Z :=
  skip_words 8 (push parameter (skip_words 4
    (push task_exit (push task_entry (push 0x01000000 (sp, mem)))))).

(** [_dos_task_init]: the top of the stack, 8-byte aligned, and the stack
    pointer below the initial frame. *)
Definition stack_top (addr size : Z) : Z :=
  Z.land (u32 (addr + u32 (size - 1))) (not32 7).

Definition _dos_task_init (c : dos_task_cb) : dos_task_cb :=
  let top := stack_top (stack_addr c) (stack_size c) in
  let sp := (dos_stack_init ∅ top (task_entry c) 0 (parameter c)).1 in
  mk_task sp (stack_addr c) (task_status c) (priority c) (stack_size c) top (task_entry c)
    (parameter c) (task_name c) (task_tick c) (task_init_tick c) (wait_event c)
    (wait_event_opt c) (event_get c).

(** ** Creation *)

(** The fields [dos_task_create] writes before [_dos_task_init]. *)
Definition new_task (raw : dos_task_cb) (name entry param stack size prio tick : Z) :
    dos_task_cb :=
  mk_task (stack_point raw) stack (task_status raw) prio size (top_of_stack raw) entry param
    name tick tick 0 0 (event_get raw).

Definition dos_task_create (raw : dos_task_cb)
    (name entry param stack_size prio tick : Z) : kprog Z :=
  if prio >? DOS_MAX_PRIORITY_NUM then mret DOS_NULL
  else
    task ← dos_mem_alloc SIZEOF_TASK;
    if task =? DOS_NULL then mret DOS_NULL
    else
      stack ← dos_mem_alloc stack_size;
      if stack =? DOS_NULL then dos_mem_free task;; mret DOS_NULL
      else
        let tick := if tick =? 0 then 1 else tick in
        on_store (dos_task_item_init (StatusItem task));;
        on_store (dos_task_item_init (PendItem task));;
        on_store (upd_item (StatusItem task) (set_owner task));;
        on_store (upd_item (PendItem task) (set_owner task));;
        on_store (upd_item (PendItem task) (set_value prio));;
        modify (put_task task
          (_dos_task_init (new_task raw name entry param stack stack_size prio tick)));;
        _dos_insert_task_priority_list task;;
        mret task.

(** ** Deletion *)

Definition dos_task_delete (task : Z) : kprog Z :=
  if task =? DOS_NULL then mret DOS_NOK
  else
    c ← task_at task;
    let status := task_status c in
    if DOS_TASK_STATUS_UNUSED =? status then mret DOS_NOK
    else
      lock ← dos_scheduler_is_lock;
      if (lock : bool) then mret DOS_NOK
      else
        (if has_status c DOS_TASK_STATUS_DELAY || has_status c DOS_TASK_STATUS_READY then
           pri ← dos_interrupt_disable;
           remove_from_status_list task;;
           dos_interrupt_enable pri
         else mret tt);;
        (if has_status c DOS_TASK_STATUS_SUSPEND
         then on_store (dos_task_item_del (PendItem task));; mret tt
         else mret tt);;
        upd_task task (DOS_RESET_TASK_STATUS DOS_TASK_STATUS_MASK);;
        upd_task task (DOS_SET_TASK_STATUS DOS_TASK_STATUS_UNUSED);;
        cur ← getg dos_current_task;
        if negb (task =? cur) then
          dos_mem_free task;;
          c' ← task_at task;
          dos_mem_free (stack_addr c');;
          mret DOS_OK
        else
          on_store (dos_task_item_insert RecycleList (StatusItem task));;
          mret DOS_OK.

(** One pass of the idle loop over the recycle list. *)
Definition idle_recycle : kprog unit :=
  e ← on_store (dos_task_list_is_empty RecycleList);
  if negb e then
    task ← on_store (dos_get_first_task RecycleList);
    on_store (dos_task_item_del (StatusItem task));;
    dos_mem_free task;;
    c ← task_at task;
    dos_mem_free (stack_addr c);;
    mret tt
  else mret tt.

(** ** Sleeping and exit *)

Definition dos_task_sleep (sleep_tick : Z) : kprog unit :=
  if sleep_tick =? 0 then dos_scheduler
  else
    pri ← dos_interrupt_disable;
    _dos_insert_task_sleep_list sleep_tick;;
    dos_scheduler;;
    dos_interrupt_enable pri.

Definition dos_task_exit : kprog unit :=
  t ← dos_get_current_task;
  dos_task_delete t;;
  dos_scheduler.

(** ** Start of the system *)

Definition _dos_create_idle_task (raw : dos_task_cb) (name idle_entry : Z) : kprog unit :=
  t ← dos_task_create raw name idle_entry DOS_NULL DOS_IDLE_TASK_SIZE DOS_IDLE_TASK_PRIORITY
        DOS_IDLE_TASK_TICK;
  modify (assign_dos_idle_task t).

Definition dos_task_init (raw : dos_task_cb) (name idle_entry : Z) : kprog unit :=
  _dos_task_list_init;;
  _dos_create_idle_task raw name idle_entry.

(** [dos_port_start] then loads the context of [dos_current_task]. *)
Definition dos_system_start_run : kprog unit :=
  dos_check_task_priority;;
  dos_choose_highest_priority_task;;
  dos_reset_tick;;
  dos_set_system_status DOS_YES.
