(* ===== verification/Sem.v ===== *)
(** * Counting semaphores (sem.c) *)

From S2P Require Import Prelude TaskList Mem Priority Kernel Sched.

Definition set_sem_count (n : Z) (v : dos_sem) : dos_sem := mk_sem n (sem_max_count v).

Definition upd_sem (sem : Z) (f : dos_sem -> dos_sem) : kprog unit :=
  v ← sem_at sem; modify (put_sem sem (f v)).

Definition dos_sem_create (cnt max_cnt : Z) : kprog Z :=
  sem ← dos_mem_alloc SIZEOF_SEM;
  if sem =? DOS_NULL then mret DOS_NULL
  else
    modify (put_sem sem (mk_sem 0 0));;
    modify (put_sem sem (mk_sem cnt max_cnt));;
    on_store (dos_task_list_init (SemPendList sem));;
    mret sem.

Definition dos_sem_delete (sem : Z) : kprog Z :=
  if negb (sem =? DOS_NULL) then
    e ← on_store (dos_task_list_is_empty (SemPendList sem));
    if (e : bool) then
      modify (fun k => set_k_sems (delete sem (k_sems k)) k);;
      dos_mem_free sem;;
      mret DOS_OK
    else mret DOS_NOK
  else mret DOS_NOK.

(** The end of a blocking call whose wait has timed out. *)
Definition wait_timed_out (task : Z) : kprog unit :=
  upd_task task
    (DOS_RESET_TASK_STATUS (Z.lor DOS_TASK_STATUS_TIMEOUT DOS_TASK_STATUS_SUSPEND));;
  upd_task task (DOS_SET_TASK_STATUS DOS_TASK_STATUS_READY);;
  on_store (dos_task_item_del (PendItem task));;
  mret tt.

(** The part of [dos_sem_pend] behind the task switch. *)
Definition sem_pend_resume : kprog Z :=
  task ← dos_get_current_task;
  c ← task_at task;
  if has_status c DOS_TASK_STATUS_TIMEOUT then
    pri ← dos_interrupt_disable;
    wait_timed_out task;;
    dos_interrupt_enable pri;;
    mret DOS_NOK
  else mret DOS_OK.

Definition dos_sem_pend (sem timeout : Z) : kprog (call Z) :=
  pri ← dos_interrupt_disable;
  if sem =? DOS_NULL then dos_interrupt_enable pri;; mret (Return DOS_NOK)
  else
    v ← sem_at sem;
    if sem_count v >? 0 then
      upd_sem sem (set_sem_count (u32 (sem_count v - 1)));;
      dos_interrupt_enable pri;;
      mret (Return DOS_OK)
    else
      lock ← dos_scheduler_is_lock;
      if (timeout =? 0) || lock then dos_interrupt_enable pri;; mret (Return DOS_NOK)
      else
        i ← dos_context_is_interrupt;
        if (i : bool) then dos_interrupt_enable pri;; mret (Return DOS_NOK)
        else
          dos_task_wait (SemPendList sem) timeout;;
          dos_interrupt_enable pri;;
          dos_scheduler;;
          mret (Suspend sem_pend_resume).

Definition dos_sem_post (sem : Z) : kprog Z :=
  pri ← dos_interrupt_disable;
  if sem =? DOS_NULL then dos_interrupt_enable pri;; mret DOS_NOK
  else
    v ← sem_at sem;
    if sem_count v =? sem_max_count v then dos_interrupt_enable pri;; mret DOS_NOK
    else
      e ← on_store (dos_task_list_is_empty (SemPendList sem));
      if (e : bool) then
        upd_sem sem (set_sem_count (u32 (sem_count v + 1)));;
        dos_interrupt_enable pri;;
        mret DOS_OK
      else
        task ← on_store (dos_get_first_task (SemPendList sem));
        dos_task_wake task;;
        dos_interrupt_enable pri;;
        dos_scheduler;;
        mret DOS_OK.
