(* ===== verification/Mutex.v ===== *)
(** * Mutexes with priority inheritance (mutex.c) *)

From S2P Require Import Prelude TaskList Mem Priority Kernel Sched Sem.

Definition upd_mutex (mutex : Z) (f : dos_mutex -> dos_mutex) : kprog unit :=
  v ← mutex_at mutex; modify (put_mutex mutex (f v)).

(** [mutex_count] is 16 bits wide. *)
Definition set_mutex_count (n : Z) (v : dos_mutex) : dos_mutex :=
  mk_mutex (u16 n) (mutex_priority v) (mutex_owner v).

Definition dos_mutex_create : kprog Z :=
  mutex ← dos_mem_alloc SIZEOF_MUTEX;
  if mutex =? DOS_NULL then mret DOS_NULL
  else
    modify (put_mutex mutex (mk_mutex 0 0 DOS_NULL));;
    on_store (dos_task_list_init (MutexPendList mutex));;
    mret mutex.

Definition dos_mutex_delete (mutex : Z) : kprog Z :=
  if negb (mutex =? DOS_NULL) then
    e ← on_store (dos_task_list_is_empty (MutexPendList mutex));
    if (e : bool) then
      modify (fun k => set_k_mutexes (delete mutex (k_mutexes k)) k);;
      dos_mem_free mutex;;
      mret DOS_OK
    else mret DOS_NOK
  else mret DOS_NOK.

(** The part of [dos_mutex_pend] behind the task switch. *)
Definition mutex_pend_resume (task : Z) : kprog Z :=
  c ← task_at task;
  if has_status c DOS_TASK_STATUS_TIMEOUT then
    pri ← dos_interrupt_disable;
    wait_timed_out task;;
    dos_interrupt_enable pri;;
    mret DOS_NOK
  else mret DOS_OK.

Definition dos_mutex_pend (mutex timeout : Z) : kprog (call Z) :=
  i ← dos_context_is_interrupt;
  if (mutex =? DOS_NULL) || i then mret (Return DOS_NOK)
  else
    task ← dos_get_current_task;
    pri ← dos_interrupt_disable;
    v ← mutex_at mutex;
    if mutex_count v =? 0 then
      c ← task_at task;
      modify (put_mutex mutex (mk_mutex (u16 (mutex_count v + 1)) (priority c) task));;
      dos_interrupt_enable pri;;
      mret (Return DOS_OK)
    else if mutex_owner v =? task then
      upd_mutex mutex (set_mutex_count (mutex_count v + 1));;
      dos_interrupt_enable pri;;
      mret (Return DOS_OK)
    else
      lock ← dos_scheduler_is_lock;
      if (timeout =? 0) || lock then dos_interrupt_enable pri;; mret (Return DOS_NOK)
      else
        c ← task_at task;
        (if mutex_priority v >? priority c
         then dos_set_task_priority (mutex_owner v) (priority c) else mret tt);;
        dos_task_wait (MutexPendList mutex) timeout;;
        dos_interrupt_enable pri;;
        dos_scheduler;;
        mret (Suspend (mutex_pend_resume task)).

(** The last post: the owner's priority is restored, then the mutex is handed
    over or freed. *)
Definition mutex_release (mutex pri : Z) (v : dos_mutex) : kprog (call Z) :=
  o ← task_at (mutex_owner v);
  (if negb (priority o =? mutex_priority v)
   then dos_set_task_priority (mutex_owner v) (mutex_priority v) else mret tt);;
  e ← on_store (dos_task_list_is_empty (MutexPendList mutex));
  if negb e then
    task' ← on_store (dos_get_first_task (MutexPendList mutex));
    c ← task_at task';
    v1 ← mutex_at mutex;
    modify (put_mutex mutex (mk_mutex (u16 (mutex_count v1 + 1)) (priority c) task'));;
    dos_task_wake task';;
    dos_interrupt_enable pri;;
    dos_scheduler;;
    mret (Suspend (dos_interrupt_enable pri;; mret DOS_OK))
  else
    upd_mutex mutex (fun v => mk_mutex (mutex_count v) 0 DOS_NULL);;
    dos_interrupt_enable pri;;
    mret (Return DOS_OK).

Definition dos_mutex_post (mutex : Z) : kprog (call Z) :=
  i ← dos_context_is_interrupt;
  if (mutex =? DOS_NULL) || i then mret (Return DOS_NOK)
  else
    task ← dos_get_current_task;
    pri ← dos_interrupt_disable;
    v ← mutex_at mutex;
    if (mutex_count v =? 0) || negb (mutex_owner v =? task) then
      dos_interrupt_enable pri;;
      mret (Return DOS_NOK)
    else
      upd_mutex mutex (set_mutex_count (mutex_count v - 1));;
      if negb (u16 (mutex_count v - 1) =? 0) then
        dos_interrupt_enable pri;;
        mret (Return DOS_OK)
      else mutex_release mutex pri v.
