(* ===== verification/Queue.v ===== *)
(** * Message queues (queue.c)

    The message area of a queue follows its control block; the two message
    pointers are addresses in it.  A caller's buffer is the list of its bytes,
    or [None] for a null pointer; a call returns the error code and what the
    buffer holds afterwards. *)

From S2P Require Import Prelude TaskList Mem Priority Kernel Sched Sem.

Definition QUEUE_READ : Z := 0.
Definition QUEUE_WRITE : Z := 1.

Definition upd_queue (queue : Z) (f : dos_queue -> dos_queue) : kprog unit :=
  v ← queue_at queue; modify (put_queue queue (f v)).

(** [queue_rw_count[op]] (16 bits wide) and [queue_rw_ptr[op]]. *)
Definition queue_rw_count (op : Z) (v : dos_queue) : Z :=
  if op =? QUEUE_READ then queue_read_count v else queue_write_count v.
Definition queue_rw_ptr (op : Z) (v : dos_queue) : Z :=
  if op =? QUEUE_READ then queue_read_ptr v else queue_write_ptr v.

Definition set_rw_count (op n : Z) (v : dos_queue) : dos_queue :=
  mk_queue (queue_len v) (queue_size v) (queue_head_ptr v) (queue_tail_ptr v)
    (if op =? QUEUE_READ then u16 n else queue_read_count v)
    (if op =? QUEUE_READ then queue_write_count v else u16 n)
    (queue_read_ptr v) (queue_write_ptr v) (queue_data v).
Definition set_rw_ptr (op p : Z) (v : dos_queue) : dos_queue :=
  mk_queue (queue_len v) (queue_size v) (queue_head_ptr v) (queue_tail_ptr v)
    (queue_read_count v) (queue_write_count v)
    (if op =? QUEUE_READ then p else queue_read_ptr v)
    (if op =? QUEUE_READ then queue_write_ptr v else p) (queue_data v).
Definition set_queue_data (d : list Z) (v : dos_queue) : dos_queue :=
  mk_queue (queue_len v) (queue_size v) (queue_head_ptr v) (queue_tail_ptr v)
    (queue_read_count v) (queue_write_count v) (queue_read_ptr v) (queue_write_ptr v) d.

(** The [n] bytes at offset [off], and [bs] stored at offset [off]. *)
Definition bytes_at (d : list Z) (off n : nat) : list Z := take n (drop off d).
Definition bytes_put (d : list Z) (off : nat) (bs : list Z) : list Z :=
  take off d ++ bs ++ drop (off + length bs) d.

(** [memcpy] between the buffer and the message at [queue_rw_ptr[op]]; an
    access outside the message area or the buffer is a fault. *)
Definition _dos_queue_copy (queue : Z) (buff : list Z) (size op : Z) : kprog (list Z) :=
  pri ← dos_interrupt_disable;
  v ← queue_at queue;
  let off := Z.to_nat (queue_rw_ptr op v - queue_head_ptr v) in
  let n := Z.to_nat size in
  buff' ← (if op =? QUEUE_READ then
             if decide ((off + n <= length (queue_data v))%nat /\ (n <= length buff)%nat)
             then mret (bytes_put buff 0 (bytes_at (queue_data v) off n))
             else fault
           else
             if decide ((off + n <= length (queue_data v))%nat /\ (n <= length buff)%nat)
             then modify (put_queue queue
                    (set_queue_data (bytes_put (queue_data v) off (take n buff)) v));;
                  mret buff
             else fault);
  v ← queue_at queue;
  let p := u32 (queue_rw_ptr op v + queue_size v) in
  upd_queue queue (set_rw_ptr op p);;
  (if p =? queue_tail_ptr v then upd_queue queue (set_rw_ptr op (queue_head_ptr v)) else mret tt);;
  dos_interrupt_enable pri;;
  mret buff'.

(** The branch that wakes the first task waiting for the opposite operation;
    only the choice of the task and its waking are masked. *)
Definition queue_wake_waiter (queue op : Z) : kprog unit :=
  pri ← dos_interrupt_disable;
  task ← on_store (dos_get_first_task (QueuePendList queue (1 - op)));
  dos_task_wake task;;
  dos_interrupt_enable pri;;
  dos_scheduler.

(** The branch without a waiter: one more opposite operation can succeed. *)
Definition queue_count_up (queue op : Z) : kprog unit :=
  v ← queue_at queue;
  upd_queue queue (set_rw_count (1 - op) (queue_rw_count (1 - op) v + 1)).

(** The end of the handler.  The code masks interrupts inside the copy and
    inside [queue_wake_waiter] but not between them: the test of the list and
    the count are unmasked.  As one function this is the run that no other task
    cuts in two; [QueueSpec.queue_wake_race] is a run that is cut. *)
Definition queue_transfer (queue : Z) (buff : list Z) (size op : Z) : kprog (Z * list Z) :=
  buff' ← _dos_queue_copy queue buff size op;
  e ← on_store (dos_task_list_is_empty (QueuePendList queue (1 - op)));
  (if negb e then queue_wake_waiter queue op else queue_count_up queue op);;
  mret (DOS_OK, buff').

(** The part of the handler behind the task switch; the code runs it with
    interrupts enabled (sem.c, mutex.c and event.c mask them here). *)
Definition queue_resume (queue : Z) (buff : list Z) (size op : Z) : kprog (Z * list Z) :=
  task ← dos_get_current_task;
  c ← task_at task;
  if has_status c DOS_TASK_STATUS_TIMEOUT then wait_timed_out task;; mret (DOS_NOK, buff)
  else queue_transfer queue buff size op.

Definition _dos_queue_handler (queue : Z) (buff : option (list Z)) (size op timeout : Z) :
    kprog (call (Z * list Z)) :=
  pri ← dos_interrupt_disable;
  let fail := (DOS_NOK, default [] buff) in
  match buff with
  | None => dos_interrupt_enable pri;; mret (Return fail)
  | Some bs =>
      if (queue =? DOS_NULL) || (size =? 0) || (op >? QUEUE_WRITE)
      then dos_interrupt_enable pri;; mret (Return fail)
      else
        v ← queue_at queue;
        let size := Z.min size (queue_size v) in
        if queue_rw_count op v =? 0 then
          if timeout =? 0 then dos_interrupt_enable pri;; mret (Return fail)
          else
            i ← dos_context_is_interrupt;
            if (i : bool) then dos_interrupt_enable pri;; mret (Return fail)
            else
              lock ← dos_scheduler_is_lock;
              if (lock : bool) then dos_interrupt_enable pri;; mret (Return fail)
              else
                dos_task_wait (QueuePendList queue op) timeout;;
                dos_interrupt_enable pri;;
                dos_scheduler;;
                mret (Suspend (queue_resume queue bs size op))
        else
          upd_queue queue (set_rw_count op (queue_rw_count op v - 1));;
          dos_interrupt_enable pri;;
          r ← queue_transfer queue bs size op;
          mret (Return r)
  end.

Definition dos_queue_create (len size : Z) : kprog Z :=
  if (len <=? 0) || (size <=? 0) then mret DOS_NULL
  else
    let queue_bytes := u32 (len * size) in
    queue ← dos_mem_alloc (u32 (SIZEOF_QUEUE + queue_bytes));
    if queue =? DOS_NULL then mret DOS_NULL
    else
      let head := u32 (queue + SIZEOF_QUEUE) in
      modify (put_queue queue
        (mk_queue len size head (u32 (head + u32 (len * size))) 0 (u16 len) head head
           (repeat 0 (Z.to_nat queue_bytes))));;
      on_store (dos_task_list_init (QueuePendList queue QUEUE_READ));;
      on_store (dos_task_list_init (QueuePendList queue QUEUE_WRITE));;
      mret queue.

Definition dos_queue_delete (queue : Z) : kprog Z :=
  if negb (queue =? DOS_NULL) then
    r ← on_store (dos_task_list_is_empty (QueuePendList queue QUEUE_READ));
    w ← (if (r : bool) then on_store (dos_task_list_is_empty (QueuePendList queue QUEUE_WRITE))
         else mret false);
    if (w : bool) then
      modify (fun k => set_k_queues (delete queue (k_queues k)) k);;
      dos_mem_free queue;;
      mret DOS_OK
    else mret DOS_NOK
  else mret DOS_NOK.

Definition dos_queue_read (queue : Z) (buff : option (list Z)) (size timeout : Z) :
    kprog (call (Z * list Z)) :=
  _dos_queue_handler queue buff size QUEUE_READ timeout.

Definition dos_queue_write (queue : Z) (buff : option (list Z)) (size timeout : Z) :
    kprog (call (Z * list Z)) :=
  _dos_queue_handler queue buff size QUEUE_WRITE timeout.
