(* ===== verification/Event.v ===== *)
(** * Event groups (event.c) *)

From S2P Require Import Prelude TaskList Mem Priority Kernel Sched Sem.

Definition WAIT_EVENT_OP : Z := 0x03.
Definition WAIT_ANY_EVENT : Z := 0x01.
Definition WAIT_ALL_EVENT : Z := 0x02.
Definition NO_CLR_EVENT : Z := 0x04.

(** Whether the flags satisfy a request, and the flags that remain. *)
Definition event_match (flag want_event op : Z) : bool :=
  let option := Z.land op WAIT_EVENT_OP in
  if option =? WAIT_ANY_EVENT then negb (Z.land flag want_event =? 0)
  else if option =? WAIT_ALL_EVENT then Z.land flag want_event =? want_event
  else false.

Definition event_clear (flag want_event op : Z) : Z :=
  if Z.land op NO_CLR_EVENT =? 0 then Z.land flag (not32 want_event) else flag.

Definition _dos_check_event (event want_event op : Z) : kprog bool :=
  v ← event_at event;
  if event_match (event_flag v) want_event op then
    modify (put_event event (mk_event (event_clear (event_flag v) want_event op)));;
    mret true
  else mret false.

Definition dos_event_create : kprog Z :=
  event ← dos_mem_alloc SIZEOF_EVENT;
  if event =? DOS_NULL then mret DOS_NULL
  else
    modify (put_event event (mk_event 0));;
    on_store (dos_task_list_init (EventPendList event));;
    mret event.

Definition dos_event_delete (event : Z) : kprog Z :=
  if negb (event =? DOS_NULL) then
    e ← on_store (dos_task_list_is_empty (EventPendList event));
    if (e : bool) then
      modify (fun k => set_k_events (delete event (k_events k)) k);;
      dos_mem_free event;;
      mret DOS_OK
    else mret DOS_NOK
  else mret DOS_NOK.

(** The part of [dos_event_wait] behind the task switch. *)
Definition event_wait_resume (task wait : Z) : kprog Z :=
  c ← task_at task;
  if has_status c DOS_TASK_STATUS_TIMEOUT then
    pri ← dos_interrupt_disable;
    wait_timed_out task;;
    upd_task task (fun c => set_wait_event (Z.land (wait_event c) (not32 wait)) 0 c);;
    dos_interrupt_enable pri;;
    mret 0
  else mret (event_get c).

Definition dos_event_wait (event wait op timeout : Z) : kprog (call Z) :=
  pri ← dos_interrupt_disable;
  if (event =? DOS_NULL) || (wait =? 0) then dos_interrupt_enable pri;; mret (Return 0)
  else if Z.land op WAIT_EVENT_OP =? WAIT_EVENT_OP
  then dos_interrupt_enable pri;; mret (Return 0)
  else
    got ← _dos_check_event event wait op;
    if (got : bool) then dos_interrupt_enable pri;; mret (Return wait)
    else
      lock ← dos_scheduler_is_lock;
      if (timeout =? 0) || lock then dos_interrupt_enable pri;; mret (Return 0)
      else
        i ← dos_context_is_interrupt;
        if (i : bool) then dos_interrupt_enable pri;; mret (Return 0)
        else
          task ← dos_get_current_task;
          upd_task task (set_wait_event wait op);;
          dos_task_wait (EventPendList event) timeout;;
          dos_interrupt_enable pri;;
          dos_scheduler;;
          mret (Suspend (event_wait_resume task wait)).

(** [for (value = dos_get_task_list_value(list); value > 0; value--)] *)
Fixpoint event_wake_loop (value : nat) (event : Z) : kprog unit :=
  match value with
  | O => mret tt
  | S value' =>
      task ← on_store (dos_get_next_task (EventPendList event));
      c ← task_at task;
      got ← _dos_check_event event (wait_event c) (wait_event_opt c);
      (if (got : bool) then
         upd_task task (fun c => set_event_get (wait_event c) c);;
         dos_task_wake task;;
         dos_scheduler
       else mret tt);;
      event_wake_loop value' event
  end.

Definition dos_event_set (event set_event : Z) : kprog (call Z) :=
  pri ← dos_interrupt_disable;
  if (event =? DOS_NULL) || (set_event =? 0) then dos_interrupt_enable pri;; mret (Return 0)
  else
    v ← event_at event;
    modify (put_event event (mk_event (Z.lor (event_flag v) set_event)));;
    dos_interrupt_enable pri;;
    e ← on_store (dos_task_list_is_empty (EventPendList event));
    if negb e then
      dos_scheduler_lock;;
      value ← on_store (dos_get_task_list_value (EventPendList event));
      event_wake_loop (Z.to_nat value) event;;
      dos_scheduler_unlock;;
      mret (Suspend (v' ← event_at event; mret (event_flag v')))
    else
      v' ← event_at event;
      mret (Return (event_flag v')).
