(* ===== verification/Swtmr.v ===== *)
(** * Software timers (swtmr.c)

    Running timers are in one of two lists sorted by wake-up time, one for
    this round of the tick counter and one for the next; the list heads are
    timers with the wake-up time 0xFFFFFFFF.  All changes are made by the
    timer task: the API sends it messages through a queue.  A pass of the
    task's loop is in two parts, because [dos_queue_read] may block in its
    middle.  The functions the timers call are the argument [callback]. *)

From S2P Require Import Prelude TaskList Mem Priority Kernel Sched Task Sem Queue.

Definition dos_swtmr_mode_one : Z := 0x01.
Definition dos_swtmr_mode_period : Z := 0x02.
Definition dos_swtmr_mode_mask : Z := 0x03.

Definition dos_swtmr_opt_start : Z := 0x01.
Definition dos_swtmr_opt_stop : Z := 0x02.
Definition dos_swtmr_opt_delete : Z := 0x04.
Definition dos_swtmr_opt_overflow : Z := 0x08.

Definition DOS_SWTMR_STATUS_UNUSED : Z := 0x00.
Definition DOS_SWTMR_STATUS_CREATE : Z := 0x01.
Definition DOS_SWTMR_STATUS_RUNNING : Z := 0x02.
Definition DOS_SWTMR_STATUS_STOP : Z := 0x04.

Definition DOS_SWTMR_QUEUE_SIZE : Z := 4.
Definition DOS_SWTMR_TASK_SIZE : Z := 1024.
Definition DOS_SWTMR_TASK_PRIORITY : Z := 0.
Definition DOS_SWTMR_TASK_TICK : Z := 20.

(** ** Fields *)

Definition swtmr_set_prev (p : swtmr_ptr) (v : dos_swtmr) : dos_swtmr :=
  mk_swtmr p (swtmr_next v) (swtmr_parameter v) (swtmr_call_backe v) (swtmr_status v)
    (swtmr_mode v) (swtmr_timeout v) (swtmr_wake_time v).
Definition swtmr_set_next (p : swtmr_ptr) (v : dos_swtmr) : dos_swtmr :=
  mk_swtmr (swtmr_prev v) p (swtmr_parameter v) (swtmr_call_backe v) (swtmr_status v)
    (swtmr_mode v) (swtmr_timeout v) (swtmr_wake_time v).
Definition swtmr_set_status (s : Z) (v : dos_swtmr) : dos_swtmr :=
  mk_swtmr (swtmr_prev v) (swtmr_next v) (swtmr_parameter v) (swtmr_call_backe v) s
    (swtmr_mode v) (swtmr_timeout v) (swtmr_wake_time v).
Definition swtmr_set_wake_time (w : Z) (v : dos_swtmr) : dos_swtmr :=
  mk_swtmr (swtmr_prev v) (swtmr_next v) (swtmr_parameter v) (swtmr_call_backe v)
    (swtmr_status v) (swtmr_mode v) (swtmr_timeout v) w.

Definition getw {A} (f : swtmr_globals -> A) : kprog A := gets (fun k => f (k_swtmr k)).

(** ** The timer lists *)

Definition _dos_swtmr_switch_ptr : kprog unit :=
  modify (fun k => let g := k_swtmr k in
    set_k_swtmr (mk_swtmr_globals (dos_swtmr_queue g) (dos_swtmr_tcb g)
      (dos_swtmr_overflow_ptr g) (dos_swtmr_ptr g)) k).

(** [for (item = head; item->next->wake_time <= wake_time; item = item->next);] *)
Fixpoint swtmr_position (fuel : nat) (swtmr_item : swtmr_ptr) (wake_time : Z) :
    kprog swtmr_ptr :=
  match fuel with
  | O => fun _ => NoFuel
  | S fuel' =>
      it ← swtmr_at swtmr_item;
      nx ← swtmr_at (swtmr_next it);
      if swtmr_wake_time nx <=? wake_time
      then swtmr_position fuel' (swtmr_next it) wake_time
      else mret swtmr_item
  end.

Definition _dos_swtmr_start (swtmr : swtmr_ptr) : kprog unit :=
  cur_time ← dos_get_tick;
  v ← swtmr_at swtmr;
  let wake := u32 (cur_time + swtmr_timeout v) in
  upd_swtmr swtmr (swtmr_set_wake_time wake);;
  fuel ← gets (fun k => S (size (k_swtmrs k)));
  swtmr_item ← (if wake <? cur_time then
                  head ← getw dos_swtmr_overflow_ptr; swtmr_position fuel head wake
                else if wake =? 0xFFFFFFFF then
                  head ← getw dos_swtmr_ptr; h ← swtmr_at head; mret (swtmr_prev h)
                else head ← getw dos_swtmr_ptr; swtmr_position fuel head wake);
  it ← swtmr_at swtmr_item;
  upd_swtmr swtmr (swtmr_set_next (swtmr_next it));;
  v ← swtmr_at swtmr;
  upd_swtmr (swtmr_next v) (swtmr_set_prev swtmr);;
  upd_swtmr swtmr (swtmr_set_prev swtmr_item);;
  upd_swtmr swtmr_item (swtmr_set_next swtmr);;
  upd_swtmr swtmr (swtmr_set_status DOS_SWTMR_STATUS_RUNNING).

Definition _dos_swtmr_stop (swtmr : swtmr_ptr) : kprog unit :=
  head ← getw dos_swtmr_ptr;
  h ← swtmr_at head;
  (if decide (swtmr_next h = swtmr)
   then v ← swtmr_at swtmr; upd_swtmr head (swtmr_set_next (swtmr_next v))
   else mret tt);;
  v ← swtmr_at swtmr;
  upd_swtmr (swtmr_prev v) (swtmr_set_next (swtmr_next v));;
  v ← swtmr_at swtmr;
  upd_swtmr (swtmr_next v) (swtmr_set_prev (swtmr_prev v));;
  upd_swtmr swtmr (swtmr_set_status DOS_SWTMR_STATUS_STOP);;
  upd_swtmr swtmr (swtmr_set_prev swtmr);;
  upd_swtmr swtmr (swtmr_set_next swtmr).

(** [memset(swtmr, 0, sizeof(struct dos_swtmr))] *)
Definition swtmr_zero : dos_swtmr := mk_swtmr (Swtmr DOS_NULL) (Swtmr DOS_NULL) 0 0 0 0 0 0.

Definition swtmr_addr (swtmr : swtmr_ptr) : Z :=
  match swtmr with Swtmr a => a | _ => DOS_NULL end.

(** A status that no case of the [switch] names goes to [stop] as well. *)
Definition _dos_swtmr_delete (swtmr : swtmr_ptr) : kprog Z :=
  if decide (swtmr = Swtmr DOS_NULL) then mret DOS_NOK
  else
    v ← swtmr_at swtmr;
    if swtmr_status v =? DOS_SWTMR_STATUS_UNUSED then mret DOS_NOK
    else
      (if (swtmr_status v =? DOS_SWTMR_STATUS_CREATE) ||
          (swtmr_status v =? DOS_SWTMR_STATUS_STOP) then mret tt
       else _dos_swtmr_stop swtmr);;
      dos_mem_free (swtmr_addr swtmr);;
      modify (put_swtmr swtmr swtmr_zero);;
      mret DOS_OK.

(** ** Messages *)

(** A 32-bit word in memory, least significant byte first. *)
Definition le32 (x : Z) : list Z :=
  [u8 x; u8 (Z.shiftr x 8); u8 (Z.shiftr x 16); u8 (Z.shiftr x 24)].
Definition of_le32 (bs : list Z) : Z :=
  match bs with
  | [a; b; c; d] => a + Z.shiftl b 8 + Z.shiftl c 16 + Z.shiftl d 24
  | _ => 0
  end.

(** [struct dos_swtmr_msg] *)
Definition swtmr_msg (op swtmr : Z) : list Z := le32 op ++ le32 swtmr.
Definition msg_opt (msg : list Z) : Z := of_le32 (take 4 msg).
Definition msg_swtmr (msg : list Z) : Z := of_le32 (take 4 (drop 4 msg)).

Definition _dos_swtmr_make_msg (swtmr op : Z) : kprog (call (Z * list Z)) :=
  if (swtmr =? DOS_NULL) && negb (op =? dos_swtmr_opt_overflow)
  then mret (Return (DOS_NOK, []))
  else
    queue ← getw dos_swtmr_queue;
    dos_queue_write queue (Some (swtmr_msg op swtmr)) SIZEOF_SWTMR_MSG 0.

Definition dos_swtmr_start (swtmr : Z) : kprog (call (Z * list Z)) :=
  _dos_swtmr_make_msg swtmr dos_swtmr_opt_start.
Definition dos_swtmr_stop (swtmr : Z) : kprog (call (Z * list Z)) :=
  _dos_swtmr_make_msg swtmr dos_swtmr_opt_stop.
Definition dos_swtmr_delete (swtmr : Z) : kprog (call (Z * list Z)) :=
  _dos_swtmr_make_msg swtmr dos_swtmr_opt_delete.
Definition dos_swtmr_overflow : kprog (call (Z * list Z)) :=
  _dos_swtmr_make_msg DOS_NULL dos_swtmr_opt_overflow.

(** ** The timer task *)

Definition _dos_get_swtmr : kprog swtmr_ptr :=
  head ← getw dos_swtmr_ptr; h ← swtmr_at head; mret (swtmr_next h).

Definition dos_get_swtmr_wake_time : kprog Z :=
  p ← _dos_get_swtmr; v ← swtmr_at p; mret (swtmr_wake_time v).

Definition _dos_swtmr_cmd_handle (opt : Z) (swtmr : swtmr_ptr) : kprog unit :=
  v ← swtmr_at swtmr;
  if swtmr_status v =? DOS_SWTMR_STATUS_UNUSED then mret tt
  else if opt =? dos_swtmr_opt_start then
    (if swtmr_status v =? DOS_SWTMR_STATUS_RUNNING then _dos_swtmr_stop swtmr else mret tt);;
    _dos_swtmr_start swtmr
  else if opt =? dos_swtmr_opt_stop then
    if swtmr_status v =? DOS_SWTMR_STATUS_RUNNING then _dos_swtmr_stop swtmr else mret tt
  else if opt =? dos_swtmr_opt_overflow then _dos_swtmr_switch_ptr
  else if opt =? dos_swtmr_opt_delete then _dos_swtmr_delete swtmr;; mret tt
  else mret tt.

Section timer_task.
Context (callback : Z -> Z -> kprog unit).

Definition _dos_swtmr_timeout_handle (swtmr : swtmr_ptr) : kprog unit :=
  v ← swtmr_at swtmr;
  if negb (swtmr_call_backe v =? DOS_NULL) then
    callback (swtmr_call_backe v) (swtmr_parameter v);;
    _dos_swtmr_stop swtmr;;
    v ← swtmr_at swtmr;
    if swtmr_mode v =? dos_swtmr_mode_period then _dos_swtmr_start swtmr
    else _dos_swtmr_delete swtmr;; mret tt
  else mret tt.

(** [while (cur_time >= wake_swtmr->swtmr_wake_time)] *)
Fixpoint swtmr_timeout_loop (fuel : nat) (wake_swtmr : swtmr_ptr) (cur_time : Z) : kprog unit :=
  match fuel with
  | O => fun _ => NoFuel
  | S fuel' =>
      v ← swtmr_at wake_swtmr;
      if cur_time >=? swtmr_wake_time v then
        _dos_swtmr_timeout_handle wake_swtmr;;
        wake' ← _dos_get_swtmr;
        cur_time' ← dos_get_tick;
        swtmr_timeout_loop fuel' wake' cur_time'
      else mret tt
  end.

(** [_dos_swtmr_task] up to and including [dos_queue_read] ... *)
Definition swtmr_task_wait : kprog (swtmr_ptr * call (Z * list Z)) :=
  wake_swtmr ← _dos_get_swtmr;
  cur_time ← dos_get_tick;
  head ← getw dos_swtmr_ptr;
  wait_time ← (if decide (wake_swtmr = head) then mret DOS_WAIT_FOREVER
               else v ← swtmr_at wake_swtmr; mret (u32 (swtmr_wake_time v - cur_time)));
  queue ← getw dos_swtmr_queue;
  r ← dos_queue_read queue (Some (repeat 0 8)) SIZEOF_SWTMR_MSG wait_time;
  mret (wake_swtmr, r).

(** ... and from there to the end of the pass. *)
Definition swtmr_task_handle (fuel : nat) (wake_swtmr : swtmr_ptr) (r : Z * list Z) :
    kprog unit :=
  if r.1 =? DOS_NOK then
    cur_time ← dos_get_tick;
    swtmr_timeout_loop fuel wake_swtmr cur_time
  else _dos_swtmr_cmd_handle (msg_opt r.2) (Swtmr (msg_swtmr r.2)).

End timer_task.

(** ** Initialisation and creation *)

Definition _Dos_Swtmr_ItemInit (swtmr : swtmr_ptr) : kprog unit :=
  modify (put_swtmr swtmr (mk_swtmr swtmr swtmr 0 0 DOS_SWTMR_STATUS_UNUSED 0 0 0xFFFFFFFF)).

Definition dos_swtmr_init (raw : dos_task_cb) (name entry : Z) : kprog Z :=
  queue ← dos_queue_create DOS_SWTMR_QUEUE_SIZE SIZEOF_SWTMR_MSG;
  modify (fun k => let g := k_swtmr k in
    set_k_swtmr (mk_swtmr_globals queue (dos_swtmr_tcb g) (dos_swtmr_ptr g)
      (dos_swtmr_overflow_ptr g)) k);;
  if queue =? DOS_NULL then mret DOS_NOK
  else
    tcb ← dos_task_create raw name entry DOS_NULL DOS_SWTMR_TASK_SIZE DOS_SWTMR_TASK_PRIORITY
            DOS_SWTMR_TASK_TICK;
    modify (fun k => let g := k_swtmr k in
      set_k_swtmr (mk_swtmr_globals (dos_swtmr_queue g) tcb (dos_swtmr_ptr g)
        (dos_swtmr_overflow_ptr g)) k);;
    if tcb =? DOS_NULL then mret DOS_NOK
    else
      _Dos_Swtmr_ItemInit SwtmrList1;;
      _Dos_Swtmr_ItemInit SwtmrList2;;
      modify (fun k => let g := k_swtmr k in
        set_k_swtmr (mk_swtmr_globals (dos_swtmr_queue g) (dos_swtmr_tcb g)
          SwtmrList1 SwtmrList2) k);;
      mret DOS_OK.

Definition dos_swtmr_create (timeout mode cb param : Z) : kprog Z :=
  swtmr ← dos_mem_alloc SIZEOF_SWTMR;
  if swtmr =? DOS_NULL then mret DOS_NULL
  else if (cb =? DOS_NULL) || (timeout =? 0) then mret DOS_NULL
  else if (Z.land mode dos_swtmr_mode_mask =? 0) ||
          (Z.land mode dos_swtmr_mode_mask =? dos_swtmr_mode_mask) then mret DOS_NULL
  else
    modify (put_swtmr (Swtmr swtmr)
      (mk_swtmr (Swtmr swtmr) (Swtmr swtmr) param cb DOS_SWTMR_STATUS_CREATE mode timeout 0));;
    mret swtmr.
