(* ===== verification/Tick.v ===== *)
(** * The system tick (dos_tick_update of task.c, SysTick_Handler of the ports) *)

From S2P Require Import Prelude TaskList Mem Priority Kernel Sched Queue Swtmr.

(** The loop body from [dos_task_item_del] on. *)
Definition expire_task (task : Z) : kprog unit :=
  on_store (dos_task_item_del (StatusItem task));;
  upd_task task (DOS_RESET_TASK_STATUS DOS_TASK_STATUS_DELAY);;
  c ← task_at task;
  (if has_status c DOS_TASK_STATUS_SUSPEND
   then upd_task task (DOS_SET_TASK_STATUS DOS_TASK_STATUS_TIMEOUT) else mret tt);;
  _dos_insert_task_priority_list task.

(** The loop over the tasks whose time has come. *)
Fixpoint wake_expired (fuel : nat) : kprog unit :=
  match fuel with
  | O => fun _ => NoFuel
  | S fuel' =>
      sl ← getg dos_task_sleep_list;
      e ← on_store (dos_task_list_is_empty sl);
      if (e : bool) then modify (assign_dos_next_wake_tick DOS_UINT32_MAX)
      else
        task ← on_store (dos_get_first_task sl);
        it ← on_store (item_at (StatusItem task));
        let tick := dos_task_value it in
        nw ← getg dos_next_wake_tick;
        if tick >? nw then modify (assign_dos_next_wake_tick tick)
        else expire_task task;; wake_expired fuel'
  end.

Definition dos_tick_update : kprog unit :=
  n ← getg dos_tick_count;
  modify (assign_dos_tick_count (u32 (n + 1)));;
  (if u32 (n + 1) =? 0 then _dos_switch_sleep_list;; dos_swtmr_overflow;; mret tt else mret tt);;
  tick ← getg dos_tick_count;
  nw ← getg dos_next_wake_tick;
  (if tick >=? nw then
     fuel ← gets (fun k => S (size (items (k_store k))));
     wake_expired fuel
   else mret tt);;
  dos_scheduler.

Definition SysTick_Handler : kprog unit :=
  dos_interrupt_enter;;
  dos_tick_update;;
  dos_interrupt_leave.
