(* ===== verification/Memp.v ===== *)
(** * Memory pools (mem/memp.c), configured to take their blocks from the heap *)

From S2P Require Import Prelude TaskList Mem Priority Kernel Sched.

Definition DOS_MEMP_STATUS_UNUSED : Z := 0x00.
Definition DOS_MEMP_STATUS_USED : Z := 0x01.

(** Creation does not write the status of a node. *)
Definition node_status (node : Z) (k : kernel) : Z :=
  match k_memp_nodes k !! node with Some n => memp_status n | None => 0 end.

Definition write_node (node memp next : Z) : kprog unit :=
  s ← gets (node_status node);
  modify (put_memp_node node (mk_memp_node s memp next)).

(** [for (i = 1; i < total; i++)]: [n] more nodes behind [node]. *)
Fixpoint memp_chain (n : nat) (memp node blk_size : Z) : kprog unit :=
  match n with
  | O => write_node node memp DOS_NULL
  | S n' =>
      let next_node := u32 (node + SIZEOF_MEMP_NODE + blk_size) in
      write_node node memp next_node;;
      memp_chain n' memp next_node blk_size
  end.

Definition dos_memp_create (memp_size blk_size : Z) : kprog Z :=
  if (blk_size =? 0) || (memp_size =? 0) || (memp_size <? blk_size) then mret DOS_NULL
  else
    let memp_cnt := memp_size / blk_size in
    memp ← dos_mem_alloc (u32 (SIZEOF_MEMP + SIZEOF_MEMP_NODE * memp_cnt + memp_size));
    if memp =? DOS_NULL then mret DOS_NULL
    else
      let base := u32 (memp + SIZEOF_MEMP) in
      modify (put_memp memp (mk_memp memp_size memp_cnt memp_cnt base base));;
      memp_chain (Z.to_nat (memp_cnt - 1)) memp base blk_size;;
      mret memp.

Definition dos_memp_alloc (memp : Z) : kprog Z :=
  m ← memp_at memp;
  if (memp_free_count m <=? 0) || (memp_free_next m =? DOS_NULL) then mret DOS_NULL
  else
    let node := memp_free_next m in
    n ← memp_node_at node;
    modify (put_memp_node node (mk_memp_node DOS_MEMP_STATUS_USED (memp_owner n) (memp_next n)));;
    modify (put_memp memp (mk_memp (memp_size m) (memp_total_count m)
      (u32 (memp_free_count m - 1)) (memp_base m) (memp_next n)));;
    mret (u32 (node + SIZEOF_MEMP_NODE)).

Definition dos_memp_free (ptr : Z) : kprog unit :=
  let node := u32 (ptr - SIZEOF_MEMP_NODE) in
  n ← memp_node_at node;
  let memp := memp_owner n in
  if (memp_status n =? DOS_MEMP_STATUS_UNUSED) || (memp =? DOS_NULL) then mret tt
  else
    m ← memp_at memp;
    if memp_free_count m >=? memp_total_count m then mret tt
    else
      modify (put_memp_node node
        (mk_memp_node DOS_MEMP_STATUS_UNUSED memp (memp_free_next m)));;
      modify (put_memp memp (mk_memp (memp_size m) (memp_total_count m)
        (u32 (memp_free_count m + 1)) (memp_base m) node)).
