(* ===== verification/Fifo.v ===== *)
(** * Byte FIFO (common/salof/fifo.c)

    A ring buffer of a power of two bytes with free running 32-bit counters,
    guarded by one mutex per direction.  The data movement is separate from
    the locking, as [fifo_put] and [fifo_take]. *)

From S2P Require Import Prelude TaskList Mem Priority Kernel Sched Sem Mutex.

(** ** Sizes *)

(** [if (!(x & mask)) { x <<= sh; r -= sh; }] *)
Definition flbs_step (mask sh : Z) (xr : Z * Z) : Z * Z :=
  if Z.land xr.1 mask =? 0 then (u32 (Z.shiftl xr.1 sh), xr.2 - sh) else xr.

Definition _dos_find_last_bit_set (x : Z) : Z :=
  if x =? 0 then 0
  else
    (flbs_step 0x80000000 1 (flbs_step 0xc0000000 2 (flbs_step 0xf0000000 4
      (flbs_step 0xff000000 8 (flbs_step 0xffff0000 16 (x, 32)))))).2.

Definition _dos_fifo_align (x : Z) : Z :=
  u32 (Z.shiftl 1 (_dos_find_last_bit_set (u32 (x - 1)) - 1)).

(** The size [dos_fifo_create] uses. *)
Definition fifo_round (size : Z) : Z :=
  if negb (Z.land size (u32 (size - 1)) =? 0) then _dos_fifo_align size else size.

(** The data area is not written: [raw] is what it held before. *)
Definition dos_fifo_create (raw : list Z) (size : Z) : kprog Z :=
  if size =? 0 then mret DOS_NULL
  else
    let size := fifo_round size in
    fifo ← dos_mem_alloc (u32 (SIZEOF_FIFO + size));
    if negb (fifo =? DOS_NULL) then
      r ← dos_mutex_create;
      if r =? DOS_NULL then dos_mem_free fifo;; mret DOS_NULL
      else
        w ← dos_mutex_create;
        if w =? DOS_NULL then
          dos_mem_free fifo;;
          dos_mutex_delete r;;
          mret DOS_NULL
        else
          modify (put_fifo fifo (mk_fifo size 0 0 r w raw));;
          mret fifo
    else mret DOS_NULL.

(** ** Data movement *)

Definition fifo_mem_put (d : list Z) (off : nat) (bs : list Z) : list Z :=
  take off d ++ bs ++ drop (off + length bs) d.

(** The number of bytes accepted and the new state. *)
Definition fifo_put (f : dos_fifo) (buff : list Z) (len : Z) : Z * dos_fifo :=
  let len := Z.min len (u32 (fifo_size f - fifo_in f + fifo_out f)) in
  let off := Z.land (fifo_in f) (u32 (fifo_size f - 1)) in
  let l := Z.min len (u32 (fifo_size f - off)) in
  let d := fifo_mem_put (fifo_buffer f) (Z.to_nat off) (take (Z.to_nat l) buff) in
  let d := fifo_mem_put d 0 (take (Z.to_nat (len - l)) (drop (Z.to_nat l) buff)) in
  (len, mk_fifo (fifo_size f) (u32 (fifo_in f + len)) (fifo_out f) (fifo_mutex_read f)
          (fifo_mutex_write f) d).

(** The bytes read and the new state. *)
Definition fifo_take (f : dos_fifo) (len : Z) : list Z * dos_fifo :=
  let len := Z.min len (u32 (fifo_in f - fifo_out f)) in
  let off := Z.land (fifo_out f) (u32 (fifo_size f - 1)) in
  let l := Z.min len (u32 (fifo_size f - off)) in
  (take (Z.to_nat l) (drop (Z.to_nat off) (fifo_buffer f)) ++
     take (Z.to_nat (len - l)) (fifo_buffer f),
   mk_fifo (fifo_size f) (fifo_in f) (u32 (fifo_out f + len)) (fifo_mutex_read f)
     (fifo_mutex_write f) (fifo_buffer f)).

(** ** Operations *)

(** Runs what follows a call, behind its suspension if it was suspended. *)
Definition after_call {R Q} (c : call R) (f : R -> kprog (call Q)) : kprog (call Q) :=
  match c with
  | Return r => f r
  | Suspend m => mret (Suspend (r ← m; c' ← f r;
                   match c' with Return q => mret q | Suspend m' => m' end))
  end.

(** What [dos_fifo_write] does once [dos_mutex_pend] has returned [err]. *)
Definition fifo_write_locked (fifo : Z) (buff : list Z) (len err : Z) : kprog (call Z) :=
  if err =? DOS_NOK then mret (Return 0)
  else
    f ← fifo_at fifo;
    let '(n, f') := fifo_put f buff len in
    modify (put_fifo fifo f');;
    c ← dos_mutex_post (fifo_mutex_write f);
    after_call c (fun _ => mret (Return n)).

Definition dos_fifo_write (fifo : Z) (buff : option (list Z)) (len timeout : Z) :
    kprog (call Z) :=
  match buff with
  | None => mret (Return 0)
  | Some bs =>
      if (fifo =? DOS_NULL) || (len =? 0) then mret (Return 0)
      else
        f ← fifo_at fifo;
        c ← dos_mutex_pend (fifo_mutex_write f) timeout;
        after_call c (fifo_write_locked fifo bs len)
  end.

Definition fifo_read_locked (fifo len err : Z) : kprog (call (list Z)) :=
  if err =? DOS_NOK then mret (Return [])
  else
    f ← fifo_at fifo;
    let '(bs, f') := fifo_take f len in
    modify (put_fifo fifo f');;
    c ← dos_mutex_post (fifo_mutex_read f);
    after_call c (fun _ => mret (Return bs)).

(** The bytes stored into the buffer; their number is the return value. *)
Definition dos_fifo_read (fifo : Z) (buff_ok : bool) (len timeout : Z) : kprog (call (list Z)) :=
  if negb buff_ok || (fifo =? DOS_NULL) || (len =? 0) then mret (Return [])
  else
    f ← fifo_at fifo;
    c ← dos_mutex_pend (fifo_mutex_read f) timeout;
    after_call c (fifo_read_locked fifo len).

Definition fifo_read_able (f : dos_fifo) : Z :=
  if fifo_in f =? fifo_out f then 0
  else if fifo_in f >? fifo_out f then u32 (fifo_in f - fifo_out f)
  else u32 (fifo_size f - (fifo_out f - fifo_in f)).

Definition dos_fifo_read_able (fifo : Z) : kprog Z :=
  if fifo =? DOS_NULL then mret 0 else f ← fifo_at fifo; mret (fifo_read_able f).

Definition dos_fifo_write_able (fifo : Z) : kprog Z :=
  f ← fifo_at fifo;
  r ← dos_fifo_read_able fifo;
  mret (u32 (fifo_size f - r)).
