(* ===== verification/Format.v ===== *)
(** * Formatted output (common/salof/format.c)

    Characters are bytes; a format string is the list of its characters
    without the terminating zero.  The variable arguments are a list of typed
    values, and fetching one of another type is a [Fault], as is indexing the
    digit string with a negative number. *)

From S2P Require Import Prelude.

(** ** Constants (format.h) *)

Definition S_DEFAULT : Z := 0.
Definition S_FLAGS : Z := 1.
Definition S_WIDTH : Z := 2.
Definition S_PRECIS : Z := 3.
Definition S_LENGTH : Z := 4.
Definition S_CONV : Z := 5.

Definition L_CHAR : Z := 1.
Definition L_SHORT : Z := 2.
Definition L_LONG : Z := 3.
Definition L_LLONG : Z := 4.
Definition L_DOUBLE : Z := 5.

Definition F_ALTERNATE : Z := 1.
Definition F_ZEROPAD : Z := 2.
Definition F_LEFT : Z := 4.
Definition F_SPACE : Z := 8.
Definition F_PLUS : Z := 16.
Definition F_SIGNED : Z := 32.
Definition F_SMALL : Z := 64.

Definition is_digit (c : Z) : bool := (48 <=? c) && (c <=? 57).

(** Conversion to [dos_int32]. *)
Definition i32 (x : Z) : Z := (x + 2 ^ 31) mod 2 ^ 32 - 2 ^ 31.

Definition has_flag (flags f : Z) : bool := negb (Z.land flags f =? 0).

(** ** Helpers *)

(** [for (n = 0; is_digit( **str ); ( *str )++) n = n * 10 + **str - '0';] *)
Fixpoint atoi_loop (n : Z) (str : list Z) : Z * list Z :=
  match str with
  | c :: str' => if is_digit c then atoi_loop (i32 (n * 10 + c - 48)) str' else (n, str)
  | [] => (n, [])
  end.

Definition _dos_get_atoi (str : list Z) : Z * list Z := atoi_loop 0 str.

(** The output buffer and the position in it. *)
Record out : Type := mk_out {
  o_buf : list Z;
  o_pos : Z
}.

Definition _dos_buff_put_char (max c : Z) (o : out) : out :=
  mk_out (if o_pos o <? max then <[Z.to_nat (o_pos o) := c]> (o_buf o) else o_buf o)
    (u32 (o_pos o + 1)).

Definition put_chars (max : Z) (cs : list Z) (o : out) : out :=
  foldl (fun o c => _dos_buff_put_char max c o) o cs.

Definition pad (n c : Z) : list Z := repeat c (Z.to_nat n).

(** ** Integers *)

Definition digit_char (small : bool) (d : Z) : Z :=
  if d <? 10 then 48 + d else (if small then 97 else 65) + (d - 10).

(** The [do ... while (n > 0)] loop: the digits, least significant first. *)
Fixpoint int_digits (fuel : nat) (small : bool) (base n : Z) : result (list Z) :=
  match fuel with
  | O => NoFuel
  | S fuel' =>
      let d := Z.rem n base in
      if d <? 0 then Fault
      else
        let c := digit_char small d in
        if Z.quot n base >? 0 then
          match int_digits fuel' small base (Z.quot n base) with
          | Done cs => Done (c :: cs)
          | Fault => Fault
          | NoFuel => NoFuel
          end
        else Done [c]
  end.

(** [altb]: the sign and the prefix of the alternate form. *)
Definition int_prefix (sign base flags : Z) : list Z :=
  (if sign =? 0 then [] else [sign]) ++
  (if has_flag flags F_ALTERNATE && ((base =? 8) || (base =? 16)) then
     48 :: (if base =? 16 then [if has_flag flags F_SMALL then 120 else 88] else [])
   else []).

Definition _dos_format_int (max num base width flags : Z) (o : out) : result out :=
  if (base <? 2) || (base >? 16) then Done o
  else
    let flags := if has_flag flags F_LEFT then Z.land flags (Z.lnot F_ZEROPAD) else flags in
    let neg := has_flag flags F_SIGNED && (num <? 0) in
    let n := if neg then i32 (- num) else i32 num in
    let sign := if neg then 45 else if has_flag flags F_PLUS then 43
                else if has_flag flags F_SPACE then 32 else 0 in
    match int_digits 64 (has_flag flags F_SMALL) base n with
    | Done nbuf =>
        let altb := int_prefix sign base flags in
        let i := Z.of_nat (length nbuf) in
        let j := Z.of_nat (length altb) in
        let npad := if width >? i + j then width - i - j else 0 in
        Done (put_chars max
          (if has_flag flags F_LEFT then altb ++ rev nbuf ++ pad npad 32
           else if has_flag flags F_ZEROPAD then altb ++ pad npad 48 ++ rev nbuf
           else pad npad 32 ++ altb ++ rev nbuf) o)
    | Fault => Fault
    | NoFuel => NoFuel
    end.

(** ** Characters and strings *)

Definition justify (cs : list Z) (npad flags : Z) : list Z :=
  if has_flag flags F_LEFT then cs ++ pad npad 32 else pad npad 32 ++ cs.

Definition _dos_format_char (max c width flags : Z) (o : out) : out :=
  let npad := if width >? 0 then width - 1 else 0 in
  put_chars max (justify [c] npad flags) o.

Definition _dos_strlen (s : list Z) : Z := Z.of_nat (length s).

(** [width - strlen(s)] is unsigned and converted back. *)
Definition _dos_format_str (max : Z) (s : list Z) (width flags : Z) (o : out) : out :=
  let npad := if width >? 0 then i32 (width - _dos_strlen s) else 0 in
  let npad := if npad <? 0 then 0 else npad in
  put_chars max (justify s npad flags) o.

(** ** The format interpreter *)

Inductive arg : Type :=
| ArgInt32 (x : Z)
| ArgInt64 (x : Z)
| ArgPtr (x : Z)
| ArgStr (s : option (list Z)).

Record fstate : Type := mk_fstate {
  f_state : Z;
  f_flags : Z;
  f_width : Z;
  f_precision : Z;
  f_lflags : Z;
  f_fmt : list Z;
  f_args : list arg;
  f_out : out
}.

Definition null_string : list Z := [40; 110; 117; 108; 108; 41].

(** [va_arg] *)
Definition next_int32 (st : fstate) : result (Z * list arg) :=
  match f_args st with ArgInt32 x :: r => Done (x, r) | _ => Fault end.
Definition next_int64 (st : fstate) : result (Z * list arg) :=
  match f_args st with ArgInt64 x :: r => Done (x, r) | _ => Fault end.

(** The number an integer conversion prints. *)
Definition fetch_num (c : Z) (st : fstate) : result (Z * list arg) :=
  if f_lflags st =? L_LONG then next_int32 st
  else if has_flag (f_lflags st) (Z.lor L_LLONG L_DOUBLE) then next_int64 st
  else if (c =? 100) || (c =? 105) then next_int32 st
  else match next_int32 st with
       | Done (x, r) => Done (u32 x, r)
       | Fault => Fault
       | NoFuel => NoFuel
       end.

Definition is_int_conv (c : Z) : bool :=
  (c =? 100) || (c =? 105) || (c =? 111) || (c =? 98) || (c =? 117) || (c =? 120) || (c =? 88).

Definition conv_base (c : Z) : Z :=
  if (c =? 120) || (c =? 88) then 16 else if c =? 111 then 8 else if c =? 98 then 2 else 10.

Definition conv_flags (c flags : Z) : Z :=
  if (c =? 100) || (c =? 105) then Z.lor flags F_SIGNED
  else if c =? 120 then Z.lor flags F_SMALL else flags.

(** [S_CONV]: the new state and the value of [c] behind the conversion. *)
Definition conv_step (size c : Z) (rest : list Z) (st : fstate) : result (fstate * Z) :=
  let done args o := mk_fstate S_DEFAULT (f_flags st) (f_width st) (f_precision st)
                       (f_lflags st) rest args o in
  if is_int_conv c then
    match fetch_num c st with
    | Done (num, args) =>
        match _dos_format_int size num (conv_base c) (f_width st)
                (conv_flags c (f_flags st)) (f_out st) with
        | Done o => Done (done args o, c)
        | Fault => Fault
        | NoFuel => NoFuel
        end
    | Fault => Fault
    | NoFuel => NoFuel
    end
  else if c =? 112 then
    match f_args st with
    | ArgPtr x :: args =>
        match _dos_format_int size (i32 x) 16 (f_width st)
                (Z.lor (f_flags st) (Z.lor F_SMALL F_ALTERNATE)) (f_out st) with
        | Done o => Done (done args o, c)
        | Fault => Fault
        | NoFuel => NoFuel
        end
    | _ => Fault
    end
  else if c =? 115 then
    match f_args st with
    | ArgStr s :: args =>
        Done (done args (_dos_format_str size (default null_string s) (f_width st)
                (f_flags st) (f_out st)), c)
    | _ => Fault
    end
  else if c =? 99 then
    match f_args st with
    | ArgInt32 x :: args =>
        Done (done args (_dos_format_char size (u8 x) (f_width st) (f_flags st) (f_out st)), u8 x)
    | _ => Fault
    end
  else if c =? 37 then Done (done (f_args st) (_dos_buff_put_char size c (f_out st)), c)
  else Done (done (f_args st)
         (_dos_buff_put_char size c (_dos_buff_put_char size 37 (f_out st))), c).

Definition flag_of (c : Z) : option Z :=
  if c =? 35 then Some F_ALTERNATE else if c =? 48 then Some F_ZEROPAD
  else if c =? 45 then Some F_LEFT else if c =? 32 then Some F_SPACE
  else if c =? 43 then Some F_PLUS else if (c =? 39) || (c =? 73) then Some 0 else None.

(** One turn of the [for (;;)] loop: [c] is the character read, [rest] what is
    behind it and [fmt] the string before the read, which [fmt--] returns to. *)
Definition format_step (size : Z) (st : fstate) : result (fstate * Z) :=
  let fmt := f_fmt st in
  let c := hd 0 fmt in
  let rest := tl fmt in
  let upd state flags width precision lflags fmt args o :=
    Done (mk_fstate state flags width precision lflags fmt args o, c) in
  if f_state st =? S_DEFAULT then
    if c =? 37 then
      upd S_FLAGS 0 (f_width st) (f_precision st) (f_lflags st) rest (f_args st) (f_out st)
    else
      upd S_DEFAULT (f_flags st) (f_width st) (f_precision st) (f_lflags st) rest (f_args st)
        (_dos_buff_put_char size c (f_out st))
  else if f_state st =? S_FLAGS then
    match flag_of c with
    | Some f => upd S_FLAGS (Z.lor (f_flags st) f) (f_width st) (f_precision st) (f_lflags st)
                  rest (f_args st) (f_out st)
    | None => upd S_WIDTH (f_flags st) 0 (f_precision st) (f_lflags st) fmt (f_args st) (f_out st)
    end
  else if f_state st =? S_WIDTH then
    if c =? 42 then
      match next_int32 st with
      | Done (w, args) =>
          if w <? 0
          then upd S_WIDTH (Z.lor (f_flags st) F_LEFT) (i32 (- w)) (f_precision st)
                 (f_lflags st) rest args (f_out st)
          else upd S_WIDTH (f_flags st) w (f_precision st) (f_lflags st) rest args (f_out st)
      | Fault => Fault
      | NoFuel => NoFuel
      end
    else if is_digit c && (c >? 48) then
      let '(w, fmt') := _dos_get_atoi fmt in
      upd S_WIDTH (f_flags st) w (f_precision st) (f_lflags st) fmt' (f_args st) (f_out st)
    else upd S_PRECIS (f_flags st) (f_width st) (-1) (f_lflags st) fmt (f_args st) (f_out st)
  else if f_state st =? S_PRECIS then
    if c =? 46 then
      if is_digit (hd 0 rest) then
        let '(p, fmt') := _dos_get_atoi rest in
        upd S_LENGTH (f_flags st) (f_width st) (if p <? 0 then 0 else p) 0 fmt' (f_args st)
          (f_out st)
      else if hd 0 rest =? 42 then
        match next_int32 st with
        | Done (p, args) =>
            upd S_LENGTH (f_flags st) (f_width st) (if p <? 0 then 0 else p) 0 rest args (f_out st)
        | Fault => Fault
        | NoFuel => NoFuel
        end
      else upd S_LENGTH (f_flags st) (f_width st)
             (if f_precision st <? 0 then 0 else f_precision st) 0 rest (f_args st) (f_out st)
    else upd S_LENGTH (f_flags st) (f_width st) (f_precision st) 0 fmt (f_args st) (f_out st)
  else if f_state st =? S_LENGTH then
    if c =? 104 then
      upd S_LENGTH (f_flags st) (f_width st) (f_precision st)
        (if f_lflags st =? L_CHAR then L_SHORT else L_CHAR) rest (f_args st) (f_out st)
    else if c =? 108 then
      upd S_LENGTH (f_flags st) (f_width st) (f_precision st)
        (if f_lflags st =? L_LONG then L_LLONG else L_LONG) rest (f_args st) (f_out st)
    else if c =? 76 then
      upd S_LENGTH (f_flags st) (f_width st) (f_precision st) L_DOUBLE rest (f_args st) (f_out st)
    else upd S_CONV (f_flags st) (f_width st) (f_precision st) (f_lflags st) fmt (f_args st)
           (f_out st)
  else conv_step size c rest st.

Fixpoint format_loop (fuel : nat) (size : Z) (st : fstate) : result fstate :=
  match fuel with
  | O => NoFuel
  | S fuel' =>
      match format_step size st with
      | Done (st', c) => if c =? 0 then Done st' else format_loop fuel' size st'
      | Fault => Fault
      | NoFuel => NoFuel
      end
  end.

(** Every character is read in at most six states. *)
Definition format_fuel (fmt : list Z) : nat := S (6 * S (length fmt)).

(** The buffer ([None] for a null pointer) and the return value. *)
Definition dos_format_nstr (buf : option (list Z)) (size : Z) (fmt : list Z) (ap : list arg) :
    result (list Z * Z) :=
  let size := match buf with None => 0 | Some _ => size end in
  match format_loop (format_fuel fmt) size
          (mk_fstate S_DEFAULT 0 0 0 0 fmt ap (mk_out (default [] buf) 0)) with
  | Done st =>
      let b := o_buf (f_out st) in
      let n := u32 (o_pos (f_out st) - 1) in
      Done (if n <? size then <[Z.to_nat n := 0]> b
            else if size >? 0 then <[Z.to_nat (size - 1) := 0]> b else b, i32 n)
  | Fault => Fault
  | NoFuel => NoFuel
  end.
