(* ===== verification/Salof.v ===== *)
(** * Log output and the command table (common/salof/salof.c, common/cmd_parser/cmd.c)

    The device output [send_buff] is not part of the repository's library: it
    is the argument of [dos_salof_out]. *)

From S2P Require Import Prelude TaskList Mem Priority Kernel Sched Sem Mutex Fifo Format.

Definition DOS_SALOF_BUFF_SIZE : Z := 256.
Definition DOS_SALOF_FIFO_SIZE : Z := 1024 * 4.

Definition dos_salof_out (send_buff : list Z -> Z -> Z) (buf : list Z) (len : Z) : Z :=
  send_buff buf len.

(** The length [dos_salof] passes on; the comparison is unsigned. *)
Definition salof_len (len : Z) : Z :=
  if u32 len >? DOS_SALOF_BUFF_SIZE then DOS_SALOF_BUFF_SIZE - 1 else len.

(** With the FIFO disabled: formats into the static buffer and sends it. *)
Definition dos_salof (send_buff : list Z -> Z -> Z) (buff : list Z) (fmt : list Z)
    (args : list arg) : result (list Z * Z) :=
  match dos_format_nstr (Some buff) (DOS_SALOF_BUFF_SIZE - 1) fmt args with
  | Done (b, len) => Done (b, dos_salof_out send_buff b (salof_len len))
  | Fault => Fault
  | NoFuel => NoFuel
  end.

(** With the FIFO enabled: the formatted bytes go to [Dos_Salof_Fifo]. *)
Definition dos_salof_fifo (fifo : Z) (buff : list Z) (fmt : list Z) (args : list arg) :
    kprog (call Z) :=
  match dos_format_nstr (Some buff) (DOS_SALOF_BUFF_SIZE - 1) fmt args with
  | Done (b, len) => dos_fifo_write fifo (Some b) (u32 (salof_len len)) 100
  | Fault => fault
  | NoFuel => fun _ => NoFuel
  end.

Definition dos_salof_init (raw : list Z) : kprog Z := dos_fifo_create raw DOS_SALOF_FIFO_SIZE.

(** ** Commands *)

(** The section of registered commands as words: a command is two words (name
    and handler addresses), and the linker may pad with zero words. *)
Record cmd_section : Type := mk_section {
  cmd_words : gmap Z Z;          (* the words at their addresses *)
  cmd_strings : gmap Z (list Z); (* the strings at their addresses *)
  _cmd_begin : Z;
  _cmd_end : Z
}.

Definition SIZEOF_CMD : Z := 8.

(** [while (( *ptr == 0) && (ptr < _cmd_end)) ptr++] *)
Fixpoint skip_zero (fuel : nat) (s : cmd_section) (ptr : Z) : result Z :=
  match fuel with
  | O => NoFuel
  | S fuel' =>
      match cmd_words s !! ptr with
      | None => Fault
      | Some w => if (w =? 0) && (ptr <? _cmd_end s) then skip_zero fuel' s (ptr + 4)
                  else Done ptr
      end
  end.

Definition _get_next_cmd (fuel : nat) (s : cmd_section) (cmd : Z) : result Z :=
  skip_zero fuel s (cmd + SIZEOF_CMD).

(** The strings without their terminating zero. *)
Fixpoint _cmd_match (str cmd : list Z) : Z :=
  match str, cmd with
  | a :: str', b :: cmd' => if a =? b then _cmd_match str' cmd' else a - b
  | a :: _, [] => a
  | [], b :: _ => 0 - b
  | [], [] => 0
  end.

(** The handlers [cmd_parsing] calls, in order. *)
Fixpoint cmd_parsing_loop (fuel : nat) (s : cmd_section) (str : list Z) (index : Z) :
    result (list Z) :=
  match fuel with
  | O => NoFuel
  | S fuel' =>
      if index <? _cmd_end s then
        match cmd_words s !! index, cmd_words s !! (index + 4) with
        | Some name, Some handler =>
            match cmd_strings s !! name with
            | Some cmd =>
                match _get_next_cmd fuel s index with
                | Done next =>
                    match cmd_parsing_loop fuel' s str next with
                    | Done hs => Done (if _cmd_match str cmd =? 0 then handler :: hs else hs)
                    | Fault => Fault
                    | NoFuel => NoFuel
                    end
                | Fault => Fault
                | NoFuel => NoFuel
                end
            | None => Fault
            end
        | _, _ => Fault
        end
      else Done []
  end.

Definition cmd_parsing (fuel : nat) (s : cmd_section) (str : list Z) : result (list Z) :=
  cmd_parsing_loop fuel s str (_cmd_begin s).
