(* ===== verification/Start.v ===== *)
(** * System initialisation and the idle task (sys.c, task.c)

    [dos_system_init] initialises the heap, the log FIFO, the task lists with
    the idle task, and the software timers.  The arguments stand for what the
    linker and the memory contents decide: the address of the heap array, the
    addresses of the task functions and names, and the previous contents of the
    memory that becomes control blocks and the FIFO's data area.  The logo that
    is printed first only goes to the output device. *)

From S2P Require Import Prelude TaskList Mem Priority Kernel Sched Task Sem Mutex Queue Swtmr.
From S2P Require Import Fifo Format Salof.

(** The result is [Dos_Salof_Fifo]. *)
Definition dos_system_init (memheap_addr : Z) (fifo_raw : list Z) (idle_raw swtmr_raw : dos_task_cb)
    (idle_name idle_entry swtmr_name swtmr_entry : Z) : kprog Z :=
  on_heap (dos_mem_heap_init memheap_addr);;
  fifo ← dos_salof_init fifo_raw;
  dos_task_init idle_raw idle_name idle_entry;;
  dos_swtmr_init swtmr_raw swtmr_name swtmr_entry;;
  mret fifo.

(** One turn of the loop of [_dos_idle_task]: the bytes of the log FIFO, which
    go to [dos_salof_out], and the reclamation of one deleted task. *)
Definition _dos_idle_task (fifo : Z) : kprog (call (list Z)) :=
  c ← dos_fifo_read fifo true 256 0;
  after_call c (fun bytes => idle_recycle;; mret (Return bytes)).
