(* ===== verification/SysArch.v ===== *)
(** * The operating system layer of lwIP (common/lwip/arch/sys_arch.c)

    The port maps the stack's semaphores, mutexes, mailboxes and threads to
    kernel objects.  Handles are passed by reference in C; here a function
    returns the new value of the handle next to its result. *)

From S2P Require Import Prelude TaskList Mem Priority Kernel Sched Task Sem Mutex Queue Swtmr.
From S2P Require Import Fifo.

Definition ERR_OK : Z := 0.
Definition ERR_MEM : Z := -1.
Definition SYS_ARCH_TIMEOUT : Z := 0xFFFFFFFF.
Definition SYS_MBOX_EMPTY : Z := SYS_ARCH_TIMEOUT.
Definition SYS_THREAD_MAX : Z := 4.
Definition DOS_TICK_PERIOD_MS : Z := 1.

(** ** Per-thread timeouts *)

(** [struct timeoutlist]: the head of the thread's timeouts and the thread. *)
Record timeoutlist : Type := mk_timeoutlist {
  timeouts_next : Z;
  pid : Z
}.

Record arch_state : Type := mk_arch {
  s_timeoutlist : list timeoutlist;
  s_nextthread : Z
}.

Definition sys_init (_ : arch_state) : arch_state :=
  mk_arch (repeat (mk_timeoutlist 0 0) (Z.to_nat SYS_THREAD_MAX)) 0.

(** The index of the thread's entry, if any. *)
Fixpoint timeouts_index (n : nat) (i : nat) (l : list timeoutlist) (p : Z) : option nat :=
  match n, l with
  | S n', tl :: l' => if pid tl =? p then Some i else timeouts_index n' (S i) l' p
  | _, _ => None
  end.

Definition sys_arch_timeouts (a : arch_state) : kprog (option nat) :=
  p ← dos_get_current_task;
  mret (timeouts_index (Z.to_nat (s_nextthread a)) 0 (s_timeoutlist a) p).

Definition sys_now : kprog Z := dos_get_tick.
Definition sys_jiffies : kprog Z := dos_get_tick.

Definition sys_arch_protect : kprog Z := dos_interrupt_disable.
Definition sys_arch_unprotect (pval : Z) : kprog unit := dos_interrupt_enable pval.

(** ** Semaphores *)

(** [#define dos_binary_sem_create(x) dos_sem_create(x, 1)] *)
Definition dos_binary_sem_create (cnt : Z) : kprog Z := dos_sem_create cnt 1.

Definition sys_sem_new (count : Z) : kprog (Z * Z) :=
  sem ← (if count <=? 1 then
           s ← dos_binary_sem_create count;
           (if count =? 1 then dos_sem_post s;; mret tt else mret tt);;
           mret s
         else dos_sem_create count count);
  mret (if negb (sem =? DOS_NULL) then ERR_OK else ERR_MEM, sem).

Definition sys_sem_free (sem : Z) : kprog Z := dos_sem_delete sem;; mret DOS_NULL.
Definition sys_sem_valid (sem : Z) : bool := negb (sem =? DOS_NULL).
Definition sys_sem_set_invalid (_ : Z) : Z := DOS_NULL.

(** Milliseconds to ticks, at least one; zero waits for ever. *)
Definition ms_to_ticks (timeout : Z) : Z :=
  if negb (timeout =? 0) then
    let w := timeout / DOS_TICK_PERIOD_MS in if w =? 0 then 1 else w
  else DOS_WAIT_FOREVER.

Definition sys_arch_sem_wait (sem timeout : Z) : kprog (call Z) :=
  if sem =? DOS_NULL then mret (Return SYS_ARCH_TIMEOUT)
  else
    start_tick ← dos_get_tick;
    c ← dos_sem_pend sem (ms_to_ticks timeout);
    after_call c (fun err =>
      if err =? DOS_OK then
        now ← dos_get_tick; mret (Return (u32 (u32 (now - start_tick) * DOS_TICK_PERIOD_MS)))
      else mret (Return SYS_ARCH_TIMEOUT)).

Definition sys_sem_signal (sem : Z) : kprog unit := dos_sem_post sem;; mret tt.

(** ** Mutexes *)

Definition sys_mutex_new : kprog (Z * Z) :=
  mutex ← dos_mutex_create;
  mret (if negb (mutex =? DOS_NULL) then ERR_OK else ERR_MEM, mutex).

Definition sys_mutex_free (mutex : Z) : kprog unit := dos_mutex_delete mutex;; mret tt.
Definition sys_mutex_set_invalid (_ : Z) : Z := DOS_NULL.
Definition sys_mutex_lock (mutex : Z) : kprog (call Z) := dos_mutex_pend mutex DOS_WAIT_FOREVER.
Definition sys_mutex_unlock (mutex : Z) : kprog (call Z) := dos_mutex_post mutex.

(** ** Threads *)

Definition sys_thread_new (raw : dos_task_cb) (name function arg stacksize prio : Z) : kprog Z :=
  dos_task_create raw name function arg (u32 stacksize) (u16 prio) 40.

(** ** Mailboxes: queues of pointers *)

Definition SIZEOF_PTR : Z := 4.

Definition sys_mbox_new (size : Z) : kprog (Z * Z) :=
  mbox ← dos_queue_create (u16 size) SIZEOF_PTR;
  mret (if mbox =? DOS_NULL then ERR_MEM else ERR_OK, mbox).

Definition sys_mbox_free (mbox : Z) : kprog unit := dos_queue_delete mbox;; mret tt.
Definition sys_mbox_valid (mbox : Z) : bool := negb (mbox =? DOS_NULL).
Definition sys_mbox_set_invalid (_ : Z) : Z := DOS_NULL.

(** One turn of the [while] loop: [true] when the message was sent. *)
Definition sys_mbox_post_once (q msg : Z) : kprog (call bool) :=
  c ← dos_queue_write q (Some (le32 msg)) SIZEOF_PTR DOS_WAIT_FOREVER;
  after_call c (fun r => mret (Return (r.1 =? DOS_OK))).

Definition sys_mbox_trypost (q msg : Z) : kprog (call Z) :=
  c ← dos_queue_write q (Some (le32 msg)) SIZEOF_PTR 0;
  after_call c (fun r => mret (Return (if r.1 =? DOS_OK then ERR_OK else ERR_MEM))).

Definition sys_mbox_trypost_fromisr (q msg : Z) : kprog (call Z) := sys_mbox_trypost q msg.

(** The result and the message fetched; [old] is what the cell held before. *)
Definition sys_arch_mbox_fetch (q old timeout : Z) : kprog (call (Z * Z)) :=
  start_tick ← sys_now;
  c ← dos_queue_read q (Some (le32 old)) SIZEOF_PTR (ms_to_ticks timeout);
  after_call c (fun r =>
    if r.1 =? DOS_OK then
      now ← sys_now;
      mret (Return (u32 (u32 (now - start_tick) * DOS_TICK_PERIOD_MS), of_le32 (take 4 r.2)))
    else mret (Return (SYS_ARCH_TIMEOUT, 0))).

Definition sys_arch_mbox_tryfetch (q old : Z) : kprog (call (Z * Z)) :=
  c ← dos_queue_read q (Some (le32 old)) SIZEOF_PTR 0;
  after_call c (fun r =>
    mret (Return (if r.1 =? DOS_OK then ERR_OK else SYS_MBOX_EMPTY, of_le32 (take 4 r.2)))).

(** ** Sleeping (common/lwip/core/sys.c) *)

Definition sys_msleep (ms : Z) : kprog (call unit) :=
  if ms >? 0 then
    r ← sys_sem_new 0;
    if r.1 =? ERR_OK then
      c ← sys_arch_sem_wait r.2 ms;
      after_call c (fun _ => sys_sem_free r.2;; mret (Return tt))
    else mret (Return tt)
  else mret (Return tt).
