(* ===== verification/MemSpec.v ===== *)
(** * Memory heap: layout and correctness

    A heap is a sequence of blocks that tile the memory behind the control
    block ([heap_rep]).  On every heap that [dos_mem_heap_init] makes, as long
    as no request leaves an unusable remainder ([no_tight_fit]),
    [dos_mem_alloc] is a best-fit allocator of disjoint blocks and
    [dos_mem_free] gives them back and merges neighbours. *)

From S2P Require Import Prelude Mem.

(** ** Blocks *)

(** A block: the size of its user memory and whether it is in use. *)
Abbreviation blk := (Z * bool)%type.

Definition span (b : blk) : Z := MEM_NODE_SIZE + b.1.

Fixpoint end_addr (a : Z) (bs : list blk) : Z :=
  match bs with [] => a | b :: bs' => end_addr (a + span b) bs' end.

(** The address of the last block, or [p] if there is none. *)
Fixpoint last_addr (p a : Z) (bs : list blk) : Z :=
  match bs with [] => p | b :: bs' => last_addr a (a + span b) bs' end.

Definition flag (u : bool) : Z := if u then 1 else 0.

(** The blocks from address [a] on have their headers, linked backwards. *)
Fixpoint chain (N : gmap Z mem_node) (p a : Z) (bs : list blk) : Prop :=
  match bs with
  | [] => True
  | b :: bs' => (exists al, N !! a = Some (mk_node p b.1 (flag b.2) al)) /\
                chain N a (a + span b) bs'
  end.

Fixpoint coalesced (bs : list blk) : Prop :=
  match bs with
  | b :: ((b' :: _) as t) => b.2 || b'.2 = true /\ coalesced t
  | _ => True
  end.

(** User address and size of the blocks in use. *)
Fixpoint used_at (a : Z) (bs : list blk) : list (Z * Z) :=
  match bs with
  | [] => []
  | b :: bs' => (if b.2 then [(a + MEM_NODE_SIZE, b.1)] else []) ++ used_at (a + span b) bs'
  end.

Fixpoint used_bytes (bs : list blk) : Z :=
  match bs with [] => 0 | b :: bs' => (if b.2 then b.1 else 0) + used_bytes bs' end.

Definition blk_ok (b : blk) : Prop := 0 <= b.1 /\ b.1 mod 4 = 0.

Record heap_rep (h : heap) (bs : list blk) : Prop := {
  hr_begin : 0 < align_mem_heap_begin h /\ align_mem_heap_begin h mod 4 = 0;
  hr_head : MemHead (heap_info h) = align_mem_heap_begin h + MEM_INFO_SIZE;
  hr_end : end_addr (MemHead (heap_info h)) bs = align_mem_heap_end h;
  hr_bound : align_mem_heap_end h < 2 ^ 32 /\
             align_mem_heap_end h - align_mem_heap_begin h < 2 ^ 30;
  hr_tail : mem_tail (heap_info h) = last_addr DOS_NULL (MemHead (heap_info h)) bs;
  hr_nonempty : bs <> [];
  hr_chain : chain (nodes h) DOS_NULL (MemHead (heap_info h)) bs;
  hr_blks : Forall blk_ok bs;
  hr_coalesced : coalesced bs;
  hr_count : mem_heap_size (heap_info h) =
    align_mem_heap_end h - MemHead (heap_info h) - MEM_NODE_SIZE - used_bytes bs
}.

(** ** Layout lemmas *)

Lemma end_addr_app a l1 l2 : end_addr a (l1 ++ l2) = end_addr (end_addr a l1) l2.
Proof. revert a. induction l1 as [|b l1 IH]; intros a; simpl; [done | apply IH]. Qed.

Lemma last_addr_app p a l1 l2 :
  last_addr p a (l1 ++ l2) = last_addr (last_addr p a l1) (end_addr a l1) l2.
Proof. revert p a. induction l1 as [|b l1 IH]; intros p a; simpl; [done | apply IH]. Qed.

Lemma chain_app N p a l1 l2 :
  chain N p a (l1 ++ l2) <->
  chain N p a l1 /\ chain N (last_addr p a l1) (end_addr a l1) l2.
Proof.
  revert p a. induction l1 as [|b l1 IH]; intros p a; simpl; [tauto|].
  rewrite IH. tauto.
Qed.

Lemma used_at_app a l1 l2 : used_at a (l1 ++ l2) = used_at a l1 ++ used_at (end_addr a l1) l2.
Proof.
  revert a. induction l1 as [|b l1 IH]; intros a; simpl; [done|]. by rewrite IH, <- app_assoc.
Qed.

Lemma used_bytes_app l1 l2 : used_bytes (l1 ++ l2) = used_bytes l1 + used_bytes l2.
Proof. induction l1 as [|b l1 IH]; simpl; [done|]. rewrite IH. lia. Qed.

Lemma end_addr_ge a bs :
  Forall blk_ok bs -> a + MEM_NODE_SIZE * Z.of_nat (length bs) <= end_addr a bs.
Proof.
  intros H. revert a. induction H as [|b bs [Hb _] _ IH]; intros a; simpl; [lia|].
  specialize (IH (a + span b)). unfold span, MEM_NODE_SIZE in *. lia.
Qed.

Lemma end_addr_le a bs : Forall blk_ok bs -> a <= end_addr a bs.
Proof. intros H. pose proof (end_addr_ge a bs H). unfold MEM_NODE_SIZE in *. lia. Qed.

Lemma end_addr_mod a bs : Forall blk_ok bs -> exists q, end_addr a bs = a + 4 * q.
Proof.
  intros H. revert a. induction H as [|b bs [_ Hb] _ IH]; intros a; simpl; [exists 0; lia|].
  destruct (IH (a + span b)) as [q ->]. apply Z.mod_divide in Hb as [q' Hb]; [|done].
  exists (q + q' + 2). unfold span, MEM_NODE_SIZE. lia.
Qed.

Lemma used_bytes_bounds bs a :
  Forall blk_ok bs ->
  0 <= used_bytes bs <= end_addr a bs - a - MEM_NODE_SIZE * Z.of_nat (length bs).
Proof.
  intros H. revert a. induction H as [|b bs [Hb _] _ IH]; intros a; simpl; [lia|].
  specialize (IH (a + span b)). unfold span, MEM_NODE_SIZE in *. destruct b.2; lia.
Qed.

Lemma last_addr_bounds p a bs :
  Forall blk_ok bs -> bs <> [] -> a <= last_addr p a bs <= end_addr a bs - MEM_NODE_SIZE.
Proof.
  intros H. revert p a. induction H as [|b bs [Hb _] Hok IH]; intros p a Hne; [done|]. simpl.
  destruct bs as [|b' bs]; [unfold span; simpl; lia|].
  specialize (IH a (a + span b) ltac:(done)). unfold span, MEM_NODE_SIZE in *. lia.
Qed.

(** A chain only depends on the headers it covers. *)
Lemma chain_frame N N' p a bs :
  chain N p a bs -> Forall blk_ok bs ->
  (forall x, a <= x < end_addr a bs -> N' !! x = N !! x) -> chain N' p a bs.
Proof.
  intros Hc Hok. revert p a Hc. induction Hok as [|b bs [Hb _] Hok IH]; intros p a Hc HN; simpl in *.
  { done. }
  destruct Hc as [[al Ha] Hc]. pose proof (end_addr_le (a + span b) bs Hok).
  unfold span, MEM_NODE_SIZE in *. split.
  - exists al. rewrite HN by lia. done.
  - apply IH; [done|]. intros x Hx. apply HN. lia.
Qed.

(** Relinking the first block of a chain. *)
Lemma chain_relink N N' p p' a bs :
  chain N p a bs -> Forall blk_ok bs ->
  (forall x, a < x < end_addr a bs -> N' !! x = N !! x) ->
  (bs <> [] -> N' !! a = node_set_prev p' <$> N !! a) -> chain N' p' a bs.
Proof.
  destruct bs as [|b bs]; simpl; [done|]. intros [[al Ha] Hc] Hok HN H0.
  apply Forall_cons in Hok as [[Hb _] Hok]. split.
  - exists al. rewrite H0, Ha by done. done.
  - eapply chain_frame; [done | done |]. intros x Hx. apply HN.
    unfold span, MEM_NODE_SIZE in *. lia.
Qed.

(** ** Enough fuel *)

Fixpoint addrs (a : Z) (bs : list blk) : list Z :=
  match bs with [] => [] | b :: bs' => a :: addrs (a + span b) bs' end.

Lemma addrs_length a bs : length (addrs a bs) = length bs.
Proof. revert a. induction bs as [|b bs IH]; intros a; simpl; [done|]. by rewrite IH. Qed.

Lemma addrs_range a bs x : Forall blk_ok bs -> x ∈ addrs a bs -> a <= x < end_addr a bs.
Proof.
  intros H. revert a. induction H as [|b bs [Hb _] Hok IH]; intros a; simpl; [by rewrite elem_of_nil|].
  pose proof (end_addr_le (a + span b) bs Hok). rewrite elem_of_cons.
  unfold span, MEM_NODE_SIZE in *. intros [->|Hx]; [lia|]. apply IH in Hx. lia.
Qed.

Lemma addrs_nodup a bs : Forall blk_ok bs -> NoDup (addrs a bs).
Proof.
  intros H. revert a. induction H as [|b bs [Hb _] Hok IH]; intros a; simpl; constructor; [|done].
  intros Hx. apply addrs_range in Hx; [|done]. unfold span, MEM_NODE_SIZE in *. lia.
Qed.

Lemma chain_size N p a bs : chain N p a bs -> Forall blk_ok bs -> (length bs <= size N)%nat.
Proof.
  intros Hc Hok. rewrite <- (addrs_length a bs), <- size_dom.
  rewrite <- (size_list_to_set (C := gset Z) (addrs a bs)) by (by apply addrs_nodup).
  apply subseteq_size. intros x Hx%elem_of_list_to_set.
  clear Hok. revert p a Hc Hx. induction bs as [|b bs IH]; intros p a; simpl.
  - by rewrite elem_of_nil.
  - intros [[al Ha] Hc]. rewrite elem_of_cons. intros [->|Hx]; [by apply elem_of_dom|eauto].
Qed.

(** ** Search *)

Definition candidate (size : Z) (b : blk) : bool := negb b.2 && (b.1 >? size).

(** [best] is the smallest candidate among the blocks [l2] behind [l1]. *)
Definition best_in (a : Z) (l1 l2 : list blk) (size best : Z) : Prop :=
  (best = DOS_NULL /\ forall b, b ∈ l2 -> candidate size b = false) \/
  exists m1 sz m2, l2 = m1 ++ (sz, false) :: m2 /\ best = end_addr a (l1 ++ m1) /\ size < sz /\
    forall b, b ∈ l2 -> candidate size b = true -> sz <= b.1.

Lemma node_at_run a h n : nodes h !! a = Some n -> node_at a h = Done (n, h).
Proof. intros H. unfold node_at. by apply deref_some. Qed.

Lemma chain_mid N p a l1 b l2 :
  chain N p a (l1 ++ b :: l2) ->
  exists al, N !! end_addr a l1 = Some (mk_node (last_addr p a l1) b.1 (flag b.2) al).
Proof. rewrite chain_app. simpl. tauto. Qed.

Lemma find_best_run h a size : 0 < a ->
  forall l1 l2 fuel best,
  chain (nodes h) DOS_NULL a (l1 ++ l2) -> Forall blk_ok (l1 ++ l2) ->
  (length l1 < fuel)%nat -> best_in a l1 l2 size best ->
  exists best', find_best fuel (last_addr DOS_NULL a l1) best size h = Done ((best', false), h) /\
    best_in a [] (l1 ++ l2) size best'.
Proof.
  intros Ha. induction l1 as [|b l1 IH] using rev_ind; intros l2 [|fuel] best Hc Hok Hf Hb;
    try (exfalso; simpl in Hf; lia).
  { exists best. done. }
  rewrite length_app in Hf. simpl in Hf. rewrite last_addr_app. rewrite <- app_assoc in Hc, Hok |- *.
  simpl in *. pose proof (chain_mid _ _ _ _ _ _ Hc) as [al Hn].
  assert (Hpos : a <= end_addr a l1) by (apply end_addr_le; by apply Forall_app in Hok as [? _]).
  destruct (Z.eqb_spec (end_addr a l1) DOS_NULL) as [E|_]; [unfold DOS_NULL in E; lia|].
  run_with (node_at_run _ _ _ Hn). cbn [mem_used mem_node_size node_prev].
  assert (Hcand : (flag b.2 =? 0) && (b.1 >? size) = candidate size b)
    by (unfold candidate; by destruct b as [? []]).
  rewrite Hcand. destruct (candidate size b) eqn:Ec; last first.
  { kstep. apply IH; [done | done | lia |]. destruct Hb as [[-> H]|(m1 & sz & m2 & -> & -> & Hsz & H)].
    - left. split; [done|]. intros b' [->|Hb']%elem_of_cons; [done | auto].
    - right. exists (b :: m1), sz, m2. split_and!; [done | | done |].
      + by rewrite <- app_assoc.
      + intros b' [->|Hb']%elem_of_cons; [congruence | auto]. }
  assert (b.2 = false /\ size < b.1) as [Hu Hs].
  { unfold candidate in Ec. apply andb_true_iff in Ec as [E1 E2].
    apply negb_true_iff in E1. apply Z.gtb_lt in E2. done. }
  assert (Hnew : (forall b', b' ∈ l2 -> candidate size b' = true -> b.1 <= b'.1) ->
    exists best', find_best fuel (last_addr DOS_NULL a l1) (end_addr a l1) size h =
      Done ((best', false), h) /\ best_in a [] (l1 ++ b :: l2) size best').
  { intros Hmin. apply IH; [done | done | lia |]. right. exists [], b.1, l2.
    rewrite app_nil_r. split_and!; [by destruct b as [? []] | done | done |].
    intros b' [->|Hb']%elem_of_cons Hc'; [lia | auto]. }
  destruct (Z.eqb_spec b.1 size) as [E|_]; [lia|].
  destruct Hb as [[-> H]|(m1 & sz & m2 & -> & -> & Hsz & H)].
  - cbn [Z.eqb DOS_NULL]. kstep. apply Hnew. intros b' Hb' Hc'. rewrite (H b' Hb') in Hc'. done.
  - assert (Hpos2 : 0 < end_addr a ((l1 ++ [b]) ++ m1)).
    { apply Forall_app in Hok as [Ok1 Ok2]. apply Forall_cons in Ok2 as [Okb Ok2].
      apply Forall_app in Ok2 as [Okm _].
      pose proof (end_addr_le a ((l1 ++ [b]) ++ m1)). assert (Forall blk_ok ((l1 ++ [b]) ++ m1)).
      { rewrite !Forall_app. auto. } intuition lia. }
    destruct (Z.eqb_spec (end_addr a ((l1 ++ [b]) ++ m1)) DOS_NULL) as [E|_];
      [unfold DOS_NULL in E; lia|].
    assert (Hc2 : chain (nodes h) DOS_NULL a (((l1 ++ [b]) ++ m1) ++ (sz, false) :: m2))
      by (by rewrite <- !app_assoc).
    pose proof (chain_mid _ _ _ _ _ _ Hc2) as [al2 Hn2].
    rewrite bind_assoc. run_with (node_at_run _ _ _ Hn2). kstep. cbn [mem_node_size fst].
    destruct (Z.gtb_spec sz b.1) as [Hlt|Hge].
    + apply Hnew. intros b' Hb' Hc'. pose proof (H b' Hb' Hc'). lia.
    + apply IH; [done | done | lia |]. right. exists (b :: m1), sz, m2.
      split_and!; [done | by rewrite <- app_assoc | done |].
      intros b' [->|Hb']%elem_of_cons Hc'; [lia | auto].
Qed.

(** ** Alignment *)

Lemma land_not3 x : 0 <= x < 2 ^ 32 -> Z.land x (not32 3) = 4 * (x / 4).
Proof. intros Hx. exact (land_not_ones x 2 ltac:(lia) Hx). Qed.

Lemma align_spec n :
  0 <= n <= 2 ^ 32 - 4 ->
  n <= DOS_ALIGN n DOS_ALIGN_SIZE < n + 4 /\ DOS_ALIGN n DOS_ALIGN_SIZE mod 4 = 0.
Proof.
  intros Hn. unfold DOS_ALIGN, DOS_ALIGN_SIZE. change (4 - 1) with 3.
  rewrite u32_small by lia. rewrite land_not3 by lia.
  pose proof (Z.div_mod (n + 3) 4 ltac:(lia)). pose proof (Z.mod_pos_bound (n + 3) 4 ltac:(lia)).
  split; [lia|]. rewrite Z.mul_comm. apply Z.mod_mul. lia.
Qed.

(** ** Allocation *)

(** No free block is larger than the request by a header or less. *)
Definition no_tight_fit (size : Z) (bs : list blk) : Prop :=
  forall b, b ∈ bs -> candidate size b = true -> size + MEM_NODE_SIZE < b.1.

(** What the operations on a heap leave alone. *)
Record same_heap (h h' : heap) : Prop := {
  sh_begin : align_mem_heap_begin h' = align_mem_heap_begin h;
  sh_end : align_mem_heap_end h' = align_mem_heap_end h;
  sh_head : MemHead (heap_info h') = MemHead (heap_info h)
}.

Lemma upd_node_run a f h n :
  nodes h !! a = Some n -> upd_node a f h = Done (tt, put_node a (f n) h).
Proof. intros H. unfold upd_node. by run_with (node_at_run _ _ _ H). Qed.

Section layout.
Context (h : heap) (bs l1 l2 : list blk) (sz : Z) (u : bool).
Hypothesis Hrep : heap_rep h bs.
Hypothesis Hbs : bs = l1 ++ (sz, u) :: l2.

Local Abbreviation a := (MemHead (heap_info h)).
Local Abbreviation b := (end_addr a l1).

Lemma layout_ok : Forall blk_ok l1 /\ blk_ok (sz, u) /\ Forall blk_ok l2.
Proof. pose proof (hr_blks _ _ Hrep) as H. rewrite Hbs, Forall_app, Forall_cons in H. tauto. Qed.

Lemma layout_bounds :
  0 < a <= b /\ b + MEM_NODE_SIZE + sz <= end_addr (b + MEM_NODE_SIZE + sz) l2 < 2 ^ 32 /\
  end_addr (b + MEM_NODE_SIZE + sz) l2 - a < 2 ^ 30 /\ 0 <= sz /\
  end_addr (b + MEM_NODE_SIZE + sz) l2 = align_mem_heap_end h.
Proof.
  destruct layout_ok as (H1 & [H2 _] & H3). destruct Hrep as [[B1 _] B2 B3 [B4 B5] _ _ _ _ _ _].
  rewrite Hbs, end_addr_app in B3. simpl in B3.
  unfold span in B3. simpl in B3, H2. rewrite Z.add_assoc in B3.
  pose proof (end_addr_le a l1 H1) as L1.
  pose proof (end_addr_le (b + MEM_NODE_SIZE + sz) l2 H3) as L2.
  unfold MEM_INFO_SIZE in *. lia.
Qed.

Lemma layout_tail : mem_tail (heap_info h) = last_addr b (b + MEM_NODE_SIZE + sz) l2.
Proof.
  rewrite (hr_tail _ _ Hrep), Hbs, last_addr_app. simpl. unfold span. simpl.
  by rewrite Z.add_assoc.
Qed.

(** The block is the tail exactly when nothing follows it. *)
Lemma layout_tail_eq : (mem_tail (heap_info h) =? b) = bool_decide (l2 = []).
Proof.
  rewrite layout_tail. destruct layout_ok as (_ & [H2 _] & H3). simpl in H2.
  case_bool_decide as E; [subst; simpl; apply Z.eqb_refl|]. apply Z.eqb_neq.
  pose proof (last_addr_bounds b (b + MEM_NODE_SIZE + sz) l2 H3 E). unfold MEM_NODE_SIZE in *. lia.
Qed.

Lemma layout_chain :
  chain (nodes h) DOS_NULL a l1 /\
  (exists al, nodes h !! b = Some (mk_node (last_addr DOS_NULL a l1) sz (flag u) al)) /\
  chain (nodes h) b (b + MEM_NODE_SIZE + sz) l2.
Proof.
  pose proof (hr_chain _ _ Hrep) as H. rewrite Hbs, chain_app in H.
  simpl in H. unfold span in H. simpl in H. by rewrite Z.add_assoc in H.
Qed.

End layout.

(** The cut makes a free block of the rest. *)
Lemma cut_node_run h bs l1 sz l2 s :
  heap_rep h bs -> bs = l1 ++ (sz, false) :: l2 -> 0 <= s -> s + MEM_NODE_SIZE < sz ->
  let b := end_addr (MemHead (heap_info h)) l1 in
  let c := b + MEM_NODE_SIZE + s in
  let d := b + MEM_NODE_SIZE + sz in
  exists h1 al, cut_node b s h = Done (tt, h1) /\ same_heap h h1 /\
    mem_heap_size (heap_info h1) = mem_heap_size (heap_info h) /\
    mem_tail (heap_info h1) = last_addr c d l2 /\
    nodes h1 !! c = Some (mk_node b (sz - s - MEM_NODE_SIZE) 0 al) /\
    (l2 <> [] -> nodes h1 !! d = node_set_prev c <$> nodes h !! d) /\
    (forall x, x <> c -> x <> d -> nodes h1 !! x = nodes h !! x).
Proof.
  intros Hrep Hbs Hs Hcut b c d.
  pose proof (layout_bounds h bs l1 l2 sz false Hrep Hbs) as (B1 & B2 & B3 & B4 & _).
  pose proof (layout_tail_eq h bs l1 l2 sz false Hrep Hbs) as Htail.
  pose proof (layout_tail h bs l1 l2 sz false Hrep Hbs) as Htl.
  destruct (layout_chain h bs l1 l2 sz false Hrep Hbs) as (_ & (al0 & Hb) & Hc2).
  destruct (layout_ok h bs l1 l2 sz false Hrep Hbs) as (_ & _ & Ok2).
  fold b in B1, B2, B3, Htail, Htl, Hb, Hc2. fold d in B2, B3, Htl, Hc2.
  set (al := match nodes h !! c with Some n => mem_align n | None => 0 end).
  assert (Hu : user_mem b = b + MEM_NODE_SIZE)
    by (unfold user_mem; apply u32_small; unfold MEM_NODE_SIZE in *; lia).
  unfold cut_node. run_with (node_at_run _ _ _ Hb). cbn [mem_node_size].
  rewrite u32_small by (unfold MEM_NODE_SIZE in *; lia).
  destruct (Z.gtb_spec (sz - s) MEM_NODE_SIZE); [|lia].
  rewrite Hu, (u32_small (b + MEM_NODE_SIZE + s)) by (unfold MEM_NODE_SIZE in *; lia). fold c.
  kstep. fold al. rewrite (u32_small (sz - s - MEM_NODE_SIZE)) by (unfold MEM_NODE_SIZE in *; lia).
  unfold u30. rewrite (Z.mod_small (sz - s - MEM_NODE_SIZE)) by (unfold MEM_NODE_SIZE in *; lia).
  set (h0 := put_node c _ h). unfold info_at. kstep.
  change (heap_info h0) with (heap_info h). rewrite Z.eqb_sym, Htail.
  case_bool_decide as El2; cbn [negb].
  - exists (set_tail c h0), al. subst l2. split_and!; try done.
    + simpl. apply lookup_insert_eq.
    + intros x Hx _. simpl. by apply lookup_insert_ne.
  - assert (Hnext : _dos_get_next_node c h0 = Done (d, h0)).
    { unfold _dos_get_next_node, info_at. kstep. change (heap_info h0) with (heap_info h).
      pose proof (last_addr_bounds b d l2 Ok2 El2) as Hl. rewrite Htl.
      destruct (Z.eqb_spec (last_addr b d l2) c); [unfold c, d, MEM_NODE_SIZE in *; lia|].
      run_by ltac:(apply node_at_run; simpl; apply lookup_insert_eq). cbn [mem_node_size].
      unfold user_mem. rewrite (u32_small (c + MEM_NODE_SIZE)) by (unfold c, d, MEM_NODE_SIZE in *; lia).
      rewrite u32_small by (unfold c, d, MEM_NODE_SIZE in *; lia).
      replace (c + MEM_NODE_SIZE + (sz - s - MEM_NODE_SIZE)) with d by (unfold c, d; lia). done. }
    run_with Hnext. destruct (Z.eqb_spec d DOS_NULL) as [E|_]; [unfold d, DOS_NULL, MEM_NODE_SIZE in *; lia|].
    cbn [negb]. destruct l2 as [|b2 l2]; [done|]. destruct Hc2 as [[al2 Hd] Hc2].
    assert (Hcd : c <> d) by (unfold c, d, MEM_NODE_SIZE in *; lia).
    eexists (put_node d _ h0), al. split_and!.
    + apply upd_node_run. simpl. rewrite lookup_insert_ne by done. exact Hd.
    + done.
    + done.
    + simpl. rewrite Htl. done.
    + simpl. rewrite lookup_insert_ne by done. apply lookup_insert_eq.
    + intros _. simpl. by rewrite lookup_insert_eq, Hd.
    + intros x Hx Hx'. simpl. by rewrite !lookup_insert_ne by done.
Qed.

Lemma upd_node_twice a f g h n :
  nodes h !! a = Some n ->
  (upd_node a f;; upd_node a g) h = Done (tt, put_node a (g (f n)) h).
Proof.
  intros H. run_with (upd_node_run a f h n H).
  rewrite (upd_node_run a g _ (f n)) by apply lookup_insert_eq.
  unfold put_node. simpl. by rewrite insert_insert_eq.
Qed.

Lemma coalesced_app l1 b l2 :
  coalesced (l1 ++ b :: l2) <->
  coalesced (l1 ++ [b]) /\ coalesced (b :: l2).
Proof.
  induction l1 as [|x l1 IH]; simpl; [tauto|].
  destruct l1 as [|y l1]; simpl in *; [tauto|]. rewrite IH. tauto.
Qed.

(** Marking the block in use and entering the remainder keeps the layout. *)
Lemma alloc_layout h h1 bs l1 sz l2 s al1 al2 :
  heap_rep h bs -> bs = l1 ++ (sz, false) :: l2 -> 0 <= s -> s mod 4 = 0 -> s + MEM_NODE_SIZE < sz ->
  let b := end_addr (MemHead (heap_info h)) l1 in
  let c := b + MEM_NODE_SIZE + s in
  let d := b + MEM_NODE_SIZE + sz in
  same_heap h h1 -> mem_heap_size (heap_info h1) = mem_heap_size (heap_info h) - s ->
  mem_tail (heap_info h1) = last_addr c d l2 ->
  nodes h1 !! b = Some (mk_node (last_addr DOS_NULL (MemHead (heap_info h)) l1) s 1 al1) ->
  nodes h1 !! c = Some (mk_node b (sz - s - MEM_NODE_SIZE) 0 al2) ->
  (l2 <> [] -> nodes h1 !! d = node_set_prev c <$> nodes h !! d) ->
  (forall x, x <> b -> x <> c -> x <> d -> nodes h1 !! x = nodes h !! x) ->
  heap_rep h1 (l1 ++ (s, true) :: (sz - s - MEM_NODE_SIZE, false) :: l2).
Proof.
  intros Hrep Hbs Hs Hs4 Hcut b c d Hsame Hcnt Htl Hb Hc Hd Hx.
  pose proof (layout_bounds h bs l1 l2 sz false Hrep Hbs) as (B1 & B2 & B3 & B4 & B5).
  destruct (layout_chain h bs l1 l2 sz false Hrep Hbs) as (Hc1 & _ & Hc2).
  destruct (layout_ok h bs l1 l2 sz false Hrep Hbs) as (Ok1 & Okb & Ok2).
  pose proof (end_addr_le (MemHead (heap_info h)) l1 Ok1) as Hle.
  fold b in B1, B2, B3, B5, Hc2, Hle. fold d in B2, B3, B5, Hc2.
  assert (Hsp1 : b + span (s, true) = c) by (unfold span; simpl; unfold c; lia).
  assert (Hsp2 : c + span (sz - s - MEM_NODE_SIZE, false) = d) by (unfold span; simpl; unfold c, d; lia).
  destruct Hsame as [S1 S2 S3].
  split; rewrite ?S1, ?S2, ?S3; try apply Hrep.
  - rewrite end_addr_app. cbn [end_addr]. fold b. by rewrite Hsp1, Hsp2.
  - rewrite last_addr_app. cbn [last_addr]. fold b. by rewrite Hsp1, Hsp2.
  - by destruct l1.
  - rewrite chain_app. cbn [chain]. fold b. rewrite Hsp1, Hsp2. split_and!.
    + eapply chain_frame; [done | done |]. fold b. intros x Hxr.
      apply Hx; unfold c, d, MEM_NODE_SIZE in *; lia.
    + exists al1. done.
    + exists al2. done.
    + eapply chain_relink; [done | done | | done]. intros x Hxr.
      apply Hx; unfold c, d, MEM_NODE_SIZE in *; lia.
  - rewrite Forall_app, !Forall_cons. split_and!; try done.
    destruct Okb as [_ Hm]. split; simpl in *; [lia|].
    unfold MEM_NODE_SIZE. rewrite Zminus_mod, (Zminus_mod sz s), Hm, Hs4. done.
  - pose proof (hr_coalesced _ _ Hrep) as Hco. rewrite Hbs, coalesced_app in Hco.
    destruct Hco as [C1 C2]. rewrite coalesced_app. split.
    + clear -C1. induction l1 as [|x l1 IH]; [done|]. simpl in *.
      destruct l1; simpl in *; [|tauto]. destruct x as [? []]; simpl in *; tauto.
    + split; [done|]. destruct l2; [done|]. exact C2.
  - rewrite Hcnt, (hr_count _ _ Hrep), Hbs, !used_bytes_app. simpl. lia.
Qed.

(** The outcome of an allocation of [s] bytes. *)
Definition alloc_outcome (h : heap) (bs : list blk) (s r : Z) (h' : heap) : Prop :=
  (r = DOS_NULL /\ h' = h /\ forall b, b ∈ bs -> candidate s b = false) \/
  exists l1 sz l2, bs = l1 ++ (sz, false) :: l2 /\ s < sz /\
    (forall b, b ∈ bs -> candidate s b = true -> sz <= b.1) /\
    r = end_addr (MemHead (heap_info h)) l1 + MEM_NODE_SIZE /\
    heap_rep h' (l1 ++ (s, true) :: (sz - s - MEM_NODE_SIZE, false) :: l2) /\ same_heap h h'.

Lemma mem_alloc_spec h bs n :
  heap_rep h bs -> 0 <= n <= 2 ^ 32 - 4 -> no_tight_fit (DOS_ALIGN n DOS_ALIGN_SIZE) bs ->
  exists r h', mem_alloc n h = Done (r, h') /\ alloc_outcome h bs (DOS_ALIGN n DOS_ALIGN_SIZE) r h'.
Proof.
  intros Hrep Hn Htight. destruct (align_spec n Hn) as [Hs Hs4].
  unfold mem_alloc, alloc_outcome. set (s := DOS_ALIGN n DOS_ALIGN_SIZE) in *.
  unfold info_at. kstep. set (a := MemHead (heap_info h)).
  assert (Ha : 0 < a).
  { unfold a. rewrite (hr_head _ _ Hrep). pose proof (hr_begin _ _ Hrep). unfold MEM_INFO_SIZE. lia. }
  pose proof (chain_size _ _ _ _ (hr_chain _ _ Hrep) (hr_blks _ _ Hrep)) as Hsize.
  pose proof (hr_chain _ _ Hrep) as Hchain. fold a in Hchain.
  destruct (find_best_run h a s Ha bs [] (S (S (base.size (nodes h)))) DOS_NULL)
    as (best & Hrun & Hbest); rewrite ?app_nil_r; try done; [apply Hrep | lia | |].
  { left. split; [done|]. intros b Hb. by apply elem_of_nil in Hb. }
  rewrite (hr_tail _ _ Hrep). fold a. run_with Hrun. rewrite app_nil_r in Hbest.
  destruct Hbest as [[-> Hnone]|(l1 & sz & l2 & Hbs & -> & Hsz & Hmin)].
  { exists DOS_NULL, h. split; [done|]. by left. }
  rewrite app_nil_l in *. pose proof (layout_bounds h bs l1 l2 sz false Hrep Hbs) as (B1 & B2 & B3 & B4 & B5).
  fold a in B1, B2, B3, B5. set (b := end_addr a l1) in *.
  destruct (Z.eqb_spec b DOS_NULL) as [E|_]; [unfold DOS_NULL in E; lia|].
  assert (Hcut : s + MEM_NODE_SIZE < sz).
  { apply (Htight (sz, false)); [rewrite Hbs; set_solver|]. unfold candidate. simpl. by apply Z.gtb_lt. }
  destruct (cut_node_run h bs l1 sz l2 s Hrep Hbs ltac:(lia) Hcut)
    as (h1 & al2 & Hrun1 & Hsame & Hcnt & Htl & Hc & Hd & Hx). fold a in Hrun1, Htl, Hc, Hd, Hx.
  fold b in Hrun1, Htl, Hc, Hd, Hx.
  destruct (layout_chain h bs l1 l2 sz false Hrep Hbs) as (_ & (al0 & Hb) & _). fold a in Hb. fold b in Hb.
  assert (Hb1 : nodes h1 !! b = Some (mk_node (last_addr DOS_NULL a l1) sz 0 al0))
    by (rewrite Hx; [exact Hb | unfold MEM_NODE_SIZE in *; lia..]).
  set (h2 := set_heap_size (u32 (mem_heap_size (heap_info h1) - s))
               (put_node b (mk_node (last_addr DOS_NULL a l1) s 1 0) h1)).
  assert (Hu : u32 (mem_heap_size (heap_info h1) - s) = mem_heap_size (heap_info h) - s).
  { rewrite Hcnt. apply u32_small. pose proof (hr_count _ _ Hrep) as Hcount. fold a in Hcount.
    pose proof (used_bytes_bounds bs a (hr_blks _ _ Hrep)) as Hub.
    pose proof (used_bytes_bounds l1 a ltac:(apply (layout_ok h bs l1 l2 sz false Hrep Hbs))) as Hu1.
    pose proof (used_bytes_bounds l2 (b + MEM_NODE_SIZE + sz)
      ltac:(apply (layout_ok h bs l1 l2 sz false Hrep Hbs))) as Hu2.
    assert (used_bytes bs = used_bytes l1 + used_bytes l2) as Hsum
      by (rewrite Hbs, used_bytes_app; simpl; lia).
    unfold MEM_NODE_SIZE in *. lia. }
  exists (user_mem b), h2. split.
  - run_with Hrun1. rewrite (bind_bind_run _ _ _ _ _ _ (upd_node_twice b _ _ h1 _ Hb1)).
    run_by ltac:(apply upd_node_run; simpl; apply lookup_insert_eq). kstep.
    unfold h2, put_node, set_heap_size, set_info, node_set_size, u30. simpl.
    rewrite insert_insert_eq, (Z.mod_small s) by (unfold MEM_NODE_SIZE in *; lia). done.
  - right. exists l1, sz, l2. split_and!; try done.
    + unfold user_mem. apply u32_small. unfold MEM_NODE_SIZE in *. lia.
    + apply (alloc_layout h h2 bs l1 sz l2 s 0 al2 Hrep Hbs ltac:(lia) Hs4 Hcut); try done;
        fold a; fold b.
      * by destruct Hsame.
      * simpl. apply lookup_insert_eq.
      * simpl. rewrite lookup_insert_ne; [done | unfold MEM_NODE_SIZE in *; lia].
      * intros Hl2. simpl. rewrite lookup_insert_ne; [by apply Hd | unfold MEM_NODE_SIZE in *; lia].
      * intros x X1 X2 X3. simpl. rewrite lookup_insert_ne by done. by apply Hx.
    + by destruct Hsame.
Qed.

(** ** Release *)

Definition all_free (bs : list blk) : Prop := Forall (fun b => b.2 = false) bs.

(** The block after a free one, if any, is in use. *)
Definition ends_used (bs : list blk) : Prop :=
  match bs with [] => True | b :: _ => b.2 = true end.

(** [merge_next] absorbs the free blocks that follow the block at [f]. *)
Lemma merge_next_run f : forall rest fuel h p pf fs al,
  nodes h !! f = Some (mk_node pf fs 0 al) ->
  chain (nodes h) p (f + MEM_NODE_SIZE + fs) rest -> Forall blk_ok rest ->
  mem_tail (heap_info h) = last_addr f (f + MEM_NODE_SIZE + fs) rest ->
  0 < f -> 0 <= fs -> end_addr (f + MEM_NODE_SIZE + fs) rest < 2 ^ 32 ->
  end_addr (f + MEM_NODE_SIZE + fs) rest - f < 2 ^ 30 -> (length rest < fuel)%nat ->
  exists frees rest' h', rest = frees ++ rest' /\ all_free frees /\ ends_used rest' /\
    merge_next fuel f h = Done (tt, h') /\ same_heap h h' /\
    mem_heap_size (heap_info h') = mem_heap_size (heap_info h) /\
    (let e := end_addr (f + MEM_NODE_SIZE + fs) frees in
     nodes h' = <[f := mk_node pf (e - f - MEM_NODE_SIZE) 0 al]> (nodes h) /\
     mem_tail (heap_info h') = last_addr f e rest').
Proof.
  intros rest fuel. revert rest.
  induction fuel as [|fuel IH]; intros rest h p pf fs al Hf Hc Hok Htl F1 F2 F3 F4 Hfuel; [lia|].
  assert (Hstop : ends_used rest ->
    (merge_next (S fuel) f h = Done (tt, h)) ->
    exists frees rest' h', rest = frees ++ rest' /\ all_free frees /\ ends_used rest' /\
    merge_next (S fuel) f h = Done (tt, h') /\ same_heap h h' /\
    mem_heap_size (heap_info h') = mem_heap_size (heap_info h) /\
    (let e := end_addr (f + MEM_NODE_SIZE + fs) frees in
     nodes h' = <[f := mk_node pf (e - f - MEM_NODE_SIZE) 0 al]> (nodes h) /\
     mem_tail (heap_info h') = last_addr f e rest')).
  { intros He Hrun. exists [], rest, h. split_and!; try done; [by constructor|]. simpl.
    replace (f + MEM_NODE_SIZE + fs - f - MEM_NODE_SIZE) with fs by lia. by rewrite insert_id. }
  simpl in Hstop |- *. unfold _dos_get_next_node, info_at in *.
  destruct rest as [|b rest].
  { apply Hstop; [done|]. kstep. rewrite bind_assoc. kstep. rewrite Htl. simpl.
    rewrite Z.eqb_refl. done. }
  apply Forall_cons in Hok as [Hb Hok]. pose proof Hb as [Hb0 _]. destruct Hc as [[alb Hbn] Hc].
  set (d := f + MEM_NODE_SIZE + fs) in *. cbn [end_addr last_addr] in F3, F4, Htl.
  pose proof (end_addr_le (d + span b) rest Hok) as Hle.
  assert (Hdf : f < d) by (unfold d, MEM_NODE_SIZE in *; lia).
  assert (Htne : mem_tail (heap_info h) <> f).
  { rewrite Htl. destruct rest as [|b' rest]; [simpl; lia|].
    pose proof (last_addr_bounds d (d + span b) (b' :: rest) Hok ltac:(done)) as Hl.
    unfold span, MEM_NODE_SIZE in *. lia. }
  assert (Hnext : _dos_get_next_node f h = Done (d, h)).
  { unfold _dos_get_next_node, info_at. kstep. rewrite (proj2 (Z.eqb_neq _ _) Htne).
    run_with (node_at_run _ _ _ Hf). cbn [mem_node_size]. unfold user_mem.
    rewrite (u32_small (f + MEM_NODE_SIZE)) by (unfold d, span, MEM_NODE_SIZE in *; lia).
    rewrite u32_small by (unfold d, span, MEM_NODE_SIZE in *; lia). done. }
  unfold _dos_get_next_node, info_at in Hnext.
  destruct b as [s1 [|]]; simpl in Hbn.
  { apply Hstop; [done|]. rewrite (bind_done _ _ _ _ _ Hnext).
    destruct (Z.eqb_spec d DOS_NULL) as [E|_]; [unfold DOS_NULL in E; lia|].
    by run_with (node_at_run _ _ _ Hbn). }
  clear Hstop. unfold span in *. cbn [fst snd] in *.
  set (h0 := put_node f (mk_node pf (fs + (MEM_NODE_SIZE + s1)) 0 al) h).
  set (h1 := if d =? mem_tail (heap_info h) then set_tail f h0 else h0).
  assert (Hfd : f <> d) by lia.
  assert (Hn1 : nodes h1 = nodes h0) by (unfold h1; by destruct (d =? _)).
  assert (Hs1 : same_heap h h1) by (unfold h1; by destruct (d =? _)).
  assert (Hz1 : mem_heap_size (heap_info h1) = mem_heap_size (heap_info h))
    by (unfold h1; by destruct (d =? _)).
  assert (Hd1 : f + MEM_NODE_SIZE + (fs + (MEM_NODE_SIZE + s1)) = d + (MEM_NODE_SIZE + s1))
    by (unfold d; lia).
  destruct (IH rest h1 d pf (fs + (MEM_NODE_SIZE + s1)) al)
    as (frees & rest' & h' & -> & Hfr & He & Hrun & Hsame & Hcnt & Hnd & Htail);
    rewrite ?Hd1; try done; try (unfold MEM_NODE_SIZE in *; lia).
  - rewrite Hn1. simpl. apply lookup_insert_eq.
  - rewrite Hn1. eapply chain_frame; [done | done |]. intros x Hx. simpl.
    apply lookup_insert_ne. unfold MEM_NODE_SIZE in *. lia.
  - unfold h1. destruct (Z.eqb_spec d (mem_tail (heap_info h))) as [E|E].
    + simpl. rewrite Htl in E. destruct rest as [|b' rest]; [done|].
      pose proof (last_addr_bounds d (d + (MEM_NODE_SIZE + s1)) (b' :: rest) Hok ltac:(done)).
      unfold MEM_NODE_SIZE in *. lia.
    + simpl. rewrite Htl. destruct rest; [|done]. simpl in *. congruence.
  - simpl in Hfuel. lia.
  - exists ((s1, false) :: frees), rest', h'. split_and!; try done.
    + by constructor.
    + rewrite (bind_done _ _ _ _ _ Hnext).
      destruct (Z.eqb_spec d DOS_NULL) as [E|_]; [unfold DOS_NULL in E; lia|].
      run_with (node_at_run _ _ _ Hbn). cbn [mem_used mem_node_size Z.eqb].
      run_with (node_at_run _ _ _ Hf). cbn [mem_node_size].
      rewrite u32_small by (unfold MEM_NODE_SIZE in *; lia).
      run_with (upd_node_run f
        (node_set_size (fs + (MEM_NODE_SIZE + s1))) h _ Hf). kstep.
      assert (node_set_size (fs + (MEM_NODE_SIZE + s1)) (mk_node pf fs 0 al) =
              mk_node pf (fs + (MEM_NODE_SIZE + s1)) 0 al) as ->.
      { unfold node_set_size, u30. simpl. by rewrite Z.mod_small by (unfold MEM_NODE_SIZE in *; lia). }
      fold h0. change (heap_info h0) with (heap_info h).
      assert ((if d =? mem_tail (heap_info h) then modify (set_tail f) else mret tt) h0 =
              Done (tt, h1)) as Hset by (unfold h1; by destruct (d =? _)).
      run_with Hset. exact Hrun.
    + destruct Hs1, Hsame. split; congruence.
    + congruence.
    + rewrite Hd1 in Hnd. unfold span. cbn [end_addr fst]. rewrite Hnd, Hn1. unfold h0. simpl.
      by rewrite insert_insert_eq.
    + unfold span. cbn [end_addr fst]. by rewrite Htail, Hd1.
Qed.

Lemma used_at_free a bs : all_free bs -> used_at a bs = [].
Proof.
  intros H. revert a. induction H as [|b bs Hb _ IH]; intros a; simpl; [done|]. by rewrite Hb, IH.
Qed.

Definition sum_sizes (us : list (Z * Z)) : Z := foldr (fun u acc => u.2 + acc) 0 us.

Lemma used_bytes_at a bs : used_bytes bs = sum_sizes (used_at a bs).
Proof.
  revert a. induction bs as [|b bs IH]; intros a; simpl; [done|]. rewrite (IH (a + span b)).
  destruct b.2; simpl; lia.
Qed.

Lemma sum_sizes_app us vs : sum_sizes (us ++ vs) = sum_sizes us + sum_sizes vs.
Proof. induction us as [|u us IH]; simpl; [done|]. rewrite IH. lia. Qed.

Lemma coalesced_tail b bs : coalesced (b :: bs) -> coalesced bs.
Proof. destruct bs; simpl; tauto. Qed.

Lemma coalesced_suffix l1 l2 : coalesced (l1 ++ l2) -> coalesced l2.
Proof. induction l1 as [|b l1 IH]; [done|]. intros H. by apply IH, (coalesced_tail b). Qed.

Lemma coalesced_free s bs : ends_used bs -> coalesced bs -> coalesced ((s, false) :: bs).
Proof. destruct bs as [|b bs]; [done|]. intros H1 H2. split; [by rewrite H1 | done]. Qed.

(** A heap in the middle of a release: the blocks [pre], then a free block at
    [f], then the blocks [rest], whose first back link may be stale. *)
Record releasing (h : heap) (pre : list blk) (fs : Z) (rest : list blk) : Prop := {
  re_begin : 0 < align_mem_heap_begin h /\ align_mem_heap_begin h mod 4 = 0;
  re_head : MemHead (heap_info h) = align_mem_heap_begin h + MEM_INFO_SIZE;
  re_bound : align_mem_heap_end h < 2 ^ 32 /\
             align_mem_heap_end h - align_mem_heap_begin h < 2 ^ 30;
  re_pre : chain (nodes h) DOS_NULL (MemHead (heap_info h)) pre;
  re_ok : Forall blk_ok pre /\ blk_ok (fs, false) /\ Forall blk_ok rest;
  re_node : exists al, nodes h !! end_addr (MemHead (heap_info h)) pre =
    Some (mk_node (last_addr DOS_NULL (MemHead (heap_info h)) pre) fs 0 al);
  re_rest : let f := end_addr (MemHead (heap_info h)) pre in
    (exists p, chain (nodes h) p (f + MEM_NODE_SIZE + fs) rest) /\
    mem_tail (heap_info h) = last_addr f (f + MEM_NODE_SIZE + fs) rest /\
    end_addr (f + MEM_NODE_SIZE + fs) rest = align_mem_heap_end h;
  re_pre_co : coalesced (pre ++ [(fs, false)]);
  re_rest_co : forall frees rest', rest = frees ++ rest' -> ends_used rest' -> coalesced rest';
  re_count : let f := end_addr (MemHead (heap_info h)) pre in
    mem_heap_size (heap_info h) = align_mem_heap_end h - MemHead (heap_info h) - MEM_NODE_SIZE -
      sum_sizes (used_at (MemHead (heap_info h)) pre ++ used_at (f + MEM_NODE_SIZE + fs) rest)
}.

Lemma coalesced_last pre s s' : coalesced (pre ++ [(s, false)]) -> coalesced (pre ++ [(s', false)]).
Proof.
  induction pre as [|b pre IH]; [done|]. destruct pre as [|b' pre]; simpl in *; tauto.
Qed.

(** The back link of the block after the free one is set at the end. *)
Lemma link_next_run h pf fs al p f rest :
  nodes h !! f = Some (mk_node pf fs 0 al) ->
  chain (nodes h) p (f + MEM_NODE_SIZE + fs) rest -> Forall blk_ok rest ->
  mem_tail (heap_info h) = last_addr f (f + MEM_NODE_SIZE + fs) rest ->
  0 < f -> 0 <= fs -> end_addr (f + MEM_NODE_SIZE + fs) rest < 2 ^ 32 ->
  let d := f + MEM_NODE_SIZE + fs in
  exists h', (node ← _dos_get_next_node f;
      (if negb (node =? DOS_NULL) then upd_node node (node_set_prev f) else mret tt);;
      mret DOS_OK) h = Done (DOS_OK, h') /\
    same_heap h h' /\ heap_info h' = heap_info h /\ chain (nodes h') f d rest /\
    forall x, x < d -> nodes h' !! x = nodes h !! x.
Proof.
  intros Hf Hc Hok Htl F1 F2 F3 d. unfold _dos_get_next_node, info_at. rewrite bind_assoc. kstep.
  rewrite Htl. fold d in Hc, F3 |- *. destruct rest as [|b rest].
  { simpl. rewrite Z.eqb_refl. exists h. done. }
  pose proof (last_addr_bounds f d (b :: rest) Hok ltac:(done)) as Hl.
  destruct (Z.eqb_spec (last_addr f d (b :: rest)) f); [unfold d, MEM_NODE_SIZE in *; lia|].
  rewrite bind_assoc. run_with (node_at_run _ _ _ Hf). cbn [mem_node_size]. kstep. unfold user_mem.
  rewrite (u32_small (f + MEM_NODE_SIZE)) by (unfold d, MEM_NODE_SIZE in *; lia).
  rewrite u32_small by (unfold d, MEM_NODE_SIZE in *; lia). fold d.
  destruct (Z.eqb_spec d DOS_NULL) as [E|_]; [unfold d, DOS_NULL, MEM_NODE_SIZE in *; lia|].
  pose proof Hc as [[alb Hb] _].
  eexists (put_node d _ h). cbn [negb]. split_and!; try done.
  - run_by ltac:(apply (upd_node_run _ _ _ _ Hb)). done.
  - eapply chain_relink; [done | done | |].
    + intros x Hx. simpl. apply lookup_insert_ne. lia.
    + intros _. simpl. by rewrite lookup_insert_eq, Hb.
  - intros x Hx. simpl. apply lookup_insert_ne. lia.
Qed.

Lemma release_run h pre fs rest fuel :
  releasing h pre fs rest -> (length rest < fuel)%nat ->
  let a := MemHead (heap_info h) in
  let f := end_addr a pre in
  exists h' bs', (merge_next fuel f;; node ← _dos_get_next_node f;
      (if negb (node =? DOS_NULL) then upd_node node (node_set_prev f) else mret tt);;
      mret DOS_OK) h = Done (DOS_OK, h') /\
    heap_rep h' bs' /\ same_heap h h' /\
    used_at a bs' = used_at a pre ++ used_at (f + MEM_NODE_SIZE + fs) rest.
Proof.
  intros [R1 R2 R3 R4 (Ok1 & Okf & Ok2) [al R6] ((p & R7) & R8 & R9) R10 R11 R12] Hfuel a f.
  cbv zeta in R12. fold a in R2, R4, R6, R7, R8, R9, R12. fold f in R6, R7, R8, R9, R12.
  pose proof (end_addr_le a pre Ok1) as Hle. fold f in Hle.
  pose proof (end_addr_le (f + MEM_NODE_SIZE + fs) rest Ok2) as Hle2.
  destruct Okf as [Hfs Hfs4]. simpl in Hfs, Hfs4.
  assert (Hpos : 0 < f) by (unfold MEM_INFO_SIZE in *; lia).
  destruct (merge_next_run f rest fuel h p (last_addr DOS_NULL a pre) fs al R6 R7 Ok2 R8)
    as (frees & rest' & h1 & -> & Hfr & He & Hrun1 & Hs1 & Hz1 & Hn1 & Ht1);
    try done; try (unfold MEM_NODE_SIZE, MEM_INFO_SIZE in *; lia).
  set (e := end_addr (f + MEM_NODE_SIZE + fs) frees) in *. cbv zeta in Hn1, Ht1.
  apply Forall_app in Ok2 as [Okfr Okr].
  pose proof (end_addr_le (f + MEM_NODE_SIZE + fs) frees Okfr) as Hle3. fold e in Hle3.
  rewrite chain_app in R7. destruct R7 as [_ R7]. fold e in R7. rewrite end_addr_app in R9. fold e in R9.
  assert (He8 : f + MEM_NODE_SIZE + (e - f - MEM_NODE_SIZE) = e) by lia.
  pose proof (end_addr_le e rest' Okr) as Hle4.
  destruct (link_next_run h1 (last_addr DOS_NULL a pre) (e - f - MEM_NODE_SIZE) al
    (last_addr p (f + MEM_NODE_SIZE + fs) frees) f rest')
    as (h2 & Hrun2 & Hs2 & Hi2 & Hc2 & Hx2); rewrite ?He8; try done; try lia.
  { rewrite Hn1. apply lookup_insert_eq. }
  { rewrite Hn1. eapply chain_frame; [done | done |]. intros x Hx. apply lookup_insert_ne.
    unfold MEM_NODE_SIZE in *. lia. }
  rewrite He8 in Hc2, Hx2.
  assert (Hx : forall x, x < e -> x <> f -> nodes h2 !! x = nodes h !! x).
  { intros x X1 X2. rewrite Hx2, Hn1 by done. by apply lookup_insert_ne. }
  assert (Hsame : same_heap h h2) by (destruct Hs1, Hs2; split; congruence).
  assert (Hused : used_at a (pre ++ (e - f - MEM_NODE_SIZE, false) :: rest') =
                  used_at a pre ++ used_at (f + MEM_NODE_SIZE + fs) (frees ++ rest')).
  { rewrite !used_at_app, (used_at_free _ frees Hfr). fold f. simpl. unfold span. cbn [fst].
    fold e. do 2 f_equal. lia. }
  assert (Hsp : f + span (e - f - MEM_NODE_SIZE, false) = e) by (unfold span; cbn [fst]; lia).
  exists h2, (pre ++ (e - f - MEM_NODE_SIZE, false) :: rest'). split_and!; [|split|done|done];
    rewrite ?(sh_begin _ _ Hsame), ?(sh_end _ _ Hsame), ?(sh_head _ _ Hsame); fold a; try done.
  - by run_with Hrun1.
  - rewrite end_addr_app. cbn [end_addr]. fold f. by rewrite Hsp.
  - rewrite last_addr_app. cbn [last_addr]. fold f. by rewrite Hsp, Hi2.
  - by destruct pre.
  - rewrite chain_app. cbn [chain]. fold f. rewrite Hsp. split_and!; [| |done].
    + eapply chain_frame; [done | done |]. fold f. intros x Hxr.
      apply Hx; unfold MEM_NODE_SIZE in *; lia.
    + exists al. rewrite Hx2 by (unfold MEM_NODE_SIZE in *; lia). rewrite Hn1. apply lookup_insert_eq.
  - rewrite Forall_app, Forall_cons. split_and!; try done. split; cbn [fst]; [lia|].
    destruct (end_addr_mod (f + MEM_NODE_SIZE + fs) frees Okfr) as [q Hq]. fold e in Hq.
    apply Z.mod_divide in Hfs4 as [q' Hq']; [|done]. apply Z.mod_divide; [done|]. exists (q + q'). lia.
  - rewrite coalesced_app. split; [by eapply coalesced_last|]. apply coalesced_free; [done|].
    by apply (R11 frees).
  - rewrite Hi2, Hz1, (used_bytes_at a), Hused. exact R12.
Qed.

Lemma prev_used N a pre x :
  chain N DOS_NULL a pre -> coalesced (pre ++ [(x, false)]) ->
  last_addr DOS_NULL a pre = DOS_NULL \/
  exists p, N !! last_addr DOS_NULL a pre = Some p /\ mem_used p = 1.
Proof.
  destruct pre as [|b pre _] using rev_ind; [by left|]. intros Hc Hco. right.
  rewrite last_addr_app. simpl. rewrite chain_app in Hc. destruct Hc as [_ [[al Hb] _]].
  eexists. split; [exact Hb|]. rewrite <- app_assoc in Hco. simpl in Hco.
  apply coalesced_app in Hco as [_ [H _]]. by destruct b as [? []].
Qed.

Lemma merge_prev_stop fuel f h n :
  nodes h !! f = Some n ->
  (node_prev n = DOS_NULL \/ exists p, nodes h !! node_prev n = Some p /\ mem_used p = 1) ->
  merge_prev (S fuel) f h = Done (f, h).
Proof.
  intros Hf Hp. simpl. run_with (node_at_run _ _ _ Hf).
  destruct (Z.eqb_spec (node_prev n) DOS_NULL); [done|].
  destruct Hp as [?|(p & Hp & Hu)]; [done|]. run_with (node_at_run _ _ _ Hp). by rewrite Hu.
Qed.

(** The heap after the block has been marked free. *)
Definition freed (b sz : Z) (n : mem_node) (h : heap) : heap :=
  set_heap_size (u32 (mem_heap_size (heap_info h) + sz)) (put_node b (node_set_used 0 n) h).

Lemma freed_chain h bs l1 sz l2 n :
  heap_rep h bs -> bs = l1 ++ (sz, true) :: l2 ->
  let a := MemHead (heap_info h) in
  let b := end_addr a l1 in
  nodes h !! b = Some n ->
  chain (nodes (freed b sz n h)) DOS_NULL a (l1 ++ (sz, false) :: l2).
Proof.
  intros Hrep Hbs a b Hn. destruct (layout_ok h bs l1 l2 sz true Hrep Hbs) as (Ok1 & [Hz _] & Ok2).
  simpl in Hz. destruct (layout_chain h bs l1 l2 sz true Hrep Hbs) as (Hc1 & (al & Hb) & Hc2).
  fold a in Hc1, Hb, Hc2. fold b in Hb, Hc2.
  assert (n = mk_node (last_addr DOS_NULL a l1) sz 1 al) as -> by (simpl in Hb; congruence).
  apply chain_app. cbn [chain]. split_and!.
  - eapply chain_frame; [done | done |]. intros x Hx. simpl. apply lookup_insert_ne. fold b in Hx. lia.
  - exists al. simpl. rewrite lookup_insert_eq. done.
  - unfold span. cbn [fst]. rewrite Z.add_assoc. eapply chain_frame; [done | done |].
    intros x Hx. simpl. apply lookup_insert_ne. fold b in Hx. unfold MEM_NODE_SIZE in *. lia.
Qed.

Lemma freed_count h bs l1 sz l2 n :
  heap_rep h bs -> bs = l1 ++ (sz, true) :: l2 ->
  let a := MemHead (heap_info h) in
  let b := end_addr a l1 in
  mem_heap_size (heap_info (freed b sz n h)) =
    align_mem_heap_end h - a - MEM_NODE_SIZE -
      sum_sizes (used_at a l1 ++ used_at (b + MEM_NODE_SIZE + sz) l2).
Proof.
  intros Hrep Hbs a b. destruct (layout_ok h bs l1 l2 sz true Hrep Hbs) as (Ok1 & [Hz _] & Ok2).
  destruct (layout_bounds h bs l1 l2 sz true Hrep Hbs) as (B1 & B2 & B3 & B4 & B5).
  fold a in B1, B2, B3, B5. fold b in B1, B2, B3, B5.
  pose proof (hr_count _ _ Hrep) as Hc. fold a in Hc.
  assert (Hu : used_bytes bs = used_bytes l1 + (sz + used_bytes l2))
    by (rewrite Hbs, used_bytes_app; done).
  pose proof (used_bytes_bounds l1 a Ok1) as U1. fold b in U1.
  pose proof (used_bytes_bounds l2 (b + MEM_NODE_SIZE + sz) Ok2) as U2.
  rewrite sum_sizes_app, <- !used_bytes_at. simpl. rewrite u32_small; unfold MEM_NODE_SIZE in *; lia.
Qed.

(** Where [merge_prev] stops, the heap is ready for [merge_next]. *)
Lemma merge_prev_releasing h bs l1 sz l2 n fuel :
  heap_rep h bs -> bs = l1 ++ (sz, true) :: l2 ->
  let a := MemHead (heap_info h) in
  let b := end_addr a l1 in
  let h1 := freed b sz n h in
  nodes h !! b = Some n ->
  exists pre fs rest, merge_prev (S (S fuel)) b h1 = Done (end_addr a pre, h1) /\
    releasing h1 pre fs rest /\ (length rest <= length bs)%nat /\
    used_at a pre ++ used_at (end_addr a pre + MEM_NODE_SIZE + fs) rest =
    used_at a l1 ++ used_at (b + MEM_NODE_SIZE + sz) l2.
Proof.
  intros Hrep Hbs a b h1 Hn.
  pose proof (freed_chain h bs l1 sz l2 n Hrep Hbs Hn) as Hc. fold a in Hc. fold b in Hc. fold h1 in Hc.
  pose proof (freed_count h bs l1 sz l2 n Hrep Hbs) as Hcnt.
  cbv zeta in Hcnt. fold a in Hcnt. fold b in Hcnt. fold h1 in Hcnt.
  destruct (layout_ok h bs l1 l2 sz true Hrep Hbs) as (Ok1 & Okb & Ok2).
  destruct (layout_bounds h bs l1 l2 sz true Hrep Hbs) as (B1 & B2 & B3 & B4 & B5).
  pose proof (layout_tail h bs l1 l2 sz true Hrep Hbs) as Htl.
  pose proof (hr_coalesced _ _ Hrep) as Hco. rewrite Hbs in Hco.
  fold a in B1, B2, B3, B5, Htl. fold b in B1, B2, B3, B5, Htl.
  rewrite chain_app in Hc. fold b in Hc. destruct Hc as (Hc1 & (al & Hb) & Hc2).
  unfold span in Hc2. cbn [fst snd flag] in Hb, Hc2. rewrite Z.add_assoc in Hc2.
  assert (Hl2 : forall frees rest', l2 = frees ++ rest' -> coalesced rest').
  { intros frees rest' ->. apply (coalesced_suffix (l1 ++ (sz, true) :: frees)).
    by rewrite <- app_assoc. }
  assert (Hdec : coalesced (l1 ++ [(sz, false)]) \/ exists m1 s0, l1 = m1 ++ [(s0, false)]).
  { destruct l1 as [|[s0 [|]] m1 _] using rev_ind; [by left | | right; eauto]. left.
    rewrite <- app_assoc in Hco |- *. simpl in *. apply coalesced_app in Hco as [Hco _].
    apply coalesced_app. done. }
  destruct Hdec as [Hpre|(m1 & s0 & ->)].
  - exists l1, sz, l2. split_and!.
    + eapply merge_prev_stop; [exact Hb|]. by apply (prev_used _ _ _ sz).
    + split; try done; try apply Hrep; [eauto | | intros frees rest' E _; by eapply Hl2].
      split_and!; [eauto | exact Htl | exact B5].
    + rewrite Hbs, length_app. simpl. lia.
    + done.
  - rewrite chain_app in Hc1. destruct Hc1 as (Hm1 & (al0 & Hf) & _). cbn [fst snd flag] in Hf.
    set (f := end_addr a m1) in *. apply Forall_app in Ok1 as [Okm Okf]. apply Forall_cons in Okf as [Okf _].
    assert (Hbf : b = f + MEM_NODE_SIZE + s0)
      by (unfold b; rewrite end_addr_app; fold f; simpl; unfold span; simpl; lia).
    rewrite <- app_assoc in Hco. apply coalesced_app in Hco as [Hpre _].
    pose proof (end_addr_le a m1 Okm) as Hle. fold f in Hle.
    rewrite last_addr_app in Hb. cbn [last_addr] in Hb. fold f in Hb.
    exists m1, s0, ((sz, false) :: l2). fold f. rewrite <- Hbf. split_and!.
    + simpl merge_prev at 1. run_with (node_at_run _ _ _ Hb). cbn [node_prev].
      destruct (Z.eqb_spec f DOS_NULL) as [E|_]; [unfold DOS_NULL in E; lia|].
      run_with (node_at_run _ _ _ Hf). cbn [mem_used Z.eqb].
      eapply merge_prev_stop; [exact Hf|]. by apply (prev_used _ _ _ s0).
    + split; try done; try apply Hrep; change (MemHead (heap_info h1)) with a; cbv zeta; fold f;
        rewrite <- ?Hbf.
      * split_and!; [done | done | by constructor].
      * eauto.
      * cbn [last_addr end_addr]. unfold span. cbn [fst]. rewrite Z.add_assoc. split_and!; [|exact Htl|exact B5].
        exists f. cbn [chain]. split; [eauto|]. unfold span. cbn [fst]. by rewrite Z.add_assoc.
      * intros [|x frees] rest' E He; simpl in E.
        { subst rest'. done. }
        simplify_eq. by eapply Hl2.
      * rewrite Hcnt. simpl. rewrite used_at_app. simpl. rewrite app_nil_r.
        unfold span. cbn [fst]. by rewrite Z.add_assoc.
    + rewrite Hbs, !length_app. simpl. lia.
    + simpl. rewrite used_at_app. simpl. rewrite app_nil_r. unfold span. cbn [fst].
      by rewrite Z.add_assoc.
Qed.

Lemma mem_free_spec h bs l1 sz l2 :
  heap_rep h bs -> bs = l1 ++ (sz, true) :: l2 ->
  let a := MemHead (heap_info h) in
  let b := end_addr a l1 in
  exists h' bs', dos_mem_free (b + MEM_NODE_SIZE) h = Done (DOS_OK, h') /\
    heap_rep h' bs' /\ same_heap h h' /\
    used_at a bs' = used_at a l1 ++ used_at (b + MEM_NODE_SIZE + sz) l2.
Proof.
  intros Hrep Hbs a b.
  destruct (layout_bounds h bs l1 l2 sz true Hrep Hbs) as (B1 & B2 & B3 & B4 & B5).
  destruct (layout_chain h bs l1 l2 sz true Hrep Hbs) as (_ & (al & Hb) & _).
  fold a in B1, B2, B3, B5, Hb. fold b in B1, B2, B3, B5, Hb.
  pose proof (chain_size _ _ _ _ (hr_chain _ _ Hrep) (hr_blks _ _ Hrep)) as Hsize.
  pose proof (hr_begin _ _ Hrep) as [Hbeg _].
  unfold dos_mem_free. destruct (Z.eqb_spec (b + MEM_NODE_SIZE) DOS_NULL) as [E|_];
    [unfold DOS_NULL, MEM_NODE_SIZE in *; lia|]. kstep.
  destruct (Z.eqb_spec (align_mem_heap_begin h) DOS_NULL) as [E|_]; [unfold DOS_NULL in *; lia|].
  replace (b + MEM_NODE_SIZE - MEM_NODE_SIZE) with b by lia.
  rewrite u32_small by (unfold MEM_NODE_SIZE in *; lia).
  run_with (node_at_run _ _ _ Hb). cbn [mem_used flag Z.eqb].
  run_with (upd_node_run b (node_set_used 0) h _ Hb). unfold info_at. kstep. cbn [mem_node_size].
  destruct (merge_prev_releasing h bs l1 sz l2 _ (base.size (nodes h)) Hrep Hbs Hb)
    as (pre & fs & rest & Hrun1 & Hrel & Hlen & Hused).
  fold a in Hrun1, Hused. fold b in Hrun1, Hrel, Hused.
  set (h1 := freed b sz _ h) in *.
  assert (Hfuel : base.size (nodes h1) = base.size (nodes h)).
  { unfold h1. simpl. rewrite map_size_insert_Some; [done | by eexists]. }
  change (set_heap_size _ _) with h1. rewrite Hfuel. run_with Hrun1.
  destruct (release_run h1 pre fs rest (S (S (base.size (nodes h)))) Hrel ltac:(lia))
    as (h' & bs' & Hrun2 & Hrep' & Hsame & Hused').
  change (MemHead (heap_info h1)) with a in *.
  exists h', bs'. split_and!; [exact Hrun2 | done | | by rewrite Hused'].
  destruct Hsame. by split.
Qed.

(** ** The layout is determined by the blocks in use *)

Lemma used_at_range a bs p z :
  Forall blk_ok bs -> (p, z) ∈ used_at a bs ->
  a + MEM_NODE_SIZE <= p /\ 0 <= z /\ p + z <= end_addr a bs /\ (a mod 4 = 0 -> p mod 4 = 0).
Proof.
  intros H. revert a. induction H as [|b bs [Hb Hb4] Hok IH]; intros a; simpl; [by rewrite elem_of_nil|].
  pose proof (end_addr_le (a + span b) bs Hok) as Hle. rewrite elem_of_app. intros [Hin|Hin].
  - destruct b as [s []]; simpl in *; [|by apply elem_of_nil in Hin].
    apply list_elem_of_singleton in Hin. simplify_eq. unfold span, MEM_NODE_SIZE in *. simpl in *.
    split_and!; try lia. intros Ha. by rewrite Zplus_mod, Ha.
  - apply IH in Hin as (H1 & H2 & H3 & H4). unfold span, MEM_NODE_SIZE in *. split_and!; try lia.
    intros Ha. apply H4. apply Z.mod_divide in Ha as [q ->]; [|done].
    apply Z.mod_divide in Hb4 as [q' Hq]; [|done]. apply Z.mod_divide; [done|].
    exists (q + q' + 2). lia.
Qed.

(** A coalesced layout starts with a block in use, or with exactly one free block. *)
Lemma free_head bs : ends_used bs \/ exists s bs', bs = (s, false) :: bs'.
Proof. destruct bs as [|[s []] bs]; [by left | by left | right; eauto]. Qed.

Lemma coalesced_free_inv s bs : coalesced ((s, false) :: bs) -> ends_used bs /\ coalesced bs.
Proof. destruct bs as [|b bs]; simpl; tauto. Qed.

Lemma ends_used_at a bs :
  ends_used bs -> Forall blk_ok bs -> bs = [] \/ exists z bs', bs = (z, true) :: bs' /\
    used_at a bs = (a + MEM_NODE_SIZE, z) :: used_at (a + MEM_NODE_SIZE + z) bs'.
Proof.
  destruct bs as [|[z u] bs]; [by left|]. simpl. intros -> _. right. exists z, bs.
  split; [done|]. unfold span. simpl. by rewrite Z.add_assoc.
Qed.

Lemma end_addr_nil a bs : Forall blk_ok bs -> end_addr a bs = a -> bs = [].
Proof.
  intros Hok E. pose proof (end_addr_ge a bs Hok). destruct bs; [done|]. simpl length in *.
  unfold MEM_NODE_SIZE in *. lia.
Qed.

Lemma layout_unique bs : forall bs' a,
  Forall blk_ok bs -> Forall blk_ok bs' -> coalesced bs -> coalesced bs' ->
  end_addr a bs = end_addr a bs' -> used_at a bs = used_at a bs' -> bs = bs'.
Proof.
  induction bs as [|[s u] bs IH]; intros bs' a Ok Ok' Co Co' He Hu.
  { symmetry. apply (end_addr_nil a); [done|]. by rewrite <- He. }
  destruct bs' as [|[s' u'] bs']; [by apply (end_addr_nil a) in He|].
  pose proof Ok as [[Hs _] Okt]%Forall_cons. pose proof Ok' as [[Hs' _] Okt']%Forall_cons.
  simpl in Hs, Hs'. cbn [used_at end_addr snd] in Hu, He. unfold span in Hu, He. cbn [fst] in Hu, He.
  assert (Hfar : forall x l q z, Forall blk_ok l -> 0 <= x ->
            (a + MEM_NODE_SIZE, q) :: z = used_at (a + (MEM_NODE_SIZE + x)) l -> False).
  { intros x l q z Hl Hx E. pose proof (used_at_range (a + (MEM_NODE_SIZE + x)) l (a + MEM_NODE_SIZE) q Hl) as Hr.
    rewrite <- E in Hr. destruct Hr as [? _]; [apply elem_of_cons; by left|]. unfold MEM_NODE_SIZE in *. lia. }
  destruct u, u'; cbn [app] in Hu.
  - injection Hu as -> Hu. f_equal. by apply (IH bs' (a + (MEM_NODE_SIZE + s'))), Hu;
      try eapply coalesced_tail.
  - exfalso. by eapply (Hfar s' bs').
  - exfalso. by eapply (Hfar s bs).
  - apply coalesced_free_inv in Co as [E Co]. apply coalesced_free_inv in Co' as [E' Co'].
    assert (s = s') as ->; [|f_equal; by apply (IH bs' (a + (MEM_NODE_SIZE + s')))].
    destruct (ends_used_at (a + (MEM_NODE_SIZE + s)) bs E Okt) as [->|(z & t & -> & Hz)],
      (ends_used_at (a + (MEM_NODE_SIZE + s')) bs' E' Okt') as [->|(z' & t' & -> & Hz')].
    + simpl in He. lia.
    + rewrite Hz' in Hu. done.
    + rewrite Hz in Hu. done.
    + rewrite Hz, Hz' in Hu. injection Hu as Hu _ _. lia.
Qed.

(** ** Properties *)

(** A check of [heap_rep] on a concrete heap. *)
Fixpoint chain_check (N : gmap Z mem_node) (p a : Z) (bs : list blk) : bool :=
  match bs with
  | [] => true
  | b :: bs' =>
      match N !! a with
      | Some n => (node_prev n =? p) && (mem_node_size n =? b.1) && (mem_used n =? flag b.2)
      | None => false
      end && chain_check N a (a + span b) bs'
  end.

Fixpoint coalesced_check (bs : list blk) : bool :=
  match bs with
  | b :: ((b' :: _) as t) => (b.2 || b'.2) && coalesced_check t
  | _ => true
  end.

Definition heap_check (h : heap) (bs : list blk) : bool :=
  let a := MemHead (heap_info h) in
  (0 <? align_mem_heap_begin h) && (align_mem_heap_begin h mod 4 =? 0) &&
  (a =? align_mem_heap_begin h + MEM_INFO_SIZE) && (end_addr a bs =? align_mem_heap_end h) &&
  (align_mem_heap_end h <? 2 ^ 32) &&
  (align_mem_heap_end h - align_mem_heap_begin h <? 2 ^ 30) &&
  (mem_tail (heap_info h) =? last_addr DOS_NULL a bs) && negb (bool_decide (bs = [])) &&
  chain_check (nodes h) DOS_NULL a bs &&
  forallb (fun b => (0 <=? b.1) && (b.1 mod 4 =? 0)) bs && coalesced_check bs &&
  (mem_heap_size (heap_info h) =? align_mem_heap_end h - a - MEM_NODE_SIZE - used_bytes bs).

(** The blocks of a concrete heap, and the check of a request. *)
Fixpoint blocks_from (fuel : nat) (N : gmap Z mem_node) (a : Z) : list blk :=
  match fuel with
  | O => []
  | S fuel' =>
      match N !! a with
      | Some n => (mem_node_size n, mem_used n =? 1) ::
                  blocks_from fuel' N (a + MEM_NODE_SIZE + mem_node_size n)
      | None => []
      end
  end.

Definition blocks_of (h : heap) : list blk :=
  blocks_from (size (nodes h)) (nodes h) (MemHead (heap_info h)).

Definition fit_check (size : Z) (bs : list blk) : bool :=
  forallb (fun b => negb (candidate size b) || (size + MEM_NODE_SIZE <? b.1)) bs.

Lemma fit_check_sound size bs : fit_check size bs = true -> no_tight_fit size bs.
Proof.
  unfold fit_check. rewrite forallb_forall. intros H b Hb%list_elem_of_In Hc.
  specialize (H b Hb). rewrite Hc in H. by apply Z.ltb_lt in H.
Qed.

Lemma chain_check_sound N bs : forall p a, chain_check N p a bs = true -> chain N p a bs.
Proof.
  induction bs as [|b bs IH]; intros p a; simpl; [done|].
  destruct (N !! a) as [[p' s u al]|]; [|done]. simpl. rewrite !andb_true_iff, !Z.eqb_eq.
  intros [((-> & ->) & ->) H]. split; [by exists al | by apply IH].
Qed.

Lemma coalesced_check_sound bs : coalesced_check bs = true -> coalesced bs.
Proof.
  induction bs as [|b [|b' bs] IH]; simpl in *; [done..|]. rewrite andb_true_iff. tauto.
Qed.

Lemma heap_check_sound h bs : heap_check h bs = true -> heap_rep h bs.
Proof.
  unfold heap_check. rewrite !andb_true_iff, !Z.eqb_eq, !Z.ltb_lt, negb_true_iff, bool_decide_eq_false.
  intros (((((((((((H1 & H2) & H3) & H4) & H5) & H6) & H7) & H8) & H9) & H10) & H11) & H12).
  split; try done; [by apply chain_check_sound | | by apply coalesced_check_sound].
  apply Forall_forall. intros b Hb. rewrite forallb_forall in H10.
  apply list_elem_of_In, H10 in Hb. by rewrite andb_true_iff, Z.leb_le, Z.eqb_eq in Hb.
Qed.

(** [dos_mem_heap_init] makes a well-formed heap: wherever the linker puts
    the heap array, the control block is at the first aligned address of the
    array and one free block, whose size the control block reports, fills the
    rest up to the last aligned address. *)
Theorem heap_init_ok addr h :
  0 < addr -> addr + DOS_MEM_HEAP_SIZE < 2 ^ 32 ->
  exists h' n, dos_mem_heap_init addr h = Done (true, h') /\ heap_rep h' [(n, false)] /\
    addr <= align_mem_heap_begin h' < addr + 4 /\
    addr + DOS_MEM_HEAP_SIZE - 4 < align_mem_heap_end h' <= addr + DOS_MEM_HEAP_SIZE /\
    mem_heap_size (heap_info h') = n.
Proof.
  intros H0 H1. unfold dos_mem_heap_init, DOS_ALIGN_DOWN, DOS_MEM_HEAP_SIZE in *.
  destruct (align_spec addr ltac:(lia)) as [Hb Hb4]. unfold DOS_ALIGN_SIZE in *. change (4 - 1) with 3.
  rewrite (u32_small (addr + 1024 * 30)) by lia. rewrite land_not3 by lia.
  set (begin := DOS_ALIGN addr 4) in *. set (end_ := 4 * ((addr + 1024 * 30) / 4)).
  assert (He : addr + 1024 * 30 - 4 < end_ <= addr + 1024 * 30).
  { unfold end_. pose proof (Z.div_mod (addr + 1024 * 30) 4 ltac:(lia)).
    pose proof (Z.mod_pos_bound (addr + 1024 * 30) 4 ltac:(lia)). lia. }
  rewrite (u32_small (end_ - begin)) by lia. kstep. unfold MEM_INFO_SIZE, MEM_NODE_SIZE in *.
  destruct (Z.eqb_spec begin DOS_NULL) as [E|_]; [unfold DOS_NULL in E; lia|].
  destruct (Z.leb_spec (end_ - begin) (16 + 8)); [lia|]. cbn [orb]. kstep.
  rewrite (u32_small (end_ - begin - 16 - 8)), (u32_small (begin + 16)) by lia.
  eexists _, (end_ - begin - 16 - 8). split; [done|].
  split_and!; [split; simpl; try done | simpl; lia..].
  - split; [lia | done].
  - unfold span, MEM_NODE_SIZE. simpl. lia.
  - lia.
  - split; [|done]. exists 0. rewrite lookup_singleton_eq. unfold u30.
    rewrite Z.mod_small by lia. done.
  - constructor; [|done]. split; simpl; [lia|]. apply Z.mod_divide in Hb4 as [q Hq]; [|done].
    apply Z.mod_divide; [done|]. exists ((addr + 1024 * 30) / 4 - q - 6). unfold end_. lia.
  - unfold MEM_NODE_SIZE. lia.
Qed.

Lemma heap_init_ok_witness :
  exists h' n, dos_mem_heap_init 0x20000001 heap_zero = Done (true, h') /\
    heap_rep h' [(n, false)].
Proof.
  destruct (heap_init_ok 0x20000001 heap_zero) as (h' & n & Hrun & Hrep & _);
    [reflexivity | reflexivity |].
  exists h', n. split; [exact Hrun | exact Hrep].
Defined.

(** The heap with a few blocks in use, for the instances below. *)
Definition heap_run {A} (m : prog heap A) (h : heap) : heap :=
  match m h with Done (_, h') => h' | _ => h end.
Definition demo_heap : heap :=
  heap_run (dos_mem_heap_init 0x20000000;; mem_alloc 10;; mem_alloc 16;; mem_alloc 100) heap_zero.
Definition demo_blocks : list blk :=
  [(12, true); (16, true); (100, true); (30720 - 16 - 8 - 20 - 24 - 108, false)].

(** The new block does not touch the block at [p], headers included. *)
Definition apart (r s p z : Z) : Prop :=
  r + s + MEM_NODE_SIZE <= p \/ p + z + MEM_NODE_SIZE <= r.

(** A free block of [sz] bytes is divided into one of [s] bytes in use and the
    free rest. *)
Definition cut_from (bs : list blk) (sz s : Z) (bs' : list blk) : Prop :=
  exists l1 l2, bs = l1 ++ (sz, false) :: l2 /\
    bs' = l1 ++ (s, true) :: (sz - s - MEM_NODE_SIZE, false) :: l2.

(** What an allocation of the aligned size [s] gives. *)
Definition alloc_result (h : heap) (bs : list blk) (s r : Z) (h' : heap) : Prop :=
  let a := MemHead (heap_info h) in
  if decide (r = DOS_NULL)
  then h' = h /\ forall b, b ∈ bs -> candidate s b = false
  else exists bs' sz, heap_rep h' bs' /\ MemHead (heap_info h') = a /\ cut_from bs sz s bs' /\ s < sz /\
    (forall b, b ∈ bs -> candidate s b = true -> sz <= b.1) /\
    used_at a bs' ≡ₚ (r, s) :: used_at a bs /\
    r mod 4 = 0 /\ a + MEM_NODE_SIZE <= r /\ r + s <= align_mem_heap_end h /\
    (forall p z, (p, z) ∈ used_at a bs -> apart r s p z) /\
    mem_heap_size (heap_info h') = mem_heap_size (heap_info h) - s.

Lemma alloc_result_range h bs s r h' :
  heap_rep h bs -> alloc_result h bs s r h' -> r <> DOS_NULL -> 0 < r /\ r + s < 2 ^ 32.
Proof.
  intros Hrep Hres Hr. unfold alloc_result in Hres. rewrite decide_False in Hres by done.
  destruct Hres as (bs' & sz & _ & _ & _ & _ & _ & _ & _ & H1 & H2 & _).
  pose proof (hr_begin _ _ Hrep). pose proof (hr_head _ _ Hrep). pose proof (hr_bound _ _ Hrep).
  unfold MEM_INFO_SIZE, MEM_NODE_SIZE in *. lia.
Qed.

Lemma mem_alloc_ok h bs n :
  let s := DOS_ALIGN n DOS_ALIGN_SIZE in
  heap_rep h bs -> 0 <= n <= 2 ^ 32 - 4 -> no_tight_fit s bs ->
  exists r h', mem_alloc n h = Done (r, h') /\ n <= s /\ alloc_result h bs s r h'.
Proof.
  intros s Hrep Hn Ht. unfold alloc_result. set (a := MemHead (heap_info h)). destruct (align_spec n Hn) as [Hs Hs4]. fold s in Hs, Hs4.
  destruct (mem_alloc_spec h bs n Hrep Hn Ht) as (r & h' & Hrun & Hout).
  exists r, h'. split_and!; [done | lia |]. fold s in Hout.
  destruct Hout as [(-> & -> & Hnone)|(l1 & sz & l2 & Hbs & Hsz & Hmin & Hr & Hrep' & Hsame)].
  { by rewrite decide_True. }
  fold a in Hr. destruct (layout_bounds h bs l1 l2 sz false Hrep Hbs) as (B1 & B2 & B3 & B4 & B5).
  destruct (layout_ok h bs l1 l2 sz false Hrep Hbs) as (Ok1 & Okb & Ok2).
  fold a in B1, B2, B3, B5. set (b := end_addr a l1) in *.
  rewrite decide_False by (unfold DOS_NULL, MEM_NODE_SIZE in *; lia).
  assert (Hu : used_at a (l1 ++ (s, true) :: (sz - s - MEM_NODE_SIZE, false) :: l2) =
            used_at a l1 ++ (r, s) :: used_at (b + (MEM_NODE_SIZE + sz)) l2).
  { rewrite used_at_app. fold b. cbn [used_at snd fst app]. unfold span. cbn [fst].
    replace (b + (MEM_NODE_SIZE + s) + (MEM_NODE_SIZE + (sz - s - MEM_NODE_SIZE)))
      with (b + (MEM_NODE_SIZE + sz)) by lia. by rewrite Hr. }
  assert (Hu0 : used_at a bs = used_at a l1 ++ used_at (b + (MEM_NODE_SIZE + sz)) l2)
    by (by rewrite Hbs, used_at_app).
  assert (Ha4 : a mod 4 = 0).
  { unfold a. rewrite (hr_head _ _ Hrep). destruct (hr_begin _ _ Hrep) as [_ Hb4].
    unfold MEM_INFO_SIZE. by rewrite Zplus_mod, Hb4. }
  pose proof (hr_blks _ _ Hrep') as Ok'.
  destruct (used_at_range a _ r s Ok') as (R1 & _ & R2 & R3).
  { rewrite Hu. apply elem_of_app. right. by left. }
  eexists _, sz. split_and!; [exact Hrep' | apply Hsame | by exists l1, l2 | done | done | | by apply R3 | done | | |].
  - rewrite Hu, Hu0. by rewrite Permutation_middle.
  - pose proof (hr_end _ _ Hrep') as He. rewrite (sh_head _ _ Hsame), (sh_end _ _ Hsame) in He.
    fold a in He. lia.
  - intros p z. rewrite Hu0, elem_of_app. unfold apart. intros [Hin|Hin].
    + apply used_at_range in Hin as (_ & _ & Hin & _); [|done]. fold b in Hin.
      right. unfold MEM_NODE_SIZE in *. lia.
    + apply used_at_range in Hin as (Hin & _); [|done]. left.
      destruct (layout_ok h' _ (l1 ++ [(s, true)]) l2 (sz - s - MEM_NODE_SIZE) false Hrep') as (_ & [Hz _] & _);
        [by rewrite <- app_assoc|]. simpl in Hz. unfold MEM_NODE_SIZE in *. lia.
  - rewrite (hr_count _ _ Hrep'), (hr_count _ _ Hrep), (sh_head _ _ Hsame), (sh_end _ _ Hsame), Hbs,
      !used_bytes_app. simpl. lia.
Qed.

Lemma used_at_split a bs p sz :
  (p, sz) ∈ used_at a bs -> exists l1 l2, bs = l1 ++ (sz, true) :: l2 /\ p = end_addr a l1 + MEM_NODE_SIZE.
Proof.
  revert a. induction bs as [|[z u] bs IH]; intros a; simpl; [by rewrite elem_of_nil|]. rewrite elem_of_app.
  intros [Hin|Hin].
  - destruct u; [|by apply elem_of_nil in Hin]. apply list_elem_of_singleton in Hin as [= -> ->]. by exists [], bs.
  - destruct (IH _ Hin) as (l1 & l2 & -> & ->). by exists ((z, u) :: l1), l2.
Qed.

Lemma mem_free_ok h bs p sz :
  let a := MemHead (heap_info h) in
  heap_rep h bs -> (p, sz) ∈ used_at a bs ->
  exists h' bs', dos_mem_free p h = Done (DOS_OK, h') /\ heap_rep h' bs' /\ MemHead (heap_info h') = a /\
    used_at a bs ≡ₚ (p, sz) :: used_at a bs' /\
    mem_heap_size (heap_info h') = mem_heap_size (heap_info h) + sz.
Proof.
  intros a Hrep (l1 & l2 & Hbs & Hp)%used_at_split.
  destruct (mem_free_spec h bs l1 sz l2 Hrep Hbs) as (h' & bs' & Hrun & Hrep' & Hsame & Hu).
  fold a in Hrun, Hu. rewrite <- Hp in Hrun, Hu. exists h', bs'.
  assert (Hu0 : used_at a bs = used_at a l1 ++ (p, sz) :: used_at (p + sz) l2).
  { rewrite Hbs, used_at_app. simpl. unfold span. simpl. rewrite <- Hp. do 3 f_equal. lia. }
  split_and!; [done | done | apply Hsame | |].
  - rewrite Hu0, Hu. by rewrite Permutation_middle.
  - rewrite (hr_count _ _ Hrep'), (hr_count _ _ Hrep), (sh_head _ _ Hsame), (sh_end _ _ Hsame).
    fold a. rewrite !(used_bytes_at a), Hu0, Hu, !sum_sizes_app. simpl. lia.
Qed.

(** C24: The heap.  On a well-formed heap an allocation, of at most 2^32 - 4 bytes (the
    rounding of larger sizes wraps around), and a release do what the contract says.
    Where no free block exceeds the aligned request by a header or
    less, [dos_mem_alloc] returns null and changes nothing exactly when no free
    block is larger than the request; otherwise it returns an aligned address
    inside the heap, the block and its header are disjoint from every block in use,
    it was cut from the smallest sufficient free block, the blocks in use are the
    old ones and this one, and the free count drops by its size.  [dos_mem_free] of
    a block in use succeeds, the blocks in use are the old ones without it, and the
    free count grows by its size.  Afterwards the heap is well formed again and no
    two free blocks are neighbours. *)
Theorem heap_refines h bs :
  let a := MemHead (heap_info h) in
  heap_rep h bs ->
  (forall n, let s := DOS_ALIGN n DOS_ALIGN_SIZE in
   0 <= n <= 2 ^ 32 - 4 -> no_tight_fit s bs ->
   exists r h', mem_alloc n h = Done (r, h') /\ n <= s /\
     if decide (r = DOS_NULL)
     then h' = h /\ forall b, b ∈ bs -> candidate s b = false
     else exists bs' sz, heap_rep h' bs' /\ MemHead (heap_info h') = a /\ cut_from bs sz s bs' /\ s < sz /\
       (forall b, b ∈ bs -> candidate s b = true -> sz <= b.1) /\
       used_at a bs' ≡ₚ (r, s) :: used_at a bs /\
       r mod 4 = 0 /\ a + MEM_NODE_SIZE <= r /\ r + s <= align_mem_heap_end h /\
       (forall p z, (p, z) ∈ used_at a bs -> apart r s p z) /\
       mem_heap_size (heap_info h') = mem_heap_size (heap_info h) - s) /\
  (forall p sz, (p, sz) ∈ used_at a bs ->
   exists h' bs', dos_mem_free p h = Done (DOS_OK, h') /\ heap_rep h' bs' /\ MemHead (heap_info h') = a /\
     used_at a bs ≡ₚ (p, sz) :: used_at a bs' /\
     mem_heap_size (heap_info h') = mem_heap_size (heap_info h) + sz).
Proof. intros a HR. split; [intros n s; by apply mem_alloc_ok | intros p sz; by apply mem_free_ok]. Qed.

Lemma heap_refines_witness :
  (exists r h', mem_alloc 40 demo_heap = Done (r, h')) /\
  (exists h', dos_mem_free (0x20000000 + 16 + 20 + 8) demo_heap = Done (DOS_OK, h')).
Proof.
  destruct (heap_refines demo_heap demo_blocks) as [Ha Hf]; [apply heap_check_sound; vm_compute; reflexivity|]. split.
  - destruct (Ha 40) as (r & h' & Hrun & _); [lia | apply fit_check_sound; vm_compute; reflexivity | by exists r, h'].
  - destruct (Hf (0x20000000 + 16 + 20 + 8) 16) as (h' & bs' & Hrun & _); [|by exists h'].
    apply (bool_decide_eq_true_1 _). vm_compute. reflexivity.
Defined.

(** Allocating and freeing restores the heap: every block of the layout,
    free or in use, is where it was. *)
Theorem heap_alloc_free h bs n r h1 :
  heap_rep h bs -> 0 <= n <= 2 ^ 32 - 4 -> no_tight_fit (DOS_ALIGN n DOS_ALIGN_SIZE) bs ->
  mem_alloc n h = Done (r, h1) -> r <> DOS_NULL ->
  exists h2, dos_mem_free r h1 = Done (DOS_OK, h2) /\ heap_rep h2 bs.
Proof.
  intros Hrep Hn Ht Hrun Hr0. set (s := DOS_ALIGN n DOS_ALIGN_SIZE) in *.
  destruct (mem_alloc_spec h bs n Hrep Hn Ht) as (r' & h' & Hrun' & Hout). fold s in Hout.
  rewrite Hrun in Hrun'. injection Hrun' as <- <-.
  destruct Hout as [(-> & _)|(l1 & sz & l2 & Hbs & Hsz & Hmin & Hr & Hrep' & Hsame)]; [done|].
  set (rest := (sz - s - MEM_NODE_SIZE, false) :: l2) in *.
  destruct (mem_free_spec h1 _ l1 s rest Hrep' eq_refl) as (h2 & bs2 & Hfree & Hrep2 & Hsame2 & Hu).
  rewrite (sh_head _ _ Hsame) in Hfree, Hu. rewrite <- Hr in Hfree, Hu.
  exists h2. split; [done|]. enough (bs = bs2) as -> by done.
  apply (layout_unique bs bs2 (MemHead (heap_info h))); [apply Hrep | apply Hrep2 | apply Hrep | apply Hrep2 | |].
  - rewrite (hr_end _ _ Hrep). pose proof (hr_end _ _ Hrep2) as He.
    rewrite (sh_head _ _ Hsame2), (sh_head _ _ Hsame), (sh_end _ _ Hsame2), (sh_end _ _ Hsame) in He. done.
  - rewrite Hu, Hbs, used_at_app. unfold rest. cbn [used_at snd fst app]. unfold span. cbn [fst].
    do 2 f_equal. rewrite Hr. lia.
Qed.

Lemma heap_alloc_free_witness :
  exists h2, dos_mem_free (0x20000000 + 16 + 20 + 24 + 108 + 8) (heap_run (mem_alloc 40) demo_heap) =
      Done (DOS_OK, h2) /\ heap_rep h2 demo_blocks.
Proof.
  apply (heap_alloc_free demo_heap demo_blocks 40).
  - apply heap_check_sound. vm_compute. reflexivity.
  - lia.
  - apply fit_check_sound. vm_compute. reflexivity.
  - vm_compute. reflexivity.
  - discriminate.
Defined.

(** ** Tight fits *)

Lemma addrs_app a l1 l2 : addrs a (l1 ++ l2) = addrs a l1 ++ addrs (end_addr a l1) l2.
Proof. revert a. induction l1 as [|b l1 IH]; intros a; simpl; [done | by rewrite IH]. Qed.

(** The links to the previous block and the last block fix where the blocks are,
    whatever the sizes in the headers say. *)
Lemma chain_addrs N N' a bs : 0 < a ->
  (forall x, node_prev <$> N' !! x = node_prev <$> N !! x) ->
  forall bs', chain N DOS_NULL a bs -> chain N' DOS_NULL a bs' -> Forall blk_ok bs -> Forall blk_ok bs' ->
    last_addr DOS_NULL a bs = last_addr DOS_NULL a bs' -> addrs a bs = addrs a bs'.
Proof.
  intros Ha HN. induction bs as [|b bs IH] using rev_ind; intros bs' Hc Hc' Hok Hok' Hl.
  - destruct bs' as [|b' bs']; [done|]. pose proof (last_addr_bounds DOS_NULL a (b' :: bs') Hok' ltac:(done)) as H.
    rewrite <- Hl in H. simpl in H. unfold DOS_NULL in H. lia.
  - destruct bs' as [|b' bs' _] using rev_ind.
    { pose proof (last_addr_bounds DOS_NULL a (bs ++ [b]) Hok ltac:(by destruct bs)) as H.
      rewrite Hl in H. simpl in H. unfold DOS_NULL in H. lia. }
    rewrite !last_addr_app in Hl. simpl in Hl. destruct (chain_mid _ _ _ _ _ _ Hc) as [al Hb].
    destruct (chain_mid _ _ _ _ _ _ Hc') as [al' Hb']. pose proof (HN (end_addr a bs)) as Hp.
    rewrite Hb, Hl, Hb' in Hp. simpl in Hp. injection Hp as Hp.
    rewrite chain_app in Hc, Hc'. apply Forall_app in Hok as [Hok _], Hok' as [Hok' _].
    rewrite !addrs_app. simpl. rewrite Hl, (IH bs'); [done | tauto | tauto | done | done | done].
Qed.

(** A block whose size field was cut without a new block behind it. *)
Lemma shrunk_no_layout h h' bs l1 sz l2 s u al :
  heap_rep h bs -> bs = l1 ++ (sz, u) :: l2 -> s < sz -> same_heap h h' ->
  mem_tail (heap_info h') = mem_tail (heap_info h) ->
  nodes h' = <[end_addr (MemHead (heap_info h)) l1 :=
    mk_node (last_addr DOS_NULL (MemHead (heap_info h)) l1) s 1 al]> (nodes h) ->
  forall bs', ~ heap_rep h' bs'.
Proof.
  intros Hrep Hbs Hs [_ Se Sh] Htl HN bs' Hrep'. set (a := MemHead (heap_info h)) in *.
  destruct (layout_chain h bs l1 l2 sz u Hrep Hbs) as (_ & (al0 & Hb) & _). fold a in Hb.
  assert (Ha : 0 < a).
  { unfold a. rewrite (hr_head _ _ Hrep). pose proof (hr_begin _ _ Hrep). unfold MEM_INFO_SIZE. lia. }
  pose proof (hr_chain _ _ Hrep') as Hc'. rewrite Sh in Hc'. fold a in Hc'.
  assert (E : addrs a bs = addrs a bs').
  { apply (chain_addrs (nodes h) (nodes h')); [done | | apply Hrep | done | apply Hrep | apply Hrep' |].
    - intros x. rewrite HN. destruct (decide (x = end_addr a l1)) as [->|Hne]; [|by rewrite lookup_insert_ne].
      by rewrite lookup_insert_eq, Hb.
    - pose proof (hr_tail _ _ Hrep) as T1. pose proof (hr_tail _ _ Hrep') as T2. rewrite Sh in T2. fold a in T1, T2.
      congruence. }
  rewrite <- (take_drop (length l1) bs'), Hbs, !addrs_app in E.
  assert (Hlen : length (addrs a l1) = length (addrs a (take (length l1) bs'))).
  { apply (f_equal length) in E. rewrite !length_app, !addrs_length, length_drop, length_take in *. simpl in E. lia. }
  apply app_inj_1 in E as [_ E]; [|done]. cbn [addrs] in E.
  pose proof (hr_end _ _ Hrep) as He. pose proof (hr_end _ _ Hrep') as He'. rewrite Se, Sh in He'. fold a in He, He'.
  rewrite <- (take_drop (length l1) bs') in Hc', He'. rewrite Hbs, end_addr_app in He. rewrite end_addr_app in He'.
  rewrite chain_app in Hc'. destruct Hc' as [_ Hc']. destruct (drop (length l1) bs') as [|y m2]; [done|].
  cbn [addrs] in E. injection E as Eb E. rewrite <- Eb in *. cbn [chain end_addr] in *. destruct Hc' as [[al' Hy] _].
  rewrite HN, lookup_insert_eq in Hy. injection Hy as _ Hy _ _. unfold span in *. cbn [fst] in *.
  destruct l2 as [|x l2], m2 as [|z m2]; try done; cbn [addrs end_addr] in *; [lia|]. injection E as E _. lia.
Qed.

Lemma mem_alloc_tight h bs n b0 :
  let s := DOS_ALIGN n DOS_ALIGN_SIZE in
  heap_rep h bs -> 0 <= n <= 2 ^ 32 - 4 -> b0 ∈ bs -> candidate s b0 = true -> b0.1 <= s + MEM_NODE_SIZE ->
  exists l1 sz l2 h', bs = l1 ++ (sz, false) :: l2 /\ s < sz <= s + MEM_NODE_SIZE /\
    mem_alloc n h = Done (end_addr (MemHead (heap_info h)) l1 + MEM_NODE_SIZE, h') /\ same_heap h h' /\
    mem_tail (heap_info h') = mem_tail (heap_info h) /\
    nodes h' = <[end_addr (MemHead (heap_info h)) l1 :=
      mk_node (last_addr DOS_NULL (MemHead (heap_info h)) l1) s 1 0]> (nodes h).
Proof.
  intros s Hrep Hn Hb0 Hcand Ht. destruct (align_spec n Hn) as [Hs Hs4]. fold s in Hs, Hs4.
  unfold mem_alloc. fold s. unfold info_at. kstep. set (a := MemHead (heap_info h)).
  assert (Ha : 0 < a).
  { unfold a. rewrite (hr_head _ _ Hrep). pose proof (hr_begin _ _ Hrep). unfold MEM_INFO_SIZE. lia. }
  pose proof (chain_size _ _ _ _ (hr_chain _ _ Hrep) (hr_blks _ _ Hrep)) as Hsize.
  pose proof (hr_chain _ _ Hrep) as Hchain. fold a in Hchain.
  destruct (find_best_run h a s Ha bs [] (S (S (base.size (nodes h)))) DOS_NULL)
    as (best & Hrun & Hbest); rewrite ?app_nil_r; try done; [apply Hrep | lia | |].
  { left. split; [done|]. intros b Hb. by apply elem_of_nil in Hb. }
  rewrite (hr_tail _ _ Hrep). fold a. run_with Hrun. rewrite app_nil_r in Hbest.
  destruct Hbest as [[-> Hnone]|(l1 & sz & l2 & Hbs & -> & Hsz & Hmin)].
  { by rewrite (Hnone b0 Hb0) in Hcand. }
  rewrite app_nil_l in *. pose proof (Hmin b0 Hb0 Hcand) as Hle.
  pose proof (layout_bounds h bs l1 l2 sz false Hrep Hbs) as (B1 & B2 & B3 & B4 & B5).
  fold a in B1, B2, B3, B5. set (b := end_addr a l1) in *.
  destruct (Z.eqb_spec b DOS_NULL) as [E|_]; [unfold DOS_NULL in E; lia|].
  destruct (layout_chain h bs l1 l2 sz false Hrep Hbs) as (_ & (al0 & Hb) & _). fold a in Hb. fold b in Hb.
  assert (Hcut : cut_node b s h = Done (tt, h)).
  { unfold cut_node. run_with (node_at_run _ _ _ Hb). cbn [mem_node_size]. rewrite u32_small by (unfold MEM_NODE_SIZE in *; lia).
    destruct (Z.gtb_spec (sz - s) MEM_NODE_SIZE); [lia | done]. }
  run_with Hcut. rewrite (bind_bind_run _ _ _ _ _ _ (upd_node_twice b _ _ h _ Hb)).
  run_by ltac:(apply upd_node_run; simpl; apply lookup_insert_eq). kstep.
  eexists l1, sz, l2, _. split; [done|]. split; [lia|]. split.
  { unfold user_mem. rewrite u32_small by (unfold MEM_NODE_SIZE in *; lia). reflexivity. }
  split_and!; [by split | exact (hr_tail _ _ Hrep) |]. unfold put_node, set_heap_size, set_info, node_set_size, u30. simpl.
  by rewrite insert_insert_eq, (Z.mod_small s) by (unfold MEM_NODE_SIZE in *; lia).
Qed.


(** Three blocks, the middle one of 16 bytes free again: a request of 12 bytes. *)
Definition tight_heap : heap :=
  heap_run (dos_mem_heap_init 0x20000000;; mem_alloc 10;; p ← mem_alloc 16; mem_alloc 100;; dos_mem_free p) heap_zero.


(** The release of that block reads a header where there is none. *)
Lemma tight_fit_free_faults : (q ← mem_alloc 12; dos_mem_free q) tight_heap = Fault.
Proof. vm_compute. reflexivity. Qed.
