(* ===== verification/Ring.v ===== *)
(** * Circular doubly linked lists

    The task lists of list.c and the timer lists of swtmr.c are rings of nodes
    with a sentinel: [ring nx pv e xs] says that from the sentinel [e] the
    pointers [nx] lead through [xs] back to [e], and [pv] the other way round.
    Linking a node in, unlinking one and the sorted insertion are shared by
    both. *)

From S2P Require Import Prelude.

(** ** Sequences *)

Lemma removelast_app_one {A} (l : list A) x : removelast (l ++ [x]) = l.
Proof. by rewrite removelast_app, app_nil_r by done. Qed.

Lemma cons_last_split {A} (e : A) l : exists L, e :: l = L ++ [default e (last l)].
Proof.
  induction l as [|x l IH] using rev_ind; [by exists []|].
  rewrite last_snoc. by exists (e :: l).
Qed.

Lemma app_head_split {A} (l : list A) e : exists R, l ++ [e] = default e (head l) :: R.
Proof. destruct l; simpl; eauto. Qed.

Lemma elem_of_default_last {A} (e : A) l1 : default e (last l1) ∈ e :: l1.
Proof.
  destruct (last l1) eqn:E; simpl; [|set_solver].
  apply last_Some in E as [? ->]. set_solver.
Qed.

Lemma elem_of_default_head {A} (e : A) l2 : default e (head l2) ∈ e :: l2.
Proof. destruct l2; set_solver. Qed.

Lemma StronglySorted_app_remove {A} (R : A -> A -> Prop) l1 x l2 :
  StronglySorted R (l1 ++ x :: l2) -> StronglySorted R (l1 ++ l2).
Proof.
  induction l1 as [|y l1 IH]; simpl; intros H; inversion H; subst; [done|].
  constructor; [by apply IH|]. rewrite !Forall_app in *. inversion H3; subst.
  by inversion H1.
Qed.

(** ** Sorted insertion *)

Section insert_sorted.
Context {A : Type} (val : A -> Z).

(** [p] goes behind the elements whose value is at most its own. *)
Fixpoint insert_sorted (p : A) (xs : list A) : list A :=
  match xs with
  | [] => [p]
  | x :: xs' => if val x <=? val p then x :: insert_sorted p xs' else p :: xs
  end.

Lemma insert_sorted_split p xs :
  exists l1 l2, xs = l1 ++ l2 /\ insert_sorted p xs = l1 ++ p :: l2 /\
    (forall x, x ∈ l1 -> val x <= val p) /\
    (forall x, head l2 = Some x -> val p < val x).
Proof.
  induction xs as [|x xs (l1 & l2 & -> & E & H1 & H2)]; simpl.
  - exists [], []. split_and!; [done | done | set_solver | done].
  - destruct (Z.leb_spec (val x) (val p)).
    + exists (x :: l1), l2. rewrite E. split_and!; [done | done | | done].
      intros y [->|Hy]%elem_of_cons; auto.
    + exists [], (x :: l1 ++ l2). split_and!; [done | done | set_solver |].
      intros y [= <-]. done.
Qed.

Lemma insert_sorted_perm p xs : insert_sorted p xs ≡ₚ p :: xs.
Proof.
  destruct (insert_sorted_split p xs) as (l1 & l2 & -> & -> & _).
  symmetry. apply Permutation_middle.
Qed.

Lemma elem_of_insert_sorted p xs q : q ∈ insert_sorted p xs <-> q = p \/ q ∈ xs.
Proof. rewrite (insert_sorted_perm p xs). apply elem_of_cons. Qed.

Lemma insert_sorted_max p xs :
  (forall x, x ∈ xs -> val x <= val p) -> insert_sorted p xs = xs ++ [p].
Proof.
  induction xs as [|x xs IH]; simpl; [done|]. intros H.
  rewrite (proj2 (Z.leb_le _ _)) by (apply H; set_solver).
  by rewrite IH by set_solver.
Qed.

Lemma insert_sorted_skip p l1 l2 :
  (forall x, x ∈ l1 -> val x <= val p) -> insert_sorted p (l1 ++ l2) = l1 ++ insert_sorted p l2.
Proof.
  induction l1 as [|x l1 IH]; simpl; [done|]. intros H.
  rewrite (proj2 (Z.leb_le _ _)) by (apply H; left). rewrite IH; [done|]. intros y Hy. apply H. by right.
Qed.

Lemma insert_sorted_sorted p xs :
  StronglySorted (fun a b => val a <= val b) xs ->
  StronglySorted (fun a b => val a <= val b) (insert_sorted p xs).
Proof.
  induction 1 as [|x xs Hs IH Hf]; simpl.
  - repeat constructor.
  - destruct (Z.leb_spec (val x) (val p)).
    + constructor; [done|]. apply Forall_forall. intros y.
      rewrite elem_of_insert_sorted. rewrite Forall_forall in Hf. naive_solver.
    + constructor; [by constructor|]. constructor; [lia|].
      eapply Forall_impl; [exact Hf|]. simpl; lia.
Qed.
End insert_sorted.

Lemma insert_sorted_ext {A} (val val' : A -> Z) p xs :
  (forall q, q ∈ p :: xs -> val q = val' q) ->
  insert_sorted val p xs = insert_sorted val' p xs.
Proof.
  induction xs as [|x xs IH]; simpl; [done|]. intros H.
  rewrite (H x), (H p) by set_solver. rewrite IH; [done|]. set_solver.
Qed.

(** ** Links *)

(** Consecutive elements of the sequence point at each other. *)
Fixpoint linked {P} (nx pv : P -> option P) (l : list P) : Prop :=
  match l with
  | p :: ((q :: _) as t) => nx p = Some q /\ pv q = Some p /\ linked nx pv t
  | _ => True
  end.

Lemma linked_app {P} (nx pv : P -> option P) l1 p l2 :
  linked nx pv (l1 ++ p :: l2) <-> linked nx pv (l1 ++ [p]) /\ linked nx pv (p :: l2).
Proof.
  induction l1 as [|x l1 IH]; simpl.
  - destruct l2; tauto.
  - destruct l1 as [|y l1]; simpl in *.
    + destruct l2; tauto.
    + destruct (l1 ++ p :: l2); destruct (l1 ++ [p]); tauto.
Qed.

Lemma linked_frame {P} (nx pv nx' pv' : P -> option P) l :
  linked nx pv l ->
  (forall p, p ∈ removelast l -> nx' p = nx p) -> (forall q, q ∈ tail l -> pv' q = pv q) ->
  linked nx' pv' l.
Proof.
  induction l as [|p [|q l] IH]; simpl; try done.
  intros (Hn & Hp & Hl) Hnx Hpv. split_and!.
  - rewrite Hnx by set_solver. done.
  - rewrite Hpv by set_solver. done.
  - apply IH; [done | |]; intros; [apply Hnx | apply Hpv]; set_solver.
Qed.

(** ** Rings *)

Definition ring {P} (nx pv : P -> option P) (e : P) (xs : list P) : Prop :=
  linked nx pv (e :: xs ++ [e]) /\ NoDup (e :: xs).

Section ring.
Context {P : Type} `{!EqDecision P} (nx pv : P -> option P) (e : P).

(** The two neighbours of a position. *)
Lemma ring_split l1 l2 :
  linked nx pv (e :: (l1 ++ l2) ++ [e]) ->
  let a := default e (last l1) in
  let b := default e (head l2) in
  nx a = Some b /\ pv b = Some a /\ linked nx pv (e :: l1) /\ linked nx pv (l2 ++ [e]).
Proof.
  intros Hr a b. destruct (cons_last_split e l1) as [L HL]. destruct (app_head_split l2 e) as [R HR].
  fold a in HL. fold b in HR.
  rewrite <- app_assoc, app_comm_cons, HL, HR, <- app_assoc in Hr. simpl in Hr.
  apply linked_app in Hr as [H1 H2]. simpl in H2. destruct H2 as (Hn & Hp & H2).
  rewrite HL, HR. done.
Qed.

(** A change of the pointers of other nodes. *)
Lemma ring_frame nx' pv' xs :
  ring nx pv e xs -> (forall q, q ∈ e :: xs -> nx' q = nx q /\ pv' q = pv q) -> ring nx' pv' e xs.
Proof.
  intros [Hl Hnd] Hf. split; [|done]. eapply linked_frame; [done | |].
  - rewrite app_comm_cons, removelast_app_one. intros q Hq. by apply Hf.
  - simpl. intros q Hq. apply Hf. set_solver.
Qed.

(** What the neighbourhood of a position looks like. *)
Lemma ring_position l1 l2 :
  NoDup (e :: l1 ++ l2) -> exists L R,
    (e :: l1) = L ++ [default e (last l1)] /\ l2 ++ [e] = (default e (head l2) :: R) /\
    (default e (last l1) ∉ L) /\ (default e (head l2) ∉ R) /\
    (forall x, x ∈ e :: l1 -> x ∉ l2) /\ e ∉ l1 ++ l2.
Proof.
  intros Hnd. destruct (cons_last_split e l1) as [L HL]. destruct (app_head_split l2 e) as [R HR].
  pose proof Hnd as [He _]%NoDup_cons. rewrite app_comm_cons in Hnd.
  apply NoDup_app in Hnd as (Hnd1 & Hdisj & Hnd2). exists L, R. split_and!; try done.
  - rewrite HL in Hnd1. apply NoDup_app in Hnd1 as (_ & Hd & _). intros Hin.
    apply (Hd _ Hin). by left.
  - assert (Hnd : NoDup (default e (head l2) :: R)); [|by apply NoDup_cons in Hnd as [? _]].
    rewrite <- HR. apply NoDup_app. split_and!; [done | | by apply NoDup_singleton].
    clear -He. set_solver.
Qed.

(** A node linked in between its neighbours. *)
Lemma ring_insert nx' pv' l1 p l2 :
  let a := default e (last l1) in
  let b := default e (head l2) in
  ring nx pv e (l1 ++ l2) -> p ∉ e :: l1 ++ l2 ->
  (forall q, q ∈ e :: l1 ++ p :: l2 ->
     nx' q = (if decide (q = a) then Some p else if decide (q = p) then Some b else nx q) /\
     pv' q = (if decide (q = p) then Some a else if decide (q = b) then Some p else pv q)) ->
  ring nx' pv' e (l1 ++ p :: l2).
Proof.
  intros a b [Hr Hnd] Hnew Hf. destruct (ring_split l1 l2 Hr) as (_ & _ & Hl1 & Hl2).
  destruct (ring_position l1 l2 Hnd) as (L & R & HL & HR & HaL & HbR & Hdisj & He).
  pose proof (elem_of_default_last e l1) as Hain. pose proof (elem_of_default_head e l2) as Hbin.
  fold a in HL, HaL, Hain. fold b in HR, HbR, Hbin.
  assert (Hpa : p <> a) by (intros ->; clear -Hnew Hain; set_solver).
  assert (Hpb : p <> b) by (intros ->; clear -Hnew Hbin; set_solver). clearbody a b. split.
  - replace (e :: (l1 ++ p :: l2) ++ [e]) with (L ++ a :: p :: b :: R).
    2:{ transitivity ((L ++ [a]) ++ p :: b :: R); [by rewrite <- app_assoc|].
        rewrite <- HL, <- HR. simpl. by rewrite <- app_assoc. }
    apply linked_app. split; [|simpl; split_and!].
    + rewrite <- HL. eapply linked_frame; [done | |].
      * rewrite HL, removelast_app_one. intros q Hq.
        assert (Hq1 : q ∈ e :: l1) by (rewrite HL; clear -Hq; set_solver).
        destruct (Hf q) as [-> _]; [clear -Hq1; set_solver|].
        rewrite !decide_False; [done | |]; intros ->; [|done]. clear -Hnew Hq1. set_solver.
      * simpl. intros q Hq. destruct (Hf q) as [_ ->]; [clear -Hq; set_solver|].
        rewrite !decide_False; [done | |]; intros ->; clear -Hq Hbin Hdisj He Hnew; set_solver.
    + destruct (Hf a) as [-> _]; [clear -Hain; set_solver|]. by rewrite decide_True.
    + destruct (Hf p) as [_ ->]; [clear; set_solver|]. by rewrite decide_True.
    + destruct (Hf p) as [-> _]; [clear; set_solver|]. rewrite decide_False by done. by rewrite decide_True.
    + destruct (Hf b) as [_ ->]; [clear -Hbin; set_solver|]. rewrite decide_False by done. by rewrite decide_True.
    + change (linked nx' pv' (b :: R)). rewrite <- HR. eapply linked_frame; [done | |].
      * rewrite removelast_app_one. intros q Hq. destruct (Hf q) as [-> _]; [clear -Hq; set_solver|].
        rewrite !decide_False; [done | |]; intros ->; clear -Hq Hnew Hain Hdisj; set_solver.
      * rewrite HR. simpl. intros q Hq.
        assert (Hq' : q ∈ l2 ++ [e]) by (rewrite HR; by right).
        destruct (Hf q) as [_ ->]; [clear -Hq'; set_solver|].
        rewrite !decide_False; [done | |]; intros ->; [done|]. clear -Hq' Hnew. set_solver.
  - apply NoDup_cons in Hnd as [_ Hnd]. apply NoDup_cons. split; [clear -Hnew He; set_solver|].
    rewrite <- Permutation_middle. constructor; [clear -Hnew; set_solver | done].
Qed.

(** A node unlinked. *)
Lemma ring_remove nx' pv' l1 p l2 :
  let a := default e (last l1) in
  let b := default e (head l2) in
  ring nx pv e (l1 ++ p :: l2) ->
  (forall q, q ∈ e :: l1 ++ l2 ->
     nx' q = (if decide (q = a) then Some b else nx q) /\
     pv' q = (if decide (q = b) then Some a else pv q)) ->
  ring nx' pv' e (l1 ++ l2).
Proof.
  intros a b [Hr Hnd] Hf.
  assert (Hnd' : NoDup (e :: l1 ++ l2)).
  { rewrite app_comm_cons, <- Permutation_middle in Hnd. by apply NoDup_cons in Hnd as [_ ?]. }
  destruct (ring_split l1 (p :: l2) Hr) as (_ & _ & Hl1 & _).
  assert (Hr2 : linked nx pv (e :: ((l1 ++ [p]) ++ l2) ++ [e])) by (by rewrite <- (app_assoc l1)).
  destruct (ring_split (l1 ++ [p]) l2 Hr2) as (_ & _ & _ & Hl2).
  destruct (ring_position l1 l2 Hnd') as (L & R & HL & HR & HaL & HbR & Hdisj & He).
  pose proof (elem_of_default_last e l1) as Hain. pose proof (elem_of_default_head e l2) as Hbin.
  fold a in HL, HaL, Hain. fold b in HR, HbR, Hbin. clearbody a b. split; [|done].
  replace (e :: (l1 ++ l2) ++ [e]) with (L ++ a :: b :: R).
  2:{ transitivity ((L ++ [a]) ++ b :: R); [by rewrite <- app_assoc|].
      rewrite <- HL, <- HR. simpl. by rewrite <- app_assoc. }
  apply linked_app. split; [|simpl; split_and!].
  - rewrite <- HL. eapply linked_frame; [done | |].
    + rewrite HL, removelast_app_one. intros q Hq.
      assert (Hq1 : q ∈ e :: l1) by (rewrite HL; clear -Hq; set_solver).
      destruct (Hf q) as [-> _]; [clear -Hq1; set_solver|]. rewrite decide_False; [done|]. by intros ->.
    + simpl. intros q Hq. destruct (Hf q) as [_ ->]; [clear -Hq; set_solver|].
      rewrite decide_False; [done|]. intros ->. clear -Hq Hbin Hdisj He. set_solver.
  - destruct (Hf a) as [-> _]; [clear -Hain; set_solver|]. by rewrite decide_True.
  - destruct (Hf b) as [_ ->]; [clear -Hbin; set_solver|]. by rewrite decide_True.
  - change (linked nx' pv' (b :: R)). rewrite <- HR. eapply linked_frame; [done | |].
    + rewrite removelast_app_one. intros q Hq. destruct (Hf q) as [-> _]; [clear -Hq; set_solver|].
      rewrite decide_False; [done|]. intros ->. by apply (Hdisj a).
    + rewrite HR. simpl. intros q Hq.
      assert (Hq' : q ∈ l2 ++ [e]) by (rewrite HR; by right).
      destruct (Hf q) as [_ ->]; [clear -Hq'; set_solver|]. rewrite decide_False; [done|]. by intros ->.
Qed.
End ring.
