(* ===== verification/TaskListSpec.v ===== *)
(** * Task lists: representation and correctness

    Relates a store of [TaskList] to the sequences of items it represents
    ([list_rep] for one list, [store_rep] for all of them) and proves that the
    code of list.c implements sorted insertion, removal and rotation on those
    sequences, with everything else in the store unchanged. *)

From S2P Require Import Prelude TaskList Ring.

(** ** Fields of the store *)

(** [fld pr s p] is the field [pr] of the item at [p]. *)
Definition fld {A} (pr : dos_task_item_t -> A) (s : store) (p : item_ptr) : option A :=
  pr <$> items s !! p.

Definition alter_item (p : item_ptr) (f : dos_task_item_t -> dos_task_item_t) (s : store) : store :=
  mk_store (alter f p (items s)) (lists s).
Definition alter_list (l : list_ptr) (f : dos_task_list_t -> dos_task_list_t) (s : store) : store :=
  mk_store (items s) (alter f l (lists s)).

Lemma fld_is_some {A} (pr : dos_task_item_t -> A) s p :
  is_Some (fld pr s p) <-> is_Some (items s !! p).
Proof. unfold fld. apply fmap_is_Some. Qed.

Lemma alter_item_is_some p f s q :
  is_Some (items (alter_item p f s) !! q) <-> is_Some (items s !! q).
Proof. apply lookup_alter_is_Some. Qed.

Lemma fld_alter_same {A} (pr : dos_task_item_t -> A) p f s q :
  (forall it, pr (f it) = pr it) -> fld pr (alter_item p f s) q = fld pr s q.
Proof.
  intros H. unfold fld, alter_item; simpl. rewrite lookup_alter.
  case_decide; [subst | done]. destruct (items s !! q); simpl; [by rewrite H | done].
Qed.

Lemma fld_alter_set {A} (pr : dos_task_item_t -> A) p f x s q :
  (forall it, pr (f it) = x) -> is_Some (items s !! p) ->
  fld pr (alter_item p f s) q = if decide (q = p) then Some x else fld pr s q.
Proof.
  intros H [it Hit]. unfold fld, alter_item; simpl. rewrite lookup_alter.
  destruct (decide (p = q)) as [->|]; destruct (decide (q = _)); try congruence.
  rewrite Hit; simpl. by rewrite H.
Qed.

Lemma fld_alter_list {A} (pr : dos_task_item_t -> A) l f s q :
  fld pr (alter_list l f s) q = fld pr s q.
Proof. done. Qed.

Lemma item_at_run p s it : items s !! p = Some it -> item_at p s = Done (it, s).
Proof. intros H. unfold item_at, deref. by rewrite H. Qed.

Lemma list_at_run l s h : lists s !! l = Some h -> list_at l s = Done (h, s).
Proof. intros H. unfold list_at, deref. by rewrite H. Qed.

Lemma upd_item_run p f s :
  is_Some (items s !! p) -> upd_item p f s = Done (tt, alter_item p f s).
Proof.
  intros [it Hit]. unfold upd_item. run_with (item_at_run _ _ _ Hit).
  unfold modify, put_item, alter_item. do 2 f_equal. f_equal.
  apply map_eq. intros i. rewrite lookup_insert, lookup_alter.
  case_decide; [subst | done]. by rewrite Hit.
Qed.

Lemma upd_list_run l f s :
  is_Some (lists s !! l) -> upd_list l f s = Done (tt, alter_list l f s).
Proof.
  intros [h Hh]. unfold upd_list. run_with (list_at_run _ _ _ Hh).
  unfold modify, put_list, alter_list. do 2 f_equal. f_equal.
  apply map_eq. intros i. rewrite lookup_insert, lookup_alter.
  case_decide; [subst | done]. by rewrite Hh.
Qed.

Lemma fld_item {A} (pr : dos_task_item_t -> A) s p it x :
  items s !! p = Some it -> fld pr s p = Some x -> pr it = x.
Proof. unfold fld. intros ->. simpl. congruence. Qed.

Lemma next_set_next p x s q : is_Some (items s !! p) ->
  fld next (alter_item p (set_next x) s) q = if decide (q = p) then Some x else fld next s q.
Proof. by apply fld_alter_set. Qed.

Lemma prev_set_prev p x s q : is_Some (items s !! p) ->
  fld prev (alter_item p (set_prev x) s) q = if decide (q = p) then Some x else fld prev s q.
Proof. by apply fld_alter_set. Qed.

Lemma list_set_list p x s q : is_Some (items s !! p) ->
  fld dos_task_list (alter_item p (set_list x) s) q =
  if decide (q = p) then Some x else fld dos_task_list s q.
Proof. by apply fld_alter_set. Qed.

(** Evaluates the fields of a store obtained by a chain of writes. *)
Ltac fld_eval :=
  repeat first [ rewrite fld_alter_list
               | rewrite fld_alter_same by done
               | rewrite next_set_next by (by rewrite ?alter_item_is_some)
               | rewrite prev_set_prev by (by rewrite ?alter_item_is_some)
               | rewrite list_set_list by (by rewrite ?alter_item_is_some) ].


(** ** Representation *)

(** The links of the items. *)
Abbreviation linked_items s := (linked (fld next s) (fld prev s)).

Definition is_end (p : item_ptr) : bool :=
  match p with EndItem _ => true | _ => false end.

Definition item_val (s : store) (p : item_ptr) : Z := default 0 (fld dos_task_value s p).

Definition sorted_items (s : store) (xs : list item_ptr) : Prop :=
  StronglySorted (fun p q => item_val s p <= item_val s q) xs.

(** The list at [l] holds the items [xs], in this order, with the cursor on [c]. *)
Record list_rep (s : store) (l : list_ptr) (c : item_ptr) (xs : list item_ptr) : Prop := {
  lr_header : lists s !! l = Some (mk_list c (Z.of_nat (length xs)));
  lr_cursor : c ∈ EndItem l :: xs;
  lr_ring : linked_items s (EndItem l :: xs ++ [EndItem l]);
  lr_nodup : NoDup xs;
  lr_inner : forall p, p ∈ xs -> is_end p = false /\ fld dos_task_list s p = Some l;
  lr_bound : forall p, p ∈ xs -> item_val s p <= 0xFFFFFFFF;
  lr_end : fld dos_task_value s (EndItem l) = Some 0xFFFFFFFF;
  lr_sorted : sorted_items s xs
}.

(** ** Insertion *)

Lemma linked_exists s p q l :
  linked_items s (p :: l) -> l <> [] -> q ∈ p :: l -> is_Some (items s !! q).
Proof.
  revert p. induction l as [|x l IH]; intros p; [done|].
  simpl. intros (Hn & Hp & Hl) _ Hq. apply elem_of_cons in Hq as [->|Hq].
  - eapply fld_is_some. eauto.
  - destruct l as [|y l]; [|by eapply (IH x)].
    apply list_elem_of_singleton in Hq as ->. eapply fld_is_some. eauto.
Qed.

Lemma ring_exists s l c xs q :
  list_rep s l c xs -> q ∈ EndItem l :: xs -> is_Some (items s !! q).
Proof.
  intros [] Hq. eapply linked_exists; [done | by destruct xs |]. set_solver.
Qed.

Lemma item_val_fld s p v : fld dos_task_value s p = Some v -> item_val s p = v.
Proof. unfold item_val. by intros ->. Qed.

(** The search loop stops behind the last item whose value is at most [v]. *)
Lemma insert_position_run s e v m1 m2 : forall a fuel,
  linked_items s (a :: m1 ++ m2 ++ [e]) ->
  (forall x, x ∈ m1 -> item_val s x <= v) ->
  (forall x, head (m2 ++ [e]) = Some x -> v < item_val s x) ->
  (length m1 < fuel)%nat ->
  insert_position fuel a v s = Done (default a (last m1), s).
Proof.
  induction m1 as [|x m1 IH]; intros a fuel Hl Hle Hgt Hf;
    (destruct fuel as [|fuel]; [simpl in *; lia|]).
  - destruct (m2 ++ [e]) as [|b r] eqn:E; [by destruct m2|].
    destruct Hl as (Hn & Hp & _). simpl.
    destruct (proj1 (fld_is_some _ _ _) (mk_is_Some _ _ Hn)) as [ia Ha].
    destruct (proj1 (fld_is_some _ _ _) (mk_is_Some _ _ Hp)) as [ib Hb].
    run_with (item_at_run _ _ _ Ha). rewrite (fld_item _ _ _ _ _ Ha Hn).
    run_with (item_at_run _ _ _ Hb).
    specialize (Hgt b eq_refl). unfold item_val, fld in Hgt. rewrite Hb in Hgt. simpl in Hgt.
    destruct (Z.leb_spec (dos_task_value ib) v); [lia|]. done.
  - simpl in Hl. destruct Hl as (Hn & Hp & Hl). cbn [insert_position].
    destruct (proj1 (fld_is_some _ _ _) (mk_is_Some _ _ Hn)) as [ia Ha].
    destruct (proj1 (fld_is_some _ _ _) (mk_is_Some _ _ Hp)) as [ix Hx].
    run_with (item_at_run _ _ _ Ha). rewrite (fld_item _ _ _ _ _ Ha Hn).
    run_with (item_at_run _ _ _ Hx).
    pose proof (Hle x ltac:(set_solver)) as Hv.
    unfold item_val, fld in Hv. rewrite Hx in Hv. simpl in Hv.
    destruct (Z.leb_spec (dos_task_value ix) v); [|lia].
    rewrite (IH x fuel); [ | done | set_solver | done | simpl in Hf; lia].
    rewrite last_cons. by destruct (last m1).
Qed.

(** The store after [new] is linked between [a] and [b]. *)
Definition link_between (l : list_ptr) (p a b : item_ptr) (s : store) : store :=
  alter_list l (fun h => set_count (u32 (Task_ItemValue h + 1)) h)
  (alter_item p (set_list l) (alter_item a (set_next p) (alter_item p (set_prev a)
  (alter_item b (set_prev p) (alter_item p (set_next b) s))))).

Lemma link_between_fields l p a b s :
  is_Some (items s !! p) -> is_Some (items s !! a) -> is_Some (items s !! b) ->
  p <> a -> p <> b ->
  let s' := link_between l p a b s in
  (forall q, fld next s' q = if decide (q = a) then Some p else
                             if decide (q = p) then Some b else fld next s q) /\
  (forall q, fld prev s' q = if decide (q = p) then Some a else
                             if decide (q = b) then Some p else fld prev s q) /\
  (forall q, fld dos_task_list s' q = if decide (q = p) then Some l else fld dos_task_list s q) /\
  (forall q, fld dos_task_value s' q = fld dos_task_value s q) /\
  (forall q, fld dos_task s' q = fld dos_task s q).
Proof.
  intros Hp Ha Hb Hpa Hpb s'. subst s'. unfold link_between.
  split_and!; intros q; fld_eval; done.
Qed.

Lemma link_between_lists l p a b s l' :
  lists (link_between l p a b s) !! l' =
  if decide (l' = l) then (fun h => set_count (u32 (Task_ItemValue h + 1)) h) <$> lists s !! l
  else lists s !! l'.
Proof.
  unfold link_between, alter_list; simpl. rewrite lookup_alter.
  destruct (decide (l = l')) as [->|]; destruct (decide (l' = _)); congruence.
Qed.

(** Where the new item goes: [a] before it, [b] behind it. *)
Lemma list_split s l c l1 l2 :
  list_rep s l c (l1 ++ l2) ->
  let a := default (EndItem l) (last l1) in
  let b := default (EndItem l) (head l2) in
  fld next s a = Some b /\ fld prev s b = Some a.
Proof.
  intros Hrep a b. destruct (ring_split _ _ _ l1 l2 (lr_ring _ _ _ _ Hrep)) as (H1 & H2 & _). done.
Qed.

(** The items of a list with its end item form a ring. *)
Lemma list_ring s l c xs : list_rep s l c xs -> ring (fld next s) (fld prev s) (EndItem l) xs.
Proof.
  intros [_ _ H3 H4 H5 _ _ _]. split; [done|]. constructor; [|done]. by intros [? _]%H5.
Qed.

Lemma insert_run s l c xs p it :
  list_rep s l c xs -> items s !! p = Some it -> p ∉ EndItem l :: xs ->
  dos_task_value it <= 0xFFFFFFFF ->
  exists l1 l2, xs = l1 ++ l2 /\ insert_sorted (item_val s) p xs = l1 ++ p :: l2 /\
    dos_task_item_insert l p s =
    Done (tt, link_between l p (default (EndItem l) (last l1)) (default (EndItem l) (head l2)) s).
Proof.
  intros Hrep Hit Hp Hval.
  assert (Hv : item_val s p = dos_task_value it).
  { unfold item_val, fld. by rewrite Hit. }
  destruct (insert_sorted_split (item_val s) p xs) as (l1 & l2 & -> & E & H1 & H2).
  exists l1, l2. split; [done|]. split; [done|].
  destruct (list_split _ _ _ _ _ Hrep) as [Hn Hpr].
  set (a := default (EndItem l) (last l1)) in *.
  set (b := default (EndItem l) (head l2)) in *.
  assert (Ha : is_Some (items s !! a)) by (eapply fld_is_some; eauto).
  assert (Hb : is_Some (items s !! b)) by (eapply fld_is_some; eauto).
  assert (Hpa : p <> a) by (pose proof (elem_of_default_last (EndItem l) l1); set_solver).
  assert (Hpb : p <> b) by (pose proof (elem_of_default_head (EndItem l) l2); set_solver).
  unfold dos_task_item_insert. run_with (item_at_run _ _ _ Hit).
  erewrite (bind_done _ _ _ a s); last first.
  { destruct (Z.eqb_spec (dos_task_value it) 0xFFFFFFFF) as [Hm|Hm].
    - assert (l2 = []) as ->.
      { destruct l2 as [|x l2]; [done|]. specialize (H2 x eq_refl).
        pose proof (lr_bound _ _ _ _ Hrep x ltac:(set_solver)). lia. }
      destruct Hb as [ib Hb]. simpl in b. subst b.
      run_with (item_at_run _ _ _ Hb). by rewrite (fld_item _ _ _ _ _ Hb Hpr).
    - unfold gets. erewrite bind_done by done. cbv beta.
      rewrite <- Hv. eapply insert_position_run with (m2 := l2) (e := EndItem l).
      + pose proof (lr_ring _ _ _ _ Hrep). by rewrite <- app_assoc in *.
      + done.
      + destruct l2; simpl; [|done]. intros ? [= <-].
        rewrite (item_val_fld _ _ _ (lr_end _ _ _ _ Hrep)). lia.
      + assert (length l1 <= size (items s))%nat; [|lia].
        rewrite <- size_dom.
        rewrite <- (size_list_to_set (C := gset item_ptr) l1).
        * apply subseteq_size. intros x Hx. apply elem_of_dom.
          eapply ring_exists; [done|]. set_solver.
        * pose proof (lr_nodup _ _ _ _ Hrep) as Hnd. by apply NoDup_app in Hnd as [? _]. }
  cbv beta. destruct Ha as [ia Ha]. run_with (item_at_run _ _ _ Ha).
  rewrite (fld_item _ _ _ _ _ Ha Hn).
  run_with (upd_item_run p (set_next b) s (mk_is_Some _ _ Hit)).
  set (s1 := alter_item p (set_next b) s).
  destruct (proj2 (alter_item_is_some p (set_next b) s p) (mk_is_Some _ _ Hit)) as [i1 Hi1].
  fold s1 in Hi1. run_with (item_at_run _ _ _ Hi1).
  assert (next i1 = b) as ->.
  { eapply fld_item; [done|]. subst s1. fld_eval. by rewrite decide_True. }
  do 4 (erewrite bind_done; [|apply upd_item_run; rewrite ?alter_item_is_some;
                              unfold s1; by rewrite ?alter_item_is_some]; cbv beta).
  rewrite upd_list_run; [done|]. simpl. rewrite (lr_header _ _ _ _ Hrep). eauto.
Qed.

(** ** The whole store *)

(** Items keep their values and their tasks. *)
Record same_data (s s' : store) : Prop := {
  sd_value : forall q, fld dos_task_value s' q = fld dos_task_value s q;
  sd_task : forall q, fld dos_task s' q = fld dos_task s q;
  sd_dom : dom (items s') = dom (items s);
  sd_null : lists s' !! ListNull = lists s !! ListNull
}.

#[export] Instance same_data_refl : Reflexive same_data.
Proof. done. Qed.

#[export] Instance same_data_trans : Transitive same_data.
Proof.
  intros s1 s2 s3 [] []. split; intros; etrans; eauto.
Qed.

(** [A] gives the contents of every initialised list; every item that names a
    list is in it. *)
Record store_rep (s : store) (A : gmap list_ptr (list item_ptr)) : Prop := {
  sr_list : forall l xs, A !! l = Some xs -> exists c, list_rep s l c xs;
  sr_owner : forall p l, is_end p = false -> fld dos_task_list s p = Some l ->
             l <> ListNull -> exists xs, A !! l = Some xs /\ p ∈ xs;
  sr_null : A !! ListNull = None;
  sr_null_mapped : is_Some (lists s !! ListNull);
  sr_size : Z.of_nat (size (items s)) < 2 ^ 32
}.

Lemma item_val_same s s' q : same_data s s' -> item_val s' q = item_val s q.
Proof. intros H. unfold item_val. by rewrite (sd_value _ _ H). Qed.

Lemma sorted_items_ext s s' xs :
  (forall q, q ∈ xs -> item_val s' q = item_val s q) -> sorted_items s xs -> sorted_items s' xs.
Proof.
  unfold sorted_items. induction 2 as [|x xs Hs IH Hf]; [constructor|].
  constructor; [apply IH; set_solver|]. rewrite Forall_forall in *.
  intros y Hy. rewrite !H by set_solver. by apply Hf.
Qed.

Lemma list_rep_frame s s' l c xs :
  list_rep s l c xs -> lists s' !! l = lists s !! l ->
  (forall q, q ∈ EndItem l :: xs ->
     fld next s' q = fld next s q /\ fld prev s' q = fld prev s q /\
     fld dos_task_list s' q = fld dos_task_list s q /\
     fld dos_task_value s' q = fld dos_task_value s q) ->
  list_rep s' l c xs.
Proof.
  intros [H1 H2 H3 H4 H5 H6 H7 H8] Hl Hf. split; try done.
  - by rewrite Hl.
  - eapply linked_frame; [done | |]; intros q Hq; apply Hf.
    + rewrite app_comm_cons, removelast_app_one in Hq. done.
    + set_solver.
  - intros p Hp. split; [by apply H5|]. destruct (Hf p) as (_ & _ & -> & _); [set_solver|].
    by apply H5.
  - intros p Hp. unfold item_val. destruct (Hf p) as (_ & _ & _ & ->); [set_solver|].
    by apply H6.
  - destruct (Hf (EndItem l)) as (_ & _ & _ & ->); [set_solver | done].
  - eapply sorted_items_ext; [|done]. intros q Hq. unfold item_val.
    by destruct (Hf q) as (_ & _ & _ & ->); [set_solver|].
Qed.

Lemma list_rep_length s l c xs :
  list_rep s l c xs -> (length xs <= size (items s))%nat.
Proof.
  intros H. rewrite <- size_dom, <- (size_list_to_set (C := gset item_ptr) xs).
  - apply subseteq_size. intros x Hx%elem_of_list_to_set. apply elem_of_dom.
    eapply ring_exists; [done|]. set_solver.
  - apply H.
Qed.

Lemma list_rep_disjoint s l1 c1 xs1 l2 c2 xs2 q :
  list_rep s l1 c1 xs1 -> list_rep s l2 c2 xs2 -> l1 <> l2 ->
  q ∈ EndItem l1 :: xs1 -> q ∈ EndItem l2 :: xs2 -> False.
Proof.
  intros H1 H2 Hne Hq1 Hq2. apply elem_of_cons in Hq1, Hq2.
  destruct Hq1 as [->|Hq1], Hq2 as [Hq2|Hq2]; [congruence | | |].
  - apply (lr_inner _ _ _ _ H2) in Hq2 as [? _]. done.
  - subst. apply (lr_inner _ _ _ _ H1) in Hq1 as [? _]. done.
  - apply (lr_inner _ _ _ _ H1) in Hq1 as [_ ?].
    apply (lr_inner _ _ _ _ H2) in Hq2 as [_ ?]. congruence.
Qed.

Lemma link_between_rep s l c l1 l2 p :
  list_rep s l c (l1 ++ l2) -> is_Some (items s !! p) -> p ∉ EndItem l :: l1 ++ l2 ->
  is_end p = false -> item_val s p <= 0xFFFFFFFF ->
  sorted_items s (l1 ++ p :: l2) -> Z.of_nat (length (l1 ++ l2)) + 1 < 2 ^ 32 ->
  list_rep (link_between l p (default (EndItem l) (last l1)) (default (EndItem l) (head l2)) s)
    l c (l1 ++ p :: l2).
Proof.
  intros Hrep Hp Hnew Hend Hval Hs Hlen. destruct (list_split _ _ _ _ _ Hrep) as [Hn Hpr].
  pose proof (elem_of_default_last (EndItem l) l1) as Hain.
  pose proof (elem_of_default_head (EndItem l) l2) as Hbin.
  pose proof (list_ring _ _ _ _ Hrep) as Hring.
  set (a := default (EndItem l) (last l1)) in *. set (b := default (EndItem l) (head l2)) in *.
  destruct Hrep as [H1 H2 H3 H4 H5 H6 H7 H8].
  destruct (link_between_fields l p a b s) as (Fn & Fp & Fl & Fv & Ft);
    [done | by eapply fld_is_some; eauto | by eapply fld_is_some; eauto | | |].
  { intros ->. clear -Hnew Hain. set_solver. } { intros ->. clear -Hnew Hbin. set_solver. }
  set (s' := link_between l p a b s) in *.
  destruct (ring_insert _ _ _ (fld next s') (fld prev s') l1 p l2 Hring Hnew) as [R1 R2%NoDup_cons];
    [by intros q _|]. split; try done.
  - unfold s'. rewrite link_between_lists, decide_True by done. rewrite H1. simpl.
    unfold set_count; simpl. rewrite u32_small by lia. f_equal. f_equal.
    rewrite !length_app; simpl. lia.
  - clear -H2. set_solver.
  - apply R2.
  - intros q Hq. rewrite Fl. destruct (decide (q = p)) as [->|]; [done|].
    apply H5. clear -Hq n. set_solver.
  - intros q Hq. unfold item_val. rewrite Fv. destruct (decide (q = p)) as [->|]; [done|].
    apply H6. clear -Hq n. set_solver.
  - by rewrite Fv.
  - eapply sorted_items_ext; [|done]. intros q _. unfold item_val. by rewrite Fv.
Qed.

Lemma link_between_data l p a b s :
  is_Some (items s !! p) -> is_Some (items s !! a) -> is_Some (items s !! b) ->
  p <> a -> p <> b -> l <> ListNull -> same_data s (link_between l p a b s).
Proof.
  intros Hp Ha Hb Hpa Hpb Hl.
  destruct (link_between_fields l p a b s) as (_ & _ & _ & Fv & Ft); [done..|].
  split; [done | done | | ].
  - unfold link_between, alter_list, alter_item; simpl. by rewrite !dom_alter_L.
  - rewrite link_between_lists. by rewrite decide_False.
Qed.

(** Changing one list: the items of the other lists must be left alone. *)
Lemma store_rep_update s s' A l c' xs xs' :
  store_rep s A -> A !! l = Some xs -> same_data s s' -> list_rep s' l c' xs' ->
  (forall l', l' <> l -> lists s' !! l' = lists s !! l') ->
  (forall q l', l' <> l -> l' <> ListNull ->
     q = EndItem l' \/ (is_end q = false /\ fld dos_task_list s q = Some l') ->
     fld next s' q = fld next s q /\ fld prev s' q = fld prev s q /\
     fld dos_task_list s' q = fld dos_task_list s q) ->
  (forall q l', is_end q = false -> fld dos_task_list s' q = Some l' -> l' <> ListNull ->
     (l' = l /\ q ∈ xs') \/ (l' <> l /\ fld dos_task_list s q = Some l')) ->
  store_rep s' (<[l := xs']> A).
Proof.
  intros HS HA Hsd Hrep Hlists Hframe Hown. split.
  - intros l' ys. destruct (decide (l = l')) as [<-|Hne].
    + rewrite lookup_insert_eq. intros [= <-]. eauto.
    + rewrite lookup_insert_ne by done. intros HA'.
      destruct (sr_list _ _ HS _ _ HA') as [c2 Hrep2]. exists c2.
      assert (l' <> ListNull) by (intros ->; by rewrite (sr_null _ _ HS) in HA').
      eapply list_rep_frame; [done | by apply Hlists |]. intros q Hq.
      destruct (Hframe q l') as (? & ? & ?); [done | done | | split_and!; try done; apply Hsd].
      apply elem_of_cons in Hq as [->|Hq]; [by left|]. right. by apply Hrep2.
  - intros q l' Hqe Hq Hl'. destruct (Hown q l') as [[-> ?]|[Hne Hq']]; [done.. | |].
    + rewrite lookup_insert_eq. eauto.
    + rewrite lookup_insert_ne by done. by apply (sr_owner _ _ HS).
  - rewrite lookup_insert_ne; [apply HS|]. intros ->. by rewrite (sr_null _ _ HS) in HA.
  - rewrite (sd_null _ _ Hsd). apply HS.
  - rewrite <- size_dom, (sd_dom _ _ Hsd), size_dom. apply HS.
Qed.

Lemma store_rep_length s A l xs p :
  store_rep s A -> A !! l = Some xs -> is_Some (items s !! p) -> p ∉ xs ->
  Z.of_nat (length xs) + 1 < 2 ^ 32.
Proof.
  intros HS HA Hp Hnew. destruct (sr_list _ _ HS _ _ HA) as [c Hrep].
  assert (length xs < size (items s))%nat; [|pose proof (sr_size _ _ HS); lia].
  rewrite <- size_dom, <- (size_list_to_set (C := gset item_ptr) xs) by apply Hrep.
  apply subset_size. split.
  - intros x Hx%elem_of_list_to_set. apply elem_of_dom.
    eapply ring_exists; [done|]. set_solver.
  - intros Hsub. apply Hnew, (elem_of_list_to_set (C := gset item_ptr)), Hsub.
    by apply elem_of_dom.
Qed.

Lemma store_insert s A l xs p :
  store_rep s A -> A !! l = Some xs -> is_end p = false ->
  fld dos_task_list s p = Some ListNull -> item_val s p <= 0xFFFFFFFF ->
  exists s', dos_task_item_insert l p s = Done (tt, s') /\
    store_rep s' (<[l := insert_sorted (item_val s) p xs]> A) /\ same_data s s' /\
    forall q, fld dos_task_list s' q = if decide (q = p) then Some l else fld dos_task_list s q.
Proof.
  intros HS HA Hend Hfree Hval.
  destruct (sr_list _ _ HS _ _ HA) as [c Hrep].
  assert (Hlnull : l <> ListNull) by (intros ->; rewrite (sr_null _ _ HS) in HA; done).
  assert (Hp : is_Some (items s !! p)) by (eapply fld_is_some; eauto).
  assert (Hnew : p ∉ EndItem l :: xs).
  { intros [->|Hin]%elem_of_cons; [done|]. apply (lr_inner _ _ _ _ Hrep) in Hin. naive_solver. }
  pose proof (proj2 (proj1 (not_elem_of_cons _ _ _) Hnew)) as Hnew'.
  destruct Hp as [it Hit].
  assert (Hv : item_val s p = dos_task_value it) by (unfold item_val, fld; by rewrite Hit).
  destruct (insert_run s l c xs p it) as (l1 & l2 & -> & E & Hrun);
    [done | done | done | by rewrite <- Hv |].
  assert (Hain : default (EndItem l) (last l1) ∈ EndItem l :: l1 ++ l2).
  { pose proof (elem_of_default_last (EndItem l) l1). set_solver. }
  assert (Hbin : default (EndItem l) (head l2) ∈ EndItem l :: l1 ++ l2).
  { pose proof (elem_of_default_head (EndItem l) l2). set_solver. }
  pose proof (ring_exists _ _ _ _ _ Hrep Hain) as Ha.
  pose proof (ring_exists _ _ _ _ _ Hrep Hbin) as Hb.
  assert (Hrep' : list_rep (link_between l p (default (EndItem l) (last l1))
                              (default (EndItem l) (head l2)) s) l c (l1 ++ p :: l2)).
  { apply link_between_rep; try done.
    - rewrite <- E. apply insert_sorted_sorted. apply Hrep.
    - apply (store_rep_length s A l _ p); eauto. }
  set (a := default (EndItem l) (last l1)) in *.
  set (b := default (EndItem l) (head l2)) in *. clearbody a b.
  assert (Hpa : p <> a) by congruence. assert (Hpb : p <> b) by congruence.
  destruct (link_between_fields l p a b s) as (Fn & Fp & Fl & Fv & Ft); [eauto..|].
  pose proof (link_between_data l p a b s ltac:(eauto) Ha Hb Hpa Hpb Hlnull) as Hsd.
  exists (link_between l p a b s). split_and!; [done | | done | done].
  rewrite E. eapply store_rep_update; try done.
  - intros l' Hl'. rewrite link_between_lists. by rewrite decide_False.
  - intros q l' Hl' Hl'n Hq. rewrite Fn, Fp, Fl.
    assert (Hother : q ∉ EndItem l :: l1 ++ l2).
    { intros Hin. apply elem_of_cons in Hin as [->|Hin]; [naive_solver|].
      apply (lr_inner _ _ _ _ Hrep) in Hin. naive_solver. }
    assert (q <> a) by congruence. assert (q <> b) by congruence.
    assert (q <> p) by naive_solver. by rewrite !decide_False.
  - intros q l' Hqe Hq Hl'. rewrite Fl in Hq. case_decide as Hqp.
    + left. simplify_eq. split; [done|]. clear; set_solver.
    + destruct (decide (l' = l)) as [->|]; [left|by right]. split; [done|].
      destruct (sr_owner _ _ HS q l) as (ys & HA' & Hys); [done..|].
      rewrite HA in HA'. simplify_eq. clear -Hys. set_solver.
Qed.

(** ** Deletion *)

Definition remove_item (p : item_ptr) (xs : list item_ptr) : list item_ptr :=
  filter (fun q => q <> p) xs.

Lemma elem_of_remove_item p xs q : q ∈ remove_item p xs <-> q <> p /\ q ∈ xs.
Proof. unfold remove_item. by rewrite list_elem_of_filter. Qed.

Lemma remove_item_notin p xs : p ∉ xs -> remove_item p xs = xs.
Proof.
  unfold remove_item. induction xs as [|x xs IH]; [done|]. intros Hp.
  rewrite filter_cons_True by set_solver. rewrite IH; set_solver.
Qed.

Lemma remove_item_middle p l1 l2 :
  NoDup (l1 ++ p :: l2) -> remove_item p (l1 ++ p :: l2) = l1 ++ l2.
Proof.
  intros Hnd. rewrite <- Permutation_middle in Hnd. apply NoDup_cons in Hnd as [Hp _].
  unfold remove_item. rewrite filter_app, filter_cons_False by naive_solver.
  fold (remove_item p l1) (remove_item p l2).
  rewrite !remove_item_notin by set_solver. done.
Qed.

(** The store after [p], between [a] and [b] in the list [l], is unlinked. *)
Definition unlink (l : list_ptr) (p a b : item_ptr) (cur : dos_task_list_t -> dos_task_list_t)
    (s : store) : store :=
  alter_list l (fun h => set_count (u32 (Task_ItemValue h - 1)) h)
  (alter_item p (set_prev p) (alter_item p (set_next p)
  (alter_list l cur (alter_item p (set_list ListNull)
  (alter_item b (set_prev a) (alter_item a (set_next b) s)))))).

Lemma alter_list_items l f s p : items (alter_list l f s) !! p = items s !! p.
Proof. done. Qed.

Lemma unlink_fields l p a b cur s :
  is_Some (items s !! p) -> is_Some (items s !! a) -> is_Some (items s !! b) ->
  let s' := unlink l p a b cur s in
  (forall q, fld next s' q = if decide (q = p) then Some p else
                             if decide (q = a) then Some b else fld next s q) /\
  (forall q, fld prev s' q = if decide (q = p) then Some p else
                             if decide (q = b) then Some a else fld prev s q) /\
  (forall q, fld dos_task_list s' q =
             if decide (q = p) then Some ListNull else fld dos_task_list s q) /\
  (forall q, fld dos_task_value s' q = fld dos_task_value s q) /\
  (forall q, fld dos_task s' q = fld dos_task s q).
Proof.
  intros Hp Ha Hb s'. subst s'. unfold unlink.
  assert (Hs : forall q l f s0, is_Some (items s0 !! q) -> is_Some (items (alter_list l f s0) !! q))
    by done.
  split_and!; intros q;
    repeat first [ rewrite fld_alter_list | rewrite fld_alter_same by done
      | rewrite next_set_next by (repeat first [apply alter_item_is_some | apply Hs]; done)
      | rewrite prev_set_prev by (repeat first [apply alter_item_is_some | apply Hs]; done)
      | rewrite list_set_list by (repeat first [apply alter_item_is_some | apply Hs]; done) ];
    done.
Qed.

Lemma del_run s l c l1 l2 p :
  list_rep s l c (l1 ++ p :: l2) -> l <> ListNull ->
  let a := default (EndItem l) (last l1) in
  let b := default (EndItem l) (head l2) in
  let cur := if decide (c = p) then set_cursor a else id in
  dos_task_item_del p s =
  Done (u32 (Z.of_nat (length (l1 ++ p :: l2)) - 1), unlink l p a b cur s).
Proof.
  intros Hrep Hl a b cur.
  pose proof (lr_inner _ _ _ _ Hrep p ltac:(set_solver)) as [Hend Hlist].
  destruct (list_split s l c l1 (p :: l2) Hrep) as [Hna Hpp]. simpl in Hna, Hpp.
  assert (Hrep2 : list_rep s l c ((l1 ++ [p]) ++ l2)) by (by rewrite <- app_assoc).
  destruct (list_split s l c (l1 ++ [p]) l2 Hrep2) as [Hnp Hpb].
  rewrite last_snoc in Hnp, Hpb. simpl in Hnp, Hpb. fold a in Hna, Hpp. fold b in Hnp, Hpb.
  assert (Hp : is_Some (items s !! p)) by (eapply fld_is_some; eauto).
  assert (Ha : is_Some (items s !! a)) by (eapply fld_is_some; eauto).
  assert (Hb : is_Some (items s !! b)) by (eapply fld_is_some; eauto).
  assert (Hbp : b <> p).
  { pose proof (lr_nodup _ _ _ _ Hrep) as Hnd. apply NoDup_app in Hnd as (_ & _ & Hnd).
    apply NoDup_cons in Hnd as [Hn _]. subst b. destruct l2; simpl; [by intros <-|set_solver]. }
  assert (Hap : a <> p).
  { pose proof (lr_nodup _ _ _ _ Hrep) as Hnd. apply NoDup_app in Hnd as (_ & Hn & _).
    subst a. destruct (last l1) eqn:E; simpl; [|by intros <-].
    apply last_Some in E as [? ->]. intros ->. apply (Hn p); set_solver. }
  clearbody a b. destruct Hp as [ip Hip]. unfold dos_task_item_del.
  run_with (item_at_run _ _ _ Hip). rewrite (fld_item _ _ _ _ _ Hip Hlist).
  rewrite (fld_item _ _ _ _ _ Hip Hpp), (fld_item _ _ _ _ _ Hip Hnp).
  rewrite decide_False by done.
  set (s1 := alter_item a (set_next b) s).
  set (s2 := alter_item b (set_prev a) s1).
  set (s3 := alter_item p (set_list ListNull) s2).
  set (s4 := alter_list l cur s3).
  assert (E1 : forall q, is_Some (items s1 !! q) <-> is_Some (items s !! q))
    by (intros; apply alter_item_is_some).
  assert (E2 : forall q, is_Some (items s2 !! q) <-> is_Some (items s !! q))
    by (intros q; rewrite <- E1; apply alter_item_is_some).
  assert (E3 : forall q, is_Some (items s3 !! q) <-> is_Some (items s !! q))
    by (intros q; rewrite <- E2; apply alter_item_is_some).
  erewrite (bind_done _ _ s tt (unlink l p a b cur s)).
  - unfold unlink, alter_list at 1. cbv beta.
    erewrite bind_done; [|apply list_at_run; simpl; rewrite !lookup_alter_eq, (lr_header _ _ _ _ Hrep); done].
    cbv beta. unfold mret, prog_ret. do 2 f_equal. simpl. unfold cur.
    by destruct (decide (c = p)).
  - run_with (upd_item_run a (set_next b) s Ha). fold s1.
    destruct (proj2 (E1 p) (mk_is_Some _ _ Hip)) as [i1 Hi1]. run_with (item_at_run _ _ _ Hi1).
    assert (next i1 = b) as ->.
    { eapply fld_item; [done|]. subst s1. fld_eval. by rewrite decide_False. }
    assert (prev i1 = a) as -> by (eapply fld_item; [done|]; subst s1; by fld_eval).
    run_by ltac:(apply upd_item_run; by apply E1). fold s2.
    run_by ltac:(apply upd_item_run; apply E2; eauto). fold s3.
    run_by ltac:(apply list_at_run; exact (lr_header _ _ _ _ Hrep)). cbn [task_item].
    erewrite (bind_done _ _ s3 tt s4); last first.
    { unfold s4, cur. destruct (decide (c = p)) as [->|].
      - destruct (proj2 (E3 p) (mk_is_Some _ _ Hip)) as [i3 Hi3].
        run_with (item_at_run _ _ _ Hi3).
        assert (prev i3 = a) as ->.
        { eapply fld_item; [done|]. subst s3 s2 s1. fld_eval. by rewrite decide_False. }
        apply upd_list_run. exists (mk_list p (Z.of_nat (length (l1 ++ p :: l2)))).
        exact (lr_header _ _ _ _ Hrep).
      - unfold mret, prog_ret, alter_list. destruct s3 as [im lm]. simpl. repeat f_equal.
        apply map_eq. intros i. rewrite lookup_alter. case_decide; [subst|done].
        by destruct (lm !! _). }
    cbv beta. run_by ltac:(apply upd_item_run; apply E3; eauto).
    run_by ltac:(apply upd_item_run; apply alter_item_is_some; apply E3; eauto).
    apply upd_list_run. simpl. rewrite lookup_alter_is_Some.
    eexists. exact (lr_header _ _ _ _ Hrep).
Qed.

Lemma unlink_lists l p a b cur s l' :
  lists (unlink l p a b cur s) !! l' =
  if decide (l' = l) then (fun h => set_count (u32 (Task_ItemValue (cur h) - 1)) (cur h)) <$> lists s !! l
  else lists s !! l'.
Proof.
  unfold unlink, alter_list; simpl. rewrite lookup_alter.
  destruct (decide (l = l')) as [->|]; destruct (decide (l' = _)); try congruence.
  - rewrite lookup_alter_eq. by destruct (lists s !! l').
  - by rewrite lookup_alter_ne.
Qed.

Lemma unlink_rep s l c l1 l2 p :
  list_rep s l c (l1 ++ p :: l2) -> Z.of_nat (length (l1 ++ p :: l2)) < 2 ^ 32 ->
  let a := default (EndItem l) (last l1) in
  let b := default (EndItem l) (head l2) in
  let cur := if decide (c = p) then set_cursor a else id in
  list_rep (unlink l p a b cur s) l (if decide (c = p) then a else c) (l1 ++ l2).
Proof.
  intros Hrep Hlen a b cur.
  pose proof (lr_inner _ _ _ _ Hrep p ltac:(set_solver)) as [Hend Hlist].
  destruct (list_split s l c l1 (p :: l2) Hrep) as [Hna Hpp]. simpl in Hna, Hpp.
  assert (Hrep2 : list_rep s l c ((l1 ++ [p]) ++ l2)) by (by rewrite <- app_assoc).
  destruct (list_split s l c (l1 ++ [p]) l2 Hrep2) as [Hnp Hpb].
  rewrite last_snoc in Hnp, Hpb. simpl in Hnp, Hpb. fold a in Hna, Hpp. fold b in Hnp, Hpb.
  pose proof (elem_of_default_last (EndItem l) l1) as Hain. fold a in Hain.
  pose proof (list_ring _ _ _ _ Hrep) as Hring.
  destruct (unlink_fields l p a b cur s) as (Fn & Fp & Fl & Fv & Ft);
    [by eapply fld_is_some; eauto ..|].
  pose proof (unlink_lists l p a b cur s l) as HLs. rewrite decide_True in HLs by done.
  assert (Hpn : p ∉ EndItem l :: l1 ++ l2).
  { destruct Hring as [_ Hnd]. rewrite app_comm_cons, <- Permutation_middle in Hnd.
    by apply NoDup_cons in Hnd as [? _]. }
  destruct (ring_remove _ _ _ (fld next (unlink l p a b cur s)) (fld prev (unlink l p a b cur s)) l1 p l2 Hring)
    as [R1 R2%NoDup_cons].
  { intros q Hq. rewrite Fn, Fp. by rewrite !(decide_False (P := q = p)) by (by intros ->). }
  set (s' := unlink l p a b cur s) in *. clearbody s'. unfold cur in HLs. clear cur.
  destruct Hrep as [H1 H2 H3 H4 H5 H6 H7 H8]. split; try done.
  - rewrite HLs, H1. simpl. rewrite length_app; simpl. rewrite length_app in Hlen; simpl in Hlen.
    destruct (decide (c = p)); unfold set_count; simpl; rewrite ?length_app, u32_small by
      (rewrite ?length_app; simpl; lia); simpl; do 2 f_equal; rewrite ?length_app; simpl; lia.
  - case_decide; [clear -Hain; set_solver|]. clear -H2 H. set_solver.
  - apply R2.
  - intros q Hq. rewrite Fl.
    assert (q <> p) by (intros ->; clear -Hq Hpn; set_solver).
    rewrite decide_False by done. apply H5. clear -Hq; set_solver.
  - intros q Hq. unfold item_val. rewrite Fv. apply H6. clear -Hq; set_solver.
  - by rewrite Fv.
  - eapply sorted_items_ext; [|eapply StronglySorted_app_remove; done].
    intros q _. unfold item_val. by rewrite Fv.
Qed.

Lemma unlink_data l p a b cur s :
  is_Some (items s !! p) -> is_Some (items s !! a) -> is_Some (items s !! b) ->
  l <> ListNull -> same_data s (unlink l p a b cur s).
Proof.
  intros Hp Ha Hb Hl.
  destruct (unlink_fields l p a b cur s) as (_ & _ & _ & Fv & Ft); [done..|].
  split; [done | done | | ].
  - unfold unlink, alter_list, alter_item; simpl. by rewrite !dom_alter_L.
  - rewrite unlink_lists. by rewrite decide_False.
Qed.

Lemma store_del s A l xs p :
  store_rep s A -> A !! l = Some xs -> p ∈ xs ->
  exists s', dos_task_item_del p s = Done (Z.of_nat (length (remove_item p xs)), s') /\
    store_rep s' (<[l := remove_item p xs]> A) /\ same_data s s' /\
    forall q, fld dos_task_list s' q =
              if decide (q = p) then Some ListNull else fld dos_task_list s q.
Proof.
  intros HS HA Hin. destruct (sr_list _ _ HS _ _ HA) as [c Hrep].
  assert (Hlnull : l <> ListNull) by (intros ->; by rewrite (sr_null _ _ HS) in HA).
  assert (Hlen : Z.of_nat (length xs) < 2 ^ 32)
    by (pose proof (list_rep_length _ _ _ _ Hrep); pose proof (sr_size _ _ HS); lia).
  apply list_elem_of_split in Hin as (l1 & l2 & ->).
  rewrite remove_item_middle by apply Hrep.
  pose proof (del_run s l c l1 l2 p Hrep Hlnull) as Hrun.
  pose proof (unlink_rep s l c l1 l2 p Hrep Hlen) as Hrep'. simpl in Hrun, Hrep'.
  assert (Hp : p ∈ EndItem l :: l1 ++ p :: l2) by set_solver.
  assert (Ha : default (EndItem l) (last l1) ∈ EndItem l :: l1 ++ p :: l2).
  { pose proof (elem_of_default_last (EndItem l) l1). set_solver. }
  assert (Hb : default (EndItem l) (head l2) ∈ EndItem l :: l1 ++ p :: l2).
  { pose proof (elem_of_default_head (EndItem l) l2). set_solver. }
  pose proof (ring_exists _ _ _ _ _ Hrep Hp) as Hp'.
  pose proof (ring_exists _ _ _ _ _ Hrep Ha) as Ha'.
  pose proof (ring_exists _ _ _ _ _ Hrep Hb) as Hb'.
  set (a := default (EndItem l) (last l1)) in *. set (b := default (EndItem l) (head l2)) in *.
  set (cur := if decide (c = p) then set_cursor a else id) in *. clearbody cur a b.
  destruct (unlink_fields l p a b cur s) as (Fn & Fp & Fl & Fv & Ft); [done..|].
  pose proof (unlink_data l p a b cur s Hp' Ha' Hb' Hlnull) as Hsd.
  exists (unlink l p a b cur s). split_and!; [ | | done | done].
  { rewrite Hrun. do 2 f_equal. rewrite length_app in *; simpl in *. rewrite u32_small by lia.
    rewrite length_app. lia. }
  eapply store_rep_update; try done.
  - intros l' Hl'. rewrite unlink_lists. by rewrite decide_False.
  - intros q l' Hl' Hl'n Hq. rewrite Fn, Fp, Fl.
    assert (Hother : q ∉ EndItem l :: l1 ++ p :: l2).
    { intros Hin. apply elem_of_cons in Hin as [->|Hin]; [naive_solver|].
      apply (lr_inner _ _ _ _ Hrep) in Hin. naive_solver. }
    assert (q <> a) by congruence. assert (q <> b) by congruence.
    assert (q <> p) by congruence. by rewrite !decide_False.
  - intros q l' Hqe Hq Hl'. rewrite Fl in Hq. case_decide as Hqp; [by simplify_eq|].
    destruct (decide (l' = l)) as [->|]; [left|by right]. split; [done|].
    destruct (sr_owner _ _ HS q l) as (ys & HA' & Hys); [done..|].
    rewrite HA in HA'. simplify_eq. clear -Hys Hqp. set_solver.
Qed.

(** An item that is in no list is left alone. *)
Lemma store_del_free s A p :
  store_rep s A -> fld dos_task_list s p = Some ListNull ->
  exists n, dos_task_item_del p s = Done (n, s).
Proof.
  intros HS Hp. destruct (proj1 (fld_is_some _ _ _) (mk_is_Some _ _ Hp)) as [it Hit].
  destruct (sr_null_mapped _ _ HS) as [h Hh]. exists (Task_ItemValue h).
  unfold dos_task_item_del. run_with (item_at_run _ _ _ Hit).
  rewrite (fld_item _ _ _ _ _ Hit Hp), decide_True by done.
  unfold mret at 1, prog_ret at 1. erewrite bind_done by done. cbv beta.
  by run_with (list_at_run _ _ _ Hh).
Qed.

(** ** Cursor movement *)

Definition task_of (s : store) (p : item_ptr) : Z := default 0 (fld dos_task s p).

Lemma cursor_rep s l c x xs :
  list_rep s l c xs -> x ∈ EndItem l :: xs -> list_rep (alter_list l (set_cursor x) s) l x xs.
Proof.
  intros [H1 H2 H3 H4 H5 H6 H7 H8] Hx. split; try done.
  simpl. by rewrite lookup_alter_eq, H1.
Qed.

Lemma cursor_data l x s : l <> ListNull -> same_data s (alter_list l (set_cursor x) s).
Proof. intros Hl. split; try done. simpl. by rewrite lookup_alter_ne. Qed.

Lemma cursor_store_rep s A l xs x :
  store_rep s A -> A !! l = Some xs -> x ∈ EndItem l :: xs ->
  store_rep (alter_list l (set_cursor x) s) A.
Proof.
  intros HS HA Hx. destruct (sr_list _ _ HS _ _ HA) as [c Hrep].
  assert (l <> ListNull) by (intros ->; by rewrite (sr_null _ _ HS) in HA).
  rewrite <- (insert_id A l xs) by done.
  eapply store_rep_update; [done | done | by apply cursor_data | by eapply cursor_rep | | done |].
  - intros l' Hl'. simpl. by rewrite lookup_alter_ne.
  - intros q l' Hqe Hq Hl'. change (fld dos_task_list s q = Some l') in Hq.
    destruct (sr_owner _ _ HS q l') as (ys & HA' & Hys); [done..|].
    destruct (decide (l' = l)) as [->|]; [left; naive_solver | by right].
Qed.

Lemma alter_cursor_twice l x y s :
  alter_list l (set_cursor y) (alter_list l (set_cursor x) s) = alter_list l (set_cursor y) s.
Proof.
  unfold alter_list. simpl. f_equal. apply map_eq. intros i.
  destruct (decide (l = i)) as [->|]; [|by rewrite !lookup_alter_ne].
  rewrite !lookup_alter_eq. by destruct (lists s !! i).
Qed.

(** After the cursor was moved to [x], the end item is skipped if [x] is one. *)
Lemma skip_end_run s l c xs x y :
  list_rep s l c xs -> x ∈ EndItem l :: xs ->
  y = (if decide (x = EndItem l) then default (EndItem l) (head xs) else x) ->
  skip_end_item l (alter_list l (set_cursor x) s) =
  Done (task_of s y, alter_list l (set_cursor y) s).
Proof.
  intros Hrep Hx ->. pose proof (cursor_rep _ _ _ _ _ Hrep Hx) as Hrep'.
  unfold skip_end_item. run_with (list_at_run _ _ _ (lr_header _ _ _ _ Hrep')). cbn [task_item].
  destruct (decide (x = EndItem l)) as [->|Hne].
  - destruct (list_split s l c [] xs Hrep) as [Hn _]. simpl in Hn.
    set (y := default (EndItem l) (head xs)) in *.
    assert (Hy : y ∈ EndItem l :: xs) by apply elem_of_default_head.
    destruct (ring_exists _ _ _ _ _ Hrep Hx) as [ie Hie].
    destruct (ring_exists _ _ _ _ _ Hrep Hy) as [iy Hiy].
    erewrite (bind_done _ _ _ tt (alter_list l (set_cursor y) s)); last first.
    { run_by ltac:(apply item_at_run; exact Hie). rewrite (fld_item _ _ _ _ _ Hie Hn).
      rewrite upd_list_run; [by rewrite alter_cursor_twice|]. eexists. apply Hrep'. }
    cbv beta. pose proof (cursor_rep _ _ _ _ _ Hrep Hy) as Hrep2.
    run_with (list_at_run _ _ _ (lr_header _ _ _ _ Hrep2)). cbn [task_item].
    run_by ltac:(apply item_at_run; exact Hiy). unfold task_of, fld. by rewrite Hiy.
  - unfold mret at 1, prog_ret at 1. erewrite bind_done by done. cbv beta.
    run_with (list_at_run _ _ _ (lr_header _ _ _ _ Hrep')). cbn [task_item].
    destruct (ring_exists _ _ _ _ _ Hrep Hx) as [ix Hix].
    run_by ltac:(apply item_at_run; exact Hix). unfold task_of, fld. by rewrite Hix.
Qed.

Lemma get_first_run s l c xs :
  list_rep s l c xs ->
  let x := default (EndItem l) (head xs) in
  dos_get_first_task l s = Done (task_of s x, alter_list l (set_cursor x) s).
Proof.
  intros Hrep x. destruct (list_split s l c [] xs Hrep) as [Hn _]. simpl in Hn.
  fold x in Hn. destruct (ring_exists s l c xs (EndItem l) Hrep) as [ie Hie]; [set_solver|].
  unfold dos_get_first_task. run_with (item_at_run _ _ _ Hie).
  rewrite (fld_item _ _ _ _ _ Hie Hn).
  run_by ltac:(apply upd_list_run; eexists; apply Hrep).
  assert (Hx : x ∈ EndItem l :: xs) by apply elem_of_default_head.
  eapply skip_end_run; [done | done |]. case_decide as E; [|done].
  subst x. destruct xs as [|y xs]; [done|]. simpl in *. done.
Qed.

(** The cursor moves to the item behind it, past the end item. *)
Lemma get_next_run s l c l1 l2 :
  list_rep s l c (l1 ++ l2) -> c = default (EndItem l) (last l1) ->
  let x := default (default (EndItem l) (head l1)) (head l2) in
  dos_get_next_task l s = Done (task_of s x, alter_list l (set_cursor x) s).
Proof.
  intros Hrep Hc x. destruct (list_split s l c l1 l2 Hrep) as [Hn _].
  rewrite <- Hc in Hn. destruct (ring_exists _ _ _ _ _ Hrep (lr_cursor _ _ _ _ Hrep)) as [ic Hic].
  unfold dos_get_next_task. run_with (list_at_run _ _ _ (lr_header _ _ _ _ Hrep)).
  cbn [task_item]. run_with (item_at_run _ _ _ Hic). rewrite (fld_item _ _ _ _ _ Hic Hn).
  run_by ltac:(apply upd_list_run; eexists; apply Hrep).
  eapply skip_end_run; [done | |].
  - pose proof (elem_of_default_head (EndItem l) l2). set_solver.
  - subst x. destruct l2 as [|y l2]; simpl.
    + rewrite decide_True by done. by rewrite app_nil_r.
    + rewrite decide_False; [done|]. intros ->.
      destruct (lr_inner _ _ _ _ Hrep (EndItem l)) as [? _]; [set_solver | done].
Qed.

(** [n] successive calls of [dos_get_next_task]. *)
Fixpoint get_next_tasks (n : nat) (l : list_ptr) : prog store (list Z) :=
  match n with
  | O => mret []
  | S n' => t ← dos_get_next_task l; ts ← get_next_tasks n' l; mret (t :: ts)
  end.

Lemma get_next_tasks_app s l l1 l2 l3 : forall c,
  list_rep s l c (l1 ++ l2 ++ l3) -> c = default (EndItem l) (last l1) ->
  exists s', get_next_tasks (length l2) l s = Done (map (task_of s) l2, s') /\
    list_rep s' l (default (EndItem l) (last (l1 ++ l2))) (l1 ++ l2 ++ l3) /\
    s' = match last l2 with Some x => alter_list l (set_cursor x) s | None => s end.
Proof.
  revert s l1. induction l2 as [|x l2 IH]; intros s l1 c Hrep Hc.
  - exists s. rewrite app_nil_r. simpl. by subst.
  - simpl. pose proof (get_next_run s l c l1 (x :: l2 ++ l3) Hrep Hc) as Hrun. simpl in Hrun.
    run_with Hrun. pose proof (cursor_rep s l c x _ Hrep ltac:(set_solver)) as Hrep1.
    destruct (IH (alter_list l (set_cursor x) s) (l1 ++ [x]) x) as (s' & Hr & Hrep' & ->).
    { by rewrite <- app_assoc. } { by rewrite last_snoc. }
    rewrite <- !app_assoc in Hrep'. simpl in Hrep'.
    run_with Hr. eexists. split; [done|]. split; [done|].
    rewrite last_cons. destruct (last l2); [by rewrite alter_cursor_twice|done].
Qed.

(** ** Initialisation *)

Lemma size_insert_le s p it :
  (size (items (put_item p it s)) <= S (size (items s)))%nat.
Proof. simpl. rewrite map_size_insert. destruct (items s !! p); simpl; lia. Qed.

Lemma fld_put {A} (pr : dos_task_item_t -> A) p it s q :
  fld pr (put_item p it s) q = if decide (q = p) then Some (pr it) else fld pr s q.
Proof.
  unfold fld; simpl. rewrite lookup_insert.
  destruct (decide (p = q)) as [->|]; destruct (decide (q = _)); try congruence; done.
Qed.

(** Overwriting an item that is in no list. *)
Lemma put_item_rep s A p it :
  store_rep s A -> Z.of_nat (size (items s)) + 1 < 2 ^ 32 ->
  dos_task_list it = ListNull -> is_end p = false ->
  (fld dos_task_list s p = None \/ fld dos_task_list s p = Some ListNull) ->
  store_rep (put_item p it s) A.
Proof.
  intros HS Hsz Hit Hend Hfree. split.
  - intros l xs HA. destruct (sr_list _ _ HS _ _ HA) as [c Hrep]. exists c.
    eapply list_rep_frame; [done | done |]. intros q Hq. rewrite !fld_put.
    rewrite !decide_False; [done|..]; intros ->; apply elem_of_cons in Hq as [->|Hq]; try done;
      apply (lr_inner _ _ _ _ Hrep) in Hq as [_ Hq]; destruct Hfree as [Hf|Hf];
      rewrite Hf in Hq; simplify_eq; by rewrite (sr_null _ _ HS) in HA.
  - intros q l Hqe Hq Hl. rewrite fld_put in Hq. case_decide; [congruence|].
    by apply (sr_owner _ _ HS).
  - apply HS.
  - apply HS.
  - pose proof (size_insert_le s p it). lia.
Qed.

Lemma item_init_run p s :
  dos_task_item_init p s = Done (tt, put_item p (mk_item p p 0 DOS_NULL ListNull) s).
Proof. done. Qed.

Definition init_list (l : list_ptr) (task : Z) (s : store) : store :=
  put_item (EndItem l) (mk_item (EndItem l) (EndItem l) 0xFFFFFFFF task l)
    (put_list l (mk_list (EndItem l) 0) s).

Lemma list_init_run l s :
  exists task, dos_task_list_init l s = Done (tt, init_list l task s).
Proof. eexists. unfold dos_task_list_init. reflexivity. Qed.

Lemma init_list_rep s A l task :
  store_rep s A -> l <> ListNull -> (A !! l = None \/ A !! l = Some []) ->
  Z.of_nat (size (items s)) + 1 < 2 ^ 32 ->
  store_rep (init_list l task s) (<[l := []]> A).
Proof.
  intros HS Hl HA Hsz. unfold init_list.
  assert (Hfld : forall B (pr : _ -> B) q l0 h, fld pr (put_list l0 h s) q = fld pr s q) by done.
  split.
  - intros l' xs. destruct (decide (l = l')) as [<-|Hne].
    + rewrite lookup_insert_eq. intros [= <-]. exists (EndItem l). split.
      * simpl. by rewrite lookup_insert_eq.
      * set_solver.
      * simpl. rewrite !fld_put, !decide_True by done. done.
      * constructor.
      * intros p Hp. set_solver.
      * intros p Hp. set_solver.
      * rewrite fld_put, decide_True by done. done.
      * constructor.
    + rewrite lookup_insert_ne by done. intros HA'.
      destruct (sr_list _ _ HS _ _ HA') as [c Hrep]. exists c.
      eapply list_rep_frame; [done | simpl; by rewrite lookup_insert_ne |].
      intros q Hq. rewrite !fld_put, !Hfld.
      assert (q <> EndItem l); [|by rewrite !decide_False].
      intros ->. apply elem_of_cons in Hq as [?|Hq]; [congruence|].
      by apply (lr_inner _ _ _ _ Hrep) in Hq as [? _].
  - intros q l' Hqe Hq Hl'. rewrite fld_put, Hfld in Hq.
    rewrite decide_False in Hq by (by intros ->).
    destruct (sr_owner _ _ HS q l') as (xs & HA' & Hxs); [done..|].
    destruct (decide (l = l')) as [<-|]; [|rewrite lookup_insert_ne by done; eauto].
    destruct HA as [HA|HA]; rewrite HA in HA'; simplify_eq. set_solver.
  - rewrite lookup_insert_ne by done. apply HS.
  - simpl. rewrite lookup_insert_ne by done. apply HS.
  - pose proof (size_insert_le (put_list l (mk_list (EndItem l) 0) s) (EndItem l)
      (mk_item (EndItem l) (EndItem l) 0xFFFFFFFF task l)). simpl in *. lia.
Qed.

(** Setting the value of an item that is in no list. *)
Lemma set_value_rep s A p v :
  store_rep s A -> is_end p = false -> fld dos_task_list s p = Some ListNull ->
  store_rep (alter_item p (set_value v) s) A.
Proof.
  intros HS Hend Hfree.
  assert (Hp : is_Some (items s !! p)) by (eapply fld_is_some; eauto).
  split.
  - intros l xs HA. destruct (sr_list _ _ HS _ _ HA) as [c Hrep]. exists c.
    eapply list_rep_frame; [done | done |]. intros q Hq.
    rewrite !(fld_alter_same next), !(fld_alter_same prev), !(fld_alter_same dos_task_list) by done.
    split_and!; try done. rewrite (fld_alter_set dos_task_value _ _ v) by done.
    rewrite decide_False; [done|]. intros ->. apply elem_of_cons in Hq as [->|Hq]; [done|].
    apply (lr_inner _ _ _ _ Hrep) in Hq as [_ Hq]. rewrite Hfree in Hq. simplify_eq.
    by rewrite (sr_null _ _ HS) in HA.
  - intros q l Hqe Hq Hl. rewrite fld_alter_same in Hq by done. by apply (sr_owner _ _ HS).
  - apply HS.
  - apply HS.
  - simpl. rewrite <- size_dom, dom_alter_L, size_dom. apply HS.
Qed.

Lemma store_rep_notin s A p l xs :
  store_rep s A -> fld dos_task_list s p = Some ListNull -> is_end p = false ->
  A !! l = Some xs -> p ∉ xs.
Proof.
  intros HS Hp Hend HA Hin. destruct (sr_list _ _ HS _ _ HA) as [c Hrep].
  apply (lr_inner _ _ _ _ Hrep) in Hin as [_ Hl]. rewrite Hp in Hl. simplify_eq.
  by rewrite (sr_null _ _ HS) in HA.
Qed.

Lemma store_rep_in s A p l xs :
  store_rep s A -> A !! l = Some xs -> p ∈ xs ->
  is_end p = false /\ fld dos_task_list s p = Some l.
Proof.
  intros HS HA Hin. destruct (sr_list _ _ HS _ _ HA) as [c Hrep].
  by apply (lr_inner _ _ _ _ Hrep).
Qed.

Lemma store_rep_nodup s A l xs : store_rep s A -> A !! l = Some xs -> NoDup xs.
Proof. intros HS HA. destruct (sr_list _ _ HS _ _ HA) as [c Hrep]. apply Hrep. Qed.

Lemma store_rep_sorted s A l xs : store_rep s A -> A !! l = Some xs -> sorted_items s xs.
Proof. intros HS HA. destruct (sr_list _ _ HS _ _ HA) as [c Hrep]. apply Hrep. Qed.

Lemma store_rep_value s A l xs :
  store_rep s A -> A !! l = Some xs ->
  exists c, lists s !! l = Some (mk_list c (Z.of_nat (length xs))) /\ c ∈ EndItem l :: xs.
Proof. intros HS HA. destruct (sr_list _ _ HS _ _ HA) as [c []]. eauto. Qed.

Lemma list_is_empty_run s A l xs :
  store_rep s A -> A !! l = Some xs ->
  dos_task_list_is_empty l s = Done (bool_decide (xs = []), s).
Proof.
  intros HS HA. destruct (store_rep_value _ _ _ _ HS HA) as (c & Hh & _).
  unfold dos_task_list_is_empty. run_with (list_at_run _ _ _ Hh). simpl. by destruct xs.
Qed.

Lemma list_value_run s A l xs :
  store_rep s A -> A !! l = Some xs ->
  dos_get_task_list_value l s = Done (Z.of_nat (length xs), s).
Proof.
  intros HS HA. destruct (store_rep_value _ _ _ _ HS HA) as (c & Hh & _).
  unfold dos_get_task_list_value. by run_with (list_at_run _ _ _ Hh).
Qed.

(** The task chosen by [dos_get_first_task] and [dos_get_next_task]. *)
Lemma store_first s A l x xs :
  store_rep s A -> A !! l = Some (x :: xs) ->
  exists s', dos_get_first_task l s = Done (task_of s x, s') /\ store_rep s' A /\
    same_data s s' /\ (forall q, fld dos_task_list s' q = fld dos_task_list s q) /\
    items s' = items s.
Proof.
  intros HS HA. destruct (sr_list _ _ HS _ _ HA) as [c Hrep].
  pose proof (get_first_run _ _ _ _ Hrep) as Hrun. simpl in Hrun.
  eexists; split; [exact Hrun|]. split_and!; [| |done|done].
  - eapply cursor_store_rep; [done | done |]. set_solver.
  - apply cursor_data. intros ->. by rewrite (sr_null _ _ HS) in HA.
Qed.

Lemma store_next s A l xs :
  store_rep s A -> A !! l = Some xs -> xs <> [] ->
  exists x s', x ∈ xs /\ dos_get_next_task l s = Done (task_of s x, s') /\ store_rep s' A /\
    same_data s s' /\ (forall q, fld dos_task_list s' q = fld dos_task_list s q) /\
    items s' = items s.
Proof.
  intros HS HA Hxs. destruct (sr_list _ _ HS _ _ HA) as [c Hrep].
  assert (exists l1 l2, xs = l1 ++ l2 /\ c = default (EndItem l) (last l1)) as (l1 & l2 & -> & Hc).
  { pose proof (lr_cursor _ _ _ _ Hrep) as [->|Hin]%elem_of_cons; [by exists [], xs|].
    apply list_elem_of_split in Hin as (l1 & l2 & ->). exists (l1 ++ [c]), l2.
    rewrite last_snoc. by rewrite <- app_assoc. }
  pose proof (get_next_run _ _ _ _ _ Hrep Hc) as Hrun. simpl in Hrun.
  set (x := default (default (EndItem l) (head l1)) (head l2)) in *.
  assert (Hx : x ∈ l1 ++ l2) by (subst x; destruct l2, l1; simpl in *; set_solver).
  exists x. eexists; split; [done|]. split; [exact Hrun|]. split_and!; [| |done|done].
  - eapply cursor_store_rep; [done | done |]. clear -Hx. set_solver.
  - apply cursor_data. intros ->. by rewrite (sr_null _ _ HS) in HA.
Qed.
