(* ===== verification/KernelInv.v ===== *)
(** * Kernel invariant

    What every kernel operation preserves: each task's two items are in the
    lists its status says, the ready map has a bit for exactly the non-empty
    ready lists, and the two sleep lists hold the wake-up times of this round
    of the tick counter and of the next one.

    [tinv] is stated point-wise, through the [dos_task_list] field of each
    item ([loc]), so that an operation on one task only has to account for
    that task ([tinv_task]). *)

From S2P Require Import Prelude TaskList TaskListSpec Mem Priority Kernel Sched.

(** ** Status bits *)

Definition is_flag (f : Z) : Prop := exists i, 0 <= i < 16 /\ f = 2 ^ i.

Lemma flag_ready : is_flag DOS_TASK_STATUS_READY.
Proof. by exists 1. Qed.
Lemma flag_delay : is_flag DOS_TASK_STATUS_DELAY.
Proof. by exists 3. Qed.
Lemma flag_timeout : is_flag DOS_TASK_STATUS_TIMEOUT.
Proof. by exists 4. Qed.
Lemma flag_suspend : is_flag DOS_TASK_STATUS_SUSPEND.
Proof. by exists 5. Qed.
Lemma flag_unused : is_flag DOS_TASK_STATUS_UNUSED.
Proof. by exists 0. Qed.

#[export] Hint Resolve flag_ready flag_delay flag_timeout flag_suspend flag_unused : dora.

Lemma land_flag x i : 0 <= i -> negb (Z.land x (2 ^ i) =? 0) = Z.testbit x i.
Proof.
  intros Hi. destruct (Z.testbit x i) eqn:T.
  - apply negb_true_iff. apply Z.eqb_neq. intros E.
    assert (Z.testbit (Z.land x (2 ^ i)) i = true) as T2.
    { rewrite Z.land_spec, T, (Z.pow2_bits_true i Hi). done. }
    by rewrite E, Z.testbit_0_l in T2.
  - apply negb_false_iff. apply Z.eqb_eq. apply Z.bits_inj'. intros j Hj.
    rewrite Z.land_spec, Z.testbit_0_l. destruct (Z.eq_dec i j) as [<-|].
    + by rewrite T.
    + rewrite Z.pow2_bits_false by done. apply andb_false_r.
Qed.

Lemma has_status_bit c i : 0 <= i -> has_status c (2 ^ i) = Z.testbit (task_status c) i.
Proof. apply land_flag. Qed.

Lemma testbit_u16 x i : 0 <= i < 16 -> Z.testbit (u16 x) i = Z.testbit x i.
Proof. intros. apply Z.mod_pow2_bits_low. lia. Qed.

Lemma has_status_set m c f :
  is_flag f ->
  has_status (DOS_SET_TASK_STATUS m c) f = has_status c f || negb (Z.land m f =? 0).
Proof.
  intros (i & Hi & ->). rewrite !has_status_bit, land_flag by lia. simpl.
  by rewrite testbit_u16, Z.lor_spec by lia.
Qed.

Lemma has_status_reset m c f :
  is_flag f ->
  has_status (DOS_RESET_TASK_STATUS m c) f = has_status c f && (Z.land m f =? 0).
Proof.
  intros (i & Hi & ->). rewrite !has_status_bit by lia. simpl.
  rewrite testbit_u16, Z.land_spec, Z.lnot_spec by lia.
  by rewrite <- (land_flag m i), negb_involutive by lia.
Qed.

(** Evaluates the status bits of an updated control block. *)
Ltac status_eval :=
  repeat (rewrite has_status_set by auto with dora || rewrite has_status_reset by auto with dora);
  cbn [Z.land DOS_TASK_STATUS_READY DOS_TASK_STATUS_DELAY DOS_TASK_STATUS_SUSPEND
       DOS_TASK_STATUS_TIMEOUT DOS_TASK_STATUS_UNUSED].

Definition ready (c : dos_task_cb) : bool := has_status c DOS_TASK_STATUS_READY.
Definition delayed (c : dos_task_cb) : bool := has_status c DOS_TASK_STATUS_DELAY.
Definition suspended (c : dos_task_cb) : bool := has_status c DOS_TASK_STATUS_SUSPEND.
Definition timed_out (c : dos_task_cb) : bool := has_status c DOS_TASK_STATUS_TIMEOUT.

Lemma status_flags_set m c :
  ready (DOS_SET_TASK_STATUS m c) = ready c || negb (Z.land m DOS_TASK_STATUS_READY =? 0) /\
  delayed (DOS_SET_TASK_STATUS m c) = delayed c || negb (Z.land m DOS_TASK_STATUS_DELAY =? 0) /\
  suspended (DOS_SET_TASK_STATUS m c) =
    suspended c || negb (Z.land m DOS_TASK_STATUS_SUSPEND =? 0) /\
  timed_out (DOS_SET_TASK_STATUS m c) =
    timed_out c || negb (Z.land m DOS_TASK_STATUS_TIMEOUT =? 0).
Proof. split_and!; apply has_status_set; auto with dora. Qed.

Lemma status_flags_reset m c :
  ready (DOS_RESET_TASK_STATUS m c) = ready c && (Z.land m DOS_TASK_STATUS_READY =? 0) /\
  delayed (DOS_RESET_TASK_STATUS m c) = delayed c && (Z.land m DOS_TASK_STATUS_DELAY =? 0) /\
  suspended (DOS_RESET_TASK_STATUS m c) =
    suspended c && (Z.land m DOS_TASK_STATUS_SUSPEND =? 0) /\
  timed_out (DOS_RESET_TASK_STATUS m c) =
    timed_out c && (Z.land m DOS_TASK_STATUS_TIMEOUT =? 0).
Proof. split_and!; apply has_status_reset; auto with dora. Qed.

(** ** Where the items of a task are *)

Definition loc (s : store) (p : item_ptr) : option list_ptr := fld dos_task_list s p.

Definition status_ok (l : list_ptr) (c : dos_task_cb) : Prop :=
  match l with
  | ListNull => ready c = false /\ delayed c = false
  | PriorityList i => ready c = true /\ delayed c = false /\ i = priority c
  | SleepList1 | SleepList2 => delayed c = true /\ ready c = false
  | RecycleList => ready c = false /\ delayed c = false
  | _ => False
  end.

Definition pend_ok (l : list_ptr) (c : dos_task_cb) : Prop :=
  match l with
  | ListNull => suspended c = false
  | SemPendList _ | MutexPendList _ | QueuePendList _ _ | EventPendList _ => suspended c = true
  | _ => False
  end.

Record task_ok (s : store) (t : Z) (c : dos_task_cb) : Prop := {
  tk_priority : 0 <= priority c < 32;
  tk_status_item : fld dos_task s (StatusItem t) = Some t;
  tk_pend_item : fld dos_task s (PendItem t) = Some t;
  tk_status_val : 0 <= item_val s (StatusItem t) <= DOS_UINT32_MAX;
  tk_pend_val : 0 <= item_val s (PendItem t) <= DOS_UINT32_MAX;
  tk_status : exists l, loc s (StatusItem t) = Some l /\ status_ok l c;
  tk_pend : exists l, loc s (PendItem t) = Some l /\ pend_ok l c
}.

Definition item_task (p : item_ptr) : Z :=
  match p with EndItem _ => 0 | StatusItem t | PendItem t => t end.

(** Lists that exist from system start. *)
Definition system_list (l : list_ptr) : Prop :=
  match l with
  | PriorityList i => 0 <= i < 32
  | SleepList1 | SleepList2 | RecycleList => True
  | _ => False
  end.

Definition bitmap_ok (m : Z) (A : gmap list_ptr (list item_ptr)) : Prop :=
  0 <= m < 2 ^ 32 /\
  forall i, 0 <= i < 32 -> Z.testbit m i = true <-> A !! PriorityList i <> Some [].

(** The wake-up times: later than [lo] in this round of the tick counter for
    the sleep list, in the next round for the overflow list.  Between two ticks
    [lo] is the tick counter. *)
Record sleep_ok (s : store) (g : task_globals) (lo : Z) : Prop := {
  sl_lists : (dos_task_sleep_list g = SleepList1 /\ dos_task_sleep_overflow_list g = SleepList2) \/
             (dos_task_sleep_list g = SleepList2 /\ dos_task_sleep_overflow_list g = SleepList1);
  sl_tick : 0 <= dos_tick_count g < 2 ^ 32;
  sl_next : 0 <= dos_next_wake_tick g < 2 ^ 32;
  sl_future : lo < dos_next_wake_tick g \/ dos_next_wake_tick g = DOS_UINT32_MAX;
  sl_sleep : forall p, is_end p = false -> loc s p = Some (dos_task_sleep_list g) ->
             lo < item_val s p /\ dos_next_wake_tick g <= item_val s p;
  sl_overflow : forall p, is_end p = false -> loc s p = Some (dos_task_sleep_overflow_list g) ->
                item_val s p < dos_tick_count g
}.

Record tinv (s : store) (T : gmap Z dos_task_cb) (g : task_globals)
    (A : gmap list_ptr (list item_ptr)) (lo : Z) : Prop := {
  ti_store : store_rep s A;
  ti_lists : forall l, system_list l -> is_Some (A !! l);
  ti_items : forall p, is_end p = false -> is_Some (items s !! p) -> is_Some (T !! item_task p);
  ti_task : forall t c, T !! t = Some c -> task_ok s t c;
  ti_bitmap : bitmap_ok (dos_task_priority g) A;
  ti_sleep : sleep_ok s g lo;
  ti_idle : exists c, T !! dos_idle_task g = Some c /\ ready c = true;
  ti_current : is_Some (T !! dos_current_task g)
}.

Abbreviation tinv_at k A lo := (tinv (k_store k) (k_tcbs k) (k_task k) A lo).

Definition kinv (k : kernel) (A : gmap list_ptr (list item_ptr)) : Prop :=
  tinv_at k A (dos_tick_count (k_task k)).

(** ** Membership through [loc] *)

Lemma loc_in s A p l :
  store_rep s A -> is_end p = false -> l <> ListNull ->
  loc s p = Some l <-> exists xs, A !! l = Some xs /\ p ∈ xs.
Proof.
  intros HS Hend Hl. split.
  - intros H. by apply (sr_owner _ _ HS).
  - intros (xs & HA & Hin). by apply (store_rep_in _ _ _ _ _ HS HA Hin).
Qed.

Lemma remove_free s A p :
  store_rep s A -> is_end p = false -> loc s p = Some ListNull -> remove_item p <$> A = A.
Proof.
  intros HS Hend Hl. apply map_eq. intros l. rewrite lookup_fmap. destruct (A !! l) as [xs|] eqn:E; [|done].
  simpl. f_equal. apply remove_item_notin. by eapply store_rep_notin.
Qed.

(** Deleting an item, wherever it is, removes it from every list. *)
Lemma store_del_any s A p l :
  store_rep s A -> is_end p = false -> loc s p = Some l ->
  exists n s', dos_task_item_del p s = Done (n, s') /\
    store_rep s' (remove_item p <$> A) /\ same_data s s' /\
    (forall q, loc s' q = if decide (q = p) then Some ListNull else loc s q) /\
    (l <> ListNull -> forall xs, A !! l = Some xs -> n = Z.of_nat (length (remove_item p xs))).
Proof.
  intros HS Hend Hl. destruct (decide (l = ListNull)) as [->|Hne].
  - destruct (store_del_free s A p HS Hl) as [n Hrun]. exists n, s. split; [done|].
    rewrite (remove_free s) by done. split_and!; [done | done | | done]. intros q. by case_decide; subst.
  - destruct (sr_owner _ _ HS p l Hend Hl Hne) as (xs & HA & Hin).
    destruct (store_del s A l xs p HS HA Hin) as (s' & Hrun & HS' & Hsd & Hloc).
    eexists _, s'. split; [exact Hrun|].
    assert (remove_item p <$> A = <[l := remove_item p xs]> A) as ->.
    { apply map_eq. intros l'. rewrite lookup_fmap.
      destruct (decide (l = l')) as [<-|]; [by rewrite lookup_insert_eq, HA|].
      rewrite lookup_insert_ne by done. destruct (A !! l') as [ys|] eqn:E; [|done].
      simpl. f_equal. apply remove_item_notin. intros Hys.
      destruct (store_rep_in _ _ _ _ _ HS E Hys) as [_ H1]. unfold loc in Hl. congruence. }
    split_and!; [done | done | done |]. intros _ ys HA'. by simplify_eq.
Qed.

(** Taking an item out of every list only changes the list it is in. *)
Lemma remove_other s A p l l' :
  store_rep s A -> loc s p = Some l -> l' <> l ->
  (remove_item p <$> A) !! l' = A !! l'.
Proof.
  intros HS Hl Hne. rewrite lookup_fmap. destruct (A !! l') as [ys|] eqn:E; [|done].
  simpl. f_equal. apply remove_item_notin. intros Hys.
  destruct (store_rep_in _ _ _ _ _ HS E Hys) as [_ H1]. unfold loc in Hl. congruence.
Qed.

(** ** Running kernel programs *)

Lemma bind_getg {A B} (f : task_globals -> A) (c : A -> kprog B) k :
  (getg f ≫= c) k = c (f (k_task k)) k.
Proof. done. Qed.

Lemma primask_id k : assign_primask (primask (k_cpu k)) (assign_primask 1 k) = k.
Proof. by destruct k as [? ? ? ? [] ? ? ? ? ? ? ? ? ? ?]. Qed.

Lemma bind_irq_disable {B} (c : Z -> kprog B) k :
  (dos_interrupt_disable ≫= c) k = c (primask (k_cpu k)) (assign_primask 1 k).
Proof. done. Qed.

Lemma bind_irq_enable {B} pri (c : unit -> kprog B) k :
  (dos_interrupt_enable pri ≫= c) k = c tt (assign_primask pri k).
Proof. done. Qed.

Lemma bind_current_task {B} (c : Z -> kprog B) k :
  (dos_get_current_task ≫= c) k = c (dos_current_task (k_task k)) k.
Proof.
  unfold dos_get_current_task. rewrite bind_assoc, bind_irq_disable, bind_assoc, bind_getg,
    bind_assoc, bind_irq_enable, primask_id. done.
Qed.

Ltac kstep := repeat (rewrite bind_getg || rewrite bind_gets || rewrite bind_modify ||
                      rewrite bind_mret || rewrite bind_irq_disable || rewrite bind_irq_enable ||
                      rewrite bind_current_task); cbv beta.

Lemma on_store_run {A} (m : prog store A) k a s' :
  m (k_store k) = Done (a, s') -> on_store m k = Done (a, set_k_store s' k).
Proof. apply zoom_done. Qed.

Lemma task_at_run t k c : k_tcbs k !! t = Some c -> task_at t k = Done (c, k).
Proof. intros H. unfold task_at, deref. by rewrite H. Qed.

Lemma upd_task_run t f k c :
  k_tcbs k !! t = Some c -> upd_task t f k = Done (tt, put_task t (f c) k).
Proof. intros H. unfold upd_task. by run_with (task_at_run _ _ _ H). Qed.

Lemma put_task_twice t c c' k : put_task t c' (put_task t c k) = put_task t c' k.
Proof. unfold put_task, set_k_tcbs. simpl. by rewrite insert_insert_eq. Qed.

(** ** The ready map *)

Lemma priority_bit_spec p i :
  0 <= p < 32 -> 0 <= i -> Z.testbit (priority_bit p) i = (i =? p).
Proof.
  intros Hp Hi. unfold priority_bit. rewrite testbit_u32 by done.
  rewrite Z.shiftl_1_l, Z.pow2_bits_eqb by lia.
  destruct (Z.eqb_spec p i), (Z.eqb_spec i p), (Z.ltb_spec i 32); try lia; done.
Qed.

Lemma priority_bit_range p : 0 <= priority_bit p < 2 ^ 32.
Proof. apply u32_range. Qed.

Lemma lor_range x y n : 0 <= n -> 0 <= x < 2 ^ n -> 0 <= y < 2 ^ n -> 0 <= Z.lor x y < 2 ^ n.
Proof.
  intros Hn Hx Hy. assert (0 <= Z.lor x y) by (apply Z.lor_nonneg; lia). split; [done|].
  destruct (Z.eq_dec (Z.lor x y) 0) as [->|]; [lia|].
  apply Z.log2_lt_pow2; [lia|]. rewrite Z.log2_lor by lia.
  apply Z.max_lub_lt.
  - destruct (Z.eq_dec x 0) as [->|]; [|apply Z.log2_lt_pow2; lia].
    simpl. destruct (Z.eq_dec n 0) as [->|]; [|lia]. exfalso.
    assert (y = 0) as -> by lia. done.
  - destruct (Z.eq_dec y 0) as [->|]; [|apply Z.log2_lt_pow2; lia].
    simpl. destruct (Z.eq_dec n 0) as [->|]; [|lia]. exfalso.
    assert (x = 0) as -> by lia. done.
Qed.

Lemma land_range x y n : 0 <= x < 2 ^ n -> 0 <= y -> 0 <= Z.land x y < 2 ^ n.
Proof.
  intros Hx Hy. assert (0 <= Z.land x y) by (apply Z.land_nonneg; lia). split; [done|].
  destruct (Z.eq_dec (Z.land x y) 0) as [->|]; [lia|].
  apply Z.log2_lt_pow2; [lia|]. eapply Z.le_lt_trans; [apply Z.log2_land; lia|].
  eapply Z.le_lt_trans; [apply Z.le_min_l|].
  destruct (Z.eq_dec x 0) as [->|]; [by rewrite Z.land_0_l in *|]. apply Z.log2_lt_pow2; lia.
Qed.

Lemma bitmap_set m p i :
  0 <= p < 32 -> 0 <= i -> Z.testbit (Z.lor m (priority_bit p)) i = Z.testbit m i || (i =? p).
Proof. intros. by rewrite Z.lor_spec, priority_bit_spec. Qed.

Lemma bitmap_reset m p i :
  0 <= p < 32 -> 0 <= i < 32 ->
  Z.testbit (Z.land m (not32 (priority_bit p))) i = Z.testbit m i && negb (i =? p).
Proof.
  intros. unfold not32. rewrite Z.land_spec, testbit_u32, Z.lnot_spec by lia.
  rewrite priority_bit_spec by lia. by destruct (Z.ltb_spec i 32); [|lia].
Qed.

Lemma bitmap_ok_set m A A' p :
  bitmap_ok m A -> 0 <= p < 32 -> A' !! PriorityList p <> Some [] ->
  (forall i, 0 <= i < 32 -> i <> p ->
     A !! PriorityList i = Some [] <-> A' !! PriorityList i = Some []) ->
  bitmap_ok (Z.lor m (priority_bit p)) A'.
Proof.
  intros [Hm HA] Hp Hxs Hext.
  split; [apply lor_range; [lia | done | apply priority_bit_range]|].
  intros i Hi. rewrite bitmap_set by lia. destruct (Z.eqb_spec i p) as [->|].
  - rewrite orb_true_r. naive_solver.
  - rewrite orb_false_r, HA by done. by rewrite Hext.
Qed.

Lemma bitmap_ok_reset m A A' p :
  bitmap_ok m A -> 0 <= p < 32 -> A' !! PriorityList p = Some [] ->
  (forall i, 0 <= i < 32 -> i <> p ->
     A !! PriorityList i = Some [] <-> A' !! PriorityList i = Some []) ->
  bitmap_ok (Z.land m (not32 (priority_bit p))) A'.
Proof.
  intros [Hm HA] Hp Hempty Hext. split; [apply land_range; [done | apply u32_range]|].
  intros i Hi. rewrite bitmap_reset by lia. destruct (Z.eqb_spec i p) as [->|]; simpl.
  - rewrite andb_false_r. naive_solver.
  - rewrite andb_true_r, HA by done. by rewrite Hext.
Qed.

(** Two maps that agree on which ready lists are empty. *)
Lemma bitmap_ok_ext m A A' :
  bitmap_ok m A -> (forall i, 0 <= i < 32 -> A !! PriorityList i = Some [] <-> A' !! PriorityList i = Some []) ->
  bitmap_ok m A'.
Proof. intros [Hm HA] HE. split; [done|]. intros i Hi. rewrite HA by done. by rewrite HE. Qed.

(** ** Rebuilding the invariant after a change to one task *)

Definition is_sleep_list (l : list_ptr) : bool :=
  match l with SleepList1 | SleepList2 => true | _ => false end.

Lemma sleep_lists_ok s g lo :
  sleep_ok s g lo -> is_sleep_list (dos_task_sleep_list g) = true /\
  is_sleep_list (dos_task_sleep_overflow_list g) = true /\
  dos_task_sleep_list g <> dos_task_sleep_overflow_list g.
Proof. intros H. by destruct (sl_lists _ _ _ H) as [[-> ->]|[-> ->]]. Qed.

Lemma pend_not_sleep l c : pend_ok l c -> is_sleep_list l = false.
Proof. by destruct l. Qed.

(** The sleep lists do not depend on the other globals. *)
Lemma sleep_ok_ext s g g' lo :
  sleep_ok s g lo ->
  dos_task_sleep_list g' = dos_task_sleep_list g ->
  dos_task_sleep_overflow_list g' = dos_task_sleep_overflow_list g ->
  dos_next_wake_tick g' = dos_next_wake_tick g -> dos_tick_count g' = dos_tick_count g ->
  sleep_ok s g' lo.
Proof. intros [] E1 E2 E3 E4. by split; rewrite ?E1, ?E2, ?E3, ?E4. Qed.

Lemma sleep_ok_task s s' g t c lo :
  sleep_ok s g lo ->
  (forall q, q <> StatusItem t -> q <> PendItem t -> loc s' q = loc s q) ->
  (forall q, q <> StatusItem t -> item_val s' q = item_val s q) ->
  (forall sl, is_sleep_list sl = true -> loc s' (StatusItem t) = Some sl ->
     loc s (StatusItem t) = Some sl /\ item_val s' (StatusItem t) = item_val s (StatusItem t)) ->
  (exists l, loc s' (PendItem t) = Some l /\ pend_ok l c) ->
  sleep_ok s' g lo.
Proof.
  intros Hok Hloc Hval Hs (l2 & Hl2 & Hp2).
  destruct (sleep_lists_ok _ _ _ Hok) as (Hsl & Hov & _).
  assert (Hcase : forall p sl, is_sleep_list sl = true ->
            loc s' p = Some sl -> loc s p = Some sl /\ item_val s' p = item_val s p).
  { intros p sl Hsl' Hp. destruct (decide (p = StatusItem t)) as [->|]; [by apply Hs|].
    destruct (decide (p = PendItem t)) as [->|].
    - apply pend_not_sleep in Hp2. congruence.
    - rewrite <- Hloc, Hval by done. done. }
  destruct Hok as [H1 H2 H3 H4 H5 H6]. split; try done.
  - intros p Hend Hp. destruct (Hcase p _ Hsl Hp) as [Hp' ->]. by apply H5.
  - intros p Hend Hp. destruct (Hcase p _ Hov Hp) as [Hp' ->]. by apply H6.
Qed.

Lemma tinv_task s T g A s' g' A' t c c' lo lo' :
  tinv s T g A lo -> T !! t = Some c ->
  store_rep s' A' -> (forall l, is_Some (A !! l) -> is_Some (A' !! l)) ->
  (forall q, fld dos_task s' q = fld dos_task s q) -> dom (items s') = dom (items s) ->
  (forall q, q <> StatusItem t -> q <> PendItem t -> loc s' q = loc s q) ->
  (forall q, q <> StatusItem t -> item_val s' q = item_val s q) ->
  0 <= item_val s' (StatusItem t) <= DOS_UINT32_MAX ->
  0 <= priority c' < 32 ->
  (exists l, loc s' (StatusItem t) = Some l /\ status_ok l c') ->
  (exists l, loc s' (PendItem t) = Some l /\ pend_ok l c') ->
  bitmap_ok (dos_task_priority g') A' ->
  sleep_ok s' g' lo' ->
  dos_idle_task g' = dos_idle_task g -> dos_current_task g' = dos_current_task g ->
  (t = dos_idle_task g -> ready c' = true) ->
  tinv s' (<[t := c']> T) g' A' lo'.
Proof.
  intros HI HT HS HA Htask Hdom Hloc Hval Hv Hp Hst Hpd Hbm Hsl Hidle Hcur Hir.
  split; try done.
  - intros l Hl. apply HA. by apply (ti_lists _ _ _ _ _ HI).
  - intros p Hend Hp'. rewrite lookup_insert_is_Some.
    destruct (decide (t = item_task p)); [by left|right]. split; [done|].
    apply (ti_items _ _ _ _ _ HI); [done|]. apply elem_of_dom. rewrite <- Hdom. by apply elem_of_dom.
  - intros t' c0. destruct (decide (t = t')) as [<-|Hne].
    + rewrite lookup_insert_eq. intros [= <-].
      destruct (ti_task _ _ _ _ _ HI _ _ HT) as [K1 K2 K3 K4 K5 K6 K7].
      split; try done; [by rewrite Htask | by rewrite Htask | by rewrite Hval].
    + rewrite lookup_insert_ne by done. intros HT'.
      destruct (ti_task _ _ _ _ _ HI _ _ HT') as [K1 K2 K3 K4 K5 K6 K7].
      split; try done; rewrite ?Htask, ?Hval, ?Hloc; congruence || done.
  - rewrite Hidle. destruct (ti_idle _ _ _ _ _ HI) as (ci & Hci & Hr).
    destruct (decide (t = dos_idle_task g)) as [E|].
    + exists c'. rewrite E, lookup_insert_eq. split; [done|]. by apply Hir.
    + exists ci. by rewrite lookup_insert_ne.
  - rewrite Hcur, lookup_insert_is_Some. destruct (decide (t = dos_current_task g)); [by left|].
    right. split; [done|]. apply HI.
Qed.

Definition with_bitmap (m : Z) (g : task_globals) : task_globals :=
  mk_globals m (dos_task_sleep_list g) (dos_task_sleep_overflow_list g) (dos_next_wake_tick g)
    (dos_current_task g) (dos_idle_task g) (dos_tick_count g) (dos_cur_priority g).

(** The items of one task moved, no item changed its value, and of the globals
    only the ready map changed. *)
Lemma tinv_moved s T g A s' g' A' t c c' ls lp lo :
  tinv s T g A lo -> T !! t = Some c -> store_rep s' A' -> same_data s s' ->
  (forall l, is_Some (A !! l) -> is_Some (A' !! l)) ->
  (forall q, q <> StatusItem t -> q <> PendItem t -> loc s' q = loc s q) ->
  loc s' (StatusItem t) = Some ls -> status_ok ls c' ->
  (is_sleep_list ls = true -> loc s (StatusItem t) = Some ls) ->
  loc s' (PendItem t) = Some lp -> pend_ok lp c' ->
  0 <= priority c' < 32 -> g' = with_bitmap (dos_task_priority g') g -> bitmap_ok (dos_task_priority g') A' ->
  (t = dos_idle_task g -> ready c' = true) ->
  tinv s' (<[t := c']> T) g' A' lo.
Proof.
  intros HI HT HS Hsd HA Hloc Hls Hst Hsl Hlp Hpd Hp Hg Hbm Hidle. pose proof (ti_task _ _ _ _ _ HI _ _ HT) as HK.
  assert (Hv : forall q, item_val s' q = item_val s q) by (intros q; by apply item_val_same).
  eapply (tinv_task s T g A); try done; try (by rewrite Hg).
  - apply (sd_task _ _ Hsd).
  - apply (sd_dom _ _ Hsd).
  - rewrite Hv. apply HK.
  - by exists ls.
  - by exists lp.
  - apply (sleep_ok_ext _ g); try (by rewrite Hg). eapply (sleep_ok_task s s' _ t c'); try done.
    + apply HI.
    + intros l Hl. rewrite Hls. intros [= ->]. split; [by apply Hsl | apply Hv].
    + by exists lp.
Qed.

Lemma with_bitmap_id g : g = with_bitmap (dos_task_priority g) g.
Proof. by destruct g. Qed.

(** Moving a cursor does not matter to the invariant. *)
Lemma cursor_tinv k s' A lo :
  tinv_at k A lo -> store_rep s' A -> items s' = items (k_store k) ->
  tinv_at (set_k_store s' k) A lo.
Proof.
  intros [I1 I2 I3 I4 I5 I6 I7 I8] HS Hitems. split; simpl; try done.
  - intros p Hend Hp. apply I3; [done|]. by rewrite <- Hitems.
  - intros t c HT. destruct (I4 _ _ HT) as [K1 K2 K3 K4 K5 K6 K7].
    unfold loc, item_val, fld in *. by split; unfold loc, item_val, fld; rewrite ?Hitems.
  - destruct I6 as [S1 S2 S3 S4 S5 S6].
    unfold loc, item_val, fld in *. by split; unfold loc, item_val, fld; rewrite ?Hitems.
Qed.
