(* ===== verification/MemInv.v ===== *)
(** * The memory of the kernel objects

    Control blocks, stacks and message areas come from the heap.  [block_of]
    says which bytes an object occupies; the memory invariant [mem_inv] says
    that every object has a block of the heap to itself.  Creation adds blocks
    ([mem_inv_grow]), deletion gives them back ([mem_inv_drop],
    [mem_inv_release]), and what leaves objects and heap alone ([same_mem])
    keeps the invariant. *)

From S2P Require Import Prelude TaskList Mem MemSpec Kernel Sched KernelInv.

(** ** Objects and their blocks *)

Inductive owner : Type :=
| OTask | OStack | OSem | OMutex | OQueue | OEvent | OSwtmr | OMemp | OFifo.

#[export] Instance owner_eq_dec : EqDecision owner.
Proof. solve_decision. Defined.

(** A deleted task has none of these flags; its memory is in use until it is
    taken from the recycle list. *)
Definition finished (c : dos_task_cb) : bool := negb (ready c || delayed c || suspended c).

Definition in_use (k : kernel) (t : Z) (c : dos_task_cb) : bool :=
  negb (finished c) || bool_decide (loc (k_store k) (StatusItem t) = Some RecycleList).

Definition used_task (k : kernel) (t : Z) : option dos_task_cb :=
  c ← k_tcbs k !! t; if in_use k t c then Some c else None.

Definition block_of (k : kernel) (o : owner) (i : Z) : option (Z * Z) :=
  match o with
  | OTask => (fun _ => (i, SIZEOF_TASK)) <$> used_task k i
  | OStack => (fun c => (stack_addr c, stack_size c)) <$> used_task k i
  | OSem => (fun _ => (i, SIZEOF_SEM)) <$> k_sems k !! i
  | OMutex => (fun _ => (i, SIZEOF_MUTEX)) <$> k_mutexes k !! i
  | OQueue => (fun v => (i, SIZEOF_QUEUE + Z.of_nat (length (queue_data v)))) <$> k_queues k !! i
  | OEvent => (fun _ => (i, SIZEOF_EVENT)) <$> k_events k !! i
  | OSwtmr => (fun _ => (i, SIZEOF_SWTMR)) <$> k_swtmrs k !! Swtmr i
  | OMemp => (fun _ => (i, SIZEOF_MEMP)) <$> k_memps k !! i
  | OFifo => (fun v => (i, SIZEOF_FIFO + Z.of_nat (length (fifo_buffer v)))) <$> k_fifos k !! i
  end.

Definition used_blocks (h : heap) (bs : list blk) : list (Z * Z) := used_at (MemHead (heap_info h)) bs.

Record mem_inv (k : kernel) (bs : list blk) : Prop := {
  mi_heap : heap_rep (k_heap k) bs;
  mi_block : forall o i a n, block_of k o i = Some (a, n) ->
    exists z, (a, z) ∈ used_blocks (k_heap k) bs /\ n <= z;
  mi_alone : forall o i o' i' a n n', block_of k o i = Some (a, n) -> block_of k o' i' = Some (a, n') ->
    (o, i) = (o', i')
}.

(** ** What leaves the memory alone *)

Record same_mem (k k' : kernel) : Prop := {
  sm_heap : k_heap k' = k_heap k;
  sm_block : forall o i, block_of k' o i = block_of k o i
}.

#[export] Instance same_mem_preorder : PreOrder same_mem.
Proof. split; [done|]. intros k1 k2 k3 [H1 B1] [H2 B2]. split; [congruence|]. intros o i. by rewrite B2. Qed.

Lemma mem_inv_same k k' bs : mem_inv k bs -> same_mem k k' -> mem_inv k' bs.
Proof.
  intros [M1 M2 M3] [Hh Hb]. split; rewrite ?Hh; [done | |].
  - intros o i a n. rewrite Hb. apply M2.
  - intros o i o' i' a n n'. rewrite !Hb. apply M3.
Qed.

(** ** Allocation and release *)

(** No object has its block at [a]. *)
Definition unowned (k : kernel) (a : Z) : Prop := forall o i n, block_of k o i <> Some (a, n).

Lemma alloc_result_used h bs s r h' :
  alloc_result h bs s r h' -> r <> DOS_NULL ->
  exists bs' sz, heap_rep h' bs' /\ cut_from bs sz s bs' /\
    used_blocks h' bs' ≡ₚ (r, s) :: used_blocks h bs.
Proof.
  unfold alloc_result, used_blocks. intros H Hr. rewrite decide_False in H by done.
  destruct H as (bs' & sz & H1 & H2 & H3 & _ & _ & H4 & _). exists bs', sz. by rewrite H2.
Qed.

Lemma alloc_result_null h bs s h' : alloc_result h bs s DOS_NULL h' -> h' = h.
Proof. unfold alloc_result. rewrite decide_True by done. by intros [-> _]. Qed.

(** A new block is at the address of no other block. *)
Lemma alloc_result_new h bs s r h' z :
  heap_rep h bs -> alloc_result h bs s r h' -> r <> DOS_NULL -> 0 <= s -> (r, z) ∉ used_blocks h bs.
Proof.
  intros Hrep H Hr Hs Hin. unfold alloc_result in H. rewrite decide_False in H by done.
  destruct H as (bs' & sz & _ & _ & _ & _ & _ & _ & _ & _ & _ & Hap & _).
  pose proof (used_at_range _ _ _ _ (hr_blks _ _ Hrep) Hin) as (_ & Hz & _).
  destruct (Hap _ _ Hin); unfold MEM_NODE_SIZE in *; lia.
Qed.

Lemma alloc_result_unowned k bs s r h' :
  mem_inv k bs -> alloc_result (k_heap k) bs s r h' -> r <> DOS_NULL -> 0 <= s -> unowned k r.
Proof.
  intros HM H Hr Hs o i n Hb. destruct (mi_block _ _ HM _ _ _ _ Hb) as (z & Hin & _).
  by eapply alloc_result_new; [apply HM | exact H | ..].
Qed.

(** The objects [N] are new, each with a block of its own that was no object's. *)
Lemma mem_inv_grow k bs k' bs' (N : list (owner * Z * (Z * Z))) :
  mem_inv k bs -> heap_rep (k_heap k') bs' ->
  (forall x, x ∈ used_blocks (k_heap k) bs -> x ∈ used_blocks (k_heap k') bs') ->
  (forall o i b, block_of k' o i = Some b -> block_of k o i = Some b \/ (o, i, b) ∈ N) ->
  (forall o i a n, (o, i, (a, n)) ∈ N ->
     unowned k a /\ exists z, (a, z) ∈ used_blocks (k_heap k') bs' /\ n <= z) ->
  (forall o i o' i' a n n', (o, i, (a, n)) ∈ N -> (o', i', (a, n')) ∈ N -> (o, i) = (o', i')) ->
  mem_inv k' bs'.
Proof.
  intros HM Hrep Hu Hb HN Huniq. split; [done | |].
  - intros o i a n [Hb'|Hin]%Hb; [|by apply (HN o i a n)].
    destruct (mi_block _ _ HM _ _ _ _ Hb') as (z & Hz & ?). eauto.
  - intros o i o' i' a n n' [H1|H1]%Hb [H2|H2]%Hb.
    + by apply (mi_alone _ _ HM _ _ _ _ a n n').
    + destruct (HN _ _ _ _ H2) as [Hf _]. by destruct (Hf o i n).
    + destruct (HN _ _ _ _ H1) as [Hf _]. by destruct (Hf o' i' n').
    + by apply (Huniq o i o' i' a n n').
Qed.

(** An allocation whose block has no owner yet. *)
Lemma mem_inv_reserve k bs s r h' :
  mem_inv k bs -> alloc_result (k_heap k) bs s r h' -> r <> DOS_NULL ->
  exists bs' sz, mem_inv (set_k_heap h' k) bs' /\ cut_from bs sz s bs' /\
    used_blocks h' bs' ≡ₚ (r, s) :: used_blocks (k_heap k) bs.
Proof.
  intros HM H Hr. destruct (alloc_result_used _ _ _ _ _ H Hr) as (bs' & sz & Hrep & Hcut & Hu).
  exists bs', sz. split; [|done].
  apply (mem_inv_grow k bs _ bs' []); [done | done | | by left | |].
  - intros x Hx. simpl. rewrite Hu. by right.
  - by intros o i a n ?%elem_of_nil.
  - by intros o i o' i' a n n' ?%elem_of_nil.
Qed.

(** An object whose block was reserved. *)
Lemma mem_inv_own k bs k' o i a n z :
  mem_inv k bs -> k_heap k' = k_heap k -> unowned k a -> (a, z) ∈ used_blocks (k_heap k) bs -> n <= z ->
  (forall o' i' b, block_of k' o' i' = Some b -> block_of k o' i' = Some b \/ (o', i', b) = (o, i, (a, n))) ->
  mem_inv k' bs.
Proof.
  intros HM Hh Hf Hin Hn Hb. apply (mem_inv_grow k bs k' bs [(o, i, (a, n))]); rewrite ?Hh; try done.
  - apply HM.
  - intros o' i' b Hb'. rewrite list_elem_of_singleton. auto.
  - intros o' i' a' n' [= -> -> -> ->]%list_elem_of_singleton. eauto.
  - by intros o1 i1 o2 i2 a' n1 n2 [= -> -> -> ->]%list_elem_of_singleton [= -> ->]%list_elem_of_singleton.
Qed.

Lemma mem_inv_drop k bs k' :
  mem_inv k bs -> k_heap k' = k_heap k ->
  (forall o i b, block_of k' o i = Some b -> block_of k o i = Some b) -> mem_inv k' bs.
Proof.
  intros HM Hh Hb. apply (mem_inv_grow k bs k' bs []); rewrite ?Hh; try done.
  - apply HM.
  - auto.
  - by intros o i a n ?%elem_of_nil.
  - by intros o i o' i' a n n' ?%elem_of_nil.
Qed.

(** Giving back a block that is no object's. *)
Lemma mem_inv_release k bs a z :
  mem_inv k bs -> (a, z) ∈ used_blocks (k_heap k) bs -> unowned k a ->
  exists h bs', Mem.dos_mem_free a (k_heap k) = Done (DOS_OK, h) /\ mem_inv (set_k_heap h k) bs' /\
    used_blocks (k_heap k) bs ≡ₚ (a, z) :: used_blocks h bs'.
Proof.
  intros HM Hin Hf.
  destruct (mem_free_ok (k_heap k) bs a z (mi_heap _ _ HM) Hin) as (h & bs' & Hrun & Hrep & Hh & Hu & _).
  assert (Hu' : used_blocks (k_heap k) bs ≡ₚ (a, z) :: used_blocks h bs') by (unfold used_blocks; by rewrite Hh).
  exists h, bs'. split; [done|]. split; [|done]. destruct HM as [_ M2 M3]. split; [done | | exact M3].
  intros o i b n Hb. destruct (M2 o i b n Hb) as (y & Hy & Hn). exists y. split; [|done].
  rewrite Hu' in Hy. apply elem_of_cons in Hy as [[= -> ->]|Hy]; [|done]. by destruct (Hf o i n).
Qed.

(** ** Deciding the invariant *)

Definition all_owners : list owner := [OTask; OStack; OSem; OMutex; OQueue; OEvent; OSwtmr; OMemp; OFifo].

Definition swtmr_key (p : swtmr_ptr) : option Z := match p with Swtmr a => Some a | _ => None end.

Definition keys_of (k : kernel) (o : owner) : list Z :=
  match o with
  | OTask | OStack => (map_to_list (k_tcbs k)).*1
  | OSem => (map_to_list (k_sems k)).*1
  | OMutex => (map_to_list (k_mutexes k)).*1
  | OQueue => (map_to_list (k_queues k)).*1
  | OEvent => (map_to_list (k_events k)).*1
  | OSwtmr => omap swtmr_key (map_to_list (k_swtmrs k)).*1
  | OMemp => (map_to_list (k_memps k)).*1
  | OFifo => (map_to_list (k_fifos k)).*1
  end.

Definition owned (k : kernel) : list (Z * Z * (owner * Z)) :=
  o ← all_owners; i ← keys_of k o; option_list ((fun b => (b, (o, i))) <$> block_of k o i).

Definition mem_check (k : kernel) (bs : list blk) : bool :=
  heap_check (k_heap k) bs && bool_decide (NoDup ((fun x => x.1.1) <$> owned k)) &&
  forallb (fun x => existsb (fun u => (u.1 =? x.1.1) && (x.1.2 <=? u.2)) (used_blocks (k_heap k) bs)) (owned k).

Lemma elem_of_keys {B} (m : gmap Z B) i x : m !! i = Some x -> i ∈ (map_to_list m).*1.
Proof. intros H%elem_of_map_to_list. apply list_elem_of_fmap. by exists (i, x). Qed.

Lemma block_of_key k o i b : block_of k o i = Some b -> i ∈ keys_of k o.
Proof.
  destruct o; simpl; intros (x & Hx & ->)%fmap_Some; eauto using elem_of_keys.
  - unfold used_task in Hx. destruct (k_tcbs k !! i) eqn:E; [by eapply elem_of_keys | done].
  - unfold used_task in Hx. destruct (k_tcbs k !! i) eqn:E; [by eapply elem_of_keys | done].
  - apply list_elem_of_omap. exists (Swtmr i). split; [|done]. apply list_elem_of_fmap. exists (Swtmr i, x).
    split; [done|]. by apply elem_of_map_to_list.
Qed.

Lemma elem_of_owned k o i b : block_of k o i = Some b -> (b, (o, i)) ∈ owned k.
Proof.
  intros Hb. unfold owned. apply list_elem_of_bind. exists o. split; [|by destruct o; set_solver].
  apply list_elem_of_bind. exists i. split; [rewrite Hb; left | by eapply block_of_key].
Qed.

Lemma NoDup_fmap_unique {B C} (f : B -> C) xs x y :
  NoDup (f <$> xs) -> x ∈ xs -> y ∈ xs -> f x = f y -> x = y.
Proof.
  intros Hn [i Hi]%list_elem_of_lookup [j Hj]%list_elem_of_lookup E. enough (i = j) as -> by congruence.
  eapply (NoDup_lookup (f <$> xs)); [done | by rewrite list_lookup_fmap, Hi | by rewrite list_lookup_fmap, Hj, E].
Qed.

Lemma mem_check_sound k bs : mem_check k bs = true -> mem_inv k bs.
Proof.
  unfold mem_check. rewrite !andb_true_iff, bool_decide_eq_true, forallb_forall. intros [[H1 H2] H3].
  split; [by apply heap_check_sound | |].
  - intros o i a n Hb%elem_of_owned%list_elem_of_In. apply H3, existsb_exists in Hb as ([p z] & Hin & Hc).
    simpl in Hc. apply andb_true_iff in Hc as [->%Z.eqb_eq Hz%Z.leb_le]. exists z. by apply list_elem_of_In in Hin.
  - intros o i o' i' a n n' H%elem_of_owned H'%elem_of_owned.
    pose proof (NoDup_fmap_unique _ _ _ _ H2 H H' eq_refl). congruence.
Qed.
