(* ===== verification/KernelCheck.v ===== *)
(** * Deciding the kernel invariant

    A boolean check of [tinv] on a concrete kernel state, and the reading of
    the lists' contents out of the store.  It is used on states obtained by
    running the start-up code ([Boot]). *)

From S2P Require Import Prelude TaskList Ring TaskListSpec Mem Priority Kernel Sched KernelInv.

(** ** The contents of the lists *)

Fixpoint walk (fuel : nat) (s : store) (p : item_ptr) : list item_ptr :=
  match fuel with
  | O => []
  | S fuel' =>
      match p with
      | EndItem _ => []
      | _ => p :: default [] (walk fuel' s <$> fld next s p)
      end
  end.

Definition contents (s : store) : gmap list_ptr (list item_ptr) :=
  delete ListNull
    (map_imap (fun l _ => Some (default [] (walk (S (size (items s))) s <$> fld next s (EndItem l))))
       (lists s)).

(** ** Decidability *)

#[export] Instance linked_dec s xs : Decision (linked_items s xs).
Proof.
  induction xs as [|p [|q xs] IH]; simpl; [left; done | left; done |].
  apply and_dec; [apply _|]. apply and_dec; [apply _ | exact IH].
Defined.

#[export] Instance list_header_dec : EqDecision dos_task_list_t.
Proof. solve_decision. Defined.

Definition list_check (s : store) (l : list_ptr) (xs : list item_ptr) : bool :=
  match lists s !! l with
  | None => false
  | Some h =>
      bool_decide (h = mk_list (task_item h) (Z.of_nat (length xs))) &&
      bool_decide (task_item h ∈ EndItem l :: xs) &&
      bool_decide (linked_items s (EndItem l :: xs ++ [EndItem l])) &&
      bool_decide (NoDup xs) &&
      bool_decide (Forall (fun p => is_end p = false /\ fld dos_task_list s p = Some l /\
                                    item_val s p <= 0xFFFFFFFF) xs) &&
      bool_decide (fld dos_task_value s (EndItem l) = Some 0xFFFFFFFF) &&
      bool_decide (StronglySorted (fun p q => item_val s p <= item_val s q) xs)
  end.

Lemma list_check_sound s l xs : list_check s l xs = true -> exists c, list_rep s l c xs.
Proof.
  unfold list_check. destruct (lists s !! l) as [h|] eqn:Hh; [|done].
  rewrite !andb_true_iff, !bool_decide_eq_true.
  intros ((((((E & Hc) & Hl) & Hn) & Hf) & He) & Hs). rewrite Forall_forall in Hf.
  exists (task_item h). split; try done; [by rewrite Hh, E at 1 | |]; intros p Hp;
    by destruct (Hf p Hp) as (? & ? & ?).
Qed.

Definition store_check (s : store) (A : gmap list_ptr (list item_ptr)) : bool :=
  bool_decide (map_Forall (fun l xs => list_check s l xs = true) A) &&
  bool_decide (map_Forall (fun p it =>
    is_end p = true \/ dos_task_list it = ListNull \/
    p ∈ default [] (A !! dos_task_list it)) (items s)) &&
  bool_decide (A !! ListNull = None) &&
  bool_decide (is_Some (lists s !! ListNull)) &&
  (Z.of_nat (size (items s)) <? 2 ^ 32).

Lemma store_check_sound s A : store_check s A = true -> store_rep s A.
Proof.
  unfold store_check. rewrite !andb_true_iff, !bool_decide_eq_true, Z.ltb_lt.
  intros ((((Hl & Ho) & Hn) & Hm) & Hz). split; try done.
  - intros l xs HA. apply list_check_sound. exact (Hl l xs HA).
  - intros p l Hend Hloc Hne. unfold fld in Hloc.
    destruct (items s !! p) as [it|] eqn:Hit; [|done]. simplify_eq/=.
    destruct (Ho p it Hit) as [?|[?|Hin]]; [congruence | done |].
    destruct (A !! dos_task_list it) as [xs|]; [eauto | by apply elem_of_nil in Hin].
Qed.

Definition status_check (l : list_ptr) (c : dos_task_cb) : bool :=
  match l with
  | ListNull | RecycleList => negb (ready c) && negb (delayed c)
  | PriorityList i => ready c && negb (delayed c) && (i =? priority c)
  | SleepList1 | SleepList2 => delayed c && negb (ready c)
  | _ => false
  end.

Definition pend_check (l : list_ptr) (c : dos_task_cb) : bool :=
  match l with
  | ListNull => negb (suspended c)
  | SemPendList _ | MutexPendList _ | QueuePendList _ _ | EventPendList _ => suspended c
  | _ => false
  end.

Lemma status_check_sound l c : status_check l c = true -> status_ok l c.
Proof.
  destruct l; simpl; rewrite ?andb_true_iff, ?negb_true_iff, ?Z.eqb_eq; naive_solver.
Qed.

Lemma pend_check_sound l c : pend_check l c = true -> pend_ok l c.
Proof. destruct l; simpl; rewrite ?negb_true_iff; done. Qed.

Definition range_check (lo x hi : Z) : bool := (lo <=? x) && (x <=? hi).

Definition task_check (s : store) (t : Z) (c : dos_task_cb) : bool :=
  range_check 0 (priority c) 31 &&
  bool_decide (fld dos_task s (StatusItem t) = Some t) &&
  bool_decide (fld dos_task s (PendItem t) = Some t) &&
  range_check 0 (item_val s (StatusItem t)) DOS_UINT32_MAX &&
  range_check 0 (item_val s (PendItem t)) DOS_UINT32_MAX &&
  match loc s (StatusItem t), loc s (PendItem t) with
  | Some l, Some l' => status_check l c && pend_check l' c
  | _, _ => false
  end.

Lemma range_check_sound lo x hi : range_check lo x hi = true -> lo <= x <= hi.
Proof. unfold range_check. rewrite andb_true_iff, !Z.leb_le. done. Qed.

Lemma task_check_sound s t c : task_check s t c = true -> task_ok s t c.
Proof.
  unfold task_check. rewrite !andb_true_iff, !bool_decide_eq_true.
  intros (((((Hp & Hs) & Hpe) & Hsv) & Hpv) & Hl).
  destruct (loc s (StatusItem t)) as [l|] eqn:E; [|done].
  destruct (loc s (PendItem t)) as [l'|] eqn:E'; [|done].
  apply andb_true_iff in Hl as [H1 H2].
  apply range_check_sound in Hp, Hsv, Hpv. split; try done; [lia | |].
  - eauto using status_check_sound.
  - eauto using pend_check_sound.
Qed.

Definition bitmap_check (m : Z) (A : gmap list_ptr (list item_ptr)) : bool :=
  range_check 0 m (2 ^ 32 - 1) &&
  forallb (fun i => Bool.eqb (Z.testbit m i) (negb (bool_decide (A !! PriorityList i = Some []))))
    (seqZ 0 32).

Lemma bitmap_check_sound m A : bitmap_check m A = true -> bitmap_ok m A.
Proof.
  unfold bitmap_check. rewrite andb_true_iff, forallb_forall. intros [Hr H].
  apply range_check_sound in Hr. split; [lia|]. intros i Hi.
  assert (In i (seqZ 0 32)) as Hin by (apply list_elem_of_In, elem_of_seqZ; lia).
  apply H, Bool.eqb_prop in Hin. rewrite Hin, negb_true_iff, bool_decide_eq_false. done.
Qed.

Definition sleep_check (s : store) (g : task_globals) (lo : Z) : bool :=
  bool_decide ((dos_task_sleep_list g = SleepList1 /\ dos_task_sleep_overflow_list g = SleepList2) \/
               (dos_task_sleep_list g = SleepList2 /\ dos_task_sleep_overflow_list g = SleepList1)) &&
  range_check 0 (dos_tick_count g) (2 ^ 32 - 1) &&
  range_check 0 (dos_next_wake_tick g) (2 ^ 32 - 1) &&
  ((lo <? dos_next_wake_tick g) || (dos_next_wake_tick g =? DOS_UINT32_MAX)) &&
  bool_decide (map_Forall (fun p it =>
    (is_end p = true \/ dos_task_list it <> dos_task_sleep_list g \/
     (lo < dos_task_value it /\ dos_next_wake_tick g <= dos_task_value it)) /\
    (is_end p = true \/ dos_task_list it <> dos_task_sleep_overflow_list g \/
     dos_task_value it < dos_tick_count g)) (items s)).

Lemma loc_item s p l :
  loc s p = Some l -> exists it, items s !! p = Some it /\ dos_task_list it = l /\
    item_val s p = dos_task_value it.
Proof.
  unfold loc, item_val, fld. destruct (items s !! p) as [it|]; [|done].
  intros [= <-]. by exists it.
Qed.

Lemma sleep_check_sound s g lo : sleep_check s g lo = true -> sleep_ok s g lo.
Proof.
  unfold sleep_check. rewrite !andb_true_iff, !bool_decide_eq_true, orb_true_iff, Z.ltb_lt, Z.eqb_eq.
  intros ((((Hl & Ht) & Hn) & Hf) & Hi). apply range_check_sound in Ht, Hn.
  split; try done; [lia | lia | |]; intros p Hend Hp;
    destruct (loc_item _ _ _ Hp) as (it & Hit & Hll & ->); destruct (Hi p it Hit) as [H1 H2].
  - destruct H1 as [?|[?|?]]; [congruence | done | done].
  - destruct H2 as [?|[?|?]]; [congruence | done | done].
Qed.

Definition tinv_check (s : store) (T : gmap Z dos_task_cb) (g : task_globals)
    (A : gmap list_ptr (list item_ptr)) (lo : Z) : bool :=
  store_check s A &&
  forallb (fun l => bool_decide (is_Some (A !! l)))
    (SleepList1 :: SleepList2 :: RecycleList :: map PriorityList (seqZ 0 32)) &&
  bool_decide (map_Forall (fun p _ => is_end p = true \/ is_Some (T !! item_task p)) (items s)) &&
  bool_decide (map_Forall (fun t c => task_check s t c = true) T) &&
  bitmap_check (dos_task_priority g) A &&
  sleep_check s g lo &&
  match T !! dos_idle_task g with Some c => ready c | None => false end &&
  bool_decide (is_Some (T !! dos_current_task g)).

Lemma tinv_check_sound s T g A lo : tinv_check s T g A lo = true -> tinv s T g A lo.
Proof.
  unfold tinv_check. rewrite !andb_true_iff, !bool_decide_eq_true, forallb_forall.
  intros (((((((HS & Hl) & Hi) & HT) & Hb) & Hsl) & Hid) & Hc). split; try done.
  - by apply store_check_sound.
  - intros l Hsys. assert (bool_decide (is_Some (A !! l)) = true) as E.
    { apply Hl. destruct l; try done; cbn [In]; auto. do 3 right.
      apply in_map, list_elem_of_In, elem_of_seqZ. simpl in Hsys. lia. }
    by apply bool_decide_eq_true in E.
  - intros p Hend [it Hit]. destruct (Hi p it Hit); [congruence | done].
  - intros t c Ht. apply task_check_sound. exact (HT t c Ht).
  - by apply bitmap_check_sound.
  - by apply sleep_check_sound.
  - destruct (T !! dos_idle_task g) as [c|] eqn:E; [|done]. by exists c.
Qed.

(** The invariant holds of a state whose own lists pass the check. *)
Definition kinv_check (k : kernel) : bool :=
  tinv_check (k_store k) (k_tcbs k) (k_task k) (contents (k_store k))
    (dos_tick_count (k_task k)).

Lemma kinv_check_sound k : kinv_check k = true -> kinv k (contents (k_store k)).
Proof. apply tinv_check_sound. Qed.
