(* ===== verification/Boot.v ===== *)
(** * A running system

    Start-up executed on a concrete memory: the heap and the lists are
    initialised, three user tasks are created beside the idle task, and the
    system is started.  The resulting state satisfies the kernel invariant; it
    is the state on which the theorems of the component files are
    instantiated. *)

From S2P Require Import Prelude TaskList TaskListSpec Mem MemSpec Priority Kernel Sched KernelInv MemInv.
From S2P Require Import KernelCheck Task Sem Mutex Queue Event Swtmr Tick Memp Fifo Start.

(** Memory before start-up: zeroed globals, and the vector table readable at
    address 0 as a list header and as a control block (see [Kernel]). *)
Definition raw_task : dos_task_cb := mk_task 0 0 0 0 0 0 0 0 0 0 0 0 0 0.

Definition power_on : kernel :=
  mk_kernel (mk_store ∅ {[ ListNull := mk_list (EndItem ListNull) 0 ]})
    {[ 0 := raw_task ]} (mk_globals 0 ListNull ListNull DOS_UINT32_MAX 0 0 0 0)
    (mk_sys 0 0 0) (mk_cpu 0 0 false) heap_zero ∅ ∅ ∅ ∅
    (mk_swtmr_globals 0 0 SwtmrList1 SwtmrList2) ∅ ∅ ∅ ∅.

(** The vector table is no task. *)
Definition unmap_null : kprog unit := modify (fun k => set_k_tcbs (delete 0 (k_tcbs k)) k).

Definition start_up : kprog (Z * Z * Z) :=
  dos_system_init 0x20000000 (repeat 0 4096) raw_task raw_task 1 0x08000101 2 0x08000181;;
  a ← dos_task_create raw_task 3 0x08000201 0 256 3 5;
  b ← dos_task_create raw_task 4 0x08000301 0 256 3 5;
  c ← dos_task_create raw_task 5 0x08000401 0 256 7 5;
  dos_system_start_run;;
  unmap_null;;
  mret (a, b, c).

(** One object of each kind. *)
Record objects : Type := mk_objects {
  o_sem : Z; o_mutex : Z; o_queue : Z; o_event : Z; o_swtmr : Z; o_memp : Z; o_fifo : Z
}.

Definition make_objects : kprog objects :=
  s ← dos_sem_create 0 1;
  m ← dos_mutex_create;
  q ← dos_queue_create 3 4;
  e ← dos_event_create;
  t ← dos_swtmr_create 10 dos_swtmr_mode_period 0x08000501 0;
  p ← dos_memp_create 64 16;
  f ← dos_fifo_create (repeat 0 16) 16;
  mret (mk_objects s m q e t p f).

Definition result_state {A} (r : result (A * kernel)) (k : kernel) : kernel :=
  match r with Done (_, k') => k' | _ => k end.
Definition result_value {A} (r : result (A * kernel)) (d : A) : A :=
  match r with Done (a, _) => a | _ => d end.

(** The timer task, of priority 0, runs first and waits for a message; then
    the first of the two tasks of priority 3 runs. *)
Definition timer_pass : kprog unit :=
  swtmr_task_wait;; take_pendsv.

Definition boot : kprog (Z * Z * Z * objects) :=
  ts ← start_up; o ← make_objects; timer_pass;; mret (ts, o).

Definition no_objects : objects := mk_objects 0 0 0 0 0 0 0.

Definition demo : kernel := result_state (boot power_on) power_on.

Definition boot_value : Z * Z * Z * objects :=
  Eval vm_compute in result_value (boot power_on) (0, 0, 0, no_objects).
Definition task_a : Z := Eval vm_compute in boot_value.1.1.1.
Definition task_b : Z := Eval vm_compute in boot_value.1.1.2.
Definition task_c : Z := Eval vm_compute in boot_value.1.2.
Definition objs : objects := Eval vm_compute in boot_value.2.

Definition succeeds {A} (r : result A) : bool :=
  match r with Done _ => true | _ => false end.

Definition lists_of (k : kernel) : gmap list_ptr (list item_ptr) := contents (k_store k).

(** The control block at [t]. *)
Definition cb (k : kernel) (t : Z) : dos_task_cb := default raw_task (k_tcbs k !! t).

(** States the system goes through. *)
Definition after {A} (m : kprog A) (k : kernel) : kernel := result_state (m k) k.

(** [a] waits for the semaphore and [b] runs. *)
Definition demo_sem_wait : kernel :=
  after (dos_sem_pend (o_sem objs) 50;; take_pendsv) demo.
(** The timeout of that wait has passed and [a] runs again. *)
Definition demo_sem_timeout : kernel :=
  after (dos_sem_pend (o_sem objs) 1;; take_pendsv;; SysTick_Handler;;
         dos_task_sleep 5;; take_pendsv) demo.
(** [a] and [b] sleep, [c] takes the mutex, and [a] runs again. *)
Definition demo_mutex_held : kernel :=
  after (dos_task_sleep 1;; take_pendsv;; dos_task_sleep 9;; take_pendsv;;
         dos_mutex_pend (o_mutex objs) 50;; SysTick_Handler;; dos_scheduler;; take_pendsv) demo.
(** Then [a] waits for the mutex and [c] runs, at the priority of [a]. *)
Definition demo_mutex_inherit : kernel :=
  after (dos_mutex_pend (o_mutex objs) 50;; take_pendsv) demo_mutex_held.

(** The queue holds one message. *)
Definition demo_queue : kernel :=
  after (dos_queue_write (o_queue objs) (Some [1; 2; 3; 4]) 4 0) demo.
(** [a] waits for a message, [b] writes one, and [a] runs again. *)
Definition demo_queue_woken : kernel :=
  after (dos_queue_read (o_queue objs) (Some [0; 0; 0; 0]) 4 50;; take_pendsv;;
         dos_queue_write (o_queue objs) (Some [1; 2; 3; 4]) 4 0;;
         dos_task_sleep 9;; take_pendsv) demo.

(** [a] sleeps for one tick and [b] runs. *)
Definition demo_sleep : kernel := after (dos_task_sleep 1;; take_pendsv) demo.

(** The task of priority 7 is given priority 1 while [a] runs. *)
Definition demo_prio : kernel := after (dos_set_task_priority task_c 1) demo.

(** Closed facts are decided by evaluation. *)
Lemma is_some_check {A} (o : option A) :
  match o with Some _ => true | None => false end = true -> is_Some o.
Proof. destruct o; [eauto | done]. Qed.

Ltac by_eval := vm_compute; reflexivity.
Ltac by_check := apply kinv_check_sound; by_eval.

(** Start-up runs to its end without a fault and leaves the invariant. *)
Lemma boot_runs : succeeds (boot power_on) = true.
Proof. by_eval. Qed.

Lemma demo_inv : kinv demo (lists_of demo).
Proof. by_check. Qed.

Lemma demo_mem_inv : mem_inv demo (blocks_of (k_heap demo)).
Proof. apply mem_check_sound. by_eval. Qed.
