(* ===== verification/ListProps.v ===== *)
(** * Properties of the task lists and of the ready map

    The statements about list.c and the priority search, each instantiated on
    the lists of the system of [Boot]. *)

From S2P Require Import Prelude TaskList Ring TaskListSpec Mem Priority Kernel Sched KernelInv.
From S2P Require Import KernelCheck Boot.

(** ** Insertion and removal *)

Lemma remove_insert_sorted val p xs : p ∉ xs -> remove_item p (insert_sorted val p xs) = xs.
Proof.
  unfold remove_item. induction xs as [|x xs IH]; intros Hp; simpl.
  - rewrite filter_cons_False, filter_nil by naive_solver. done.
  - apply not_elem_of_cons in Hp as [Hne Hp]. destruct (val x <=? val p).
    + rewrite filter_cons_True by congruence. by rewrite IH.
    + rewrite filter_cons_False by naive_solver. rewrite filter_cons_True by congruence.
      f_equal. by apply remove_item_notin.
Qed.

(** C25: [dos_task_item_insert] is a stable sorted insertion: on any store whose
    lists are well formed and for any item that is in no list, the call ends,
    the list [l] becomes its contents with the item behind every item of at
    most its own value, every other list keeps its contents, the values and
    owners of all items are unchanged, and all lists are well formed (circular
    in both directions, sorted, with the right length field) again. *)
Theorem item_insert_refines s A l xs p :
  store_rep s A -> A !! l = Some xs -> is_end p = false ->
  loc s p = Some ListNull -> item_val s p <= 0xFFFFFFFF ->
  exists s', dos_task_item_insert l p s = Done (tt, s') /\
    store_rep s' (<[l := insert_sorted (item_val s) p xs]> A) /\
    sorted_items s' (insert_sorted (item_val s) p xs) /\ same_data s s' /\
    forall q, loc s' q = if decide (q = p) then Some l else loc s q.
Proof.
  intros HS HA Hend Hl Hv.
  destruct (store_insert s A l xs p HS HA Hend Hl Hv) as (s' & Hrun & HS' & Hsd & Hloc).
  exists s'. split_and!; try done.
  apply (store_rep_sorted _ _ l _ HS'). apply lookup_insert_eq.
Qed.

Lemma item_insert_refines_witness :
  exists s', dos_task_item_insert (SemPendList (o_sem objs)) (PendItem task_b)
      (k_store demo_sem_wait) = Done (tt, s') /\
    sorted_items s' [PendItem task_a; PendItem task_b].
Proof.
  destruct (item_insert_refines (k_store demo_sem_wait) (lists_of demo_sem_wait)
    (SemPendList (o_sem objs)) [PendItem task_a] (PendItem task_b))
    as (s' & Hrun & _ & Hs & _).
  - apply store_check_sound. by_eval.
  - by_eval.
  - reflexivity.
  - by_eval.
  - vm_compute. discriminate.
  - exists s'. split; [exact Hrun|].
    assert (E : insert_sorted (item_val (k_store demo_sem_wait)) (PendItem task_b) [PendItem task_a]
                = [PendItem task_a; PendItem task_b]) by by_eval.
    rewrite E in Hs. exact Hs.
Defined.

(** Removing what was inserted restores every list: the removal returns
    the length of the list as it was before, and the lists, values and owners
    are those before the insertion. *)
Theorem item_insert_delete s A l xs p :
  store_rep s A -> A !! l = Some xs -> is_end p = false ->
  loc s p = Some ListNull -> item_val s p <= 0xFFFFFFFF ->
  exists s', (dos_task_item_insert l p;; dos_task_item_del p) s =
      Done (Z.of_nat (length xs), s') /\
    store_rep s' A /\ same_data s s' /\ forall q, loc s' q = loc s q.
Proof.
  intros HS HA Hend Hl Hv.
  destruct (store_insert s A l xs p HS HA Hend Hl Hv) as (s1 & Hrun1 & HS1 & Hsd1 & Hloc1).
  destruct (store_del s1 _ l (insert_sorted (item_val s) p xs) p HS1) as (s2 & Hrun2 & HS2 & Hsd2 & Hloc2).
  { apply lookup_insert_eq. } { rewrite elem_of_insert_sorted. by left. }
  pose proof (store_rep_notin s A p l xs HS Hl Hend HA) as Hnew.
  rewrite remove_insert_sorted in Hrun2, HS2 by done. exists s2. split_and!.
  - by run_with Hrun1.
  - rewrite insert_insert_eq, insert_id in HS2; done.
  - by etrans.
  - intros q. unfold loc in *. rewrite Hloc2, Hloc1. case_decide; [by subst | done].
Qed.

Lemma item_insert_delete_witness :
  exists s', (dos_task_item_insert (SemPendList (o_sem objs)) (PendItem task_b);;
              dos_task_item_del (PendItem task_b)) (k_store demo_sem_wait) = Done (1, s').
Proof.
  destruct (item_insert_delete (k_store demo_sem_wait) (lists_of demo_sem_wait)
    (SemPendList (o_sem objs)) [PendItem task_a] (PendItem task_b)) as (s' & Hrun & _).
  - apply store_check_sound. by_eval.
  - by_eval.
  - reflexivity.
  - by_eval.
  - vm_compute. discriminate.
  - exists s'. exact Hrun.
Defined.

(** ** Round robin *)

Lemma get_next_tasks_plus n m l s ts s1 :
  get_next_tasks n l s = Done (ts, s1) ->
  get_next_tasks (n + m) l s = (ts' ← get_next_tasks m l; mret (ts ++ ts')) s1.
Proof.
  revert s ts. induction n as [|n IH]; intros s ts H; simpl in *.
  - injection H as <- <-. unfold mbind, prog_bind. by destruct (get_next_tasks m l s) as [[]| |].
  - apply bind_done_inv in H as (t & s2 & H2 & H).
    apply bind_done_inv in H as (ts2 & s3 & H3 & [= <- <-]).
    run_with H2. unfold mbind at 1, prog_bind. rewrite (IH _ _ H3).
    unfold mbind, prog_bind. by destruct (get_next_tasks m l s3) as [[]| |].
Qed.

Lemma task_of_cursor l x s : task_of (alter_list l (set_cursor x) s) = task_of s.
Proof. done. Qed.

(** From the end of the list the accessor goes on at its start. *)
Lemma get_next_tasks_wrap s l xs ys :
  list_rep s l (default (EndItem l) (last (xs ++ ys))) (xs ++ ys) -> xs <> [] ->
  exists s', get_next_tasks (length xs) l s = Done (map (task_of s) xs, s') /\
    list_rep s' l (default (EndItem l) (last xs)) (xs ++ ys).
Proof.
  intros Hrep Hne. destruct xs as [|x xs]; [done|]. simpl in *.
  pose proof (get_next_run s l (default (EndItem l) (last (x :: xs ++ ys))) (x :: xs ++ ys) [])
    as Hrun.
  rewrite app_nil_r in Hrun. specialize (Hrun Hrep eq_refl). simpl in Hrun. run_with Hrun.
  pose proof (cursor_rep s l _ x _ Hrep ltac:(set_solver)) as Hrep1.
  destruct (get_next_tasks_app _ l [x] xs ys x Hrep1 eq_refl) as (s' & Hr & Hrep' & _).
  run_with Hr. eexists. split; [done|]. exact Hrep'.
Qed.

(** Tasks of one priority take turns.  From any position of the list
    cursor, as many calls of [dos_get_next_task] as the list has tasks return
    every task of the list exactly once, in list order from the cursor on, and
    leave the cursor where it was. *)
Theorem round_robin s l c l1 l2 :
  list_rep s l c (l1 ++ l2) -> l1 <> [] -> c = default (EndItem l) (last l1) ->
  exists s', get_next_tasks (length (l1 ++ l2)) l s = Done (map (task_of s) (l2 ++ l1), s') /\
    list_rep s' l c (l1 ++ l2).
Proof.
  intros Hrep Hne Hc.
  destruct (get_next_tasks_app s l l1 l2 [] c) as (s1 & Hr1 & Hrep1 & E).
  { by rewrite app_nil_r. } { done. }
  rewrite app_nil_r in Hrep1.
  destruct (get_next_tasks_wrap s1 l l1 l2 Hrep1 Hne) as (s2 & Hr2 & Hrep2).
  exists s2. rewrite length_app, Nat.add_comm, (get_next_tasks_plus _ _ _ _ _ _ Hr1).
  run_with Hr2. rewrite <- Hc in Hrep2. split; [|done].
  assert (task_of s1 = task_of s) as -> by (rewrite E; by destruct (last l2)).
  by rewrite map_app.
Qed.

Lemma round_robin_witness :
  exists s', get_next_tasks 2 (PriorityList 3) (k_store demo) = Done ([task_b; task_a], s').
Proof.
  destruct (list_check_sound (k_store demo) (PriorityList 3) [StatusItem task_a; StatusItem task_b])
    as [c Hc]; [by_eval|].
  assert (E : c = StatusItem task_a).
  { pose proof (lr_header _ _ _ _ Hc) as H.
    assert (H' : task_item <$> lists (k_store demo) !! PriorityList 3 = Some (StatusItem task_a))
      by by_eval.
    rewrite H in H'. simpl in H'. congruence. }
  destruct (round_robin (k_store demo) (PriorityList 3) c [StatusItem task_a] [StatusItem task_b] Hc)
    as (s' & Hrun & _); [discriminate | exact E |].
  exists s'. etrans; [exact Hrun|]. do 2 f_equal.
Defined.

(** ** The ready map *)

(** C26: The two searches of the ready map agree: for every non-empty 32-bit map
    the bit instructions and the 256-entry table, which is only read inside its
    bounds, return the same priority, and it is the lowest set bit. *)
Theorem priority_search pri :
  0 < pri < 2 ^ 32 ->
  get_highest_priority_table pri = Some (_dos_get_highest_priority pri) /\
  Z.testbit pri (_dos_get_highest_priority pri) = true /\
  forall j, 0 <= j < _dos_get_highest_priority pri -> Z.testbit pri j = false.
Proof.
  intros Hp. destruct (table_lowest_bit pri Hp) as (r & Hr & Hl).
  pose proof (highest_priority_spec pri Hp) as Hh.
  rewrite Hr, (lowest_bit_unique _ _ _ Hl Hh). destruct Hh as (_ & Ht & Hlow). done.
Qed.

Lemma priority_search_witness :
  get_highest_priority_table 0x80000088 = Some 3.
Proof. apply (priority_search 0x80000088). vm_compute. split; reflexivity. Defined.
