(* ===== verification/SchedSpec.v ===== *)
(** * Scheduler correctness

    Every operation of [Sched] runs to completion in a state that satisfies
    the kernel invariant, re-establishes it, and has the effect stated here. *)

From S2P Require Import Prelude TaskList Ring TaskListSpec Mem Priority Kernel Sched KernelInv.
From S2P Require Import KernelCheck Boot.

(** ** Building blocks *)

Lemma insert_ready_run k A t c xs :
  store_rep (k_store k) A -> k_tcbs k !! t = Some c ->
  loc (k_store k) (StatusItem t) = Some ListNull ->
  item_val (k_store k) (StatusItem t) <= DOS_UINT32_MAX ->
  A !! PriorityList (priority c) = Some xs ->
  exists s', _dos_insert_task_priority_list t k =
      Done (tt, set_k_store s' (put_task t (DOS_SET_TASK_STATUS DOS_TASK_STATUS_READY c)
        (assign_dos_task_priority
           (Z.lor (dos_task_priority (k_task k)) (priority_bit (priority c))) k))) /\
    store_rep s' (<[PriorityList (priority c) :=
                    insert_sorted (item_val (k_store k)) (StatusItem t) xs]> A) /\
    same_data (k_store k) s' /\
    forall q, loc s' q = if decide (q = StatusItem t) then Some (PriorityList (priority c))
                         else loc (k_store k) q.
Proof.
  intros HS HT Hloc Hval HA.
  destruct (store_insert (k_store k) A (PriorityList (priority c)) xs (StatusItem t))
    as (s' & Hrun & HS' & Hsd & Hl); [done..|].
  exists s'. split_and!; [| done..].
  unfold _dos_insert_task_priority_list. run_with (task_at_run _ _ _ HT).
  unfold DOS_SET_TASK_PTIORITY. rewrite bind_assoc. kstep.
  run_by ltac:(apply upd_task_run; exact HT).
  run_by ltac:(apply task_at_run; simpl; apply lookup_insert_eq).
  apply on_store_run. exact Hrun.
Qed.

Lemma remove_status_run k A t c l :
  store_rep (k_store k) A -> k_tcbs k !! t = Some c -> 0 <= priority c < 32 ->
  loc (k_store k) (StatusItem t) = Some l ->
  is_Some (A !! PriorityList (priority c)) ->
  bitmap_ok (dos_task_priority (k_task k)) A ->
  (forall i, l = PriorityList i -> i = priority c) ->
  exists s' m', remove_from_status_list t k =
      Done (tt, assign_dos_task_priority m' (set_k_store s' k)) /\
    store_rep s' (remove_item (StatusItem t) <$> A) /\ same_data (k_store k) s' /\
    (forall q, loc s' q = if decide (q = StatusItem t) then Some ListNull
                          else loc (k_store k) q) /\
    bitmap_ok m' (remove_item (StatusItem t) <$> A).
Proof.
  intros HS HT Hp Hloc [xs HA] Hbm Hl.
  destruct (store_del_any (k_store k) A (StatusItem t) l HS eq_refl Hloc)
    as (n & s' & Hrun & HS' & Hsd & Hl' & Hn).
  exists s'. set (A' := remove_item (StatusItem t) <$> A) in *.
  assert (HA' : A' !! PriorityList (priority c) = Some (remove_item (StatusItem t) xs)).
  { unfold A'. by rewrite lookup_fmap, HA. }
  assert (Hother : forall i, 0 <= i < 32 -> l <> PriorityList i ->
            A' !! PriorityList i = A !! PriorityList i).
  { intros i Hi Hne. eapply remove_other; done. }
  assert (Hbm' : (A' !! PriorityList (priority c) <> Some [] \/ l <> PriorityList (priority c)) ->
            bitmap_ok (dos_task_priority (k_task k)) A').
  { intros Hne. apply (bitmap_ok_ext _ A); [done|]. intros i Hi.
    destruct (decide (l = PriorityList i)) as [E|E]; [|by rewrite Hother].
    pose proof (Hl _ E) as ->. destruct Hne as [Hne|]; [|done]. split; [|done].
    rewrite HA'. rewrite HA. by intros [= ->]. }
  unfold remove_from_status_list. run_by ltac:(apply on_store_run; exact Hrun).
  destruct (Z.eqb_spec n 0) as [->|Hn0].
  - run_by ltac:(apply task_at_run; exact HT).
    run_by ltac:(apply on_store_run; exact (list_is_empty_run _ _ _ _ HS' HA')).
    case_bool_decide as Hempty.
    + eexists. split; [|split_and!; [done..|]].
      { unfold DOS_RESET_TASK_PTIORITY. kstep. reflexivity. }
      eapply bitmap_ok_reset; [done | done | by rewrite HA', Hempty |].
      intros i Hi Hne. rewrite Hother; [done | done |]. intros E. by apply Hl in E.
    + exists (dos_task_priority (k_task k)). split_and!; [by destruct k as [? ? [] ? ? ? ? ? ? ? ? ? ? ? ?] | done..|].
      apply Hbm'. left. rewrite HA'. congruence.
  - exists (dos_task_priority (k_task k)). split_and!; [by destruct k as [? ? [] ? ? ? ? ? ? ? ? ? ? ? ?] | done..|].
    apply Hbm'. destruct (decide (l = PriorityList (priority c))) as [->|]; [left|by right].
    rewrite HA'. intros [= E]. rewrite (Hn ltac:(done) _ HA), E in Hn0. done.
Qed.

(** ** Frames *)

(** Everything outside task.c is unchanged. *)
Record same_rest (k k' : kernel) : Prop := {
  sr_sys : k_sys k' = k_sys k;
  sr_cpu : k_cpu k' = k_cpu k;
  sr_heap : k_heap k' = k_heap k;
  sr_sems : k_sems k' = k_sems k;
  sr_mutexes : k_mutexes k' = k_mutexes k;
  sr_queues : k_queues k' = k_queues k;
  sr_events : k_events k' = k_events k;
  sr_swtmr : k_swtmr k' = k_swtmr k;
  sr_swtmrs : k_swtmrs k' = k_swtmrs k;
  sr_memps : k_memps k' = k_memps k;
  sr_memp_nodes : k_memp_nodes k' = k_memp_nodes k;
  sr_fifos : k_fifos k' = k_fifos k
}.

#[export] Instance same_rest_refl : Reflexive same_rest.
Proof. done. Qed.

#[export] Instance same_rest_trans : Transitive same_rest.
Proof. intros k1 k2 k3 [] []. split; etrans; eauto. Qed.

Definition with_next_wake (v : Z) (g : task_globals) : task_globals :=
  mk_globals (dos_task_priority g) (dos_task_sleep_list g) (dos_task_sleep_overflow_list g) v
    (dos_current_task g) (dos_idle_task g) (dos_tick_count g) (dos_cur_priority g).

(** The lists after [t] was taken out of all of them and made ready. *)
Definition woken_lists (s : store) (t prio : Z) (A : gmap list_ptr (list item_ptr)) :
    gmap list_ptr (list item_ptr) :=
  let A1 := remove_item (StatusItem t) <$> (remove_item (PendItem t) <$> A) in
  <[PriorityList prio :=
      insert_sorted (item_val s) (StatusItem t) (default [] (A1 !! PriorityList prio))]> A1.

Definition woken (c : dos_task_cb) : dos_task_cb :=
  DOS_SET_TASK_STATUS DOS_TASK_STATUS_READY
    (DOS_RESET_TASK_STATUS (Z.lor DOS_TASK_STATUS_SUSPEND DOS_TASK_STATUS_DELAY) c).

Lemma woken_flags c :
  ready (woken c) = true /\ delayed (woken c) = false /\ suspended (woken c) = false /\
  timed_out (woken c) = timed_out c /\ priority (woken c) = priority c.
Proof.
  unfold woken. destruct (status_flags_set DOS_TASK_STATUS_READY
    (DOS_RESET_TASK_STATUS (Z.lor DOS_TASK_STATUS_SUSPEND DOS_TASK_STATUS_DELAY) c))
    as (-> & -> & -> & ->).
  destruct (status_flags_reset (Z.lor DOS_TASK_STATUS_SUSPEND DOS_TASK_STATUS_DELAY) c)
    as (-> & -> & -> & ->). simpl.
  by rewrite !orb_true_r, !andb_false_r, !orb_false_r, andb_true_r.
Qed.

Lemma fmap_lookup_is_some {B} (f : B -> B) (A : gmap list_ptr B) l :
  is_Some (A !! l) -> is_Some ((f <$> A) !! l).
Proof. rewrite lookup_fmap, fmap_is_Some. done. Qed.

Lemma insert_lookup_is_some {B} (A : gmap list_ptr B) l x l' :
  is_Some (A !! l') -> is_Some (<[l := x]> A !! l').
Proof. rewrite lookup_insert_is_Some. destruct (decide (l = l')); naive_solver. Qed.

#[export] Hint Resolve fmap_lookup_is_some insert_lookup_is_some : dora.

Lemma insert_sorted_nonempty {B} (val : B -> Z) p xs : insert_sorted val p xs <> [].
Proof. destruct xs; simpl; [done|]. by case_match. Qed.

(** Waking, also in the middle of a tick, when the bound [lo] of the sleep list
    is behind the tick counter. *)
Lemma wake_spec_lo k A lo t c :
  tinv_at k A lo -> k_tcbs k !! t = Some c ->
  exists k', dos_task_wake t k = Done (tt, k') /\
    tinv_at k' (woken_lists (k_store k) t (priority c) A) lo /\
    k_tcbs k' = <[t := woken c]> (k_tcbs k) /\
    k_task k' = with_bitmap (Z.lor (dos_task_priority (k_task k)) (priority_bit (priority c)))
                  (k_task k) /\
    same_data (k_store k) (k_store k') /\
    (forall q, loc (k_store k') q =
       if decide (q = StatusItem t) then Some (PriorityList (priority c)) else
       if decide (q = PendItem t) then Some ListNull else loc (k_store k) q) /\
    same_rest k k'.
Proof.
  intros HI HT. pose proof (ti_task _ _ _ _ _ HI _ _ HT) as HK.
  pose proof (ti_store _ _ _ _ _ HI) as HS. set (s := k_store k) in *.
  destruct (tk_pend _ _ _ HK) as (lp & Hlp & Hpk).
  destruct (tk_status _ _ _ HK) as (ls & Hls & Hsk).
  destruct (store_del_any s A (PendItem t) lp HS eq_refl Hlp)
    as (n1 & s1 & Hrun1 & HS1 & Hsd1 & Hl1 & _).
  assert (Hls1 : loc s1 (StatusItem t) = Some ls) by (by rewrite Hl1, decide_False).
  destruct (store_del_any s1 _ (StatusItem t) ls HS1 eq_refl Hls1)
    as (n2 & s2 & Hrun2 & HS2 & Hsd2 & Hl2 & _).
  set (A1 := remove_item (StatusItem t) <$> (remove_item (PendItem t) <$> A)) in *.
  assert (Hsd12 : same_data s s2) by (etrans; done).
  set (c1 := DOS_RESET_TASK_STATUS (Z.lor DOS_TASK_STATUS_SUSPEND DOS_TASK_STATUS_DELAY) c).
  set (k2 := put_task t c1 (set_k_store s2 (set_k_store s1 k))).
  assert (HA1 : is_Some (A1 !! PriorityList (priority c))).
  { unfold A1. do 2 apply fmap_lookup_is_some. apply (ti_lists _ _ _ _ _ HI), HK. }
  destruct HA1 as [xs HA1].
  destruct (insert_ready_run k2 A1 t c1 xs) as (s3 & Hrun3 & HS3 & Hsd3 & Hl3).
  { done. } { apply lookup_insert_eq. }
  { simpl. rewrite Hl2. by rewrite decide_True. }
  { simpl. rewrite (item_val_same _ _ _ Hsd12). apply HK. } { done. }
  change (priority c1) with (priority c) in *. change (k_store k2) with s2 in *.
  eexists. split; [|split; [|split; [|split; [|split; [|split]]]]].
  - unfold dos_task_wake. run_by ltac:(apply on_store_run; exact Hrun1).
    run_by ltac:(apply on_store_run; exact Hrun2).
    run_by ltac:(apply upd_task_run; exact HT). exact Hrun3.
  - simpl. rewrite insert_insert_eq.
    assert (Hext : insert_sorted (item_val s2) (StatusItem t) xs =
                   insert_sorted (item_val s) (StatusItem t) (default [] (A1 !! PriorityList (priority c)))).
    { rewrite HA1. apply insert_sorted_ext. intros q _. by apply item_val_same. }
    rewrite Hext in HS3. destruct (woken_flags c) as (W1 & W2 & W3 & W4 & W5).
    assert (Hlq : forall q, q <> StatusItem t -> q <> PendItem t -> loc s3 q = loc s q).
    { intros q Hq1 Hq2. by rewrite Hl3, Hl2, Hl1, !decide_False. }
    assert (Hsd : same_data s s3) by (etrans; done).
    eapply (tinv_moved s _ (k_task k) A _ _ _ t c (woken c) (PriorityList (priority c)) ListNull); try done.
    + intros l Hl. by apply insert_lookup_is_some; do 2 apply fmap_lookup_is_some.
    + by rewrite Hl3, decide_True.
    + by rewrite Hl3, Hl2, Hl1, !decide_False, decide_True by done.
    + apply HK.
    + simpl. eapply bitmap_ok_set; [apply HI | apply HK | |].
      * unfold woken_lists. rewrite lookup_insert_eq. intros [= E].
        by apply insert_sorted_nonempty in E.
      * intros i Hi Hne. unfold woken_lists. rewrite lookup_insert_ne by congruence.
        rewrite (remove_other s1 _ _ ls); [| done | done |].
        -- rewrite (remove_other s _ _ lp); [done | done | done |]. by intros <-.
        -- intros <-. simpl in Hsk. naive_solver.
  - simpl. by rewrite insert_insert_eq.
  - done.
  - simpl. by etrans.
  - simpl. intros q. rewrite Hl3, Hl2, Hl1. by repeat case_decide.
  - done.
Qed.

(** [dos_task_wake] makes any task ready: it leaves the pend list and the
    sleep or ready list it is in, its suspend and delay bits are cleared and the
    others kept, it is appended to the ready list of its priority, whose bit is
    set in the ready map; no other task, item or object changes, and the kernel
    invariant holds again. *)
Theorem wake_spec k A t c :
  kinv k A -> k_tcbs k !! t = Some c ->
  exists k', dos_task_wake t k = Done (tt, k') /\
    kinv k' (woken_lists (k_store k) t (priority c) A) /\
    k_tcbs k' = <[t := woken c]> (k_tcbs k) /\
    k_task k' = with_bitmap (Z.lor (dos_task_priority (k_task k)) (priority_bit (priority c)))
                  (k_task k) /\
    same_data (k_store k) (k_store k') /\
    (forall q, loc (k_store k') q =
       if decide (q = StatusItem t) then Some (PriorityList (priority c)) else
       if decide (q = PendItem t) then Some ListNull else loc (k_store k) q) /\
    same_rest k k'.
Proof.
  intros HI HT. destruct (wake_spec_lo _ _ _ _ _ HI HT) as (k' & Hrun & HI' & HT' & Hg' & H).
  exists k'. split_and!; try done; try apply H. unfold kinv. by rewrite Hg' in *.
Qed.

Lemma wake_spec_witness :
  exists k', dos_task_wake task_a demo_sem_wait = Done (tt, k') /\
    k_tcbs k' = <[task_a := woken (cb demo_sem_wait task_a)]> (k_tcbs demo_sem_wait).
Proof.
  destruct (wake_spec demo_sem_wait (lists_of demo_sem_wait) task_a (cb demo_sem_wait task_a))
    as (k' & Hrun & _ & HT & _); [by_check | by_eval |].
  exists k'. split; [exact Hrun | exact HT].
Defined.

(** ** Going to sleep *)

Definition asleep (c : dos_task_cb) : dos_task_cb :=
  DOS_SET_TASK_STATUS DOS_TASK_STATUS_DELAY (DOS_RESET_TASK_STATUS DOS_TASK_STATUS_READY c).

Lemma asleep_flags c :
  ready (asleep c) = false /\ delayed (asleep c) = true /\
  suspended (asleep c) = suspended c /\ timed_out (asleep c) = timed_out c /\
  priority (asleep c) = priority c.
Proof.
  unfold asleep. destruct (status_flags_set DOS_TASK_STATUS_DELAY
    (DOS_RESET_TASK_STATUS DOS_TASK_STATUS_READY c)) as (-> & -> & -> & ->).
  destruct (status_flags_reset DOS_TASK_STATUS_READY c) as (-> & -> & -> & ->). simpl.
  by rewrite !orb_false_r, !andb_false_r, !andb_true_r, orb_true_r.
Qed.

(** The list a wake-up time belongs in. *)
Definition sleep_dest (g : task_globals) (n : Z) : list_ptr :=
  if u32 (dos_tick_count g + n) <? dos_tick_count g
  then dos_task_sleep_overflow_list g else dos_task_sleep_list g.

Definition slept_lists (val : item_ptr -> Z) (t : Z) (dest : list_ptr)
    (A : gmap list_ptr (list item_ptr)) : gmap list_ptr (list item_ptr) :=
  let A1 := remove_item (StatusItem t) <$> A in
  <[dest := insert_sorted val (StatusItem t) (default [] (A1 !! dest))]> A1.

(** The globals after a task went to sleep for [n] ticks. *)
Definition sleep_globals (g : task_globals) (n m : Z) : task_globals :=
  let value := u32 (dos_tick_count g + n) in
  with_bitmap m
    (if value <? dos_tick_count g then g
     else if dos_next_wake_tick g >=? value then with_next_wake value g else g).

Lemma sleep_dest_sleep s g n lo : sleep_ok s g lo -> is_sleep_list (sleep_dest g n) = true.
Proof.
  intros H. destruct (sleep_lists_ok _ _ _ H) as (H1 & H2 & _). unfold sleep_dest. by case_match.
Qed.

Lemma sleep_globals_tick g n m : dos_tick_count (sleep_globals g n m) = dos_tick_count g.
Proof. unfold sleep_globals. by repeat case_match. Qed.

Lemma sleep_value_cases tick n :
  0 <= tick < 2 ^ 32 -> 0 < n < 2 ^ 32 ->
  (tick + n < 2 ^ 32 /\ u32 (tick + n) = tick + n) \/
  (2 ^ 32 <= tick + n /\ u32 (tick + n) = tick + n - 2 ^ 32 /\ u32 (tick + n) < tick).
Proof.
  intros Ht Hn. destruct (Z_lt_le_dec (tick + n) (2 ^ 32)).
  - left. split; [done|]. apply u32_small. lia.
  - right. assert (E : u32 (tick + n) = tick + n - 2 ^ 32).
    { unfold u32. symmetry. apply (Z.mod_unique _ _ 1); lia. }
    lia.
Qed.

Lemma sleep_globals_ok s s' g t n m :
  sleep_ok s g (dos_tick_count g) -> 0 < n < 2 ^ 32 ->
  (forall q, q <> StatusItem t -> loc s' q = loc s q /\ item_val s' q = item_val s q) ->
  loc s' (StatusItem t) = Some (sleep_dest g n) ->
  item_val s' (StatusItem t) = u32 (dos_tick_count g + n) ->
  sleep_ok s' (sleep_globals g n m) (dos_tick_count g).
Proof.
  intros [H1 H2 H3 H4 H5 H6] Hn Hq Hd Hv.
  assert (Hne : dos_task_sleep_list g <> dos_task_sleep_overflow_list g)
    by (destruct H1 as [[-> ->]|[-> ->]]; done).
  destruct (sleep_value_cases _ _ H2 Hn) as [[Hb E]|(Hb & E & Hlt)];
    unfold sleep_globals, sleep_dest in *.
  - assert ((u32 (dos_tick_count g + n) <? dos_tick_count g) = false) as Hf
      by (apply Z.ltb_ge; lia). rewrite Hf in *.
    set (g' := if dos_next_wake_tick g >=? _ then _ else _).
    assert (Hg : dos_task_sleep_list g' = dos_task_sleep_list g /\
      dos_task_sleep_overflow_list g' = dos_task_sleep_overflow_list g /\
      dos_tick_count g' = dos_tick_count g /\
      dos_next_wake_tick g' = Z.min (dos_next_wake_tick g) (dos_tick_count g + n)).
    { unfold g'. rewrite E. destruct (Z.geb_spec (dos_next_wake_tick g) (dos_tick_count g + n));
        simpl; split_and!; try done; lia. }
    destruct Hg as (G1 & G2 & G3 & G4).
    split; simpl; rewrite ?G1, ?G2, ?G3, ?G4; try done; try lia.
    + intros p Hp Hl. destruct (decide (p = StatusItem t)) as [->|Hpt]; [rewrite Hv; lia|].
      destruct (Hq p Hpt) as [Hl' Hv']. rewrite Hl' in Hl. rewrite Hv'.
      destruct (H5 p Hp Hl). lia.
    + intros p Hp Hl. destruct (decide (p = StatusItem t)) as [->|Hpt]; [congruence|].
      destruct (Hq p Hpt) as [Hl' Hv']. rewrite Hl' in Hl. rewrite Hv'. by apply H6.
  - assert ((u32 (dos_tick_count g + n) <? dos_tick_count g) = true) as Hf
      by (apply Z.ltb_lt; lia). rewrite Hf in *.
    split; simpl; try done.
    + intros p Hp Hl. destruct (decide (p = StatusItem t)) as [->|Hpt]; [congruence|].
      destruct (Hq p Hpt) as [Hl' Hv']. rewrite Hl' in Hl. rewrite Hv'. by apply H5.
    + intros p Hp Hl. destruct (decide (p = StatusItem t)) as [->|Hpt]; [rewrite Hv; lia|].
      destruct (Hq p Hpt) as [Hl' Hv']. rewrite Hl' in Hl. rewrite Hv'. by apply H6.
Qed.

(** Giving an item that is in no list a new value. *)
Lemma set_value_spec k A p v :
  store_rep (k_store k) A -> is_end p = false -> loc (k_store k) p = Some ListNull ->
  exists s', on_store (upd_item p (set_value v)) k = Done (tt, set_k_store s' k) /\
    store_rep s' A /\ (forall q, loc s' q = loc (k_store k) q) /\
    (forall q, fld dos_task s' q = fld dos_task (k_store k) q) /\
    dom (items s') = dom (items (k_store k)) /\
    item_val s' p = v /\ (forall q, q <> p -> item_val s' q = item_val (k_store k) q).
Proof.
  intros HS Hend Hfree. exists (alter_item p (set_value v) (k_store k)).
  assert (Hp : is_Some (items (k_store k) !! p)) by (eapply fld_is_some; eauto).
  split_and!.
  - apply on_store_run, upd_item_run. done.
  - by apply set_value_rep.
  - intros q. by apply fld_alter_same.
  - intros q. by apply fld_alter_same.
  - apply dom_alter_L.
  - unfold item_val. by rewrite (fld_alter_set dos_task_value _ _ v), decide_True.
  - intros q Hq. unfold item_val. by rewrite (fld_alter_set dos_task_value _ _ v), decide_False.
Qed.

(** A task that sleeps leaves the ready list and enters the list its wake-up
    time belongs in. *)
Lemma sleep_insert_spec k A c n :
  let t := dos_current_task (k_task k) in
  let dest := sleep_dest (k_task k) n in
  kinv k A -> k_tcbs k !! t = Some c -> t <> dos_idle_task (k_task k) -> 0 < n < 2 ^ 32 ->
  exists k' m, _dos_insert_task_sleep_list n k = Done (tt, k') /\
    kinv k' (slept_lists (item_val (k_store k')) t dest A) /\
    k_tcbs k' = <[t := asleep c]> (k_tcbs k) /\
    k_task k' = sleep_globals (k_task k) n m /\
    (forall q, loc (k_store k') q =
       if decide (q = StatusItem t) then Some dest else loc (k_store k) q) /\
    (forall q, item_val (k_store k') q =
       if decide (q = StatusItem t) then u32 (dos_tick_count (k_task k) + n)
       else item_val (k_store k) q) /\
    (forall q, fld dos_task (k_store k') q = fld dos_task (k_store k) q) /\
    same_rest k k'.
Proof.
  intros t dest HI HT Hidle Hn. pose proof (ti_task _ _ _ _ _ HI _ _ HT) as HK.
  pose proof (ti_store _ _ _ _ _ HI) as HS.
  destruct (tk_status _ _ _ HK) as (ls & Hls & Hsk).
  set (k1 := put_task t (asleep c) k).
  assert (HT1 : k_tcbs k1 !! t = Some (asleep c)) by apply lookup_insert_eq.
  destruct (remove_status_run k1 A t (asleep c) ls) as (s2 & m & Hrun2 & HS2 & Hsd2 & Hl2 & Hbm2);
    [done | done | apply HK | done | apply (ti_lists _ _ _ _ _ HI), HK | apply HI | |].
  { intros i ->. apply Hsk. }
  set (A2 := remove_item (StatusItem t) <$> A) in *.
  set (k2 := assign_dos_task_priority m (set_k_store s2 k1)).
  set (v := u32 (dos_tick_count (k_task k) + n)).
  destruct (set_value_spec k2 A2 (StatusItem t) v) as
    (s3 & Hrun3 & HS3 & Hl3 & Ht3 & Hd3 & Hv3 & Hvq3).
  { done. } { done. } { simpl. by rewrite Hl2, decide_True. }
  set (k3 := set_k_store s3 k2).
  assert (Hdest : is_Some (A2 !! dest)).
  { apply fmap_lookup_is_some, (ti_lists _ _ _ _ _ HI).
    pose proof (sleep_dest_sleep _ _ n _ (ti_sleep _ _ _ _ _ HI)) as Hsl.
    unfold dest. by destruct (sleep_dest (k_task k) n). }
  destruct Hdest as [xs HA2].
  assert (Hvmax : v <= DOS_UINT32_MAX) by (pose proof (u32_range (dos_tick_count (k_task k) + n)); unfold v, DOS_UINT32_MAX in *; lia).
  destruct (store_insert s3 A2 dest xs (StatusItem t)) as (s4 & Hrun4 & HS4 & Hsd4 & Hl4).
  { done. } { done. } { done. }
  { change (loc s3 (StatusItem t) = Some ListNull). rewrite Hl3. simpl.
    by rewrite Hl2, decide_True. }
  { by rewrite Hv3. }
  assert (Hl : forall q, loc s4 q =
            if decide (q = StatusItem t) then Some dest else loc (k_store k) q).
  { intros q. unfold loc in *. rewrite Hl4. case_decide; [done|]. rewrite Hl3. simpl.
    by rewrite Hl2, decide_False. }
  assert (Hv : forall q, item_val s4 q =
            if decide (q = StatusItem t) then v else item_val (k_store k) q).
  { intros q. rewrite (item_val_same _ _ _ Hsd4). case_decide as E; [by rewrite E|].
    rewrite Hvq3 by done. by apply item_val_same. }
  assert (Ht : forall q, fld dos_task s4 q = fld dos_task (k_store k) q).
  { intros q. rewrite (sd_task _ _ Hsd4), Ht3. apply Hsd2. }
  exists (set_k_task (sleep_globals (k_task k) n m) (set_k_store s4 k1)), m.
  split; [|split_and!; try done].
  - unfold _dos_insert_task_sleep_list. kstep.
    fold t. destruct (Z.eqb_spec (dos_idle_task (k_task k)) t); [congruence|].
    run_by ltac:(apply upd_task_run; exact HT).
    run_by ltac:(apply upd_task_run; apply lookup_insert_eq). rewrite put_task_twice.
    run_with Hrun2. fold k2. kstep. run_with Hrun3.
    change (dos_tick_count (k_task k2)) with (dos_tick_count (k_task k)). fold v.
    unfold dest, sleep_dest in Hrun4. unfold sleep_globals. fold v in Hrun4 |- *.
    destruct (v <? dos_tick_count (k_task k)).
    + kstep. by apply (on_store_run _ k3).
    + kstep. run_by ltac:(apply (on_store_run _ k3); exact Hrun4). kstep. simpl.
      by destruct (dos_next_wake_tick (k_task k) >=? v).
  - destruct (asleep_flags c) as (F1 & F2 & F3 & F4 & F5).
    assert (Hpend : exists l, loc s4 (PendItem t) = Some l /\ pend_ok l (asleep c)).
    { destruct (tk_pend _ _ _ HK) as (l & Hl' & Hok). exists l. rewrite Hl. split; [done|].
      destruct l; simpl in *; by rewrite ?F3. }
    pose proof (sleep_dest_sleep _ _ n _ (ti_sleep _ _ _ _ _ HI)) as Hsl.
    eapply (tinv_task _ _ (k_task k) A); simpl; try done.
    + unfold slept_lists. fold A2. rewrite HA2. simpl.
      rewrite (insert_sorted_ext _ (item_val s3)); [done|].
      intros q _. by apply item_val_same.
    + intros l Hl'. by apply insert_lookup_is_some, fmap_lookup_is_some.
    + rewrite (sd_dom _ _ Hsd4), Hd3. apply Hsd2.
    + intros q Hq _. by rewrite Hl, decide_False.
    + intros q Hq. by rewrite Hv, decide_False.
    + rewrite Hv, decide_True by done. pose proof (u32_range (dos_tick_count (k_task k) + n)).
      fold v in H. lia.
    + apply HK.
    + exists dest. rewrite Hl, decide_True by done. split; [done|].
      fold dest in Hsl. by destruct dest.
    + apply (bitmap_ok_ext _ A2); [done|]. intros i Hi. unfold slept_lists.
      rewrite lookup_insert_ne; [done|]. intros E. fold dest in Hsl. by rewrite E in Hsl.
    + change (sleep_ok s4 (sleep_globals (k_task k) n m)
        (dos_tick_count (sleep_globals (k_task k) n m))). rewrite sleep_globals_tick.
      eapply (sleep_globals_ok _ _ _ t); [apply HI | done | | |].
      * intros q Hq. by rewrite Hl, Hv, !decide_False.
      * by rewrite Hl, decide_True.
      * by rewrite Hv, decide_True.
    + unfold sleep_globals. by repeat case_match.
    + unfold sleep_globals. by repeat case_match.
Qed.

(** ** Waiting for a kernel object *)

Definition is_pend_list (l : list_ptr) : bool :=
  match l with
  | SemPendList _ | MutexPendList _ | QueuePendList _ _ | EventPendList _ => true
  | _ => false
  end.

Lemma set_suspend_flags c :
  let c' := DOS_SET_TASK_STATUS DOS_TASK_STATUS_SUSPEND c in
  ready c' = ready c /\ delayed c' = delayed c /\ suspended c' = true /\
  timed_out c' = timed_out c /\ priority c' = priority c.
Proof.
  cbv zeta. destruct (status_flags_set DOS_TASK_STATUS_SUSPEND c) as (-> & -> & -> & ->). simpl.
  by rewrite !orb_false_r, orb_true_r.
Qed.

Lemma reset_ready_flags c :
  let c' := DOS_RESET_TASK_STATUS DOS_TASK_STATUS_READY c in
  ready c' = false /\ delayed c' = delayed c /\ suspended c' = suspended c /\
  timed_out c' = timed_out c /\ priority c' = priority c.
Proof.
  cbv zeta. destruct (status_flags_reset DOS_TASK_STATUS_READY c) as (-> & -> & -> & ->). simpl.
  by rewrite !andb_false_r, !andb_true_r.
Qed.

(** A task's status and priority may change as long as its list stays right. *)
Lemma status_ok_ext l c c' :
  status_ok l c -> ready c' = ready c -> delayed c' = delayed c -> priority c' = priority c ->
  status_ok l c'.
Proof. intros H E1 E2 E3. destruct l; simpl in *; by rewrite ?E1, ?E2, ?E3. Qed.

Lemma pend_ok_ext l c c' : pend_ok l c -> suspended c' = suspended c -> pend_ok l c'.
Proof. intros H E. destruct l; simpl in *; by rewrite ?E. Qed.

Lemma pend_insert_spec k A t c l xs :
  kinv k A -> k_tcbs k !! t = Some c -> loc (k_store k) (PendItem t) = Some ListNull ->
  A !! l = Some xs -> is_pend_list l = true ->
  let c' := DOS_SET_TASK_STATUS DOS_TASK_STATUS_SUSPEND c in
  exists s', on_store (dos_task_item_insert l (PendItem t)) (put_task t c' k) =
      Done (tt, set_k_store s' (put_task t c' k)) /\
    kinv (set_k_store s' (put_task t c' k))
      (<[l := insert_sorted (item_val (k_store k)) (PendItem t) xs]> A) /\
    same_data (k_store k) s' /\
    (forall q, loc s' q = if decide (q = PendItem t) then Some l else loc (k_store k) q).
Proof.
  intros HI HT Hfree HA Hl c'. pose proof (ti_task _ _ _ _ _ HI _ _ HT) as HK.
  destruct (set_suspend_flags c) as (F1 & F2 & F3 & F4 & F5). fold c' in F1, F2, F3, F4, F5.
  destruct (store_insert (k_store k) A l xs (PendItem t)) as (s' & Hrun & HS' & Hsd & Hloc);
    [exact (ti_store _ _ _ _ _ HI) | exact HA | done | exact Hfree | apply (tk_pend_val _ _ _ HK)|].
  exists s'. split; [by apply (on_store_run _ (put_task t c' k))|]. split; [|done].
  destruct (tk_status _ _ _ HK) as (ls & Hls & Hsk).
  eapply (tinv_moved _ _ (k_task k) A _ _ _ t c c' ls l); simpl; try done.
  - intros. by apply insert_lookup_is_some.
  - intros q _ Hq. unfold loc. by rewrite Hloc, decide_False.
  - unfold loc. by rewrite Hloc, decide_False.
  - by eapply status_ok_ext.
  - unfold loc. by rewrite Hloc, decide_True.
  - by destruct l.
  - apply HK.
  - apply with_bitmap_id.
  - eapply bitmap_ok_ext; [apply HI|]. intros i Hi. rewrite lookup_insert_ne; [done|].
    by intros ->.
  - intros E. rewrite F1. destruct (ti_idle _ _ _ _ _ HI) as (ci & Hci & Hr). congruence.
Qed.

(** A ready task leaves the ready lists. *)
Lemma unready_spec k A t c :
  kinv k A -> k_tcbs k !! t = Some c -> t <> dos_idle_task (k_task k) -> delayed c = false ->
  let c' := DOS_RESET_TASK_STATUS DOS_TASK_STATUS_READY c in
  exists s' m, remove_from_status_list t (put_task t c' k) =
      Done (tt, assign_dos_task_priority m (set_k_store s' (put_task t c' k))) /\
    kinv (assign_dos_task_priority m (set_k_store s' (put_task t c' k)))
      (remove_item (StatusItem t) <$> A) /\
    same_data (k_store k) s' /\
    (forall q, loc s' q = if decide (q = StatusItem t) then Some ListNull else loc (k_store k) q).
Proof.
  intros HI HT Hidle Hnd c'. pose proof (ti_task _ _ _ _ _ HI _ _ HT) as HK.
  destruct (reset_ready_flags c) as (F1 & F2 & F3 & F4 & F5). fold c' in F1, F2, F3, F4, F5.
  destruct (tk_status _ _ _ HK) as (ls & Hls & Hsk).
  destruct (remove_status_run (put_task t c' k) A t c' ls)
    as (s' & m & Hrun & HS' & Hsd & Hloc & Hbm);
    [apply HI | apply lookup_insert_eq | apply HK | done | apply (ti_lists _ _ _ _ _ HI), HK
    | apply HI | intros i ->; apply Hsk |].
  exists s', m. split; [done|]. split; [|done].
  destruct (tk_pend _ _ _ HK) as (lp & Hlp & Hpk).
  eapply (tinv_moved _ _ (k_task k) A _ _ _ t c c' ListNull lp); simpl; try done.
  - intros. by apply fmap_lookup_is_some.
  - intros q Hq _. by rewrite Hloc, decide_False.
  - by rewrite Hloc, decide_True.
  - by rewrite F2.
  - by rewrite Hloc, decide_False.
  - by eapply pend_ok_ext.
  - apply HK.
Qed.

Definition waiting (timeout : Z) (c : dos_task_cb) : dos_task_cb :=
  let c' := DOS_SET_TASK_STATUS DOS_TASK_STATUS_SUSPEND c in
  if timeout =? DOS_WAIT_FOREVER then DOS_RESET_TASK_STATUS DOS_TASK_STATUS_READY c' else asleep c'.

Lemma waiting_flags timeout c :
  ready (waiting timeout c) = false /\ suspended (waiting timeout c) = true /\
  timed_out (waiting timeout c) = timed_out c /\ priority (waiting timeout c) = priority c.
Proof.
  unfold waiting. destruct (set_suspend_flags c) as (F1 & F2 & F3 & F4 & F5).
  set (c' := DOS_SET_TASK_STATUS DOS_TASK_STATUS_SUSPEND c) in *. case_match.
  - destruct (reset_ready_flags c') as (G1 & G2 & G3 & G4 & G5). split_and!; congruence.
  - destruct (asleep_flags c') as (G1 & G2 & G3 & G4 & G5). split_and!; congruence.
Qed.

(** What a change of the status lists leaves alone. *)
Record same_times (g g' : task_globals) : Prop := {
  st_sleep : dos_task_sleep_list g' = dos_task_sleep_list g;
  st_overflow : dos_task_sleep_overflow_list g' = dos_task_sleep_overflow_list g;
  st_current : dos_current_task g' = dos_current_task g;
  st_idle : dos_idle_task g' = dos_idle_task g;
  st_tick : dos_tick_count g' = dos_tick_count g
}.

Lemma sleep_globals_times g n m : same_times g (sleep_globals g n m).
Proof. unfold sleep_globals. repeat case_match; done. Qed.

Lemma remove_status_pend s A t l :
  store_rep s A -> (exists ls, loc s (StatusItem t) = Some ls /\ is_pend_list ls = false) ->
  is_pend_list l = true -> (remove_item (StatusItem t) <$> A) !! l = A !! l.
Proof. intros HS (ls & Hls & Hp) Hl. eapply remove_other; [done..|]. congruence. Qed.

Lemma status_not_pend l c : status_ok l c -> is_pend_list l = false.
Proof. by destruct l. Qed.

(** [dos_task_wait]: the current task is in the pend list, in the order of its
    priority, is not ready, and sleeps unless it waits forever. *)
Lemma wait_spec k A c l xs timeout :
  let t := dos_current_task (k_task k) in
  kinv k A -> k_tcbs k !! t = Some c -> t <> dos_idle_task (k_task k) -> ready c = true ->
  loc (k_store k) (PendItem t) = Some ListNull ->
  A !! l = Some xs -> is_pend_list l = true -> 0 < timeout < 2 ^ 32 ->
  exists k' A', dos_task_wait l timeout k = Done (tt, k') /\ kinv k' A' /\
    A' !! l = Some (insert_sorted (item_val (k_store k)) (PendItem t) xs) /\
    (forall l', is_pend_list l' = true -> l' <> l -> A' !! l' = A !! l') /\
    k_tcbs k' = <[t := waiting timeout c]> (k_tcbs k) /\
    (forall q, q <> StatusItem t -> item_val (k_store k') q = item_val (k_store k) q) /\
    (forall q, q <> StatusItem t -> loc (k_store k') q =
       if decide (q = PendItem t) then Some l else loc (k_store k) q) /\
    (timeout <> DOS_WAIT_FOREVER ->
       loc (k_store k') (StatusItem t) = Some (sleep_dest (k_task k) timeout) /\
       item_val (k_store k') (StatusItem t) = u32 (dos_tick_count (k_task k) + timeout)) /\
    (forall q, fld dos_task (k_store k') q = fld dos_task (k_store k) q) /\
    same_times (k_task k) (k_task k') /\ same_rest k k'.
Proof.
  intros t HI HT Hidle Hready Hfree HA Hl Hto.
  destruct (pend_insert_spec k A t c l xs HI HT Hfree HA Hl) as (s1 & Hrun1 & HI1 & Hsd1 & Hl1).
  set (c1 := DOS_SET_TASK_STATUS DOS_TASK_STATUS_SUSPEND c) in *.
  set (k1 := set_k_store s1 (put_task t c1 k)) in *.
  set (A1 := <[l := _]> A) in *.
  assert (HT1 : k_tcbs k1 !! t = Some c1) by apply lookup_insert_eq.
  destruct (tk_status _ _ _ (ti_task _ _ _ _ _ HI1 _ _ HT1)) as (ls & Hls & Hsk).
  assert (Hout : forall l', is_pend_list l' = true ->
            (remove_item (StatusItem t) <$> A1) !! l' = A1 !! l').
  { intros l' Hl'. eapply remove_status_pend; [apply (ti_store _ _ _ _ _ HI1) | | done].
    exists ls. split; [done|]. by eapply status_not_pend. }
  assert (HA1 : A1 !! l = Some (insert_sorted (item_val (k_store k)) (PendItem t) xs) /\
    forall l', is_pend_list l' = true -> l' <> l -> A1 !! l' = A !! l').
  { unfold A1. rewrite lookup_insert_eq. split; [done|]. intros. by rewrite lookup_insert_ne. }
  destruct HA1 as [HA1 HA1'].
  assert (Hv1 : forall q, item_val s1 q = item_val (k_store k) q)
    by (intros; by apply item_val_same).
  destruct (Z.eqb_spec timeout DOS_WAIT_FOREVER) as [Hf|Hf].
  - destruct (unready_spec k1 A1 t c1) as (s2 & m & Hrun2 & HI2 & Hsd2 & Hl2); [done..| |].
    { destruct (tk_status _ _ _ (ti_task _ _ _ _ _ HI _ _ HT)) as (l0 & Hl0 & Hs0).
      destruct (set_suspend_flags c) as (_ & F2 & _). fold c1 in F2. rewrite F2.
      clear -Hs0 Hready. destruct l0; simpl in Hs0; naive_solver congruence. }
    eexists _, _. split; [|split; [exact HI2|]].
    { unfold dos_task_wait. kstep. run_by ltac:(apply upd_task_run; exact HT).
      run_with Hrun1. fold k1. rewrite (proj2 (Z.eqb_eq _ _) Hf). cbn [negb].
      run_by ltac:(apply upd_task_run; exact HT1). exact Hrun2. }
    split_and!; simpl; try done.
    + by rewrite Hout.
    + intros l' Hl' Hne. rewrite Hout by done. by apply HA1'.
    + unfold waiting. rewrite (proj2 (Z.eqb_eq _ _) Hf). by rewrite insert_insert_eq.
    + intros q _. rewrite (item_val_same _ _ _ Hsd2). apply Hv1.
    + intros q Hq. rewrite Hl2, decide_False by done. apply Hl1.
    + intros q. rewrite (sd_task _ _ Hsd2). apply (sd_task _ _ Hsd1).
  - destruct (sleep_insert_spec k1 A1 c1 timeout)
      as (k2 & m & Hrun2 & HI2 & HT2 & Hg2 & Hl2 & Hv2 & Hd2 & Hr2); [done..|].
    change (dos_current_task (k_task k1)) with t in *. change (k_task k1) with (k_task k) in *.
    eexists _, _. split; [|split; [exact HI2|]].
    { unfold dos_task_wait. kstep. run_by ltac:(apply upd_task_run; exact HT).
      run_with Hrun1. fold k1. rewrite (proj2 (Z.eqb_neq _ _) Hf). cbn [negb].
      exact Hrun2. }
    pose proof (sleep_dest_sleep _ _ timeout _ (ti_sleep _ _ _ _ _ HI)) as Hsl.
    split_and!.
    + unfold slept_lists. rewrite lookup_insert_ne, Hout; [done | done |]. intros E. rewrite E in Hsl. by destruct l.
    + intros l' Hl' Hne. unfold slept_lists. rewrite lookup_insert_ne, Hout; [by apply HA1' | done |].
      intros E. rewrite E in Hsl. by destruct l'.
    + rewrite HT2. unfold waiting. rewrite (proj2 (Z.eqb_neq _ _) Hf). simpl. by rewrite insert_insert_eq.
    + intros q Hq. rewrite Hv2, decide_False by done. apply Hv1.
    + intros q Hq. rewrite Hl2, decide_False by done. apply Hl1.
    + intros _. by rewrite Hl2, Hv2, !decide_True.
    + intros q. rewrite Hd2. apply (sd_task _ _ Hsd1).
    + rewrite Hg2. apply sleep_globals_times.
    + etrans; [|exact Hr2]. done.
Qed.

(** ** Changing a priority *)

Definition reprioritised (prio : Z) (c : dos_task_cb) : dos_task_cb :=
  if ready c
  then DOS_SET_TASK_STATUS DOS_TASK_STATUS_READY
         (set_prio prio (DOS_RESET_TASK_STATUS DOS_TASK_STATUS_READY c))
  else set_prio prio c.

Lemma reprioritised_flags prio c :
  ready (reprioritised prio c) = ready c /\ delayed (reprioritised prio c) = delayed c /\
  suspended (reprioritised prio c) = suspended c /\
  timed_out (reprioritised prio c) = timed_out c /\ priority (reprioritised prio c) = prio.
Proof.
  unfold reprioritised. destruct (ready c) eqn:E; [|done].
  set (c1 := set_prio _ _).
  destruct (status_flags_set DOS_TASK_STATUS_READY c1) as (-> & -> & -> & ->).
  destruct (reset_ready_flags c) as (_ & F2 & F3 & F4 & _). simpl in *.
  change (delayed c1) with (delayed (DOS_RESET_TASK_STATUS DOS_TASK_STATUS_READY c)).
  change (suspended c1) with (suspended (DOS_RESET_TASK_STATUS DOS_TASK_STATUS_READY c)).
  change (timed_out c1) with (timed_out (DOS_RESET_TASK_STATUS DOS_TASK_STATUS_READY c)).
  by rewrite F2, F3, F4, orb_true_r, !orb_false_r.
Qed.

(** A change of a control block that keeps the task where it is. *)
Lemma tinv_put_task k A lo t c c' :
  tinv_at k A lo -> k_tcbs k !! t = Some c -> 0 <= priority c' < 32 ->
  ready c' = ready c -> delayed c' = delayed c -> suspended c' = suspended c ->
  (ready c = true -> priority c' = priority c) ->
  tinv_at (put_task t c' k) A lo.
Proof.
  intros HI HT Hp F1 F2 F3 F4. pose proof (ti_task _ _ _ _ _ HI _ _ HT) as HK.
  destruct (tk_status _ _ _ HK) as (ls & Hls & Hsk).
  destruct (tk_pend _ _ _ HK) as (lp & Hlp & Hpk).
  eapply (tinv_task _ _ (k_task k) A); simpl; try done.
  - apply (ti_store _ _ _ _ _ HI).
  - apply HK.
  - exists ls. split; [done|]. clear -F1 F2 F4 Hsk.
    destruct ls; simpl in *; rewrite ?F1, ?F2; naive_solver.
  - exists lp. split; [done|]. by eapply pend_ok_ext.
  - apply (ti_bitmap _ _ _ _ _ HI).
  - apply (ti_sleep _ _ _ _ _ HI).
  - intros E. rewrite F1. destruct (ti_idle _ _ _ _ _ HI) as (ci & Hci & Hr). congruence.
Qed.

Lemma set_priority_spec k A t c prio :
  kinv k A -> k_tcbs k !! t = Some c -> 0 <= prio < 32 ->
  exists k' A', dos_set_task_priority t prio k = Done (tt, k') /\ kinv k' A' /\
    (forall l, is_pend_list l = true -> A' !! l = A !! l) /\
    k_tcbs k' = <[t := reprioritised prio c]> (k_tcbs k) /\
    same_data (k_store k) (k_store k') /\
    (forall q, q <> StatusItem t -> loc (k_store k') q = loc (k_store k) q) /\
    same_times (k_task k) (k_task k') /\ same_rest k k'.
Proof.
  intros HI HT Hp. pose proof (ti_task _ _ _ _ _ HI _ _ HT) as HK.
  destruct (reprioritised_flags prio c) as (F1 & F2 & F3 & F4 & F5).
  unfold dos_set_task_priority.
  destruct (ready c) eqn:Hr.
  - destruct (tk_status _ _ _ HK) as (ls & Hls & Hsk).
    assert (ls = PriorityList (priority c) /\ delayed c = false) as [-> Hnd].
    { clear -Hsk Hr. destruct ls; simpl in Hsk; naive_solver congruence. }
    destruct (remove_status_run k A t c (PriorityList (priority c)))
      as (s1 & m & Hrun1 & HS1 & Hsd1 & Hl1 & Hbm1);
      [apply (ti_store _ _ _ _ _ HI) | done | apply HK | done
      | apply (ti_lists _ _ _ _ _ HI), HK | apply HI | by intros i [= ->] |].
    set (A1 := remove_item (StatusItem t) <$> A) in *.
    set (c1 := set_prio prio (DOS_RESET_TASK_STATUS DOS_TASK_STATUS_READY c)).
    set (k1 := put_task t c1 (assign_dos_task_priority m (set_k_store s1 k))).
    destruct (ti_lists _ _ _ _ _ HI (PriorityList prio) Hp) as [xs0 HA0].
    assert (HA1 : A1 !! PriorityList prio = Some (remove_item (StatusItem t) xs0))
      by (unfold A1; by rewrite lookup_fmap, HA0).
    destruct (insert_ready_run k1 A1 t c1 (remove_item (StatusItem t) xs0) HS1) as (s2 & Hrun2 & HS2 & Hsd2 & Hl2).
    { apply lookup_insert_eq. } { simpl. by rewrite Hl1, decide_True. }
    { simpl. rewrite (item_val_same _ _ _ Hsd1). apply HK. } { exact HA1. }
    assert (Hsd : same_data (k_store k) s2) by (etrans; done).
    assert (Hl : forall q, q <> StatusItem t -> loc s2 q = loc (k_store k) q).
    { intros q Hq. rewrite Hl2, decide_False by done. simpl. by rewrite Hl1, decide_False. }
    assert (Hst : loc s2 (StatusItem t) = Some (PriorityList prio))
      by (by rewrite Hl2, decide_True).
    change (priority c1) with prio in *. change (k_store k1) with s1 in *.
    eexists _, _. split; [|split; [|split_and!]].
    + run_by ltac:(apply task_at_run; exact HT). fold (ready c). rewrite Hr.
      run_with Hrun1. run_by ltac:(apply upd_task_run; exact HT).
      run_by ltac:(apply upd_task_run; apply lookup_insert_eq). rewrite put_task_twice.
      exact Hrun2.
    + destruct (tk_pend _ _ _ HK) as (lp & Hlp & Hpk).
      unfold kinv. simpl. rewrite insert_insert_eq.
      replace (DOS_SET_TASK_STATUS DOS_TASK_STATUS_READY c1) with (reprioritised prio c)
        by (unfold reprioritised; by rewrite Hr).
      eapply (tinv_moved _ _ (k_task k) A _ _ _ t c _ (PriorityList prio) lp); simpl; try done.
      * intros l Hl'. by apply insert_lookup_is_some, fmap_lookup_is_some.
      * intros q Hq _. by apply Hl.
      * by rewrite F1, F2, F5.
      * by rewrite Hl.
      * by eapply pend_ok_ext.
      * by rewrite F5.
      * eapply bitmap_ok_set; [exact Hbm1 | done | |].
        -- rewrite lookup_insert_eq. intros [= E]. by apply insert_sorted_nonempty in E.
        -- intros i Hi Hne. by rewrite lookup_insert_ne by congruence.
    + intros l Hpl. rewrite lookup_insert_ne by (by intros <-).
      eapply remove_other; [apply (ti_store _ _ _ _ _ HI) | done |]. by intros ->.
    + simpl. rewrite insert_insert_eq. unfold reprioritised. by rewrite Hr.
    + done.
    + done.
    + done.
    + done.
  - eexists _, A. split; [|split].
    + run_by ltac:(apply task_at_run; exact HT). fold (ready c). rewrite Hr. apply upd_task_run. exact HT.
    + eapply tinv_put_task; [done.. |]. by rewrite Hr.
    + split_and!; try done. simpl. unfold reprioritised. by rewrite Hr.
Qed.

(** ** Choosing the next task *)

(** [p] is the highest priority (the smallest number) with a ready task. *)
Definition top_priority (A : gmap list_ptr (list item_ptr)) (p : Z) : Prop :=
  0 <= p < 32 /\ A !! PriorityList p <> Some [] /\
  forall i, 0 <= i < p -> A !! PriorityList i = Some [].

Lemma ready_in_list k A t c :
  kinv k A -> k_tcbs k !! t = Some c -> ready c = true ->
  exists xs, A !! PriorityList (priority c) = Some xs /\ StatusItem t ∈ xs.
Proof.
  intros HI HT Hr. destruct (tk_status _ _ _ (ti_task _ _ _ _ _ HI _ _ HT)) as (l & Hl & Hs).
  apply (loc_in _ _ _ _ (ti_store _ _ _ _ _ HI)); [done..|].
  rewrite Hl. f_equal. clear -Hs Hr. destruct l; simpl in Hs; naive_solver congruence.
Qed.

(** The items of a ready list are the status items of ready tasks. *)
Lemma in_ready_list k A p xs q :
  kinv k A -> A !! PriorityList p = Some xs -> q ∈ xs ->
  exists t c, q = StatusItem t /\ task_of (k_store k) q = t /\ k_tcbs k !! t = Some c /\
    ready c = true /\ priority c = p.
Proof.
  intros HI HA Hq. destruct (store_rep_in _ _ _ _ _ (ti_store _ _ _ _ _ HI) HA Hq) as [Hend Hl].
  destruct (ti_items _ _ _ _ _ HI q Hend) as [c HT].
  { unfold fld in Hl. destruct (items (k_store k) !! q); [eauto | done]. }
  pose proof (ti_task _ _ _ _ _ HI _ _ HT) as HK. destruct q as [l|t|t]; [done| |]; simpl in HT, HK.
  - exists t, c. destruct (tk_status _ _ _ HK) as (l & Hl' & Hs).
    unfold loc in Hl'. rewrite Hl in Hl'. simplify_eq. simpl in Hs.
    unfold task_of. rewrite (tk_status_item _ _ _ HK). naive_solver.
  - destruct (tk_pend _ _ _ HK) as (l & Hl' & Hs). unfold loc in Hl'.
    rewrite Hl in Hl'. by simplify_eq.
Qed.

Lemma top_priority_highest k A :
  kinv k A -> top_priority A (_dos_get_highest_priority (dos_task_priority (k_task k))).
Proof.
  intros HI. destruct (ti_bitmap _ _ _ _ _ HI) as [Hm Hbit].
  destruct (ti_idle _ _ _ _ _ HI) as (ci & Hci & Hr).
  destruct (ready_in_list _ _ _ _ HI Hci Hr) as (xs & HA & Hin).
  pose proof (tk_priority _ _ _ (ti_task _ _ _ _ _ HI _ _ Hci)) as Hp.
  assert (Hne : dos_task_priority (k_task k) <> 0).
  { intros E. assert (Hb : Z.testbit (dos_task_priority (k_task k)) (priority ci) = true).
    { apply Hbit; [done|]. rewrite HA. intros [= ->]. by apply elem_of_nil in Hin. }
    by rewrite E, Z.testbit_0_l in Hb. }
  pose proof (highest_priority_range _ Hm) as Hrange.
  destruct (highest_priority_spec (dos_task_priority (k_task k)) ltac:(lia)) as (H0 & H1 & H2).
  split_and!; try lia.
  - by apply Hbit.
  - intros i Hi. destruct (decide (A !! PriorityList i = Some [])) as [|Hn]; [done|].
    apply Hbit in Hn; [|lia]. by rewrite H2 in Hn.
Qed.

(** No ready task beats the top priority. *)
Lemma top_priority_le k A p t c :
  kinv k A -> top_priority A p -> k_tcbs k !! t = Some c -> ready c = true -> p <= priority c.
Proof.
  intros HI (Hp & _ & Hlow) HT Hr. destruct (ready_in_list _ _ _ _ HI HT Hr) as (xs & HA & Hin).
  destruct (Z_lt_le_dec (priority c) p) as [Hlt|]; [|done].
  pose proof (tk_priority _ _ _ (ti_task _ _ _ _ _ HI _ _ HT)).
  rewrite Hlow in HA by lia. simplify_eq. by apply elem_of_nil in Hin.
Qed.

(** The time slice of the current task, [n] being the number of tasks that are
    ready at its priority. *)
Definition slice_expired (n : Z) (c : dos_task_cb) : bool :=
  (n >? 1) && (u32 (task_tick c - 1) =? 0).

Definition sliced (n : Z) (c : dos_task_cb) : dos_task_cb :=
  if n >? 1 then
    if u32 (task_tick c - 1) =? 0 then set_task_tick (task_init_tick c) c
    else set_task_tick (u32 (task_tick c - 1)) c
  else c.

Definition with_cur_priority (p : Z) (g : task_globals) : task_globals :=
  mk_globals (dos_task_priority g) (dos_task_sleep_list g) (dos_task_sleep_overflow_list g)
    (dos_next_wake_tick g) (dos_current_task g) (dos_idle_task g) (dos_tick_count g) p.

Lemma check_priority_run k A lo c xs :
  let p := _dos_get_highest_priority (dos_task_priority (k_task k)) in
  let n := Z.of_nat (length xs) in
  tinv_at k A lo -> k_tcbs k !! dos_current_task (k_task k) = Some c ->
  A !! PriorityList (priority c) = Some xs ->
  dos_check_task_priority k =
    Done ((p <? priority c) || negb (ready c) || slice_expired n c,
      set_k_tcbs
        (if (p <? priority c) || negb (ready c) then k_tcbs k
         else <[dos_current_task (k_task k) := sliced n c]> (k_tcbs k))
        (set_k_task (with_cur_priority p (k_task k)) k)).
Proof.
  intros p n HI HT HA. unfold dos_check_task_priority. kstep.
  change (assign_dos_cur_priority _ k) with (set_k_task (with_cur_priority p (k_task k)) k).
  simpl dos_cur_priority. simpl dos_current_task.
  set (k1 := set_k_task _ k). set (t := dos_current_task (k_task k)) in *.
  run_by ltac:(apply task_at_run; exact HT). fold (ready c).
  destruct ((p <? priority c) || negb (ready c)); [done|].
  run_by ltac:(apply on_store_run; exact (list_value_run _ _ _ _ (ti_store _ _ _ _ _ HI) HA)).
  fold n. unfold slice_expired, sliced. destruct (n >? 1); simpl orb.
  - run_by ltac:(apply upd_task_run; exact HT).
    destruct (u32 (task_tick c - 1) =? 0); [|done].
    run_by ltac:(apply upd_task_run; apply lookup_insert_eq). by rewrite put_task_twice.
  - unfold mret, prog_ret. do 2 f_equal. rewrite insert_id by done. by destruct k.
Qed.

(** Whether the scheduler acts at all. *)
Definition sched_enabled (k : kernel) : bool :=
  (dos_interrupt_count (k_sys k) =? 0) && (dos_scheduler_lock_count (k_sys k) =? 0) &&
  (dos_system_is_run (k_sys k) =? DOS_YES).

(** What a pass of the scheduler may change: the time slice of the current
    task, [dos_cur_priority] and the pending bit of the context switch. *)
Record rescheduled (k k' : kernel) : Prop := {
  rs_store : k_store k' = k_store k;
  rs_tcbs : exists c, k_tcbs k !! dos_current_task (k_task k) = Some c /\ exists n,
    k_tcbs k' = <[dos_current_task (k_task k) := set_task_tick n c]> (k_tcbs k);
  rs_task : exists p, k_task k' = with_cur_priority p (k_task k);
  rs_sys : k_sys k' = k_sys k;
  rs_cpu : exists b, k_cpu k' = mk_cpu (primask (k_cpu k)) (ipsr (k_cpu k)) b;
  rs_heap : k_heap k' = k_heap k;
  rs_sems : k_sems k' = k_sems k;
  rs_mutexes : k_mutexes k' = k_mutexes k;
  rs_queues : k_queues k' = k_queues k;
  rs_events : k_events k' = k_events k;
  rs_swtmr : k_swtmr k' = k_swtmr k;
  rs_swtmrs : k_swtmrs k' = k_swtmrs k;
  rs_memps : k_memps k' = k_memps k;
  rs_memp_nodes : k_memp_nodes k' = k_memp_nodes k;
  rs_fifos : k_fifos k' = k_fifos k;
  rs_pendsv : sched_enabled k = false -> pendsv (k_cpu k') = pendsv (k_cpu k)
}.

Lemma set_task_tick_id c : set_task_tick (task_tick c) c = c.
Proof. by destruct c. Qed.

Lemma sliced_tick n c : exists v, sliced n c = set_task_tick v c.
Proof.
  unfold sliced. repeat case_match; eauto. exists (task_tick c). by rewrite set_task_tick_id.
Qed.

Lemma rescheduled_tinv k k' A lo : tinv_at k A lo -> rescheduled k k' -> tinv_at k' A lo.
Proof.
  intros HI [Hs (c & HT & n & Ht) [p Hg] _ _ _ _ _ _ _ _ _ _ _ _ _]. rewrite Hs, Ht, Hg.
  pose proof (tinv_put_task k A lo _ c (set_task_tick n c) HI HT) as HP.
  destruct HP as [P1 P2 P3 P4 P5 P6 P7 P8];
    [apply (tk_priority _ _ _ (ti_task _ _ _ _ _ HI _ _ HT)) | done.. |].
  split; try done. by apply (sleep_ok_ext _ (k_task k)).
Qed.

Lemma rescheduled_kinv k k' A : kinv k A -> rescheduled k k' -> kinv k' A.
Proof.
  intros HI Hr. unfold kinv. destruct (rs_task _ _ Hr) as [p Hg].
  replace (dos_tick_count (k_task k')) with (dos_tick_count (k_task k)) by (by rewrite Hg).
  by eapply rescheduled_tinv.
Qed.

Lemma rescheduled_refl k :
  is_Some (k_tcbs k !! dos_current_task (k_task k)) -> rescheduled k k.
Proof.
  intros [c HT]. split; try done.
  - exists c. split; [done|]. exists (task_tick c). by rewrite set_task_tick_id, insert_id.
  - exists (dos_cur_priority (k_task k)). by destruct k as [? ? [] ? ? ? ? ? ? ? ? ? ? ? ?].
  - exists (pendsv (k_cpu k)). by destruct k as [? ? ? ? [] ? ? ? ? ? ? ? ? ? ?].
Qed.

(** [dos_scheduler] requests a context switch exactly when it is enabled and
    the current task is outranked, not ready, or at the end of its slice. *)
Lemma scheduler_run k A lo c xs :
  let p := _dos_get_highest_priority (dos_task_priority (k_task k)) in
  tinv_at k A lo -> k_tcbs k !! dos_current_task (k_task k) = Some c ->
  A !! PriorityList (priority c) = Some xs ->
  exists k', dos_scheduler k = Done (tt, k') /\ rescheduled k k' /\
    pendsv (k_cpu k') = pendsv (k_cpu k) || (sched_enabled k &&
      ((p <? priority c) || negb (ready c) || slice_expired (Z.of_nat (length xs)) c)) /\
    dos_cur_priority (k_task k') = if sched_enabled k then p else dos_cur_priority (k_task k).
Proof.
  intros p HI HT HA. unfold dos_scheduler, dos_is_in_interrupt, dos_scheduler_is_lock,
    _dos_scheduler, dos_system_is_running. kstep. destruct (sched_enabled k) eqn:Hen;
    unfold sched_enabled in Hen; last first.
  { exists k. rewrite orb_false_r. split; [|split_and!; try done; apply rescheduled_refl; eauto].
    destruct (dos_interrupt_count (k_sys k) =? 0); [|done]. simpl in Hen. cbn [negb]. kstep.
    destruct (dos_scheduler_lock_count (k_sys k) =? 0); [|done]. simpl in Hen. cbn [negb].
    rewrite bind_assoc. kstep. by rewrite Hen. }
  assert (Hen' : sched_enabled k = true) by done.
  apply andb_true_iff in Hen as [[-> Hlock0]%andb_true_iff Hrun0]. cbn [negb]. kstep. rewrite Hlock0.
  cbn [negb].
  rewrite bind_assoc. kstep. rewrite Hrun0.
  pose proof (check_priority_run k A lo c xs HI HT HA) as Hrun. cbv zeta in Hrun. fold p in Hrun.
  run_with Hrun. simpl andb.
  set (b := _ || slice_expired _ c). set (k1 := set_k_tcbs _ _).
  assert (Hr : forall k2, k2 = k1 \/ k2 = assign_pendsv true k1 -> rescheduled k k2).
  { intros k2 Hk2. assert (HT1 : exists n, k_tcbs k1 =
      <[dos_current_task (k_task k) := set_task_tick n c]> (k_tcbs k)).
    { unfold k1. simpl. case_match.
      - exists (task_tick c). by rewrite set_task_tick_id, insert_id.
      - destruct (sliced_tick (Z.of_nat (length xs)) c) as [v ->]. eauto. }
    destruct Hk2 as [->| ->]; split; try done; try (eexists; split; done); try (by eexists);
      try (exists (pendsv (k_cpu k)); by destruct k as [? ? ? ? [] ? ? ? ? ? ? ? ? ? ?]);
      by rewrite Hen'. }
  destruct b.
  - eexists. split; [done|]. split; [apply Hr; by right|]. simpl. by rewrite orb_true_r.
  - eexists. split; [done|]. split; [apply Hr; by left|]. simpl. by rewrite orb_false_r.
Qed.

(** ** The context switch *)

Definition with_current (t : Z) (g : task_globals) : task_globals :=
  mk_globals (dos_task_priority g) (dos_task_sleep_list g) (dos_task_sleep_overflow_list g)
    (dos_next_wake_tick g) t (dos_idle_task g) (dos_tick_count g) (dos_cur_priority g).

(** The kernel runs one of the ready tasks of [dos_cur_priority]. *)
Lemma pendsv_spec k A xs :
  kinv k A -> A !! PriorityList (dos_cur_priority (k_task k)) = Some xs -> xs <> [] ->
  exists k' t c, PendSV_Handler k = Done (tt, k') /\ kinv k' A /\
    k_tcbs k' = k_tcbs k /\ k_task k' = with_current t (k_task k) /\
    StatusItem t ∈ xs /\ k_tcbs k' !! t = Some c /\ ready c = true /\
    priority c = dos_cur_priority (k_task k) /\
    items (k_store k') = items (k_store k) /\
    k_cpu k' = mk_cpu (primask (k_cpu k)) (ipsr (k_cpu k)) false /\
    k_sys k' = k_sys k /\ k_sems k' = k_sems k /\ k_mutexes k' = k_mutexes k /\
    k_queues k' = k_queues k /\ k_events k' = k_events k /\ k_swtmr k' = k_swtmr k.
Proof.
  intros HI HA Hxs.
  destruct (store_next _ _ _ _ (ti_store _ _ _ _ _ HI) HA Hxs)
    as (q & s' & Hq & Hrun & HS' & Hsd & Hl & Hitems).
  destruct (in_ready_list _ _ _ _ _ HI HA Hq) as (t & c & -> & Htask & HT & Hr & Hp).
  rewrite Htask in Hrun.
  exists (set_k_cpu (mk_cpu (primask (k_cpu k)) (ipsr (k_cpu k)) false)
    (set_k_task (with_current t (k_task k)) (set_k_store s' k))), t, c.
  split; [|split; [|split_and!; try done]].
  - unfold PendSV_Handler, dos_interrupt_disable, dos_choose_task.
    rewrite bind_assoc. kstep. rewrite bind_assoc. kstep. rewrite bind_assoc. kstep.
    rewrite bind_assoc.
    run_by ltac:(apply on_store_run; exact Hrun). kstep. reflexivity.
  - unfold kinv; simpl. destruct HI as [I1 I2 I3 I4 I5 I6 I7 I8]. split; simpl; try done.
    + intros p Hend Hp'. apply I3; [done|]. by rewrite <- Hitems.
    + intros t' c' HT'. destruct (I4 _ _ HT') as [K1 K2 K3 K4 K5 K6 K7].
      unfold loc, item_val, fld in *. by split; unfold loc, item_val, fld; rewrite ?Hitems.
    + destruct I6 as [S1 S2 S3 S4 S5 S6].
      unfold loc, item_val, fld in *. by split; unfold loc, item_val, fld; simpl; rewrite ?Hitems.
Qed.

Lemma rescheduled_ready k k' t c :
  rescheduled k k' -> k_tcbs k' !! t = Some c ->
  exists c0, k_tcbs k !! t = Some c0 /\ ready c = ready c0 /\ priority c = priority c0.
Proof.
  intros [_ (c1 & HT1 & n & ->) _ _ _ _ _ _ _ _ _ _ _ _ _ _]. rewrite lookup_insert_Some.
  intros [[<- <-]|[_ HT]]; eauto.
Qed.

(** C4: Priority-preemptive scheduling.  From any state that satisfies the
    kernel invariant, with the scheduler enabled, interrupts open and no context
    switch pending, a call of [dos_scheduler] followed by the PendSV exception it may have raised ends
    with a ready task running that no ready task outranks; the invariant is
    kept and no context switch is left pending. *)
Theorem reschedule_spec k A :
  kinv k A -> sched_enabled k = true -> primask (k_cpu k) = 0 -> ipsr (k_cpu k) = 0 ->
  pendsv (k_cpu k) = false ->
  exists k' c, (dos_scheduler;; take_pendsv) k = Done (tt, k') /\ kinv k' A /\
    k_tcbs k' !! dos_current_task (k_task k') = Some c /\ ready c = true /\
    top_priority A (priority c) /\ pendsv (k_cpu k') = false.
Proof.
  intros HI Hen Hpm Hip Hps. destruct (ti_current _ _ _ _ _ HI) as [c HT].
  destruct (ti_lists _ _ _ _ _ HI (PriorityList (priority c))) as [xs HA];
    [apply (tk_priority _ _ _ (ti_task _ _ _ _ _ HI _ _ HT))|].
  destruct (scheduler_run k A _ c xs HI HT HA) as (k1 & Hrun & Hrs & Hpend & Hcp).
  rewrite Hen, Hps in Hpend. rewrite Hen in Hcp. simpl in Hpend.
  pose proof (top_priority_highest _ _ HI) as Htop. rewrite <- Hcp in Htop.
  pose proof (rescheduled_kinv _ _ _ HI Hrs) as HI1.
  destruct (rs_cpu _ _ Hrs) as [b Hcpu].
  assert (primask (k_cpu k1) = 0 /\ ipsr (k_cpu k1) = 0) as [Hpm1 Hip1] by (by rewrite Hcpu).
  run_with Hrun. unfold take_pendsv. kstep. rewrite Hpm1, Hip1.
  destruct (pendsv (k_cpu k1)) eqn:Hb.
  - destruct Htop as (Hp & Hne & Hlow).
    destruct (ti_lists _ _ _ _ _ HI (PriorityList (dos_cur_priority (k_task k1))) Hp) as [ys HA1].
    destruct (pendsv_spec k1 A ys HI1 HA1) as
      (k2 & t & c2 & Hrun2 & HI2 & HT2 & Hg2 & Hin & Hc2 & Hr2 & Hp2 & _ & Hcpu2 & _).
    { congruence. }
    exists k2, c2.
    split_and!; try done.
    + by rewrite Hg2.
    + by rewrite Hp2.
    + by rewrite Hcpu2.
  - destruct (rs_tcbs _ _ Hrs) as (c0 & HT0 & n & HT1). destruct (rs_task _ _ Hrs) as [p Hg].
    assert (c0 = c) as -> by congruence. exists k1, (set_task_tick n c). simpl.
    split_and!; try done.
    + rewrite HT1, Hg. simpl. apply lookup_insert_eq.
    + change (ready c = true). by destruct (ready c); [|rewrite orb_true_r in Hpend].
    + change (priority (set_task_tick n c)) with (priority c).
      destruct (ready c) eqn:Hr; [|by rewrite orb_true_r in Hpend].
      replace (priority c) with (dos_cur_priority (k_task k1)); [done|].
      apply Z.le_antisymm; [exact (top_priority_le _ _ _ _ _ HI Htop HT Hr)|].
      rewrite Hcp. destruct (Z.ltb_spec (_dos_get_highest_priority
        (dos_task_priority (k_task k))) (priority c)); [done|lia].
Qed.

Lemma reschedule_spec_witness :
  exists k' c, (dos_scheduler;; take_pendsv) demo_prio = Done (tt, k') /\
    k_tcbs k' !! dos_current_task (k_task k') = Some c /\ ready c = true /\
    top_priority (lists_of demo_prio) (priority c).
Proof.
  destruct (reschedule_spec demo_prio (lists_of demo_prio)) as (k' & c & Hrun & _ & HT & Hr & Htop & _);
    [by_check | by_eval | by_eval | by_eval | by_eval |].
  exists k', c. split; [exact Hrun|]. split; [exact HT|]. split; [exact Hr | exact Htop].
Defined.

(** A pass of the scheduler always completes. *)
Lemma scheduler_ok k A lo :
  tinv_at k A lo -> exists k', dos_scheduler k = Done (tt, k') /\ rescheduled k k'.
Proof.
  intros HI. destruct (ti_current _ _ _ _ _ HI) as [c HT].
  destruct (ti_lists _ _ _ _ _ HI (PriorityList (priority c))) as [xs HA];
    [apply (tk_priority _ _ _ (ti_task _ _ _ _ _ HI _ _ HT))|].
  destruct (scheduler_run k A _ c xs HI HT HA) as (k' & Hrun & Hr & _). eauto.
Qed.
