(* ===== verification/IpcSpec.v ===== *)
(** * What the kernel objects share: waiting, waking, timing out

    Semaphores, mutexes, queues and events block and wake tasks in the same
    way.  The lemmas here give the effect of that on the pend list of the
    object and on the task, for any pend list. *)

From S2P Require Import Prelude TaskList Ring TaskListSpec Mem Priority Kernel Sched KernelInv.
From S2P Require Import SchedSpec Sem.

(** ** Pend lists *)

(** The tasks on a pend list are suspended. *)
Lemma pend_list_item k A lo l xs q :
  tinv_at k A lo -> is_pend_list l = true -> A !! l = Some xs -> q ∈ xs ->
  exists t c, q = PendItem t /\ task_of (k_store k) q = t /\ k_tcbs k !! t = Some c /\
    loc (k_store k) (PendItem t) = Some l /\ suspended c = true.
Proof.
  intros HI Hpl HA Hq.
  destruct (store_rep_in _ _ _ _ _ (ti_store _ _ _ _ _ HI) HA Hq) as [Hend Hl].
  destruct (ti_items _ _ _ _ _ HI q Hend) as [c HT].
  { unfold fld in Hl. destruct (items (k_store k) !! q); [eauto | done]. }
  pose proof (ti_task _ _ _ _ _ HI _ _ HT) as HK. destruct q as [?|t|t]; [done| |]; simpl in HT, HK.
  - destruct (tk_status _ _ _ HK) as (l' & Hl' & Hs). unfold loc in Hl'.
    rewrite Hl in Hl'. simplify_eq. by destruct l'.
  - exists t, c. destruct (tk_pend _ _ _ HK) as (l' & Hl' & Hs).
    assert (l' = l) as -> by (unfold loc in Hl'; congruence).
    unfold task_of. rewrite (tk_pend_item _ _ _ HK). split_and!; try done.
    by destruct l.
Qed.

(** Waking a task takes it out of the pend list it is in. *)
Lemma woken_pend k A lo t c l prio :
  tinv_at k A lo -> k_tcbs k !! t = Some c -> is_pend_list l = true ->
  woken_lists (k_store k) t prio A !! l = remove_item (PendItem t) <$> A !! l.
Proof.
  intros HI HT Hl. unfold woken_lists. rewrite lookup_insert_ne by (by intros <-).
  rewrite !lookup_fmap. destruct (A !! l) as [xs|] eqn:HA; [|done]. simpl. f_equal.
  apply remove_item_notin. rewrite elem_of_remove_item. intros [_ Hin].
  destruct (pend_list_item _ _ _ _ _ _ HI Hl HA Hin) as (? & ? & [=] & _).
Qed.

(** The first task of a pend list, as the wakers fetch it. *)
Lemma first_waiter k A lo l q xs :
  tinv_at k A lo -> is_pend_list l = true -> A !! l = Some (q :: xs) ->
  exists t c s1, q = PendItem t /\ k_tcbs k !! t = Some c /\ suspended c = true /\
    on_store (dos_get_first_task l) k = Done (t, set_k_store s1 k) /\
    tinv_at (set_k_store s1 k) A lo /\ items s1 = items (k_store k) /\
    same_data (k_store k) s1.
Proof.
  intros HI Hl HA. destruct (pend_list_item _ _ _ _ _ q HI Hl HA) as (t & c & -> & Ht & HT & _ & Hs);
    [left|].
  destruct (store_first _ _ _ _ _ (ti_store _ _ _ _ _ HI) HA) as (s1 & Hrun & HS1 & Hsd & _ & Hit).
  exists t, c, s1. rewrite Ht in Hrun. split_and!; try done; [by apply on_store_run|].
  by apply cursor_tinv.
Qed.

(** ** Waking a waiter *)

Lemma wake_member_spec k A lo l t c xs1 xs2 :
  tinv_at k A lo -> is_pend_list l = true -> A !! l = Some (xs1 ++ PendItem t :: xs2) ->
  k_tcbs k !! t = Some c ->
  exists k' A', dos_task_wake t k = Done (tt, k') /\ tinv_at k' A' lo /\ A' !! l = Some (xs1 ++ xs2) /\
    (forall l', is_pend_list l' = true -> l' <> l -> A' !! l' = A !! l') /\
    k_tcbs k' = <[t := woken c]> (k_tcbs k) /\ same_times (k_task k) (k_task k') /\
    same_data (k_store k) (k_store k') /\ same_rest k k' /\
    (forall q, q <> StatusItem t -> q <> PendItem t -> loc (k_store k') q = loc (k_store k) q).
Proof.
  intros HI Hl HA HT. destruct (wake_spec_lo k A lo t c HI HT)
    as (k2 & Hrun2 & HI2 & HT2 & Hg2 & Hsd2 & Hl2 & Hr2).
  pose proof (ti_store _ _ _ _ _ HI) as HS.
  exists k2, (woken_lists (k_store k) t (priority c) A). split_and!; try done.
  - rewrite (woken_pend _ _ _ _ c _ _ HI HT Hl), HA. simpl. f_equal. apply remove_item_middle.
    by eapply store_rep_nodup.
  - intros l' Hl' Hne. rewrite (woken_pend _ _ _ _ c _ _ HI HT Hl').
    destruct (A !! l') as [ys|] eqn:HA'; [|done]. simpl. f_equal. apply remove_item_notin.
    intros Hin. destruct (store_rep_in _ _ _ _ _ HS HA' Hin) as [_ H1].
    destruct (store_rep_in _ _ (PendItem t) _ _ HS HA) as [_ H2]; [apply elem_of_app; right; left|].
    congruence.
  - by rewrite Hg2.
  - intros q Hq1 Hq2. by rewrite Hl2, !decide_False.
Qed.

Lemma wake_waiter_spec k A lo l t c xs :
  tinv_at k A lo -> is_pend_list l = true -> A !! l = Some (PendItem t :: xs) ->
  k_tcbs k !! t = Some c ->
  exists k' A', dos_task_wake t k = Done (tt, k') /\ tinv_at k' A' lo /\ A' !! l = Some xs /\
    (forall l', is_pend_list l' = true -> l' <> l -> A' !! l' = A !! l') /\
    k_tcbs k' = <[t := woken c]> (k_tcbs k) /\ same_times (k_task k) (k_task k') /\
    same_data (k_store k) (k_store k') /\ same_rest k k' /\
    (forall q, q <> StatusItem t -> q <> PendItem t -> loc (k_store k') q = loc (k_store k) q).
Proof. exact (wake_member_spec k A lo l t c [] xs). Qed.

Lemma wake_first_spec k A lo l q xs :
  tinv_at k A lo -> is_pend_list l = true -> A !! l = Some (q :: xs) ->
  exists t c k1 k2 A2, q = PendItem t /\ k_tcbs k !! t = Some c /\ suspended c = true /\
    on_store (dos_get_first_task l) k = Done (t, k1) /\
    dos_task_wake t k1 = Done (tt, k2) /\ tinv_at k2 A2 lo /\
    A2 !! l = Some xs /\
    (forall l', is_pend_list l' = true -> l' <> l -> A2 !! l' = A !! l') /\
    k_tcbs k2 = <[t := woken c]> (k_tcbs k) /\ same_times (k_task k) (k_task k2) /\
    same_data (k_store k) (k_store k2) /\ same_rest k k2 /\
    (forall q, q <> StatusItem t -> q <> PendItem t -> loc (k_store k2) q = loc (k_store k) q).
Proof.
  intros HI Hl HA. destruct (first_waiter _ _ _ _ _ _ HI Hl HA)
    as (t & c & s1 & -> & HT & Hs & Hrun1 & HI1 & Hit & Hsd1).
  destruct (wake_waiter_spec (set_k_store s1 k) A lo l t c xs HI1 Hl HA HT)
    as (k2 & A2 & Hrun2 & HI2 & HA2 & HA2' & HT2 & Hg2 & Hsd2 & Hr2 & Hl2).
  exists t, c, (set_k_store s1 k), k2, A2. split_and!; try done.
  - by etrans.
  - by destruct Hr2.
  - intros q Hq1 Hq2. rewrite Hl2 by done. unfold loc, fld. simpl. by rewrite Hit.
Qed.

(** ** A wait that timed out *)

Definition timeout_cleared (c : dos_task_cb) : dos_task_cb :=
  DOS_SET_TASK_STATUS DOS_TASK_STATUS_READY
    (DOS_RESET_TASK_STATUS (Z.lor DOS_TASK_STATUS_TIMEOUT DOS_TASK_STATUS_SUSPEND) c).

Lemma timeout_cleared_flags c :
  ready (timeout_cleared c) = true /\ delayed (timeout_cleared c) = delayed c /\
  suspended (timeout_cleared c) = false /\ timed_out (timeout_cleared c) = false /\
  priority (timeout_cleared c) = priority c.
Proof.
  unfold timeout_cleared. set (c1 := DOS_RESET_TASK_STATUS _ c).
  destruct (status_flags_set DOS_TASK_STATUS_READY c1) as (-> & -> & -> & ->).
  destruct (status_flags_reset (Z.lor DOS_TASK_STATUS_TIMEOUT DOS_TASK_STATUS_SUSPEND) c)
    as (F1 & F2 & F3 & F4). fold c1 in F1, F2, F3, F4. rewrite F2, F3, F4. simpl.
  by rewrite !orb_false_r, orb_true_r, !andb_false_r, andb_true_r.
Qed.

(** The task leaves the pend list it was still in and is running normally. *)
Lemma wait_timed_out_spec k A t c :
  kinv k A -> k_tcbs k !! t = Some c -> ready c = true ->
  exists k', wait_timed_out t k = Done (tt, k') /\
    kinv k' (remove_item (PendItem t) <$> A) /\
    k_tcbs k' = <[t := timeout_cleared c]> (k_tcbs k) /\ k_task k' = k_task k /\
    same_data (k_store k) (k_store k') /\
    (forall q, loc (k_store k') q =
       if decide (q = PendItem t) then Some ListNull else loc (k_store k) q) /\
    same_rest k k'.
Proof.
  intros HI HT Hr. pose proof (ti_task _ _ _ _ _ HI _ _ HT) as HK.
  destruct (tk_pend _ _ _ HK) as (lp & Hlp & Hpk).
  destruct (tk_status _ _ _ HK) as (ls & Hls & Hsk).
  destruct (store_del_any _ _ (PendItem t) lp (ti_store _ _ _ _ _ HI) eq_refl Hlp)
    as (n & s1 & Hrun & HS1 & Hsd & Hl & _).
  destruct (timeout_cleared_flags c) as (F1 & F2 & F3 & F4 & F5).
  exists (set_k_store s1 (put_task t (timeout_cleared c) k)). split; [|split; [|done]].
  - unfold wait_timed_out. run_by ltac:(apply upd_task_run; exact HT).
    run_by ltac:(apply upd_task_run; apply lookup_insert_eq). rewrite put_task_twice.
    by run_by ltac:(apply (on_store_run _ (put_task t (timeout_cleared c) k)); exact Hrun).
  - set (c' := timeout_cleared c) in *. clearbody c'.
    eapply (tinv_moved _ _ (k_task k) A _ _ _ t c c' ls ListNull); simpl; try done.
    + intros l Hl'. by apply fmap_lookup_is_some.
    + intros q _ Hq. by rewrite Hl, decide_False.
    + by rewrite Hl, decide_False.
    + eapply status_ok_ext; [done | congruence..].
    + by rewrite Hl, decide_True.
    + rewrite F5. apply HK.
    + apply with_bitmap_id.
    + eapply bitmap_ok_ext; [apply HI|]. intros i Hi.
      rewrite (remove_other (k_store k) A _ lp); [done | apply HI | done |]. by intros <-.
Qed.

(** ** Abstract pend lists *)

(** The waiters of a list: the value each is queued under and the task. *)
Definition waiters (k : kernel) (A : gmap list_ptr (list item_ptr)) (l : list_ptr) :
    list (Z * Z) :=
  map (fun q => (item_val (k_store k) q, item_task q)) (default [] (A !! l)).

(** A new waiter goes behind those of the same or a smaller value. *)
Fixpoint enqueue (w : Z * Z) (ws : list (Z * Z)) : list (Z * Z) :=
  match ws with
  | [] => [w]
  | x :: ws' => if x.1 <=? w.1 then x :: enqueue w ws' else w :: ws
  end.

Lemma enqueue_insert (val : item_ptr -> Z) p xs :
  map (fun q => (val q, item_task q)) (insert_sorted val p xs) =
  enqueue (val p, item_task p) (map (fun q => (val q, item_task q)) xs).
Proof.
  induction xs as [|x xs IH]; [done|]. simpl. destruct (val x <=? val p); simpl; [by rewrite IH|done].
Qed.

Lemma waiters_ext k k' A A' l :
  A' !! l = A !! l -> (forall q t, q = PendItem t -> item_val (k_store k') q = item_val (k_store k) q) ->
  (forall xs q, A !! l = Some xs -> q ∈ xs -> exists t, q = PendItem t) ->
  waiters k' A' l = waiters k A l.
Proof.
  intros HA Hv Hq. unfold waiters. rewrite HA. destruct (A !! l) as [xs|] eqn:E; [|done]. simpl.
  apply map_ext_in. intros q Hin%list_elem_of_In. destruct (Hq xs q eq_refl Hin) as [t Ht].
  by rewrite (Hv q t Ht).
Qed.

Lemma pend_items k A lo l xs q :
  tinv_at k A lo -> is_pend_list l = true -> A !! l = Some xs -> q ∈ xs -> exists t, q = PendItem t.
Proof. intros HI Hl HA Hq. destruct (pend_list_item _ _ _ _ _ _ HI Hl HA Hq) as (t & ? & -> & _). eauto. Qed.

Lemma waiters_same k k' A A' lo l :
  tinv_at k A lo -> is_pend_list l = true -> A' !! l = A !! l ->
  (forall t, item_val (k_store k') (PendItem t) = item_val (k_store k) (PendItem t)) ->
  waiters k' A' l = waiters k A l.
Proof.
  intros HI Hl HA Hv. apply waiters_ext; [done | by intros q t -> |].
  intros ys q HA' Hq. exact (pend_items _ _ _ _ _ _ HI Hl HA' Hq).
Qed.

(** The kernel objects and the nesting counters. *)
Record same_objs (k k' : kernel) : Prop := {
  so_sys : k_sys k' = k_sys k;
  so_ipsr : ipsr (k_cpu k') = ipsr (k_cpu k);
  so_heap : k_heap k' = k_heap k;
  so_sems : k_sems k' = k_sems k;
  so_mutexes : k_mutexes k' = k_mutexes k;
  so_queues : k_queues k' = k_queues k;
  so_events : k_events k' = k_events k;
  so_swtmr : k_swtmr k' = k_swtmr k;
  so_swtmrs : k_swtmrs k' = k_swtmrs k;
  so_memps : k_memps k' = k_memps k;
  so_memp_nodes : k_memp_nodes k' = k_memp_nodes k;
  so_fifos : k_fifos k' = k_fifos k
}.

#[export] Instance same_objs_refl : Reflexive same_objs.
Proof. done. Qed.

#[export] Instance same_objs_trans : Transitive same_objs.
Proof. intros k1 k2 k3 [] []. split; etrans; eauto. Qed.

Lemma same_rest_objs k k' : same_rest k k' -> same_objs k k'.
Proof. intros []. split; try done. congruence. Qed.

Lemma rescheduled_objs k k' : rescheduled k k' -> same_objs k k'.
Proof. intros [_ _ _ ? [b Hb] ? ? ? ? ? ? ? ? ? ? _]. split; try done. by rewrite Hb. Qed.

Lemma rescheduled_primask k k' : rescheduled k k' -> primask (k_cpu k') = primask (k_cpu k).
Proof. intros [_ _ _ _ [b Hb] _ _ _ _ _ _ _ _ _ _ _]. by rewrite Hb. Qed.

Lemma rescheduled_task k k' t c :
  rescheduled k k' -> k_tcbs k !! t = Some c -> exists n, k_tcbs k' !! t = Some (set_task_tick n c).
Proof.
  intros [_ (c1 & HT1 & n & ->) _ _ _ _ _ _ _ _ _ _ _ _ _ _] HT.
  destruct (decide (dos_current_task (k_task k) = t)) as [<-|Hne].
  - exists n. rewrite lookup_insert_eq. congruence.
  - exists (task_tick c). by rewrite lookup_insert_ne, set_task_tick_id.
Qed.

(** Only the current task's slice changes. *)
Lemma rs_other k k' t :
  rescheduled k k' -> t <> dos_current_task (k_task k) -> k_tcbs k' !! t = k_tcbs k !! t.
Proof.
  intros [_ (c1 & HT1 & n & ->) _ _ _ _ _ _ _ _ _ _ _ _ _ _] Hne. by rewrite lookup_insert_ne.
Qed.

Lemma rescheduled_times k k' : rescheduled k k' -> same_times (k_task k) (k_task k').
Proof. intros Hr. destruct (rs_task _ _ Hr) as [p ->]. done. Qed.

Lemma rescheduled_waiters k k' A l : rescheduled k k' -> waiters k' A l = waiters k A l.
Proof. intros Hr. unfold waiters. by rewrite (rs_store _ _ Hr). Qed.
