(* ===== verification/FrameSpec.v ===== *)
(** * What a kernel call leaves alone

    A call on one kernel object changes the pend lists of that object and the
    status of the tasks it blocks or wakes.  [frame ls ws] says that nothing
    else changed: [ls] are the pend lists the call may touch and [ws] the tasks
    whose status it may change.  An object none of whose lists is in [ls] keeps
    its control block.  [settled] describes how a call ends: with the scheduler
    or without any change that concerns it. *)

From S2P Require Import Prelude TaskList Ring TaskListSpec Mem Priority Kernel Sched KernelInv.
From S2P Require Import SchedSpec Sem Queue IpcSpec.

(** ** Frames *)

Record same_flags (c c' : dos_task_cb) : Prop := {
  sf_ready : ready c' = ready c;
  sf_delayed : delayed c' = delayed c;
  sf_suspended : suspended c' = suspended c;
  sf_timed_out : timed_out c' = timed_out c
}.

#[export] Instance same_flags_refl : Reflexive same_flags.
Proof. done. Qed.

#[export] Instance same_flags_trans : Transitive same_flags.
Proof. intros c1 c2 c3 [] []. split; congruence. Qed.

Lemma same_flags_tick n c : same_flags c (set_task_tick n c).
Proof. done. Qed.

Record frame (ls : list list_ptr) (ws : list Z) (k : kernel) (A : gmap list_ptr (list item_ptr))
    (k' : kernel) (A' : gmap list_ptr (list item_ptr)) : Prop := {
  fr_lists : forall l, is_pend_list l = true -> l ∉ ls -> A' !! l = A !! l;
  fr_dom : forall l, is_pend_list l = true -> is_Some (A !! l) -> is_Some (A' !! l);
  fr_vals : forall t, item_val (k_store k') (PendItem t) = item_val (k_store k) (PendItem t);
  fr_wakes : forall t, t ∉ ws -> item_val (k_store k') (StatusItem t) = item_val (k_store k) (StatusItem t);
  fr_locs : forall t, t ∉ ws -> loc (k_store k') (PendItem t) = loc (k_store k) (PendItem t);
  fr_tasks : forall t c, t ∉ ws -> k_tcbs k !! t = Some c ->
    exists c', k_tcbs k' !! t = Some c' /\ same_flags c c';
  fr_tcbs : forall t, is_Some (k_tcbs k' !! t) <-> is_Some (k_tcbs k !! t);
  fr_current : dos_current_task (k_task k') = dos_current_task (k_task k);
  fr_idle : dos_idle_task (k_task k') = dos_idle_task (k_task k);
  fr_tick : dos_tick_count (k_task k') = dos_tick_count (k_task k);
  fr_sys : k_sys k' = k_sys k;
  fr_primask : primask (k_cpu k') = primask (k_cpu k);
  fr_ipsr : ipsr (k_cpu k') = ipsr (k_cpu k);
  fr_pendsv : sched_enabled k = false -> pendsv (k_cpu k') = pendsv (k_cpu k);
  fr_swtmr : k_swtmr k' = k_swtmr k;
  fr_sems : forall s, SemPendList s ∉ ls -> k_sems k' !! s = k_sems k !! s;
  fr_mutexes : forall m, MutexPendList m ∉ ls -> k_mutexes k' !! m = k_mutexes k !! m;
  fr_queues : forall q, QueuePendList q QUEUE_READ ∉ ls -> QueuePendList q QUEUE_WRITE ∉ ls ->
    k_queues k' !! q = k_queues k !! q;
  fr_events : forall e, EventPendList e ∉ ls -> k_events k' !! e = k_events k !! e
}.

Lemma frame_refl ls ws k A : frame ls ws k A k A.
Proof. split; try done. intros t c _ HT. by exists c. Qed.

Lemma frame_trans ls ws k1 A1 k2 A2 k3 A3 :
  frame ls ws k1 A1 k2 A2 -> frame ls ws k2 A2 k3 A3 -> frame ls ws k1 A1 k3 A3.
Proof.
  intros F G. split.
  - intros l Hl Hn. by rewrite (fr_lists _ _ _ _ _ _ G), (fr_lists _ _ _ _ _ _ F).
  - intros l Hl HS. by apply (fr_dom _ _ _ _ _ _ G), (fr_dom _ _ _ _ _ _ F).
  - intros t. by rewrite (fr_vals _ _ _ _ _ _ G), (fr_vals _ _ _ _ _ _ F).
  - intros t Ht. by rewrite (fr_wakes _ _ _ _ _ _ G), (fr_wakes _ _ _ _ _ _ F).
  - intros t Ht. by rewrite (fr_locs _ _ _ _ _ _ G), (fr_locs _ _ _ _ _ _ F).
  - intros t c Hn HT. destruct (fr_tasks _ _ _ _ _ _ F t c Hn HT) as (c2 & HT2 & S2).
    destruct (fr_tasks _ _ _ _ _ _ G t c2 Hn HT2) as (c3 & HT3 & S3). exists c3. split; [done|].
    by etrans.
  - intros t. by rewrite (fr_tcbs _ _ _ _ _ _ G), (fr_tcbs _ _ _ _ _ _ F).
  - by rewrite (fr_current _ _ _ _ _ _ G), (fr_current _ _ _ _ _ _ F).
  - by rewrite (fr_idle _ _ _ _ _ _ G), (fr_idle _ _ _ _ _ _ F).
  - by rewrite (fr_tick _ _ _ _ _ _ G), (fr_tick _ _ _ _ _ _ F).
  - by rewrite (fr_sys _ _ _ _ _ _ G), (fr_sys _ _ _ _ _ _ F).
  - by rewrite (fr_primask _ _ _ _ _ _ G), (fr_primask _ _ _ _ _ _ F).
  - by rewrite (fr_ipsr _ _ _ _ _ _ G), (fr_ipsr _ _ _ _ _ _ F).
  - intros He. rewrite (fr_pendsv _ _ _ _ _ _ G); [by apply F|]. revert He. unfold sched_enabled.
    by rewrite (fr_sys _ _ _ _ _ _ F).
  - by rewrite (fr_swtmr _ _ _ _ _ _ G), (fr_swtmr _ _ _ _ _ _ F).
  - intros s Hs. by rewrite (fr_sems _ _ _ _ _ _ G), (fr_sems _ _ _ _ _ _ F).
  - intros s Hs. by rewrite (fr_mutexes _ _ _ _ _ _ G), (fr_mutexes _ _ _ _ _ _ F).
  - intros s Hs Hs'. by rewrite (fr_queues _ _ _ _ _ _ G), (fr_queues _ _ _ _ _ _ F).
  - intros s Hs. by rewrite (fr_events _ _ _ _ _ _ G), (fr_events _ _ _ _ _ _ F).
Qed.

Lemma frame_weaken ls ws ls' ws' k A k' A' :
  frame ls ws k A k' A' -> ls ⊆ ls' -> ws ⊆ ws' -> frame ls' ws' k A k' A'.
Proof. intros [] Hl Hw. split; try done; naive_solver. Qed.

(** PRIMASK aside, nothing changed: what the code between two list operations
    does. *)
Lemma frame_primask_l ls ws k A k' A' pri :
  frame ls ws (assign_primask pri k) A k' A' -> primask (k_cpu k') = primask (k_cpu k) ->
  frame ls ws k A k' A'.
Proof. intros [] Hp. by split. Qed.

(** A change of the task state that leaves every object alone. *)
Lemma frame_intro ls ws k A k' A' :
  (forall l, is_pend_list l = true -> l ∉ ls -> A' !! l = A !! l) ->
  (forall l, is_pend_list l = true -> is_Some (A !! l) -> is_Some (A' !! l)) ->
  (forall t, item_val (k_store k') (PendItem t) = item_val (k_store k) (PendItem t)) ->
  (forall t, t ∉ ws -> item_val (k_store k') (StatusItem t) = item_val (k_store k) (StatusItem t)) ->
  (forall t, t ∉ ws -> loc (k_store k') (PendItem t) = loc (k_store k) (PendItem t)) ->
  (forall t c, t ∉ ws -> k_tcbs k !! t = Some c ->
     exists c', k_tcbs k' !! t = Some c' /\ same_flags c c') ->
  (forall t, is_Some (k_tcbs k' !! t) <-> is_Some (k_tcbs k !! t)) ->
  same_times (k_task k) (k_task k') -> primask (k_cpu k') = primask (k_cpu k) ->
  (sched_enabled k = false -> pendsv (k_cpu k') = pendsv (k_cpu k)) ->
  same_objs k k' -> frame ls ws k A k' A'.
Proof.
  intros H1 H2 H3 H3s H3' H4 H5 [] H7 H8 []. split; try done; intros; congruence.
Qed.

Lemma frame_resched ls ws k k' A : rescheduled k k' -> frame ls ws k A k' A.
Proof.
  intros Hr. apply frame_intro; try done.
  - intros t. by rewrite (rs_store _ _ Hr).
  - intros t _. by rewrite (rs_store _ _ Hr).
  - intros t _. by rewrite (rs_store _ _ Hr).
  - intros t c _ HT. destruct (rescheduled_task _ _ _ _ Hr HT) as [n HT']. eauto using same_flags_tick.
  - intros t. destruct (rs_tcbs _ _ Hr) as (c & HT & n & ->). rewrite lookup_insert_is_Some'.
    split; [|by right]. intros [<-|]; [by eauto|done].
  - by apply rescheduled_times.
  - by apply rescheduled_primask.
  - apply Hr.
  - by apply rescheduled_objs.
Qed.

(** The update of one control block. *)
Lemma frame_sem s v ls ws k A :
  SemPendList s ∈ ls -> frame ls ws k A (put_sem s v k) A.
Proof.
  intros Hin. split; try done; [intros t c _ HT; by exists c |]. intros s' Hs. simpl.
  rewrite lookup_insert_ne; [done|]. by intros ->.
Qed.

Lemma frame_mutex m v ls ws k A :
  MutexPendList m ∈ ls -> frame ls ws k A (put_mutex m v k) A.
Proof.
  intros Hin. split; try done; [intros t c _ HT; by exists c |]. intros s' Hs. simpl.
  rewrite lookup_insert_ne; [done|]. by intros ->.
Qed.

Lemma frame_queue q v ls ws k A :
  QueuePendList q QUEUE_READ ∈ ls -> frame ls ws k A (put_queue q v k) A.
Proof.
  intros Hin. split; try done; [intros t c _ HT; by exists c |]. intros s' Hs _. simpl.
  rewrite lookup_insert_ne; [done|]. by intros ->.
Qed.

Lemma frame_event e v ls ws k A :
  EventPendList e ∈ ls -> frame ls ws k A (put_event e v k) A.
Proof.
  intros Hin. split; try done; [intros t c _ HT; by exists c |]. intros s' Hs. simpl.
  rewrite lookup_insert_ne; [done|]. by intros ->.
Qed.

Lemma frame_cursor ls ws k A s1 :
  items s1 = items (k_store k) -> frame ls ws k A (set_k_store s1 k) A.
Proof.
  intros Hi. split; try done; [| | |intros t c _ HT; by exists c];
    intros t; unfold loc, item_val, fld; simpl; by rewrite Hi.
Qed.

(** An update of one task's control block. *)
Lemma insert_tcbs k k' (t : Z) c' :
  is_Some (k_tcbs k !! t) -> k_tcbs k' = <[t := c']> (k_tcbs k) ->
  forall t', is_Some (k_tcbs k' !! t') <-> is_Some (k_tcbs k !! t').
Proof.
  intros HS -> t'. rewrite lookup_insert_is_Some'. split; [|by right]. by intros [<-|].
Qed.

Lemma insert_tasks k k' (t : Z) c' (ws : list Z) :
  t ∈ ws -> k_tcbs k' = <[t := c']> (k_tcbs k) ->
  forall t' c, t' ∉ ws -> k_tcbs k !! t' = Some c ->
    exists c', k_tcbs k' !! t' = Some c' /\ same_flags c c'.
Proof.
  intros Hin HT t' c Hn HT'. exists c. split; [|done].
  rewrite HT, lookup_insert_ne; [done|]. by intros ->.
Qed.

Lemma frame_update ls ws t c' k A k' A' :
  t ∈ ws -> is_Some (k_tcbs k !! t) -> k_tcbs k' = <[t := c']> (k_tcbs k) ->
  (forall l, is_pend_list l = true -> l ∉ ls -> A' !! l = A !! l) ->
  (forall l, is_pend_list l = true -> is_Some (A !! l) -> is_Some (A' !! l)) ->
  (forall t, item_val (k_store k') (PendItem t) = item_val (k_store k) (PendItem t)) ->
  (forall t, t ∉ ws -> item_val (k_store k') (StatusItem t) = item_val (k_store k) (StatusItem t)) ->
  (forall t, t ∉ ws -> loc (k_store k') (PendItem t) = loc (k_store k) (PendItem t)) ->
  same_times (k_task k) (k_task k') -> same_rest k k' -> frame ls ws k A k' A'.
Proof.
  intros Hin HS HT H1 H2 H3 H3s H3' H4 Hr. apply frame_intro; try done.
  - by eapply insert_tasks.
  - by eapply insert_tcbs.
  - by rewrite (sr_cpu _ _ Hr).
  - by rewrite (sr_cpu _ _ Hr).
  - by apply same_rest_objs.
Qed.

(** A change of a task that keeps its status flags. *)
Lemma frame_same_flags ls ws t c c' k A k' A' :
  k_tcbs k !! t = Some c -> same_flags c c' -> k_tcbs k' = <[t := c']> (k_tcbs k) ->
  (forall l, is_pend_list l = true -> A' !! l = A !! l) ->
  same_data (k_store k) (k_store k') ->
  (forall t, loc (k_store k') (PendItem t) = loc (k_store k) (PendItem t)) ->
  same_times (k_task k) (k_task k') -> same_rest k k' -> frame ls ws k A k' A'.
Proof.
  intros HT Hf HT' HA Hsd Hl Hg Hr. apply frame_intro; try done.
  - intros l Hl' _. by apply HA.
  - intros l Hl' HS. by rewrite HA.
  - intros t'. by apply item_val_same.
  - intros t' _. by apply item_val_same.
  - intros t' c1 _ HT1. rewrite HT'. destruct (decide (t = t')) as [<-|Hne].
    + exists c'. rewrite lookup_insert_eq. split; [done|]. congruence.
    + exists c1. by rewrite lookup_insert_ne.
  - eapply insert_tcbs; [|done]. by exists c.
  - by rewrite (sr_cpu _ _ Hr).
  - by rewrite (sr_cpu _ _ Hr).
  - by apply same_rest_objs.
Qed.

Lemma reprioritised_same p c : same_flags c (reprioritised p c).
Proof. destruct (reprioritised_flags p c) as (F1 & F2 & F3 & F4 & _). by split. Qed.

(** Lists that change at one place keep their domain. *)
Lemma one_list_dom (A A' : gmap list_ptr (list item_ptr)) l (ls : list list_ptr) :
  is_Some (A' !! l) -> (forall l', is_pend_list l' = true -> l' <> l -> A' !! l' = A !! l') ->
  l ∈ ls ->
  (forall l', is_pend_list l' = true -> l' ∉ ls -> A' !! l' = A !! l') /\
  (forall l', is_pend_list l' = true -> is_Some (A !! l') -> is_Some (A' !! l')).
Proof.
  intros HS HA Hin. split.
  - intros l' Hl' Hn. apply HA; [done|]. by intros ->.
  - intros l' Hl' HS'. destruct (decide (l' = l)) as [->|Hne]; [done|]. by rewrite HA.
Qed.

(** A call that masks interrupts and restores PRIMASK. *)
Lemma frame_masked ls ws k A k' A' x :
  frame ls ws (assign_primask x k) A k' A' ->
  frame ls ws k A (assign_primask (primask (k_cpu k)) k') A'.
Proof. intros []. by split. Qed.

(** ** The state of the scheduler between calls *)

(** The system runs and no interrupt handler is active. *)
Record running (k : kernel) : Prop := {
  ru_run : dos_system_is_run (k_sys k) = DOS_YES;
  ru_count : dos_interrupt_count (k_sys k) = 0
}.

(** Either a context switch is pending and its target is known, or the current
    task may go on. *)
Record sched_state (k : kernel) (A : gmap list_ptr (list item_ptr)) : Prop := {
  ss_ready : pendsv (k_cpu k) = false ->
    exists c, k_tcbs k !! dos_current_task (k_task k) = Some c /\ ready c = true;
  ss_next : pendsv (k_cpu k) = true ->
    dos_scheduler_lock_count (k_sys k) = 0 /\ top_priority A (dos_cur_priority (k_task k))
}.

(** No ready task outranks the running one. *)
Definition preemptive (k : kernel) (A : gmap list_ptr (list item_ptr)) : Prop :=
  pendsv (k_cpu k) = false -> dos_scheduler_lock_count (k_sys k) = 0 ->
  forall c, k_tcbs k !! dos_current_task (k_task k) = Some c -> top_priority A (priority c).

(** How a call ends. *)
Inductive settled (k : kernel) (A : gmap list_ptr (list item_ptr)) (k' : kernel)
    (A' : gmap list_ptr (list item_ptr)) : Prop :=
| settled_quiet : A' = A -> k_store k' = k_store k -> k_tcbs k' = k_tcbs k ->
    k_task k' = k_task k -> k_cpu k' = k_cpu k -> k_sys k' = k_sys k -> settled k A k' A'
| settled_sched k1 : kinv k1 A' -> dos_scheduler k1 = Done (tt, k') -> k_sys k1 = k_sys k ->
    pendsv (k_cpu k1) = pendsv (k_cpu k) -> settled k A k' A'.

Lemma sched_enabled_running k :
  running k -> sched_enabled k = (dos_scheduler_lock_count (k_sys k) =? 0).
Proof. intros [Hr Hc]. unfold sched_enabled. rewrite Hr, Hc. simpl. by rewrite andb_true_r. Qed.

(** A pass of the enabled scheduler leaves the highest ready priority on the
    processor or requests the switch to it. *)
Lemma scheduler_settles k A k' :
  kinv k A -> running k -> dos_scheduler_lock_count (k_sys k) = 0 ->
  dos_scheduler k = Done (tt, k') ->
  sched_state k' A /\ preemptive k' A.
Proof.
  intros HI Hrn Hlock Hrun. destruct (ti_current _ _ _ _ _ HI) as [c HT].
  destruct (ti_lists _ _ _ _ _ HI (PriorityList (priority c))) as [xs HA];
    [apply (tk_priority _ _ _ (ti_task _ _ _ _ _ HI _ _ HT))|].
  destruct (scheduler_run k A _ c xs HI HT HA) as (k1 & Hrun1 & Hrs & Hpend & Hcp).
  assert (k1 = k') as -> by congruence.
  rewrite (sched_enabled_running k Hrn), Hlock, Z.eqb_refl in Hpend, Hcp. simpl in Hpend.
  pose proof (top_priority_highest _ _ HI) as Htop. rewrite <- Hcp in Htop, Hpend.
  destruct (rs_task _ _ Hrs) as [p Hg]. destruct (rs_tcbs _ _ Hrs) as (c0 & HT0 & n & HT1).
  assert (c0 = c) as -> by congruence.
  assert (Hcur : k_tcbs k' !! dos_current_task (k_task k') = Some (set_task_tick n c)).
  { rewrite HT1, Hg. simpl. apply lookup_insert_eq. }
  assert (Hrd : pendsv (k_cpu k') = false -> ready c = true).
  { rewrite Hpend. intros [_ Hf]%orb_false_iff. destruct (ready c); [done|].
    by rewrite orb_true_r in Hf. }
  split; [split|].
  - intros Hp. exists (set_task_tick n c). split; [done|]. by apply Hrd.
  - intros _. by rewrite (rs_sys _ _ Hrs).
  - intros Hp _ c' HT'. assert (c' = set_task_tick n c) as -> by congruence.
    specialize (Hrd Hp). rewrite Hpend in Hp. apply orb_false_iff in Hp as [_ Hp]. change (priority (set_task_tick n c)) with (priority c).
    replace (priority c) with (dos_cur_priority (k_task k')); [done|]. apply Z.le_antisymm.
    + exact (top_priority_le _ _ _ _ _ HI Htop HT Hrd).
    + destruct (Z.ltb_spec (dos_cur_priority (k_task k')) (priority c)); [done|lia].
Qed.

Lemma scheduler_locked k k' :
  dos_scheduler_lock_count (k_sys k) <> 0 -> dos_scheduler k = Done (tt, k') -> k' = k.
Proof.
  intros Hl. unfold dos_scheduler, dos_is_in_interrupt, dos_scheduler_is_lock. kstep.
  destruct (negb (dos_interrupt_count (k_sys k) =? 0)); [by intros [= ->]|]. kstep.
  rewrite (proj2 (Z.eqb_neq _ _) Hl). simpl. by intros [= ->].
Qed.

(** However a call ends, the scheduler state is as it has to be; with the
    scheduler locked the caller must not have been blocked. *)
Lemma settled_ok k A k' A' :
  settled k A k' A' -> running k -> pendsv (k_cpu k) = false -> sched_state k A ->
  (dos_scheduler_lock_count (k_sys k) <> 0 ->
     exists c, k_tcbs k' !! dos_current_task (k_task k') = Some c /\ ready c = true) ->
  sched_state k' A' /\ (preemptive k A -> preemptive k' A').
Proof.
  intros [-> Hs HT Hg Hc Hy | k1 HI1 Hrun Hy Hp1] Hrn Hp Hss Hlk.
  - destruct Hss as [S1 S2]. split; [split|].
    + by rewrite HT, Hg, Hc.
    + by rewrite Hy, Hg, Hc.
    + unfold preemptive. by rewrite HT, Hg, Hc, Hy.
  - destruct Hrn as [Hr1 Hr2].
    destruct (decide (dos_scheduler_lock_count (k_sys k) = 0)) as [Hl|Hl].
    + destruct (scheduler_settles k1 A' k' HI1) as [H1 H2]; try done;
        [split; by rewrite Hy | by rewrite Hy].
    + assert (k' = k1) as -> by (apply scheduler_locked; [by rewrite Hy | done]).
      split; [split|].
      * intros _. by apply Hlk.
      * by rewrite Hp1, Hp.
      * intros _ _. by rewrite Hy.
Qed.

(** ** Deadlines *)

(** The task is to be woken when the tick counter reaches [v] at the latest. *)
Definition timed_wait (k : kernel) (t v : Z) : Prop :=
  exists c, k_tcbs k !! t = Some c /\ delayed c = true /\ item_val (k_store k) (StatusItem t) = v.

Definition is_ready (k : kernel) (t : Z) : Prop :=
  exists c, k_tcbs k !! t = Some c /\ ready c = true.

(** Every deadline is kept or was met. *)
Definition deadlines_kept (k k' : kernel) : Prop :=
  forall t v, timed_wait k t v -> is_ready k' t \/ timed_wait k' t v.

(** No tick has passed. *)
Definition time_kept (k k' : kernel) : Prop :=
  dos_tick_count (k_task k') = dos_tick_count (k_task k) /\ deadlines_kept k k'.

(** The task was put on [l] by a call with this timeout. *)
Definition waits_on (l : list_ptr) (timeout : Z) (k k' : kernel) (t : Z) : Prop :=
  loc (k_store k') (PendItem t) = Some l /\
  (timeout <> DOS_WAIT_FOREVER -> timed_wait k' t (u32 (dos_tick_count (k_task k) + timeout))).

Lemma frame_deadlines ls ws k A k' A' :
  frame ls ws k A k' A' -> (forall t, t ∈ ws -> is_ready k' t \/ forall v, ~ timed_wait k t v) ->
  deadlines_kept k k'.
Proof.
  intros F Hws t v Hw. destruct (decide (t ∈ ws)) as [Hin|Hn].
  - destruct (Hws t Hin) as [Hr|Hno]; [by left | by destruct (Hno v)].
  - right. destruct Hw as (c & HT & Hd & Hv). destruct (fr_tasks _ _ _ _ _ _ F t c Hn HT) as (c' & HT' & Hf).
    exists c'. rewrite (sf_delayed _ _ Hf), (fr_wakes _ _ _ _ _ _ F) by done. done.
Qed.

(** A ready task waits for no tick. *)
Lemma ready_no_wait k A lo t v : tinv_at k A lo -> is_ready k t -> ~ timed_wait k t v.
Proof.
  intros HI (c & HT & Hr) (c' & HT' & Hd & _). assert (c' = c) as -> by congruence.
  destruct (tk_status _ _ _ (ti_task _ _ _ _ _ HI _ _ HT)) as (l & _ & Hs).
  clear -Hs Hr Hd. destruct l; simpl in Hs; naive_solver congruence.
Qed.

(** ** Blocking *)

(** The caller of a blocking call waits on [l]: it is queued in the order of
    its priority, is not ready, and nothing but the list and the caller
    changed. *)
Record blocked (l : list_ptr) (timeout : Z) (c : dos_task_cb) (k : kernel)
    (A : gmap list_ptr (list item_ptr)) (k' : kernel) (A' : gmap list_ptr (list item_ptr)) :
    Prop := {
  bl_kinv : kinv k' A';
  bl_waiters : waiters k' A' l =
    enqueue (item_val (k_store k) (PendItem (dos_current_task (k_task k))),
             dos_current_task (k_task k)) (waiters k A l);
  bl_list : is_Some (A' !! l);
  bl_waits : waits_on l timeout k k' (dos_current_task (k_task k));
  bl_task : exists n, k_tcbs k' !! dos_current_task (k_task k) =
                        Some (set_task_tick n (waiting timeout c));
  bl_other : forall t c', t <> dos_current_task (k_task k) -> k_tcbs k !! t = Some c' ->
    k_tcbs k' !! t = Some c';
  bl_objs : same_objs k k';
  bl_frame : frame [l] [dos_current_task (k_task k)] k A k' A';
  bl_settled : forall k0 A0, k_sys k0 = k_sys k -> pendsv (k_cpu k0) = pendsv (k_cpu k) ->
    settled k0 A0 k' A'
}.

Lemma blocked_flags l timeout c k A k' A' :
  blocked l timeout c k A k' A' ->
  exists c', k_tcbs k' !! dos_current_task (k_task k) = Some c' /\ ready c' = false /\
    suspended c' = true /\ timed_out c' = timed_out c.
Proof.
  intros HB. destruct (bl_task _ _ _ _ _ _ _ HB) as [n HT].
  destruct (waiting_flags timeout c) as (W1 & W2 & W3 & _). by eexists.
Qed.

(** What the blocking calls do: wait, enable interrupts, schedule. *)
Lemma block_run k A c l timeout :
  let t := dos_current_task (k_task k) in
  kinv k A -> k_tcbs k !! t = Some c -> t <> dos_idle_task (k_task k) -> ready c = true ->
  suspended c = false -> is_Some (A !! l) -> is_pend_list l = true -> 0 < timeout < 2 ^ 32 ->
  exists k1 k' A', dos_task_wait l timeout (assign_primask 1 k) = Done (tt, k1) /\
    dos_scheduler (assign_primask (primask (k_cpu k)) k1) = Done (tt, k') /\
    blocked l timeout c k A k' A'.
Proof.
  intros t HI HT Hidle Hr Hs [xs HA] Hl Hto.
  assert (Hfree : loc (k_store k) (PendItem t) = Some ListNull).
  { destruct (tk_pend _ _ _ (ti_task _ _ _ _ _ HI _ _ HT)) as (lp & Hlp & Hok). rewrite Hlp.
    clear -Hok Hs. destruct lp; naive_solver congruence. }
  destruct (wait_spec (assign_primask 1 k) A c l xs timeout HI HT Hidle Hr Hfree HA Hl Hto) as
    (k1 & A1 & Hrun & HI1 & HA1 & HA1' & HT1 & Hv1 & Hl1 & Hd1 & _ & Hg1 & Hr1).
  set (k2 := assign_primask (primask (k_cpu k)) k1).
  destruct (scheduler_ok k2 A1 (dos_tick_count (k_task k1)) HI1) as (k3 & Hrun2 & Hrs).
  exists k1, k3, A1. split; [done|]. split; [done|].
  assert (HF : frame [l] [t] k A k2 A1).
  { apply (frame_masked _ _ k A k1 A1 1).
    destruct (one_list_dom A A1 l [l]) as [HD1 HD2]; [by eauto | done | left |].
    eapply (frame_update [l] [t] t); try done; [left | by eauto | |].
    - intros t' Hn%not_elem_of_cons. apply Hv1. naive_solver.
    - intros t' Hn%not_elem_of_cons. rewrite Hl1, decide_False; naive_solver. }
  assert (Hobj : same_objs k k3).
  { etrans; [|by apply rescheduled_objs]. by destruct (same_rest_objs _ _ Hr1). }
  split; try done; try (by eauto).
  - by apply (rescheduled_kinv k2).
  - rewrite (rescheduled_waiters _ _ _ _ Hrs). unfold waiters. rewrite HA1, HA. simpl.
    rewrite <- (enqueue_insert (item_val (k_store k)) (PendItem t)). apply map_ext_in.
    intros q Hq%list_elem_of_In. f_equal. apply Hv1. intros ->.
    apply elem_of_insert_sorted in Hq as [[=]|Hq].
    destruct (pend_items _ _ _ _ _ _ HI Hl HA Hq) as [? [=]].
  - split; [rewrite (rs_store _ _ Hrs); simpl; rewrite Hl1 by done; by rewrite decide_True|].
    intros Hf. destruct (Hd1 Hf) as [_ Hv]. destruct (rescheduled_task k2 k3 t (waiting timeout c) Hrs) as [n HT3].
    { simpl. rewrite HT1. apply lookup_insert_eq. }
    exists (set_task_tick n (waiting timeout c)). rewrite (rs_store _ _ Hrs). split_and!; [done | | done].
    change (delayed (waiting timeout c) = true). unfold waiting. rewrite (proj2 (Z.eqb_neq _ _) Hf).
    apply asleep_flags.
  - eapply (rescheduled_task _ _ _ _ Hrs). simpl. rewrite HT1. apply lookup_insert_eq.
  - intros t' c' Hne HT'. rewrite (rs_other _ _ t' Hrs).
    + simpl. by rewrite HT1, lookup_insert_ne.
    + simpl. rewrite (st_current _ _ Hg1). done.
  - eapply frame_trans; [exact HF|]. by apply frame_resched.
  - intros k0 A0 Hs0 Hp0. eapply (settled_sched _ _ _ _ k2); [done | done |..]; simpl.
    + by rewrite (sr_sys _ _ Hr1).
    + by rewrite (sr_cpu _ _ Hr1).
Qed.

(** ** Waking *)

(** The first waiter [t] of [l] was woken and the scheduler has run. *)
Record woke (l : list_ptr) (xs : list item_ptr) (t : Z) (c : dos_task_cb) (lo : Z) (k : kernel)
    (A : gmap list_ptr (list item_ptr)) (k' : kernel) (A' : gmap list_ptr (list item_ptr)) :
    Prop := {
  wo_tinv : tinv_at k' A' lo;
  wo_list : A' !! l = Some xs;
  wo_task : exists n, k_tcbs k' !! t = Some (set_task_tick n (woken c));
  wo_others : forall t' c', t' <> t -> k_tcbs k !! t' = Some c' ->
    exists n, k_tcbs k' !! t' = Some (set_task_tick n c');
  wo_loc : forall q, q <> StatusItem t -> q <> PendItem t ->
    loc (k_store k') q = loc (k_store k) q;
  wo_data : same_data (k_store k) (k_store k');
  wo_times : same_times (k_task k) (k_task k');
  wo_objs : same_objs k k';
  wo_frame : frame [l] [t] k A k' A';
  wo_settled : lo = dos_tick_count (k_task k) -> forall k0 A0, k_sys k0 = k_sys k ->
    pendsv (k_cpu k0) = pendsv (k_cpu k) -> settled k0 A0 k' A'
}.

Lemma woke_flags l xs t c lo k A k' A' :
  woke l xs t c lo k A k' A' ->
  exists c', k_tcbs k' !! t = Some c' /\ ready c' = true /\ suspended c' = false /\
    timed_out c' = timed_out c.
Proof.
  intros HW. destruct (wo_task _ _ _ _ _ _ _ _ _ HW) as [n HT].
  destruct (woken_flags c) as (W1 & _ & W3 & W4 & _). by eexists.
Qed.

Lemma woke_kinv l xs t c k A k' A' :
  woke l xs t c (dos_tick_count (k_task k)) k A k' A' -> kinv k' A'.
Proof.
  intros HW. unfold kinv. rewrite (st_tick _ _ (wo_times _ _ _ _ _ _ _ _ _ HW)). apply HW.
Qed.

(** The waiters that are left. *)
Lemma woke_waiters l w ws xs t c lo k A k' A' :
  woke l xs t c lo k A k' A' -> A !! l = Some (PendItem t :: xs) -> waiters k A l = w :: ws ->
  w.2 = t /\ waiters k' A' l = ws.
Proof.
  intros HW HA. unfold waiters. rewrite HA, (wo_list _ _ _ _ _ _ _ _ _ HW). simpl.
  intros [= <- <-]. split; [done|]. apply map_ext. intros q. f_equal.
  apply item_val_same, HW.
Qed.

Lemma wake_run k A lo l t c xs pri :
  tinv_at k A lo -> is_pend_list l = true -> A !! l = Some (PendItem t :: xs) ->
  k_tcbs k !! t = Some c ->
  exists k1 k' A', dos_task_wake t k = Done (tt, k1) /\
    dos_scheduler (assign_primask pri k1) = Done (tt, k') /\
    woke l xs t c lo (assign_primask pri k) A k' A'.
Proof.
  intros HI Hl HA HT. destruct (wake_waiter_spec k A lo l t c xs HI Hl HA HT)
    as (k1 & A1 & Hrun1 & HI1 & HA1 & HA1' & HT1 & Hg1 & Hsd1 & Hr1 & Hl1).
  set (k2 := assign_primask pri k1). destruct (scheduler_ok k2 A1 lo HI1) as (k3 & Hrun2 & Hrs).
  exists k1, k3, A1. split; [done|]. split; [done|].
  pose proof (rescheduled_times _ _ Hrs) as Hg3.
  assert (Hr2 : same_rest (assign_primask pri k) k2).
  { destruct Hr1. split; simpl; congruence. }
  split; try done.
  - exact (rescheduled_tinv k2 k3 A1 lo HI1 Hrs).
  - eapply (rescheduled_task _ _ _ _ Hrs). simpl. rewrite HT1. apply lookup_insert_eq.
  - intros t' c' Hne HT'. eapply (rescheduled_task _ _ _ _ Hrs). simpl.
    by rewrite HT1, lookup_insert_ne.
  - intros q Hq1 Hq2. rewrite (rs_store _ _ Hrs). by apply Hl1.
  - by rewrite (rs_store _ _ Hrs).
  - destruct Hg1, Hg3. split; simpl in *; congruence.
  - etrans; [by apply same_rest_objs | by apply rescheduled_objs].
  - eapply frame_trans; [|by apply frame_resched].
    destruct (one_list_dom A A1 l [l]) as [HD1 HD2]; [by eauto | done | left |].
    eapply (frame_update [l] [t] t); try done; [left | | |].
    + intros t'. by apply item_val_same.
    + intros t' _. by apply item_val_same.
    + intros t' Hn%not_elem_of_cons. apply Hl1; naive_solver.
  - simpl. intros -> k0 A0 Hs0 Hp0. eapply (settled_sched _ _ _ _ k2); [|done|..].
    + unfold kinv. simpl. by rewrite (st_tick _ _ Hg1).
    + simpl. by rewrite (sr_sys _ _ Hr1).
    + simpl. by rewrite (sr_cpu _ _ Hr1).
Qed.

(** The waker fetches the task first. *)
Lemma wake_first_run k A lo l q xs pri :
  tinv_at k A lo -> is_pend_list l = true -> A !! l = Some (q :: xs) ->
  exists t c s1 k2 k' A', q = PendItem t /\ k_tcbs k !! t = Some c /\ suspended c = true /\
    on_store (dos_get_first_task l) k = Done (t, set_k_store s1 k) /\
    dos_task_wake t (set_k_store s1 k) = Done (tt, k2) /\
    dos_scheduler (assign_primask pri k2) = Done (tt, k') /\
    woke l xs t c lo (assign_primask pri k) A k' A'.
Proof.
  intros HI Hl HA. destruct (first_waiter _ _ _ _ _ _ HI Hl HA)
    as (t & c & s1 & -> & HT & Hs & Hrun1 & HI1 & Hit & Hsd1).
  destruct (wake_run (set_k_store s1 k) A lo l t c xs pri HI1 Hl HA HT)
    as (k2 & k3 & A3 & Hrun2 & Hrun3 & [W1 W2 W3 W4 W5 W6 W7 W8 W9 W10]).
  exists t, c, s1, k2, k3, A3. split_and!; try done. split; try done.
  - intros q Hq1 Hq2. rewrite W5 by done. unfold loc, fld. simpl. by rewrite Hit.
  - by etrans.
  - by destruct W8.
  - eapply frame_trans; [|exact W9].
    change (assign_primask pri (set_k_store s1 k)) with (set_k_store s1 (assign_primask pri k)).
    by apply frame_cursor.
Qed.

(** A call that failed without a change. *)
Ltac unchanged :=
  split_and!; try done; [apply frame_refl | by apply settled_quiet | by intros ? ?%elem_of_nil].

(** ** The end of a wait *)

(** What is left to do when the caller of a blocking call runs again. *)
Definition wait_end (t : Z) (c : dos_task_cb) : kprog Z :=
  if timed_out c then
    pri ← dos_interrupt_disable;
    wait_timed_out t;;
    dos_interrupt_enable pri;;
    mret DOS_NOK
  else mret DOS_OK.

(** If the wait timed out the task has left its pend list; otherwise nothing
    changed. *)
Record ended (t : Z) (c : dos_task_cb) (k : kernel) (A : gmap list_ptr (list item_ptr))
    (k' : kernel) (A' : gmap list_ptr (list item_ptr)) : Prop := {
  en_kinv : kinv k' A';
  en_lists : A' = if timed_out c then remove_item (PendItem t) <$> A else A;
  en_tcbs : k_tcbs k' = if timed_out c then <[t := timeout_cleared c]> (k_tcbs k) else k_tcbs k;
  en_task : k_task k' = k_task k;
  en_data : same_data (k_store k) (k_store k');
  en_loc : forall q, loc (k_store k') q =
    if decide (q = PendItem t /\ timed_out c = true) then Some ListNull else loc (k_store k) q;
  en_rest : same_rest k k'
}.

Lemma ended_quiet t c k A : kinv k A -> timed_out c = false -> ended t c k A k A.
Proof.
  intros HI Hto. split; rewrite ?Hto; try done. intros q. by rewrite decide_False by naive_solver.
Qed.

Lemma ended_removed k A t c :
  kinv k A -> k_tcbs k !! t = Some c -> ready c = true -> timed_out c = true ->
  exists k' A', wait_timed_out t k = Done (tt, k') /\ ended t c k A k' A'.
Proof.
  intros HI HT Hr Hto. destruct (wait_timed_out_spec k A t c HI HT Hr)
    as (k2 & Hrun & HI2 & HT2 & Hg2 & Hsd2 & Hl2 & Hr2).
  exists k2, (remove_item (PendItem t) <$> A). split; [done|].
  split; try done; try (by rewrite Hto). intros q. rewrite Hl2.
  do 2 case_decide; naive_solver.
Qed.

Lemma wait_end_run k A t c :
  kinv k A -> k_tcbs k !! t = Some c -> ready c = true ->
  exists k' A', wait_end t c k = Done (if timed_out c then DOS_NOK else DOS_OK, k') /\
    ended t c k A k' A'.
Proof.
  intros HI HT Hr. unfold wait_end. destruct (timed_out c) eqn:Hto.
  - kstep. destruct (ended_removed (assign_primask 1 k) A t c HI HT Hr Hto)
      as (k2 & A2 & Hrun & [E1 E2 E3 E4 E5 E6 E7]).
    exists (assign_primask (primask (k_cpu k)) k2), A2. split; [by run_with Hrun|].
    split; try done. pose proof (sr_cpu _ _ E7) as Hc. destruct E7. split; try done. simpl. rewrite Hc.
    by destruct k as [? ? ? ? [] ? ? ? ? ? ? ? ? ? ?].
  - exists k, A. split; [done|]. by apply ended_quiet.
Qed.

(** The task that goes on is not waiting any more. *)
Lemma ended_flags t c k A k' A' :
  ended t c k A k' A' -> k_tcbs k !! t = Some c -> ready c = true ->
  (timed_out c = false -> suspended c = false) ->
  exists c', k_tcbs k' !! t = Some c' /\ ready c' = true /\ suspended c' = false /\
    timed_out c' = false.
Proof.
  intros HE HT Hr Hs. rewrite (en_tcbs _ _ _ _ _ _ HE). destruct (timed_out c) eqn:Hto.
  - destruct (timeout_cleared_flags c) as (F1 & _ & F3 & F4 & _). exists (timeout_cleared c).
    by rewrite lookup_insert_eq.
  - exists c. split_and!; try done. by apply Hs.
Qed.

(** The ready lists are as before. *)
Lemma ended_ready_lists t c k A k' A' i :
  ended t c k A k' A' -> kinv k A -> A' !! PriorityList i = A !! PriorityList i.
Proof.
  intros HE HI. rewrite (en_lists _ _ _ _ _ _ HE). destruct (timed_out c); [|done].
  rewrite lookup_fmap. destruct (A !! PriorityList i) as [xs|] eqn:HA; [|done]. simpl. f_equal.
  apply remove_item_notin. intros Hin.
  by destruct (in_ready_list _ _ _ _ _ HI HA Hin) as (? & ? & [=] & _).
Qed.

Lemma top_priority_ext A A' p :
  (forall i, A' !! PriorityList i = A !! PriorityList i) -> top_priority A p -> top_priority A' p.
Proof.
  intros HA (H1 & H2 & H3). split_and!; [lia | lia | by rewrite HA |].
  intros i Hi. rewrite HA. by apply H3.
Qed.

Lemma ended_sched t c k A k' A' :
  ended t c k A k' A' -> kinv k A -> t = dos_current_task (k_task k) -> k_tcbs k !! t = Some c ->
  ready c = true -> sched_state k A ->
  sched_state k' A' /\ (preemptive k A -> preemptive k' A').
Proof.
  intros HE HI -> HT Hr [S1 S2]. 
  assert (HA : forall i, A' !! PriorityList i = A !! PriorityList i)
    by (intros i; by eapply ended_ready_lists).
  destruct (timeout_cleared_flags c) as (F1 & _ & _ & _ & F5).
  assert (Hc : exists c', k_tcbs k' !! dos_current_task (k_task k') = Some c' /\
            ready c' = true /\ priority c' = priority c).
  { rewrite (en_task _ _ _ _ _ _ HE), (en_tcbs _ _ _ _ _ _ HE). destruct (timed_out c).
    - exists (timeout_cleared c). by rewrite lookup_insert_eq.
    - by exists c. }
  destruct Hc as (c' & HT' & Hr' & Hp'). destruct (en_rest _ _ _ _ _ _ HE) as [Hy Hcpu _ _ _ _ _ _ _ _ _ _].
  split; [split|].
  - eauto.
  - rewrite Hcpu, Hy, (en_task _ _ _ _ _ _ HE). intros H. destruct (S2 H) as [H1 H2].
    split; [done|]. by eapply top_priority_ext.
  - unfold preemptive. rewrite Hcpu, Hy. intros HP H1 H2 c2 HT2.
    assert (c2 = c') as -> by congruence. rewrite Hp'. eapply top_priority_ext; [done|].
    by apply HP.
Qed.
