(* ===== verification/LockSpec.v ===== *)
(** * The scheduler lock, and allocation under it

    [dos_mem_alloc] locks the scheduler around the search of the heap; the
    unlock at its end runs the scheduler.  For the rest of the kernel the call
    is the change of the heap followed by a pass of the scheduler. *)

From S2P Require Import Prelude TaskList TaskListSpec Mem MemSpec Priority Kernel Sched KernelInv.
From S2P Require Import SchedSpec IpcSpec FrameSpec.

Abbreviation lock_count k := (dos_scheduler_lock_count (k_sys k)).

(** Restoring PRIMASK after a change of the lock count. *)
Lemma lock_masked n k :
  assign_primask (primask (k_cpu k)) (assign_dos_scheduler_lock_count n (assign_primask 1 k)) =
  assign_dos_scheduler_lock_count n k.
Proof. by destruct k as [? ? ? [] [] ? ? ? ? ? ? ? ? ? ?]. Qed.

Lemma lock_run k :
  0 <= lock_count k < 255 ->
  dos_scheduler_lock k = Done (tt, assign_dos_scheduler_lock_count (lock_count k + 1) k).
Proof.
  intros Hn. unfold dos_scheduler_lock. kstep.
  change (lock_count (assign_primask 1 k)) with (lock_count k). rewrite u8_small by lia.
  unfold dos_interrupt_enable, modify. by rewrite lock_masked.
Qed.

(** How an unlock ends: the scheduler runs when the last lock is released. *)
Lemma unlock_run k A lo :
  tinv_at k A lo -> 0 < lock_count k < 256 ->
  let k1 := assign_dos_scheduler_lock_count (lock_count k - 1) k in
  exists k', dos_scheduler_unlock k = Done (tt, k') /\ rescheduled k1 k' /\
    if lock_count k =? 1 then dos_scheduler k1 = Done (tt, k') else k' = k1.
Proof.
  intros HI Hn k1. unfold dos_scheduler_unlock. kstep.
  change (lock_count (assign_primask 1 k)) with (lock_count k).
  rewrite (proj2 (Z.gtb_lt _ _)) by lia. kstep. rewrite u8_small by lia.
  assert (HI1 : tinv_at k1 A lo) by done.
  destruct (Z.eqb_spec (lock_count k) 1) as [E|E].
  - rewrite (proj2 (Z.eqb_eq (lock_count k - 1) 0)) by lia. kstep. rewrite lock_masked.
    destruct (scheduler_ok k1 A lo HI1) as (k' & Hrun & Hrs). by exists k'.
  - rewrite (proj2 (Z.eqb_neq (lock_count k - 1) 0)) by lia. exists k1.
    unfold dos_interrupt_enable, modify. rewrite lock_masked. split_and!; try done.
    apply rescheduled_refl, HI1.
Qed.

(** A critical region of the scheduler lock: what runs inside changes the state
    to [f k], and the lock count is as before. *)
Lemma locked_region k A lo (f : kernel -> kernel) :
  0 <= lock_count k < 255 ->
  (forall n j, assign_dos_scheduler_lock_count n (f j) = f (assign_dos_scheduler_lock_count n j)) ->
  (forall j, k_sys (f j) = k_sys j) -> tinv_at (f k) A lo ->
  exists k', dos_scheduler_unlock (f (assign_dos_scheduler_lock_count (lock_count k + 1) k)) = Done (tt, k') /\
    rescheduled (f k) k' /\ if lock_count k =? 0 then dos_scheduler (f k) = Done (tt, k') else k' = f k.
Proof.
  intros Hn Hf Hs HI. set (k1 := assign_dos_scheduler_lock_count (lock_count k + 1) k).
  assert (E1 : lock_count (f k1) = lock_count k + 1) by (by rewrite Hs).
  assert (E2 : assign_dos_scheduler_lock_count (lock_count (f k1) - 1) (f k1) = f k).
  { rewrite Hf, E1. f_equal. unfold k1. replace (lock_count k + 1 - 1) with (lock_count k) by lia.
    by destruct k as [? ? ? [] ? ? ? ? ? ? ? ? ? ? ?]. }
  destruct (unlock_run (f k1) A lo) as (k' & Hrun & Hrs & Hc).
  - unfold k1. by rewrite <- Hf.
  - lia.
  - exists k'. rewrite E2 in Hrs, Hc. split_and!; try done. rewrite E1 in Hc.
    destruct (Z.eqb_spec (lock_count k) 0) as [E|E].
    + by rewrite (proj2 (Z.eqb_eq (lock_count k + 1) 1)) in Hc by lia.
    + by rewrite (proj2 (Z.eqb_neq (lock_count k + 1) 1)) in Hc by lia.
Qed.

(** Allocation as the kernel calls it. *)
Lemma mem_alloc_call k A n r h :
  kinv k A -> 0 <= lock_count k < 255 -> align_mem_heap_begin (k_heap k) <> DOS_NULL ->
  mem_alloc n (k_heap k) = Done (r, h) ->
  exists k', dos_mem_alloc n k = Done (r, k') /\ rescheduled (set_k_heap h k) k'.
Proof.
  intros HI Hn Hb Hrun. unfold dos_mem_alloc. run_with (lock_run k Hn). kstep.
  set (k1 := assign_dos_scheduler_lock_count (lock_count k + 1) k).
  change (k_heap k1) with (k_heap k). rewrite (proj2 (Z.eqb_neq _ _) Hb).
  assert (Hrun1 : on_heap (mem_alloc n) k1 = Done (r, set_k_heap h k1)) by (by apply zoom_done).
  run_with Hrun1. destruct (locked_region k A (dos_tick_count (k_task k)) (set_k_heap h) Hn)
    as (k' & Hrun2 & Hrs & _); [done | done | exact HI |].
  exists k'. split; [|done]. by run_with Hrun2.
Qed.

(** The block that the call gives. *)
Lemma mem_alloc_fresh k A bs n :
  let s := DOS_ALIGN n DOS_ALIGN_SIZE in
  kinv k A -> 0 <= lock_count k < 255 -> heap_rep (k_heap k) bs -> 0 <= n <= 2 ^ 32 - 4 ->
  no_tight_fit s bs ->
  exists r k', dos_mem_alloc n k = Done (r, k') /\ rescheduled (set_k_heap (k_heap k') k) k' /\
    n <= s /\ alloc_result (k_heap k) bs s r (k_heap k').
Proof.
  intros s HI Hl Hrep Hn Ht. destruct (mem_alloc_ok (k_heap k) bs n Hrep Hn Ht) as (r & h & Hrun & Hs & Hres).
  destruct (mem_alloc_call k A n r h HI Hl) as (k' & Hrun' & Hrs); [|done|].
  { pose proof (hr_begin _ _ Hrep). unfold DOS_NULL. lia. }
  pose proof (rs_heap _ _ Hrs) as Hh. simpl in Hh. exists r, k'. rewrite Hh. done.
Qed.
