(* ===== verification/AllocSpec.v ===== *)
(** * Allocation and the memory invariant

    What the objects of the kernel share when they are created: an allocation
    keeps the kernel invariant and the memory invariant, and gives a block that
    belongs to no object. *)

From S2P Require Import Prelude TaskList Mem MemSpec Kernel Sched KernelInv MemInv.
From S2P Require Import SchedSpec IpcSpec FrameSpec LockSpec.

(** The objects that are not tasks. *)
Record same_others (k k' : kernel) : Prop := {
  oth_sems : k_sems k' = k_sems k;
  oth_mutexes : k_mutexes k' = k_mutexes k;
  oth_queues : k_queues k' = k_queues k;
  oth_events : k_events k' = k_events k;
  oth_swtmrs : k_swtmrs k' = k_swtmrs k;
  oth_memps : k_memps k' = k_memps k;
  oth_fifos : k_fifos k' = k_fifos k
}.

Lemma same_rest_others k k' : same_rest k k' -> same_others k k'.
Proof. by intros []. Qed.

Lemma finished_tick n c : finished (set_task_tick n c) = finished c.
Proof. done. Qed.

Lemma rescheduled_mem k k' : rescheduled k k' -> same_mem k k'.
Proof.
  intros Hrs. split; [apply (rs_heap _ _ Hrs)|].
  assert (Hu : forall i, exists n, used_task k' i = set_task_tick n <$> used_task k i).
  { intros i. unfold used_task, in_use. rewrite (rs_store _ _ Hrs).
    destruct (rs_tcbs _ _ Hrs) as (c & HT & n & ->).
    destruct (decide (dos_current_task (k_task k) = i)) as [<-|Hne].
    - exists n. rewrite lookup_insert_eq, HT. simpl. rewrite finished_tick. by case_match.
    - rewrite lookup_insert_ne by done. destruct (k_tcbs k !! i) as [ci|]; [|by exists 0]. exists (task_tick ci).
      simpl. case_match; [|done]. simpl. by rewrite set_task_tick_id. }
  intros o i. destruct (Hu i) as [n Hn].
  destruct o; simpl; rewrite ?(rs_sems _ _ Hrs), ?(rs_mutexes _ _ Hrs), ?(rs_queues _ _ Hrs),
    ?(rs_events _ _ Hrs), ?(rs_swtmrs _ _ Hrs), ?(rs_memps _ _ Hrs), ?(rs_fifos _ _ Hrs), ?Hn; try done;
    by destruct (used_task k i).
Qed.

(** An allocation as the rest of the kernel sees it. *)
Lemma alloc_step k A bs n :
  let s := DOS_ALIGN n DOS_ALIGN_SIZE in
  kinv k A -> mem_inv k bs -> 0 <= lock_count k < 255 -> 0 <= n <= 2 ^ 32 - 4 -> no_tight_fit s bs ->
  exists r k', dos_mem_alloc n k = Done (r, k') /\ kinv k' A /\ n <= s /\ lock_count k' = lock_count k /\
    k_store k' = k_store k /\ same_others k k' /\
    (forall t c, k_tcbs k !! t = Some c -> exists m, k_tcbs k' !! t = Some (set_task_tick m c)) /\
    (forall o i, block_of k' o i = block_of k o i) /\
    if decide (r = DOS_NULL) then k_heap k' = k_heap k /\ mem_inv k' bs
    else unowned k r /\ 0 < r /\ r + s < 2 ^ 32 /\ exists bs' sz, mem_inv k' bs' /\ cut_from bs sz s bs' /\
      (r, s) ∈ used_blocks (k_heap k') bs' /\ (forall z, (r, z) ∉ used_blocks (k_heap k) bs) /\
      used_blocks (k_heap k') bs' ≡ₚ (r, s) :: used_blocks (k_heap k) bs.
Proof.
  intros s HI HM Hl Hn Ht. destruct (mem_alloc_fresh k A bs n HI Hl (mi_heap _ _ HM) Hn Ht)
    as (r & k' & Hrun & Hrs & Hs & Hres). fold s in Hs, Hres. exists r, k'. pose proof (rescheduled_mem _ _ Hrs) as Hsm.
  split; [done|]. split; [by eapply rescheduled_kinv; [|exact Hrs]|]. split; [done|].
  split; [by rewrite (rs_sys _ _ Hrs)|]. split; [apply (rs_store _ _ Hrs)|]. split; [by destruct Hrs|].
  split; [intros t c HT; exact (rescheduled_task _ _ t c Hrs HT)|]. split; [intros o i; apply (sm_block _ _ Hsm)|].
  case_decide as Hr.
  - subst r. apply alloc_result_null in Hres. split; [done|]. rewrite Hres in Hsm.
    replace (set_k_heap (k_heap k) k) with k in Hsm by (by destruct k). by eapply mem_inv_same.
  - pose proof (alloc_result_range _ _ _ _ _ (mi_heap _ _ HM) Hres Hr) as [H1 H2].
    split; [eapply alloc_result_unowned; [done | exact Hres | done | lia]|]. split; [done|]. split; [done|].
    destruct (mem_inv_reserve k bs s r _ HM Hres Hr) as (bs' & sz & HM' & Hcut & Hu). exists bs', sz.
    split; [by eapply mem_inv_same|]. split; [done|]. split; [rewrite Hu; left|]. split; [|done].
    intros z. eapply alloc_result_new; [apply HM | exact Hres | done | lia].
Qed.
