(* ===== verification/TaskSpec.v ===== *)
(** * The life of a task

    [dos_task_create] takes two blocks from the heap, makes the task ready with
    an initial stack frame inside its stack, and gives the memory back when the
    second allocation fails.  [dos_task_delete] takes the task out of every list
    and gives its memory back, or leaves that to the idle task when a task
    deletes itself.  All of them keep the kernel invariant and the memory
    invariant. *)

From S2P Require Import Prelude TaskList Ring TaskListSpec Mem MemSpec Priority Kernel Sched KernelInv MemInv.
From S2P Require Import SchedSpec IpcSpec FrameSpec LockSpec AllocSpec Task KernelCheck Boot.

(** ** Memory of the tasks *)

(** Where the blocks of [k'] come from when only task [t] changed. *)
Lemma block_of_task t k k' :
  same_others k k' -> (forall t', t' <> t -> block_of k' OStack t' = block_of k OStack t') ->
  forall o i b, block_of k' o i = Some b ->
    block_of k o i = Some b \/ (i = t /\ (o = OTask \/ o = OStack)).
Proof.
  intros [S1 S2 S3 S4 S5 S6 S7] Ht o i b. destruct (decide (i = t)) as [->|Hne].
  - destruct o; simpl; rewrite ?S1, ?S2, ?S3, ?S4, ?S5, ?S6, ?S7; auto.
  - specialize (Ht i Hne). intros Hb. left. rewrite <- Hb.
    destruct o; simpl in *; rewrite ?S1, ?S2, ?S3, ?S4, ?S5, ?S6, ?S7; try done.
    by destruct (used_task k' i), (used_task k i).
Qed.

(** ** A new control block *)

(** No task in use has its control block at [t]. *)
Definition vacant (k : kernel) (t : Z) : Prop :=
  forall c, k_tcbs k !! t = Some c -> in_use k t c = false.

Lemma unowned_vacant k t : unowned k t -> vacant k t.
Proof.
  intros Hu c HT. destruct (in_use k t c) eqn:E; [|done]. destruct (Hu OTask t SIZEOF_TASK).
  simpl. unfold used_task. rewrite HT. simpl. by rewrite E.
Qed.

Lemma finished_flags c : finished c = true <-> ready c = false /\ delayed c = false /\ suspended c = false.
Proof. unfold finished. rewrite negb_true_iff, !orb_false_iff. tauto. Qed.

(** The items at such an address are in no list. *)
Lemma vacant_items k A lo t p :
  tinv_at k A lo -> vacant k t -> is_end p = false -> item_task p = t ->
  loc (k_store k) p = None \/ loc (k_store k) p = Some ListNull.
Proof.
  intros HI Hv Hend Hp. destruct (items (k_store k) !! p) as [it|] eqn:Hit.
  - right. destruct (ti_items _ _ _ _ _ HI p Hend) as [c HT]; [by eauto|]. rewrite Hp in HT.
    pose proof (Hv c HT) as Hu. unfold in_use in Hu. apply orb_false_iff in Hu as [Hf Hr].
    apply negb_false_iff, finished_flags in Hf as (F1 & F2 & F3). apply bool_decide_eq_false in Hr.
    destruct (ti_task _ _ _ _ _ HI _ _ HT) as [_ _ _ _ _ (l & Hl & Hs) (l' & Hl' & Hs')].
    destruct p as [?|t'|t']; simpl in Hp; subst; [done| |].
    + rewrite Hl in Hr |- *. f_equal. clear -Hs Hr F1 F2. destruct l; simpl in Hs; naive_solver congruence.
    + rewrite Hl'. f_equal. clear -Hs' F3. destruct l'; simpl in Hs'; congruence || done.
  - left. unfold loc, fld. by rewrite Hit.
Qed.

(** The two items of a new task. *)
Definition new_items (t prio : Z) (s : store) : store :=
  put_item (PendItem t) (mk_item (PendItem t) (PendItem t) prio t ListNull)
    (put_item (StatusItem t) (mk_item (StatusItem t) (StatusItem t) 0 t ListNull) s).

Lemma upd_put_item p f it s :
  upd_item p f (put_item p it s) = Done (tt, put_item p (f it) s).
Proof.
  unfold upd_item. run_by ltac:(apply item_at_run; simpl; apply lookup_insert_eq).
  unfold modify, put_item. simpl. by rewrite insert_insert_eq.
Qed.

Lemma put_item_comm p q it it' s :
  p <> q -> put_item p it (put_item q it' s) = put_item q it' (put_item p it s).
Proof. intros H. unfold put_item. simpl. by rewrite insert_insert_ne. Qed.

Lemma new_items_run t prio (m : kprog Z) k :
  (on_store (dos_task_item_init (StatusItem t));;
   on_store (dos_task_item_init (PendItem t));;
   on_store (upd_item (StatusItem t) (set_owner t));;
   on_store (upd_item (PendItem t) (set_owner t));;
   on_store (upd_item (PendItem t) (set_value prio));; m) k =
  m (set_k_store (new_items t prio (k_store k)) k).
Proof.
  run_by ltac:(apply on_store_run; apply item_init_run).
  run_by ltac:(apply on_store_run; apply item_init_run). cbn [k_store set_k_store].
  rewrite (put_item_comm (PendItem t)) by done.
  run_by ltac:(apply on_store_run; apply upd_put_item). cbn [k_store set_k_store].
  rewrite (put_item_comm (StatusItem t)) by done.
  run_by ltac:(apply on_store_run; apply upd_put_item). cbn [k_store set_k_store].
  by run_by ltac:(apply on_store_run; apply upd_put_item).
Qed.

Lemma new_items_fld {B} (pr : dos_task_item_t -> B) t prio s q :
  item_task q <> t \/ is_end q = true -> fld pr (new_items t prio s) q = fld pr s q.
Proof. intros Hq. unfold new_items. rewrite !fld_put, !decide_False; [done|..]; intros ->; simpl in Hq; naive_solver. Qed.

Lemma new_items_rep k A lo t prio :
  tinv_at k A lo -> vacant k t -> Z.of_nat (size (items (k_store k))) + 2 < 2 ^ 32 ->
  store_rep (new_items t prio (k_store k)) A.
Proof.
  intros HI Hv Hsz. assert (HS1 : store_rep (put_item (StatusItem t) (mk_item (StatusItem t) (StatusItem t) 0 t ListNull)
      (k_store k)) A).
  { apply put_item_rep; [apply HI | lia | done | done | by apply (vacant_items k A lo t)]. }
  apply put_item_rep; [done | | done | done |].
  - pose proof (size_insert_le (k_store k) (StatusItem t) (mk_item (StatusItem t) (StatusItem t) 0 t ListNull)). lia.
  - rewrite fld_put, decide_False by done. by apply (vacant_items k A lo t).
Qed.

Lemma tinv_new_task k A lo t c prio :
  tinv_at k A lo -> vacant k t -> finished c = true -> 0 <= priority c < 32 -> 0 <= prio <= DOS_UINT32_MAX ->
  Z.of_nat (size (items (k_store k))) + 2 < 2 ^ 32 ->
  tinv_at (put_task t c (set_k_store (new_items t prio (k_store k)) k)) A lo.
Proof.
  intros HI Hv Hf Hp Hpr Hsz. apply finished_flags in Hf as (F1 & F2 & F3).
  assert (Hs : forall B (pr : _ -> B), fld pr (new_items t prio (k_store k)) (StatusItem t) =
                 Some (pr (mk_item (StatusItem t) (StatusItem t) 0 t ListNull))).
  { intros B pr. unfold new_items. by rewrite !fld_put, decide_False, decide_True. }
  assert (Hq : forall B (pr : _ -> B), fld pr (new_items t prio (k_store k)) (PendItem t) =
                 Some (pr (mk_item (PendItem t) (PendItem t) prio t ListNull))).
  { intros B pr. unfold new_items. by rewrite !fld_put, decide_True. }
  split; simpl.
  - by eapply new_items_rep.
  - apply HI.
  - intros p Hend Hx. rewrite lookup_insert_is_Some. destruct (decide (t = item_task p)) as [|Hne]; [by left|right].
    split; [done|]. apply (ti_items _ _ _ _ _ HI p Hend). simpl in Hx.
    rewrite !lookup_insert_ne in Hx by (intros <-; done). done.
  - intros t' c'. destruct (decide (t = t')) as [<-|Hne].
    + rewrite lookup_insert_eq. intros [= <-]. split; rewrite ?Hs, ?Hq; try done; unfold item_val; rewrite ?Hs, ?Hq; simpl.
      * unfold DOS_UINT32_MAX. lia.
      * done.
      * exists ListNull. unfold loc. by rewrite Hs.
      * exists ListNull. unfold loc. by rewrite Hq.
    + rewrite lookup_insert_ne by done. intros HT'. destruct (ti_task _ _ _ _ _ HI _ _ HT') as [K1 K2 K3 K4 K5 K6 K7].
      unfold loc, item_val in *. split; unfold loc, item_val; rewrite ?new_items_fld by (left; done); done.
  - apply HI.
  - destruct (ti_sleep _ _ _ _ _ HI) as [S1 S2 S3 S4 S5 S6].
    assert (Hcase : forall p sl, is_end p = false -> is_sleep_list sl = true ->
      loc (new_items t prio (k_store k)) p = Some sl ->
      loc (k_store k) p = Some sl /\ item_val (new_items t prio (k_store k)) p = item_val (k_store k) p).
    { intros p sl Hend Hsl Hl. unfold loc, item_val in *. destruct (decide (item_task p = t)) as [E|E].
      - destruct p as [|t'|t']; simpl in E; subst; [done|..]; rewrite ?Hs, ?Hq in Hl; injection Hl as <-; done.
      - by rewrite !new_items_fld in * by (by left). }
    split; try done; intros p Hend Hl.
    + destruct (Hcase p (dos_task_sleep_list (k_task k)) Hend) as [Hl' ->]; [by destruct S1 as [[-> _]|[-> _]] | done | by apply S5].
    + destruct (Hcase p (dos_task_sleep_overflow_list (k_task k)) Hend) as [Hl' ->]; [by destruct S1 as [[_ ->]|[_ ->]] | done | by apply S6].
  - destruct (ti_idle _ _ _ _ _ HI) as (ci & Hci & Hr). exists ci. rewrite lookup_insert_ne; [done|].
    intros ->. specialize (Hv ci Hci). unfold in_use, finished in Hv. by rewrite Hr in Hv.
  - rewrite lookup_insert_is_Some. destruct (decide (t = dos_current_task (k_task k))); [by left | right].
    split; [done|]. apply HI.
Qed.

Definition readied_lists (val : item_ptr -> Z) (t prio : Z) (A : gmap list_ptr (list item_ptr)) :
    gmap list_ptr (list item_ptr) :=
  <[PriorityList prio := insert_sorted val (StatusItem t) (default [] (A !! PriorityList prio))]> A.

(** A task that is in no list becomes ready. *)
Lemma make_ready_spec k A lo t c :
  tinv_at k A lo -> k_tcbs k !! t = Some c -> finished c = true ->
  loc (k_store k) (StatusItem t) = Some ListNull ->
  let c' := DOS_SET_TASK_STATUS DOS_TASK_STATUS_READY c in
  exists s', let k' := set_k_store s' (put_task t c' (assign_dos_task_priority
        (Z.lor (dos_task_priority (k_task k)) (priority_bit (priority c))) k)) in
    _dos_insert_task_priority_list t k = Done (tt, k') /\
    tinv_at k' (readied_lists (item_val (k_store k)) t (priority c) A) lo /\
    same_data (k_store k) s' /\
    (forall q, loc s' q = if decide (q = StatusItem t) then Some (PriorityList (priority c)) else loc (k_store k) q).
Proof.
  intros HI HT Hf Hloc c'. apply finished_flags in Hf as (F1 & F2 & F3).
  pose proof (ti_task _ _ _ _ _ HI _ _ HT) as HK.
  destruct (ti_lists _ _ _ _ _ HI (PriorityList (priority c)) (tk_priority _ _ _ HK)) as [xs HA].
  destruct (insert_ready_run k A t c xs) as (s' & Hrun & HS' & Hsd & Hl);
    [apply HI | done | done | apply HK | done |].
  exists s'. split; [exact Hrun|]. split; [|done].
  destruct (status_flags_set DOS_TASK_STATUS_READY c) as (G1 & G2 & G3 & _). fold c' in G1, G2, G3. simpl in G1, G2, G3.
  rewrite F1 in G1. rewrite F2 in G2. rewrite F3 in G3. simpl in G1, G2, G3.
  destruct (tk_pend _ _ _ HK) as (lp & Hlp & Hpk).
  unfold readied_lists. rewrite HA. cbn [default].
  eapply (tinv_moved _ _ (k_task k) A _ _ _ t c c' (PriorityList (priority c)) lp); simpl; try done.
  - intros. by apply insert_lookup_is_some.
  - intros q Hq _. by rewrite Hl, decide_False.
  - by rewrite Hl, decide_True.
  - by rewrite Hl, decide_False.
  - eapply pend_ok_ext; [done|]. congruence.
  - apply HK.
  - eapply bitmap_ok_set; [apply HI | apply HK | |].
    + rewrite lookup_insert_eq. intros [= E]. by apply insert_sorted_nonempty in E.
    + intros i Hi Hne. rewrite lookup_insert_ne by congruence. done.
Qed.

(** ** The initial stack *)

(** The sixteen words of the first context lie inside the stack, below an
    8-byte aligned top. *)
Lemma initial_stack_frame addr size entry exit param :
  0 <= addr -> addr + size < 2 ^ 32 -> 72 <= size ->
  let top := stack_top addr size in
  let sp := (dos_stack_init ∅ top entry exit param).1 in
  addr <= sp /\ sp + 64 = top /\ top < addr + size /\ top mod 8 = 0.
Proof.
  intros Ha He Hs top sp. assert (Ht : top = 8 * ((addr + (size - 1)) / 8)).
  { unfold top, stack_top. rewrite (u32_small (size - 1)), u32_small by lia. apply (land_not_ones (addr + (size - 1)) 3); lia. }
  pose proof (Z.div_mod (addr + (size - 1)) 8 ltac:(lia)). pose proof (Z.mod_pos_bound (addr + (size - 1)) 8 ltac:(lia)).
  assert (Hsp : sp = top - 64).
  { unfold sp, dos_stack_init, skip_words, push. cbn [fst].
    rewrite (u32_small (top - 4)), (u32_small (top - 4 - 4)), (u32_small (top - 4 - 4 - 4)),
      (u32_small (top - 4 - 4 - 4 - 4 * 4)), (u32_small (top - 4 - 4 - 4 - 4 * 4 - 4)), u32_small by lia. lia. }
  split_and!; [lia..|]. rewrite Ht, Z.mul_comm. apply Z.mod_mul. lia.
Qed.

(** ** Creation *)

(** Two requests in a row meet no tight fit. *)
Definition room_for (s1 s2 : Z) (bs : list blk) : Prop :=
  no_tight_fit s1 bs /\ no_tight_fit s2 bs /\
  forall b, b ∈ bs -> no_tight_fit s2 [(b.1 - s1 - MEM_NODE_SIZE, b.2)].

Lemma room_after_cut s1 s2 bs sz bs' :
  room_for s1 s2 bs -> cut_from bs sz s1 bs' -> no_tight_fit s2 bs'.
Proof.
  intros (_ & H2 & H3) (l1 & l2 & -> & ->) b Hb Hc.
  apply elem_of_app in Hb as [Hb|[->|[->|Hb]%elem_of_cons]%elem_of_cons].
  - apply H2; [set_solver | done].
  - discriminate Hc.
  - apply (H3 (sz, false)); [set_solver | by left | done].
  - apply H2; [set_solver | done].
Qed.

Definition created_task (raw : dos_task_cb) (name entry param stack size prio tick : Z) : dos_task_cb :=
  DOS_SET_TASK_STATUS DOS_TASK_STATUS_READY
    (_dos_task_init (new_task raw name entry param stack size prio (if tick =? 0 then 1 else tick))).

(** The second half of [dos_task_create], when both blocks are there. *)
Lemma create_core k A bs raw name entry param t stack size prio tick s1 s2 :
  kinv k A -> mem_inv k bs -> 0 <= prio < 32 -> finished raw = true ->
  Z.of_nat (base.size (items (k_store k))) + 2 < 2 ^ 32 ->
  unowned k t -> unowned k stack -> t <> stack ->
  (t, s1) ∈ used_blocks (k_heap k) bs -> (stack, s2) ∈ used_blocks (k_heap k) bs -> SIZEOF_TASK <= s1 -> size <= s2 ->
  let c := _dos_task_init (new_task raw name entry param stack size prio (if tick =? 0 then 1 else tick)) in
  let c' := created_task raw name entry param stack size prio tick in
  let k1 := put_task t c (set_k_store (new_items t prio (k_store k)) k) in
  exists k', _dos_insert_task_priority_list t k1 = Done (tt, k') /\
    kinv k' (readied_lists (item_val (k_store k1)) t prio A) /\ mem_inv k' bs /\
    k_tcbs k' = <[t := c']> (k_tcbs k) /\ item_val (k_store k') (PendItem t) = prio /\
    k_heap k' = k_heap k /\ same_others k k'.
Proof.
  intros HI HM Hp Hraw Hsz Hut Hus Hne Hbt Hbs Hs1 Hs2 c c' k1.
  assert (Hpr : priority c = prio) by done. assert (Hf : finished c = true) by exact Hraw.
  assert (HI1 : kinv k1 A).
  { apply (tinv_new_task k A _ t c prio); try done; [by apply unowned_vacant | unfold DOS_UINT32_MAX; lia]. }
  destruct (make_ready_spec k1 A _ t c HI1) as (s' & Hrun & HI' & Hsd & Hloc); [apply lookup_insert_eq | done | |].
  { unfold k1, new_items, loc. simpl. by rewrite !fld_put, decide_False, decide_True. }
  eexists. split; [exact Hrun|]. split; [exact HI'|]. split; [|split; [by simpl; rewrite insert_insert_eq | split; [|done]]].
  2:{ simpl. rewrite (item_val_same _ _ _ Hsd). unfold k1, new_items, item_val. simpl. by rewrite !fld_put, decide_True. }
  set (k' := set_k_store s' _) in *. assert (Hoth : same_others k k') by done.
  assert (HT : k_tcbs k' !! t = Some c') by (simpl; apply lookup_insert_eq).
  assert (Hu : used_task k' t = Some c').
  { assert (Hr : ready c' = true).
    { destruct (status_flags_set DOS_TASK_STATUS_READY c) as [H _]. by rewrite orb_true_r in H. }
    unfold used_task. rewrite HT. simpl. unfold in_use, finished. by rewrite Hr. }
  apply (mem_inv_grow k bs k' bs [(OTask, t, (t, SIZEOF_TASK)); (OStack, t, (stack, size))]);
    [done | apply HM | done | | |].
  - intros o i b Hb. destruct (block_of_task t k k' Hoth) with (2 := Hb) as [H|[-> Ho]]; [|by left|].
    + intros t' Hn. unfold block_of, used_task, in_use. simpl. rewrite !lookup_insert_ne, Hloc, decide_False by congruence.
      unfold k1, loc. simpl. rewrite new_items_fld by (by left). done.
    + right. destruct Ho as [-> | ->]; simpl in Hb; rewrite Hu in Hb; injection Hb as <-; [left | right; left].
  - intros o i a n [[= -> -> -> ->]|[= -> -> -> ->]%list_elem_of_singleton]%elem_of_cons; eauto.
  - intros o1 i1 o2 i2 a n1 n2 [[= -> -> -> ->]|[= -> -> -> ->]%list_elem_of_singleton]%elem_of_cons
      [[= -> -> ->]|[= -> -> ->]%list_elem_of_singleton]%elem_of_cons; done.
Qed.

Lemma create_run raw name entry param size prio tick k A bs :
  let s1 := DOS_ALIGN SIZEOF_TASK DOS_ALIGN_SIZE in
  let s2 := DOS_ALIGN size DOS_ALIGN_SIZE in
  kinv k A -> mem_inv k bs -> 0 <= lock_count k < 255 -> 0 <= prio < 32 -> 0 <= size <= 2 ^ 32 - 4 ->
  room_for s1 s2 bs -> finished raw = true -> Z.of_nat (base.size (items (k_store k))) + 2 < 2 ^ 32 ->
  exists t k' A' bs', dos_task_create raw name entry param size prio tick k = Done (t, k') /\
    kinv k' A' /\ mem_inv k' bs' /\
    (forall u c, k_tcbs k !! u = Some c -> in_use k u c = true ->
       exists m, k_tcbs k' !! u = Some (set_task_tick m c)) /\
    if decide (t = DOS_NULL) then A' = A /\ used_blocks (k_heap k') bs' ≡ₚ used_blocks (k_heap k) bs
    else exists stack val, unowned k t /\ unowned k stack /\ 0 < stack /\ stack + s2 < 2 ^ 32 /\ size <= s2 /\
      k_tcbs k' !! t = Some (created_task raw name entry param stack size prio tick) /\
      item_val (k_store k') (PendItem t) = prio /\ A' = readied_lists val t prio A /\
      used_blocks (k_heap k') bs' ≡ₚ (t, s1) :: (stack, s2) :: used_blocks (k_heap k) bs.
Proof.
  intros s1 s2 HI HM Hl Hp Hsz Hroom Hraw Hit. unfold dos_task_create.
  assert ((prio >? DOS_MAX_PRIORITY_NUM) = false) as -> by (unfold DOS_MAX_PRIORITY_NUM; lia).
  destruct (alloc_step k A bs SIZEOF_TASK HI HM Hl) as (t & k1 & Hrun1 & HI1 & Hs1 & Hl1 & Hst1 & Ho1 & HT1 & Hb1 & R1);
    [unfold SIZEOF_TASK; lia | apply Hroom |]. fold s1 in Hs1, R1. run_with Hrun1.
  destruct (Z.eqb_spec t DOS_NULL) as [->|Ht].
  { rewrite decide_True in R1 by done. destruct R1 as [Hh HM1]. exists DOS_NULL, k1, A, bs.
    rewrite decide_True, Hh by done. split_and!; try done. intros u c HT _. by apply HT1. }
  rewrite decide_False in R1 by done. destruct R1 as (Hut & Ht0 & _ & bs1 & sz1 & HM1 & Hcut1 & Hin1 & _ & Hu1).
  assert (HneU : forall u c, k_tcbs k !! u = Some c -> in_use k u c = true -> u <> t).
  { intros u c HT Hu ->. apply unowned_vacant in Hut. rewrite (Hut c HT) in Hu. done. }
  destruct (alloc_step k1 A bs1 size HI1 HM1) as (stack & k2 & Hrun2 & HI2 & Hs2 & Hl2 & Hst2 & Ho2 & HT2 & Hb2 & R2);
    [by rewrite Hl1 | done | by eapply room_after_cut |]. fold s2 in Hs2, R2. run_with Hrun2.
  assert (HT12 : forall u c, k_tcbs k !! u = Some c -> exists m, k_tcbs k2 !! u = Some (set_task_tick m c)).
  { intros u c [m HT]%HT1. destruct (HT2 _ _ HT) as [m' HT']. by exists m'. }
  assert (Hut2 : unowned k2 t) by (intros o i n; rewrite Hb2, Hb1; apply Hut).
  destruct (Z.eqb_spec stack DOS_NULL) as [->|Hs].
  { rewrite decide_True in R2 by done. destruct R2 as [Hh HM2]. rewrite <- Hh in Hin1, Hu1.
    destruct (mem_inv_release k2 bs1 t s1 HM2 Hin1 Hut2) as (h & bs3 & Hfree & HM3 & Hu3).
    assert (Hrun3 : dos_mem_free t k2 = Done (DOS_OK, set_k_heap h k2)) by (by apply zoom_done).
    run_with Hrun3. exists DOS_NULL, (set_k_heap h k2), A, bs3. rewrite decide_True by done. split_and!; try done.
    - intros u c HT _. by apply HT12.
    - simpl. apply (Permutation_cons_inv (a := (t, s1))). by rewrite <- Hu3. }
  rewrite decide_False in R2 by done. destruct R2 as (Hus & Hs0 & Hsb & bs2 & sz2 & HM2 & _ & Hin2 & Hnew & Hu2).
  rewrite new_items_run. kstep.
  destruct (create_core k2 A bs2 raw name entry param t stack size prio tick s1 s2 HI2 HM2)
    as (k' & Hrun3 & HI' & HM' & HT' & Hpv & Hh' & Ho'); try done.
  - rewrite Hst2, Hst1. done.
  - intros o i n. rewrite Hb2. apply Hus.
  - intros <-. by apply (Hnew s1).
  - rewrite Hu2. by right.
  - cbv zeta in Hrun3. run_with Hrun3. eexists t, k', _, bs2. rewrite decide_False by done.
    split_and!; try done.
    + intros u c HT Hu. rewrite HT', lookup_insert_ne by (by apply not_eq_sym, (HneU u c)). by apply HT12.
    + eexists stack, _. split_and!; try done.
      * intros o i n. rewrite <- Hb1. apply Hus.
      * rewrite HT'. apply lookup_insert_eq.
      * rewrite Hh', Hu2, Hu1. apply perm_swap.
Qed.

(** C11: Creation of a task.  Called with a priority below 32 and a stack size of at
    most 2^32 - 4, with a scheduler lock count below 255, fewer than 2^32 - 2 list
    items, and a heap in which neither of the two requests meets a tight fit (a
    block that is larger than the request by at most a header, [room_for]), and if
    the memory it gets for the control block has no status bit of a live task set
    ([finished]): [dos_task_create] ends, keeps the kernel invariant and the memory
    invariant, and no task in use changes but for its time slice.  (The code also
    accepts priority 32, takes tight fits and never clears the status bits; see the
    findings.)  When it returns null the heap has the blocks in use it had before: a
    control block allocated in vain is given back.  Otherwise it took two blocks
    that belonged to no object, the task is ready at its priority with the entry,
    the parameter and the stack it was given, the value of its pend item is its
    priority, and the first context of a stack of
    at least 72 bytes lies inside the stack with an aligned top. *)
Theorem task_create_ok raw name entry param size prio tick k A bs :
  let s1 := DOS_ALIGN SIZEOF_TASK DOS_ALIGN_SIZE in
  let s2 := DOS_ALIGN size DOS_ALIGN_SIZE in
  kinv k A -> mem_inv k bs -> 0 <= lock_count k < 255 -> 0 <= prio < 32 -> 0 <= size <= 2 ^ 32 - 4 ->
  room_for s1 s2 bs -> finished raw = true -> Z.of_nat (base.size (items (k_store k))) + 2 < 2 ^ 32 ->
  exists t k' A' bs', dos_task_create raw name entry param size prio tick k = Done (t, k') /\
    kinv k' A' /\ mem_inv k' bs' /\
    (forall u c, k_tcbs k !! u = Some c -> in_use k u c = true ->
       exists m, k_tcbs k' !! u = Some (set_task_tick m c)) /\
    if decide (t = DOS_NULL) then A' = A /\ used_blocks (k_heap k') bs' ≡ₚ used_blocks (k_heap k) bs
    else exists c xs xs', unowned k t /\ unowned k (stack_addr c) /\
      used_blocks (k_heap k') bs' ≡ₚ (t, s1) :: (stack_addr c, s2) :: used_blocks (k_heap k) bs /\
      A !! PriorityList prio = Some xs /\ A' = <[PriorityList prio := xs']> A /\ xs' ≡ₚ StatusItem t :: xs /\
      k_tcbs k' !! t = Some c /\ ready c = true /\ priority c = prio /\ task_entry c = entry /\
      parameter c = param /\ stack_size c = size /\ item_val (k_store k') (PendItem t) = prio /\
      (72 <= size -> stack_addr c <= stack_point c /\ stack_point c + 64 = top_of_stack c /\
         top_of_stack c < stack_addr c + size /\ top_of_stack c mod 8 = 0).
Proof.
  intros s1 s2 HI HM Hl Hp Hsz Hroom Hraw Hit.
  destruct (create_run raw name entry param size prio tick k A bs HI HM Hl Hp Hsz Hroom Hraw Hit)
    as (t & k' & A' & bs' & Hrun & HI' & HM' & HT & H). exists t, k', A', bs'. split_and!; try done.
  case_decide as Ht; [done|]. destruct H as (stack & val & Hut & Hus & Hs0 & Hs1 & Hs2 & HTt & Hpv & HA & Hu).
  destruct (ti_lists _ _ _ _ _ HI (PriorityList prio) Hp) as [xs HAx].
  exists (created_task raw name entry param stack size prio tick), xs, (insert_sorted val (StatusItem t) xs).
  split_and!; try done.
  - by rewrite HA; unfold readied_lists; rewrite HAx.
  - apply insert_sorted_perm.
  - destruct (status_flags_set DOS_TASK_STATUS_READY (_dos_task_init (new_task raw name entry param stack size
      prio (if tick =? 0 then 1 else tick)))) as [H _]. by rewrite orb_true_r in H.
  - intros H72. apply (initial_stack_frame stack size); lia.
Qed.

Definition fit_check2 (s1 s2 : Z) (bs : list blk) : bool :=
  fit_check s1 bs && fit_check s2 bs && forallb (fun b => fit_check s2 [(b.1 - s1 - MEM_NODE_SIZE, b.2)]) bs.

Lemma fit_check2_sound s1 s2 bs : fit_check2 s1 s2 bs = true -> room_for s1 s2 bs.
Proof.
  unfold fit_check2. rewrite !andb_true_iff, forallb_forall. intros [[H1 H2] H3].
  split; [by apply fit_check_sound|]. split; [by apply fit_check_sound|].
  intros b Hb%list_elem_of_In. apply fit_check_sound. by apply H3.
Qed.

Lemma task_create_ok_witness :
  exists t k' A' bs', dos_task_create raw_task 6 0x08000601 0 256 5 5 demo = Done (t, k') /\ kinv k' A' /\ mem_inv k' bs'.
Proof.
  assert (H1 : 0 <= lock_count demo < 255) by (assert (lock_count demo = 0) as -> by by_eval; lia).
  assert (H2 : fit_check2 (DOS_ALIGN SIZEOF_TASK DOS_ALIGN_SIZE) (DOS_ALIGN 256 DOS_ALIGN_SIZE)
                 (blocks_of (k_heap demo)) = true) by by_eval.
  assert (H3 : (Z.of_nat (base.size (items (k_store demo))) + 2 <? 2 ^ 32) = true) by by_eval.
  destruct (task_create_ok raw_task 6 0x08000601 0 256 5 5 demo (lists_of demo) (blocks_of (k_heap demo))
    demo_inv demo_mem_inv H1 ltac:(lia) ltac:(lia) (fit_check2_sound _ _ _ H2) eq_refl (proj1 (Z.ltb_lt _ _) H3))
    as (t & k' & A' & bs' & Hrun & HI & HM & _).
  exists t, k', A', bs'. exact (conj Hrun (conj HI HM)).
Defined.

(** ** Deletion *)

Definition deleted_task (c : dos_task_cb) : dos_task_cb :=
  DOS_SET_TASK_STATUS DOS_TASK_STATUS_UNUSED (DOS_RESET_TASK_STATUS DOS_TASK_STATUS_MASK c).

Lemma deleted_flags c : finished (deleted_task c) = true.
Proof.
  apply finished_flags. unfold deleted_task.
  destruct (status_flags_reset DOS_TASK_STATUS_MASK c) as (R1 & R2 & R3 & _).
  destruct (status_flags_set DOS_TASK_STATUS_UNUSED (DOS_RESET_TASK_STATUS DOS_TASK_STATUS_MASK c)) as (S1 & S2 & S3 & _).
  rewrite S1, S2, S3, R1, R2, R3. simpl. by rewrite !andb_false_r.
Qed.

(** Neither of the task's items is in a list. *)
Definition without_task (t : Z) (A : gmap list_ptr (list item_ptr)) : gmap list_ptr (list item_ptr) :=
  remove_item (PendItem t) <$> (remove_item (StatusItem t) <$> A).

(** Taking the task out of the ready or sleep list it is in. *)
Lemma leave_status_list k A t c :
  kinv k A -> k_tcbs k !! t = Some c -> loc (k_store k) (StatusItem t) <> Some RecycleList ->
  exists s' m, (if delayed c || ready c then
       pri ← dos_interrupt_disable; remove_from_status_list t;; dos_interrupt_enable pri
     else mret tt) k = Done (tt, assign_dos_task_priority m (set_k_store s' k)) /\
    store_rep s' (remove_item (StatusItem t) <$> A) /\ same_data (k_store k) s' /\
    (forall q, loc s' q = if decide (q = StatusItem t) then Some ListNull else loc (k_store k) q) /\
    bitmap_ok m (remove_item (StatusItem t) <$> A).
Proof.
  intros HI HT Hnr. pose proof (ti_task _ _ _ _ _ HI _ _ HT) as HK.
  destruct (tk_status _ _ _ HK) as (l & Hl & Hs). destruct (delayed c || ready c) eqn:E.
  - destruct (remove_status_run (assign_primask 1 k) A t c l) as (s' & m & Hrun & H);
      [apply HI | done | apply HK | done | apply (ti_lists _ _ _ _ _ HI), HK | apply HI | intros i ->; apply Hs |].
    exists s', m. split; [|done]. kstep. run_with Hrun.
    unfold dos_interrupt_enable, modify. by destruct k as [? ? ? ? [] ? ? ? ? ? ? ? ? ? ?].
  - apply orb_false_iff in E as [E1 E2].
    assert (l = ListNull) as -> by (clear -Hs Hl Hnr E1 E2; destruct l; simpl in Hs; naive_solver congruence).
    exists (k_store k), (dos_task_priority (k_task k)). rewrite (remove_free (k_store k)) by (apply HI || done).
    split_and!; try done; [by destruct k as [? ? [] ? ? ? ? ? ? ? ? ? ? ? ?] | apply HI | | apply HI].
    intros q. by case_decide; subst.
Qed.

(** Taking it out of the pend list it waits in. *)
Lemma leave_pend_list k A t c :
  store_rep (k_store k) A -> (exists l, loc (k_store k) (PendItem t) = Some l /\ pend_ok l c) ->
  exists s', (if suspended c then on_store (dos_task_item_del (PendItem t));; mret tt else mret tt) k =
      Done (tt, set_k_store s' k) /\
    store_rep s' (remove_item (PendItem t) <$> A) /\ same_data (k_store k) s' /\
    (forall q, loc s' q = if decide (q = PendItem t) then Some ListNull else loc (k_store k) q) /\
    (forall i, (remove_item (PendItem t) <$> A) !! PriorityList i = A !! PriorityList i).
Proof.
  intros HS (l & Hl & Hp). destruct (suspended c) eqn:E.
  - destruct (store_del_any (k_store k) A (PendItem t) l HS eq_refl Hl) as (n & s' & Hrun & HS' & Hsd & Hloc & _).
    exists s'. split_and!; try done; [by run_by ltac:(apply on_store_run; exact Hrun)|].
    intros i. eapply remove_other; [done | exact Hl |]. by intros <-.
  - assert (l = ListNull) as -> by (clear -Hp E; destruct l; simpl in Hp; congruence || done).
    exists (k_store k). rewrite (remove_free (k_store k)) by done.
    split_and!; try done; [by destruct k|]. intros q. by case_decide; subst.
Qed.

(** What is left of a deleted task before its memory is given back. *)
Record unlinked (t : Z) (c : dos_task_cb) (k : kernel) (A : gmap list_ptr (list item_ptr)) (k' : kernel) : Prop := {
  un_kinv : kinv k' (without_task t A);
  un_tcbs : k_tcbs k' = <[t := deleted_task c]> (k_tcbs k);
  un_loc : forall q, loc (k_store k') q =
    if decide (q = StatusItem t \/ q = PendItem t) then Some ListNull else loc (k_store k) q;
  un_data : same_data (k_store k) (k_store k');
  un_times : same_times (k_task k) (k_task k');
  un_rest : same_rest k k'
}.

Lemma unlink_run k A t c (m : kprog Z) :
  kinv k A -> k_tcbs k !! t = Some c -> t <> dos_idle_task (k_task k) ->
  loc (k_store k) (StatusItem t) <> Some RecycleList ->
  exists k', ((if delayed c || ready c then
       pri ← dos_interrupt_disable; remove_from_status_list t;; dos_interrupt_enable pri
     else mret tt);;
     (if suspended c then on_store (dos_task_item_del (PendItem t));; mret tt else mret tt);;
     upd_task t (DOS_RESET_TASK_STATUS DOS_TASK_STATUS_MASK);;
     upd_task t (DOS_SET_TASK_STATUS DOS_TASK_STATUS_UNUSED);; m) k = m k' /\ unlinked t c k A k'.
Proof.
  intros HI HT Hidle Hnr. pose proof (ti_task _ _ _ _ _ HI _ _ HT) as HK.
  destruct (leave_status_list k A t c HI HT Hnr) as (s1 & b & Hrun1 & HS1 & Hsd1 & Hl1 & Hbm). run_with Hrun1.
  set (k1 := assign_dos_task_priority b (set_k_store s1 k)).
  destruct (leave_pend_list k1 (remove_item (StatusItem t) <$> A) t c) as (s2 & Hrun2 & HS2 & Hsd2 & Hl2 & Hpl); [done| |].
  { destruct (tk_pend _ _ _ HK) as (l & Hl & Hp). exists l. simpl. by rewrite Hl1, decide_False. }
  run_with Hrun2. run_by ltac:(apply upd_task_run; exact HT).
  run_by ltac:(apply upd_task_run; simpl; apply lookup_insert_eq). fold (deleted_task c). rewrite put_task_twice.
  eexists. split; [done|]. pose proof (deleted_flags c) as Hf. apply finished_flags in Hf as (F1 & F2 & F3).
  assert (Hloc : forall q, loc s2 q =
    if decide (q = StatusItem t \/ q = PendItem t) then Some ListNull else loc (k_store k) q).
  { intros q. rewrite Hl2. simpl. rewrite Hl1. repeat case_decide; naive_solver. }
  assert (Hsd : same_data (k_store k) s2) by (by etrans).
  split; try done. eapply (tinv_moved _ _ (k_task k) A _ _ _ t c (deleted_task c) ListNull ListNull); simpl; try done.
  - intros l Hl. by apply fmap_lookup_is_some, fmap_lookup_is_some.
  - intros q Hq1 Hq2. rewrite Hloc, decide_False; [done|]. tauto.
  - by rewrite Hloc, decide_True by auto.
  - by rewrite Hloc, decide_True by auto.
  - apply HK.
  - eapply bitmap_ok_ext; [exact Hbm|]. intros i _. unfold without_task. by rewrite Hpl.
Qed.

(** The blocks of a task, owned by nothing else. *)
Lemma task_blocks k bs t c :
  mem_inv k bs -> k_tcbs k !! t = Some c -> in_use k t c = true ->
  exists s1 s2, (t, s1) ∈ used_blocks (k_heap k) bs /\ (stack_addr c, s2) ∈ used_blocks (k_heap k) bs /\
    t <> stack_addr c /\ SIZEOF_TASK <= s1 /\ stack_size c <= s2 /\
    forall o i n, block_of k o i = Some (t, n) \/ block_of k o i = Some (stack_addr c, n) ->
      i = t /\ (o = OTask \/ o = OStack).
Proof.
  intros HM HT Hu. assert (Hut : used_task k t = Some c) by (unfold used_task; rewrite HT; simpl; by rewrite Hu).
  assert (B1 : block_of k OTask t = Some (t, SIZEOF_TASK)) by (simpl; by rewrite Hut).
  assert (B2 : block_of k OStack t = Some (stack_addr c, stack_size c)) by (simpl; by rewrite Hut).
  destruct (mi_block _ _ HM _ _ _ _ B1) as (s1 & H1 & L1). destruct (mi_block _ _ HM _ _ _ _ B2) as (s2 & H2 & L2).
  exists s1, s2. split_and!; try done.
  - intros E. rewrite <- E in B2. by pose proof (mi_alone _ _ HM _ _ _ _ _ _ _ B1 B2).
  - intros o i n [H|H].
    + pose proof (mi_alone _ _ HM _ _ _ _ _ _ _ B1 H) as [= <- <-]. auto.
    + pose proof (mi_alone _ _ HM _ _ _ _ _ _ _ B2 H) as [= <- <-]. auto.
Qed.

(** Where the memory of a task goes when the task is no longer in use. *)
Lemma drop_task k bs k' t c :
  mem_inv k bs -> k_tcbs k !! t = Some c -> in_use k t c = true ->
  same_others k k' -> k_heap k' = k_heap k -> used_task k' t = None ->
  (forall t', t' <> t -> block_of k' OStack t' = block_of k OStack t') ->
  mem_inv k' bs /\ unowned k' t /\ unowned k' (stack_addr c).
Proof.
  intros HM HT Hu Ho Hh Hn Hk. destruct (task_blocks k bs t c HM HT Hu) as (s1 & s2 & _ & _ & _ & _ & _ & Hown).
  assert (Hnt : forall o b, (o = OTask \/ o = OStack) -> block_of k' o t <> Some b).
  { intros o b [-> | ->]; simpl; by rewrite Hn. }
  assert (Hold : forall o i b, block_of k' o i = Some b -> block_of k o i = Some b /\ ~ (i = t /\ (o = OTask \/ o = OStack))).
  { intros o i b Hb. split; [|intros [-> Ho']; by apply (Hnt o b)].
    destruct (block_of_task t k k' Ho Hk _ _ _ Hb) as [|[-> Ho']]; [done|]. by destruct (Hnt o b Ho'). }
  split; [eapply mem_inv_drop; [done | done|]; intros o i b Hb; by apply Hold|].
  split; intros o i n Hb; destruct (Hold _ _ _ Hb) as [Hb' Hno]; apply Hno, (Hown o i n); auto.
Qed.

(** Giving back both blocks; the control block is read after it was freed. *)
Lemma free_task_run {R} k bs t c s1 s2 (m : kprog R) :
  mem_inv k bs -> k_tcbs k !! t = Some c -> unowned k t -> unowned k (stack_addr c) -> t <> stack_addr c ->
  (t, s1) ∈ used_blocks (k_heap k) bs -> (stack_addr c, s2) ∈ used_blocks (k_heap k) bs ->
  exists h bs', (dos_mem_free t;; c' ← task_at t; dos_mem_free (stack_addr c');; m) k = m (set_k_heap h k) /\
    mem_inv (set_k_heap h k) bs' /\
    used_blocks (k_heap k) bs ≡ₚ (t, s1) :: (stack_addr c, s2) :: used_blocks h bs'.
Proof.
  intros HM HT Hu1 Hu2 Hne H1 H2.
  destruct (mem_inv_release k bs t s1 HM H1 Hu1) as (h1 & bs1 & Hf1 & HM1 & P1).
  assert (H2' : (stack_addr c, s2) ∈ used_blocks h1 bs1).
  { rewrite P1 in H2. apply elem_of_cons in H2 as [[= E _]|]; [by destruct Hne | done]. }
  destruct (mem_inv_release (set_k_heap h1 k) bs1 (stack_addr c) s2 HM1 H2' Hu2) as (h2 & bs2 & Hf2 & HM2 & P2).
  exists h2, bs2. split; [|split; [done | by rewrite P1; simpl in P2; rewrite P2]].
  assert (R1 : dos_mem_free t k = Done (DOS_OK, set_k_heap h1 k)) by (by apply zoom_done).
  assert (R2 : dos_mem_free (stack_addr c) (set_k_heap h1 k) = Done (DOS_OK, set_k_heap h2 k))
    by exact (zoom_done k_heap set_k_heap _ (set_k_heap h1 k) _ _ Hf2).
  run_with R1. run_by ltac:(apply task_at_run; exact HT). by run_with R2.
Qed.

Lemma live_not_unused c : finished c = false -> (DOS_TASK_STATUS_UNUSED =? task_status c) = false.
Proof.
  intros Hf. apply Z.eqb_neq. intros E. apply not_true_iff_false in Hf. apply Hf, finished_flags.
  unfold ready, delayed, suspended, has_status. by rewrite <- E.
Qed.

Lemma without_task_recycle t A l : is_Some (A !! l) -> is_Some (without_task t A !! l).
Proof. intros H. by apply fmap_lookup_is_some, fmap_lookup_is_some. Qed.

(** A task that deletes itself waits for the idle task. *)
Lemma recycle_run k A t c k' xs :
  kinv k A -> k_tcbs k !! t = Some c -> t <> dos_idle_task (k_task k) -> unlinked t c k A k' ->
  without_task t A !! RecycleList = Some xs ->
  exists k2 xs', on_store (dos_task_item_insert RecycleList (StatusItem t)) k' = Done (tt, k2) /\
    kinv k2 (<[RecycleList := xs']> (without_task t A)) /\ xs' ≡ₚ StatusItem t :: xs /\
    k_tcbs k2 = k_tcbs k' /\ k_task k2 = k_task k' /\ same_rest k' k2 /\
    (forall q, loc (k_store k2) q = if decide (q = StatusItem t) then Some RecycleList else loc (k_store k') q).
Proof.
  intros HI HT Hidle Un HA. pose proof (un_kinv _ _ _ _ _ Un) as HI'. set (A' := without_task t A) in *.
  assert (HT' : k_tcbs k' !! t = Some (deleted_task c)) by (rewrite (un_tcbs _ _ _ _ _ Un); apply lookup_insert_eq).
  assert (Hl : loc (k_store k') (StatusItem t) = Some ListNull) by (rewrite (un_loc _ _ _ _ _ Un), decide_True; auto).
  pose proof (ti_task _ _ _ _ _ HI' _ _ HT') as HK. pose proof (deleted_flags c) as Hf.
  apply finished_flags in Hf as (F1 & F2 & F3).
  destruct (store_insert (k_store k') A' RecycleList xs (StatusItem t)) as (s' & Hrun & HS' & Hsd & Hloc);
    [apply HI' | done | done | exact Hl | apply HK |].
  exists (set_k_store s' k'), (insert_sorted (item_val (k_store k')) (StatusItem t) xs).
  split; [by apply on_store_run|]. split_and!; [| apply insert_sorted_perm | done | done | done | exact Hloc].
  unfold kinv. simpl. rewrite <- (insert_id (k_tcbs k') t (deleted_task c)) by done.
  destruct (tk_pend _ _ _ HK) as (lp & Hlp & Hpk).
  eapply (tinv_moved _ _ (k_task k') A' _ _ _ t _ _ RecycleList lp); simpl; try done.
  - intros. by apply insert_lookup_is_some.
  - intros q Hq _. unfold loc. by rewrite Hloc, decide_False.
  - unfold loc. by rewrite Hloc, decide_True.
  - unfold loc. by rewrite Hloc, decide_False.
  - apply HK.
  - apply with_bitmap_id.
  - eapply bitmap_ok_ext; [apply HI'|]. intros i Hi. by rewrite lookup_insert_ne.
  - intros ->. rewrite (st_idle _ _ (un_times _ _ _ _ _ Un)) in Hidle. done.
Qed.

Lemma unlinked_others t c k A k' : unlinked t c k A k' ->
  forall t', t' <> t -> block_of k' OStack t' = block_of k OStack t'.
Proof.
  intros Un t' Hne. unfold block_of, used_task, in_use. rewrite (un_tcbs _ _ _ _ _ Un), lookup_insert_ne by done.
  rewrite (un_loc _ _ _ _ _ Un), decide_False; [done|]. intros [[=]|?]; done.
Qed.

Lemma unlinked_vacant t c k A k' : unlinked t c k A k' -> used_task k' t = None /\ vacant k' t.
Proof.
  intros Un. assert (Hn : in_use k' t (deleted_task c) = false).
  { unfold in_use. rewrite deleted_flags, (un_loc _ _ _ _ _ Un), decide_True by auto. by rewrite bool_decide_false. }
  split.
  - unfold used_task. rewrite (un_tcbs _ _ _ _ _ Un), lookup_insert_eq. simpl. by rewrite Hn.
  - intros c'. rewrite (un_tcbs _ _ _ _ _ Un), lookup_insert_eq. by intros [= <-].
Qed.

(** A task that is recycled keeps its memory. *)
Lemma recycled_mem t c k A k' k2 :
  unlinked t c k A k' -> k_tcbs k !! t = Some c -> in_use k t c = true ->
  k_tcbs k2 = k_tcbs k' -> same_rest k' k2 ->
  (forall q, loc (k_store k2) q = if decide (q = StatusItem t) then Some RecycleList else loc (k_store k') q) ->
  same_mem k k2.
Proof.
  intros Un HT Hu HT2 Hr Hl. pose proof (un_rest _ _ _ _ _ Un) as Hr1.
  split; [by rewrite (sr_heap _ _ Hr), (sr_heap _ _ Hr1)|].
  assert (used_task k2 t = Some (deleted_task c) /\ used_task k t = Some c) as [U1 U2].
  { unfold used_task. rewrite HT2, (un_tcbs _ _ _ _ _ Un), lookup_insert_eq, HT. simpl. rewrite Hu. unfold in_use.
    rewrite Hl, decide_True, bool_decide_true by done. by rewrite orb_true_r. }
  assert (Huo : forall i, i <> t -> used_task k2 i = used_task k i).
  { intros i Hi. unfold used_task, in_use. rewrite HT2, (un_tcbs _ _ _ _ _ Un), lookup_insert_ne by done.
    rewrite Hl, decide_False, (un_loc _ _ _ _ _ Un), decide_False by naive_solver. done. }
  destruct (same_rest_others _ _ Hr) as [S1 S2 S3 S4 S5 S6 S7], (same_rest_others _ _ Hr1) as [R1 R2 R3 R4 R5 R6 R7].
  intros o i. destruct o; simpl; rewrite ?S1, ?S2, ?S3, ?S4, ?S5, ?S6, ?S7, ?R1, ?R2, ?R3, ?R4, ?R5, ?R6, ?R7; try done.
  - destruct (decide (i = t)) as [->|Hi]; [by rewrite U1, U2 | by rewrite Huo].
  - destruct (decide (i = t)) as [->|Hi]; [by rewrite U1, U2 | by rewrite Huo].
Qed.

(** What deletion leaves: the memory is free again, or the task is to be
    recycled. *)
Definition deleted (t : Z) (c : dos_task_cb) (k : kernel) (A : gmap list_ptr (list item_ptr)) (bs : list blk)
    (k' : kernel) (A' : gmap list_ptr (list item_ptr)) (bs' : list blk) : Prop :=
  kinv k' A' /\ mem_inv k' bs' /\ k_tcbs k' = <[t := deleted_task c]> (k_tcbs k) /\
  same_times (k_task k) (k_task k') /\ k_sys k' = k_sys k /\ k_cpu k' = k_cpu k /\ same_others k k' /\
  if decide (t = dos_current_task (k_task k)) then
    exists xs xs', without_task t A !! RecycleList = Some xs /\ xs' ≡ₚ StatusItem t :: xs /\
      A' = <[RecycleList := xs']> (without_task t A) /\ bs' = bs /\ k_heap k' = k_heap k
  else A' = without_task t A /\ vacant k' t /\ exists s1 s2, SIZEOF_TASK <= s1 /\ stack_size c <= s2 /\
    used_blocks (k_heap k) bs ≡ₚ (t, s1) :: (stack_addr c, s2) :: used_blocks (k_heap k') bs'.

Lemma delete_run t c k A bs :
  kinv k A -> mem_inv k bs -> k_tcbs k !! t = Some c -> t <> DOS_NULL -> t <> dos_idle_task (k_task k) ->
  finished c = false -> loc (k_store k) (StatusItem t) <> Some RecycleList -> lock_count k = 0 ->
  exists k' A' bs', dos_task_delete t k = Done (DOS_OK, k') /\ deleted t c k A bs k' A' bs'.
Proof.
  intros HI HM HT Hn Hidle Hf Hnr Hlk. unfold dos_task_delete. rewrite (proj2 (Z.eqb_neq _ _) Hn).
  run_by ltac:(apply task_at_run; exact HT). rewrite (live_not_unused c Hf).
  unfold dos_scheduler_is_lock. kstep. rewrite Hlk. cbn [negb Z.eqb].
  fold (delayed c) (ready c) (suspended c).
  assert (Hu : in_use k t c = true) by (unfold in_use; by rewrite Hf).
  match goal with |- context [upd_task t (DOS_SET_TASK_STATUS DOS_TASK_STATUS_UNUSED);; ?m] =>
    destruct (unlink_run k A t c m HI HT Hidle Hnr) as (k1 & -> & Un) end. kstep.
  pose proof (same_rest_others _ _ (un_rest _ _ _ _ _ Un)) as Ho.
  rewrite (st_current _ _ (un_times _ _ _ _ _ Un)).
  destruct (Z.eqb_spec t (dos_current_task (k_task k))) as [Ec|Ec]; cbn [negb].
  - destruct (without_task_recycle t A RecycleList) as [xs HA]; [by apply (ti_lists _ _ _ _ _ HI)|].
    destruct (recycle_run k A t c k1 xs HI HT Hidle Un HA) as (k2 & xs' & Hrun & HI2 & Hp & HT2 & Hg & Hr & Hl).
    run_with Hrun. eexists k2, _, bs. split; [done|].
    pose proof (recycled_mem t c k A k1 k2 Un HT Hu HT2 Hr Hl) as Hsm. destruct (un_rest _ _ _ _ _ Un), Hr.
    unfold deleted. rewrite decide_True by done. split_and!; try congruence.
    + exact HI2.
    + by eapply mem_inv_same.
    + rewrite HT2. apply Un.
    + rewrite Hg. apply Un.
    + destruct Ho. split; congruence.
    + exists xs, xs'. split_and!; try done. congruence.
  - destruct (task_blocks k bs t c HM HT Hu) as (s1 & s2 & B1 & B2 & Hne & L1 & L2 & _).
    destruct (unlinked_vacant _ _ _ _ _ Un) as [Hnone Hvac].
    pose proof (sr_heap _ _ (un_rest _ _ _ _ _ Un)) as Hh.
    destruct (drop_task k bs k1 t c HM HT Hu Ho Hh Hnone (unlinked_others _ _ _ _ _ Un)) as (HM1 & U1 & U2).
    rewrite <- Hh in B1, B2.
    destruct (free_task_run k1 bs t (deleted_task c) s1 s2 (mret DOS_OK) HM1) as (h & bs' & Hrun & HM' & Hp); try done.
    { rewrite (un_tcbs _ _ _ _ _ Un). apply lookup_insert_eq. }
    exists (set_k_heap h k1), (without_task t A), bs'. split; [exact Hrun|]. rewrite Hh in Hp.
    unfold deleted. rewrite decide_False by done.
    destruct (un_rest _ _ _ _ _ Un). split_and!; try done; [apply Un | apply Un | apply Un |]. eauto.
Qed.

(** ** Recycling *)

(** The recycle list holds deleted tasks. *)
Definition recycle_ok (k : kernel) : Prop :=
  forall t c, k_tcbs k !! t = Some c -> loc (k_store k) (StatusItem t) = Some RecycleList -> finished c = true.

Lemma recycled_item k A x xs :
  kinv k A -> A !! RecycleList = Some (x :: xs) ->
  exists t c, x = StatusItem t /\ task_of (k_store k) x = t /\ k_tcbs k !! t = Some c /\
    loc (k_store k) (StatusItem t) = Some RecycleList.
Proof.
  intros HI HA. destruct (store_rep_in _ _ x _ _ (ti_store _ _ _ _ _ HI) HA) as [Hend Hl]; [left|].
  destruct (ti_items _ _ _ _ _ HI x Hend) as [c HT].
  { unfold fld in Hl. destruct (items (k_store k) !! x); [eauto | done]. }
  pose proof (ti_task _ _ _ _ _ HI _ _ HT) as HK. destruct x as [l|t|t]; [done| |]; simpl in HT, HK.
  - exists t, c. unfold task_of. by rewrite (tk_status_item _ _ _ HK).
  - destruct (tk_pend _ _ _ HK) as (l & Hl' & Hs). unfold loc in Hl'. rewrite Hl in Hl'. by simplify_eq.
Qed.

(** A deleted task leaves the recycle list. *)
Lemma leave_recycle_spec k A t c :
  kinv k A -> k_tcbs k !! t = Some c -> finished c = true -> loc (k_store k) (StatusItem t) = Some RecycleList ->
  exists n s', dos_task_item_del (StatusItem t) (k_store k) = Done (n, s') /\
    kinv (set_k_store s' k) (remove_item (StatusItem t) <$> A) /\ same_data (k_store k) s' /\
    (forall q, loc s' q = if decide (q = StatusItem t) then Some ListNull else loc (k_store k) q).
Proof.
  intros HI HT Hf Hl. pose proof (ti_task _ _ _ _ _ HI _ _ HT) as HK. pose proof Hf as Hf'.
  apply finished_flags in Hf' as (F1 & F2 & F3).
  destruct (store_del_any _ _ (StatusItem t) RecycleList (ti_store _ _ _ _ _ HI) eq_refl Hl)
    as (n & s' & Hrun & HS' & Hsd & Hloc & _). exists n, s'. split; [done|]. split; [|done].
  unfold kinv. simpl. rewrite <- (insert_id (k_tcbs k) t c) by done. destruct (tk_pend _ _ _ HK) as (lp & Hlp & Hpk).
  eapply (tinv_moved _ _ (k_task k) A _ _ _ t c c ListNull lp); simpl; try done.
  - intros. by apply fmap_lookup_is_some.
  - intros q Hq _. by rewrite Hloc, decide_False.
  - by rewrite Hloc, decide_True.
  - by rewrite Hloc, decide_False.
  - apply HK.
  - apply with_bitmap_id.
  - eapply bitmap_ok_ext; [apply HI|]. intros i Hi.
    rewrite (remove_other (k_store k) A _ RecycleList); [done | apply HI | done | done].
  - intros ->. destruct (ti_idle _ _ _ _ _ HI) as (ci & Hci & Hr). congruence.
Qed.

Lemma recycle_pass k A bs x xs :
  kinv k A -> mem_inv k bs -> recycle_ok k -> A !! RecycleList = Some (x :: xs) ->
  exists t c k' bs' s1 s2, x = StatusItem t /\ k_tcbs k !! t = Some c /\ idle_recycle k = Done (tt, k') /\
    kinv k' (remove_item x <$> A) /\ mem_inv k' bs' /\ recycle_ok k' /\ vacant k' t /\
    k_tcbs k' = k_tcbs k /\ k_task k' = k_task k /\ SIZEOF_TASK <= s1 /\ stack_size c <= s2 /\
    used_blocks (k_heap k) bs ≡ₚ (t, s1) :: (stack_addr c, s2) :: used_blocks (k_heap k') bs'.
Proof.
  intros HI HM Hrec HA. destruct (recycled_item k A x xs HI HA) as (t & c & -> & Htk & HT & Hl).
  pose proof (Hrec t c HT Hl) as Hf. unfold idle_recycle.
  run_by ltac:(apply on_store_run; exact (list_is_empty_run _ _ _ _ (ti_store _ _ _ _ _ HI) HA)).
  rewrite bool_decide_false by done. cbn [negb]. replace (set_k_store (k_store k) k) with k by (by destruct k).
  destruct (store_first _ _ _ _ _ (ti_store _ _ _ _ _ HI) HA) as (s1 & Hrun1 & HS1 & Hsd1 & Hl1 & Hi1).
  rewrite Htk in Hrun1. run_by ltac:(apply on_store_run; exact Hrun1).
  set (k1 := set_k_store s1 k). assert (HI1 : kinv k1 A) by (by eapply cursor_tinv).
  assert (Hloc1 : forall q, loc s1 q = loc (k_store k) q) by (intros q; unfold loc; by rewrite Hl1).
  destruct (leave_recycle_spec k1 A t c HI1 HT Hf) as (n & s2 & Hrun2 & HI2 & Hsd2 & Hl2).
  { simpl. by rewrite Hloc1. }
  run_by ltac:(apply on_store_run; exact Hrun2). set (k2 := set_k_store s2 k1).
  assert (Hloc2 : forall q, loc (k_store k2) q = if decide (q = StatusItem t) then Some ListNull else loc (k_store k) q).
  { intros q. simpl. rewrite Hl2. simpl. by rewrite Hloc1. }
  assert (Hu : in_use k t c = true) by (unfold in_use; by rewrite Hl, bool_decide_true, orb_true_r).
  assert (Hvac : vacant k2 t).
  { intros c' HT'. change (k_tcbs k !! t = Some c') in HT'. assert (c' = c) as -> by congruence. unfold in_use.
    rewrite Hf, Hloc2, decide_True by done. by rewrite bool_decide_false. }
  assert (Hnone : used_task k2 t = None) by (unfold used_task; simpl; rewrite HT; simpl; by rewrite (Hvac c HT)).
  destruct (task_blocks k bs t c HM HT Hu) as (z1 & z2 & B1 & B2 & Hne & L1 & L2 & _).
  destruct (drop_task k bs k2 t c HM HT Hu) as (HM2 & U1 & U2); [done | done | done | |].
  { intros t' Hn. unfold block_of, used_task, in_use. rewrite Hloc2, decide_False by congruence. done. }
  destruct (free_task_run k2 bs t c z1 z2 (mret tt) HM2) as (h & bs' & Hrun3 & HM' & Hp); try done.
  exists t, c, (set_k_heap h k2), bs', z1, z2. split_and!; try done.
  intros t' c' HT' Hl'. change (loc (k_store k2) (StatusItem t') = Some RecycleList) in Hl'.
  rewrite Hloc2 in Hl'. case_decide; [done|]. by apply (Hrec t' c').
Qed.

(** C12: Deletion of a task.  A null pointer is refused without a look at the memory
    behind it.  For a task other than the idle task whose status says that it was
    deleted, or that is ready, sleeping or waiting and not in the recycle list: a
    deleted task and a locked scheduler are refused and nothing changes; otherwise
    [dos_task_delete] takes the task out of every ready, sleep and pend list, and both invariants hold again: both of its blocks are free
    and no task is left at its address, or, when it deletes itself, it is added to
    the recycle list and keeps its memory. *)
Theorem task_delete_ok t c k A bs :
  kinv k A -> mem_inv k bs -> k_tcbs k !! t = Some c -> t <> dos_idle_task (k_task k) ->
  (task_status c <> DOS_TASK_STATUS_UNUSED ->
     finished c = false /\ loc (k_store k) (StatusItem t) <> Some RecycleList) ->
  dos_task_delete DOS_NULL k = Done (DOS_NOK, k) /\
  exists r k', dos_task_delete t k = Done (r, k') /\
    if (t =? DOS_NULL) || (DOS_TASK_STATUS_UNUSED =? task_status c) || negb (lock_count k =? 0)
    then r = DOS_NOK /\ k' = k
    else r = DOS_OK /\ exists A' bs', kinv k' A' /\ mem_inv k' bs' /\
      k_tcbs k' = <[t := deleted_task c]> (k_tcbs k) /\
      if decide (t = dos_current_task (k_task k)) then
        exists xs xs', without_task t A !! RecycleList = Some xs /\ xs' ≡ₚ StatusItem t :: xs /\
          A' = <[RecycleList := xs']> (without_task t A) /\ bs' = bs /\ k_heap k' = k_heap k
      else A' = without_task t A /\ vacant k' t /\ exists s1 s2, SIZEOF_TASK <= s1 /\ stack_size c <= s2 /\
        used_blocks (k_heap k) bs ≡ₚ (t, s1) :: (stack_addr c, s2) :: used_blocks (k_heap k') bs'.
Proof.
  intros HI HM HT Hidle Hlive. split; [done|]. destruct (Z.eqb_spec t DOS_NULL) as [->|Hn].
  { exists DOS_NOK, k. done. }
  destruct (Z.eqb_spec DOS_TASK_STATUS_UNUSED (task_status c)) as [Hs|Hs].
  { exists DOS_NOK, k. split; [|done]. unfold dos_task_delete. rewrite (proj2 (Z.eqb_neq _ _) Hn).
    run_by ltac:(apply task_at_run; exact HT). by rewrite <- Hs. }
  destruct (Z.eqb_spec (lock_count k) 0) as [Hl|Hl]; simpl.
  - destruct (Hlive (not_eq_sym Hs)) as [Hf Hnr].
    destruct (delete_run t c k A bs HI HM HT Hn Hidle Hf Hnr Hl) as (k' & A' & bs' & Hrun & H1 & H2 & H3 & _ & _ & _ & _ & H4).
    exists DOS_OK, k'. split; [done|]. split; [done|]. by exists A', bs'.
  - exists DOS_NOK, k. split; [|done]. unfold dos_task_delete. rewrite (proj2 (Z.eqb_neq _ _) Hn).
    run_by ltac:(apply task_at_run; exact HT). rewrite (proj2 (Z.eqb_neq _ _) Hs).
    unfold dos_scheduler_is_lock. kstep. by rewrite (proj2 (Z.eqb_neq _ _) Hl).
Qed.

(** [b] is deleted while [a] runs. *)
Lemma task_delete_ok_witness :
  dos_task_delete DOS_NULL demo = Done (DOS_NOK, demo) /\
  exists r k', dos_task_delete task_b demo = Done (r, k').
Proof.
  assert (H : k_tcbs demo !! task_b = Some (cb demo task_b)).
  { unfold cb. assert (E : is_Some (k_tcbs demo !! task_b)) by (apply is_some_check; by_eval).
    destruct (k_tcbs demo !! task_b); [reflexivity | destruct E; discriminate]. }
  assert (H1 : task_b <> dos_idle_task (k_task demo)) by (vm_compute; discriminate).
  assert (H2 : finished (cb demo task_b) = false) by by_eval.
  assert (H3 : loc (k_store demo) (StatusItem task_b) <> Some RecycleList) by (vm_compute; discriminate).
  destruct (task_delete_ok task_b (cb demo task_b) demo (lists_of demo) (blocks_of (k_heap demo)) demo_inv demo_mem_inv H H1
    (fun _ => conj H2 H3)) as (Hnull & r & k' & Hrun & _).
  split; [exact Hnull|]. exists r, k'. exact Hrun.
Defined.

(** The end of a task.  [dos_task_exit], run by a task other than the idle task
    with the scheduler unlocked, takes the task out of every list, puts it on the
    recycle list, and requests the switch to the highest ready priority; it will
    not be chosen again.  Both invariants hold and the task keeps its memory. *)
Theorem task_exit_ok c k A bs :
  let t := dos_current_task (k_task k) in
  kinv k A -> mem_inv k bs -> running k -> lock_count k = 0 -> t <> DOS_NULL ->
  k_tcbs k !! t = Some c -> ready c = true -> t <> dos_idle_task (k_task k) ->
  exists k' A' xs xs', dos_task_exit k = Done (tt, k') /\ kinv k' A' /\ mem_inv k' bs /\
    without_task t A !! RecycleList = Some xs /\ xs' ≡ₚ StatusItem t :: xs /\
    A' = <[RecycleList := xs']> (without_task t A) /\
    pendsv (k_cpu k') = true /\ top_priority A' (dos_cur_priority (k_task k')) /\
    exists c', k_tcbs k' !! t = Some c' /\ finished c' = true.
Proof.
  intros t HI HM [R1 R2] Hl Hn HT Hr Hidle. assert (Hf : finished c = false) by (unfold finished; by rewrite Hr).
  assert (Hnr : loc (k_store k) (StatusItem t) <> Some RecycleList).
  { destruct (tk_status _ _ _ (ti_task _ _ _ _ _ HI _ _ HT)) as (l & E & Hs). rewrite E. intros [= ->].
    destruct Hs. congruence. }
  destruct (delete_run t c k A bs HI HM HT Hn Hidle Hf Hnr Hl)
    as (k1 & A1 & bs1 & Hrun & HI1 & HM1 & HT1 & Hg & Hy & Hc & Ho & H).
  rewrite decide_True in H by done. destruct H as (xs & xs' & HA & Hp & HA1 & -> & Hh).
  destruct (scheduler_ok k1 A1 _ HI1) as (k' & Hrun' & Hrs).
  assert (HTt : k_tcbs k1 !! t = Some (deleted_task c)) by (rewrite HT1; apply lookup_insert_eq).
  destruct (rescheduled_task k1 k' t _ Hrs HTt) as [m HT'].
  destruct (scheduler_settles k1 A1 k' HI1) as [[S1 S2] _]; [split; by rewrite Hy | by rewrite Hy | done |].
  assert (Hpd : pendsv (k_cpu k') = true).
  { destruct (pendsv (k_cpu k')) eqn:E; [done|]. destruct (S1 eq_refl) as (c' & HTc & Hrc).
    rewrite (st_current _ _ (rescheduled_times _ _ Hrs)), (st_current _ _ Hg) in HTc. fold t in HTc.
    assert (c' = set_task_tick m (deleted_task c)) as -> by congruence.
    pose proof (deleted_flags c) as [F _]%finished_flags. change (ready (deleted_task c) = true) in Hrc. congruence. }
  exists k', A1, xs, xs'. split_and!; try done.
  - unfold dos_task_exit. kstep. fold t. by run_with Hrun.
  - by eapply rescheduled_kinv.
  - eapply mem_inv_same; [done | by apply rescheduled_mem].
  - by apply S2.
  - eexists. split; [done|]. exact (deleted_flags c).
Qed.

Lemma task_exit_ok_witness :
  exists k' A' xs xs', dos_task_exit demo = Done (tt, k') /\ kinv k' A' /\
    without_task (dos_current_task (k_task demo)) (lists_of demo) !! RecycleList = Some xs /\
    xs' ≡ₚ StatusItem (dos_current_task (k_task demo)) :: xs /\ pendsv (k_cpu k') = true.
Proof.
  assert (E0 : dos_current_task (k_task demo) = task_a) by by_eval.
  assert (H : k_tcbs demo !! dos_current_task (k_task demo) = Some (cb demo task_a)).
  { rewrite E0. unfold cb. assert (E : is_Some (k_tcbs demo !! task_a)) by (apply is_some_check; by_eval).
    destruct (k_tcbs demo !! task_a); [reflexivity | destruct E; discriminate]. }
  assert (H1 : dos_current_task (k_task demo) <> dos_idle_task (k_task demo)) by (vm_compute; discriminate).
  assert (H2 : ready (cb demo task_a) = true) by by_eval.
  assert (H3 : running demo) by (split; by_eval).
  assert (H4 : lock_count demo = 0) by by_eval.
  assert (H5 : dos_current_task (k_task demo) <> DOS_NULL) by (vm_compute; discriminate).
  destruct (task_exit_ok (cb demo task_a) demo (lists_of demo) (blocks_of (k_heap demo)) demo_inv demo_mem_inv H3 H4 H5
    H H2 H1) as (k' & A' & xs & xs' & Hrun & HI & _ & Hx & Hp & _ & Hpd & _).
  exists k', A', xs, xs'. exact (conj Hrun (conj HI (conj Hx (conj Hp Hpd)))).
Defined.

(** C13: Recycling.  One pass of the idle loop over the recycle list takes the first
    deleted task off the list and gives both of its blocks back to the heap: no task
    is left at its address, the blocks in use are the others, and all invariants
    hold again.  With an empty list nothing happens. *)
Theorem idle_recycle_ok k A bs :
  kinv k A -> mem_inv k bs -> recycle_ok k ->
  exists k', idle_recycle k = Done (tt, k') /\
    match A !! RecycleList with
    | Some (x :: xs) => exists t c A' bs' s1 s2, x = StatusItem t /\ k_tcbs k !! t = Some c /\
        A' !! RecycleList = Some xs /\ (forall l, l <> RecycleList -> A' !! l = A !! l) /\
        kinv k' A' /\ mem_inv k' bs' /\ recycle_ok k' /\ vacant k' t /\
        SIZEOF_TASK <= s1 /\ stack_size c <= s2 /\
        used_blocks (k_heap k) bs ≡ₚ (t, s1) :: (stack_addr c, s2) :: used_blocks (k_heap k') bs'
    | _ => k' = k
    end.
Proof.
  intros HI HM Hrec. destruct (ti_lists _ _ _ _ _ HI RecycleList I) as [[|x xs] HA]; rewrite HA.
  - exists k. split; [|done]. unfold idle_recycle.
    run_by ltac:(apply on_store_run; exact (list_is_empty_run _ _ _ _ (ti_store _ _ _ _ _ HI) HA)). by destruct k.
  - destruct (recycle_pass k A bs x xs HI HM Hrec HA)
      as (t & c & k' & bs' & s1 & s2 & -> & HT & Hrun & HI' & HM' & Hrec' & Hv & _ & _ & L1 & L2 & Hp).
    exists k'. split; [done|]. exists t, c, (remove_item (StatusItem t) <$> A), bs', s1, s2. split_and!; try done.
    + rewrite lookup_fmap, HA. simpl. f_equal. apply (remove_item_middle _ [] xs).
      by apply (store_rep_nodup _ _ _ _ (ti_store _ _ _ _ _ HI) HA).
    + intros l Hl. apply (remove_other (k_store k) A _ RecycleList); [apply HI | | done].
      by destruct (store_rep_in _ _ (StatusItem t) _ _ (ti_store _ _ _ _ _ HI) HA) as [_ ?]; [left|].
Qed.

Definition recycle_check (k : kernel) : bool :=
  bool_decide (map_Forall (fun t c => loc (k_store k) (StatusItem t) = Some RecycleList -> finished c = true) (k_tcbs k)).

Lemma recycle_check_sound k : recycle_check k = true -> recycle_ok k.
Proof. intros H%bool_decide_eq_true t c. apply H. Qed.

(** [a] has ended and [b] runs. *)
Definition demo_exit : kernel := after (dos_task_exit;; take_pendsv) demo.

Lemma idle_recycle_ok_witness :
  exists k' xs t, idle_recycle demo_exit = Done (tt, k') /\
    lists_of demo_exit !! RecycleList = Some (StatusItem t :: xs) /\ vacant k' t.
Proof.
  assert (H1 : kinv demo_exit (lists_of demo_exit)) by by_check.
  assert (H2 : mem_inv demo_exit (blocks_of (k_heap demo_exit))) by (apply mem_check_sound; by_eval).
  assert (H3 : recycle_ok demo_exit) by (apply recycle_check_sound; by_eval).
  assert (H4 : lists_of demo_exit !! RecycleList = Some [StatusItem task_a]) by by_eval.
  destruct (idle_recycle_ok demo_exit (lists_of demo_exit) (blocks_of (k_heap demo_exit)) H1 H2 H3) as (k' & Hrun & H).
  rewrite H4 in H. destruct H as (t & c & A' & bs' & s1 & s2 & [= Et] & _ & _ & _ & _ & _ & _ & Hv & _).
  exists k', [], t. rewrite H4, Et. exact (conj Hrun (conj eq_refl Hv)).
Defined.
