(* ===== verification/MempSpec.v ===== *)
(** * Memory pools refine a stack of free blocks

    The abstract pool is the stack of its free nodes and the set of the nodes
    whose blocks are handed out.  [dos_memp_create] makes a pool of adjacent
    blocks inside one heap block, [dos_memp_alloc] takes the top of the stack
    and [dos_memp_free] pushes a block back. *)

From S2P Require Import Prelude TaskList TaskListSpec Mem MemSpec Priority Kernel Sched KernelInv.
From S2P Require Import SchedSpec FrameSpec LockSpec Memp KernelCheck Boot.

(** ** Representation *)

(** The nodes [ns] are linked from [first] on. *)
Fixpoint free_chain (N : gmap Z dos_memp_node) (memp first : Z) (ns : list Z) : Prop :=
  match ns with
  | [] => first = DOS_NULL
  | n :: ns' => first = n /\ exists s next,
      N !! n = Some (mk_memp_node s memp next) /\ free_chain N memp next ns'
  end.

Definition node_ok (n : Z) : Prop := 0 < n /\ n + SIZEOF_MEMP_NODE < 2 ^ 32.

Record pool : Type := mk_pool {
  p_free : list Z;
  p_used : list Z
}.

Definition p_nodes (p : pool) : list Z := p_free p ++ p_used p.

Record memp_rep (k : kernel) (memp : Z) (p : pool) : Prop := {
  mr_null : memp <> DOS_NULL;
  mr_ctl : exists m, k_memps k !! memp = Some m /\
    memp_total_count m = Z.of_nat (length (p_nodes p)) /\
    memp_free_count m = Z.of_nat (length (p_free p)) /\
    free_chain (k_memp_nodes k) memp (memp_free_next m) (p_free p);
  mr_used : forall n, n ∈ p_used p -> exists next,
    k_memp_nodes k !! n = Some (mk_memp_node DOS_MEMP_STATUS_USED memp next);
  mr_nodup : NoDup (p_nodes p);
  mr_nodes : Forall node_ok (p_nodes p);
  mr_count : Z.of_nat (length (p_nodes p)) < 2 ^ 32
}.

Lemma free_chain_frame N N' memp first ns :
  free_chain N memp first ns -> (forall n, n ∈ ns -> N' !! n = N !! n) -> free_chain N' memp first ns.
Proof.
  revert first. induction ns as [|n ns IH]; intros first; simpl; [done|].
  intros (-> & s & next & Hn & Hc) HN. split; [done|]. exists s, next.
  rewrite HN by left. split; [done|]. apply IH; [done|]. intros n' Hn'. apply HN. by right.
Qed.

(** A pool does not depend on the nodes of another. *)
Lemma memp_rep_other k k' memp p :
  memp_rep k memp p -> k_memps k' !! memp = k_memps k !! memp ->
  (forall n, n ∈ p_nodes p -> k_memp_nodes k' !! n = k_memp_nodes k !! n) -> memp_rep k' memp p.
Proof.
  intros [H1 (m & H2 & H3 & H4 & H5) H6 H7 H8 H9] Hm HN. split; try done.
  - exists m. rewrite Hm. split_and!; try done. eapply free_chain_frame; [done|].
    intros n Hn. apply HN. apply elem_of_app. by left.
  - intros n Hn. rewrite HN; [by apply H6|]. apply elem_of_app. by right.
Qed.

(** ** Allocation and release *)

(** The state changes only at the control block of the pool and one node. *)
Definition only_pool (memp n : Z) (k k' : kernel) : Prop :=
  exists m v, k' = put_memp memp m (put_memp_node n v k).

Lemma only_pool_other memp n k k' memp2 p2 :
  only_pool memp n k k' -> memp2 <> memp -> n ∉ p_nodes p2 -> memp_rep k memp2 p2 -> memp_rep k' memp2 p2.
Proof.
  intros (m & v & ->) Hne Hn HR. eapply memp_rep_other; [exact HR | |].
  - simpl. by rewrite lookup_insert_ne.
  - intros n' Hn'. simpl. rewrite lookup_insert_ne; [done|]. by intros ->.
Qed.

Lemma memp_alloc_run k memp p n ns :
  memp_rep k memp p -> p_free p = n :: ns ->
  exists k', dos_memp_alloc memp k = Done (n + SIZEOF_MEMP_NODE, k') /\
    memp_rep k' memp (mk_pool ns (n :: p_used p)) /\ only_pool memp n k k'.
Proof.
  destruct p as [fr us]. simpl. intros [H1 (m & H2 & H3 & H4 & H5) H6 H7 H8 H9] ->.
  unfold p_nodes in *. cbn [p_free p_used] in *.
  destruct H5 as (Hf & s & next & Hn & Hc). apply Forall_cons in H8 as [[Hn0 Hn1] H8].
  unfold SIZEOF_MEMP_NODE in *. cbn [length app] in *. rewrite length_app in H3, H9.
  unfold dos_memp_alloc. run_by ltac:(apply deref_some; exact H2).
  rewrite H4, Hf, (proj2 (Z.leb_gt _ _)) by lia. unfold DOS_NULL. rewrite (proj2 (Z.eqb_neq n 0)) by lia. cbn [orb].
  run_by ltac:(apply deref_some; exact Hn). kstep. unfold SIZEOF_MEMP_NODE. rewrite !u32_small by lia.
  eexists. split; [done|]. split; [|by eexists _, _]. split; unfold p_nodes; cbn [p_free p_used]; try done.
  - simpl. rewrite lookup_insert_eq. eexists. split; [done|]. simpl. split_and!; [|lia|].
    + rewrite H3, length_app. simpl. lia.
    + eapply free_chain_frame; [done|]. intros n' Hn'. rewrite lookup_insert_ne; [done|]. intros ->.
      apply NoDup_cons in H7 as [H7 _]. apply H7. apply elem_of_app. by left.
  - intros n' Hn'. simpl. destruct (decide (n = n')) as [<-|Hne].
    + rewrite lookup_insert_eq. eauto.
    + rewrite lookup_insert_ne by done. apply H6. apply elem_of_cons in Hn' as [->|]; done.
  - by rewrite <- Permutation_middle.
  - rewrite <- Permutation_middle. by constructor.
  - rewrite length_app. simpl. lia.
Qed.

Lemma memp_alloc_empty k memp p :
  memp_rep k memp p -> p_free p = [] -> dos_memp_alloc memp k = Done (DOS_NULL, k).
Proof.
  intros HR Hp. destruct (mr_ctl _ _ _ HR) as (m & H2 & _ & H4 & _). rewrite Hp in H4.
  unfold dos_memp_alloc. run_by ltac:(apply deref_some; exact H2). by rewrite H4.
Qed.

Lemma used_split (ns : list Z) n : n ∈ ns -> NoDup ns -> ns ≡ₚ n :: filter (.≠ n) ns.
Proof.
  intros Hin Hnd. induction Hnd as [|m ns Hm Hnd IH]; [by apply elem_of_nil in Hin|].
  destruct (decide (m = n)) as [->|Hne].
  - rewrite filter_cons_False by naive_solver. rewrite filter_all; [done|]. by intros x Hx ->.
  - rewrite filter_cons_True by done. apply elem_of_cons in Hin as [->|Hin]; [done|].
    rewrite Permutation_swap. by rewrite <- IH.
Qed.

Lemma memp_free_run k memp p n :
  memp_rep k memp p -> n ∈ p_used p ->
  exists k', dos_memp_free (n + SIZEOF_MEMP_NODE) k = Done (tt, k') /\
    memp_rep k' memp (mk_pool (n :: p_free p) (filter (.≠ n) (p_used p))) /\ only_pool memp n k k' /\
    dos_memp_free (n + SIZEOF_MEMP_NODE) k' = Done (tt, k').
Proof.
  destruct p as [fr us]. unfold p_nodes. simpl. intros [H1 (m & H2 & H3 & H4 & H5) H6 H7 H8 H9] Hin.
  unfold p_nodes in *. cbn [p_free p_used] in *. destruct (H6 n Hin) as [next Hn].
  assert (Hperm : fr ++ us ≡ₚ n :: fr ++ filter (.≠ n) us).
  { rewrite (used_split us n Hin) at 1 by (by apply NoDup_app in H7 as (_ & _ & ?)).
    by rewrite <- Permutation_middle. }
  pose proof (Permutation_length Hperm) as Hlen. rewrite Hperm in H8. apply Forall_cons in H8 as [[Hn0 Hn1] H8].
  rewrite Hperm in H7. rewrite length_app in Hlen. rewrite length_app in H3, H9. simpl in Hlen. rewrite length_app in Hlen.
  assert (Hnode : u32 (n + SIZEOF_MEMP_NODE - SIZEOF_MEMP_NODE) = n).
  { rewrite u32_small; unfold SIZEOF_MEMP_NODE in *; lia. }
  unfold dos_memp_free. rewrite Hnode. run_by ltac:(apply deref_some; exact Hn).
  cbn [memp_status memp_owner]. rewrite (proj2 (Z.eqb_neq memp DOS_NULL)) by done.
  change (DOS_MEMP_STATUS_USED =? DOS_MEMP_STATUS_UNUSED) with false. cbn [orb].
  run_by ltac:(apply deref_some; exact H2). rewrite Z.geb_leb, (proj2 (Z.leb_gt _ _)) by lia.
  kstep. eexists. split; [done|]. split; [|split; [by eexists _, _|]].
  - split; unfold p_nodes; cbn [p_free p_used]; try done.
    + simpl. rewrite lookup_insert_eq. eexists. split; [done|]. simpl.
      rewrite u32_small by lia. split_and!; [rewrite length_app; lia | lia | done |].
      exists DOS_MEMP_STATUS_UNUSED, (memp_free_next m). rewrite lookup_insert_eq. split; [done|].
      eapply free_chain_frame; [done|]. intros n' Hn'. rewrite lookup_insert_ne; [done|]. intros <-.
      apply NoDup_cons in H7 as [H7 _]. apply H7. apply elem_of_app. by left.
    + intros n' [Hne Hn']%list_elem_of_filter. simpl. rewrite lookup_insert_ne by done. by apply H6.
    + by constructor.
    + simpl. rewrite length_app. lia.
  - cbv beta zeta.
    run_by ltac:(apply deref_some; simpl; apply lookup_insert_eq). done.
Qed.

(** ** Sequences of calls *)

Inductive pool_op : Type :=
| PoolAlloc
| PoolFree (block : Z).

Definition run_op (memp : Z) (op : pool_op) : kprog Z :=
  match op with
  | PoolAlloc => dos_memp_alloc memp
  | PoolFree block => dos_memp_free block;; mret DOS_OK
  end.

Fixpoint run_ops (memp : Z) (ops : list pool_op) : kprog (list Z) :=
  match ops with
  | [] => mret []
  | op :: ops' => r ← run_op memp op; rs ← run_ops memp ops'; mret (r :: rs)
  end.

(** The abstract pool; only a block that is handed out may be freed. *)
Definition pool_step (op : pool_op) (p : pool) : option (Z * pool) :=
  match op with
  | PoolAlloc =>
      match p_free p with
      | [] => Some (DOS_NULL, p)
      | n :: ns => Some (n + SIZEOF_MEMP_NODE, mk_pool ns (n :: p_used p))
      end
  | PoolFree block =>
      let n := block - SIZEOF_MEMP_NODE in
      if decide (n ∈ p_used p)
      then Some (DOS_OK, mk_pool (n :: p_free p) (filter (.≠ n) (p_used p))) else None
  end.

Fixpoint pool_run (ops : list pool_op) (p : pool) : option (list Z * pool) :=
  match ops with
  | [] => Some ([], p)
  | op :: ops' =>
      '(r, p1) ← pool_step op p; '(rs, p2) ← pool_run ops' p1; Some (r :: rs, p2)
  end.

(** Pools other than [memp] that share no node with it. *)
Definition others_kept (memp : Z) (p : pool) (k k' : kernel) : Prop :=
  forall memp2 p2, memp2 <> memp -> (forall n, n ∈ p_nodes p -> n ∉ p_nodes p2) ->
    memp_rep k memp2 p2 -> memp_rep k' memp2 p2.

Lemma pool_step_run k memp p op r p' :
  memp_rep k memp p -> pool_step op p = Some (r, p') ->
  exists k', run_op memp op k = Done (r, k') /\ memp_rep k' memp p' /\
    p_nodes p' ≡ₚ p_nodes p /\ others_kept memp p k k'.
Proof.
  intros HR. destruct op as [|block]; simpl.
  - destruct (p_free p) as [|n ns] eqn:Hf; intros [= <- <-].
    + exists k. rewrite (memp_alloc_empty k memp p HR Hf). split_and!; try done. by intros m2 p2.
    + destruct (memp_alloc_run k memp p n ns HR Hf) as (k' & Hrun & HR' & Ho). exists k'.
      split_and!; try done.
      * unfold p_nodes. rewrite Hf. simpl. by rewrite <- Permutation_middle.
      * intros m2 p2 Hm Hd HR2. eapply only_pool_other; try done. apply Hd.
        unfold p_nodes. rewrite Hf. left.
  - case_decide as Hin; [|done]. intros [= <- <-].
    destruct (memp_free_run k memp p _ HR Hin) as (k' & Hrun & HR' & Ho & _).
    rewrite Z.sub_add in Hrun. exists k'. split_and!; try done.
    + by run_with Hrun.
    + unfold p_nodes. simpl. rewrite (used_split (p_used p) _ Hin) at 2.
      * by rewrite <- Permutation_middle.
      * pose proof (mr_nodup _ _ _ HR) as Hnd. by apply NoDup_app in Hnd as (_ & _ & ?).
    + intros m2 p2 Hm Hd HR2. eapply only_pool_other; try done. apply Hd.
      apply elem_of_app. by right.
Qed.

(** C22: A memory pool is a stack of free blocks.  In any sequence of
    [dos_memp_alloc] and [dos_memp_free] calls that only frees blocks that are
    handed out, every call gives the result of the abstract pool: a block that is
    not handed out as long as there is one, and null otherwise.  The pool keeps its
    blocks, each either free or handed out and never both, and pools with other
    blocks do not change. *)
Theorem memp_refines k memp p ops rs p' :
  memp_rep k memp p -> pool_run ops p = Some (rs, p') ->
  exists k', run_ops memp ops k = Done (rs, k') /\ memp_rep k' memp p' /\
    p_nodes p' ≡ₚ p_nodes p /\ NoDup (p_nodes p') /\ others_kept memp p k k'.
Proof.
  revert k p rs. induction ops as [|op ops IH]; intros k p rs HR.
  - intros [= <- <-]. exists k. split_and!; try done; [apply HR | by intros m2 q].
  - simpl. destruct (pool_step op p) as [[r p1]|] eqn:E1; [|done]. simpl.
    destruct (pool_run ops p1) as [[rs1 p2]|] eqn:E2; [|done]. intros [= <- ->].
    destruct (pool_step_run k memp p op r p1 HR E1) as (k1 & Hrun1 & HR1 & Hp1 & Ho1).
    destruct (IH k1 p1 rs1 HR1 E2) as (k2 & Hrun2 & HR2 & Hp2 & Hnd & Ho2).
    exists k2. split_and!; try done.
    + run_with Hrun1. by run_with Hrun2.
    + by etrans.
    + intros m2 q Hm Hd HRq. apply Ho2; [done | | by apply Ho1]. intros n Hn. apply Hd. by rewrite <- Hp1.
Qed.

(** ** Creation *)

(** [n] nodes from [node] on. *)
Fixpoint pool_nodes (node stride : Z) (n : nat) : list Z :=
  match n with O => [] | S n' => node :: pool_nodes (node + stride) stride n' end.

Lemma pool_nodes_length node stride n : length (pool_nodes node stride n) = n.
Proof. revert node. induction n as [|n IH]; intros node; simpl; [done|]. by rewrite IH. Qed.

Lemma pool_nodes_in node stride n x :
  x ∈ pool_nodes node stride n <-> exists i, (i < n)%nat /\ x = node + stride * Z.of_nat i.
Proof.
  revert node. induction n as [|n IH]; intros node; simpl; [rewrite elem_of_nil; split; [done|intros (?&?&?); lia]|].
  rewrite elem_of_cons, IH. split.
  - intros [->|(i & Hi & ->)]; [exists O | exists (S i)]; split; lia.
  - intros ([|i] & Hi & ->); [left; lia | right]. exists i. split; lia.
Qed.

Lemma pool_nodes_nodup node stride n : 0 < stride -> NoDup (pool_nodes node stride n).
Proof.
  intros Hs. revert node. induction n as [|n IH]; intros node; simpl; constructor; [|done].
  rewrite pool_nodes_in. intros (i & _ & E). nia.
Qed.

Lemma stride_apart a stride i j :
  0 < stride -> a + stride * Z.of_nat i < a + stride * Z.of_nat j ->
  a + stride * Z.of_nat i + stride <= a + stride * Z.of_nat j.
Proof. intros Hs Hlt. assert (Z.of_nat i + 1 <= Z.of_nat j) by nia. nia. Qed.

Lemma memp_chain_run memp blk_size n : forall node k,
  0 < blk_size -> 0 <= node -> node + (SIZEOF_MEMP_NODE + blk_size) * Z.of_nat (S n) < 2 ^ 32 ->
  exists N, memp_chain n memp node blk_size k = Done (tt, set_k_memp_nodes N k) /\
    free_chain N memp node (pool_nodes node (SIZEOF_MEMP_NODE + blk_size) (S n)) /\
    forall x, x < node -> N !! x = k_memp_nodes k !! x.
Proof.
  unfold SIZEOF_MEMP_NODE. induction n as [|n IH]; intros node k Hb Hn Hlt.
  - eexists. split; [done|]. simpl. split.
    + split; [done|]. eexists _, _. by rewrite lookup_insert_eq.
    + intros x Hx. rewrite lookup_insert_ne by lia. done.
  - cbn [memp_chain]. unfold SIZEOF_MEMP_NODE, write_node. rewrite bind_assoc, bind_gets, bind_modify.
    replace (node + 12 + blk_size) with (node + (12 + blk_size)) by lia. rewrite u32_small by nia.
    set (k1 := put_memp_node _ _ k).
    destruct (IH (node + (12 + blk_size)) k1) as (N & Hrun & Hc & Hx); [done | lia | lia |].
    exists N. split; [exact Hrun|]. split.
    + split; [done|]. exists (node_status node k), (node + (12 + blk_size)). split; [|done].
      rewrite Hx by lia. apply lookup_insert_eq.
    + intros x Hx'. rewrite Hx by lia. simpl. rewrite lookup_insert_ne by lia. done.
Qed.

(** The bytes a pool asks the heap for. *)
Definition pool_bytes (memp_size blk_size : Z) : Z :=
  SIZEOF_MEMP + SIZEOF_MEMP_NODE * (memp_size / blk_size) + memp_size.

(** Creation of a memory pool.  If the size of the pool with its headers does
    not overflow and the heap can serve the request, [dos_memp_create] takes one
    block from the heap and makes a pool of [memp_size / blk_size] free blocks; the
    node and the memory of each block lie inside the heap block, and no two of them
    overlap.  If the heap has no space the call returns null.  The kernel invariant
    and the heap are kept. *)
Theorem memp_create_ok k A bs memp_size blk_size :
  let n := pool_bytes memp_size blk_size in
  let s := DOS_ALIGN n DOS_ALIGN_SIZE in
  let stride := SIZEOF_MEMP_NODE + blk_size in
  kinv k A -> heap_rep (k_heap k) bs -> 0 <= lock_count k < 255 ->
  0 < blk_size <= memp_size -> n <= 2 ^ 32 - 4 -> no_tight_fit s bs ->
  exists r k', dos_memp_create memp_size blk_size k = Done (r, k') /\ kinv k' A /\
    alloc_result (k_heap k) bs s r (k_heap k') /\
    (r <> DOS_NULL -> exists nodes, memp_rep k' r (mk_pool nodes []) /\
       Z.of_nat (length nodes) = memp_size / blk_size /\
       (forall x, x ∈ nodes -> r + SIZEOF_MEMP <= x /\ x + stride <= r + s) /\
       (forall x y, x ∈ nodes -> y ∈ nodes -> x < y -> x + stride <= y)).
Proof.
  intros n s stride HI Hrep Hl Hb Hn Ht. unfold dos_memp_create.
  rewrite (proj2 (Z.eqb_neq blk_size 0)), (proj2 (Z.eqb_neq memp_size 0)), (proj2 (Z.ltb_ge _ _)) by lia.
  cbn [orb]. fold (pool_bytes memp_size blk_size). fold n.
  set (cnt := memp_size / blk_size).
  assert (Hcnt : 1 <= cnt /\ blk_size * cnt <= memp_size).
  { unfold cnt. split; [apply Z.div_le_lower_bound; lia | apply Z.mul_div_le; lia]. }
  assert (Hn0 : n = SIZEOF_MEMP + SIZEOF_MEMP_NODE * cnt + memp_size) by done.
  unfold SIZEOF_MEMP, SIZEOF_MEMP_NODE in Hn0. rewrite u32_small by lia.
  destruct (mem_alloc_fresh k A bs n HI Hl Hrep) as (r & k1 & Hrun & Hrs & Hns & Hres); [lia | done |].
  fold s in Hns, Hres. assert (HI1 : kinv k1 A) by (by eapply rescheduled_kinv; [|done]).
  run_with Hrun. destruct (Z.eqb_spec r DOS_NULL) as [->|Hr].
  { exists DOS_NULL, k1. split_and!; done. }
  pose proof (alloc_result_range _ _ _ _ _ Hrep Hres Hr) as Hrange.
  unfold SIZEOF_MEMP. rewrite u32_small by lia. kstep. set (k2 := put_memp r _ k1).
  assert (Hlen : Z.of_nat (S (Z.to_nat (cnt - 1))) = cnt) by lia.
  destruct (memp_chain_run r blk_size (Z.to_nat (cnt - 1)) (r + 28) k2) as (N & Hrun2 & Hc & _);
    [lia | lia | rewrite Hlen; unfold SIZEOF_MEMP_NODE; nia |].
  run_with Hrun2. exists r, (set_k_memp_nodes N k2). split_and!; try done. intros _.
  exists (pool_nodes (r + 28) stride (S (Z.to_nat (cnt - 1)))). fold stride in Hc.
  assert (Hin : forall x, x ∈ pool_nodes (r + 28) stride (S (Z.to_nat (cnt - 1))) ->
    r + SIZEOF_MEMP <= x /\ x + stride <= r + s).
  { intros x (i & Hi & ->)%pool_nodes_in. unfold stride, SIZEOF_MEMP, SIZEOF_MEMP_NODE. nia. }
  split_and!; [split; unfold p_nodes; cbn [p_free p_used]; rewrite ?app_nil_r | | done |].
  - done.
  - simpl. rewrite lookup_insert_eq. eexists. split; [done|]. cbn [memp_total_count memp_free_count memp_free_next].
    rewrite pool_nodes_length, Hlen. done.
  - by intros x ?%elem_of_nil.
  - apply pool_nodes_nodup. unfold stride, SIZEOF_MEMP_NODE. lia.
  - apply Forall_forall. intros x Hx%Hin. unfold node_ok, stride, SIZEOF_MEMP, SIZEOF_MEMP_NODE in *. lia.
  - rewrite pool_nodes_length, Hlen. nia.
  - by rewrite pool_nodes_length.
  - intros x y (i & Hi & ->)%pool_nodes_in (j & Hj & ->)%pool_nodes_in Hlt. apply (stride_apart _ stride i j); [|done].
    unfold stride, SIZEOF_MEMP_NODE. lia.
Qed.

(** ** Instances *)

(** A pool with no block handed out. *)
Fixpoint free_chain_check (N : gmap Z dos_memp_node) (memp first : Z) (ns : list Z) : bool :=
  match ns with
  | [] => first =? DOS_NULL
  | n :: ns' => (first =? n) &&
      match N !! n with
      | Some v => (memp_owner v =? memp) && free_chain_check N memp (memp_next v) ns'
      | None => false
      end
  end.

Definition memp_check (k : kernel) (memp : Z) (ns : list Z) : bool :=
  negb (memp =? DOS_NULL) &&
  match k_memps k !! memp with
  | Some m => (memp_total_count m =? Z.of_nat (length ns)) && (memp_free_count m =? Z.of_nat (length ns)) &&
              free_chain_check (k_memp_nodes k) memp (memp_free_next m) ns
  | None => false
  end && bool_decide (NoDup ns) &&
  forallb (fun n => (0 <? n) && (n + SIZEOF_MEMP_NODE <? 2 ^ 32)) ns && (Z.of_nat (length ns) <? 2 ^ 32).

Lemma free_chain_check_sound N memp ns : forall first,
  free_chain_check N memp first ns = true -> free_chain N memp first ns.
Proof.
  induction ns as [|n ns IH]; intros first; simpl; [apply Z.eqb_eq|]. rewrite andb_true_iff, Z.eqb_eq.
  destruct (N !! n) as [[s o nx]|]; [|naive_solver]. simpl. rewrite andb_true_iff, Z.eqb_eq.
  intros [-> [-> H]]. split; [done|]. eauto.
Qed.

Lemma memp_check_sound k memp ns : memp_check k memp ns = true -> memp_rep k memp (mk_pool ns []).
Proof.
  unfold memp_check. rewrite !andb_true_iff, negb_true_iff, Z.eqb_neq, bool_decide_eq_true, Z.ltb_lt.
  intros ((((H1 & H2) & H3) & H4) & H5). split; unfold p_nodes; simpl; rewrite ?app_nil_r; try done.
  - destruct (k_memps k !! memp) as [m|]; [|done]. rewrite !andb_true_iff, !Z.eqb_eq in H2.
    destruct H2 as [[H2 H6] H7]. exists m. split_and!; try done. by apply free_chain_check_sound.
  - by intros n ?%elem_of_nil.
  - rewrite forallb_forall in H4. apply Forall_forall. intros n Hn%list_elem_of_In%H4.
    by rewrite andb_true_iff, !Z.ltb_lt in Hn.
Qed.

(** The pool of the system of [Boot]: four blocks of 16 bytes. *)
Definition demo_nodes : list Z :=
  pool_nodes (o_memp objs + SIZEOF_MEMP) (SIZEOF_MEMP_NODE + 16) 4.
Definition demo_block (i : Z) : Z := o_memp objs + SIZEOF_MEMP + SIZEOF_MEMP_NODE + 28 * i.

(** Two allocations, the first one undone, then more than there are blocks. *)
Definition demo_ops : list pool_op :=
  [PoolAlloc; PoolAlloc; PoolFree (demo_block 0); PoolAlloc; PoolAlloc; PoolAlloc; PoolAlloc].
Definition demo_results : list Z :=
  [demo_block 0; demo_block 1; DOS_OK; demo_block 0; demo_block 2; demo_block 3; DOS_NULL].

(** The nodes handed out, the latest first. *)
Definition demo_used : list Z :=
  map (fun i => demo_block i - SIZEOF_MEMP_NODE) [3; 2; 0; 1].

Lemma memp_refines_witness :
  exists k' p', run_ops (o_memp objs) demo_ops demo = Done (demo_results, k') /\
    memp_rep k' (o_memp objs) p' /\ p_free p' = [].
Proof.
  destruct (memp_refines demo (o_memp objs) (mk_pool demo_nodes []) demo_ops demo_results
    (mk_pool [] (demo_used))) as (k' & Hrun & HR & _).
  - apply memp_check_sound. by_eval.
  - by_eval.
  - exists k'. eexists. split; [exact Hrun|]. split; [exact HR | reflexivity].
Defined.

Lemma memp_create_ok_witness :
  exists r k', dos_memp_create 100 20 demo = Done (r, k') /\ kinv k' (lists_of demo).
Proof.
  destruct (memp_create_ok demo (lists_of demo) (blocks_of (k_heap demo)) 100 20)
    as (r & k' & Hrun & HI & _).
  - by_check.
  - apply heap_check_sound. by_eval.
  - assert (E : lock_count demo = 0) by by_eval. rewrite E. lia.
  - lia.
  - vm_compute. discriminate.
  - apply fit_check_sound. by_eval.
  - exists r, k'. split; [exact Hrun | exact HI].
Defined.
