(* ===== verification/SemSpec.v ===== *)
(** * Semaphores refine a counter with a queue of waiters

    The abstract semaphore is a count, its bound, and the waiting tasks in the
    order they will be served.  [dos_sem_post] and [dos_sem_pend] implement its
    operations in every state that satisfies the kernel invariant. *)

From S2P Require Import Prelude TaskList TaskListSpec Mem Priority Kernel Sched KernelInv.
From S2P Require Import SchedSpec Sem IpcSpec FrameSpec KernelCheck Boot.

(** ** Specification *)

Record asem : Type := mk_asem {
  as_count : Z;
  as_max : Z;
  as_wait : list (Z * Z)
}.

(** No token is kept while a task waits for one. *)
Definition asem_inv (a : asem) : Prop :=
  0 <= as_count a <= as_max a /\ as_max a < 2 ^ 32 /\ (as_wait a <> [] -> as_count a = 0).

Definition asem_post (a : asem) : Z * asem :=
  if as_count a =? as_max a then (DOS_NOK, a)
  else match as_wait a with
       | [] => (DOS_OK, mk_asem (as_count a + 1) (as_max a) [])
       | _ :: ws => (DOS_OK, mk_asem (as_count a) (as_max a) ws)
       end.

(** [None]: the caller has to wait. *)
Definition asem_try (a : asem) : option asem :=
  if as_count a >? 0 then Some (mk_asem (as_count a - 1) (as_max a) (as_wait a)) else None.

Definition asem_wait (w : Z * Z) (a : asem) : asem :=
  mk_asem (as_count a) (as_max a) (enqueue w (as_wait a)).

Definition sem_view (k : kernel) (A : gmap list_ptr (list item_ptr)) (sem : Z) : option asem :=
  match k_sems k !! sem, A !! SemPendList sem with
  | Some v, Some _ =>
      Some (mk_asem (sem_count v) (sem_max_count v) (waiters k A (SemPendList sem)))
  | _, _ => None
  end.

Lemma enqueue_not_nil w ws : enqueue w ws <> [].
Proof. destruct ws; simpl; [done|]. by case_match. Qed.

Lemma asem_post_inv a : asem_inv a -> asem_inv (asem_post a).2.
Proof.
  intros (H1 & H2 & H3). unfold asem_post. destruct (Z.eqb_spec (as_count a) (as_max a)); [done|].
  destruct (as_wait a) as [|w ws]; repeat split; simpl; try lia; try done.
  intros _. by apply H3.
Qed.

Lemma asem_try_inv a a' : asem_inv a -> asem_try a = Some a' -> asem_inv a'.
Proof.
  intros (H1 & H2 & H3). unfold asem_try. destruct (Z.gtb_spec (as_count a) 0); [|done].
  intros [= <-]. repeat split; simpl; try lia. intros Hw. apply H3 in Hw. lia.
Qed.

Lemma asem_wait_inv w a : asem_inv a -> asem_try a = None -> asem_inv (asem_wait w a).
Proof.
  intros (H1 & H2 & H3). unfold asem_try. destruct (Z.gtb_spec (as_count a) 0); [done|].
  intros _. repeat split; simpl; lia.
Qed.

(** ** Refinement *)

Lemma sem_view_inv k A sem a :
  sem_view k A sem = Some a ->
  exists v xs, k_sems k !! sem = Some v /\ A !! SemPendList sem = Some xs /\
    a = mk_asem (sem_count v) (sem_max_count v) (waiters k A (SemPendList sem)).
Proof.
  unfold sem_view. destruct (k_sems k !! sem) as [v|]; [|done].
  destruct (A !! SemPendList sem) as [xs|]; [|done]. intros [= <-]. eauto.
Qed.

(** The task a post wakes. *)
Definition asem_wakes (a : asem) : list Z :=
  if as_count a =? as_max a then [] else match as_wait a with [] => [] | w :: _ => [w.2] end.

Lemma waiters_cons k A l q xs :
  A !! l = Some (q :: xs) ->
  waiters k A l = (item_val (k_store k) q, item_task q) ::
    map (fun q => (item_val (k_store k) q, item_task q)) xs.
Proof. intros HA. unfold waiters. by rewrite HA. Qed.

Lemma waiters_nil k A l : A !! l = Some [] -> waiters k A l = [].
Proof. intros HA. unfold waiters. by rewrite HA. Qed.

Lemma sem_post_run k A sem a :
  kinv k A -> sem <> DOS_NULL -> sem_view k A sem = Some a -> asem_inv a ->
  exists k' A', dos_sem_post sem k = Done ((asem_post a).1, k') /\ kinv k' A' /\
    sem_view k' A' sem = Some (asem_post a).2 /\
    (forall t, t ∈ asem_wakes a -> loc (k_store k) (PendItem t) = Some (SemPendList sem) /\
       exists c, k_tcbs k' !! t = Some c /\ ready c = true /\ suspended c = false) /\
    frame [SemPendList sem] (asem_wakes a) k A k' A' /\ settled k A k' A'.
Proof.
  intros HI Hsem Hview Hinv. apply sem_view_inv in Hview as (v & xs & Hv & HA & ->).
  unfold dos_sem_post. kstep. rewrite (proj2 (Z.eqb_neq sem DOS_NULL) Hsem).
  run_by ltac:(apply deref_some; exact Hv).
  set (k1 := assign_primask 1 k). unfold asem_post, asem_wakes. cbn [as_count as_max as_wait].
  destruct (Z.eqb_spec (sem_count v) (sem_max_count v)) as [Hfull|Hfull].
  - exists k, A. kstep. unfold k1. rewrite primask_id.
    split_and!; try done; [|by intros t ?%elem_of_nil | apply frame_refl | by apply settled_quiet].
    unfold sem_view. by rewrite Hv, HA.
  - run_by ltac:(apply (on_store_run _ k1);
      exact (list_is_empty_run _ _ _ _ (ti_store _ _ _ _ _ HI) HA)).
    destruct xs as [|q xs].
    + rewrite (waiters_nil k A _ HA), bool_decide_true by done.
      set (v' := set_sem_count (u32 (sem_count v + 1)) v).
      exists (put_sem sem v' k), A.
      split_and!; try done; [| |by intros t ?%elem_of_nil | apply frame_sem; left | by apply settled_quiet].
      * unfold upd_sem. rewrite bind_assoc. run_by ltac:(apply deref_some; exact Hv).
        kstep. unfold k1. by destruct k as [? ? ? ? [] ? ? ? ? ? ? ? ? ? ?].
      * unfold sem_view. simpl. rewrite lookup_insert_eq, HA. simpl.
        change (waiters (put_sem sem v' k) A) with (waiters k A). rewrite (waiters_nil k A _ HA).
        unfold v'. simpl. rewrite u32_small; [done|].
        destruct Hinv as (H1 & H2 & _). simpl in *. lia.
    + rewrite bool_decide_false by done.
      destruct (wake_first_run k1 A _ (SemPendList sem) q xs (primask (k_cpu k)) HI eq_refl HA) as
        (t & c & s1 & k3 & k4 & A4 & -> & HT & Hs & Hrun2 & Hrun3 & Hrun4 & HW).
      change (assign_primask (primask (k_cpu k)) k1) with
        (assign_primask (primask (k_cpu k)) (assign_primask 1 k)) in HW. rewrite primask_id in HW.
      pose proof (waiters_cons k A _ _ _ HA) as Hw.
      destruct (woke_waiters _ _ _ _ _ _ _ _ _ _ _ HW HA Hw) as [_ Hw4].
      rewrite Hw. cbn [snd]. simpl item_task. exists k4, A4. split_and!.
      * run_by ltac:(exact Hrun2). run_with Hrun3. kstep. by run_with Hrun4.
      * by eapply woke_kinv.
      * unfold sem_view. rewrite (so_sems _ _ (wo_objs _ _ _ _ _ _ _ _ _ HW)), Hv,
          (wo_list _ _ _ _ _ _ _ _ _ HW), Hw4. done.
      * intros t' ->%list_elem_of_singleton. split.
        -- destruct (store_rep_in _ _ (PendItem t) _ _ (ti_store _ _ _ _ _ HI) HA) as [_ H2]; [left|done].
        -- destruct (woke_flags _ _ _ _ _ _ _ _ _ HW) as (c' & H1 & H2 & H3 & _). eauto.
      * apply HW.
      * by eapply (wo_settled _ _ _ _ _ _ _ _ _ HW).
Qed.

(** The waiters are in the order of their pend values. *)
Lemma waiters_sorted k A l :
  kinv k A -> StronglySorted (fun w w' => w.1 <= w'.1) (waiters k A l).
Proof.
  intros HI. unfold waiters. destruct (A !! l) as [xs|] eqn:HA; [|constructor].
  change (default [] (Some xs)) with xs. pose proof (store_rep_sorted _ _ _ _ (ti_store _ _ _ _ _ HI) HA) as Hs. clear HA.
  induction Hs as [|x ys _ IH Hall]; simpl; [constructor|]. constructor; [done|]. by apply Forall_map.
Qed.

Lemma least_waiter k A l w ws :
  kinv k A -> is_pend_list l = true -> waiters k A l = w :: ws ->
  w.1 = item_val (k_store k) (PendItem w.2) /\ Forall (fun w' => w.1 <= w'.1) ws.
Proof.
  intros HI Hl Hw. pose proof (waiters_sorted k A l HI) as Hs. rewrite Hw in Hs.
  apply StronglySorted_inv in Hs as [_ Hs]. split; [|done].
  unfold waiters in Hw. destruct (A !! l) as [[|q xs]|] eqn:HA; try done.
  destruct (first_waiter _ _ _ _ _ _ HI Hl HA) as (t & c & s1 & -> & _).
  by injection Hw as <- _.
Qed.

(** C8: [dos_sem_post] implements the abstract counting semaphore: at the bound it
    fails and changes nothing; with waiters the first of them leaves the queue, is
    ready to run and the count stays; otherwise the count grows by one.  The first
    waiter is one whose pend item has the smallest value of all that wait (the
    earliest to come of these, by the insertion of [dos_sem_pend]); the value is
    the priority the task was created with, which the code does not update when
    the task inherits another one.  The bound and the exclusion of waiters and
    tokens ([asem_inv]) are kept, as are the kernel invariant and PRIMASK. *)
Theorem sem_post_refines k A sem a :
  kinv k A -> sem <> DOS_NULL -> sem_view k A sem = Some a -> asem_inv a ->
  exists k' A', dos_sem_post sem k = Done ((asem_post a).1, k') /\ kinv k' A' /\
    sem_view k' A' sem = Some (asem_post a).2 /\ asem_inv (asem_post a).2 /\
    (as_count a <> as_max a -> forall w ws, as_wait a = w :: ws ->
       (exists c, k_tcbs k' !! w.2 = Some c /\ ready c = true /\ suspended c = false) /\
       w.1 = item_val (k_store k) (PendItem w.2) /\ Forall (fun w' => w.1 <= w'.1) ws) /\
    primask (k_cpu k') = primask (k_cpu k).
Proof.
  intros HI Hsem Hview Hinv.
  destruct (sem_post_run k A sem a HI Hsem Hview Hinv) as (k' & A' & Hrun & HI' & Hv & Hw & HF & _).
  exists k', A'. split_and!; try done; [by apply asem_post_inv | | apply HF].
  intros Hne w ws Hws. split.
  - apply Hw. unfold asem_wakes. rewrite (proj2 (Z.eqb_neq _ _) Hne), Hws. left.
  - apply sem_view_inv in Hview as (v & xs & _ & _ & ->). exact (least_waiter _ _ (SemPendList sem) _ _ HI eq_refl Hws).
Qed.

Lemma sem_post_refines_witness :
  exists k' A', dos_sem_post (o_sem objs) demo_sem_wait = Done (DOS_OK, k') /\
    sem_view k' A' (o_sem objs) = Some (mk_asem 0 1 []).
Proof.
  destruct (sem_post_refines demo_sem_wait (lists_of demo_sem_wait) (o_sem objs)
    (mk_asem 0 1 [(3, task_a)])) as (k' & A' & Hrun & _ & Hv & _).
  - by_check.
  - discriminate.
  - by_eval.
  - split; simpl; [lia|]. split; [lia | reflexivity].
  - exists k', A'. split; [exact Hrun | exact Hv].
Defined.

(** Whether a call may block: a timeout, no scheduler lock, no interrupt. *)
Definition may_block (k : kernel) (timeout : Z) : bool :=
  negb (timeout =? 0) && (dos_scheduler_lock_count (k_sys k) =? 0) && (ipsr (k_cpu k) =? 0).

(** The task that calls: ready, not waiting, not the idle task. *)
Record caller (k : kernel) (c : dos_task_cb) : Prop := {
  ca_task : k_tcbs k !! dos_current_task (k_task k) = Some c;
  ca_ready : ready c = true;
  ca_free : suspended c = false;
  ca_not_idle : dos_current_task (k_task k) <> dos_idle_task (k_task k)
}.

(** The outcome of a pend: a token is taken, or the call fails without a
    change, or the caller is queued and does not run. *)
Definition sem_pend_outcome (k : kernel) (A : gmap list_ptr (list item_ptr)) (sem timeout : Z)
    (a : asem) (r : call Z) (k' : kernel) (A' : gmap list_ptr (list item_ptr)) : Prop :=
  let t := dos_current_task (k_task k) in
  match asem_try a with
  | Some a' => r = Return DOS_OK /\ sem_view k' A' sem = Some a' /\ k_tcbs k' = k_tcbs k /\
               k_store k' = k_store k /\ k_task k' = k_task k
  | None =>
      if may_block k timeout then
        r = Suspend sem_pend_resume /\
        sem_view k' A' sem = Some (asem_wait (item_val (k_store k) (PendItem t), t) a) /\
        exists c', k_tcbs k' !! t = Some c' /\ ready c' = false /\ suspended c' = true
      else r = Return DOS_NOK /\ k' = k
  end.

Lemma sem_pend_outcome_blocks k A sem timeout a r k' A' :
  sem_pend_outcome k A sem timeout a r k' A' -> asem_try a = None -> may_block k timeout = true ->
  let t := dos_current_task (k_task k) in
  r = Suspend sem_pend_resume /\
  sem_view k' A' sem = Some (asem_wait (item_val (k_store k) (PendItem t), t) a).
Proof. unfold sem_pend_outcome. intros H E E'. rewrite E, E' in H. naive_solver. Qed.

(** The caller that a pend blocks. *)
Definition sem_pend_blocks (k : kernel) (timeout : Z) (a : asem) : list Z :=
  if as_count a >? 0 then [] else if may_block k timeout then [dos_current_task (k_task k)] else [].

Lemma sem_pend_run k A sem timeout a c :
  kinv k A -> sem <> DOS_NULL -> sem_view k A sem = Some a -> asem_inv a -> caller k c ->
  0 <= timeout < 2 ^ 32 ->
  exists r k' A', dos_sem_pend sem timeout k = Done (r, k') /\ kinv k' A' /\
    sem_pend_outcome k A sem timeout a r k' A' /\
    frame [SemPendList sem] (sem_pend_blocks k timeout a) k A k' A' /\ settled k A k' A' /\
    forall t, t ∈ sem_pend_blocks k timeout a -> waits_on (SemPendList sem) timeout k k' t.
Proof.
  intros HI Hsem Hview Hinv [HT Hr Hs Hidle] Hto. unfold sem_pend_outcome, sem_pend_blocks.
  apply sem_view_inv in Hview as (v & xs & Hv & HA & ->).
  unfold dos_sem_pend. kstep. rewrite (proj2 (Z.eqb_neq sem DOS_NULL) Hsem).
  run_by ltac:(apply deref_some; exact Hv). set (k1 := assign_primask 1 k).
  unfold asem_try. cbn [as_count as_max as_wait]. destruct (Z.gtb_spec (sem_count v) 0) as [Hpos|Hz].
  - set (v' := set_sem_count (u32 (sem_count v - 1)) v).
    exists (Return DOS_OK), (put_sem sem v' k), A.
    split_and!; try done; [| |apply frame_sem; left | by apply settled_quiet | by intros t ?%elem_of_nil].
    + unfold upd_sem. rewrite bind_assoc. run_by ltac:(apply deref_some; exact Hv).
      kstep. unfold k1. by destruct k as [? ? ? ? [] ? ? ? ? ? ? ? ? ? ?].
    + unfold sem_view. simpl. rewrite lookup_insert_eq, HA. simpl. unfold v'. simpl.
      rewrite u32_small; [done|]. destruct Hinv as (H1 & H2 & _). simpl in *. lia.
  - unfold dos_scheduler_is_lock, dos_context_is_interrupt, may_block. kstep.
    change (k_sys k1) with (k_sys k).
    destruct (Z.eqb_spec timeout 0) as [->|Ht0]; cbn [orb andb negb].
    { exists (Return DOS_NOK), k, A. kstep. unfold k1. rewrite primask_id. unchanged. }
    destruct (dos_scheduler_lock_count (k_sys k) =? 0); cbn [negb orb andb]; last first.
    { exists (Return DOS_NOK), k, A. kstep. unfold k1. rewrite primask_id. unchanged. }
    kstep. change (ipsr (k_cpu k1)) with (ipsr (k_cpu k)).
    destruct (ipsr (k_cpu k) =? 0); cbn [negb]; last first.
    { exists (Return DOS_NOK), k, A. kstep. unfold k1. rewrite primask_id. unchanged. }
    destruct (block_run k A c (SemPendList sem) timeout) as (k2 & k3 & A3 & Hrun2 & Hrun3 & HB);
      try done; [lia|].
    exists (Suspend sem_pend_resume), k3, A3. split_and!; try done.
    + run_with Hrun2. kstep. by run_with Hrun3.
    + apply HB.
    + unfold sem_view. rewrite (so_sems _ _ (bl_objs _ _ _ _ _ _ _ HB)), Hv.
      destruct (bl_list _ _ _ _ _ _ _ HB) as [ys ->]. f_equal. unfold asem_wait. simpl.
      by rewrite (bl_waiters _ _ _ _ _ _ _ HB).
    + destruct (blocked_flags _ _ _ _ _ _ _ HB) as (c' & H1 & H2 & H3 & _). eauto.
    + apply HB.
    + by apply HB.
    + intros t ->%list_elem_of_singleton. apply HB.
Qed.

(** C7: [dos_sem_pend] implements the abstract semaphore on every branch: a token
    is taken and the call returns, or there is none and the call fails at once
    without any change (no timeout, scheduler locked, or interrupt context), or
    the caller joins the queue, stops being ready and the call is suspended.  Its
    place is behind the waiters whose pend value is at most its own and before the
    others; a task gets this value, its priority, when it is created.  The
    kernel invariant and PRIMASK are kept. *)
Theorem sem_pend_refines k A sem timeout a c :
  kinv k A -> sem <> DOS_NULL -> sem_view k A sem = Some a -> asem_inv a -> caller k c ->
  0 <= timeout < 2 ^ 32 ->
  exists r k' A', dos_sem_pend sem timeout k = Done (r, k') /\ kinv k' A' /\
    sem_pend_outcome k A sem timeout a r k' A' /\ primask (k_cpu k') = primask (k_cpu k).
Proof.
  intros HI Hsem Hview Hinv Hc Hto.
  destruct (sem_pend_run k A sem timeout a c HI Hsem Hview Hinv Hc Hto)
    as (r & k' & A' & Hrun & HI' & Ho & HF & _).
  exists r, k', A'. split_and!; try done. apply HF.
Qed.

Lemma sem_pend_refines_witness :
  exists r k' A', dos_sem_pend (o_sem objs) 50 demo = Done (r, k') /\
    r = Suspend sem_pend_resume /\
    sem_view k' A' (o_sem objs) = Some (mk_asem 0 1 [(3, task_a)]).
Proof.
  destruct (sem_pend_refines demo (lists_of demo) (o_sem objs) 50 (mk_asem 0 1 []) (cb demo task_a))
    as (r & k' & A' & Hrun & _ & Hout & _).
  - by_check.
  - discriminate.
  - by_eval.
  - split; simpl; [lia|]. split; [lia | reflexivity].
  - split; [by_eval | by_eval | by_eval | vm_compute; discriminate].
  - lia.
  - exists r, k', A'. split; [exact Hrun|].
    destruct (sem_pend_outcome_blocks _ _ _ _ _ _ _ _ Hout eq_refl) as [Hr Hv]; [by_eval|].
    assert (E' : (item_val (k_store demo) (PendItem (dos_current_task (k_task demo))),
                  dos_current_task (k_task demo)) = (3, task_a)) by by_eval.
    rewrite E' in Hv. split; [exact Hr | exact Hv].
Defined.

Lemma sem_resume_run k A c :
  let t := dos_current_task (k_task k) in
  kinv k A -> k_tcbs k !! t = Some c -> ready c = true ->
  exists k' A', sem_pend_resume k = Done (if timed_out c then DOS_NOK else DOS_OK, k') /\
    ended t c k A k' A'.
Proof.
  intros t HI HT Hr. destruct (wait_end_run k A t c HI HT Hr) as (k' & A' & Hrun & HE).
  exists k', A'. split; [|done]. unfold sem_pend_resume. kstep.
  run_by ltac:(apply task_at_run; exact HT). exact Hrun.
Qed.

(** The end of a suspended [dos_sem_pend], run when the caller is scheduled
    again: it succeeds and changes nothing if the caller was woken by a post; if
    the wait timed out it fails, and the caller has left the pend list and is
    neither suspended nor marked as timed out any more. *)
Theorem sem_resume_spec k A c :
  kinv k A -> k_tcbs k !! dos_current_task (k_task k) = Some c -> ready c = true ->
  exists k' A', sem_pend_resume k =
      Done (if timed_out c then DOS_NOK else DOS_OK, k') /\ kinv k' A' /\
    (timed_out c = false -> k' = k) /\
    (timed_out c = true -> exists c', k_tcbs k' !! dos_current_task (k_task k) = Some c' /\
       ready c' = true /\ suspended c' = false /\ timed_out c' = false).
Proof.
  intros HI HT Hr. destruct (sem_resume_run k A c HI HT Hr) as (k' & A' & Hrun & HE).
  exists k', A'. split_and!; [exact Hrun | apply HE | |].
  - intros Hto. revert Hrun. unfold sem_pend_resume. kstep.
    run_by ltac:(apply task_at_run; exact HT). fold (timed_out c). rewrite Hto. by intros [= ->].
  - intros Hto. apply (ended_flags _ _ _ _ _ _ HE HT Hr). congruence.
Qed.

Lemma sem_resume_spec_witness :
  exists k', sem_pend_resume demo_sem_timeout = Done (DOS_NOK, k').
Proof.
  destruct (sem_resume_spec demo_sem_timeout (lists_of demo_sem_timeout)
    (cb demo_sem_timeout task_a)) as (k' & A' & Hrun & _); [by_check | by_eval | by_eval |].
  exists k'. etrans; [exact Hrun|].
  assert (E : timed_out (cb demo_sem_timeout task_a) = true) by by_eval. rewrite E. reflexivity.
Defined.
