(* ===== verification/MutexSpec.v ===== *)
(** * Mutexes: ownership, recursion and priority inheritance

    The abstract mutex has an owner, the number of times it holds the mutex,
    the priority to restore when it gives it up, and the waiters in order. *)

From S2P Require Import Prelude TaskList TaskListSpec Mem Priority Kernel Sched KernelInv.
From S2P Require Import SchedSpec Sem Mutex IpcSpec FrameSpec SemSpec KernelCheck Boot.

(** ** Specification *)

Record amutex : Type := mk_amutex {
  am_count : Z;
  am_priority : Z;
  am_owner : Z;
  am_wait : list (Z * Z)
}.

(** A held mutex has an owner and nobody waits for a free one. *)
Record amutex_inv (k : kernel) (a : amutex) : Prop := {
  ai_count : 0 <= am_count a < 2 ^ 16;
  ai_priority : 0 <= am_priority a < 32;
  ai_held : 0 < am_count a -> is_Some (k_tcbs k !! am_owner a) /\ am_owner a <> DOS_NULL;
  ai_free : am_count a = 0 -> am_wait a = []
}.

(** A mutex as created, and one that is held. *)
Lemma amutex_inv_new k : amutex_inv k (mk_amutex 0 0 DOS_NULL []).
Proof. split; simpl; (lia || done). Qed.

Lemma amutex_inv_held k n p t ws :
  0 < n < 2 ^ 16 -> 0 <= p < 32 -> is_Some (k_tcbs k !! t) -> t <> DOS_NULL ->
  amutex_inv k (mk_amutex n p t ws).
Proof. intros. split; simpl; (lia || done). Qed.


Definition mutex_view (k : kernel) (A : gmap list_ptr (list item_ptr)) (mutex : Z) :
    option amutex :=
  match k_mutexes k !! mutex, A !! MutexPendList mutex with
  | Some v, Some _ =>
      Some (mk_amutex (mutex_count v) (mutex_priority v) (mutex_owner v)
              (waiters k A (MutexPendList mutex)))
  | _, _ => None
  end.

Lemma mutex_view_inv k A mutex a :
  mutex_view k A mutex = Some a ->
  exists v xs, k_mutexes k !! mutex = Some v /\ A !! MutexPendList mutex = Some xs /\
    a = mk_amutex (mutex_count v) (mutex_priority v) (mutex_owner v)
          (waiters k A (MutexPendList mutex)).
Proof.
  unfold mutex_view. destruct (k_mutexes k !! mutex) as [v|]; [|done].
  destruct (A !! MutexPendList mutex) as [xs|]; [|done]. intros [= <-]. eauto.
Qed.

Lemma mutex_view_intro k A mutex v xs :
  k_mutexes k !! mutex = Some v -> A !! MutexPendList mutex = Some xs ->
  mutex_view k A mutex = Some (mk_amutex (mutex_count v) (mutex_priority v) (mutex_owner v)
    (waiters k A (MutexPendList mutex))).
Proof. intros Hv HA. unfold mutex_view. by rewrite Hv, HA. Qed.

(** ** Taking the mutex *)

Lemma mutex_take_run k A mutex timeout a c :
  let t := dos_current_task (k_task k) in
  mutex <> DOS_NULL -> mutex_view k A mutex = Some a -> amutex_inv k a ->
  k_tcbs k !! t = Some c -> ipsr (k_cpu k) = 0 ->
  am_count a = 0 \/ (am_owner a = t /\ am_count a < 2 ^ 16 - 1) ->
  dos_mutex_pend mutex timeout k = Done (Return DOS_OK, put_mutex mutex (mk_mutex (am_count a + 1)
    (if am_count a =? 0 then priority c else am_priority a) t) k).
Proof.
  intros t Hm Hview Hinv HT Hip Hcase.
  apply mutex_view_inv in Hview as (v & xs & Hv & HA & ->). simpl in Hcase.
  pose proof (ai_count _ _ Hinv) as Hc. cbn [am_count am_priority am_owner am_wait] in *.
  unfold dos_mutex_pend, dos_context_is_interrupt. kstep. rewrite Hip.
  rewrite (proj2 (Z.eqb_neq mutex DOS_NULL) Hm). cbn [Z.eqb negb orb]. kstep. fold t.
  run_by ltac:(apply deref_some; exact Hv).
  destruct (Z.eqb_spec (mutex_count v) 0) as [Hz|Hz].
  - rewrite Hz. run_by ltac:(apply task_at_run; exact HT). kstep. change (u16 (0 + 1)) with 1.
    by destruct k as [? ? ? ? [] ? ? ? ? ? ? ? ? ? ?].
  - destruct Hcase as [|[Ho Hb]]; [done|]. rewrite (proj2 (Z.eqb_eq _ _) Ho).
    unfold upd_mutex. rewrite bind_assoc. run_by ltac:(apply deref_some; exact Hv). kstep.
    unfold set_mutex_count. rewrite u16_small, Ho by lia.
    by destruct k as [? ? ? ? [] ? ? ? ? ? ? ? ? ? ?].
Qed.

(** [dos_mutex_pend] on a free mutex, or by its owner, returns at once: the
    caller owns the mutex, the count grows by one, on the first lock the caller's
    priority is recorded for the later restore, and a nested lock keeps the
    recorded one; waiters, lists and tasks are untouched. *)
Theorem mutex_pend_take k A mutex timeout a c :
  kinv k A -> mutex <> DOS_NULL -> mutex_view k A mutex = Some a -> amutex_inv k a ->
  caller k c -> ipsr (k_cpu k) = 0 ->
  am_count a = 0 \/ (am_owner a = dos_current_task (k_task k) /\ am_count a < 2 ^ 16 - 1) ->
  exists k', dos_mutex_pend mutex timeout k = Done (Return DOS_OK, k') /\ kinv k' A /\
    mutex_view k' A mutex = Some (mk_amutex (am_count a + 1)
      (if am_count a =? 0 then priority c else am_priority a)
      (dos_current_task (k_task k)) (am_wait a)) /\
    k_tcbs k' = k_tcbs k /\ k_store k' = k_store k /\ k_task k' = k_task k.
Proof.
  intros HI Hm Hview Hinv [HT Hr Hs Hidle] Hip Hcase. eexists.
  split; [by eapply mutex_take_run|]. split_and!; try done.
  apply mutex_view_inv in Hview as (v & xs & Hv & HA & ->).
  erewrite mutex_view_intro; [|apply lookup_insert_eq | exact HA]. done.
Qed.

Lemma mutex_pend_take_witness :
  exists k', dos_mutex_pend (o_mutex objs) 50 demo = Done (Return DOS_OK, k') /\
    mutex_view k' (lists_of demo) (o_mutex objs) = Some (mk_amutex 1 3 task_a []).
Proof.
  destruct (mutex_pend_take demo (lists_of demo) (o_mutex objs) 50 (mk_amutex 0 0 DOS_NULL [])
    (cb demo task_a)) as (k' & Hrun & _ & Hv & _).
  - by_check.
  - discriminate.
  - by_eval.
  - apply amutex_inv_new.
  - split; [by_eval | by_eval | by_eval | vm_compute; discriminate].
  - by_eval.
  - left. reflexivity.
  - exists k'. split; [exact Hrun|].
    assert (E : dos_current_task (k_task demo) = task_a) by by_eval.
    assert (E' : priority (cb demo task_a) = 3) by by_eval.
    rewrite E, E' in Hv. cbn [am_count am_priority am_wait Z.eqb Z.add] in Hv. exact Hv.
Defined.

(** The state in which nobody holds the mutex [m] and nobody waits for it. *)
Record mutex_idle (k : kernel) (A : gmap list_ptr (list item_ptr)) (m : Z) : Prop := {
  mi_addr : m <> DOS_NULL;
  mi_count : exists v, k_mutexes k !! m = Some v /\ mutex_count v = 0;
  mi_wait : A !! MutexPendList m = Some []
}.

Lemma mutex_lock_run k A m timeout c :
  let t := dos_current_task (k_task k) in
  mutex_idle k A m -> k_tcbs k !! t = Some c -> ipsr (k_cpu k) = 0 ->
  dos_mutex_pend m timeout k = Done (Return DOS_OK, put_mutex m (mk_mutex 1 (priority c) t) k).
Proof.
  intros t [Hm (v & Hv & Hz) _] HT Hip.
  unfold dos_mutex_pend, dos_context_is_interrupt. kstep. rewrite Hip.
  rewrite (proj2 (Z.eqb_neq m DOS_NULL) Hm). cbn [Z.eqb negb orb]. kstep.
  run_by ltac:(apply deref_some; exact Hv). rewrite Hz. cbn [Z.eqb].
  run_by ltac:(apply task_at_run; exact HT). kstep.
  by destruct k as [? ? ? ? [] ? ? ? ? ? ? ? ? ? ?].
Qed.

(** Unlocking right after locking: the priority needs no change and nobody is
    woken. *)
Lemma mutex_unlock_run k A m c :
  let t := dos_current_task (k_task k) in
  kinv k A -> m <> DOS_NULL -> k_mutexes k !! m = Some (mk_mutex 1 (priority c) t) ->
  A !! MutexPendList m = Some [] -> k_tcbs k !! t = Some c -> ipsr (k_cpu k) = 0 ->
  dos_mutex_post m k = Done (Return DOS_OK, put_mutex m (mk_mutex 0 0 DOS_NULL) k).
Proof.
  intros t HI Hm Hv HA HT Hip.
  unfold dos_mutex_post, dos_context_is_interrupt. kstep. rewrite Hip.
  rewrite (proj2 (Z.eqb_neq m DOS_NULL) Hm). cbn [Z.eqb negb orb]. kstep.
  run_by ltac:(apply deref_some; exact Hv). cbn [mutex_count mutex_owner]. fold t.
  rewrite Z.eqb_refl. cbn [Z.eqb negb orb]. unfold upd_mutex. rewrite bind_assoc.
  run_by ltac:(apply deref_some; exact Hv). kstep. change (u16 (1 - 1)) with 0. cbn [Z.eqb negb].
  unfold mutex_release. cbn [mutex_owner mutex_priority].
  run_by ltac:(apply task_at_run; exact HT). rewrite Z.eqb_refl. cbn [negb]. kstep.
  run_by ltac:(apply on_store_run; exact (list_is_empty_run _ _ _ _ (ti_store _ _ _ _ _ HI) HA)).
  rewrite bool_decide_true by done. cbn [negb]. unfold upd_mutex. rewrite bind_assoc.
  run_by ltac:(apply deref_some; apply lookup_insert_eq). kstep.
  destruct k as [? ? ? ? [] ? ? ? ? ? ? ? ? ? ?].
  unfold put_mutex, set_k_mutexes, assign_primask. simpl. by rewrite insert_insert_eq.
Qed.

(** ** Waiting for the mutex *)

(** The priority the owner runs at while the caller waits. *)
Definition inherited (a : amutex) (p : Z) (o : dos_task_cb) : dos_task_cb :=
  if am_priority a >? p then reprioritised p o else o.

(** A caller that cannot block leaves everything as it is; one that blocks is
    queued, is not ready, and the owner inherits its priority. *)
Definition mutex_wait_outcome (k : kernel) (A : gmap list_ptr (list item_ptr))
    (mutex timeout : Z) (a : amutex) (c : dos_task_cb) (r : call Z) (k' : kernel)
    (A' : gmap list_ptr (list item_ptr)) : Prop :=
  let t := dos_current_task (k_task k) in
  if (timeout =? 0) || negb (dos_scheduler_lock_count (k_sys k) =? 0)
  then r = Return DOS_NOK /\ k' = k
  else
    r = Suspend (mutex_pend_resume t) /\
    mutex_view k' A' mutex = Some (mk_amutex (am_count a) (am_priority a) (am_owner a)
      (enqueue (item_val (k_store k) (PendItem t), t) (am_wait a))) /\
    (exists c', k_tcbs k' !! t = Some c' /\ ready c' = false /\ suspended c' = true) /\
    (forall o, k_tcbs k !! am_owner a = Some o ->
       k_tcbs k' !! am_owner a = Some (inherited a (priority c) o)).

Lemma mutex_wait_outcome_blocks k A mutex timeout a c r k' A' :
  mutex_wait_outcome k A mutex timeout a c r k' A' ->
  (timeout =? 0) || negb (dos_scheduler_lock_count (k_sys k) =? 0) = false ->
  let t := dos_current_task (k_task k) in
  r = Suspend (mutex_pend_resume t) /\
  mutex_view k' A' mutex = Some (mk_amutex (am_count a) (am_priority a) (am_owner a)
    (enqueue (item_val (k_store k) (PendItem t), t) (am_wait a))) /\
  (forall o, k_tcbs k !! am_owner a = Some o ->
     k_tcbs k' !! am_owner a = Some (inherited a (priority c) o)).
Proof. unfold mutex_wait_outcome. intros H E. rewrite E in H. naive_solver. Qed.

(** The owner inherits the priority of the waiter if that is higher than the
    recorded one. *)
Lemma inherit_run k A a p o :
  kinv k A -> k_tcbs k !! am_owner a = Some o -> 0 <= p < 32 ->
  exists k' A', (if am_priority a >? p then dos_set_task_priority (am_owner a) p else mret tt) k =
      Done (tt, k') /\ kinv k' A' /\ (forall l, is_pend_list l = true -> A' !! l = A !! l) /\
    k_tcbs k' = <[am_owner a := inherited a p o]> (k_tcbs k) /\
    same_data (k_store k) (k_store k') /\ same_times (k_task k) (k_task k') /\ same_rest k k' /\
    frame [] [] k A k' A'.
Proof.
  intros HI HO Hp. unfold inherited. destruct (am_priority a >? p).
  - destruct (set_priority_spec k A (am_owner a) o p HI HO Hp)
      as (k2 & A2 & Hrun & HI2 & HA2 & HT2 & Hsd2 & Hl2 & Hg2 & Hr2).
    exists k2, A2. split_and!; try done. eapply (frame_same_flags _ _ _ o (reprioritised p o)); try done;
      [apply reprioritised_same | by intros; apply Hl2].
  - exists k, A. split_and!; try done; [|apply frame_refl]. by rewrite insert_id.
Qed.

(** The caller that a pend on a held mutex blocks. *)
Definition mutex_pend_blocks (k : kernel) (timeout : Z) : list Z :=
  if (timeout =? 0) || negb (dos_scheduler_lock_count (k_sys k) =? 0) then []
  else [dos_current_task (k_task k)].

Lemma mutex_wait_run k A mutex timeout a c :
  kinv k A -> mutex <> DOS_NULL -> mutex_view k A mutex = Some a -> amutex_inv k a ->
  caller k c -> ipsr (k_cpu k) = 0 -> 0 <= timeout < 2 ^ 32 ->
  am_count a <> 0 -> am_owner a <> dos_current_task (k_task k) ->
  exists r k' A', dos_mutex_pend mutex timeout k = Done (r, k') /\ kinv k' A' /\
    mutex_wait_outcome k A mutex timeout a c r k' A' /\
    frame [MutexPendList mutex] (mutex_pend_blocks k timeout) k A k' A' /\ settled k A k' A' /\
    forall t, t ∈ mutex_pend_blocks k timeout -> waits_on (MutexPendList mutex) timeout k k' t.
Proof.
  intros HI Hm Hview Hinv [HT Hr Hs Hidle] Hip Hto Hz Ho.
  unfold mutex_wait_outcome, mutex_pend_blocks.
  destruct (ai_held _ _ Hinv) as [[o HO] Honull]; [pose proof (ai_count _ _ Hinv); lia|].
  pose proof (mutex_view_inv _ _ _ _ Hview) as (v & xs & Hv & HA & Ea).
  assert (mutex_count v = am_count a /\ mutex_priority v = am_priority a /\ mutex_owner v = am_owner a /\
          waiters k A (MutexPendList mutex) = am_wait a) as (E1 & E2 & E3 & E4) by (by rewrite Ea).
  clear Ea. unfold dos_mutex_pend, dos_context_is_interrupt. kstep. rewrite Hip.
  rewrite (proj2 (Z.eqb_neq mutex DOS_NULL) Hm). cbn [Z.eqb negb orb]. kstep.
  set (t := dos_current_task (k_task k)) in *. set (k1 := assign_primask 1 k).
  run_by ltac:(apply deref_some; exact Hv). rewrite E1, E2, E3.
  rewrite (proj2 (Z.eqb_neq _ _) Hz), (proj2 (Z.eqb_neq _ _) Ho).
  unfold dos_scheduler_is_lock. kstep. change (k_sys k1) with (k_sys k).
  destruct ((timeout =? 0) || negb (dos_scheduler_lock_count (k_sys k) =? 0)) eqn:Hb.
  { exists (Return DOS_NOK), k, A. kstep. unfold k1. rewrite primask_id. unchanged. }
  apply orb_false_iff in Hb as [Ht0%Z.eqb_neq _].
  run_by ltac:(apply task_at_run; exact HT).
  assert (Hp : 0 <= priority c < 32) by apply (tk_priority _ _ _ (ti_task _ _ _ _ _ HI _ _ HT)).
  destruct (inherit_run k1 A a (priority c) o HI HO Hp)
    as (k2 & A2 & Hrun2 & HI2 & HA2 & HT2 & Hsd2 & Hg2 & Hr2 & HF2).
  set (k2' := assign_primask (primask (k_cpu k)) k2).
  assert (Hk2 : assign_primask 1 k2' = k2).
  { pose proof (sr_cpu _ _ Hr2) as Hc. destruct k2 as [? ? ? ? [] ? ? ? ? ? ? ? ? ? ?].
    simpl in Hc. injection Hc as -> _ _. done. }
  assert (Ht2 : dos_current_task (k_task k2') = t) by apply (st_current _ _ Hg2).
  destruct (block_run k2' A2 c (MutexPendList mutex) timeout)
    as (k3 & k4 & A4 & Hrun3 & Hrun4 & HB); rewrite ?Ht2; try done.
  { simpl. by rewrite HT2, lookup_insert_ne. } { simpl. by rewrite (st_idle _ _ Hg2). }
  { rewrite HA2 by done. eauto. } { lia. }
  rewrite Hk2 in Hrun3. simpl in Hrun4.
  assert (Hw2 : waiters k2' A2 (MutexPendList mutex) = am_wait a).
  { rewrite <- E4. apply (waiters_same k k2' A A2 _ (MutexPendList mutex) HI eq_refl);
      [by apply HA2 | intros t']. by apply item_val_same. }
  pose proof (bl_waiters _ _ _ _ _ _ _ HB) as Hw4. rewrite Ht2, Hw2 in Hw4.
  change (k_store k2') with (k_store k2) in Hw4. rewrite (item_val_same _ _ _ Hsd2) in Hw4.
  pose proof (bl_objs _ _ _ _ _ _ _ HB) as Ho4. pose proof (bl_frame _ _ _ _ _ _ _ HB) as HF4.
  rewrite Ht2 in HF4. pose proof (frame_masked _ _ k A k2 A2 1 HF2) as HF2'.
  exists (Suspend (mutex_pend_resume t)), k4, A4. split_and!; try done.
  - run_with Hrun2. run_with Hrun3. kstep. by run_with Hrun4.
  - apply HB.
  - unfold mutex_view. rewrite (so_mutexes _ _ Ho4). simpl. rewrite (sr_mutexes _ _ Hr2). simpl.
    rewrite Hv, Hw4, E1, E2, E3. by destruct (bl_list _ _ _ _ _ _ _ HB) as [ys ->].
  - destruct (blocked_flags _ _ _ _ _ _ _ HB) as (c' & H1 & H2 & H3 & _). rewrite Ht2 in H1. eauto.
  - intros o' HO'. simplify_eq. apply (bl_other _ _ _ _ _ _ _ HB); [by rewrite Ht2|].
    simpl. rewrite HT2. apply lookup_insert_eq.
  - eapply frame_trans; [|exact HF4].
    eapply frame_weaken; [exact HF2' | apply list_subseteq_nil | apply list_subseteq_nil].
  - apply (bl_settled _ _ _ _ _ _ _ HB); simpl; [by rewrite (sr_sys _ _ Hr2)|].
    by rewrite (sr_cpu _ _ Hr2).
  - intros t' ->%list_elem_of_singleton. rewrite <- Ht2. destruct (bl_waits _ _ _ _ _ _ _ HB) as [Hl4 Hd4].
    split; [done|]. intros Hf. specialize (Hd4 Hf). simpl in Hd4. by rewrite (st_tick _ _ Hg2) in Hd4.
Qed.

(** C10: [dos_mutex_pend] on a mutex another task holds: without a timeout or with
    the scheduler locked it fails and nothing changes; otherwise the caller joins
    the waiters (behind those whose pend value is at most its own; a task gets this
    value, its priority, when it is created, and inheritance does not change it),
    stops being ready, and the owner runs from then on at the caller's priority if
    that is higher than the recorded one (priority inheritance), moved to the
    matching ready list if it is ready. *)
Theorem mutex_pend_wait k A mutex timeout a c :
  kinv k A -> mutex <> DOS_NULL -> mutex_view k A mutex = Some a -> amutex_inv k a ->
  caller k c -> ipsr (k_cpu k) = 0 -> 0 <= timeout < 2 ^ 32 ->
  am_count a <> 0 -> am_owner a <> dos_current_task (k_task k) ->
  exists r k' A', dos_mutex_pend mutex timeout k = Done (r, k') /\ kinv k' A' /\
    mutex_wait_outcome k A mutex timeout a c r k' A'.
Proof.
  intros HI Hm Hview Hinv Hc Hip Hto Hz Ho.
  destruct (mutex_wait_run k A mutex timeout a c HI Hm Hview Hinv Hc Hip Hto Hz Ho)
    as (r & k' & A' & Hrun & HI' & Hout & _). eauto 6.
Qed.

Lemma mutex_pend_wait_witness :
  exists r k', dos_mutex_pend (o_mutex objs) 50 demo_mutex_held = Done (r, k') /\
    k_tcbs k' !! task_c = Some (reprioritised 3 (cb demo_mutex_held task_c)).
Proof.
  destruct (mutex_pend_wait demo_mutex_held (lists_of demo_mutex_held) (o_mutex objs) 50
    (mk_amutex 1 7 task_c []) (cb demo_mutex_held task_a)) as (r & k' & A' & Hrun & _ & Hout).
  - by_check.
  - discriminate.
  - by_eval.
  - apply amutex_inv_held;
      [lia | lia | apply is_some_check; by_eval | discriminate].
  - split; [by_eval | by_eval | by_eval | vm_compute; discriminate].
  - by_eval.
  - lia.
  - discriminate.
  - vm_compute. discriminate.
  - exists r, k'. split; [exact Hrun|].
    destruct (mutex_wait_outcome_blocks _ _ _ _ _ _ _ _ _ Hout) as (_ & _ & Hin); [by_eval|].
    assert (E : priority (cb demo_mutex_held task_a) = 3) by by_eval.
    assert (E' : forall o, inherited (mk_amutex 1 7 task_c []) 3 o = reprioritised 3 o) by reflexivity.
    rewrite <- E', <- E. exact (Hin _ ltac:(by_eval)).
Defined.

(** ** Giving the mutex back *)

(** [prio] gives the priority of the tasks. *)
Definition amutex_post (t : Z) (prio : Z -> Z) (a : amutex) : Z * amutex :=
  if (am_count a =? 0) || negb (am_owner a =? t) then (DOS_NOK, a)
  else if negb (am_count a - 1 =? 0)
  then (DOS_OK, mk_amutex (am_count a - 1) (am_priority a) (am_owner a) (am_wait a))
  else match am_wait a with
       | [] => (DOS_OK, mk_amutex 0 0 DOS_NULL [])
       | w :: ws => (DOS_OK, mk_amutex 1 (prio w.2) w.2 ws)
       end.

Definition task_prio (k : kernel) (t : Z) : Z :=
  match k_tcbs k !! t with Some c => priority c | None => 0 end.

Definition call_result (r : call Z) (k : kernel) : result (Z * kernel) :=
  match r with Return v => Done (v, k) | Suspend m => m k end.

Lemma restore_run k A t c p :
  kinv k A -> k_tcbs k !! t = Some c -> 0 <= p < 32 ->
  exists k' A' c', (if negb (priority c =? p) then dos_set_task_priority t p else mret tt) k =
      Done (tt, k') /\ kinv k' A' /\ (forall l, is_pend_list l = true -> A' !! l = A !! l) /\
    k_tcbs k' = <[t := c']> (k_tcbs k) /\ priority c' = p /\ same_flags c c' /\
    same_data (k_store k) (k_store k') /\
    (forall q, q <> StatusItem t -> loc (k_store k') q = loc (k_store k) q) /\
    same_rest k k' /\ frame [] [] k A k' A' /\
    (priority c = p -> k' = k /\ A' = A).
Proof.
  intros HI HT Hp. destruct (Z.eqb_spec (priority c) p) as [<-|Hne]; simpl.
  - exists k, A, c. rewrite insert_id by done. split_and!; try done. apply frame_refl.
  - destruct (set_priority_spec k A t c p HI HT Hp)
      as (k' & A' & Hrun & HI' & HA' & HT' & Hsd & Hl & Hg & Hr).
    destruct (reprioritised_flags p c) as (_ & _ & _ & _ & F5).
    exists k', A', (reprioritised p c). split_and!; try done; [apply reprioritised_same|].
    eapply (frame_same_flags _ _ _ c (reprioritised p c)); try done;
      [apply reprioritised_same | by intros; apply Hl].
Qed.

(** The end of a post that handed the mutex over. *)
Abbreviation mutex_post_resume pri := (dos_interrupt_enable pri;; mret DOS_OK).

(** The mutex after its last unlock and the way the call ends. *)
Record released (mutex pri : Z) (v : dos_mutex) (c : dos_task_cb) (k : kernel)
    (A : gmap list_ptr (list item_ptr)) (ws : list (Z * Z)) (r : call Z) (k' : kernel)
    (A' : gmap list_ptr (list item_ptr)) : Prop := {
  re_kinv : kinv k' A';
  re_view : mutex_view k' A' mutex = Some (match ws with
    | [] => mk_amutex 0 0 DOS_NULL []
    | w :: ws' => mk_amutex 1 (task_prio k w.2) w.2 ws' end);
  re_prio : exists c', k_tcbs k' !! dos_current_task (k_task k) = Some c' /\
    priority c' = mutex_priority v;
  re_frame : frame [MutexPendList mutex] (take 1 ws.*2) (assign_primask pri k) A k' A';
  re_end : match ws with
    | [] => r = Return DOS_OK /\ k_cpu k' = k_cpu (assign_primask pri k) /\
            (priority c = mutex_priority v -> k_store k' = k_store k /\ k_tcbs k' = k_tcbs k /\
               k_task k' = k_task k /\ A' = A)
    | w :: _ => r = Suspend (mutex_post_resume pri) /\
        loc (k_store k) (PendItem w.2) = Some (MutexPendList mutex) /\
        (exists c', k_tcbs k' !! w.2 = Some c' /\ ready c' = true /\ suspended c' = false) /\
        forall k0 A0, k_sys k0 = k_sys k -> pendsv (k_cpu k0) = pendsv (k_cpu k) ->
          settled k0 A0 k' A'
    end
}.

Lemma mutex_release_run k A mutex pri v xs c :
  let t := dos_current_task (k_task k) in
  kinv k A -> k_mutexes k !! mutex = Some (set_mutex_count 0 v) ->
  A !! MutexPendList mutex = Some xs -> mutex_owner v = t -> 0 <= mutex_priority v < 32 ->
  k_tcbs k !! t = Some c -> suspended c = false ->
  exists r k' A', mutex_release mutex pri v k = Done (r, k') /\
    released mutex pri v c k A (waiters k A (MutexPendList mutex)) r k' A'.
Proof.
  intros t HI Hv HA Ho Hp HT Hs. unfold mutex_release. rewrite Ho.
  run_by ltac:(apply task_at_run; exact HT).
  destruct (restore_run k A t c (mutex_priority v) HI HT Hp)
    as (k2 & A2 & c2 & Hrun2 & HI2 & HA2 & HT2 & P2 & S2 & Hsd2 & Hl2 & Hr2 & HF2 & Hq2).
  run_with Hrun2.
  assert (HA2' : A2 !! MutexPendList mutex = Some xs) by (by rewrite HA2).
  run_by ltac:(apply on_store_run;
    exact (list_is_empty_run _ _ _ _ (ti_store _ _ _ _ _ HI2) HA2')).
  assert (Hid : set_k_store (k_store k2) k2 = k2) by (by destruct k2). rewrite Hid.
  assert (Hv2 : k_mutexes k2 !! mutex = Some (set_mutex_count 0 v))
    by (by rewrite (sr_mutexes _ _ Hr2)).
  assert (HFp : frame [] [] (assign_primask pri k) A (assign_primask pri k2) A2)
    by (destruct HF2; by split).
  destruct xs as [|q xs].
  - rewrite bool_decide_true by done. cbn [negb]. unfold upd_mutex. rewrite bind_assoc.
    run_by ltac:(apply deref_some; exact Hv2). kstep. rewrite (waiters_nil k A _ HA).
    eexists (Return DOS_OK), _, A2. split; [reflexivity|]. split.
    + exact HI2.
    + erewrite mutex_view_intro; [|apply lookup_insert_eq | exact HA2'].
      simpl. unfold waiters. by rewrite HA2'.
    + exists c2. simpl. by rewrite HT2, lookup_insert_eq.
    + eapply frame_trans; [eapply frame_weaken; [exact HFp | apply list_subseteq_nil..]|].
      apply (frame_mutex mutex _ _ _ (assign_primask pri k2)). left.
    + split_and!; try done; [simpl; by rewrite (sr_cpu _ _ Hr2)|]. intros E.
      by destruct (Hq2 E) as [-> ->].
  - rewrite bool_decide_false by done. cbn [negb].
    destruct (first_waiter k2 A2 _ (MutexPendList mutex) q xs HI2 eq_refl HA2')
      as (t' & c' & s3 & -> & HT' & Hs' & Hrun3 & HI3 & Hit3 & Hsd3).
    set (k3 := set_k_store s3 k2) in *.
    set (k4 := put_mutex mutex (mk_mutex 1 (priority c') t') k3).
    destruct (wake_run k4 A2 _ (MutexPendList mutex) t' c' xs pri HI3 eq_refl HA2' HT')
      as (k5 & k6 & A6 & Hrun5 & Hrun6 & HW).
    assert (Hne : t' <> t).
    { intros ->. rewrite HT2, lookup_insert_eq in HT'. destruct S2. congruence. }
    assert (HT0 : k_tcbs k !! t' = Some c') by (by rewrite HT2, lookup_insert_ne in HT').
    rewrite (waiters_cons k A _ _ _ HA). cbn [item_task].
    exists (Suspend (mutex_post_resume pri)), k6, A6. split.
    + run_with Hrun3. fold k3. run_by ltac:(apply task_at_run; exact HT').
      run_by ltac:(apply deref_some; exact Hv2). kstep. fold k4. change (u16 (0 + 1)) with 1.
      run_with Hrun5. kstep. by run_with Hrun6.
    + split.
      * exact (woke_kinv _ _ _ _ (assign_primask pri k4) _ _ _ HW).
      * unfold mutex_view. rewrite (so_mutexes _ _ (wo_objs _ _ _ _ _ _ _ _ _ HW)). simpl.
        rewrite lookup_insert_eq, (wo_list _ _ _ _ _ _ _ _ _ HW). simpl. do 2 f_equal.
        -- unfold task_prio. by rewrite HT0.
        -- destruct (woke_waiters _ _ _ _ _ _ _ _ _ _ _ HW HA2' (waiters_cons _ _ _ _ _ HA2'))
             as [_ ->]. apply map_ext. intros q. f_equal. simpl.
           rewrite (item_val_same _ _ _ Hsd3). by apply item_val_same.
      * destruct (wo_others _ _ _ _ _ _ _ _ _ HW t c2) as [n HT6]; [done| |by eexists].
        simpl. by rewrite HT2, lookup_insert_eq.
      * eapply frame_trans; [eapply frame_weaken; [exact HFp | apply list_subseteq_nil..]|].
        eapply frame_trans; [apply (frame_cursor _ _ _ _ s3); done|].
        eapply frame_trans; [apply (frame_mutex mutex (mk_mutex 1 (priority c') t')); left|].
        exact (wo_frame _ _ _ _ _ _ _ _ _ HW).
      * cbn [snd]. split_and!; [done | | |].
        -- by destruct (store_rep_in _ _ (PendItem t') _ _ (ti_store _ _ _ _ _ HI) HA) as [_ H2]; [left|].
        -- destruct (woke_flags _ _ _ _ _ _ _ _ _ HW) as (c1 & H1 & H2 & H3 & _). eauto.
        -- intros k0 A0 Hs0 Hp0. apply (wo_settled _ _ _ _ _ _ _ _ _ HW); [done|..]; simpl.
           ++ by rewrite (sr_sys _ _ Hr2).
           ++ by rewrite (sr_cpu _ _ Hr2).
Qed.

(** The task a post wakes. *)
Definition amutex_wakes (t : Z) (a : amutex) : list Z :=
  if (am_count a =? 0) || negb (am_owner a =? t) then []
  else if negb (am_count a - 1 =? 0) then [] else take 1 (am_wait a).*2.

Record mutex_posted (k : kernel) (A : gmap list_ptr (list item_ptr)) (mutex : Z) (a : amutex)
    (c : dos_task_cb) (r : call Z) (k' : kernel) (A' : gmap list_ptr (list item_ptr)) : Prop := {
  mp_kinv : kinv k' A';
  mp_view : mutex_view k' A' mutex =
    Some (amutex_post (dos_current_task (k_task k)) (task_prio k) a).2;
  mp_return : r = Return (amutex_post (dos_current_task (k_task k)) (task_prio k) a).1 \/
    (r = Suspend (mutex_post_resume (primask (k_cpu k))) /\
     (amutex_post (dos_current_task (k_task k)) (task_prio k) a).1 = DOS_OK);
  mp_prio : am_owner a = dos_current_task (k_task k) -> am_count a = 1 ->
    exists c', k_tcbs k' !! dos_current_task (k_task k) = Some c' /\ priority c' = am_priority a;
  mp_wakes : forall t, t ∈ amutex_wakes (dos_current_task (k_task k)) a ->
    loc (k_store k) (PendItem t) = Some (MutexPendList mutex) /\
    exists c', k_tcbs k' !! t = Some c' /\ ready c' = true /\ suspended c' = false;
  mp_frame : frame [MutexPendList mutex] (amutex_wakes (dos_current_task (k_task k)) a) k A k' A';
  mp_end : settled k A k' A' \/ k_cpu k' = k_cpu k;
  mp_settled : priority c = am_priority a -> settled k A k' A'
}.

Lemma mutex_post_run k A mutex a c :
  kinv k A -> mutex <> DOS_NULL -> mutex_view k A mutex = Some a -> amutex_inv k a ->
  k_tcbs k !! dos_current_task (k_task k) = Some c -> suspended c = false ->
  ipsr (k_cpu k) = 0 ->
  exists r k' A', dos_mutex_post mutex k = Done (r, k') /\ mutex_posted k A mutex a c r k' A'.
Proof.
  intros HI Hm Hview Hinv HT Hs Hip.
  apply mutex_view_inv in Hview as (v & xs & Hv & HA & ->).
  pose proof (ai_count _ _ Hinv) as Hcnt. pose proof (ai_priority _ _ Hinv) as Hprio.
  cbn [am_count am_priority am_owner am_wait] in *.
  unfold dos_mutex_post, dos_context_is_interrupt. kstep. rewrite Hip.
  rewrite (proj2 (Z.eqb_neq mutex DOS_NULL) Hm). cbn [Z.eqb negb orb]. kstep.
  set (t := dos_current_task (k_task k)) in *. set (k1 := assign_primask 1 k).
  run_by ltac:(apply deref_some; exact Hv).
  destruct ((mutex_count v =? 0) || negb (mutex_owner v =? t)) eqn:Hno.
  { exists (Return DOS_NOK), k, A. kstep. unfold k1. rewrite primask_id. split; [done|].
    assert (Hq : settled k A k A) by (by apply settled_quiet).
    split; unfold amutex_post, amutex_wakes; cbn [am_count am_priority am_owner am_wait]; fold t;
      rewrite ?Hno; auto; [by apply mutex_view_intro with xs | | by intros ? ?%elem_of_nil | apply frame_refl].
    intros Ho Hc. rewrite Ho, Hc, Z.eqb_refl in Hno. done. }
  pose proof Hno as [Hz%Z.eqb_neq Ho%negb_false_iff%Z.eqb_eq]%orb_false_iff.
  unfold upd_mutex. rewrite bind_assoc. run_by ltac:(apply deref_some; exact Hv). kstep.
  rewrite u16_small by lia.
  destruct (Z.eqb_spec (mutex_count v - 1) 0) as [Hone|Hmore]; cbn [negb]; last first.
  { set (k' := put_mutex mutex (set_mutex_count (mutex_count v - 1) v) k).
    exists (Return DOS_OK), k', A. kstep. split; [by destruct k as [? ? ? ? [] ? ? ? ? ? ? ? ? ? ?]|].
    assert (Hq : settled k A k' A) by (by apply settled_quiet).
    split; unfold amutex_post, amutex_wakes; cbn [am_count am_priority am_owner am_wait]; fold t;
      rewrite ?Hno, ?(proj2 (Z.eqb_neq _ _) Hmore); auto.
    - erewrite mutex_view_intro; [|apply lookup_insert_eq | exact HA]. simpl.
      by rewrite u16_small by lia.
    - simpl. lia.
    - by intros ? ?%elem_of_nil.
    - apply frame_mutex. left. }
  set (k2 := put_mutex mutex (set_mutex_count (mutex_count v - 1) v) k1).
  destruct (mutex_release_run k2 A mutex (primask (k_cpu k)) v xs c)
    as (r & k3 & A3 & Hrun & HR); try done.
  { simpl. rewrite lookup_insert_eq. by rewrite Hone. }
  change (waiters k2 A (MutexPendList mutex)) with (waiters k A (MutexPendList mutex)) in HR.
  destruct HR as [R1 R2 R3 R4 R5]. change (task_prio k2) with (task_prio k) in R2.
  assert (HF : frame [MutexPendList mutex] (take 1 (waiters k A (MutexPendList mutex)).*2) k A k3 A3).
  { eapply frame_trans; [|exact R4].
    replace (assign_primask (primask (k_cpu k)) k2) with
      (put_mutex mutex (set_mutex_count (mutex_count v - 1) v) k);
      [|by destruct k as [? ? ? ? [] ? ? ? ? ? ? ? ? ? ?]]. apply frame_mutex. left. }
  exists r, k3, A3. split; [done|].
  split; unfold amutex_post, amutex_wakes; cbn [am_count am_priority am_owner am_wait]; fold t;
    rewrite ?Hno, ?Hone; cbn [Z.eqb negb]; try done.
  - rewrite R2. by destruct (waiters k A (MutexPendList mutex)).
  - destruct (waiters k A (MutexPendList mutex)); destruct R5 as [-> _]; auto.
  - intros t' Ht'. destruct (waiters k A (MutexPendList mutex)) as [|w ws]; simpl in Ht';
      [by apply elem_of_nil in Ht'|]. rewrite take_0 in Ht'.
    apply list_elem_of_singleton in Ht' as ->. by destruct R5 as (_ & H1 & H2 & _).
  - destruct (waiters k A (MutexPendList mutex)) as [|w ws].
    + right. destruct R5 as (_ & -> & _). by destruct k as [? ? ? ? [] ? ? ? ? ? ? ? ? ? ?].
    + left. by apply R5.
  - intros E. destruct (waiters k A (MutexPendList mutex)) as [|w ws]; [|by apply R5].
    destruct R5 as (_ & Hc & Hq). destruct (Hq E) as (Q1 & Q2 & Q3 & Q4).
    apply settled_quiet; try done; [|apply HF]. rewrite Hc. by destruct k as [? ? ? ? [] ? ? ? ? ? ? ? ? ? ?].
Qed.

(** C9: [dos_mutex_post], run to its end, implements the abstract mutex: it fails
    unless the caller owns the mutex; a nested unlock only lowers the count; the
    last unlock gives the caller back the recorded priority and hands the mutex to
    the first waiter, which becomes ready and the owner with its own priority
    recorded, or frees it.  The kernel invariant is kept. *)
Theorem mutex_post_refines k A mutex a c :
  kinv k A -> mutex <> DOS_NULL -> mutex_view k A mutex = Some a -> amutex_inv k a ->
  k_tcbs k !! dos_current_task (k_task k) = Some c -> suspended c = false ->
  ipsr (k_cpu k) = 0 ->
  let t := dos_current_task (k_task k) in
  let post := amutex_post t (task_prio k) a in
  exists r k1 k' A', dos_mutex_post mutex k = Done (r, k1) /\
    call_result r k1 = Done (post.1, k') /\ kinv k' A' /\
    mutex_view k' A' mutex = Some post.2 /\
    (am_owner a = t -> am_count a = 1 -> exists c', k_tcbs k' !! t = Some c' /\
       priority c' = am_priority a) /\
    (am_owner a = t -> am_count a = 1 -> forall w ws, am_wait a = w :: ws ->
       exists c', k_tcbs k' !! w.2 = Some c' /\ ready c' = true /\ suspended c' = false).
Proof.
  intros HI Hm Hview Hinv HT Hs Hip. cbv zeta.
  destruct (mutex_post_run k A mutex a c HI Hm Hview Hinv HT Hs Hip) as (r & k' & A' & Hrun & HP).
  assert (Hp : assign_primask (primask (k_cpu k)) k' = k').
  { rewrite <- (fr_primask _ _ _ _ _ _ (mp_frame _ _ _ _ _ _ _ _ HP)).
    by destruct k' as [? ? ? ? [] ? ? ? ? ? ? ? ? ? ?]. }
  exists r, k', k', A'. split_and!; try apply HP; try done.
  - destruct (mp_return _ _ _ _ _ _ _ _ HP) as [->|[-> ->]]; [done|]. simpl. kstep. by rewrite Hp.
  - intros Ho Hc w ws Hw. apply (mp_wakes _ _ _ _ _ _ _ _ HP). unfold amutex_wakes.
    rewrite Ho, Hc, Hw, Z.eqb_refl. simpl. rewrite take_0. left.
Qed.

Lemma mutex_post_refines_witness :
  exists r k1 k' A', dos_mutex_post (o_mutex objs) demo_mutex_inherit = Done (r, k1) /\
    call_result r k1 = Done (DOS_OK, k') /\
    mutex_view k' A' (o_mutex objs) = Some (mk_amutex 1 3 task_a []) /\
    exists c', k_tcbs k' !! task_c = Some c' /\ priority c' = 7.
Proof.
  destruct (mutex_post_refines demo_mutex_inherit (lists_of demo_mutex_inherit) (o_mutex objs)
    (mk_amutex 1 7 task_c [(3, task_a)]) (cb demo_mutex_inherit task_c))
    as (r & k1 & k' & A' & Hrun & Hres & _ & Hv & Hpr & _).
  - by_check.
  - discriminate.
  - by_eval.
  - apply amutex_inv_held;
      [lia | lia | apply is_some_check; by_eval | discriminate].
  - by_eval.
  - by_eval.
  - by_eval.
  - assert (E : dos_current_task (k_task demo_mutex_inherit) = task_c) by by_eval.
    assert (E' : amutex_post task_c (task_prio demo_mutex_inherit) (mk_amutex 1 7 task_c [(3, task_a)])
                 = (DOS_OK, mk_amutex 1 3 task_a [])) by by_eval.
    cbv zeta in Hres, Hv. rewrite E, E' in Hres, Hv. rewrite E in Hpr.
    exists r, k1, k', A'. split; [exact Hrun|]. split; [exact Hres|]. split; [exact Hv|].
    exact (Hpr eq_refl eq_refl).
Defined.
