(* ===== verification/QueueSpec.v ===== *)
(** * Message queues are first-in first-out

    The message area of a queue is a ring of slots.  [queue_rep] relates it to
    the list of the messages in it; [_dos_queue_copy] appends to that list and
    takes from its front. *)

From S2P Require Import Prelude TaskList TaskListSpec Mem Priority Kernel Sched KernelInv.
From S2P Require Import SchedSpec Sem IpcSpec FrameSpec SemSpec Queue Task Tick KernelCheck Boot.

(** ** Bytes *)

Lemma bytes_put_length d off bs :
  (off + length bs <= length d)%nat -> length (bytes_put d off bs) = length d.
Proof. intros H. unfold bytes_put. rewrite !length_app, length_take, length_drop. lia. Qed.

Lemma bytes_at_put d off bs :
  (off + length bs <= length d)%nat -> bytes_at (bytes_put d off bs) off (length bs) = bs.
Proof.
  intros H. unfold bytes_at, bytes_put. rewrite drop_app_ge by (rewrite length_take; lia).
  rewrite length_take, Nat.min_l, Nat.sub_diag, drop_0 by lia.
  by rewrite take_app_length.
Qed.

(** Storing elsewhere does not matter. *)
Lemma bytes_at_put_ne d off bs off' n :
  (off + length bs <= length d)%nat -> (off' + n <= off \/ off + length bs <= off')%nat ->
  bytes_at (bytes_put d off bs) off' n = bytes_at d off' n.
Proof.
  intros H [Hb|Ha]; unfold bytes_at, bytes_put; apply list_eq; intros i;
    rewrite !lookup_take; case_decide; try done; rewrite !lookup_drop.
  - rewrite lookup_app_l by (rewrite length_take; lia). apply lookup_take_lt. lia.
  - rewrite lookup_app_r by (rewrite length_take; lia). rewrite length_take, Nat.min_l by lia.
    rewrite lookup_app_r by lia. rewrite lookup_drop. f_equal. lia.
Qed.

Lemma bytes_at_length d off n : (off + n <= length d)%nat -> length (bytes_at d off n) = n.
Proof. intros H. unfold bytes_at. rewrite length_take, length_drop. lia. Qed.

(** ** The ring of slots *)

(** The [i]-th slot from slot [r] in a ring of [n]. *)
Definition slot (n r i : nat) : nat := if (r + i <? n)%nat then (r + i)%nat else (r + i - n)%nat.

Lemma slot_lt n r i : (r < n)%nat -> (i <= n)%nat -> (slot n r i < n)%nat.
Proof. intros. unfold slot. destruct (Nat.ltb_spec (r + i) n); lia. Qed.

Lemma slot_inj n r i j :
  (r < n)%nat -> (i < n)%nat -> (j < n)%nat -> slot n r i = slot n r j -> i = j.
Proof.
  intros. unfold slot in *.
  destruct (Nat.ltb_spec (r + i) n), (Nat.ltb_spec (r + j) n); lia.
Qed.

Definition next_slot (n i : nat) : nat := if (S i =? n)%nat then O else S i.

Lemma slot_0 n r : (r < n)%nat -> slot n r 0 = r.
Proof. intros. unfold slot. destruct (Nat.ltb_spec (r + 0) n); lia. Qed.

Lemma slot_S n r i : (r < n)%nat -> (i < n)%nat -> slot n r (S i) = next_slot n (slot n r i).
Proof.
  intros. unfold slot, next_slot.
  destruct (Nat.ltb_spec (r + S i) n), (Nat.ltb_spec (r + i) n);
    case_match eqn:E; first [apply Nat.eqb_eq in E | apply Nat.eqb_neq in E]; lia.
Qed.

Lemma slot_next n r i : (r < n)%nat -> (i < n)%nat -> slot n (next_slot n r) i = slot n r (S i).
Proof.
  intros. unfold slot, next_slot.
  destruct (Nat.eqb_spec (S r) n), (Nat.ltb_spec (r + S i) n); simpl;
    repeat match goal with |- context [(?a <? ?b)%nat] => destruct (Nat.ltb_spec a b) end; lia.
Qed.

(** The queue [v] holds the messages [ms], the oldest in slot [r]; [n] slots
    of [z] bytes. *)
Record queue_rep (v : dos_queue) (n z r : nat) (ms : list (list Z)) : Prop := {
  qr_len : queue_len v = Z.of_nat n;
  qr_size : queue_size v = Z.of_nat z;
  qr_pos : (0 < z)%nat;
  qr_area : length (queue_data v) = (n * z)%nat;
  qr_tail : queue_tail_ptr v = queue_head_ptr v + Z.of_nat (n * z);
  qr_addr : 0 <= queue_head_ptr v /\ queue_tail_ptr v < 2 ^ 32;
  qr_r : (r < n)%nat;
  qr_count : (length ms <= n)%nat;
  qr_read : queue_read_ptr v = queue_head_ptr v + Z.of_nat (r * z);
  qr_write : queue_write_ptr v = queue_head_ptr v + Z.of_nat (slot n r (length ms) * z);
  qr_msgs : forall i m, ms !! i = Some m ->
    length m = z /\ bytes_at (queue_data v) (slot n r i * z) z = m
}.

(** A check of [queue_rep] on concrete contents. *)
Definition queue_check (v : dos_queue) (n z r : nat) (ms : list (list Z)) : bool :=
  (queue_len v =? Z.of_nat n) && (queue_size v =? Z.of_nat z) && (0 <? z)%nat &&
  (length (queue_data v) =? n * z)%nat &&
  (queue_tail_ptr v =? queue_head_ptr v + Z.of_nat (n * z)) &&
  (0 <=? queue_head_ptr v) && (queue_tail_ptr v <? 2 ^ 32) && (r <? n)%nat &&
  (length ms <=? n)%nat && (queue_read_ptr v =? queue_head_ptr v + Z.of_nat (r * z)) &&
  (queue_write_ptr v =? queue_head_ptr v + Z.of_nat (slot n r (length ms) * z)) &&
  forallb (fun im => (length im.2 =? z)%nat &&
                     bool_decide (bytes_at (queue_data v) (slot n r im.1 * z) z = im.2))
    (imap pair ms).

Lemma queue_check_sound v n z r ms : queue_check v n z r ms = true -> queue_rep v n z r ms.
Proof.
  unfold queue_check. rewrite !andb_true_iff, forallb_forall, !Z.eqb_eq, !Nat.ltb_lt, Nat.eqb_eq,
    Z.leb_le, Z.ltb_lt, Nat.leb_le.
  intros (((((((((((H1 & H2) & H3) & H4) & H5) & H6) & H7) & H8) & H9) & H10) & H11) & H12).
  split; try done. intros i m Hm.
  assert (Hin : In (i, m) (imap pair ms)).
  { apply list_elem_of_In, list_elem_of_lookup. exists i. by rewrite list_lookup_imap, Hm. }
  apply H12 in Hin. simpl in Hin. by rewrite andb_true_iff, Nat.eqb_eq, bool_decide_eq_true in Hin.
Qed.

(** Advancing a message pointer. *)
Lemma advance_ptr head n z i :
  (0 < z)%nat -> (i < n)%nat -> 0 <= head -> head + Z.of_nat (n * z) < 2 ^ 32 ->
  (let p := u32 (head + Z.of_nat (i * z) + Z.of_nat z) in
   if p =? head + Z.of_nat (n * z) then head else p) =
  head + Z.of_nat (next_slot n i * z).
Proof.
  intros Hz Hi Hh Hb. cbv zeta. unfold next_slot.
  assert (Hle : (S i * z <= n * z)%nat) by (apply Nat.mul_le_mono_r; lia).
  rewrite u32_small by lia.
  replace (head + Z.of_nat (i * z) + Z.of_nat z) with (head + Z.of_nat (S i * z)) by lia.
  destruct (Nat.eqb_spec (S i) n) as [<-|Hne].
  - rewrite (proj2 (Z.eqb_eq _ _)) by done. simpl. lia.
  - rewrite (proj2 (Z.eqb_neq _ _)); [done|]. intros E.
    assert (S i * z = n * z)%nat as E' by lia. apply Nat.mul_cancel_r in E'; lia.
Qed.

(** ** Copying *)

Lemma queue_at_run q k v : k_queues k !! q = Some v -> queue_at q k = Done (v, k).
Proof. intros H. by apply deref_some. Qed.

Lemma upd_queue_run q f k v :
  k_queues k !! q = Some v -> upd_queue q f k = Done (tt, put_queue q (f v) k).
Proof. intros H. unfold upd_queue. by run_with (queue_at_run _ _ _ H). Qed.

Lemma put_queue_twice q v v' k : put_queue q v' (put_queue q v k) = put_queue q v' k.
Proof. unfold put_queue, set_k_queues. simpl. by rewrite insert_insert_eq. Qed.

(** The pointer update at the end of a copy. *)
Lemma advance_run q k v op :
  k_queues k !! q = Some v ->
  let p := u32 (queue_rw_ptr op v + queue_size v) in
  (upd_queue q (set_rw_ptr op p);;
   if p =? queue_tail_ptr v then upd_queue q (set_rw_ptr op (queue_head_ptr v)) else mret tt) k =
  Done (tt, put_queue q
    (set_rw_ptr op (if p =? queue_tail_ptr v then queue_head_ptr v else p) v) k).
Proof.
  intros Hv p. run_by ltac:(apply upd_queue_run; exact Hv).
  destruct (p =? queue_tail_ptr v); [|done].
  rewrite (upd_queue_run _ _ _ (set_rw_ptr op p v)) by apply lookup_insert_eq.
  rewrite put_queue_twice. do 3 f_equal. unfold set_rw_ptr. simpl. by destruct (op =? QUEUE_READ).
Qed.

(** A write puts the message behind the others. *)
Lemma queue_copy_write k q v n z r ms buff size :
  k_queues k !! q = Some v -> queue_rep v n z r ms -> (length ms < n)%nat ->
  0 < size <= queue_size v -> size <= Z.of_nat (length buff) ->
  exists v' m, _dos_queue_copy q buff size QUEUE_WRITE k = Done (buff, put_queue q v' k) /\
    queue_rep v' n z r (ms ++ [m]) /\ take (Z.to_nat size) m = take (Z.to_nat size) buff /\
    queue_read_count v' = queue_read_count v /\ queue_write_count v' = queue_write_count v.
Proof.
  intros Hv [Q1 Q2 Q3 Q4 Q5 Q6 Q7 Q8 Q9 Q10 Q11] Hroom Hsize Hbuff.
  set (w := slot n r (length ms)) in *. set (sz := Z.to_nat size).
  assert (Hw : (w < n)%nat) by (apply slot_lt; lia).
  assert (Hwz : (w * z + z <= n * z)%nat).
  { assert (S w * z <= n * z)%nat by (apply Nat.mul_le_mono_r; lia). lia. }
  assert (Hsz : (sz <= z)%nat) by (unfold sz; lia).
  set (d := bytes_put (queue_data v) (w * z) (take sz buff)).
  assert (Hlt : length (take sz buff) = sz) by (rewrite length_take; lia).
  set (v1 := set_queue_data d v).
  set (v' := set_rw_ptr QUEUE_WRITE (queue_head_ptr v + Z.of_nat (next_slot n w * z)) v1).
  set (m := bytes_at d (w * z) z). exists v', m. split_and!; [| | |done|done].
  - unfold _dos_queue_copy. kstep. run_by ltac:(apply queue_at_run; exact Hv).
    change (queue_rw_ptr QUEUE_WRITE v) with (queue_write_ptr v).
    replace (Z.to_nat (queue_write_ptr v - queue_head_ptr v)) with (w * z)%nat by lia.
    change (QUEUE_WRITE =? QUEUE_READ) with false. cbv iota. fold sz.
    rewrite decide_True by lia. rewrite bind_assoc. kstep.
    run_by ltac:(apply queue_at_run; apply lookup_insert_eq).
    fold d. fold v1.
    erewrite bind_bind_run; [|apply advance_run; apply lookup_insert_eq].
    rewrite put_queue_twice. kstep. unfold v'.
    pose proof (advance_ptr (queue_head_ptr v) n z w Q3 Hw) as Hadv. cbv zeta in Hadv.
    rewrite <- Hadv by lia. change (queue_rw_ptr QUEUE_WRITE v1) with (queue_write_ptr v).
    change (queue_size v1) with (queue_size v). change (queue_tail_ptr v1) with (queue_tail_ptr v).
    change (queue_head_ptr v1) with (queue_head_ptr v).
    rewrite Q10, Q2, Q5. by destruct k as [? ? ? ? [] ? ? ? ? ? ? ? ? ? ?].
  - split; simpl; try done.
    + unfold d. rewrite bytes_put_length; lia.
    + rewrite length_app. simpl. lia.
    + rewrite length_app. simpl. rewrite Nat.add_1_r, slot_S by lia. done.
    + intros i m'. rewrite lookup_app_Some. intros [Hi|[Hi Hm]].
      * destruct (Q11 _ _ Hi) as [L1 L2]. split; [done|]. rewrite <- L2.
        apply lookup_lt_Some in Hi. unfold d. apply bytes_at_put_ne; [lia|].
        assert (Hne : slot n r i <> w) by (intros E; apply slot_inj in E; lia).
        rewrite Hlt. destruct (Nat.lt_ge_cases (slot n r i) w) as [Hlt'|Hge].
        -- left. assert (S (slot n r i) * z <= w * z)%nat by (apply Nat.mul_le_mono_r; lia). lia.
        -- right. assert (S w * z <= slot n r i * z)%nat by (apply Nat.mul_le_mono_r; lia). lia.
      * apply list_lookup_singleton_Some in Hm as [Hi' <-].
        replace i with (length ms) by lia. split; [|done].
        apply bytes_at_length. unfold d. rewrite bytes_put_length; lia.
  - unfold m, bytes_at. rewrite take_take, Nat.min_l by lia.
    pose proof (bytes_at_put (queue_data v) (w * z) (take sz buff)) as Hput.
    rewrite Hlt in Hput. apply Hput. lia.
Qed.

(** A read takes the oldest message. *)
Lemma queue_copy_read k q v n z r m ms buff size :
  k_queues k !! q = Some v -> queue_rep v n z r (m :: ms) ->
  0 < size <= queue_size v -> size <= Z.of_nat (length buff) ->
  exists v', _dos_queue_copy q buff size QUEUE_READ k =
      Done (take (Z.to_nat size) m ++ drop (Z.to_nat size) buff, put_queue q v' k) /\
    queue_rep v' n z (next_slot n r) ms /\
    queue_read_count v' = queue_read_count v /\ queue_write_count v' = queue_write_count v.
Proof.
  intros Hv [Q1 Q2 Q3 Q4 Q5 Q6 Q7 Q8 Q9 Q10 Q11] Hsize Hbuff. simpl in Q8, Q10.
  set (sz := Z.to_nat size). assert (Hsz : (sz <= z)%nat) by (unfold sz; lia).
  assert (Hrz : (r * z + z <= n * z)%nat).
  { assert (S r * z <= n * z)%nat by (apply Nat.mul_le_mono_r; lia). lia. }
  destruct (Q11 O m eq_refl) as [Hm1 Hm2]. rewrite slot_0 in Hm2 by done.
  set (v' := set_rw_ptr QUEUE_READ (queue_head_ptr v + Z.of_nat (next_slot n r * z)) v).
  assert (Hbytes : bytes_at (queue_data v) (r * z) sz = take sz m).
  { rewrite <- Hm2. unfold bytes_at. by rewrite take_take, Nat.min_l by lia. }
  exists v'. split_and!; [| |done|done].
  - unfold _dos_queue_copy. kstep. run_by ltac:(apply queue_at_run; exact Hv).
    change (queue_rw_ptr QUEUE_READ v) with (queue_read_ptr v).
    replace (Z.to_nat (queue_read_ptr v - queue_head_ptr v)) with (r * z)%nat by lia.
    change (QUEUE_READ =? QUEUE_READ) with true. cbv iota. fold sz.
    rewrite decide_True by (unfold sz in *; lia). kstep.
    run_by ltac:(apply queue_at_run; exact Hv).
    erewrite bind_bind_run; [|apply advance_run; exact Hv]. kstep.
    change (queue_rw_ptr QUEUE_READ v) with (queue_read_ptr v).
    pose proof (advance_ptr (queue_head_ptr v) n z r Q3 Q7) as Hadv. cbv zeta in Hadv.
    unfold v'. rewrite <- Hadv by lia. rewrite Q9, Q2, Q5, Hbytes.
    unfold bytes_put. simpl take. rewrite length_take, Nat.min_l by lia. simpl app.
    by destruct k as [? ? ? ? [] ? ? ? ? ? ? ? ? ? ?].
  - assert (Hn : (0 < n)%nat) by lia. split; simpl; try done.
    + unfold next_slot. destruct (Nat.eqb_spec (S r) n); lia.
    + lia.
    + rewrite slot_next by lia. done.
    + intros i m' Hi. rewrite slot_next; [|lia|apply lookup_lt_Some in Hi; lia].
      by apply (Q11 (S i)).
Qed.

(** ** The operations *)

(** The abstract queue: the messages, how many of them are promised to tasks
    that were woken to read, and how many free slots to tasks woken to write. *)
Record aqueue : Type := mk_aqueue {
  aq_msgs : list (list Z);
  aq_readers : nat;
  aq_writers : nat
}.

Definition queue_view (k : kernel) (q : Z) (n z : nat) (a : aqueue) : Prop :=
  exists v r, k_queues k !! q = Some v /\ queue_rep v n z r (aq_msgs a) /\
    queue_read_count v + Z.of_nat (aq_readers a) = Z.of_nat (length (aq_msgs a)) /\
    queue_write_count v + Z.of_nat (aq_writers a) = Z.of_nat (n - length (aq_msgs a)) /\
    0 <= queue_read_count v /\ 0 <= queue_write_count v /\ Z.of_nat n < 2 ^ 16.

Definition view_check (k : kernel) (q : Z) (n z r : nat) (a : aqueue) : bool :=
  match k_queues k !! q with
  | None => false
  | Some v =>
      queue_check v n z r (aq_msgs a) &&
      (queue_read_count v + Z.of_nat (aq_readers a) =? Z.of_nat (length (aq_msgs a))) &&
      (queue_write_count v + Z.of_nat (aq_writers a) =? Z.of_nat (n - length (aq_msgs a))) &&
      (0 <=? queue_read_count v) && (0 <=? queue_write_count v) && (Z.of_nat n <? 2 ^ 16)
  end.

Lemma view_check_sound k q n z r a : view_check k q n z r a = true -> queue_view k q n z a.
Proof.
  unfold view_check. destruct (k_queues k !! q) as [v|] eqn:E; [|done].
  rewrite !andb_true_iff, !Z.eqb_eq, !Z.leb_le, Z.ltb_lt.
  intros (((((H1 & H2) & H3) & H4) & H5) & H6). exists v, r. eauto 10 using queue_check_sound.
Qed.

(** A transfer that finds no task waiting for the opposite operation. *)
Lemma queue_transfer_run k A lo q op buff buff' size k1 v1 :
  tinv_at k A lo -> _dos_queue_copy q buff size op k = Done (buff', k1) ->
  k_store k1 = k_store k -> k_queues k1 !! q = Some v1 ->
  A !! QueuePendList q (1 - op) = Some [] ->
  queue_transfer q buff size op k =
    Done ((DOS_OK, buff'),
      put_queue q (set_rw_count (1 - op) (queue_rw_count (1 - op) v1 + 1) v1) k1).
Proof.
  intros HI Hcopy Hs Hv HA. unfold queue_transfer. run_with Hcopy.
  erewrite bind_done; [|apply on_store_run; rewrite Hs;
    exact (list_is_empty_run _ _ _ _ (ti_store _ _ _ _ _ HI) HA)]. cbv beta.
  rewrite bool_decide_true by done. cbn [negb].
  assert (set_k_store (k_store k) k1 = k1) as -> by (rewrite <- Hs; by destruct k1).
  unfold queue_count_up. erewrite bind_done; [done|].
  run_by ltac:(apply queue_at_run; exact Hv). apply upd_queue_run. exact Hv.
Qed.

(** The task a transfer wakes: the first of those waiting for the opposite
    operation. *)
Definition woken_of (xs : list item_ptr) : list Z := take 1 (item_task <$> xs).

(** The lists of a queue. *)
Definition queue_lists (q : Z) : list list_ptr :=
  [QueuePendList q QUEUE_READ; QueuePendList q QUEUE_WRITE].

(** What a transfer does beside moving the message: [xs] are the tasks waiting
    for the operation [op] it enables. *)
Record transferred (q op : Z) (xs : list item_ptr) (lo : Z) (k : kernel)
    (A : gmap list_ptr (list item_ptr)) (k' : kernel) (A' : gmap list_ptr (list item_ptr)) :
    Prop := {
  tr_tinv : tinv_at k' A' lo;
  tr_times : same_times (k_task k) (k_task k');
  tr_data : same_data (k_store k) (k_store k');
  tr_list : A' !! QueuePendList q op = Some (tail xs);
  tr_woken : forall t, t ∈ woken_of xs ->
    loc (k_store k) (PendItem t) = Some (QueuePendList q op) /\
    exists c, k_tcbs k' !! t = Some c /\ ready c = true /\ suspended c = false;
  tr_other : forall t c, t ∉ woken_of xs -> k_tcbs k !! t = Some c ->
    exists n, k_tcbs k' !! t = Some (set_task_tick n c);
  tr_loc : forall p, item_task p ∉ woken_of xs -> loc (k_store k') p = loc (k_store k) p;
  tr_frame : frame (queue_lists q) (woken_of xs) k A k' A';
  tr_settled : lo = dos_tick_count (k_task k) -> settled k A k' A'
}.

Lemma transferred_kinv q op xs k A k' A' :
  transferred q op xs (dos_tick_count (k_task k)) k A k' A' -> kinv k' A'.
Proof.
  intros HT. unfold kinv. rewrite (st_tick _ _ (tr_times _ _ _ _ _ _ _ _ HT)). apply HT.
Qed.

(** Only the control block of the queue differs. *)
Lemma transferred_put q op v lo k A :
  tinv_at k A lo -> A !! QueuePendList q op = Some [] ->
  transferred q op [] lo k A (put_queue q v k) A.
Proof.
  intros HI HA. split; try done.
  - by intros t ?%elem_of_nil.
  - intros t c _ HT. exists (task_tick c). by rewrite set_task_tick_id.
  - apply frame_queue. left.
  - intros _. by apply settled_quiet.
Qed.

Lemma transferred_from q op xs v lo k A k' A' :
  transferred q op xs lo (put_queue q v k) A k' A' -> transferred q op xs lo k A k' A'.
Proof.
  intros [T1 T2 T3 T4 T5 T6 T7 T8 T9]. split; try done.
  - eapply frame_trans; [|exact T8]. apply frame_queue. left.
  - intros Hlo. destruct (T9 Hlo) as [-> | k1]; [by apply settled_quiet | by eapply settled_sched].
Qed.

(** A transfer that wakes the first task waiting for the opposite operation. *)
Lemma queue_transfer_wake k A lo q op buff buff' size v1 x xs :
  tinv_at k A lo -> _dos_queue_copy q buff size op k = Done (buff', put_queue q v1 k) ->
  op = QUEUE_READ \/ op = QUEUE_WRITE -> A !! QueuePendList q (1 - op) = Some (x :: xs) ->
  exists k' A', queue_transfer q buff size op k = Done ((DOS_OK, buff'), k') /\
    k_queues k' = <[q := v1]> (k_queues k) /\ transferred q (1 - op) (x :: xs) lo k A k' A'.
Proof.
  intros HI Hcopy Hop HA. unfold queue_transfer. run_with Hcopy. set (k1 := put_queue q v1 k).
  run_by ltac:(apply (on_store_run _ k1);
    exact (list_is_empty_run _ _ _ _ (ti_store _ _ _ _ _ HI) HA)).
  assert (set_k_store (k_store k) k1 = k1) as -> by (by destruct k).
  rewrite bool_decide_false by done. cbn [negb].
  destruct (wake_first_run (assign_primask 1 k1) A lo (QueuePendList q (1 - op)) x xs
    (primask (k_cpu k1)) HI eq_refl HA)
    as (t & c & s2 & k3 & k5 & A5 & -> & HT & _ & Hrun2 & Hrun3 & Hrun5 & HW).
  rewrite primask_id in HW. exists k5, A5. split_and!.
  - unfold queue_wake_waiter. erewrite bind_done; [done|]. kstep.
    run_with Hrun2. run_with Hrun3. kstep. exact Hrun5.
  - by rewrite (so_queues _ _ (wo_objs _ _ _ _ _ _ _ _ _ HW)).
  - apply (transferred_from _ _ _ v1). fold k1.
    assert (Hn : forall t' : Z, t' ∉ woken_of (PendItem t :: xs) -> t' <> t).
    { intros t' Hn ->. apply Hn. left. }
    split; try apply HW.
    + intros t' Ht'. unfold woken_of in Ht'. simpl in Ht'. rewrite take_0 in Ht'.
      apply list_elem_of_singleton in Ht' as ->. split.
      * by destruct (store_rep_in _ _ (PendItem t) _ _ (ti_store _ _ _ _ _ HI) HA) as [_ H2]; [left|].
      * destruct (woke_flags _ _ _ _ _ _ _ _ _ HW) as (c' & H1 & H2 & H3 & _). eauto.
    + intros t' c' Ht'. apply (wo_others _ _ _ _ _ _ _ _ _ HW). by apply Hn.
    + intros p Hp. apply (wo_loc _ _ _ _ _ _ _ _ _ HW); intros ->; by apply Hn in Hp.
    + eapply frame_weaken; [apply HW | | done]. intros l ->%list_elem_of_singleton.
      unfold queue_lists. destruct Hop as [-> | ->]; [right; left | left].
    + intros Hlo. by apply (wo_settled _ _ _ _ _ _ _ _ _ HW).
Qed.

(** The handler when the operation can proceed at once. *)
Lemma queue_handler_fast k q v bs size op timeout :
  k_queues k !! q = Some v -> q <> DOS_NULL -> size <> 0 -> op = QUEUE_READ \/ op = QUEUE_WRITE ->
  queue_rw_count op v <> 0 ->
  _dos_queue_handler q (Some bs) size op timeout k =
  (r ← queue_transfer q bs (Z.min size (queue_size v)) op; mret (Return r))
    (put_queue q (set_rw_count op (queue_rw_count op v - 1) v) k).
Proof.
  intros Hv Hq Hs Hop Hc. unfold _dos_queue_handler. kstep.
  rewrite (proj2 (Z.eqb_neq _ _) Hq), (proj2 (Z.eqb_neq _ _) Hs).
  assert ((op >? QUEUE_WRITE) = false) as -> by (by destruct Hop as [-> | ->]). cbn [orb].
  run_by ltac:(apply queue_at_run; exact Hv). rewrite (proj2 (Z.eqb_neq _ _) Hc).
  run_by ltac:(apply upd_queue_run; exact Hv). kstep.
  by destruct k as [? ? ? ? [] ? ? ? ? ? ? ? ? ? ?].
Qed.

(** Counting: the handler takes one unit of [op] before the copy. *)
Lemma queue_rep_counts v n z r ms op c :
  queue_rep v n z r ms -> queue_rep (set_rw_count op c v) n z r ms.
Proof. by intros []. Qed.

Definition one_if (b : bool) : nat := if b then 1%nat else 0%nat.

(** The end of a write: the message is behind the others, and can be read or
    is promised to a task that waits to read. *)
Lemma queue_write_transfer k A lo q n z v r ms buff size xs :
  tinv_at k A lo -> k_queues k !! q = Some v -> queue_rep v n z r ms -> (length ms < n)%nat ->
  0 < size <= Z.of_nat z -> size <= Z.of_nat (length buff) ->
  0 <= queue_read_count v < 2 ^ 16 - 1 -> A !! QueuePendList q QUEUE_READ = Some xs ->
  exists k' A' v' m, queue_transfer q buff size QUEUE_WRITE k = Done ((DOS_OK, buff), k') /\
    k_queues k' !! q = Some v' /\ queue_rep v' n z r (ms ++ [m]) /\
    take (Z.to_nat size) m = take (Z.to_nat size) buff /\
    queue_write_count v' = queue_write_count v /\
    queue_read_count v' = queue_read_count v + Z.of_nat (one_if (bool_decide (xs = []))) /\
    transferred q QUEUE_READ xs lo k A k' A'.
Proof.
  intros HI Hv Hrep Hroom Hs Hbuff Hrc HA. pose proof (qr_size _ _ _ _ _ Hrep) as Hz.
  destruct (queue_copy_write k q v n z r ms buff size Hv Hrep)
    as (v1 & m & Hcopy & Hrep1 & Hm & Hrc1 & Hwc1); [lia | lia | done |].
  destruct xs as [|x xs].
  - set (v2 := set_rw_count (1 - QUEUE_WRITE) (queue_rw_count (1 - QUEUE_WRITE) v1 + 1) v1).
    exists (put_queue q v2 k), A, v2, m. split_and!; try done.
    + rewrite (queue_transfer_run k A _ q QUEUE_WRITE buff buff _ _ v1 HI Hcopy);
        [by rewrite put_queue_twice | done | apply lookup_insert_eq | done].
    + apply lookup_insert_eq.
    + by apply queue_rep_counts.
    + rewrite bool_decide_true by done. cbn [one_if].
      change (queue_read_count v2) with (u16 (queue_read_count v1 + 1)). rewrite Hrc1.
      rewrite u16_small by lia. lia.
    + by apply transferred_put.
  - destruct (queue_transfer_wake k A lo q QUEUE_WRITE buff buff _ _ x xs HI Hcopy)
      as (k' & A' & Hrun & Hqs & Htr); [by right | done |].
    exists k', A', v1, m. split_and!; try done.
    + rewrite Hqs. apply lookup_insert_eq.
    + rewrite bool_decide_false by done. cbn [one_if]. lia.
Qed.

(** Writing to a queue with a free slot appends the message; if a task waits
    to read, it is woken and the message is promised to it. *)
Lemma queue_write_fifo_lo k A lo q n z a buff size timeout xs :
  tinv_at k A lo -> q <> DOS_NULL -> queue_view k q n z a ->
  (length (aq_msgs a) + aq_writers a < n)%nat ->
  0 < size -> Z.min size (Z.of_nat z) <= Z.of_nat (length buff) ->
  A !! QueuePendList q QUEUE_READ = Some xs ->
  exists k' A' m, dos_queue_write q (Some buff) size timeout k =
      Done (Return (DOS_OK, buff), k') /\
    take (Z.to_nat (Z.min size (Z.of_nat z))) m = take (Z.to_nat (Z.min size (Z.of_nat z))) buff /\
    queue_view k' q n z (mk_aqueue (aq_msgs a ++ [m])
      (aq_readers a + one_if (negb (bool_decide (xs = [])))) (aq_writers a)) /\
    transferred q QUEUE_READ xs lo k A k' A'.
Proof.
  intros HI Hq (v & r & Hv & Hrep & Hrc & Hwc & Hr0 & Hw0 & Hn) Hroom Hs Hbuff HA.
  pose proof (qr_size _ _ _ _ _ Hrep) as Hz. pose proof (qr_pos _ _ _ _ _ Hrep) as Hzp.
  unfold dos_queue_write. rewrite (queue_handler_fast k q v); [|done|done|lia|by right|].
  2:{ change (queue_rw_count QUEUE_WRITE v) with (queue_write_count v). lia. }
  set (v0 := set_rw_count QUEUE_WRITE (queue_rw_count QUEUE_WRITE v - 1) v).
  set (k0 := put_queue q v0 k). rewrite Hz.
  assert (Hwc0 : queue_write_count v0 = queue_write_count v - 1).
  { unfold v0. simpl. apply u16_small. change (queue_rw_count QUEUE_WRITE v) with
      (queue_write_count v). lia. }
  destruct (queue_write_transfer k0 A lo q n z v0 r (aq_msgs a) buff (Z.min size (Z.of_nat z)) xs)
    as (k' & A' & v' & m & Hrun & Hv' & Hrep' & Hm & Hwc' & Hrc' & Htr);
    [done | apply lookup_insert_eq | by apply queue_rep_counts | lia | lia | done | | done |].
  { change (queue_read_count v0) with (queue_read_count v). lia. }
  change (queue_read_count v0) with (queue_read_count v) in Hrc'.
  exists k', A', m. split_and!; try done; [by rewrite (bind_done _ _ _ _ _ Hrun) | |
    by apply (transferred_from _ _ _ v0)].
  exists v', r. cbn [aq_msgs aq_readers aq_writers]. rewrite length_app. simpl length.
  split_and!; try done; case_bool_decide; cbn [negb one_if] in *; lia.
Qed.

(** C16: [dos_queue_write] into a queue with room appends one message whose first
    bytes are the caller's: the ring buffer represents the old messages followed by
    the new one, the first waiting reader, if any, leaves the pend list, becomes
    ready and has the message reserved, otherwise the read count grows.  The kernel
    invariant is kept. *)
Theorem queue_write_fifo k A q n z a buff size timeout xs :
  kinv k A -> q <> DOS_NULL -> queue_view k q n z a ->
  (length (aq_msgs a) + aq_writers a < n)%nat ->
  0 < size -> Z.min size (Z.of_nat z) <= Z.of_nat (length buff) ->
  A !! QueuePendList q QUEUE_READ = Some xs ->
  let sz := Z.to_nat (Z.min size (Z.of_nat z)) in
  exists k' A' m, dos_queue_write q (Some buff) size timeout k =
      Done (Return (DOS_OK, buff), k') /\ kinv k' A' /\ take sz m = take sz buff /\
    queue_view k' q n z (mk_aqueue (aq_msgs a ++ [m])
      (aq_readers a + one_if (negb (bool_decide (xs = [])))) (aq_writers a)) /\
    (forall t xs', xs = PendItem t :: xs' -> A' !! QueuePendList q QUEUE_READ = Some xs' /\
       exists c, k_tcbs k' !! t = Some c /\ ready c = true /\ suspended c = false).
Proof.
  intros HI Hq Hview Hroom Hs Hbuff HA sz.
  destruct (queue_write_fifo_lo k A _ q n z a buff size timeout xs HI Hq Hview Hroom Hs Hbuff HA)
    as (k' & A' & m & Hrun & Hm & Hv' & Htr).
  exists k', A', m. split_and!; try done; [by eapply transferred_kinv|]. intros t xs' ->.
  split; [apply Htr | by apply Htr; left].
Qed.

Lemma queue_write_fifo_witness :
  exists k' m, dos_queue_write (o_queue objs) (Some [7; 8; 9]) 3 0 demo_queue =
      Done (Return (DOS_OK, [7; 8; 9]), k') /\ take 3 m = [7; 8; 9] /\
    queue_view k' (o_queue objs) 3 4 (mk_aqueue ([[1; 2; 3; 4]] ++ [m]) 0 0).
Proof.
  destruct (queue_write_fifo demo_queue (lists_of demo_queue) (o_queue objs) 3 4
    (mk_aqueue [[1; 2; 3; 4]] 0 0) [7; 8; 9] 3 0 []) as (k' & A' & m & Hrun & _ & Hm & Hv & _).
  - by_check.
  - discriminate.
  - apply (view_check_sound _ _ _ _ 0). by_eval.
  - simpl. lia.
  - lia.
  - simpl. lia.
  - by_eval.
  - exists k', m. split; [exact Hrun|]. split; [exact Hm | exact Hv].
Defined.

(** The end of a read: the oldest message is in the buffer and a slot is free
    again, or promised to a task that waits to write. *)
Lemma queue_read_transfer k A q n z v r m ms buff size xs :
  kinv k A -> k_queues k !! q = Some v -> queue_rep v n z r (m :: ms) ->
  0 < size <= Z.of_nat z -> size <= Z.of_nat (length buff) ->
  0 <= queue_write_count v < 2 ^ 16 - 1 ->
  A !! QueuePendList q QUEUE_WRITE = Some xs ->
  exists k' A' v', queue_transfer q buff size QUEUE_READ k =
      Done ((DOS_OK, take (Z.to_nat size) m ++ drop (Z.to_nat size) buff), k') /\ kinv k' A' /\
    k_queues k' !! q = Some v' /\ queue_rep v' n z (next_slot n r) ms /\
    queue_read_count v' = queue_read_count v /\
    queue_write_count v' = queue_write_count v + Z.of_nat (one_if (bool_decide (xs = []))) /\
    transferred q QUEUE_WRITE xs (dos_tick_count (k_task k)) k A k' A'.
Proof.
  intros HI Hv Hrep Hs Hbuff Hwc HA. pose proof (qr_size _ _ _ _ _ Hrep) as Hz.
  destruct (queue_copy_read k q v n z r m ms buff size Hv Hrep) as (v1 & Hcopy & Hrep1 & Hrc1 & Hwc1);
    [lia | done |].
  set (b := take _ m ++ _) in *. destruct xs as [|x xs].
  - set (v2 := set_rw_count (1 - QUEUE_READ) (queue_rw_count (1 - QUEUE_READ) v1 + 1) v1).
    exists (put_queue q v2 k), A, v2. split_and!; try done.
    + rewrite (queue_transfer_run k A _ q QUEUE_READ buff b _ _ v1 HI Hcopy);
        [by rewrite put_queue_twice | done | apply lookup_insert_eq | done].
    + apply lookup_insert_eq.
    + by apply queue_rep_counts.
    + rewrite bool_decide_true by done. cbn [one_if].
      change (queue_write_count v2) with (u16 (queue_write_count v1 + 1)). rewrite Hwc1.
      rewrite u16_small by lia. lia.
    + by apply transferred_put.
  - destruct (queue_transfer_wake k A _ q QUEUE_READ buff b _ _ x xs HI Hcopy)
      as (k' & A' & Hrun & Hqs & Htr); [by left | done |].
    exists k', A', v1. split_and!; try done.
    + by eapply transferred_kinv.
    + rewrite Hqs. apply lookup_insert_eq.
    + rewrite bool_decide_false by done. cbn [one_if]. lia.
Qed.

Lemma queue_read_run k A q n z m ms nr nw buff size timeout xs :
  kinv k A -> q <> DOS_NULL -> queue_view k q n z (mk_aqueue (m :: ms) nr nw) ->
  (nr <= length ms)%nat ->
  0 < size -> Z.min size (Z.of_nat z) <= Z.of_nat (length buff) ->
  A !! QueuePendList q QUEUE_WRITE = Some xs ->
  let sz := Z.to_nat (Z.min size (Z.of_nat z)) in
  exists k' A', dos_queue_read q (Some buff) size timeout k =
      Done (Return (DOS_OK, take sz m ++ drop sz buff), k') /\ kinv k' A' /\
    queue_view k' q n z (mk_aqueue ms nr (nw + one_if (negb (bool_decide (xs = []))))) /\
    transferred q QUEUE_WRITE xs (dos_tick_count (k_task k)) k A k' A'.
Proof.
  intros HI Hq (v & r & Hv & Hrep & Hrc & Hwc & Hr0 & Hw0 & Hn) Hnr Hs Hbuff HA sz.
  cbn [aq_msgs aq_readers aq_writers] in *. simpl length in *.
  pose proof (qr_size _ _ _ _ _ Hrep) as Hz. pose proof (qr_pos _ _ _ _ _ Hrep) as Hzp.
  pose proof (qr_count _ _ _ _ _ Hrep) as Hcnt. simpl in Hcnt.
  unfold dos_queue_read. rewrite (queue_handler_fast k q v); [|done|done|lia|by left|].
  2:{ change (queue_rw_count QUEUE_READ v) with (queue_read_count v). lia. }
  set (v0 := set_rw_count QUEUE_READ (queue_rw_count QUEUE_READ v - 1) v).
  set (k0 := put_queue q v0 k). rewrite Hz.
  assert (Hrc0 : queue_read_count v0 = queue_read_count v - 1).
  { unfold v0. simpl. apply u16_small. change (queue_rw_count QUEUE_READ v) with
      (queue_read_count v). lia. }
  destruct (queue_read_transfer k0 A q n z v0 r m ms buff (Z.min size (Z.of_nat z)) xs)
    as (k' & A' & v' & Hrun & HI' & Hv' & Hrep' & Hrc' & Hwc' & Htr); try done; try lia.
  { apply lookup_insert_eq. } { by apply queue_rep_counts. }
  { change (queue_write_count v0) with (queue_write_count v). lia. }
  exists k', A'. split; [by rewrite (bind_done _ _ _ _ _ Hrun)|]. split; [done|].
  split; [|by apply (transferred_from _ _ _ v0)].
  exists v', (next_slot n r). cbn [aq_msgs aq_readers aq_writers].
  change (queue_write_count v0) with (queue_write_count v) in Hwc'.
  split_and!; try done; try lia; case_bool_decide; cbn [negb one_if] in *; lia.
Qed.

(** C17: [dos_queue_read] from a queue with an unreserved message delivers the
    oldest message, cut to the size asked for, in front of the untouched rest of
    the caller's buffer; the ring buffer represents the remaining messages, and a
    waiting writer gets the freed slot reserved or the write count grows. *)
Theorem queue_read_fifo k A q n z m ms nr nw buff size timeout xs :
  kinv k A -> q <> DOS_NULL -> queue_view k q n z (mk_aqueue (m :: ms) nr nw) ->
  (nr <= length ms)%nat ->
  0 < size -> Z.min size (Z.of_nat z) <= Z.of_nat (length buff) ->
  A !! QueuePendList q QUEUE_WRITE = Some xs ->
  let sz := Z.to_nat (Z.min size (Z.of_nat z)) in
  exists k' A', dos_queue_read q (Some buff) size timeout k =
      Done (Return (DOS_OK, take sz m ++ drop sz buff), k') /\ kinv k' A' /\
    queue_view k' q n z (mk_aqueue ms nr (nw + one_if (negb (bool_decide (xs = []))))).
Proof.
  intros HI Hq Hv Hnr Hs Hbuff HA sz.
  destruct (queue_read_run k A q n z m ms nr nw buff size timeout xs)
    as (k' & A' & Hrun & HI' & Hv' & _); eauto.
Qed.

Lemma queue_read_fifo_witness :
  exists k', dos_queue_read (o_queue objs) (Some [0; 0; 0; 0; 5]) 9 0 demo_queue =
      Done (Return (DOS_OK, [1; 2; 3; 4; 5]), k') /\
    queue_view k' (o_queue objs) 3 4 (mk_aqueue [] 0 0).
Proof.
  destruct (queue_read_fifo demo_queue (lists_of demo_queue) (o_queue objs) 3 4
    [1; 2; 3; 4] [] 0 0 [0; 0; 0; 0; 5] 9 0 []) as (k' & A' & Hrun & _ & Hv).
  - by_check.
  - discriminate.
  - apply (view_check_sound _ _ _ _ 0). by_eval.
  - simpl. lia.
  - lia.
  - simpl. lia.
  - by_eval.
  - exists k'. split; [exact Hrun | exact Hv].
Defined.

Lemma queue_resume_read_run k A q n z m ms nr nw buff size xs c :
  kinv k A -> k_tcbs k !! dos_current_task (k_task k) = Some c -> timed_out c = false ->
  queue_view k q n z (mk_aqueue (m :: ms) (S nr) nw) ->
  0 < size <= Z.of_nat z -> size <= Z.of_nat (length buff) ->
  A !! QueuePendList q QUEUE_WRITE = Some xs ->
  let sz := Z.to_nat size in
  exists k' A', queue_resume q buff size QUEUE_READ k =
      Done ((DOS_OK, take sz m ++ drop sz buff), k') /\ kinv k' A' /\
    queue_view k' q n z (mk_aqueue ms nr (nw + one_if (negb (bool_decide (xs = []))))) /\
    transferred q QUEUE_WRITE xs (dos_tick_count (k_task k)) k A k' A'.
Proof.
  intros HI HT Hto (v & r & Hv & Hrep & Hrc & Hwc & Hr0 & Hw0 & Hn) Hs Hbuff HA sz.
  cbn [aq_msgs aq_readers aq_writers] in *. simpl length in *.
  pose proof (qr_count _ _ _ _ _ Hrep) as Hcnt. simpl in Hcnt.
  destruct (queue_read_transfer k A q n z v r m ms buff size xs)
    as (k' & A' & v' & Hrun & HI' & Hv' & Hrep' & Hrc' & Hwc' & Htr); try done; try lia.
  exists k', A'. split; [|split; [done|split; [|done]]].
  - unfold queue_resume. kstep. run_by ltac:(apply task_at_run; exact HT). fold (timed_out c).
    by rewrite Hto.
  - exists v', (next_slot n r). cbn [aq_msgs aq_readers aq_writers].
    split_and!; try done; try lia; case_bool_decide; cbn [negb one_if] in *; lia.
Qed.

(** A writer that was woken has a free slot. *)
Lemma queue_resume_write_run k A q n z ms nr nw buff size xs c :
  kinv k A -> k_tcbs k !! dos_current_task (k_task k) = Some c -> timed_out c = false ->
  queue_view k q n z (mk_aqueue ms nr (S nw)) ->
  0 < size <= Z.of_nat z -> size <= Z.of_nat (length buff) ->
  A !! QueuePendList q QUEUE_READ = Some xs ->
  exists k' A' m, queue_resume q buff size QUEUE_WRITE k = Done ((DOS_OK, buff), k') /\ kinv k' A' /\
    take (Z.to_nat size) m = take (Z.to_nat size) buff /\
    queue_view k' q n z (mk_aqueue (ms ++ [m]) (nr + one_if (negb (bool_decide (xs = [])))) nw) /\
    transferred q QUEUE_READ xs (dos_tick_count (k_task k)) k A k' A'.
Proof.
  intros HI HT Hto (v & r & Hv & Hrep & Hrc & Hwc & Hr0 & Hw0 & Hn) Hs Hbuff HA.
  cbn [aq_msgs aq_readers aq_writers] in *.
  destruct (queue_write_transfer k A (dos_tick_count (k_task k)) q n z v r ms buff size xs)
    as (k' & A' & v' & m & Hrun & Hv' & Hrep' & Hm & Hwc' & Hrc' & Htr); try done; try lia.
  exists k', A', m. split_and!; try done; [|by eapply transferred_kinv|].
  - unfold queue_resume. kstep. run_by ltac:(apply task_at_run; exact HT). fold (timed_out c).
    by rewrite Hto.
  - exists v', r. cbn [aq_msgs aq_readers aq_writers]. rewrite length_app. simpl length.
    split_and!; try done; case_bool_decide; cbn [negb one_if] in *; lia.
Qed.

(** A wait that timed out ends without a transfer. *)
Lemma queue_resume_timeout k A q buff size op c :
  let t := dos_current_task (k_task k) in
  kinv k A -> k_tcbs k !! t = Some c -> ready c = true -> timed_out c = true ->
  exists k' A', queue_resume q buff size op k = Done ((DOS_NOK, buff), k') /\ ended t c k A k' A'.
Proof.
  intros t HI HT Hr Hto. destruct (ended_removed k A t c HI HT Hr Hto) as (k' & A' & Hrun & HE).
  exists k', A'. split; [|done]. unfold queue_resume. kstep.
  run_by ltac:(apply task_at_run; exact HT). fold (timed_out c). rewrite Hto. by run_with Hrun.
Qed.

(** A reader that waited and was woken by a writer finds the message reserved
    for it: when its suspended call goes on, the oldest message is delivered and
    the reservation is used up, whatever unreserved messages other readers may
    have taken in between. *)
Theorem queue_resume_fifo k A q n z m ms nr nw buff size xs c :
  kinv k A -> k_tcbs k !! dos_current_task (k_task k) = Some c -> timed_out c = false ->
  queue_view k q n z (mk_aqueue (m :: ms) (S nr) nw) ->
  0 < size <= Z.of_nat z -> size <= Z.of_nat (length buff) ->
  A !! QueuePendList q QUEUE_WRITE = Some xs ->
  let sz := Z.to_nat size in
  exists k' A', queue_resume q buff size QUEUE_READ k =
      Done ((DOS_OK, take sz m ++ drop sz buff), k') /\ kinv k' A' /\
    queue_view k' q n z (mk_aqueue ms nr (nw + one_if (negb (bool_decide (xs = []))))).
Proof.
  intros HI HT Hto Hv Hs Hbuff HA sz.
  destruct (queue_resume_read_run k A q n z m ms nr nw buff size xs c)
    as (k' & A' & Hrun & HI' & Hv' & _); eauto.
Qed.

Lemma queue_resume_fifo_witness :
  exists k', queue_resume (o_queue objs) [0; 0; 0; 0] 4 QUEUE_READ demo_queue_woken =
      Done ((DOS_OK, [1; 2; 3; 4]), k') /\
    queue_view k' (o_queue objs) 3 4 (mk_aqueue [] 0 0).
Proof.
  destruct (queue_resume_fifo demo_queue_woken (lists_of demo_queue_woken) (o_queue objs) 3 4
    [1; 2; 3; 4] [] 0 0 [0; 0; 0; 0] 4 [] (cb demo_queue_woken task_a)) as (k' & A' & Hrun & _ & Hv).
  - by_check.
  - by_eval.
  - by_eval.
  - apply (view_check_sound _ _ _ _ 0). by_eval.
  - lia.
  - simpl. lia.
  - by_eval.
  - exists k'. split; [exact Hrun | exact Hv].
Defined.

(** The caller that a queue operation blocks. *)
Definition queue_blocks (k : kernel) (timeout : Z) : list Z :=
  if may_block k timeout then [dos_current_task (k_task k)] else [].

Lemma queue_block_run k A q v bs size op timeout c :
  kinv k A -> k_queues k !! q = Some v -> q <> DOS_NULL -> size <> 0 ->
  op = QUEUE_READ \/ op = QUEUE_WRITE -> queue_rw_count op v = 0 ->
  is_Some (A !! QueuePendList q op) -> caller k c -> 0 <= timeout < 2 ^ 32 ->
  let t := dos_current_task (k_task k) in
  exists r k' A', _dos_queue_handler q (Some bs) size op timeout k = Done (r, k') /\ kinv k' A' /\
    k_queues k' = k_queues k /\
    (if may_block k timeout then
       r = Suspend (queue_resume q bs (Z.min size (queue_size v)) op) /\
       waiters k' A' (QueuePendList q op) =
         enqueue (item_val (k_store k) (PendItem t), t) (waiters k A (QueuePendList q op)) /\
       exists c', k_tcbs k' !! t = Some c' /\ ready c' = false /\ suspended c' = true
     else r = Return (DOS_NOK, bs) /\ k' = k) /\
    frame (queue_lists q) (queue_blocks k timeout) k A k' A' /\ settled k A k' A' /\
    forall t', t' ∈ queue_blocks k timeout -> waits_on (QueuePendList q op) timeout k k' t'.
Proof.
  intros HI Hv Hq Hs Hop Hc HA [HT Hr Hsu Hidle] Hto t. unfold _dos_queue_handler, queue_blocks. kstep.
  rewrite (proj2 (Z.eqb_neq _ _) Hq), (proj2 (Z.eqb_neq _ _) Hs).
  assert ((op >? QUEUE_WRITE) = false) as -> by (by destruct Hop as [-> | ->]). cbn [orb].
  run_by ltac:(apply queue_at_run; exact Hv). rewrite Hc. cbn [Z.eqb].
  unfold dos_context_is_interrupt, dos_scheduler_is_lock, may_block.
  assert (Hfail : forall B (x : B), exists r k' A',
    (dos_interrupt_enable (primask (k_cpu k));; mret x) (assign_primask 1 k) = Done (r, k') /\
    kinv k' A' /\ k_queues k' = k_queues k /\ (r = x /\ k' = k) /\
    frame (queue_lists q) [] k A k' A' /\ settled k A k' A' /\
    forall t', t' ∈ @nil Z -> waits_on (QueuePendList q op) timeout k k' t').
  { intros B x. exists x, k, A. kstep. rewrite primask_id. unchanged. }
  destruct (Z.eqb_spec timeout 0) as [->|Ht0]; cbn [negb andb]; [apply Hfail|]. kstep.
  change (ipsr (k_cpu (assign_primask 1 k))) with (ipsr (k_cpu k)).
  destruct (ipsr (k_cpu k) =? 0); cbn [negb]; [|rewrite andb_false_r; apply Hfail]. kstep.
  change (k_sys (assign_primask 1 k)) with (k_sys k).
  destruct (dos_scheduler_lock_count (k_sys k) =? 0); cbn [negb andb]; [|apply Hfail].
  destruct (block_run k A c (QueuePendList q op) timeout) as (k2 & k3 & A3 & Hrun2 & Hrun3 & HB);
    try done; [lia|].
  exists (Suspend (queue_resume q bs (Z.min size (queue_size v)) op)), k3, A3. split_and!; try done.
  - run_with Hrun2. kstep. by run_with Hrun3.
  - apply HB.
  - apply (so_queues _ _ (bl_objs _ _ _ _ _ _ _ HB)).
  - apply HB.
  - destruct (blocked_flags _ _ _ _ _ _ _ HB) as (c' & H1 & H2 & H3 & _). eauto.
  - eapply frame_weaken; [apply HB | | done]. intros l ->%list_elem_of_singleton.
    unfold queue_lists. destruct Hop as [-> | ->]; [left | right; left].
  - by apply HB.
  - intros t' ->%list_elem_of_singleton. apply HB.
Qed.

(** A read of an empty queue or a write to a full one, when the call may
    block, queues the caller in the order of the pend values on the list of its own
    direction, makes it not ready and suspends the call; when it may not block
    (no timeout, interrupt context, scheduler locked) the call fails and changes
    nothing.  The stored messages are untouched in both cases. *)
Theorem queue_block k A q v bs size op timeout c :
  kinv k A -> k_queues k !! q = Some v -> q <> DOS_NULL -> size <> 0 ->
  op = QUEUE_READ \/ op = QUEUE_WRITE -> queue_rw_count op v = 0 ->
  is_Some (A !! QueuePendList q op) -> caller k c -> 0 <= timeout < 2 ^ 32 ->
  let t := dos_current_task (k_task k) in
  exists r k' A', _dos_queue_handler q (Some bs) size op timeout k = Done (r, k') /\ kinv k' A' /\
    k_queues k' = k_queues k /\
    if may_block k timeout then
      r = Suspend (queue_resume q bs (Z.min size (queue_size v)) op) /\
      waiters k' A' (QueuePendList q op) =
        enqueue (item_val (k_store k) (PendItem t), t) (waiters k A (QueuePendList q op)) /\
      exists c', k_tcbs k' !! t = Some c' /\ ready c' = false /\ suspended c' = true
    else r = Return (DOS_NOK, bs) /\ k' = k.
Proof.
  intros HI Hv Hq Hs Hop Hc HA Hca Hto t.
  destruct (queue_block_run k A q v bs size op timeout c HI Hv Hq Hs Hop Hc HA Hca Hto)
    as (r & k' & A' & Hrun & HI' & Hqs & Hout & _). by exists r, k', A'.
Qed.

Lemma queue_block_witness :
  exists r k', _dos_queue_handler (o_queue objs) (Some [0; 0; 0; 0]) 4 QUEUE_READ 50 demo =
      Done (r, k') /\ k_queues k' = k_queues demo.
Proof.
  destruct (queue_block demo (lists_of demo) (o_queue objs)
    (default (mk_queue 0 0 0 0 0 0 0 0 []) (k_queues demo !! o_queue objs))
    [0; 0; 0; 0] 4 QUEUE_READ 50 (cb demo task_a)) as (r & k' & A' & Hrun & _ & Hq & _).
  - by_check.
  - by_eval.
  - discriminate.
  - discriminate.
  - left. reflexivity.
  - by_eval.
  - apply is_some_check. by_eval.
  - split; [by_eval | by_eval | by_eval | vm_compute; discriminate].
  - lia.
  - exists r, k'. split; [exact Hrun | exact Hq].
Defined.

(** Without a timeout, an operation that cannot proceed changes nothing. *)
Lemma queue_try_fail k q v bs size op :
  k_queues k !! q = Some v -> q <> DOS_NULL -> size <> 0 ->
  op = QUEUE_READ \/ op = QUEUE_WRITE -> queue_rw_count op v = 0 ->
  _dos_queue_handler q (Some bs) size op 0 k = Done (Return (DOS_NOK, bs), k).
Proof.
  intros Hv Hq Hs Hop Hc. unfold _dos_queue_handler. kstep.
  rewrite (proj2 (Z.eqb_neq _ _) Hq), (proj2 (Z.eqb_neq _ _) Hs).
  assert ((op >? QUEUE_WRITE) = false) as -> by (by destruct Hop as [-> | ->]). cbn [orb].
  run_by ltac:(apply queue_at_run; exact Hv). rewrite Hc. cbn [Z.eqb]. kstep.
  by rewrite primask_id.
Qed.

(** ** The gap between the test of the pend list and the waking *)

Lemma wake_fault {B} (f : unit -> kprog B) t k :
  items (k_store k) !! PendItem t = None -> (x ← dos_task_wake t; f x) k = Fault.
Proof.
  intros H. unfold dos_task_wake, on_store, zoom, dos_task_item_del, item_at, deref, mbind, prog_bind.
  by rewrite H.
Qed.

(** The masked part relies on the test before it: on a list that became empty it
    takes the task pointer of the end item, which points to no control block. *)
Lemma queue_wake_empty k A q op :
  store_rep (k_store k) A -> A !! QueuePendList q (1 - op) = Some [] ->
  items (k_store k) !! PendItem (task_of (k_store k) (EndItem (QueuePendList q (1 - op)))) = None ->
  queue_wake_waiter q op k = Fault.
Proof.
  intros Hs HA Hnone. unfold queue_wake_waiter. kstep.
  destruct (sr_list _ _ Hs _ _ HA) as [c Hl].
  run_by ltac:(apply (on_store_run _ (assign_primask 1 k)); exact (get_first_run _ _ _ _ Hl)).
  by apply wake_fault.
Qed.

(** The code enables interrupts between the two (queue.c:102-103).  A task of
    priority 7 writes a message and finds task [a], of priority 3, waiting to
    read; before it masks interrupts the tick ends that wait, [a] takes itself
    off the list, returns and sleeps; then the writer goes on and faults. *)
Definition demo_writer_tests : kernel :=
  after (dos_queue_read (o_queue objs) (Some [0; 0; 0; 0]) 4 1;; take_pendsv;;
         dos_task_sleep 9;; take_pendsv;;
         upd_queue (o_queue objs) (fun v =>
           set_rw_count QUEUE_WRITE (queue_rw_count QUEUE_WRITE v - 1) v);;
         _dos_queue_copy (o_queue objs) [1; 2; 3; 4] 4 QUEUE_WRITE) demo.

Definition reader_times_out : kprog (Z * list Z) :=
  SysTick_Handler;; take_pendsv;;
  r ← queue_resume (o_queue objs) [0; 0; 0; 0] 4 QUEUE_READ;
  dos_task_sleep 9;; take_pendsv;; mret r.

Lemma queue_wake_race :
  let l := QueuePendList (o_queue objs) QUEUE_READ in
  let k := demo_writer_tests in
  let k' := after reader_times_out k in
  dos_current_task (k_task k) = task_c /\
  result_value (on_store (dos_task_list_is_empty l) k) true = false /\
  succeeds (reader_times_out k) = true /\
  result_value (reader_times_out k) (DOS_OK, []) = (DOS_NOK, [0; 0; 0; 0]) /\
  dos_current_task (k_task k') = task_c /\
  queue_wake_waiter (o_queue objs) QUEUE_WRITE k' = Fault.
Proof. vm_compute. split_and!; reflexivity. Qed.
