(* ===== verification/EventSpec.v ===== *)
(** * Event groups serve their waiters once, in list order from the cursor

    The abstract event group is a word of flags and the requests of the waiting
    tasks.  [dos_event_set] adds flags and goes once round the pend list from
    its cursor; a task whose request is satisfied takes its flags, unless it
    asked to leave them, and is woken.  The position in the ring is kept while
    tasks leave it ([at_pos]). *)

From S2P Require Import Prelude TaskList TaskListSpec Mem Priority Kernel Sched KernelInv.
From S2P Require Import SchedSpec Sem Event IpcSpec FrameSpec LockSpec SemSpec KernelCheck Boot.

(** ** The position in a ring *)

Definition cursor (s : store) (l : list_ptr) : option item_ptr := task_item <$> lists s !! l.

(** The items [b] come next and [a] are behind; with nothing behind, the cursor
    may also be at the end of the round. *)
Definition at_pos (s : store) (l : list_ptr) (a b : list item_ptr) : Prop :=
  cursor s l = Some (default (EndItem l) (last a)) \/
  (a = [] /\ cursor s l = Some (default (EndItem l) (last b))).

(** The items in the order in which [dos_get_next_task] returns them: from the one
    behind the cursor round to the cursor; from the first one when the cursor is on
    the end item. *)
Definition round_from (c : item_ptr) (xs : list item_ptr) : list item_ptr :=
  match list_find (fun x => x = c) xs with
  | Some (i, _) => drop (S i) xs ++ take (S i) xs
  | None => xs
  end.

Definition round_of (s : store) (l : list_ptr) (xs : list item_ptr) : list item_ptr :=
  match cursor s l with Some c => round_from c xs | None => xs end.

Lemma list_rep_cursor s A l xs c :
  store_rep s A -> A !! l = Some xs -> cursor s l = Some c -> list_rep s l c xs.
Proof.
  intros HS HA Hc. destruct (sr_list _ _ HS _ _ HA) as [c' Hrep]. unfold cursor in Hc.
  rewrite (lr_header _ _ _ _ Hrep) in Hc. by simplify_eq/=.
Qed.

Lemma at_pos_exists s A l xs :
  store_rep s A -> A !! l = Some xs -> exists a b, xs = a ++ b /\ round_of s l xs = b ++ a /\ at_pos s l a b.
Proof.
  intros HS HA. destruct (sr_list _ _ HS _ _ HA) as [c Hrep].
  assert (Hc : cursor s l = Some c) by (unfold cursor; by rewrite (lr_header _ _ _ _ Hrep)).
  pose proof (lr_cursor _ _ _ _ Hrep) as [->|Hin]%elem_of_cons.
  - exists [], xs. split; [done|]. split; [|by left]. unfold round_of, round_from. rewrite Hc, app_nil_r.
    destruct (list_find _ xs) as [[i x]|] eqn:E; [|done]. apply list_find_Some in E as (Hx & -> & _).
    apply list_elem_of_lookup_2 in Hx. by destruct (lr_inner _ _ _ _ Hrep _ Hx).
  - apply list_elem_of_split_l in Hin as (l1 & l2 & -> & Hn). exists (l1 ++ [c]), l2.
    rewrite <- app_assoc. split; [done|]. split; [|left; by rewrite last_snoc]. unfold round_of, round_from. rewrite Hc.
    assert (list_find (fun x => x = c) (l1 ++ c :: l2) = Some (length l1, c)) as ->.
    { apply list_find_Some. split; [by apply list_lookup_middle|]. split; [done|].
      intros j y Hy Hj ->. rewrite lookup_app_l in Hy by done. by apply Hn, (list_elem_of_lookup_2 _ j). }
    change (l1 ++ c :: l2) with (l1 ++ [c] ++ l2). rewrite app_assoc.
    rewrite drop_app_length', take_app_length' by (rewrite length_app; simpl; lia). done.
Qed.

(** The end of a round is the start of the next one. *)
Lemma at_pos_wrap s l a : at_pos s l a [] -> at_pos s l [] a.
Proof. intros [H|[-> H]]; [by right | by left]. Qed.

Lemma next_at_pos s A l a x b :
  store_rep s A -> A !! l = Some (a ++ x :: b) -> at_pos s l a (x :: b) ->
  exists s', dos_get_next_task l s = Done (task_of s x, s') /\ store_rep s' A /\
    items s' = items s /\ same_data s s' /\ cursor s' l = Some x.
Proof.
  intros HS HA Hpos.
  assert (Hrun : dos_get_next_task l s = Done (task_of s x, alter_list l (set_cursor x) s)).
  { destruct Hpos as [Hc|[-> Hc]].
    - exact (get_next_run s l _ a (x :: b) (list_rep_cursor _ _ _ _ _ HS HA Hc) eq_refl).
    - pose proof (list_rep_cursor _ _ _ _ _ HS HA Hc) as Hrep.
      apply (get_next_run s l (default (EndItem l) (last (x :: b))) (x :: b) []); [|done].
      by rewrite app_nil_r. }
  eexists. split; [exact Hrun|]. split_and!; [|done| |].
  - eapply cursor_store_rep; [done | done |]. right. apply elem_of_app. right. left.
  - apply cursor_data. intros ->. by rewrite (sr_null _ _ HS) in HA.
  - unfold cursor. simpl. rewrite lookup_alter_eq.
    destruct (sr_list _ _ HS _ _ HA) as [c Hrep]. by rewrite (lr_header _ _ _ _ Hrep).
Qed.

(** Removing the item under the cursor moves the cursor back by one. *)
Lemma del_cursor s A l a x b n s' :
  store_rep s A -> A !! l = Some (a ++ x :: b) -> cursor s l = Some x ->
  dos_task_item_del x s = Done (n, s') -> cursor s' l = Some (default (EndItem l) (last a)).
Proof.
  intros HS HA Hc Hrun. assert (Hl : l <> ListNull) by (intros ->; by rewrite (sr_null _ _ HS) in HA).
  pose proof (list_rep_cursor _ _ _ _ _ HS HA Hc) as Hrep.
  rewrite (del_run s l x a b x Hrep Hl) in Hrun. injection Hrun as _ <-. unfold cursor.
  rewrite unlink_lists, !decide_True, (lr_header _ _ _ _ Hrep) by done. done.
Qed.

(** Operations on one list leave the headers of the others alone. *)
Lemma del_header s A p l0 n s' l :
  store_rep s A -> is_end p = false -> loc s p = Some l0 -> dos_task_item_del p s = Done (n, s') ->
  l <> l0 -> lists s' !! l = lists s !! l.
Proof.
  intros HS Hend Hloc Hrun Hne. destruct (decide (l0 = ListNull)) as [->|Hl0].
  - destruct (store_del_free s A p HS Hloc) as [m Hrun']. congruence.
  - destruct (sr_owner _ _ HS p l0 Hend Hloc Hl0) as (xs & HA & Hin).
    apply list_elem_of_split in Hin as (l1 & l2 & ->). destruct (sr_list _ _ HS _ _ HA) as [c Hrep].
    rewrite (del_run s l0 c l1 l2 p Hrep Hl0) in Hrun. injection Hrun as _ <-.
    rewrite unlink_lists. by rewrite decide_False.
Qed.

(** Programs that only touch the header of [l]. *)
Definition keeps_headers {R} (l : list_ptr) (m : prog store R) : Prop :=
  forall s r s', m s = Done (r, s') -> forall l', l' <> l -> lists s' !! l' = lists s !! l'.

Lemma keeps_bind {R R'} l (m : prog store R) (f : R -> prog store R') :
  keeps_headers l m -> (forall r, keeps_headers l (f r)) -> keeps_headers l (m ≫= f).
Proof.
  intros Hm Hf s r s' H l' Hl'. apply bind_done_inv in H as (a & s1 & H1 & H2).
  rewrite (Hf _ _ _ _ H2 l' Hl'). by eapply Hm.
Qed.

Lemma keeps_read {R} l (f : store -> option R) : keeps_headers l (deref f).
Proof. intros s r s'. unfold deref. destruct (f s); [|done]. by intros [= _ <-]. Qed.

Lemma keeps_mret {R} l (r : R) : keeps_headers l (mret r).
Proof. by intros s r' s' [= _ <-]. Qed.

Lemma keeps_upd_item l p f : keeps_headers l (upd_item p f).
Proof. apply keeps_bind; [apply keeps_read|]. intros it s r s' [= _ <-]. done. Qed.

Lemma keeps_upd_list l f : keeps_headers l (upd_list l f).
Proof.
  apply keeps_bind; [apply keeps_read|]. intros it s r s' [= _ <-] l' Hl'. simpl.
  by rewrite lookup_insert_ne.
Qed.

Lemma keeps_position l n p v : keeps_headers l (insert_position n p v).
Proof.
  revert p. induction n as [|n IH]; intros p; [by intros s r s'|].
  do 2 (apply keeps_bind; [apply keeps_read | intros ?]). case_match; [apply IH | apply keeps_mret].
Qed.

Lemma insert_keeps l p : keeps_headers l (dos_task_item_insert l p).
Proof.
  unfold dos_task_item_insert.
  apply keeps_bind; [apply keeps_read | intros it]. apply keeps_bind; last (intros p';
    repeat first [apply keeps_upd_list | apply keeps_bind;
      [first [apply keeps_read | apply keeps_upd_item] | intros ?]]).
  case_match.
  - apply keeps_bind; [apply keeps_read | intros ?; apply keeps_mret].
  - apply keeps_bind; [by intros s r s' [= _ <-] | intros ?; apply keeps_position].
Qed.

Lemma zoom_inv {R} (m : prog store R) k r k' :
  on_store m k = Done (r, k') -> exists s', m (k_store k) = Done (r, s') /\ k' = set_k_store s' k.
Proof.
  unfold on_store, zoom. destruct (m (k_store k)) as [[a s']| |] eqn:E; try done.
  intros [= <- <-]. eauto.
Qed.

(** Waking a task under the cursor of its pend list. *)
Lemma wake_cursor k A lo l a t c b k' :
  tinv_at k A lo -> is_pend_list l = true -> A !! l = Some (a ++ PendItem t :: b) ->
  k_tcbs k !! t = Some c -> cursor (k_store k) l = Some (PendItem t) ->
  dos_task_wake t k = Done (tt, k') -> cursor (k_store k') l = Some (default (EndItem l) (last a)).
Proof.
  intros HI Hl HA HT Hc Hrun. pose proof (ti_store _ _ _ _ _ HI) as HS.
  destruct (tk_status _ _ _ (ti_task _ _ _ _ _ HI _ _ HT)) as (ls & Hls & Hok).
  assert (Hin : PendItem t ∈ a ++ PendItem t :: b) by (apply elem_of_app; right; left).
  destruct (store_del _ _ _ _ _ HS HA Hin) as (s1 & Hrun1 & HS1 & _ & Hl1).
  pose proof (del_cursor _ _ _ _ _ _ _ _ HS HA Hc Hrun1) as Hc1.
  unfold dos_task_wake in Hrun. apply bind_done_inv in Hrun as (n1 & k1 & (s1' & R1 & ->)%zoom_inv & Hrun).
  rewrite Hrun1 in R1. injection R1 as <- <-.
  apply bind_done_inv in Hrun as (n2 & k2 & (s2 & R2 & ->)%zoom_inv & Hrun). simpl in R2.
  assert (Hc2 : lists s2 !! l = lists s1 !! l).
  { apply (del_header s1 _ (StatusItem t) ls n2 s2 l HS1); [done | | done |].
    - unfold loc. by rewrite Hl1, decide_False.
    - intros <-. by rewrite (status_not_pend _ _ Hok) in Hl. }
  apply bind_done_inv in Hrun as ([] & k3 & R3 & Hrun). erewrite upd_task_run in R3 by exact HT.
  injection R3 as <-. unfold _dos_insert_task_priority_list in Hrun.
  apply bind_done_inv in Hrun as (c1 & k4 & R4 & Hrun).
  unfold task_at, deref in R4. simpl in R4. rewrite lookup_insert_eq in R4. injection R4 as <- <-.
  apply bind_done_inv in Hrun as ([] & k5 & [= <-] & Hrun).
  apply bind_done_inv in Hrun as ([] & k6 & R6 & Hrun).
  erewrite upd_task_run in R6 by apply lookup_insert_eq. injection R6 as <-.
  apply bind_done_inv in Hrun as (c2 & k7 & R7 & (s3 & R8 & ->)%zoom_inv).
  unfold task_at, deref in R7. simpl in R7. rewrite lookup_insert_eq in R7. injection R7 as <- <-.
  unfold cursor. simpl. rewrite (insert_keeps _ _ _ _ _ R8) by (intros ->; done). simpl.
  by rewrite Hc2.
Qed.

(** ** Specification *)

(** A waiting task with the flags it asks for and its options. *)
Abbreviation request := (Z * (Z * Z))%type.

(** The flags that remain and the tasks that are woken when the requests are
    served in this order. *)
Fixpoint event_serve (flag : Z) (rs : list request) : Z * list Z :=
  match rs with
  | [] => (flag, [])
  | (t, (want, op)) :: rs' =>
      if event_match flag want op then
        let r := event_serve (event_clear flag want op) rs' in (r.1, t :: r.2)
      else event_serve flag rs'
  end.

Definition request_of (k : kernel) (q : item_ptr) : request :=
  let t := item_task q in
  (t, match k_tcbs k !! t with Some c => (wait_event c, wait_event_opt c) | None => (0, 0) end).

Definition requests (k : kernel) (xs : list item_ptr) : list request := map (request_of k) xs.

(** The waiters that stay. *)
Definition unserved (ws : list Z) (xs : list item_ptr) : list item_ptr :=
  filter (fun q => item_task q ∉ ws) xs.

Lemma event_serve_in flag rs t : t ∈ (event_serve flag rs).2 -> t ∈ map fst rs.
Proof.
  revert flag. induction rs as [|[t' [want op]] rs IH]; intros flag; simpl; [done|].
  destruct (event_match flag want op); simpl; rewrite !elem_of_cons; naive_solver.
Qed.

(** ** Serving the waiters *)

(** The tasks [ws] were woken with their flags, and the flags of the group are
    [f]; nothing else changed. *)
Record served (e : Z) (ws : list Z) (f lo : Z) (k : kernel) (A : gmap list_ptr (list item_ptr))
    (k' : kernel) (A' : gmap list_ptr (list item_ptr)) : Prop := {
  sv_tinv : tinv_at k' A' lo;
  sv_woken : forall t c, t ∈ ws -> k_tcbs k !! t = Some c ->
    k_tcbs k' !! t = Some (woken (set_event_get (wait_event c) c));
  sv_other : forall t, t ∉ ws -> k_tcbs k' !! t = k_tcbs k !! t;
  sv_lists : forall l, is_pend_list l = true -> l <> EventPendList e -> A' !! l = A !! l;
  sv_locs : forall q, item_task q ∉ ws -> loc (k_store k') q = loc (k_store k) q;
  sv_data : same_data (k_store k) (k_store k');
  sv_times : same_times (k_task k) (k_task k');
  sv_rest : same_rest (put_event e (mk_event f) k) k'
}.

Lemma served_trans e ws1 ws2 f1 f2 lo k A k1 A1 k2 A2 :
  served e ws1 f1 lo k A k1 A1 -> served e ws2 f2 lo k1 A1 k2 A2 ->
  (forall t, t ∈ ws1 -> t ∉ ws2) -> served e (ws1 ++ ws2) f2 lo k A k2 A2.
Proof.
  intros [S1 S2 S3 S4 S5 S6 S7 S8] [T1 T2 T3 T4 T5 T6 T7 T8] Hd. split; try done.
  - intros t c Hin HT. apply elem_of_app in Hin as [Hin|Hin].
    + rewrite T3 by (by apply Hd). by apply S2.
    + apply T2; [done|]. rewrite S3; [done|]. intros Hin'. by apply (Hd t).
  - intros t [Hn1 Hn2]%not_elem_of_app. by rewrite T3, S3.
  - intros l Hl Hne. by rewrite T4, S4.
  - intros q [Hn1 Hn2]%not_elem_of_app. by rewrite T5, S5.
  - by etrans.
  - destruct S7, T7. split; congruence.
  - destruct S8 as [E1 E2 E3 E4 E5 E6 E7 E8 E9 E10 E11 E12], T8 as [F1 F2 F3 F4 F5 F6 F7 F8 F9 F10 F11 F12].
    simpl in *. split; simpl; try congruence. rewrite F7, E7. apply insert_insert_eq.
Qed.

Lemma put_event_same e f k : k_events k !! e = Some (mk_event f) -> put_event e (mk_event f) k = k.
Proof.
  intros He. unfold put_event. rewrite insert_id by done. by destruct k.
Qed.

(** The cursor moved; the flags were not enough. *)
Lemma served_cursor e f lo k A s1 :
  tinv_at k A lo -> store_rep s1 A -> items s1 = items (k_store k) -> same_data (k_store k) s1 ->
  k_events k !! e = Some (mk_event f) -> served e [] f lo k A (set_k_store s1 k) A.
Proof.
  intros HI HS Hi Hsd He. split; try done.
  - by apply cursor_tinv.
  - by intros t c ?%elem_of_nil.
  - intros q _. unfold loc, fld. simpl. by rewrite Hi.
  - by rewrite put_event_same.
Qed.

Lemma set_event_get_flags v c : same_flags c (set_event_get v c).
Proof. done. Qed.

(** One turn of the loop. *)
Lemma event_visit_run k A lo e f a x b n :
  tinv_at k A lo -> lock_count k <> 0 -> k_events k !! e = Some (mk_event f) ->
  A !! EventPendList e = Some (a ++ x :: b) -> at_pos (k_store k) (EventPendList e) a (x :: b) ->
  exists t c k' A', x = PendItem t /\ k_tcbs k !! t = Some c /\
    event_wake_loop (S n) e k = event_wake_loop n e k' /\
    let m := event_match f (wait_event c) (wait_event_opt c) in
    let f' := if m then event_clear f (wait_event c) (wait_event_opt c) else f in
    let a' := if m then a else a ++ [x] in
    served e (if m then [t] else []) f' lo k A k' A' /\
    A' !! EventPendList e = Some (a' ++ b) /\ at_pos (k_store k') (EventPendList e) a' b.
Proof.
  intros HI Hlock He HA Hpos. pose proof (ti_store _ _ _ _ _ HI) as HS.
  destruct (next_at_pos _ _ _ _ _ _ HS HA Hpos) as (s1 & Hrun1 & HS1 & Hi1 & Hsd1 & Hc1).
  destruct (pend_list_item k A lo (EventPendList e) _ x HI eq_refl HA) as (t & c & -> & Ht & HT & Hlt & Hs);
    [apply elem_of_app; right; left|].
  rewrite Ht in Hrun1. exists t, c.
  set (k1 := set_k_store s1 k). assert (HI1 : tinv_at k1 A lo) by (by apply cursor_tinv).
  assert (Hloop : event_wake_loop (S n) e k = (got ← _dos_check_event e (wait_event c) (wait_event_opt c);
      (if (got : bool) then upd_task t (fun c => set_event_get (wait_event c) c);; dos_task_wake t;; dos_scheduler
       else mret tt);; event_wake_loop n e) k1).
  { cbn [event_wake_loop]. run_by ltac:(apply on_store_run; exact Hrun1). by run_with (task_at_run t k1 c HT). }
  assert (Hchk : _dos_check_event e (wait_event c) (wait_event_opt c) k1 =
    if event_match f (wait_event c) (wait_event_opt c)
    then Done (true, put_event e (mk_event (event_clear f (wait_event c) (wait_event_opt c))) k1)
    else Done (false, k1)).
  { unfold _dos_check_event. run_by ltac:(apply deref_some; exact He). simpl. by case_match. }
  rewrite Hloop. destruct (event_match f (wait_event c) (wait_event_opt c)).
  - set (f' := event_clear f (wait_event c) (wait_event_opt c)) in *.
    set (k2 := put_task t (set_event_get (wait_event c) c) (put_event e (mk_event f') k1)).
    assert (HI2 : tinv_at k2 A lo).
    { apply (tinv_put_task k1 A lo t c); [done | done | | done..].
      apply (tk_priority _ _ _ (ti_task _ _ _ _ _ HI _ _ HT)). }
    assert (HT2 : k_tcbs k2 !! t = Some (set_event_get (wait_event c) c)) by apply lookup_insert_eq.
    destruct (wake_member_spec k2 A lo (EventPendList e) t _ a b HI2 eq_refl HA HT2)
      as (k3 & A3 & Hrun3 & HI3 & HA3 & HA3' & HT3 & Hg3 & Hsd3 & Hr3 & Hl3).
    pose proof (wake_cursor k2 A lo (EventPendList e) a t _ b k3 HI2 eq_refl HA HT2 Hc1 Hrun3) as Hc3.
    assert (Hsch : dos_scheduler k3 = Done (tt, k3)).
    { destruct (scheduler_ok k3 A3 lo HI3) as (k4 & Hrun4 & _).
      assert (k4 = k3) as -> by (apply scheduler_locked; [by rewrite (sr_sys _ _ Hr3) | done]). done. }
    exists k3, A3. cbv zeta. split_and!; try done.
    + run_with Hchk. rewrite (bind_done _ _ _ tt k3); [done|].
      run_by ltac:(apply upd_task_run; exact HT). run_with Hrun3. exact Hsch.
    + split; try done.
      * intros t' c' ->%list_elem_of_singleton HT'. assert (c' = c) as -> by congruence.
        by rewrite HT3, lookup_insert_eq.
      * intros t' Hn%not_elem_of_cons. rewrite HT3, lookup_insert_ne by naive_solver.
        simpl. by rewrite lookup_insert_ne by naive_solver.
      * intros q Hn%not_elem_of_cons. rewrite Hl3 by (intros ->; naive_solver).
        unfold k2, loc, fld. simpl. by rewrite Hi1.
      * by etrans.
      * by destruct Hr3.
    + by left.
  - exists k1, A. cbv zeta. split_and!; try done.
    + by run_with Hchk.
    + by apply served_cursor.
    + by rewrite <- app_assoc.
    + left. by rewrite last_snoc.
Qed.

(** ** The whole round *)

Lemma unserved_skip t ws xs :
  t ∉ map item_task xs -> unserved (t :: ws) xs = unserved ws xs.
Proof.
  intros Hn. apply filter_ext_in. intros q Hq. rewrite elem_of_cons. split; [naive_solver|].
  intros H [<-|]; [|done]. apply Hn. apply list_elem_of_fmap. eauto.
Qed.

Lemma unserved_cons ws x xs :
  unserved ws (x :: xs) = (if decide (item_task x ∈ ws) then [] else [x]) ++ unserved ws xs.
Proof.
  unfold unserved. case_decide; [by rewrite filter_cons_False by tauto | by rewrite filter_cons_True].
Qed.

Lemma requests_ext k k' xs :
  (forall q, q ∈ xs -> k_tcbs k' !! item_task q = k_tcbs k !! item_task q) ->
  requests k' xs = requests k xs.
Proof.
  intros H. apply map_ext_in. intros q Hq%list_elem_of_In. unfold request_of. by rewrite H.
Qed.

Lemma requests_tasks k xs : map fst (requests k xs) = map item_task xs.
Proof. unfold requests. by rewrite map_map. Qed.

(** The tasks on a pend list are different. *)
Lemma waiting_tasks_nodup k A lo l xs :
  tinv_at k A lo -> is_pend_list l = true -> A !! l = Some xs -> NoDup (map item_task xs).
Proof.
  intros HI Hl HA. pose proof (store_rep_nodup _ _ _ _ (ti_store _ _ _ _ _ HI) HA) as Hnd.
  assert (Hp : forall q, q ∈ xs -> exists t, q = PendItem t)
    by (intros q Hq; destruct (pend_list_item _ _ _ _ _ q HI Hl HA Hq) as (t & _ & -> & _); eauto).
  clear HA. induction Hnd as [|q xs Hq Hnd IH]; simpl; constructor.
  - intros (q' & E & Hq')%list_elem_of_fmap. destruct (Hp q ltac:(left)) as [t ->].
    destruct (Hp q' ltac:(by right)) as [t' ->]. simpl in E. by subst.
  - apply IH. intros q' Hq'. apply Hp. by right.
Qed.

Lemma event_loop_run e lo b : forall k A f a r n,
  let out := event_serve f (requests k b) in
  tinv_at k A lo -> lock_count k <> 0 -> k_events k !! e = Some (mk_event f) ->
  A !! EventPendList e = Some (a ++ b ++ r) -> at_pos (k_store k) (EventPendList e) a (b ++ r) ->
  exists k' A', event_wake_loop (length b + n) e k = event_wake_loop n e k' /\
    served e out.2 out.1 lo k A k' A' /\
    A' !! EventPendList e = Some ((a ++ unserved out.2 b) ++ r) /\
    at_pos (k_store k') (EventPendList e) (a ++ unserved out.2 b) r.
Proof.
  induction b as [|x b IH]; intros k A f a r n out HI Hlock He HA Hpos.
  - exists k, A. simpl. rewrite app_nil_r. split_and!; try done.
    split; try done. + by intros t c ?%elem_of_nil. + by rewrite put_event_same.
  - destruct (event_visit_run k A lo e f a x (b ++ r) (length b + n) HI Hlock He HA Hpos)
      as (t & c & k1 & A1 & -> & HT & Hrun & Hsv & HA1 & Hpos1). cbv zeta in *.
    pose proof (waiting_tasks_nodup k A lo (EventPendList e) _ HI eq_refl HA) as Hnd.
    assert (Hnt : t ∉ map item_task b).
    { rewrite map_app in Hnd. apply NoDup_app in Hnd as (_ & _ & Hnd). simpl in Hnd.
      apply NoDup_cons in Hnd as [Hnd _]. rewrite map_app in Hnd. set_solver. }
    set (m := event_match f (wait_event c) (wait_event_opt c)) in *.
    set (ws1 := if m then [t] else []) in *. set (f1 := if m then _ else f) in *.
    set (a1 := if m then a else a ++ [PendItem t]) in *.
    assert (Hreq : requests k1 b = requests k b).
    { apply requests_ext. intros q Hq. apply (sv_other _ _ _ _ _ _ _ _ Hsv). unfold ws1.
      destruct m; [|apply not_elem_of_nil]. intros E%list_elem_of_singleton. apply Hnt.
      rewrite <- E. apply list_elem_of_fmap. eauto. }
    destruct (IH k1 A1 f1 a1 r n) as (k2 & A2 & Hrun2 & Hsv2 & HA2 & Hpos2).
    + apply Hsv.
    + by rewrite (sr_sys _ _ (sv_rest _ _ _ _ _ _ _ _ Hsv)).
    + rewrite (sr_events _ _ (sv_rest _ _ _ _ _ _ _ _ Hsv)). apply lookup_insert_eq.
    + done.
    + done.
    + exists k2, A2. set (out1 := event_serve f1 (requests k1 b)) in *.
      assert (Hnw : t ∉ out1.2).
      { intros Hin%event_serve_in. rewrite requests_tasks in Hin. done. }
      assert (Hout : out = (out1.1, ws1 ++ out1.2)).
      { unfold out. change (requests k (PendItem t :: b)) with (request_of k (PendItem t) :: requests k b).
        unfold request_of. cbn [item_task]. rewrite HT, <- Hreq. cbn [event_serve]. fold m.
        unfold out1, ws1, f1. destruct m; [done|]. apply surjective_pairing. }
      rewrite Hout. cbn [fst snd].
      assert (Ha : a ++ unserved (ws1 ++ out1.2) (PendItem t :: b) = a1 ++ unserved out1.2 b).
      { rewrite unserved_cons. unfold ws1, a1. destruct m; simpl.
        - rewrite decide_True by left. simpl. by rewrite unserved_skip.
        - rewrite decide_False by done. by rewrite <- app_assoc. }
      rewrite Ha. split_and!; [by rewrite <- Hrun2, <- Hrun | | done | done].
      eapply served_trans; [done | done |]. unfold ws1. destruct m; [|by intros t' ?%elem_of_nil].
      by intros t' ->%list_elem_of_singleton.
Qed.

Lemma event_serve_app f r1 r2 :
  let o1 := event_serve f r1 in let o2 := event_serve o1.1 r2 in
  event_serve f (r1 ++ r2) = (o2.1, o1.2 ++ o2.2).
Proof.
  revert f. induction r1 as [|[t [want op]] r1 IH]; intros f; simpl; [apply surjective_pairing|].
  destruct (event_match f want op); simpl; by rewrite IH.
Qed.

Lemma round_of_nil s l : round_of s l [] = [].
Proof. unfold round_of. by destruct (cursor s l). Qed.

Lemma elem_of_round_of s l xs q : q ∈ round_of s l xs <-> q ∈ xs.
Proof.
  unfold round_of, round_from. destruct (cursor s l) as [c|]; [|done]. destruct (list_find _ xs) as [[i x]|]; [|done].
  by rewrite Permutation_app_comm, take_drop.
Qed.

Lemma event_round_run k A lo e f xs :
  tinv_at k A lo -> lock_count k <> 0 -> k_events k !! e = Some (mk_event f) ->
  A !! EventPendList e = Some xs ->
  exists order k' A', order = round_of (k_store k) (EventPendList e) xs /\
    let out := event_serve f (requests k order) in
    event_wake_loop (length xs) e k = Done (tt, k') /\ served e out.2 out.1 lo k A k' A' /\
    A' !! EventPendList e = Some (unserved out.2 xs).
Proof.
  intros HI Hlock He HA.
  destruct (at_pos_exists _ _ _ _ (ti_store _ _ _ _ _ HI) HA) as (a & b & -> & Hro & Hpos).
  pose proof (waiting_tasks_nodup k A lo (EventPendList e) _ HI eq_refl HA) as Hnd.
  rewrite map_app in Hnd. apply NoDup_app in Hnd as (_ & Hdis & _).
  destruct (event_loop_run e lo b k A f a [] (length a) HI Hlock He) as (k1 & A1 & Hrun1 & Hsv1 & HA1 & Hpos1);
    [by rewrite app_nil_r | by rewrite app_nil_r |].
  set (o1 := event_serve f (requests k b)) in *.
  assert (Hw1 : forall t, t ∈ o1.2 -> t ∈ map item_task b).
  { intros t Ht%event_serve_in. by rewrite requests_tasks in Ht. }
  assert (Hreq : requests k1 a = requests k a).
  { apply requests_ext. intros q Hq. apply (sv_other _ _ _ _ _ _ _ _ Hsv1). intros Hin%Hw1.
    apply (Hdis (item_task q)); [|done]. apply list_elem_of_fmap. eauto. }
  apply at_pos_wrap in Hpos1. rewrite app_nil_r in HA1.
  destruct (event_loop_run e lo a k1 A1 o1.1 [] (unserved o1.2 b) 0) as (k2 & A2 & Hrun2 & Hsv2 & HA2 & _);
    [apply Hsv1 | by rewrite (sr_sys _ _ (sv_rest _ _ _ _ _ _ _ _ Hsv1)) | | | |].
  { rewrite (sr_events _ _ (sv_rest _ _ _ _ _ _ _ _ Hsv1)). apply lookup_insert_eq. }
  { done. } { done. }
  simpl in HA2. rewrite Hreq in Hsv2, HA2. set (o2 := event_serve o1.1 (requests k a)) in *.
  assert (Hw2 : forall t, t ∈ o2.2 -> t ∈ map item_task a).
  { intros t Ht%event_serve_in. by rewrite requests_tasks in Ht. }
  exists (b ++ a), k2, A2. split; [done|]. cbv zeta.
  assert (Hout : event_serve f (requests k (b ++ a)) = (o2.1, o1.2 ++ o2.2)).
  { unfold requests. rewrite map_app. apply event_serve_app. }
  rewrite Hout. cbn [fst snd]. split_and!.
  - rewrite length_app, Nat.add_comm, Hrun1. rewrite Nat.add_0_r in Hrun2. by rewrite Hrun2.
  - eapply served_trans; [done | done |]. intros t Ht1%Hw1 Ht2%Hw2. by apply (Hdis t).
  - rewrite HA2. f_equal. unfold unserved. rewrite filter_app. f_equal; apply filter_ext_in;
      intros q Hq; assert (Hqt : forall xs, q ∈ xs -> item_task q ∈ map item_task xs) by
        (intros xs Hxs; apply list_elem_of_fmap; eauto); rewrite elem_of_app; split; try tauto.
    + intros H [Hin%Hw1|]; [|done]. apply (Hdis (item_task q)); [by apply Hqt | done].
    + intros H [|Hin%Hw2]; [done|]. apply (Hdis (item_task q)); [done | by apply Hqt].
Qed.

(** What the kernel sees of a round: the frame of its calls. *)
Lemma served_frame e ws f lo k A k' A' :
  served e ws f lo k A k' A' -> is_Some (A' !! EventPendList e) ->
  (forall t, t ∈ ws -> is_Some (k_tcbs k !! t)) ->
  frame [EventPendList e] ws k A k' A'.
Proof.
  intros [S1 S2 S3 S4 S5 S6 S7 S8] HA Hws.
  destruct (one_list_dom A A' (EventPendList e) [EventPendList e] HA S4) as [H1 H2]; [left|].
  destruct S8 as [E1 E2 E3 E4 E5 E6 E7 E8 E9 E10 E11 E12]. simpl in *. destruct S7.
  split; try done; try congruence.
  - intros t. by apply item_val_same.
  - intros t _. by apply item_val_same.
  - intros t Ht. by apply S5.
  - intros t c Hn HT. exists c. by rewrite S3.
  - intros t. destruct (decide (t ∈ ws)) as [Hin|Hn]; [|by rewrite S3].
    destruct (Hws t Hin) as [c HT]. rewrite (S2 t c Hin HT). split; eauto.
  - intros e' He'. rewrite E7, lookup_insert_ne; [done|]. intros ->. apply He'. left.
Qed.

(** ** [dos_event_set] *)

Lemma served_lock e ws f lo n k A k' A' :
  served e ws f lo k A k' A' ->
  served e ws f lo (assign_dos_scheduler_lock_count n k) A (assign_dos_scheduler_lock_count n k') A'.
Proof.
  intros [S1 S2 S3 S4 S5 S6 S7 [E1 E2 E3 E4 E5 E6 E7 E8 E9 E10 E11 E12]]. split; try done.
  split; try done. simpl in *. by rewrite E1.
Qed.

Lemma lock_count_id k n :
  assign_dos_scheduler_lock_count (lock_count k) (assign_dos_scheduler_lock_count n k) = k.
Proof. by destruct k as [? ? ? [] ? ? ? ? ? ? ? ? ? ? ?]. Qed.

Lemma locked_settled k A k0 A0 :
  kinv k A -> lock_count k <> 0 -> k_sys k = k_sys k0 -> pendsv (k_cpu k) = pendsv (k_cpu k0) ->
  settled k0 A0 k A.
Proof.
  intros HI Hl Hs Hp. destruct (scheduler_ok k A _ HI) as (k' & Hrun & _).
  assert (k' = k) as -> by (by apply scheduler_locked). by eapply settled_sched.
Qed.

(** The locked part of the call, with at least one waiter. *)
Lemma event_set_round {R} (r : R) k A e f xs :
  kinv k A -> 0 <= lock_count k < 255 -> k_events k !! e = Some (mk_event f) ->
  A !! EventPendList e = Some xs ->
  exists order k1 k' A', order = round_of (k_store k) (EventPendList e) xs /\
    let out := event_serve f (requests k order) in
    (dos_scheduler_lock;; value ← on_store (dos_get_task_list_value (EventPendList e));
     event_wake_loop (Z.to_nat value) e;; dos_scheduler_unlock;; mret r) k = Done (r, k') /\
    served e out.2 out.1 (dos_tick_count (k_task k)) k A k1 A' /\
    A' !! EventPendList e = Some (unserved out.2 xs) /\
    rescheduled k1 k' /\ forall k0 A0, k_sys k0 = k_sys k -> pendsv (k_cpu k0) = pendsv (k_cpu k) ->
      settled k0 A0 k' A'.
Proof.
  intros HI Hl He HA. set (n := lock_count k) in *. set (k2 := assign_dos_scheduler_lock_count (n + 1) k).
  destruct (event_round_run k2 A (dos_tick_count (k_task k)) e f xs HI) as (order & k3 & A3 & Hrot & Hrun3 & Hsv & HA3);
    [simpl; lia | done | done |].
  change (requests k2 order) with (requests k order) in *. cbv zeta in *.
  set (out := event_serve f (requests k order)) in *.
  pose proof (served_lock _ _ _ _ n _ _ _ _ Hsv) as Hsv1. unfold k2 in Hsv1. unfold n in Hsv1 at 1.
  rewrite lock_count_id in Hsv1. set (k1 := assign_dos_scheduler_lock_count n k3) in *.
  assert (Hl3 : lock_count k3 = n + 1) by (by rewrite (sr_sys _ _ (sv_rest _ _ _ _ _ _ _ _ Hsv))).
  destruct (unlock_run k3 A3 (dos_tick_count (k_task k))) as (k' & Hrun4 & Hrs & Hc); [apply Hsv | lia |].
  rewrite Hl3 in Hrs, Hc. replace (n + 1 - 1) with n in Hrs, Hc by lia. fold k1 in Hrs, Hc.
  exists order, k1, k', A3. split_and!; try done.
  - run_with (lock_run k Hl). fold n. fold k2.
    run_by ltac:(apply (on_store_run _ k2); exact (list_value_run _ _ _ _ (ti_store _ _ _ _ _ HI) HA)).
    rewrite Nat2Z.id. run_with Hrun3. by run_with Hrun4.
  - intros k0 A0 Hs0 Hp0. destruct (sv_rest _ _ _ _ _ _ _ _ Hsv1) as [E1 E2 _ _ _ _ _ _ _ _ _ _].
    assert (HI1 : kinv k1 A3).
    { unfold kinv. rewrite (st_tick _ _ (sv_times _ _ _ _ _ _ _ _ Hsv1)). apply Hsv1. }
    destruct (Z.eqb_spec (n + 1) 1) as [E|E].
    + eapply settled_sched; [done | done | by rewrite E1, Hs0 | by rewrite E2, Hp0].
    + subst k'. apply locked_settled; [done | simpl; lia | by rewrite E1, Hs0 | by rewrite E2, Hp0].
Qed.

(** What is left of [dos_event_set] after it let other tasks run. *)
Definition event_flag_of (e : Z) : kprog Z := v ← event_at e; mret (event_flag v).

Lemma event_set_run k A e f set xs :
  kinv k A -> e <> DOS_NULL -> set <> 0 -> 0 <= lock_count k < 255 ->
  k_events k !! e = Some (mk_event f) -> A !! EventPendList e = Some xs ->
  exists order k1 r k' A', order = round_of (k_store k) (EventPendList e) xs /\
    let out := event_serve (Z.lor f set) (requests k order) in
    dos_event_set e set k = Done (r, k') /\
    r = (if decide (xs = []) then Return out.1 else Suspend (event_flag_of e)) /\
    served e out.2 out.1 (dos_tick_count (k_task k)) k A k1 A' /\
    A' !! EventPendList e = Some (unserved out.2 xs) /\ rescheduled k1 k' /\ settled k A k' A'.
Proof.
  intros HI He Hset Hl Hv HA. set (k2 := put_event e (mk_event (Z.lor f set)) k).
  assert (Hv2 : k_events k2 !! e = Some (mk_event (Z.lor f set))) by apply lookup_insert_eq.
  assert (Hrun2 : dos_event_set e set k = (e0 ← on_store (dos_task_list_is_empty (EventPendList e));
    if negb e0 then
      dos_scheduler_lock;; value ← on_store (dos_get_task_list_value (EventPendList e));
      event_wake_loop (Z.to_nat value) e;; dos_scheduler_unlock;; mret (Suspend (event_flag_of e))
    else v' ← event_at e; mret (Return (event_flag v'))) k2).
  { unfold dos_event_set. kstep. rewrite (proj2 (Z.eqb_neq _ _) He), (proj2 (Z.eqb_neq _ _) Hset). cbn [orb].
    run_by ltac:(apply deref_some; exact Hv). kstep. cbn [event_flag].
    assert (E : assign_primask (primask (k_cpu k)) (put_event e (mk_event (Z.lor f set)) (assign_primask 1 k)) = k2)
      by (by destruct k as [? ? ? ? [] ? ? ? ? ? ? ? ? ? ?]). by rewrite E. }
  rewrite Hrun2. run_by ltac:(apply (on_store_run _ k2);
    exact (list_is_empty_run _ _ _ _ (ti_store _ _ _ _ _ HI) HA)).
  change (set_k_store (k_store k2) k2) with k2. destruct xs as [|x xs].
  - rewrite bool_decide_true by done. cbn [negb]. exists [], k2, (Return (Z.lor f set)), k2, A.
    split; [symmetry; apply round_of_nil|]. cbv zeta. split_and!; try done.
    + by run_by ltac:(apply deref_some; exact Hv2).
    + split; try done. by intros t c ?%elem_of_nil.
    + apply rescheduled_refl, HI.
    + by apply settled_quiet.
  - rewrite bool_decide_false by done. cbn [negb].
    destruct (event_set_round (Suspend (event_flag_of e)) k2 A e (Z.lor f set) (x :: xs) HI Hl Hv2 HA)
      as (order & k1 & k' & A' & Hrot & Hrun & Hsv & HA' & Hrs & Hse). cbv zeta in *.
    change (requests k2 order) with (requests k order) in *.
    exists order, k1, (Suspend (event_flag_of e)), k', A'. split; [done|]. cbv zeta. split_and!; try done.
    + destruct Hsv as [S1 S2 S3 S4 S5 S6 S7 S8]. split; try done.
      unfold k2, put_event in S8. simpl in S8. by rewrite insert_insert_eq in S8.
    + by apply Hse.
Qed.

Lemma served_task e ws f lo k A k1 A' k' t c :
  served e ws f lo k A k1 A' -> rescheduled k1 k' -> t ∈ ws -> k_tcbs k !! t = Some c ->
  exists c', k_tcbs k' !! t = Some c' /\ ready c' = true /\ suspended c' = false /\
    timed_out c' = timed_out c /\ event_get c' = wait_event c.
Proof.
  intros Hsv Hrs Hin HT. pose proof (sv_woken _ _ _ _ _ _ _ _ Hsv t c Hin HT) as HT1.
  destruct (rescheduled_task _ _ _ _ Hrs HT1) as [n HT2]. eexists. split; [exact HT2|].
  destruct (woken_flags (set_event_get (wait_event c) c)) as (W1 & _ & W3 & W4 & _). done.
Qed.


(** ** [dos_event_wait] *)

(** The caller records what it waits for. *)
Definition asking (wait op : Z) (k : kernel) : kernel :=
  let t := dos_current_task (k_task k) in
  match k_tcbs k !! t with Some c => put_task t (set_wait_event wait op c) k | None => k end.

(** The outcome of a wait with valid arguments: the flags are there and taken,
    or the call fails without a change, or the caller is queued. *)
Definition event_wait_outcome (k : kernel) (A : gmap list_ptr (list item_ptr)) (e f wait op timeout : Z)
    (r : call Z) (k' : kernel) (A' : gmap list_ptr (list item_ptr)) : Prop :=
  let t := dos_current_task (k_task k) in
  if event_match f wait op then
    r = Return wait /\ k' = put_event e (mk_event (event_clear f wait op)) k /\ A' = A
  else if may_block k timeout then
    r = Suspend (event_wait_resume t wait) /\
    waiters k' A' (EventPendList e) =
      enqueue (item_val (k_store k) (PendItem t), t) (waiters k A (EventPendList e)) /\
    k_events k' = k_events k /\
    exists c', k_tcbs k' !! t = Some c' /\ ready c' = false /\ suspended c' = true /\
      wait_event c' = wait /\ wait_event_opt c' = op
  else r = Return 0 /\ k' = k /\ A' = A.

(** The caller that a wait blocks. *)
Definition event_wait_blocks (k : kernel) (f wait op timeout : Z) : list Z :=
  if event_match f wait op then [] else
  if may_block k timeout then [dos_current_task (k_task k)] else [].

Lemma frame_asking e c wait op k A :
  k_tcbs k !! dos_current_task (k_task k) = Some c ->
  frame [EventPendList e] [dos_current_task (k_task k)] k A (asking wait op k) A.
Proof.
  intros HT. unfold asking. rewrite HT. by apply (frame_same_flags _ _ (dos_current_task (k_task k)) c (set_wait_event wait op c)).
Qed.

Lemma event_wait_run k A e f wait op timeout c :
  kinv k A -> e <> DOS_NULL -> wait <> 0 -> Z.land op WAIT_EVENT_OP <> WAIT_EVENT_OP ->
  k_events k !! e = Some (mk_event f) -> is_Some (A !! EventPendList e) -> caller k c ->
  0 <= timeout < 2 ^ 32 ->
  exists r k' A', dos_event_wait e wait op timeout k = Done (r, k') /\ kinv k' A' /\
    event_wait_outcome k A e f wait op timeout r k' A' /\
    frame [EventPendList e] (event_wait_blocks k f wait op timeout) k A k' A' /\ settled k A k' A' /\
    forall t, t ∈ event_wait_blocks k f wait op timeout -> waits_on (EventPendList e) timeout k k' t.
Proof.
  intros HI He Hw Hop Hv HA [HT Hr Hs Hidle] Hto. unfold event_wait_outcome, event_wait_blocks.
  unfold dos_event_wait. kstep. rewrite (proj2 (Z.eqb_neq _ _) He), (proj2 (Z.eqb_neq _ _) Hw),
    (proj2 (Z.eqb_neq _ _) Hop). cbn [orb]. set (k1 := assign_primask 1 k).
  assert (Hchk : _dos_check_event e wait op k1 = if event_match f wait op
    then Done (true, put_event e (mk_event (event_clear f wait op)) k1) else Done (false, k1)).
  { unfold _dos_check_event. run_by ltac:(apply deref_some; exact Hv). simpl. by case_match. }
  destruct (event_match f wait op).
  { run_with Hchk. kstep. eexists _, _, A. split; [done|].
    replace (assign_primask (primask (k_cpu k)) (put_event e (mk_event (event_clear f wait op)) k1))
      with (put_event e (mk_event (event_clear f wait op)) k)
      by (unfold k1; by destruct k as [? ? ? ? [] ? ? ? ? ? ? ? ? ? ?]).
    split_and!; try done; [apply frame_event; left | by apply settled_quiet | by intros t ?%elem_of_nil]. }
  run_with Hchk. unfold dos_scheduler_is_lock, dos_context_is_interrupt, may_block. kstep.
  change (k_sys k1) with (k_sys k).
  destruct (Z.eqb_spec timeout 0) as [->|Ht0]; cbn [orb andb negb].
  { exists (Return 0), k, A. kstep. unfold k1. rewrite primask_id. unchanged. }
  destruct (dos_scheduler_lock_count (k_sys k) =? 0); cbn [negb orb andb]; last first.
  { exists (Return 0), k, A. kstep. unfold k1. rewrite primask_id. unchanged. }
  kstep. change (ipsr (k_cpu k1)) with (ipsr (k_cpu k)).
  destruct (ipsr (k_cpu k) =? 0); cbn [negb]; last first.
  { exists (Return 0), k, A. kstep. unfold k1. rewrite primask_id. unchanged. }
  kstep. change (dos_current_task (k_task k1)) with (dos_current_task (k_task k)).
  set (t := dos_current_task (k_task k)) in *. set (c1 := set_wait_event wait op c).
  run_by ltac:(apply (upd_task_run _ _ k1); exact HT).
  set (k2 := put_task t c1 k). change (put_task t _ k1) with (assign_primask 1 k2).
  assert (HI2 : kinv k2 A).
  { apply (tinv_put_task k A _ t c); [done | done | | done..].
    apply (tk_priority _ _ _ (ti_task _ _ _ _ _ HI _ _ HT)). }
  assert (HT2 : k_tcbs k2 !! t = Some c1) by apply lookup_insert_eq.
  destruct (block_run k2 A c1 (EventPendList e) timeout) as (k3 & k4 & A4 & Hrun3 & Hrun4 & HB);
    try done; [lia|]. change (k_cpu k2) with (k_cpu k) in Hrun4.
  exists (Suspend (event_wait_resume t wait)), k4, A4. split_and!; try done.
  - run_with Hrun3. kstep. by run_with Hrun4.
  - apply HB.
  - exact (bl_waiters _ _ _ _ _ _ _ HB).
  - by rewrite (so_events _ _ (bl_objs _ _ _ _ _ _ _ HB)).
  - destruct (bl_task _ _ _ _ _ _ _ HB) as [n HT4].
    destruct (waiting_flags timeout c1) as (W1 & W2 & W3 & _). eexists. split; [exact HT4|]. split_and!; try done; unfold waiting; by case_match.
  - eapply frame_trans; [|apply HB]. pose proof (frame_asking e c wait op k A HT) as HF.
    unfold asking in HF. cbv zeta in HF. fold t in HF. by rewrite HT in HF.
  - by apply HB.
  - intros t' ->%list_elem_of_singleton. apply HB.
Qed.

Definition event_args_ok (e wait op : Z) : bool :=
  negb (e =? DOS_NULL) && negb (wait =? 0) && negb (Z.land op WAIT_EVENT_OP =? WAIT_EVENT_OP).

Lemma event_wait_invalid k e wait op timeout :
  event_args_ok e wait op = false -> dos_event_wait e wait op timeout k = Done (Return 0, k).
Proof.
  unfold event_args_ok, dos_event_wait. kstep.
  destruct (e =? DOS_NULL), (wait =? 0), (Z.land op WAIT_EVENT_OP =? WAIT_EVENT_OP); try done;
    intros _; cbn [orb]; kstep; by rewrite primask_id.
Qed.


(** ** The end of a wait *)

(** The request of a wait that timed out is dropped. *)
Definition forget_request (wait : Z) (c : dos_task_cb) : dos_task_cb :=
  set_wait_event (Z.land (wait_event c) (not32 wait)) 0 c.

Lemma event_resume_run k A t c wait :
  kinv k A -> k_tcbs k !! t = Some c -> ready c = true ->
  exists k2 A', ended t c k A k2 A' /\
    event_wait_resume t wait k =
      if timed_out c then Done (0, put_task t (forget_request wait (timeout_cleared c)) k2)
      else Done (event_get c, k2).
Proof.
  intros HI HT Hr. unfold event_wait_resume. destruct (timed_out c) eqn:Hto; last first.
  - exists k, A. split; [by apply ended_quiet|].
    run_by ltac:(apply task_at_run; exact HT). fold (timed_out c). by rewrite Hto.
  - destruct (wait_end_run k A t c HI HT Hr) as (k2 & A2 & Hrun & HE). exists k2, A2.
    split; [done|]. run_by ltac:(apply task_at_run; exact HT). fold (timed_out c). rewrite Hto.
    kstep. unfold wait_end in Hrun. rewrite Hto in Hrun. revert Hrun. kstep. intros Hrun.
    apply bind_done_inv in Hrun as ([] & k1 & Hrun1 & [= E]). run_with Hrun1.
    assert (HT1 : k_tcbs k1 !! t = Some (timeout_cleared c)).
    { change (k_tcbs k1) with (k_tcbs (assign_primask (primask (k_cpu k)) k1)). rewrite E.
      rewrite (en_tcbs _ _ _ _ _ _ HE), Hto. apply lookup_insert_eq. }
    run_by ltac:(apply upd_task_run; exact HT1). kstep. by rewrite <- E.
Qed.

(** ** Instances *)

(** [a] waits for the flags 1 and 2 of the group, then [b] for flag 4. *)
Definition demo_event_wait : kernel :=
  after (dos_event_wait (o_event objs) 3 WAIT_ALL_EVENT 50;; take_pendsv;;
         dos_event_wait (o_event objs) 4 WAIT_ANY_EVENT 50;; take_pendsv) demo.


