(* ===== verification/ObjSpec.v ===== *)
(** * Creation and deletion of kernel objects

    Semaphores, mutexes, queues and event groups are created and deleted in the
    same way: a block from the heap becomes the control block with its pend
    lists, and an object on which no task waits gives its block back.  The
    statements are made once, over the kind of object. *)

From S2P Require Import Prelude TaskList Ring TaskListSpec Mem MemSpec Priority Kernel Sched KernelInv MemInv.
From S2P Require Import SchedSpec IpcSpec FrameSpec LockSpec AllocSpec Sem Mutex Queue Event.
From S2P Require Import SemSpec MutexSpec QueueSpec KernelCheck Boot.

(** ** Kinds of objects *)

Inductive kind : Type := KSem | KMutex | KQueue | KEvent.

Definition owner_of (x : kind) : owner :=
  match x with KSem => OSem | KMutex => OMutex | KQueue => OQueue | KEvent => OEvent end.

Definition pend_lists (x : kind) (r : Z) : list list_ptr :=
  match x with
  | KSem => [SemPendList r]
  | KMutex => [MutexPendList r]
  | KQueue => [QueuePendList r QUEUE_READ; QueuePendList r QUEUE_WRITE]
  | KEvent => [EventPendList r]
  end.

Definition delete_object (x : kind) : Z -> kprog Z :=
  match x with
  | KSem => dos_sem_delete
  | KMutex => dos_mutex_delete
  | KQueue => dos_queue_delete
  | KEvent => dos_event_delete
  end.

Definition uninstall (x : kind) (r : Z) (k : kernel) : kernel :=
  match x with
  | KSem => set_k_sems (delete r (k_sems k)) k
  | KMutex => set_k_mutexes (delete r (k_mutexes k)) k
  | KQueue => set_k_queues (delete r (k_queues k)) k
  | KEvent => set_k_events (delete r (k_events k)) k
  end.

(** What is created. *)
Inductive request : Type :=
| NewSem (cnt max_cnt : Z)
| NewMutex
| NewQueue (len size : Z)
| NewEvent.

Definition kind_of (q : request) : kind :=
  match q with NewSem _ _ => KSem | NewMutex => KMutex | NewQueue _ _ => KQueue | NewEvent => KEvent end.

Definition create_object (q : request) : kprog Z :=
  match q with
  | NewSem cnt max_cnt => dos_sem_create cnt max_cnt
  | NewMutex => dos_mutex_create
  | NewQueue len size => dos_queue_create len size
  | NewEvent => dos_event_create
  end.

(** The parameters of a queue are positive numbers of 16 bits. *)
Definition request_ok (q : request) : Prop :=
  match q with NewQueue len size => 0 < len < 2 ^ 16 /\ 0 < size < 2 ^ 16 | _ => True end.

Definition size_of (q : request) : Z :=
  match q with
  | NewSem _ _ => SIZEOF_SEM
  | NewMutex => SIZEOF_MUTEX
  | NewQueue len size => SIZEOF_QUEUE + len * size
  | NewEvent => SIZEOF_EVENT
  end.

Definition new_queue (r len size : Z) : dos_queue :=
  mk_queue len size (r + SIZEOF_QUEUE) (r + SIZEOF_QUEUE + len * size) 0 len (r + SIZEOF_QUEUE) (r + SIZEOF_QUEUE)
    (repeat 0 (Z.to_nat (len * size))).

Definition install (q : request) (r : Z) (k : kernel) : kernel :=
  match q with
  | NewSem cnt max_cnt => put_sem r (mk_sem cnt max_cnt) k
  | NewMutex => put_mutex r (mk_mutex 0 0 DOS_NULL) k
  | NewQueue len size => put_queue r (new_queue r len size) k
  | NewEvent => put_event r (mk_event 0) k
  end.

(** ** Pend lists of a new object *)

Fixpoint init_lists (ls : list list_ptr) : kprog unit :=
  match ls with [] => mret tt | l :: ls => on_store (dos_task_list_init l);; init_lists ls end.

Definition emptied (ls : list list_ptr) (A : gmap list_ptr (list item_ptr)) : gmap list_ptr (list item_ptr) :=
  foldl (fun A l => <[l := []]> A) A ls.

Lemma init_list_loc l task s p : is_end p = false -> forall B (pr : _ -> B), fld pr (init_list l task s) p = fld pr s p.
Proof. intros Hend B pr. unfold init_list. rewrite fld_put, decide_False; [done|]. by intros ->. Qed.

Lemma tinv_init_list k A lo l task :
  tinv_at k A lo -> is_pend_list l = true -> (A !! l = None \/ A !! l = Some []) ->
  Z.of_nat (size (items (k_store k))) + 1 < 2 ^ 32 ->
  tinv_at (set_k_store (init_list l task (k_store k)) k) (<[l := []]> A) lo.
Proof.
  intros [I1 I2 I3 I4 I5 [S1 S2 S3 S4 S5 S6] I7 I8] Hl HA Hsz.
  assert (Hf : forall p, is_end p = false ->
    loc (init_list l task (k_store k)) p = loc (k_store k) p /\
    item_val (init_list l task (k_store k)) p = item_val (k_store k) p).
  { intros p Hend. unfold loc, item_val. by rewrite !init_list_loc. }
  split; simpl; try done.
  - apply init_list_rep; try done. by intros ->.
  - intros l' Hl'. by apply insert_lookup_is_some, I2.
  - intros p Hend Hp. apply I3; [done|]. rewrite lookup_insert_ne in Hp; [done|]. by intros <-.
  - intros t c HT. destruct (I4 t c HT) as [K1 K2 K3 K4 K5 K6 K7].
    destruct (Hf (StatusItem t) eq_refl) as [L1 L2], (Hf (PendItem t) eq_refl) as [L3 L4].
    split; rewrite ?L1, ?L2, ?L3, ?L4, ?init_list_loc by done; done.
  - eapply bitmap_ok_ext; [done|]. intros i Hi. rewrite lookup_insert_ne; [done|]. by intros ->.
  - split; try done; intros p Hend; destruct (Hf p Hend) as [-> ->]; auto.
Qed.

Lemma emptied_lookup ls A l :
  emptied ls A !! l = if decide (l ∈ ls) then Some [] else A !! l.
Proof.
  revert A. induction ls as [|l' ls IH]; intros A.
  { rewrite decide_False by apply not_elem_of_nil. done. }
  simpl. rewrite IH. destruct (decide (l ∈ ls)) as [H|H]; [rewrite decide_True; [done | by right]|].
  destruct (decide (l = l')) as [->|Hne].
  - rewrite decide_True by left. apply lookup_insert_eq.
  - rewrite decide_False by (by rewrite not_elem_of_cons). by rewrite lookup_insert_ne.
Qed.

Lemma init_lists_run ls : forall k A lo,
  tinv_at k A lo -> Forall (fun l => is_pend_list l = true) ls ->
  Forall (fun l => A !! l = None \/ A !! l = Some []) ls ->
  Z.of_nat (size (items (k_store k))) + Z.of_nat (length ls) < 2 ^ 32 ->
  exists s', init_lists ls k = Done (tt, set_k_store s' k) /\
    tinv_at (set_k_store s' k) (emptied ls A) lo /\
    (forall p, is_end p = false -> loc s' p = loc (k_store k) p).
Proof.
  induction ls as [|l ls IH]; intros k A lo HI Hp He Hsz; simpl.
  { exists (k_store k). by destruct k. }
  apply Forall_cons in Hp as [Hp1 Hp2]. apply Forall_cons in He as [He1 He2].
  destruct (list_init_run l (k_store k)) as [task Hrun]. run_by ltac:(apply on_store_run; exact Hrun).
  pose proof (size_insert_le (put_list l (mk_list (EndItem l) 0) (k_store k)) (EndItem l)
    (mk_item (EndItem l) (EndItem l) 0xFFFFFFFF task l)) as Hsz1. simpl in Hsz1, Hsz.
  destruct (IH (set_k_store (init_list l task (k_store k)) k) (<[l := []]> A) lo) as (s' & Hrun' & HI' & Hloc).
  - apply tinv_init_list; try done. lia.
  - done.
  - eapply Forall_impl; [exact He2|]. intros l' Hl'. destruct (decide (l = l')) as [<-|Hne]; [right; apply lookup_insert_eq|].
    by rewrite lookup_insert_ne.
  - simpl. lia.
  - exists s'. split; [exact Hrun'|]. split; [exact HI'|]. intros p Hend. rewrite Hloc by done. simpl.
    unfold loc. by rewrite init_list_loc.
Qed.

(** ** Creation *)

Lemma size_of_range q : request_ok q -> 0 <= size_of q <= 2 ^ 32 - 4.
Proof. destruct q; simpl; unfold SIZEOF_SEM, SIZEOF_MUTEX, SIZEOF_QUEUE, SIZEOF_EVENT; try lia. nia. Qed.

(** All four creators allocate, fill the control block and initialise the pend
    lists. *)
Lemma create_object_run q k r k1 :
  request_ok q -> dos_mem_alloc (size_of q) k = Done (r, k1) ->
  (r <> DOS_NULL -> 0 < r /\ r + size_of q < 2 ^ 32) ->
  create_object q k = if r =? DOS_NULL then Done (DOS_NULL, k1)
                      else (init_lists (pend_lists (kind_of q) r);; mret r) (install q r k1).
Proof.
  intros Hq Hrun Hr. destruct q as [cnt max_cnt| |len sz|]; simpl in *.
  - unfold dos_sem_create. run_with Hrun. destruct (r =? DOS_NULL); [done|]. kstep. rewrite bind_assoc.
    unfold put_sem, set_k_sems. simpl. by rewrite insert_insert_eq.
  - unfold dos_mutex_create. run_with Hrun. destruct (r =? DOS_NULL); [done|]. kstep. by rewrite bind_assoc.
  - unfold dos_queue_create. destruct Hq as [Hl Hz]. assert (0 < len * sz < 2 ^ 32 - 100) by nia.
    rewrite (proj2 (Z.leb_gt _ _)), (proj2 (Z.leb_gt sz _)) by lia. cbn [orb].
    rewrite (u32_small (len * sz)), (u32_small (SIZEOF_QUEUE + _)) by (unfold SIZEOF_QUEUE; lia). run_with Hrun.
    destruct (Z.eqb_spec r DOS_NULL) as [|Hn]; [done|]. destruct (Hr Hn) as [Hr1 Hr2]. unfold SIZEOF_QUEUE in *.
    rewrite (u32_small (r + 84)), (u32_small (r + 84 + _)), u16_small by lia. kstep. by rewrite !bind_assoc.
  - unfold dos_event_create. run_with Hrun. destruct (r =? DOS_NULL); [done|]. kstep. by rewrite bind_assoc.
Qed.

Lemma install_blocks q r k o i b :
  request_ok q -> block_of (install q r k) o i = Some b ->
  block_of k o i = Some b \/ (o, i, b) = (owner_of (kind_of q), r, (r, size_of q)).
Proof.
  intros Hq. destruct q as [cnt max_cnt| |len sz|]; destruct o; simpl; auto;
    (destruct (decide (r = i)) as [<-|Hne]; [rewrite lookup_insert_eq | by rewrite lookup_insert_ne; auto]).
  - simpl. intros [= <-]. auto.
  - simpl. intros [= <-]. auto.
  - simpl. rewrite repeat_length. intros [= <-]. destruct Hq. rewrite Z2Nat.id by nia. auto.
  - simpl. intros [= <-]. auto.
Qed.

(** Tasks wait for objects that exist. *)
Definition object_exists (k : kernel) (l : list_ptr) : Prop :=
  match l with
  | SemPendList s => is_Some (k_sems k !! s)
  | MutexPendList m => is_Some (k_mutexes k !! m)
  | QueuePendList q op => (op = QUEUE_READ \/ op = QUEUE_WRITE) /\ is_Some (k_queues k !! q)
  | EventPendList e => is_Some (k_events k !! e)
  | _ => True
  end.

#[export] Instance object_exists_dec k l : Decision (object_exists k l).
Proof. destruct l; simpl; apply _. Defined.

Definition waits_exist (k : kernel) (A : gmap list_ptr (list item_ptr)) : Prop :=
  forall l xs, A !! l = Some xs -> xs = [] \/ object_exists k l.

(** How the new object looks through its specification. *)
Definition new_view (q : request) (k : kernel) (A : gmap list_ptr (list item_ptr)) (r : Z) : Prop :=
  match q with
  | NewSem cnt max_cnt => sem_view k A r = Some (mk_asem cnt max_cnt [])
  | NewMutex => mutex_view k A r = Some (mk_amutex 0 0 DOS_NULL [])
  | NewQueue len size => queue_view k r (Z.to_nat len) (Z.to_nat size) (mk_aqueue [] 0 0) /\
      A !! QueuePendList r QUEUE_READ = Some [] /\ A !! QueuePendList r QUEUE_WRITE = Some []
  | NewEvent => k_events k !! r = Some (mk_event 0) /\ A !! EventPendList r = Some []
  end.

Lemma pend_lists_pend x r : Forall (fun l => is_pend_list l = true) (pend_lists x r).
Proof. destruct x; repeat constructor. Qed.

Lemma pend_lists_length x r : (length (pend_lists x r) <= 2)%nat.
Proof. destruct x; simpl; lia. Qed.

(** No task waits on the lists of an object that does not exist. *)
Lemma unowned_lists q k A r :
  waits_exist k A -> unowned k r ->
  Forall (fun l => A !! l = None \/ A !! l = Some []) (pend_lists (kind_of q) r).
Proof.
  intros Hw Hu. apply Forall_forall. intros l Hl. destruct (A !! l) as [xs|] eqn:E; [right|by left].
  destruct (Hw l xs E) as [->|Hx]; [done|]. exfalso.
  pose proof (fun o n => Hu o r n) as Hu'. clear Hu. destruct q; simpl in Hl;
    repeat (apply elem_of_cons in Hl as [->|Hl]); try (by apply elem_of_nil in Hl); simpl in Hx;
    try (destruct Hx as [_ Hx]); destruct Hx as [v Hv].
  - apply (Hu' OSem SIZEOF_SEM). simpl. by rewrite Hv.
  - apply (Hu' OMutex SIZEOF_MUTEX). simpl. by rewrite Hv.
  - eapply (Hu' OQueue). simpl. by rewrite Hv.
  - eapply (Hu' OQueue). simpl. by rewrite Hv.
  - apply (Hu' OEvent SIZEOF_EVENT). simpl. by rewrite Hv.
Qed.

Lemma install_view q r k k' A :
  request_ok q -> 0 < r -> r + size_of q < 2 ^ 32 -> same_others (install q r k) k' ->
  (forall l, l ∈ pend_lists (kind_of q) r -> A !! l = Some []) -> new_view q k' A r.
Proof.
  intros Hq Hr Hb [E1 E2 E3 E4 _ _ _] HA. destruct q as [cnt max_cnt| |len sz|]; simpl in *.
  - unfold sem_view, waiters. rewrite E1, lookup_insert_eq, HA by left. done.
  - unfold mutex_view, waiters. rewrite E2, lookup_insert_eq, HA by left. done.
  - split; [|split; apply HA; [left | right; left]]. destruct Hq as [Hl Hz]. unfold SIZEOF_QUEUE in *.
    exists (new_queue r len sz), 0%nat. split; [rewrite E3; apply lookup_insert_eq|].
    split; [|simpl; lia]. split; simpl; unfold SIZEOF_QUEUE; try lia; try done.
    + by rewrite repeat_length, Z2Nat.inj_mul by lia.
    + unfold slot. destruct (Nat.ltb_spec (0 + 0) (Z.to_nat len)); simpl; lia.
  - split; [rewrite E4; apply lookup_insert_eq | apply HA; left].
Qed.

Lemma same_others_trans k1 k2 k3 : same_others k1 k2 -> same_others k2 k3 -> same_others k1 k3.
Proof. intros [] []. split; congruence. Qed.

Lemma install_others q r k k' : same_others k k' -> same_others (install q r k) (install q r k').
Proof. intros []. destruct q; split; simpl; congruence. Qed.

Lemma same_others_exists k k' l : same_others k k' -> object_exists k' l <-> object_exists k l.
Proof. intros [E1 E2 E3 E4 _ _ _]. destruct l; simpl; rewrite ?E1, ?E2, ?E3, ?E4; done. Qed.

Lemma install_exists q r k l : object_exists k l -> object_exists (install q r k) l.
Proof.
  destruct q, l; simpl; try done; try (intros [? H]; split; [done|]; revert H);
    intros H; apply lookup_insert_is_Some'; auto.
Qed.

(** C14: Creation of a semaphore, a mutex, a queue or an event group.  For a request
    in range ([request_ok]: the length and the message size of a queue are positive
    numbers of 16 bits), with a scheduler lock count below 255, fewer than 2^32 - 2
    list items, no task that waits for an object that does not exist, and a heap in
    which the request meets no tight fit (a free block larger than the request by at
    most a header; the code breaks the heap there): the call ends, keeps the kernel invariant and the memory invariant, and the tasks change
    in nothing but the time slice.  When it returns null, objects, lists and
    blocks in use are as before.  Otherwise the object has a block of its own that
    belonged to no object, no task waits for it, it looks through its specification
    as it was requested (the count and the maximum, free, empty, no flag), and all
    other objects and lists are as before. *)
Theorem object_create_ok q k A bs :
  let s := DOS_ALIGN (size_of q) DOS_ALIGN_SIZE in
  kinv k A -> mem_inv k bs -> waits_exist k A -> 0 <= lock_count k < 255 -> request_ok q ->
  no_tight_fit s bs -> Z.of_nat (size (items (k_store k))) + 2 < 2 ^ 32 ->
  exists r k' A' bs', create_object q k = Done (r, k') /\ kinv k' A' /\ mem_inv k' bs' /\ waits_exist k' A' /\
    (forall t c, k_tcbs k !! t = Some c -> exists m, k_tcbs k' !! t = Some (set_task_tick m c)) /\
    if decide (r = DOS_NULL) then A' = A /\ bs' = bs /\ k_heap k' = k_heap k /\ same_others k k'
    else unowned k r /\ used_blocks (k_heap k') bs' ≡ₚ (r, s) :: used_blocks (k_heap k) bs /\
      same_others (install q r k) k' /\ new_view q k' A' r /\
      (forall l, l ∉ pend_lists (kind_of q) r -> A' !! l = A !! l).
Proof.
  intros s HI HM Hw Hl Hq Ht Hsz.
  destruct (alloc_step k A bs (size_of q) HI HM Hl (size_of_range q Hq) Ht)
    as (r & k1 & Hrun & HI1 & Hs & _ & Hst & Ho & HT & Hb & R). fold s in Hs, R.
  assert (Hr : r <> DOS_NULL -> 0 < r /\ r + size_of q < 2 ^ 32).
  { intros Hn. rewrite decide_False in R by done. destruct R as (_ & R1 & R2 & _). lia. }
  rewrite (create_object_run q k r k1 Hq Hrun Hr). destruct (Z.eqb_spec r DOS_NULL) as [->|Hn].
  - rewrite decide_True in R by done. destruct R as [Hh HM1]. exists DOS_NULL, k1, A, bs.
    rewrite decide_True by done. split_and!; try done. intros l xs HA. destruct (Hw l xs HA); [by left | right].
    by apply (same_others_exists k k1).
  - rewrite decide_False in R by done. destruct R as (Hu & R1 & R2 & bs1 & sz & HM1 & _ & Hin & _ & Hp).
    destruct (Hr Hn) as [Hr1 Hr2]. set (k2 := install q r k1). set (ls := pend_lists (kind_of q) r).
    assert (HI2 : kinv k2 A) by (by destruct q).
    assert (Hst2 : k_store k2 = k_store k) by (rewrite <- Hst; by destruct q).
    destruct (init_lists_run ls k2 A (dos_tick_count (k_task k2)) HI2) as (s' & Hrun2 & HI3 & Hloc).
    { apply pend_lists_pend. } { by apply (unowned_lists q k A r). }
    { rewrite Hst2. pose proof (pend_lists_length (kind_of q) r). unfold ls. lia. }
    set (k3 := set_k_store s' k2). exists r, k3, (emptied ls A), bs1. rewrite decide_False by done.
    assert (Ho3 : same_others (install q r k) k3).
    { apply (same_others_trans _ k2); [by apply install_others | by destruct q]. }
    assert (Hlk : forall l, l ∉ ls -> emptied ls A !! l = A !! l) by (intros l Hnl; by rewrite emptied_lookup, decide_False).
    split_and!; try done.
    + by run_with Hrun2.
    + apply (mem_inv_own k1 bs1 k3 (owner_of (kind_of q)) r r (size_of q) s); try done.
      * by destruct q.
      * intros o i n. rewrite Hb. apply Hu.
      * intros o i b Hb3. apply (install_blocks q r k1 o i b Hq). fold k2. rewrite <- Hb3.
        destruct o; try done; simpl; unfold used_task, in_use; simpl; rewrite Hloc by done; done.
    + intros l xs. rewrite emptied_lookup. case_decide; [intros [= <-]; by left|]. intros HA.
      destruct (Hw l xs HA) as [|Hx]; [by left | right].
      apply (same_others_exists (install q r k)); [done|]. by apply install_exists.
    + intros t c HTt. destruct (HT t c HTt) as [m HT1]. exists m. by destruct q.
    + by destruct q.
    + apply (install_view q r k); try done. intros l Hin'. by rewrite emptied_lookup, decide_True.
Qed.

Definition waits_check (k : kernel) (A : gmap list_ptr (list item_ptr)) : bool :=
  bool_decide (map_Forall (fun l xs => xs = [] \/ object_exists k l) A).

Lemma demo_waits_exist : waits_exist demo (lists_of demo).
Proof.
  assert (H : waits_check demo (lists_of demo) = true) by by_eval.
  apply bool_decide_eq_true in H. exact H.
Qed.

Lemma object_create_ok_witness :
  exists r k' A' bs', create_object (NewSem 2 5) demo = Done (r, k') /\ kinv k' A' /\ mem_inv k' bs'.
Proof.
  assert (H1 : 0 <= lock_count demo < 255) by (assert (lock_count demo = 0) as -> by by_eval; lia).
  assert (H2 : fit_check (DOS_ALIGN (size_of (NewSem 2 5)) DOS_ALIGN_SIZE) (blocks_of (k_heap demo)) = true) by by_eval.
  assert (H3 : (Z.of_nat (size (items (k_store demo))) + 2 <? 2 ^ 32) = true) by by_eval.
  destruct (object_create_ok (NewSem 2 5) demo (lists_of demo) (blocks_of (k_heap demo)) demo_inv demo_mem_inv
    demo_waits_exist H1 I (fit_check_sound _ _ H2) (proj1 (Z.ltb_lt _ _) H3))
    as (r & k' & A' & bs' & Hrun & HI & HM & _).
  exists r, k', A', bs'. exact (conj Hrun (conj HI HM)).
Defined.

(** ** Deletion *)

Lemma owned_not_null k bs o i a n : mem_inv k bs -> block_of k o i = Some (a, n) -> a <> DOS_NULL.
Proof.
  intros HM Hb. destruct (mi_block _ _ HM _ _ _ _ Hb) as (z & Hin & _). pose proof (mi_heap _ _ HM) as Hr.
  pose proof (used_at_range _ _ _ _ (hr_blks _ _ Hr) Hin) as (H & _). pose proof (hr_begin _ _ Hr).
  rewrite (hr_head _ _ Hr) in H. unfold DOS_NULL, MEM_INFO_SIZE, MEM_NODE_SIZE in *. lia.
Qed.

Lemma is_empty_call k A l xs {R} (f : bool -> kprog R) :
  store_rep (k_store k) A -> A !! l = Some xs ->
  (on_store (dos_task_list_is_empty l) ≫= f) k = f (bool_decide (xs = [])) k.
Proof.
  intros HS HA. run_by ltac:(apply on_store_run; exact (list_is_empty_run _ _ _ _ HS HA)). by destruct k.
Qed.

(** All four deletions refuse when a task waits, and give the block back otherwise. *)
Lemma delete_object_run x r k A :
  store_rep (k_store k) A -> r <> DOS_NULL -> (forall l, l ∈ pend_lists x r -> is_Some (A !! l)) ->
  delete_object x r k =
    if decide (Forall (fun l => A !! l = Some []) (pend_lists x r))
    then (dos_mem_free r;; mret DOS_OK) (uninstall x r k) else Done (DOS_NOK, k).
Proof.
  intros HS Hr HL.
  assert (Hcase : forall xs : list item_ptr, bool_decide (xs = []) = match xs with [] => true | _ => false end) by (by intros []).
  destruct x; simpl; unfold dos_sem_delete, dos_mutex_delete, dos_queue_delete, dos_event_delete;
    rewrite (proj2 (Z.eqb_neq _ _) Hr); cbn [negb].
  1, 2, 4: (edestruct HL as [xs HA]; [left|]; rewrite (is_empty_call k A _ xs) by done; rewrite Hcase;
    destruct xs; [rewrite decide_True; [by kstep | by repeat constructor]
                 | rewrite decide_False; [done | intros [H _]%Forall_cons; simpl in H; congruence]]).
  destruct (HL (QueuePendList r QUEUE_READ)) as [xs HA]; [left|].
  destruct (HL (QueuePendList r QUEUE_WRITE)) as [ys HB]; [right; left|].
  rewrite (is_empty_call k A _ xs), Hcase by done. destruct xs.
  - rewrite (is_empty_call k A _ ys), Hcase by done. destruct ys.
    + rewrite decide_True; [by kstep | by repeat constructor].
    + rewrite decide_False; [done|]. rewrite !Forall_cons. intros (_ & H & _). congruence.
  - rewrite decide_False; [done|]. rewrite !Forall_cons. intros (H & _). congruence.
Qed.

Lemma uninstall_blocks x r k o i :
  block_of (uninstall x r k) o i = if decide ((o, i) = (owner_of x, r)) then None else block_of k o i.
Proof.
  destruct (decide ((o, i) = (owner_of x, r))) as [[= -> ->]|Hne].
  - destruct x; simpl; by rewrite lookup_delete_eq.
  - destruct x, o; simpl in *; try done; rewrite lookup_delete_ne; done || congruence.
Qed.

Lemma uninstall_exists x r k l : l ∉ pend_lists x r -> object_exists k l -> object_exists (uninstall x r k) l.
Proof.
  intros Hl. destruct x, l; simpl in *; try done.
  - rewrite lookup_delete_ne; [done|]. intros <-. apply Hl. left.
  - rewrite lookup_delete_ne; [done|]. intros <-. apply Hl. left.
  - intros [Hop Hq]. split; [done|]. rewrite lookup_delete_ne; [done|]. intros <-. apply Hl.
    destruct Hop as [-> | ->]; [left | right; left].
  - rewrite lookup_delete_ne; [done|]. intros <-. apply Hl. left.
Qed.

(** C15: Deletion of a semaphore, a mutex, a queue or an event group.  While a task
    waits for the object the call is refused and nothing changes.  Otherwise the
    object is gone, its block is free, the blocks of all other objects are as
    before, no list and no task changed, and the invariants hold. *)
Theorem object_delete_ok x r n k A bs :
  kinv k A -> mem_inv k bs -> waits_exist k A -> block_of k (owner_of x) r = Some (r, n) ->
  (forall l, l ∈ pend_lists x r -> is_Some (A !! l)) ->
  exists res k', delete_object x r k = Done (res, k') /\
    if decide (Forall (fun l => A !! l = Some []) (pend_lists x r))
    then res = DOS_OK /\ exists bs' z, kinv k' A /\ mem_inv k' bs' /\ waits_exist k' A /\
      n <= z /\ used_blocks (k_heap k) bs ≡ₚ (r, z) :: used_blocks (k_heap k') bs' /\
      block_of k' (owner_of x) r = None /\
      (forall o i, (o, i) <> (owner_of x, r) -> block_of k' o i = block_of k o i) /\
      same_others (uninstall x r k) k' /\ k_tcbs k' = k_tcbs k /\ k_store k' = k_store k
    else res = DOS_NOK /\ k' = k.
Proof.
  intros HI HM Hw Hb HL. pose proof (owned_not_null _ _ _ _ _ _ HM Hb) as Hr.
  rewrite (delete_object_run x r k A (ti_store _ _ _ _ _ HI) Hr HL). destruct (decide _) as [He|He]; [|by eauto].
  set (k1 := uninstall x r k). assert (Hh : k_heap k1 = k_heap k) by (by destruct x).
  assert (HM1 : mem_inv k1 bs).
  { eapply mem_inv_drop; [done | done|]. intros o i b. unfold k1. rewrite uninstall_blocks. by case_decide. }
  assert (Hu : unowned k1 r).
  { intros o i m Hb1. unfold k1 in Hb1. rewrite uninstall_blocks in Hb1. case_decide as E; [done|]. apply E.
    by apply (mi_alone _ _ HM _ _ _ _ r m n). }
  destruct (mi_block _ _ HM _ _ _ _ Hb) as (z & Hin & Hz). rewrite <- Hh in Hin.
  destruct (mem_inv_release k1 bs r z HM1 Hin Hu) as (h & bs' & Hrun & HM' & Hp). rewrite Hh in Hp.
  assert (Hrun' : dos_mem_free r k1 = Done (DOS_OK, set_k_heap h k1)) by (by apply zoom_done).
  run_with Hrun'. eexists _, _. split; [done|]. split; [done|]. exists bs', z. split_and!; try done.
  - by destruct x.
  - intros l xs HA. destruct (decide (l ∈ pend_lists x r)) as [Hin'|Hn].
    + left. rewrite Forall_forall in He. specialize (He l Hin'). congruence.
    + destruct (Hw l xs HA) as [|Hx]; [by left | right].
      apply (same_others_exists k1); [done|]. by apply uninstall_exists.
  - change (block_of k1 (owner_of x) r = None). unfold k1. by rewrite uninstall_blocks, decide_True.
  - intros o i Hne. change (block_of k1 o i = block_of k o i). unfold k1. by rewrite uninstall_blocks, decide_False.
  - by destruct x.
  - by destruct x.
Qed.

Lemma object_delete_ok_witness :
  exists res k', delete_object KSem (o_sem objs) demo = Done (res, k').
Proof.
  assert (H1 : block_of demo (owner_of KSem) (o_sem objs) = Some (o_sem objs, SIZEOF_SEM)) by by_eval.
  assert (H2 : forall l, l ∈ pend_lists KSem (o_sem objs) -> is_Some (lists_of demo !! l)).
  { intros l ->%list_elem_of_singleton. apply is_some_check. by_eval. }
  destruct (object_delete_ok KSem (o_sem objs) SIZEOF_SEM demo (lists_of demo) (blocks_of (k_heap demo)) demo_inv
    demo_mem_inv demo_waits_exist H1 H2) as (res & k' & Hrun & _).
  exists res, k'. exact Hrun.
Defined.
