(* ===== verification/SysArchSpec.v ===== *)
(** * Mailboxes of the lwIP system layer

    A mailbox is a queue of pointers, each stored as four bytes.  The calls that
    do not block refine a bounded first-in first-out list of pointers, for every
    sequence of them. *)

From S2P Require Import Prelude TaskList TaskListSpec Mem Priority Kernel Sched KernelInv Task Sem Mutex Queue Swtmr.
From S2P Require Import Fifo SysArch SchedSpec IpcSpec FrameSpec QueueSpec KernelCheck Boot.

(** ** Pointers as bytes *)

Lemma le32_length x : length (le32 x) = 4%nat.
Proof. done. Qed.

Lemma of_le32_le32 x : 0 <= x < 2 ^ 32 -> of_le32 (le32 x) = x.
Proof.
  intros Hx. unfold of_le32, le32, u8. rewrite !Z.shiftr_div_pow2, !Z.shiftl_mul_pow2 by lia.
  change (2 ^ 8) with 256 in *. change (2 ^ 16) with (256 * 256). change (2 ^ 24) with (256 * 256 * 256).
  rewrite <- !Z.div_div by lia. pose proof (Z.div_mod x 256 ltac:(lia)) as E1.
  pose proof (Z.div_mod (x / 256) 256 ltac:(lia)) as E2. pose proof (Z.div_mod (x / 256 / 256) 256 ltac:(lia)) as E3.
  assert (Hs : x / 256 / 256 / 256 < 256) by (rewrite !Z.div_div by lia; apply Z.div_lt_upper_bound; lia).
  assert (H0 : 0 <= x / 256 / 256 / 256) by (repeat apply Z.div_pos; lia).
  rewrite (Z.mod_small (x / 256 / 256 / 256)) by lia. lia.
Qed.

(** ** The specification *)

Inductive mbox_op : Type :=
| MPost (msg : Z)
| MFetch (old : Z).

(** The result of a call, with the pointer the caller's cell holds behind it. *)
Definition abox_step (n : nat) (op : mbox_op) (ps : list Z) : (Z * Z) * list Z :=
  match op with
  | MPost p => if (length ps <? n)%nat then ((ERR_OK, p), ps ++ [p]) else ((ERR_MEM, p), ps)
  | MFetch old => match ps with [] => ((SYS_MBOX_EMPTY, old), []) | p :: ps => ((ERR_OK, p), ps) end
  end.

Fixpoint abox_run (n : nat) (ops : list mbox_op) (ps : list Z) : list (Z * Z) * list Z :=
  match ops with
  | [] => ([], ps)
  | op :: ops => let '(r, ps1) := abox_step n op ps in let '(rs, ps2) := abox_run n ops ps1 in (r :: rs, ps2)
  end.

(** ** The calls *)

Definition mbox_call (q : Z) (op : mbox_op) : kprog (call (Z * Z)) :=
  match op with
  | MPost p => c ← sys_mbox_trypost q p; after_call c (fun r => mret (Return (r, p)))
  | MFetch old => sys_arch_mbox_tryfetch q old
  end.

Fixpoint mbox_run (q : Z) (ops : list mbox_op) : kprog (list (Z * Z)) :=
  match ops with
  | [] => mret []
  | op :: ops => c ← mbox_call q op;
      match c with
      | Return r => rs ← mbox_run q ops; mret (r :: rs)
      | Suspend _ => fault
      end
  end.

Definition op_ok (op : mbox_op) : Prop := match op with MPost p | MFetch p => 0 <= p < 2 ^ 32 end.

(** The mailbox holds the pointers [ps], and no task waits for it. *)
Record mbox_rep (q : Z) (n : nat) (ps : list Z) (k : kernel) (A : gmap list_ptr (list item_ptr)) : Prop := {
  mb_kinv : kinv k A;
  mb_view : queue_view k q n 4 (mk_aqueue (le32 <$> ps) 0 0);
  mb_ptrs : Forall (fun p => 0 <= p < 2 ^ 32) ps;
  mb_read : A !! QueuePendList q QUEUE_READ = Some [];
  mb_write : A !! QueuePendList q QUEUE_WRITE = Some []
}.

Lemma queue_list_kept k A k' A' q op op' lo :
  kinv k A -> transferred q op [] lo k A k' A' -> A !! QueuePendList q op' = Some [] ->
  is_Some (A' !! QueuePendList q op') -> A' !! QueuePendList q op' = Some [].
Proof.
  intros HI Htr HA [ys HA']. rewrite HA'. f_equal. destruct ys as [|y ys]; [done|].
  destruct (store_rep_in _ _ y _ _ (ti_store _ _ _ _ _ (tr_tinv _ _ _ _ _ _ _ _ Htr)) HA') as [Hend Hl]; [left|].
  pose proof (tr_loc _ _ _ _ _ _ _ _ Htr y) as E. unfold loc in E. rewrite E in Hl by apply not_elem_of_nil.
  destruct (sr_owner _ _ (ti_store _ _ _ _ _ HI) y _ Hend Hl) as (xs & HA2 & Hin); [done|].
  rewrite HA in HA2. injection HA2 as <-. by apply elem_of_nil in Hin.
Qed.

Lemma transferred_mbox q n ps ps' op k A k' A' :
  mbox_rep q n ps k A -> transferred q op [] (dos_tick_count (k_task k)) k A k' A' ->
  queue_view k' q n 4 (mk_aqueue (le32 <$> ps') 0 0) -> Forall (fun p => 0 <= p < 2 ^ 32) ps' -> mbox_rep q n ps' k' A'.
Proof.
  intros [M1 M2 M3 M4 M5] Htr Hv Hp. pose proof (tr_frame _ _ _ _ _ _ _ _ Htr) as F.
  split; [by eapply transferred_kinv | done | done | |];
    (eapply queue_list_kept; [done | exact Htr | done |]; apply (fr_dom _ _ _ _ _ _ F); [done | by eauto]).
Qed.

(** What the counters of the queue say. *)
Lemma mbox_counts q n ps k A :
  mbox_rep q n ps k A -> exists v, k_queues k !! q = Some v /\ (length ps <= n)%nat /\
    queue_rw_count QUEUE_READ v = Z.of_nat (length ps) /\ queue_rw_count QUEUE_WRITE v = Z.of_nat (n - length ps).
Proof.
  intros [_ (v & r & Hv & Hrep & Hr & Hw & _) _ _ _]. exists v. cbn [aq_msgs aq_readers aq_writers] in *.
  rewrite length_fmap in *. pose proof (qr_count _ _ _ _ _ Hrep) as Hc. rewrite length_fmap in Hc.
  unfold queue_rw_count. simpl in *. split_and!; [done | done | lia | lia].
Qed.

Lemma mbox_call_refines q n op ps k A :
  q <> DOS_NULL -> op_ok op -> mbox_rep q n ps k A ->
  exists k' A', mbox_call q op k = Done (Return (abox_step n op ps).1, k') /\ mbox_rep q n (abox_step n op ps).2 k' A'.
Proof.
  intros Hq Hop HB. destruct (mbox_counts _ _ _ _ _ HB) as (v & Hv & Hlen & Hrc & Hwc).
  pose proof HB as [M1 M2 M3 M4 M5]. destruct op as [p|old]; simpl in *.
  - unfold sys_mbox_trypost. rewrite !bind_assoc. destruct (Nat.ltb_spec (length ps) n) as [Hlt|Hge]; simpl.
    + destruct (queue_write_fifo_lo k A _ q n 4 (mk_aqueue (le32 <$> ps) 0 0) (le32 p) SIZEOF_PTR 0 [] M1 Hq M2)
        as (k' & A' & m & Hrun & Hm & Hv' & Htr); try done; [simpl; rewrite length_fmap; lia|].
      run_with Hrun. exists k', A'. split; [done|]. simpl in Hm, Hv'.
      assert (m = le32 p) as ->.
      { destruct Hv' as (v' & r' & _ & Hrep' & _). simpl in Hrep'.
        destruct (qr_msgs _ _ _ _ _ Hrep' (length (le32 <$> ps)) m) as [Hl _];
          [by rewrite lookup_app_r, Nat.sub_diag by lia|].
        rewrite <- (firstn_all m), Hl. exact Hm. }
      eapply transferred_mbox; [done | exact Htr | by rewrite fmap_app | by apply Forall_app_2; [|constructor]].
    + assert (Hrun : dos_queue_write q (Some (le32 p)) SIZEOF_PTR 0 k = Done (Return (DOS_NOK, le32 p), k)).
      { apply (queue_try_fail k q v); try done; [by right|]. rewrite Hwc. replace (n - length ps)%nat with 0%nat by lia. done. }
      run_with Hrun. by exists k, A.
  - unfold sys_arch_mbox_tryfetch. destruct ps as [|p ps]; simpl.
    + assert (Hrun : dos_queue_read q (Some (le32 old)) SIZEOF_PTR 0 k = Done (Return (DOS_NOK, le32 old), k)).
      { apply (queue_try_fail k q v); try done. by left. }
      run_with Hrun. exists k, A. split; [|done].
      unfold after_call. cbn [fst snd]. by rewrite (of_le32_le32 old Hop : of_le32 (take 4 (le32 old)) = old).
    + apply Forall_cons in M3 as [Hp M3].
      destruct (queue_read_run k A q n 4 (le32 p) (fmap (M := list) le32 ps) 0 0 (le32 old) SIZEOF_PTR 0 [] M1 Hq M2)
        as (k' & A' & Hrun & HI' & Hv' & Htr); try done; [lia|].
      run_with Hrun. exists k', A'. split; [|by eapply transferred_mbox].
      unfold after_call. cbn [fst snd].
      by rewrite (of_le32_le32 p Hp : of_le32 (take 4 (take (Z.to_nat (Z.min SIZEOF_PTR (Z.of_nat 4))) (le32 p) ++
        drop (Z.to_nat (Z.min SIZEOF_PTR (Z.of_nat 4))) (le32 old))) = p).
Qed.

(** C23: A mailbox of the lwIP system layer is a bounded first-in first-out list of
    pointers.  For every sequence of [sys_mbox_trypost] and [sys_arch_mbox_tryfetch]
    calls on a mailbox of [n] entries for which no task waits, the calls run to their
    end without blocking and return what the list of pointers says: a post succeeds
    exactly when there is room, a fetch gives the oldest pointer, and leaves the
    caller's cell alone when there is none.  The kernel invariant is kept. *)
Theorem mbox_refines q n ops ps k A :
  q <> DOS_NULL -> Forall op_ok ops -> mbox_rep q n ps k A ->
  exists k' A', mbox_run q ops k = Done ((abox_run n ops ps).1, k') /\ mbox_rep q n (abox_run n ops ps).2 k' A'.
Proof.
  intros Hq Hops. revert ps k A. induction Hops as [|op ops Hop _ IH]; intros ps k A HB; simpl; [by exists k, A|].
  destruct (mbox_call_refines q n op ps k A Hq Hop HB) as (k1 & A1 & Hrun & HB1). run_with Hrun.
  destruct (abox_step n op ps) as [r ps1]. simpl in HB1 |- *. destruct (IH ps1 k1 A1 HB1) as (k2 & A2 & Hrun2 & HB2).
  run_with Hrun2. destruct (abox_run n ops ps1) as [rs ps2]. by exists k2, A2.
Qed.

Lemma mbox_refines_witness :
  exists k', mbox_run (o_queue objs) [MFetch 9; MPost 0x20000100; MPost 7; MPost 8; MPost 10; MFetch 0; MFetch 0] demo =
    Done ([(SYS_MBOX_EMPTY, 9); (ERR_OK, 0x20000100); (ERR_OK, 7); (ERR_OK, 8); (ERR_MEM, 10); (ERR_OK, 0x20000100); (ERR_OK, 7)], k').
Proof.
  assert (H1 : o_queue objs <> DOS_NULL) by discriminate.
  assert (H2 : mbox_rep (o_queue objs) 3 [] demo (lists_of demo)).
  { split; [exact demo_inv | apply (view_check_sound _ _ _ _ 0); by_eval | constructor | by_eval | by_eval]. }
  assert (H3 : Forall op_ok [MFetch 9; MPost 0x20000100; MPost 7; MPost 8; MPost 10; MFetch 0; MFetch 0])
    by (repeat constructor; lia).
  destruct (mbox_refines (o_queue objs) 3 _ [] demo (lists_of demo) H1 H3 H2) as (k' & A' & Hrun & _).
  exists k'. exact Hrun.
Defined.
