(* ===== verification/TickSpec.v ===== *)
(** * The tick wakes each sleeping task at its time

    [dos_tick_update] makes a sleeping task ready at exactly the tick its
    wake-up time names, whether or not the tick counter wraps in between, and
    keeps the kernel invariant. *)

From S2P Require Import Prelude TaskList Ring TaskListSpec Mem Priority Kernel Sched KernelInv.
From S2P Require Import SchedSpec Sem IpcSpec FrameSpec Queue QueueSpec Swtmr Tick.

(** ** One task *)

(** A task whose wake-up time has come: ready again, and marked when it was
    waiting for a kernel object. *)
Definition expired (c : dos_task_cb) : dos_task_cb :=
  let c1 := DOS_RESET_TASK_STATUS DOS_TASK_STATUS_DELAY c in
  DOS_SET_TASK_STATUS DOS_TASK_STATUS_READY
    (if suspended c then DOS_SET_TASK_STATUS DOS_TASK_STATUS_TIMEOUT c1 else c1).

Lemma expired_tick n n' c :
  set_task_tick n (expired (set_task_tick n' c)) = set_task_tick n (expired c).
Proof.
  unfold expired. change (suspended (set_task_tick n' c)) with (suspended c).
  by destruct (suspended c).
Qed.

Lemma expired_flags c :
  ready (expired c) = true /\ delayed (expired c) = false /\
  suspended (expired c) = suspended c /\
  timed_out (expired c) = timed_out c || suspended c /\ priority (expired c) = priority c.
Proof.
  unfold expired. set (c1 := DOS_RESET_TASK_STATUS DOS_TASK_STATUS_DELAY c).
  destruct (status_flags_reset DOS_TASK_STATUS_DELAY c) as (F1 & F2 & F3 & F4). fold c1 in F1, F2, F3, F4.
  set (c2 := if suspended c then _ else c1).
  assert (G : delayed c2 = delayed c1 /\ suspended c2 = suspended c1 /\
              timed_out c2 = timed_out c1 || suspended c /\ priority c2 = priority c).
  { unfold c2. destruct (suspended c); [|by rewrite orb_false_r].
    destruct (status_flags_set DOS_TASK_STATUS_TIMEOUT c1) as (_ & -> & -> & ->). simpl.
    by rewrite !orb_false_r. }
  destruct G as (G2 & G3 & G4 & G5).
  destruct (status_flags_set DOS_TASK_STATUS_READY c2) as (-> & -> & -> & ->). simpl in *.
  rewrite G2, G3, G4, F2, F3, F4. by rewrite !andb_false_r, !andb_true_r, !orb_false_r, orb_true_r.
Qed.

Definition expired_lists (val : item_ptr -> Z) (t prio : Z) (A : gmap list_ptr (list item_ptr)) :
    gmap list_ptr (list item_ptr) :=
  let A1 := remove_item (StatusItem t) <$> A in
  <[PriorityList prio :=
      insert_sorted val (StatusItem t) (default [] (A1 !! PriorityList prio))]> A1.

Lemma expire_task_run k A lo t c sl :
  tinv_at k A lo -> k_tcbs k !! t = Some c ->
  is_sleep_list sl = true -> loc (k_store k) (StatusItem t) = Some sl ->
  exists s', expire_task t k = Done (tt, set_k_store s' (put_task t (expired c)
        (assign_dos_task_priority
          (Z.lor (dos_task_priority (k_task k)) (priority_bit (priority c))) k))) /\
    store_rep s' (expired_lists (item_val (k_store k)) t (priority c) A) /\
    same_data (k_store k) s' /\
    (forall q, loc s' q = if decide (q = StatusItem t) then Some (PriorityList (priority c))
                          else loc (k_store k) q).
Proof.
  intros HI HT Hsl Hloc. pose proof (ti_task _ _ _ _ _ HI _ _ HT) as HK.
  destruct (store_del_any _ _ (StatusItem t) sl (ti_store _ _ _ _ _ HI) eq_refl Hloc)
    as (n & s1 & Hrun1 & HS1 & Hsd1 & Hl1 & _).
  set (A1 := remove_item (StatusItem t) <$> A) in *.
  set (c1 := DOS_RESET_TASK_STATUS DOS_TASK_STATUS_DELAY c).
  set (c2 := if suspended c then DOS_SET_TASK_STATUS DOS_TASK_STATUS_TIMEOUT c1 else c1).
  assert (Hp2 : priority c2 = priority c) by (unfold c2; by case_match).
  set (k2 := put_task t c2 (set_k_store s1 k)).
  destruct (ti_lists _ _ _ _ _ HI (PriorityList (priority c)) (tk_priority _ _ _ HK)) as [ys HA].
  assert (HA1 : A1 !! PriorityList (priority c) = Some (remove_item (StatusItem t) ys))
    by (unfold A1; by rewrite lookup_fmap, HA).
  destruct (insert_ready_run k2 A1 t c2 (remove_item (StatusItem t) ys) HS1)
    as (s2 & Hrun2 & HS2 & Hsd2 & Hl2).
  { apply lookup_insert_eq. } { simpl. by rewrite Hl1, decide_True. }
  { simpl. rewrite (item_val_same _ _ _ Hsd1). apply HK. } { by rewrite Hp2. }
  rewrite Hp2 in *. exists s2. split_and!.
  - unfold expire_task. run_by ltac:(apply on_store_run; exact Hrun1).
    run_by ltac:(apply upd_task_run; exact HT).
    run_by ltac:(apply task_at_run; apply lookup_insert_eq).
    fold (suspended (DOS_RESET_TASK_STATUS DOS_TASK_STATUS_DELAY c)).
    destruct (status_flags_reset DOS_TASK_STATUS_DELAY c) as (_ & _ & -> & _).
    simpl andb. rewrite andb_true_r. fold c1.
    assert (Hin : (if suspended c
       then upd_task t (DOS_SET_TASK_STATUS DOS_TASK_STATUS_TIMEOUT) else mret tt)
       (put_task t c1 (set_k_store s1 k)) = Done (tt, k2)).
    { unfold k2, c2. destruct (suspended c); [|done].
      rewrite (upd_task_run _ _ _ c1); [by rewrite put_task_twice | apply lookup_insert_eq]. }
    run_with Hin. rewrite Hrun2. unfold k2, expired. do 2 f_equal.
    unfold put_task, set_k_tcbs, assign_dos_task_priority, set_k_task, set_k_store. simpl.
    by rewrite insert_insert_eq.
  - unfold expired_lists. fold A1. rewrite HA1. simpl.
    rewrite (insert_sorted_ext _ (item_val (k_store k2))); [done|].
    intros q _. simpl. symmetry. by apply item_val_same.
  - by etrans.
  - intros q. rewrite Hl2. case_decide; [done|]. simpl. by rewrite Hl1, decide_False.
Qed.

(** The invariant survives the expiry of one task. *)
Lemma expire_task_spec k A lo t c sl :
  tinv_at k A lo -> k_tcbs k !! t = Some c ->
  is_sleep_list sl = true -> loc (k_store k) (StatusItem t) = Some sl ->
  exists k', expire_task t k = Done (tt, k') /\
    tinv_at k' (expired_lists (item_val (k_store k)) t (priority c) A) lo /\
    k_tcbs k' = <[t := expired c]> (k_tcbs k) /\
    k_task k' = with_bitmap (Z.lor (dos_task_priority (k_task k)) (priority_bit (priority c)))
                  (k_task k) /\
    same_data (k_store k) (k_store k') /\
    (forall q, loc (k_store k') q =
       if decide (q = StatusItem t) then Some (PriorityList (priority c))
       else loc (k_store k) q) /\
    same_rest k k'.
Proof.
  intros HI HT Hsl Hloc. pose proof (ti_task _ _ _ _ _ HI _ _ HT) as HK.
  destruct (expire_task_run _ _ _ _ _ _ HI HT Hsl Hloc) as (s' & Hrun & HS' & Hsd & Hl).
  destruct (expired_flags c) as (F1 & F2 & F3 & F4 & F5).
  eexists. split; [exact Hrun|]. split; [|done].
  destruct (tk_pend _ _ _ HK) as (lp & Hlp & Hpk).
  clear Hrun. set (c' := expired c) in *. clearbody c'.
  eapply (tinv_moved _ _ (k_task k) A _ _ _ t c c' (PriorityList (priority c)) lp); simpl; try done.
  - intros l Hl'. by apply insert_lookup_is_some, fmap_lookup_is_some.
  - intros q Hq _. by rewrite Hl, decide_False.
  - by rewrite Hl, decide_True.
  - by rewrite Hl, decide_False.
  - by eapply pend_ok_ext.
  - rewrite F5. apply HK.
  - eapply bitmap_ok_set; [apply HI | apply HK | |].
    + unfold expired_lists. rewrite lookup_insert_eq. intros [= E].
      by apply insert_sorted_nonempty in E.
    + intros i Hi Hne. unfold expired_lists. rewrite lookup_insert_ne by congruence.
      rewrite (remove_other (k_store k) A _ sl); [done | apply HI | done |]. by intros <-.
Qed.

(** ** All tasks of one tick *)

Lemma remove_head x xs : NoDup (x :: xs) -> remove_item x (x :: xs) = xs.
Proof. apply (remove_item_middle x [] xs). Qed.

(** The tasks that a tick wakes. *)
Definition due (k : kernel) (t : Z) : bool :=
  bool_decide (loc (k_store k) (StatusItem t) = Some (dos_task_sleep_list (k_task k))) &&
  (item_val (k_store k) (StatusItem t) <=? dos_tick_count (k_task k)).

(** The effect of a tick on the tasks of [k], [k'] being the state behind it. *)
Record tick_effect (k k' : kernel) : Prop := {
  te_tcbs : forall t, k_tcbs k' !! t =
    (fun c => if due k t then expired c else c) <$> k_tcbs k !! t;
  te_status : forall t c, k_tcbs k !! t = Some c -> loc (k_store k') (StatusItem t) =
    if due k t then Some (PriorityList (priority c)) else loc (k_store k) (StatusItem t);
  te_pend : forall t, loc (k_store k') (PendItem t) = loc (k_store k) (PendItem t);
  te_data : same_data (k_store k) (k_store k');
  te_times : same_times (k_task k) (k_task k');
  te_rest : same_rest k k'
}.

Lemma sleep_list_item k A lo sl xs q :
  tinv_at k A lo -> is_sleep_list sl = true -> A !! sl = Some xs -> q ∈ xs ->
  exists t c, q = StatusItem t /\ task_of (k_store k) q = t /\ k_tcbs k !! t = Some c /\
    loc (k_store k) (StatusItem t) = Some sl.
Proof.
  intros HI Hsl HA Hq.
  destruct (store_rep_in _ _ _ _ _ (ti_store _ _ _ _ _ HI) HA Hq) as [Hend Hl].
  destruct (ti_items _ _ _ _ _ HI q Hend) as [c HT].
  { unfold fld in Hl. destruct (items (k_store k) !! q); [eauto | done]. }
  pose proof (ti_task _ _ _ _ _ HI _ _ HT) as HK. destruct q as [l|t|t]; [done| |]; simpl in HT, HK.
  - exists t, c. unfold task_of. by rewrite (tk_status_item _ _ _ HK).
  - destruct (tk_pend _ _ _ HK) as (l & Hl' & Hs). unfold loc in Hl'.
    rewrite Hl in Hl'. simplify_eq. by destruct l.
Qed.

Lemma assign_next_wake_tinv k A lo lo' v :
  tinv_at k A lo -> sleep_ok (k_store k) (with_next_wake v (k_task k)) lo' ->
  tinv_at (assign_dos_next_wake_tick v k) A lo'.
Proof. by intros [] H. Qed.

(** A tick that wakes no one. *)
Lemma tick_effect_none k k' :
  (forall t, due k t = false) -> k_tcbs k' = k_tcbs k -> items (k_store k') = items (k_store k) ->
  lists (k_store k') !! ListNull = lists (k_store k) !! ListNull ->
  same_times (k_task k) (k_task k') -> same_rest k k' -> tick_effect k k'.
Proof.
  intros Hd HT Hi Hn Ht Hr. split; try done.
  - intros t. rewrite HT, Hd. by destruct (k_tcbs k !! t).
  - intros t c _. rewrite Hd. unfold loc, fld. by rewrite Hi.
  - intros t. unfold loc, fld. by rewrite Hi.
  - split; unfold fld; by rewrite ?Hi.
Qed.

Lemma not_due k A lo xs :
  tinv_at k A lo -> A !! dos_task_sleep_list (k_task k) = Some xs ->
  (forall q, q ∈ xs -> dos_tick_count (k_task k) < item_val (k_store k) q) ->
  forall t, due k t = false.
Proof.
  intros HI HA Hq t. unfold due. case_bool_decide as Hl; [simpl|done].
  destruct (sleep_lists_ok _ _ _ (ti_sleep _ _ _ _ _ HI)) as (Hsl & _ & _).
  apply (loc_in _ _ _ _ (ti_store _ _ _ _ _ HI)) in Hl as (ys & HA' & Hin); [|done|].
  - simplify_eq. apply Z.leb_gt. by apply Hq.
  - intros E. by rewrite E in Hsl.
Qed.

(** The first item of a sorted list has the smallest value. *)
Lemma sorted_first s x xs q :
  sorted_items s (x :: xs) -> q ∈ x :: xs -> item_val s x <= item_val s q.
Proof.
  intros Hs [->|Hq]%elem_of_cons; [lia|]. inversion Hs as [|? ? _ Hf]; subst.
  rewrite Forall_forall in Hf. by apply Hf.
Qed.

Lemma fld_of_loc s p l : loc s p = Some l -> is_Some (items s !! p).
Proof. unfold loc, fld. destruct (items s !! p); [eauto | done]. Qed.

Lemma tick_effect_step k k1 k2 t c m sl :
  k_tcbs k !! t = Some c -> due k t = true -> is_sleep_list sl = true ->
  dos_task_sleep_list (k_task k) = sl ->
  k_tcbs k1 = <[t := expired c]> (k_tcbs k) -> k_task k1 = with_bitmap m (k_task k) ->
  same_data (k_store k) (k_store k1) ->
  (forall q, loc (k_store k1) q =
     if decide (q = StatusItem t) then Some (PriorityList (priority c)) else loc (k_store k) q) ->
  same_rest k k1 -> tick_effect k1 k2 -> tick_effect k k2.
Proof.
  intros HT Hd Hsl Hsl' HT1 Hg1 Hsd1 Hl1 Hr1 [E1 E2 E3 E4 E5 E6].
  assert (Hdt : due k1 t = false).
  { unfold due. rewrite Hl1, Hg1, decide_True by done. simpl. rewrite Hsl'.
    rewrite bool_decide_false; [done|]. by intros [= <-]. }
  assert (Hdo : forall t', t' <> t -> due k1 t' = due k t').
  { intros t' Hne. unfold due. rewrite Hl1, decide_False by congruence.
    by rewrite (item_val_same _ _ _ Hsd1), Hg1. }
  split.
  - intros t'. rewrite E1, HT1. destruct (decide (t = t')) as [<-|Hne].
    + rewrite lookup_insert_eq, HT. simpl. by rewrite Hdt, Hd.
    + rewrite lookup_insert_ne, Hdo by congruence. done.
  - intros t' c' HT'. destruct (decide (t = t')) as [<-|Hne].
    + rewrite (E2 t (expired c)) by (rewrite HT1; apply lookup_insert_eq).
      rewrite Hdt, Hd, Hl1, decide_True by done. congruence.
    + rewrite (E2 t' c') by (by rewrite HT1, lookup_insert_ne).
      rewrite Hdo, Hl1, decide_False by congruence. done.
  - intros t'. by rewrite E3, Hl1, decide_False.
  - by etrans.
  - destruct E5 as [T1 T2 T3 T4 T5]. rewrite Hg1 in *. by split.
  - by etrans.
Qed.

Lemma due_cursor k k1 t :
  k_task k1 = k_task k -> items (k_store k1) = items (k_store k) -> due k1 t = due k t.
Proof. intros Hg Hi. unfold due, loc, item_val, fld. by rewrite Hg, Hi. Qed.

Lemma tick_effect_cursor k k1 k' :
  k_tcbs k1 = k_tcbs k -> k_task k1 = k_task k -> items (k_store k1) = items (k_store k) ->
  lists (k_store k1) !! ListNull = lists (k_store k) !! ListNull -> same_rest k k1 ->
  tick_effect k1 k' -> tick_effect k k'.
Proof.
  intros HT Hg Hi Hn Hr [E1 E2 E3 E4 E5 E6].
  assert (Hl : forall q, loc (k_store k1) q = loc (k_store k) q)
    by (intros q; unfold loc, fld; by rewrite Hi).
  split.
  - intros t. rewrite E1, HT. by rewrite (due_cursor k k1).
  - intros t c HT'. rewrite (E2 t c) by (by rewrite HT). by rewrite (due_cursor k k1), Hl.
  - intros t. by rewrite E3, Hl.
  - destruct E4 as [D1 D2 D3 D4]. split.
    + intros q. rewrite D1. unfold fld. by rewrite Hi.
    + intros q. rewrite D2. unfold fld. by rewrite Hi.
    + by rewrite D3, Hi.
    + by rewrite D4.
  - by rewrite <- Hg.
  - by etrans.
Qed.

(** The loop stops at the first task that is not due. *)
Lemma wake_stop_spec k A t xs s1 tick :
  tinv_at k A (tick - 1) -> dos_tick_count (k_task k) = tick ->
  A !! dos_task_sleep_list (k_task k) = Some (StatusItem t :: xs) ->
  store_rep s1 A -> items s1 = items (k_store k) -> same_data (k_store k) s1 ->
  tick < item_val (k_store k) (StatusItem t) ->
  let k' := assign_dos_next_wake_tick (item_val (k_store k) (StatusItem t)) (set_k_store s1 k) in
  tinv_at k' A tick /\ (forall l, is_pend_list l = true -> A !! l = A !! l) /\ tick_effect k k'.
Proof.
  intros HI Htick HA HS1 Hit1 Hsd1 Hgt k'. pose proof (ti_store _ _ _ _ _ HI) as HS.
  pose proof (sleep_lists_ok _ _ _ (ti_sleep _ _ _ _ _ HI)) as (Hsl & _ & _).
  assert (Hall : forall q, q ∈ StatusItem t :: xs ->
            item_val (k_store k) (StatusItem t) <= item_val (k_store k) q).
  { intros q Hq. by eapply sorted_first; [apply (store_rep_sorted _ _ _ _ HS HA)|]. }
  split_and!; [|done|].
  - eapply assign_next_wake_tinv; [by eapply cursor_tinv|].
    destruct (ti_sleep _ _ _ _ _ (cursor_tinv _ _ _ _ HI HS1 Hit1)) as [S1 S2 S3 S4 S5 S6].
    split; simpl; try done.
    + destruct (sleep_list_item _ _ _ _ _ (StatusItem t) HI Hsl HA) as (t' & c & [= <-] & _ & HT & _);
        [left|].
      pose proof (tk_status_val _ _ _ (ti_task _ _ _ _ _ HI _ _ HT)) as Hb.
      unfold DOS_UINT32_MAX in Hb. lia.
    + by left.
    + intros p Hp Hl. rewrite (item_val_same _ _ _ Hsd1).
      assert (Hin : p ∈ StatusItem t :: xs); [|pose proof (Hall p Hin); lia].
      apply (loc_in _ _ _ _ HS1) in Hl as (ys & HA' & Hin);
        [by simplify_eq|done|by intros E; rewrite E in Hsl].
  - apply tick_effect_none; try done; [|apply (sd_null _ _ Hsd1)].
    eapply not_due; [done|done|]. intros q Hq. pose proof (Hall q Hq). lia.
Qed.

(** The loop of [dos_tick_update], entered when the next wake-up time is the
    current tick. *)
Lemma wake_expired_spec : forall xs fuel k A tick,
  tinv_at k A (tick - 1) -> dos_tick_count (k_task k) = tick ->
  dos_next_wake_tick (k_task k) = tick ->
  A !! dos_task_sleep_list (k_task k) = Some xs -> (length xs < fuel)%nat ->
  exists k' A', wake_expired fuel k = Done (tt, k') /\ tinv_at k' A' tick /\
    (forall l, is_pend_list l = true -> A' !! l = A !! l) /\ tick_effect k k'.
Proof.
  induction xs as [|x xs IH]; intros fuel k A tick HI Htick Hnw HA Hfuel;
    destruct fuel as [|fuel]; simpl in Hfuel; try lia.
  - exists (assign_dos_next_wake_tick DOS_UINT32_MAX k), A. split_and!.
    + cbn [wake_expired]. kstep.
      run_by ltac:(apply on_store_run; exact (list_is_empty_run _ _ _ _ (ti_store _ _ _ _ _ HI) HA)).
      by destruct k.
    + eapply assign_next_wake_tinv; [done|].
      pose proof (sleep_lists_ok _ _ _ (ti_sleep _ _ _ _ _ HI)) as (Hsl & _ & _).
      destruct (ti_sleep _ _ _ _ _ HI) as [S1 S2 S3 S4 S5 S6]. split; simpl; try done; [by right|].
      intros p Hp Hl. apply (loc_in _ _ _ _ (ti_store _ _ _ _ _ HI)) in Hl as (ys & HA' & Hin);
        [|done|by intros E; rewrite E in Hsl].
      simplify_eq. by apply elem_of_nil in Hin.
    + done.
    + apply tick_effect_none; try done.
      eapply not_due; [done|done|]. intros q Hq. by apply elem_of_nil in Hq.
  - set (sl := dos_task_sleep_list (k_task k)) in *.
    pose proof (sleep_lists_ok _ _ _ (ti_sleep _ _ _ _ _ HI)) as (Hsl & _ & _). fold sl in Hsl.
    pose proof (ti_store _ _ _ _ _ HI) as HS.
    destruct (sleep_list_item _ _ _ _ _ x HI Hsl HA) as (t & c & -> & Htask & HT & Hloc);
      [left|].
    destruct (store_first _ _ _ _ _ HS HA) as (s1 & Hrun1 & HS1 & Hsd1 & Hl1 & Hit1).
    rewrite Htask in Hrun1.
    pose proof (cursor_tinv _ _ _ _ HI HS1 Hit1) as HI1. set (k1 := set_k_store s1 k) in *.
    destruct (fld_of_loc _ _ _ Hloc) as [it Hit].
    assert (Hv : dos_task_value it = item_val (k_store k) (StatusItem t))
      by (unfold item_val, fld; by rewrite Hit).
    pose proof (store_rep_sorted _ _ _ _ HS HA) as Hsort.
    assert (Hstart : wake_expired (S fuel) k =
      (if item_val (k_store k) (StatusItem t) >? tick
       then modify (assign_dos_next_wake_tick (item_val (k_store k) (StatusItem t)))
       else expire_task t;; wake_expired fuel) k1).
    { cbn [wake_expired]. kstep. fold sl.
      run_by ltac:(apply on_store_run; exact (list_is_empty_run _ _ _ _ HS HA)).
      rewrite bool_decide_false by done.
      run_by ltac:(apply (on_store_run _ (set_k_store (k_store k) k)); exact Hrun1).
      run_by ltac:(apply on_store_run; apply item_at_run; simpl; rewrite Hit1; exact Hit).
      kstep. simpl. rewrite Hnw, Hv. done. }
    rewrite Hstart. destruct (Z.gtb_spec (item_val (k_store k) (StatusItem t)) tick) as [Hgt|Hle].
    + exists (assign_dos_next_wake_tick (item_val (k_store k) (StatusItem t)) k1), A.
      split; [done|]. by eapply wake_stop_spec.
    + assert (Hdue : due k t = true).
      { unfold due. fold sl. rewrite Hloc, Htick, bool_decide_true by done.
        by apply Z.leb_le. }
      destruct (expire_task_spec k1 A (tick - 1) t c sl HI1 HT Hsl) as
        (k2 & Hrun2 & HI2 & HT2 & Hg2 & Hsd2 & Hl2 & Hr2).
      { unfold loc in *. simpl. by rewrite Hl1. }
      set (A2 := expired_lists _ t (priority c) A) in *.
      assert (HA2 : forall l, is_pend_list l = true \/ l = sl -> A2 !! l = remove_item (StatusItem t) <$> A !! l).
      { intros l Hl. unfold A2, expired_lists. rewrite lookup_insert_ne, lookup_fmap; [done|].
        intros <-. destruct Hl as [|E]; [done | by rewrite <- E in Hsl]. }
      destruct (IH fuel k2 A2 tick) as (k' & A' & Hrun' & HI' & HA' & HE').
      { done. } { by rewrite Hg2. } { by rewrite Hg2. }
      { rewrite Hg2. simpl. fold sl. rewrite HA2, HA by auto. simpl.
        rewrite remove_head; [done|]. by eapply store_rep_nodup. }
      { lia. }
      exists k', A'. split_and!; [by run_with Hrun2 | done | |].
      * intros l Hl. rewrite HA', HA2 by auto. destruct (A !! l) as [ys|] eqn:E; [|done].
        simpl. f_equal. apply remove_item_notin. intros Hin.
        destruct (store_rep_in _ _ _ _ _ HS E Hin) as [_ H1]. unfold loc in Hloc.
        assert (l = sl) as -> by congruence. by destruct sl.
      * apply (tick_effect_cursor k k1 k'); [done | done | done | apply (sd_null _ _ Hsd1) | done |].
        eapply (tick_effect_step k1 k2 k' t c); try done.
        by rewrite (due_cursor k k1).
Qed.

(** ** The wrap of the tick counter *)

(** At the last tick of a round no task is in the sleep list. *)
Lemma sleep_list_empty k A xs :
  kinv k A -> dos_tick_count (k_task k) = DOS_UINT32_MAX ->
  A !! dos_task_sleep_list (k_task k) = Some xs -> xs = [].
Proof.
  intros HI Htick HA. destruct xs as [|x xs]; [done|]. exfalso.
  pose proof (sleep_lists_ok _ _ _ (ti_sleep _ _ _ _ _ HI)) as (Hsl & _ & _).
  destruct (sleep_list_item _ _ _ _ _ x HI Hsl HA) as (t & c & -> & _ & HT & Hl); [left|].
  destruct (sl_sleep _ _ _ (ti_sleep _ _ _ _ _ HI) (StatusItem t) eq_refl Hl) as [H1 _].
  pose proof (tk_status_val _ _ _ (ti_task _ _ _ _ _ HI _ _ HT)). lia.
Qed.

Definition switch_globals (g : task_globals) (v : Z) : task_globals :=
  mk_globals (dos_task_priority g) (dos_task_sleep_overflow_list g) (dos_task_sleep_list g) v
    (dos_current_task g) (dos_idle_task g) 0 (dos_cur_priority g).

(** [_dos_switch_sleep_list] when the counter has become zero: the tasks of
    the overflow list are now those of this round. *)
Lemma switch_spec k A :
  kinv k A -> dos_tick_count (k_task k) = DOS_UINT32_MAX ->
  exists k' v, _dos_switch_sleep_list (assign_dos_tick_count 0 k) = Done (tt, k') /\
    tinv_at k' A (-1) /\ k_task k' = switch_globals (k_task k) v /\
    k_tcbs k' = k_tcbs k /\ items (k_store k') = items (k_store k) /\
    same_data (k_store k) (k_store k') /\ same_rest k k'.
Proof.
  intros HI Htick. set (g := k_task k) in *. set (sl := dos_task_sleep_list g).
  set (ov := dos_task_sleep_overflow_list g).
  pose proof (ti_store _ _ _ _ _ HI) as HS. pose proof (ti_sleep _ _ _ _ _ HI) as HSL.
  pose proof (sleep_lists_ok _ _ _ HSL) as (Hsl & Hov & Hne). fold g sl ov in Hsl, Hov, Hne.
  assert (Hsln : sl <> ListNull) by (intros E; by rewrite E in Hsl).
  assert (Hovn : ov <> ListNull) by (intros E; by rewrite E in Hov).
  assert (HA : A !! sl = Some []).
  { destruct (ti_lists _ _ _ _ _ HI sl) as [xs HA]; [by destruct sl|].
    by rewrite HA, (sleep_list_empty k A xs HI Htick HA). }
  destruct (ti_lists _ _ _ _ _ HI ov) as [ys HAov]; [by destruct ov|].
  assert (Hnosl : forall p, is_end p = false -> loc (k_store k) p <> Some sl).
  { intros p Hp Hl. apply (loc_in _ _ _ _ HS) in Hl as (xs & HA' & Hin); [|done|exact Hsln].
    simplify_eq. by apply elem_of_nil in Hin. }
  assert (Hsleep : forall v, 0 <= v < 2 ^ 32 ->
    (forall p, is_end p = false -> loc (k_store k) p = Some ov -> v <= item_val (k_store k) p) ->
    sleep_ok (k_store k) (switch_globals g v) (-1)).
  { intros v Hv Hmin. destruct HSL as [S1 S2 S3 S4 S5 S6]. split; simpl; try done.
    - destruct S1 as [[E1 E2]|[E1 E2]]; [right|left]; done.
    - lia.
    - intros p Hp Hl. split; [|by apply Hmin].
      apply (loc_in _ _ _ _ HS) in Hl as (xs & HA' & Hin); [|done|exact Hovn].
      destruct (sleep_list_item _ _ _ _ _ _ HI Hov HA' Hin) as (t & c & -> & _ & HT & _).
      pose proof (tk_status_val _ _ _ (ti_task _ _ _ _ _ HI _ _ HT)). lia.
    - intros p Hp Hl. by apply Hnosl in Hl. }
  assert (Hbase : forall v, sleep_ok (k_store k) (switch_globals g v) (-1) ->
            tinv (k_store k) (k_tcbs k) (switch_globals g v) A (-1)).
  { intros v H. by destruct HI. }
  unfold _dos_switch_sleep_list. kstep. fold sl.
  run_by ltac:(apply on_store_run; exact (list_is_empty_run _ _ _ _ HS HA)).
  rewrite bool_decide_true by done. kstep. simpl.
  run_by ltac:(apply on_store_run; exact (list_is_empty_run _ _ _ _ HS HAov)).
  destruct ys as [|y ys].
  - rewrite bool_decide_true by done.
    exists (set_k_task (switch_globals g DOS_UINT32_MAX) k), DOS_UINT32_MAX.
    split_and!; try done. apply Hbase, Hsleep; [done|].
    intros p Hp Hl. apply (loc_in _ _ _ _ HS) in Hl as (xs & HA' & Hin); [|done|exact Hovn].
    simplify_eq. by apply elem_of_nil in Hin.
  - rewrite bool_decide_false by done.
    destruct (sleep_list_item _ _ _ _ _ y HI Hov HAov) as (t & c & -> & Htask & HT & Hloc); [left|].
    destruct (store_first _ _ _ _ _ HS HAov) as (s1 & Hrun1 & HS1 & Hsd1 & Hl1 & Hit1).
    rewrite Htask in Hrun1. destruct (fld_of_loc _ _ _ Hloc) as [it Hit].
    assert (Hv : dos_task_value it = item_val (k_store k) (StatusItem t))
      by (unfold item_val, fld; by rewrite Hit).
    pose proof (tk_status_val _ _ _ (ti_task _ _ _ _ _ HI _ _ HT)) as Hb.
    unfold DOS_UINT32_MAX in Hb.
    exists (set_k_task (switch_globals g (item_val (k_store k) (StatusItem t)))
      (set_k_store s1 k)), (item_val (k_store k) (StatusItem t)).
    split_and!; try done.
    + run_by ltac:(apply on_store_run; exact Hrun1).
      run_by ltac:(apply on_store_run; apply item_at_run; simpl; rewrite Hit1; exact Hit).
      by rewrite Hv.
    + apply (cursor_tinv (set_k_task (switch_globals g (item_val (k_store k) (StatusItem t))) k));
        [|done|done].
      apply Hbase, Hsleep; [lia|].
      intros p Hp Hl. apply (loc_in _ _ _ _ HS) in Hl as (xs & HA' & Hin); [|done|exact Hovn].
      assert (xs = StatusItem t :: ys) as -> by congruence.
      by eapply sorted_first; [apply (store_rep_sorted _ _ _ _ HS HAov)|].
Qed.

(** ** Notifying the timer task of the wrap *)

(** The queue of the timer task, of four messages of eight bytes, exists. *)
Definition swtmr_ready (k : kernel) (A : gmap list_ptr (list item_ptr)) : Prop :=
  let q := dos_swtmr_queue (k_swtmr k) in
  q <> DOS_NULL /\ (exists a, queue_view k q 4 8 a) /\ is_Some (A !! QueuePendList q QUEUE_READ).

(** The tasks that wait on that queue. *)
Definition timer_waiter (k : kernel) (t : Z) : Prop :=
  loc (k_store k) (PendItem t) = Some (QueuePendList (dos_swtmr_queue (k_swtmr k)) QUEUE_READ).

#[export] Instance timer_waiter_dec k t : Decision (timer_waiter k t).
Proof. unfold timer_waiter. apply _. Defined.

Lemma queue_write_count_cases k q n z a :
  queue_view k q n z a ->
  (length (aq_msgs a) + aq_writers a < n)%nat \/
  exists v, k_queues k !! q = Some v /\ queue_rw_count QUEUE_WRITE v = 0.
Proof.
  intros (v & r & Hv & Hrep & Hrc & Hwc & Hr0 & Hw0 & Hn).
  pose proof (qr_count _ _ _ _ _ Hrep).
  destruct (Z.eq_dec (queue_write_count v) 0) as [E|]; [right; exists v; done|left; lia].
Qed.

Definition tick_changes (k k' : kernel) : Prop :=
  forall t c, k_tcbs k !! t = Some c -> ~ timer_waiter k t ->
    (exists n, k_tcbs k' !! t = Some (set_task_tick n c)) /\
    loc (k_store k') (StatusItem t) = loc (k_store k) (StatusItem t).

(** The timer queue holds one message more, promised to the tasks [ws] that
    were woken to read it, or is as before; nothing else changed. *)
Record notified (ws : list Z) (a a' : aqueue) (k : kernel) (A : gmap list_ptr (list item_ptr))
    (k' : kernel) (A' : gmap list_ptr (list item_ptr)) : Prop := {
  no_view : queue_view k' (dos_swtmr_queue (k_swtmr k)) 4 8 a';
  no_readers : aq_readers a' = (aq_readers a + length ws)%nat;
  no_writers : aq_writers a' = aq_writers a;
  no_nodup : NoDup ws;
  no_woken : forall t, t ∈ ws ->
    loc (k_store k) (PendItem t) = Some (QueuePendList (dos_swtmr_queue (k_swtmr k)) QUEUE_READ) /\
    exists c, k_tcbs k' !! t = Some c /\ ready c = true /\ suspended c = false;
  no_frame : frame (queue_lists (dos_swtmr_queue (k_swtmr k))) ws k A k' A'
}.

Lemma notified_none a k A k' A' :
  queue_view k' (dos_swtmr_queue (k_swtmr k)) 4 8 a ->
  frame (queue_lists (dos_swtmr_queue (k_swtmr k))) [] k A k' A' -> notified [] a a k A k' A'.
Proof.
  intros Hv HF. split; try done.
  - by apply NoDup_nil.
  - by intros ? ?%elem_of_nil.
Qed.

(** The message is sent if there is room for it; only a task waiting on the
    timer queue can be woken. *)
Lemma swtmr_overflow_spec k A lo a :
  tinv_at k A lo -> swtmr_ready k A -> queue_view k (dos_swtmr_queue (k_swtmr k)) 4 8 a ->
  exists r k' A', dos_swtmr_overflow k = Done (r, k') /\ (exists ws a', notified ws a a' k A k' A') /\
    tinv_at k' A' lo /\
    same_times (k_task k) (k_task k') /\ swtmr_ready k' A' /\ k_swtmr k' = k_swtmr k /\
    same_data (k_store k) (k_store k') /\ tick_changes k k' /\
    (forall t c, k_tcbs k !! t = Some c -> timer_waiter k t -> exists c', k_tcbs k' !! t = Some c' /\
       (loc (k_store k') (StatusItem t) = loc (k_store k) (StatusItem t) \/ ready c' = true)).
Proof.
  intros HI (Hq & _ & [xs HA]) Hview. set (q := dos_swtmr_queue (k_swtmr k)) in *.
  unfold dos_swtmr_overflow, _dos_swtmr_make_msg. cbn [Z.eqb DOS_NULL andb]. unfold getw. kstep.
  change (negb (dos_swtmr_opt_overflow =? dos_swtmr_opt_overflow)) with false. cbv iota. kstep.
  fold q. set (msg := swtmr_msg _ _).
  assert (Hm : forall t c, k_tcbs k !! t = Some c -> exists n, k_tcbs k !! t = Some (set_task_tick n c)).
  { intros t c HT. exists (task_tick c). by rewrite set_task_tick_id. }
  destruct (queue_write_count_cases _ _ _ _ _ Hview) as [Hroom|(v & Hv & Hc)].
  - destruct (queue_write_fifo_lo k A lo q 4 8 a msg SIZEOF_SWTMR_MSG 0 xs HI Hq Hview Hroom)
      as (k' & A' & m & Hrun & _ & Hview' & [F1 F2 F3 F4 F5 F6 F7 F8 _]); try done.
    assert (Hsw : k_swtmr k' = k_swtmr k) by apply F8.
    exists (Return (DOS_OK, msg)), k', A'. split_and!; try done.
    + exists (woken_of xs). eexists. split; [exact Hview' | | done | | done | done]; simpl.
      * by destruct xs.
      * destruct xs; [by apply NoDup_nil|]. unfold woken_of. simpl. rewrite take_0. apply NoDup_singleton.
    + unfold swtmr_ready. rewrite Hsw. fold q. eauto.
    + intros t c HT Hnw. assert (Hne : t ∉ woken_of xs) by (intros Hin; by apply Hnw, F5).
      split; [by apply F6|]. by apply F7.
    + intros t c HT Htw. destruct (decide (t ∈ woken_of xs)) as [Hin|Hne].
      * destruct (F5 t Hin) as (_ & c2 & HT2 & Hr2 & _). eauto.
      * destruct (F6 t c Hne HT) as [n HT']. exists (set_task_tick n c). split; [done|].
        left. by apply F7.
  - exists (Return (DOS_NOK, msg)), k, A. split_and!; try done.
    + by apply (queue_try_fail k q v); [| | | right |].
    + exists [], a. apply notified_none; [done | apply frame_refl].
    + split_and!; eauto.
    + intros t c HT _. eauto.
    + intros t c HT _. eauto.
Qed.

(** ** The whole tick *)

Lemma due_iff k A t :
  tinv_at k A (dos_tick_count (k_task k) - 1) ->
  due k t = true <-> loc (k_store k) (StatusItem t) = Some (dos_task_sleep_list (k_task k)) /\
                     item_val (k_store k) (StatusItem t) = dos_tick_count (k_task k).
Proof.
  intros HI. unfold due. rewrite andb_true_iff, bool_decide_eq_true, Z.leb_le. split.
  - intros [Hl Hle]. split; [done|].
    destruct (sl_sleep _ _ _ (ti_sleep _ _ _ _ _ HI) (StatusItem t) eq_refl Hl). lia.
  - intros [-> ->]. split; [done | lia].
Qed.

(** Nobody is due before the next wake-up time. *)
Lemma tinv_raise k A lo :
  tinv_at k A lo -> dos_tick_count (k_task k) < dos_next_wake_tick (k_task k) -> kinv k A.
Proof.
  intros [I1 I2 I3 I4 I5 [S1 S2 S3 S4 S5 S6] I7 I8] Hlt. split; try done. split; try done.
  - by left.
  - intros p Hp Hl. destruct (S5 p Hp Hl). lia.
Qed.

(** [dos_tick_update] behind the handling of the wrap. *)
Definition tick_finish : kprog unit :=
  tick ← getg dos_tick_count;
  nw ← getg dos_next_wake_tick;
  (if tick >=? nw then
     fuel ← gets (fun k => S (size (items (k_store k))));
     wake_expired fuel
   else mret tt);;
  dos_scheduler.

Lemma tick_finish_spec k A :
  tinv_at k A (dos_tick_count (k_task k) - 1) ->
  exists k' A', tick_finish k = Done (tt, k') /\ kinv k' A' /\
    (forall l, is_pend_list l = true -> A' !! l = A !! l) /\
    (forall t c, k_tcbs k !! t = Some c ->
       exists n, k_tcbs k' !! t = Some (set_task_tick n (if due k t then expired c else c))) /\
    (forall t, loc (k_store k') (PendItem t) = loc (k_store k) (PendItem t)) /\
    (forall t, is_Some (k_tcbs k' !! t) <-> is_Some (k_tcbs k !! t)) /\
    same_data (k_store k) (k_store k') /\ same_times (k_task k) (k_task k') /\ same_objs k k' /\
    primask (k_cpu k') = primask (k_cpu k) /\
    (sched_enabled k = false -> pendsv (k_cpu k') = pendsv (k_cpu k)).
Proof.
  intros HI. set (tick := dos_tick_count (k_task k)) in *.
  assert (Hmid : exists k1 A1, (if tick >=? dos_next_wake_tick (k_task k) then
      fuel ← gets (fun k => S (size (items (k_store k)))); wake_expired fuel else mret tt) k =
      Done (tt, k1) /\ kinv k1 A1 /\ (forall l, is_pend_list l = true -> A1 !! l = A !! l) /\
      tick_effect k k1).
  { destruct (Z.geb_spec tick (dos_next_wake_tick (k_task k))) as [Hge|Hlt].
    - assert (Hnw : dos_next_wake_tick (k_task k) = tick).
      { destruct (ti_sleep _ _ _ _ _ HI) as [S1 S2 S3 S4 S5 S6]. fold tick in S2.
        unfold DOS_UINT32_MAX in S4. lia. }
      pose proof (sleep_lists_ok _ _ _ (ti_sleep _ _ _ _ _ HI)) as (Hsl & _ & _).
      destruct (ti_lists _ _ _ _ _ HI (dos_task_sleep_list (k_task k))) as [xs HA];
        [by destruct (dos_task_sleep_list (k_task k))|].
      destruct (sr_list _ _ (ti_store _ _ _ _ _ HI) _ _ HA) as [cu Hrep].
      pose proof (list_rep_length _ _ _ _ Hrep) as Hlen.
      destruct (wake_expired_spec xs (S (size (items (k_store k)))) k A tick)
        as (k1 & A1 & Hrun & HI1 & HA1 & HE); try done; [lia|].
      exists k1, A1. kstep. split_and!; try done.
      unfold kinv. by rewrite (st_tick _ _ (te_times _ _ HE)).
    - exists k, A. split_and!; try done; [by eapply tinv_raise|].
      apply tick_effect_none; try done. intros t. unfold due. case_bool_decide as Hl; [simpl|done].
      destruct (sl_sleep _ _ _ (ti_sleep _ _ _ _ _ HI) (StatusItem t) eq_refl Hl) as [_ Hnw].
      apply Z.leb_gt. fold tick. lia. }
  destruct Hmid as (k1 & A1 & Hrun1 & HI1 & HA1 & HE).
  destruct (scheduler_ok k1 A1 _ HI1) as (k2 & Hrun2 & Hrs).
  exists k2, A1. split_and!; try done.
  - unfold tick_finish. kstep. fold tick. run_with Hrun1. exact Hrun2.
  - by eapply rescheduled_kinv.
  - intros t c HT. apply (rescheduled_task _ _ _ _ Hrs). by rewrite (te_tcbs _ _ HE), HT.
  - intros t. rewrite (rs_store _ _ Hrs). apply (te_pend _ _ HE).
  - intros t. rewrite (fr_tcbs _ _ _ _ _ _ (frame_resched [] [] _ _ A1 Hrs)), (te_tcbs _ _ HE).
    by rewrite fmap_is_Some.
  - rewrite (rs_store _ _ Hrs). apply HE.
  - pose proof (rescheduled_times _ _ Hrs) as H2. pose proof (te_times _ _ HE) as H1.
    destruct H1, H2. split; congruence.
  - etrans; [apply same_rest_objs, HE | by apply rescheduled_objs].
  - rewrite (rescheduled_primask _ _ Hrs). by rewrite (sr_cpu _ _ (te_rest _ _ HE)).
  - destruct (te_rest _ _ HE) as [Hy Hcpu _ _ _ _ _ _ _ _ _ _]. intros He.
    rewrite (rs_pendsv _ _ Hrs), Hcpu; [done|]. revert He. unfold sched_enabled. by rewrite Hy.
Qed.

(** The task sleeps and its wake-up time is the coming tick. *)
Definition wakes (k : kernel) (t : Z) (c : dos_task_cb) : bool :=
  delayed c && (item_val (k_store k) (StatusItem t) =? u32 (dos_tick_count (k_task k) + 1)).

Lemma delayed_loc k A lo t c :
  tinv_at k A lo -> k_tcbs k !! t = Some c ->
  delayed c = true <-> exists sl, is_sleep_list sl = true /\ loc (k_store k) (StatusItem t) = Some sl.
Proof.
  intros HI HT. destruct (tk_status _ _ _ (ti_task _ _ _ _ _ HI _ _ HT)) as (l & Hl & Hs).
  rewrite Hl. split.
  - intros Hd. exists l. split; [|done]. clear -Hs Hd. destruct l; simpl in Hs; naive_solver congruence.
  - intros (sl & Hsl & [= <-]). clear -Hs Hsl. destruct l; simpl in Hs; naive_solver.
Qed.

Lemma is_sleep_list_cases s g lo sl :
  sleep_ok s g lo -> is_sleep_list sl = true ->
  sl = dos_task_sleep_list g \/ sl = dos_task_sleep_overflow_list g.
Proof. intros H Hsl. destruct (sl_lists _ _ _ H) as [[-> ->]|[-> ->]], sl; auto; done. Qed.

(** A task of [k] is due in [k1] exactly when its wake-up time has come; in
    [k1] the tick counter has moved on and, at a wrap, the lists are switched. *)
Lemma wakes_due k A k1 A1 t c :
  kinv k A -> tinv_at k1 A1 (dos_tick_count (k_task k1) - 1) -> k_tcbs k !! t = Some c ->
  dos_tick_count (k_task k1) = u32 (dos_tick_count (k_task k) + 1) ->
  (if dos_tick_count (k_task k) =? DOS_UINT32_MAX
   then dos_task_sleep_list (k_task k1) = dos_task_sleep_overflow_list (k_task k)
   else dos_task_sleep_list (k_task k1) = dos_task_sleep_list (k_task k)) ->
  loc (k_store k1) (StatusItem t) = loc (k_store k) (StatusItem t) ->
  item_val (k_store k1) (StatusItem t) = item_val (k_store k) (StatusItem t) ->
  due k1 t = wakes k t c.
Proof.
  intros HI HI1 HT Htick Hsl Hloc Hval. apply eq_true_iff_eq. rewrite (due_iff _ _ _ HI1).
  unfold wakes. rewrite andb_true_iff, Z.eqb_eq, (delayed_loc _ _ _ _ _ HI HT), Hloc, Hval, Htick.
  pose proof (ti_sleep _ _ _ _ _ HI) as HS.
  pose proof (sleep_lists_ok _ _ _ HS) as (L1 & L2 & _).
  pose proof (sl_tick _ _ _ HS) as Ht.
  destruct (Z.eqb_spec (dos_tick_count (k_task k)) DOS_UINT32_MAX) as [Hm|Hm]; rewrite Hsl.
  - split; [intros [H1 H2]; eauto|]. intros [(sl & H1 & H2) H3]. split; [|done]. rewrite H2.
    destruct (is_sleep_list_cases _ _ _ _ HS H1) as [-> | ->]; [|done]. exfalso.
    destruct (sl_sleep _ _ _ HS (StatusItem t) eq_refl H2) as [H4 _].
    pose proof (tk_status_val _ _ _ (ti_task _ _ _ _ _ HI _ _ HT)). lia.
  - split; [intros [H1 H2]; eauto|]. intros [(sl & H1 & H2) H3]. split; [|done]. rewrite H2.
    destruct (is_sleep_list_cases _ _ _ _ HS H1) as [-> | ->]; [done|]. exfalso.
    pose proof (sl_overflow _ _ _ HS (StatusItem t) eq_refl H2) as H4.
    unfold DOS_UINT32_MAX in Hm. rewrite u32_small in H3 by lia. lia.
Qed.

(** The state in which the expired tasks are looked for. *)
Definition tick_start (a : aqueue) (k : kernel) (A : gmap list_ptr (list item_ptr)) (k1 : kernel)
    (A1 : gmap list_ptr (list item_ptr)) : Prop :=
  (exists ws a', notified ws a a' (assign_dos_tick_count (u32 (dos_tick_count (k_task k) + 1)) k) A k1 A1) /\
  tinv_at k1 A1 (dos_tick_count (k_task k1) - 1) /\
  dos_tick_count (k_task k1) = u32 (dos_tick_count (k_task k) + 1) /\
  (if dos_tick_count (k_task k) =? DOS_UINT32_MAX
   then dos_task_sleep_list (k_task k1) = dos_task_sleep_overflow_list (k_task k)
   else dos_task_sleep_list (k_task k1) = dos_task_sleep_list (k_task k)) /\
  dos_current_task (k_task k1) = dos_current_task (k_task k) /\
  dos_idle_task (k_task k1) = dos_idle_task (k_task k) /\
  same_data (k_store k) (k_store k1) /\ swtmr_ready k1 A1 /\ k_swtmr k1 = k_swtmr k /\
  tick_changes k k1 /\
  (forall t c, k_tcbs k !! t = Some c -> timer_waiter k t -> exists c', k_tcbs k1 !! t = Some c' /\
     (loc (k_store k1) (StatusItem t) = loc (k_store k) (StatusItem t) \/ ready c' = true)).

Lemma tick_changes_refl k k' :
  k_tcbs k' = k_tcbs k -> items (k_store k') = items (k_store k) -> tick_changes k k'.
Proof.
  intros HT Hi t c Ht _. split; [exists (task_tick c); by rewrite HT, set_task_tick_id|].
  unfold loc, fld. by rewrite Hi.
Qed.

Lemma tick_start_spec k A a :
  kinv k A -> swtmr_ready k A -> queue_view k (dos_swtmr_queue (k_swtmr k)) 4 8 a ->
  exists k1 A1, dos_tick_update k = tick_finish k1 /\ tick_start a k A k1 A1.
Proof.
  intros HI Hsw Hview. set (n := dos_tick_count (k_task k)).
  pose proof (sl_tick _ _ _ (ti_sleep _ _ _ _ _ HI)) as Hn. fold n in Hn.
  unfold dos_tick_update. kstep. fold n. set (k0 := assign_dos_tick_count (u32 (n + 1)) k).
  destruct (Z.eq_dec n DOS_UINT32_MAX) as [Hm|Hm].
  - assert (Hu : u32 (n + 1) = 0) by (by rewrite Hm).
    destruct (switch_spec k A HI Hm) as (k1 & v & Hrun1 & HI1 & Hg1 & HT1 & Hi1 & Hsd1 & Hr1).
    assert (Hsw1 : swtmr_ready k1 A).
    { unfold swtmr_ready, queue_view in *. by rewrite (sr_swtmr _ _ Hr1), (sr_queues _ _ Hr1). }
    destruct (swtmr_overflow_spec k1 A (-1) a HI1 Hsw1)
      as (r & k2 & A2 & Hrun2 & (ws & a' & Hno) & HI2 & Hg2 & Hsw2 & Hw2 & Hsd2 & Hc2 & Ht2).
    { unfold queue_view in *. by rewrite (sr_swtmr _ _ Hr1), (sr_queues _ _ Hr1). }
    assert (Hloc1 : forall q, loc (k_store k1) q = loc (k_store k) q)
      by (intros q; unfold loc, fld; by rewrite Hi1).
    assert (Htw : forall t, timer_waiter k1 t <-> timer_waiter k t).
    { intros t. unfold timer_waiter. by rewrite Hloc1, (sr_swtmr _ _ Hr1). }
    exists k2, A2. split.
    + rewrite Hu. cbn [Z.eqb]. unfold k0. rewrite Hu.
      rewrite (bind_done _ _ _ tt k2); [done|].
      run_with Hrun1. by run_with Hrun2.
    + unfold tick_start. rewrite (st_tick _ _ Hg2), (st_sleep _ _ Hg2), (st_current _ _ Hg2),
        (st_idle _ _ Hg2), Hg1. fold n. rewrite Hu, (proj2 (Z.eqb_eq _ _) Hm). simpl.
      split_and!; try done.
      * exists ws, a'. destruct Hno as [N1 N2 N3 N4 N5 N6].
        rewrite (sr_swtmr _ _ Hr1) in N1, N5, N6. split; try done.
        -- intros t Ht. rewrite <- Hloc1. by apply N5.
        -- eapply frame_trans; [|exact N6]. destruct Hr1 as [R1 R2 R3 R4 R5 R6 R7 R8 _ _ _ _].
           split; rewrite ?Hg1, ?R1, ?R2, ?R4, ?R5, ?R6, ?R7, ?R8; try done.
           ++ intros t. by apply item_val_same.
           ++ intros t _. by apply item_val_same.
           ++ intros t c _ HT. exists c. by rewrite HT1.
           ++ intros t. by rewrite HT1.
      * by etrans.
      * by rewrite Hw2, (sr_swtmr _ _ Hr1).
      * intros t c HT Hnw. rewrite <- Hloc1. apply Hc2; [by rewrite HT1 | by rewrite Htw].
      * intros t c HT Htw'. rewrite <- Hloc1. apply (Ht2 t c); [by rewrite HT1 | by rewrite Htw].
  - unfold DOS_UINT32_MAX in Hm. assert (Hu : u32 (n + 1) = n + 1) by (apply u32_small; lia).
    exists k0, A. split.
    + rewrite Hu. destruct (Z.eqb_spec (n + 1) 0); [lia|]. kstep. unfold k0. by rewrite Hu.
    + unfold tick_start. simpl. fold n. rewrite (proj2 (Z.eqb_neq n DOS_UINT32_MAX)) by done.
      rewrite Hu. split_and!; try done.
      * exists [], a. apply notified_none; [done|]. split; try done. intros t c _ HT. by exists c.
      * replace (n + 1 - 1) with n by lia. destruct HI as [I1 I2 I3 I4 I5 [S1 S2 S3 S4 S5 S6] I7 I8].
        split; try done. split; try done; simpl; [lia|].
        intros p Hp Hl. specialize (S6 p Hp Hl). fold n in S6. lia.
      * by apply tick_changes_refl.
      * intros t c HT _. eauto.
Qed.

(** Every task whose wake-up time is the new tick is ready; every other task
    keeps its status, except that at a wrap the task waiting on the timer
    queue may be woken by the message. *)
Lemma tick_update_spec k A :
  kinv k A -> swtmr_ready k A ->
  exists k' A', dos_tick_update k = Done (tt, k') /\ kinv k' A' /\ swtmr_ready k' A' /\
    dos_tick_count (k_task k') = u32 (dos_tick_count (k_task k) + 1) /\
    dos_current_task (k_task k') = dos_current_task (k_task k) /\
    dos_idle_task (k_task k') = dos_idle_task (k_task k) /\
    same_data (k_store k) (k_store k') /\ k_swtmr k' = k_swtmr k /\
    (forall t c, k_tcbs k !! t = Some c -> ~ timer_waiter k t ->
       exists n, k_tcbs k' !! t = Some (set_task_tick n (if wakes k t c then expired c else c))) /\
    (forall t c, k_tcbs k !! t = Some c -> wakes k t c = true ->
       exists c', k_tcbs k' !! t = Some c' /\ ready c' = true).
Proof.
  intros HI Hsw. pose proof Hsw as (_ & (a & Hview) & _). destruct (tick_start_spec k A a HI Hsw Hview)
    as (k1 & A1 & Hrun1 & _ & HI1 & Htick & Hsl & Hcur & Hidle & Hsd1 & Hsw1 & Hw1 & Hc1 & Ht1).
  destruct (tick_finish_spec k1 A1 HI1) as (k' & A' & Hrun & HI' & HA' & HT' & Hpl & Hdom & Hsd & Hg & Ho & _).
  assert (Hv : forall q, item_val (k_store k1) q = item_val (k_store k) q)
    by (intros q; by apply item_val_same).
  assert (Hdue : forall t c, k_tcbs k !! t = Some c ->
    loc (k_store k1) (StatusItem t) = loc (k_store k) (StatusItem t) -> due k1 t = wakes k t c).
  { intros t c HT Hl. by eapply wakes_due. }
  exists k', A'. split_and!.
  - by rewrite Hrun1.
  - done.
  - destruct Hsw1 as (Q1 & (a1 & Q2) & Q3). split_and!.
    + by rewrite (so_swtmr _ _ Ho).
    + exists a1. unfold queue_view in *. by rewrite (so_swtmr _ _ Ho), (so_queues _ _ Ho).
    + by rewrite (so_swtmr _ _ Ho), HA'.
  - by rewrite (st_tick _ _ Hg).
  - by rewrite (st_current _ _ Hg).
  - by rewrite (st_idle _ _ Hg).
  - by etrans.
  - by rewrite (so_swtmr _ _ Ho).
  - intros t c HT Hnw. destruct (Hc1 t c HT Hnw) as [[n HT1] Hl1].
    destruct (HT' _ _ HT1) as [n' HT2]. rewrite (Hdue t c HT Hl1) in HT2. exists n'.
    rewrite HT2. f_equal. destruct (wakes k t c); [|done]. by rewrite expired_tick.
  - intros t c HT Hwk. destruct (decide (timer_waiter k t)) as [Htw|Hnw].
    + destruct (Ht1 t c HT Htw) as (c1 & HT1 & [Hl|Hr]); destruct (HT' _ _ HT1) as [n HT2].
      * rewrite (Hdue t c HT Hl), Hwk in HT2. destruct (expired_flags c1) as (F1 & _). eauto.
      * destruct (expired_flags c1) as (F1 & _). destruct (due k1 t); eauto.
    + destruct (Hc1 t c HT Hnw) as [[n HT1] Hl1]. destruct (HT' _ _ HT1) as [n' HT2].
      rewrite (Hdue t c HT Hl1), Hwk in HT2.
      destruct (expired_flags (set_task_tick n c)) as (F1 & _). eauto.
Qed.

(** ** What a tick leaves alone *)

(** A tick may end a sleep or a timed wait; it marks the task only if the task
    is waiting. *)
Record ticked (c c' : dos_task_cb) : Prop := {
  tc_suspended : suspended c' = suspended c;
  tc_ready : ready c = true -> ready c' = true;
  tc_timed_out : timed_out c' = true -> timed_out c = true \/ suspended c = true;
  tc_kept : timed_out c = true -> timed_out c' = true;
  tc_marked : suspended c = true -> ready c' = true -> ready c = true \/ timed_out c' = true
}.

Lemma ticked_expired n c c' (b : bool) :
  same_flags c c' -> ticked c (set_task_tick n (if b then expired c' else c')).
Proof.
  intros [S1 S2 S3 S4]. destruct (expired_flags c') as (F1 & _ & F3 & F4 & _).
  set (c2 := if b then expired c' else c').
  assert (G : suspended c2 = suspended c /\ ready c2 = b || ready c /\
              timed_out c2 = timed_out c || (b && suspended c)).
  { unfold c2. destruct b; simpl; rewrite ?F1, ?F3, ?F4, ?S1, ?S3, ?S4, ?orb_false_r; done. }
  destruct G as (G1 & G2 & G3).
  cut (ticked c c2); [by intros []|]. split; rewrite ?G1, ?G2, ?G3; try done.
  - intros ->. by rewrite orb_true_r.
  - intros [?|[_ ?]%andb_true_iff]%orb_true_iff; auto.
  - by intros ->.
  - intros -> [-> | ->]%orb_true_iff; [right; by rewrite orb_true_r | by left].
Qed.

(** A delayed task whose time is the present tick is due. *)
Lemma timed_due k A t c :
  tinv_at k A (dos_tick_count (k_task k) - 1) -> k_tcbs k !! t = Some c -> delayed c = true ->
  item_val (k_store k) (StatusItem t) = dos_tick_count (k_task k) -> due k t = true.
Proof.
  intros HI HT Hd Hv. apply (due_iff k A t HI). split; [|done].
  apply (delayed_loc _ _ _ _ _ HI HT) in Hd as (sl & Hsl & Hl). pose proof (ti_sleep _ _ _ _ _ HI) as HS.
  destruct (is_sleep_list_cases _ _ _ _ HS Hsl) as [-> | ->]; [done|].
  pose proof (sl_overflow _ _ _ HS (StatusItem t) eq_refl Hl). lia.
Qed.

(** A deadline that a tick does not keep is met by that tick. *)
Definition deadlines_met (k k' : kernel) : Prop :=
  forall t v, timed_wait k t v ->
    is_ready k' t \/ (timed_wait k' t v /\ v <> dos_tick_count (k_task k')).

(** The tasks [ws], waiting for the timer queue, are woken when the counter
    wraps; the pend lists of all other objects are as before. *)
Record tick_frame (ws : list Z) (a a' : aqueue) (k : kernel) (A : gmap list_ptr (list item_ptr))
    (k' : kernel) (A' : gmap list_ptr (list item_ptr)) : Prop := {
  tf_view : queue_view k' (dos_swtmr_queue (k_swtmr k)) 4 8 a';
  tf_readers : aq_readers a' = (aq_readers a + length ws)%nat;
  tf_writers : aq_writers a' = aq_writers a;
  tf_nodup : NoDup ws;
  tf_woken : forall t, t ∈ ws ->
    loc (k_store k) (PendItem t) = Some (QueuePendList (dos_swtmr_queue (k_swtmr k)) QUEUE_READ) /\
    exists c, k_tcbs k' !! t = Some c /\ ready c = true /\ suspended c = false;
  tf_lists : forall l, is_pend_list l = true ->
    l ∉ queue_lists (dos_swtmr_queue (k_swtmr k)) -> A' !! l = A !! l;
  tf_dom : forall l, is_pend_list l = true -> is_Some (A !! l) -> is_Some (A' !! l);
  tf_vals : forall t, item_val (k_store k') (PendItem t) = item_val (k_store k) (PendItem t);
  tf_locs : forall t, t ∉ ws -> loc (k_store k') (PendItem t) = loc (k_store k) (PendItem t);
  tf_tasks : forall t c, t ∉ ws -> k_tcbs k !! t = Some c ->
    exists c', k_tcbs k' !! t = Some c' /\ ticked c c';
  tf_tcbs : forall t, is_Some (k_tcbs k' !! t) <-> is_Some (k_tcbs k !! t);
  tf_current : dos_current_task (k_task k') = dos_current_task (k_task k);
  tf_idle : dos_idle_task (k_task k') = dos_idle_task (k_task k);
  tf_sys : k_sys k' = k_sys k;
  tf_primask : primask (k_cpu k') = primask (k_cpu k);
  tf_ipsr : ipsr (k_cpu k') = ipsr (k_cpu k);
  tf_pendsv : sched_enabled k = false -> pendsv (k_cpu k') = pendsv (k_cpu k);
  tf_swtmr : k_swtmr k' = k_swtmr k;
  tf_sems : k_sems k' = k_sems k;
  tf_mutexes : k_mutexes k' = k_mutexes k;
  tf_queues : forall q, q <> dos_swtmr_queue (k_swtmr k) -> k_queues k' !! q = k_queues k !! q;
  tf_events : k_events k' = k_events k;
  tf_tick : dos_tick_count (k_task k') = u32 (dos_tick_count (k_task k) + 1);
  tf_deadlines : deadlines_met k k'
}.

Lemma tick_frame_spec k A a :
  kinv k A -> swtmr_ready k A -> queue_view k (dos_swtmr_queue (k_swtmr k)) 4 8 a ->
  exists k' A' ws a', dos_tick_update k = Done (tt, k') /\ kinv k' A' /\ tick_frame ws a a' k A k' A'.
Proof.
  intros HI Hsw Hview. destruct (tick_start_spec k A a HI Hsw Hview)
    as (k1 & A1 & Hrun1 & (ws & a' & [N1 N2 N3 N4 N5 N6]) & HI1 & Htk & _).
  destruct (tick_finish_spec k1 A1 HI1)
    as (k' & A' & Hrun & HI' & HA' & HT' & Hpl & Hdom & Hsd & Hg & Ho & Hpm & Hps).
  exists k', A', ws, a'. rewrite Hrun1. split; [done|]. split; [done|].
  set (q := dos_swtmr_queue (k_swtmr k)) in *.
  assert (Hql : forall l, (forall q op, l <> QueuePendList q op) -> l ∉ queue_lists q).
  { intros l Hl. unfold queue_lists. rewrite !not_elem_of_cons, elem_of_nil. naive_solver. }
  pose proof (st_tick _ _ Hg) as Htk'. destruct Hg as [_ _ G1 G2 _]. destruct Ho as [O1 O2 _ O4 O5 O6 O7 O8 _ _ _ _].
  split; try done; rewrite ?G1, ?G2, ?O1, ?O2, ?O8; try apply N6.
  - unfold queue_view. by rewrite O6.
  - intros t Ht. destruct (N5 t Ht) as (H1 & c & H2 & H3 & H4). split; [done|].
    destruct (HT' _ _ H2) as [n HT2]. eexists. split; [exact HT2|].
    destruct (ticked_expired n c c (due k1 t)) as [T1 T2 _]; [done|]. rewrite T1. auto.
  - intros l Hl Hn. rewrite HA' by done. by apply N6.
  - intros l Hl HS. rewrite HA' by done. by apply N6.
  - intros t. rewrite (item_val_same _ _ _ Hsd). apply N6.
  - intros t Ht. rewrite Hpl. by apply N6.
  - intros t c Ht HT. destruct (fr_tasks _ _ _ _ _ _ N6 t c Ht HT) as (c1 & HT1 & Hf).
    destruct (HT' _ _ HT1) as [n HT2]. eexists. split; [exact HT2|]. by apply ticked_expired.
  - intros t. rewrite Hdom. apply N6.
  - rewrite Hpm. apply N6.
  - intros He. rewrite Hps; [by apply N6|]. revert He. unfold sched_enabled.
    by rewrite (fr_sys _ _ _ _ _ _ N6).
  - rewrite O4. apply map_eq. intros s. apply N6. by apply Hql.
  - rewrite O5. apply map_eq. intros s. apply N6. by apply Hql.
  - intros q' Hq'. rewrite O6. apply N6; unfold queue_lists; rewrite !not_elem_of_cons, elem_of_nil;
      naive_solver.
  - rewrite O7. apply map_eq. intros s. apply N6. by apply Hql.
  - by rewrite Htk'.
  - intros t v (c & HT & Hd & Hv). destruct (decide (t ∈ ws)) as [Hin|Hn].
    + left. destruct (N5 t Hin) as (_ & c1 & HT1 & Hr & _). destruct (HT' _ _ HT1) as [n HT2].
      eexists. split; [exact HT2|]. destruct (expired_flags c1) as [F1 _]. by destruct (due k1 t).
    + destruct (fr_tasks _ _ _ _ _ _ N6 t c Hn HT) as (c1 & HT1 & Hf). destruct (HT' _ _ HT1) as [n HT2].
      pose proof (fr_wakes _ _ _ _ _ _ N6 t Hn) as Hv1. simpl in Hv1. rewrite Hv in Hv1.
      rewrite <- (sf_delayed _ _ Hf) in Hd. destruct (due k1 t) eqn:Hdue.
      * left. eexists. split; [exact HT2|]. apply (expired_flags c1).
      * right. split; [eexists; split; [exact HT2|]; by rewrite (item_val_same _ _ _ Hsd)|].
        rewrite Htk'. intros ->. by rewrite (timed_due k1 A1 t c1) in Hdue.
Qed.
