(* ===== verification/SleepSpec.v ===== *)
(** * A task that sleeps for [n] ticks wakes at the [n]-th tick *)

From S2P Require Import Prelude TaskList TaskListSpec Mem Priority Kernel Sched KernelInv.
From S2P Require Import SchedSpec Task Sem IpcSpec SemSpec Queue QueueSpec Swtmr Tick TickSpec.
From S2P Require Import KernelCheck Boot.

(** The next [n] ticks. *)
Fixpoint ticks (n : nat) : kprog unit :=
  match n with
  | O => mret tt
  | S n' => ticks n';; dos_tick_update
  end.

(** The task sleeps until the tick counter is [v]. *)
Record sleeping (k : kernel) (t v : Z) : Prop := {
  sp_task : exists c, k_tcbs k !! t = Some c /\ ready c = false /\ delayed c = true /\
            suspended c = false;
  sp_value : item_val (k_store k) (StatusItem t) = v
}.

Lemma not_timer_waiter k A t c :
  kinv k A -> k_tcbs k !! t = Some c -> suspended c = false -> ~ timer_waiter k t.
Proof.
  intros HI HT Hs Htw. destruct (tk_pend _ _ _ (ti_task _ _ _ _ _ HI _ _ HT)) as (l & Hl & Hok).
  unfold timer_waiter in Htw. rewrite Hl in Htw. simplify_eq. simpl in Hok. congruence.
Qed.

Lemma u32_add_inj x i j :
  0 <= i < 2 ^ 32 -> 0 <= j < 2 ^ 32 -> u32 (x + i) = u32 (x + j) -> i = j.
Proof.
  unfold u32. intros Hi Hj E.
  assert (H : (x + i - (x + j)) mod 2 ^ 32 = 0) by (rewrite Zminus_mod, E, Z.sub_diag; done).
  replace (x + i - (x + j)) with (i - j) in H by lia.
  apply Z.mod_divide in H as [q Hq]; lia.
Qed.

Lemma u32_add_l x y : u32 (u32 x + y) = u32 (x + y).
Proof. unfold u32. apply Zplus_mod_idemp_l. Qed.

(** One tick: the task wakes or goes on sleeping. *)
Lemma tick_sleeping k A t v :
  kinv k A -> swtmr_ready k A -> sleeping k t v ->
  exists k' A', dos_tick_update k = Done (tt, k') /\ kinv k' A' /\ swtmr_ready k' A' /\
    dos_tick_count (k_task k') = u32 (dos_tick_count (k_task k) + 1) /\
    if v =? u32 (dos_tick_count (k_task k) + 1)
    then exists c, k_tcbs k' !! t = Some c /\ ready c = true
    else sleeping k' t v.
Proof.
  intros HI Hsw [(c & HT & Hr & Hd & Hs) Hv].
  destruct (tick_update_spec k A HI Hsw)
    as (k' & A' & Hrun & HI' & Hsw' & Htick & _ & _ & Hsd & _ & Hother & Hwake).
  exists k', A'. split_and!; try done.
  assert (Hw : wakes k t c = (v =? u32 (dos_tick_count (k_task k) + 1)))
    by (unfold wakes; by rewrite Hd, Hv).
  rewrite <- Hw. destruct (wakes k t c) eqn:E; [by apply (Hwake t c)|].
  destruct (Hother t c HT) as [n HT']; [by eapply not_timer_waiter|]. rewrite E in HT'.
  split; [by exists (set_task_tick n c)|]. by rewrite (item_val_same _ _ _ Hsd).
Qed.

(** A sleeping task is woken by the [n]-th tick and by none before it. *)
Lemma sleeping_ticks k A t n : forall j : nat,
  kinv k A -> swtmr_ready k A -> 0 < n < 2 ^ 32 ->
  sleeping k t (u32 (dos_tick_count (k_task k) + n)) -> Z.of_nat j <= n ->
  exists k' A', ticks j k = Done (tt, k') /\ kinv k' A' /\ swtmr_ready k' A' /\
    dos_tick_count (k_task k') = u32 (dos_tick_count (k_task k) + Z.of_nat j) /\
    if Z.of_nat j =? n then exists c, k_tcbs k' !! t = Some c /\ ready c = true
    else sleeping k' t (u32 (dos_tick_count (k_task k) + n)).
Proof.
  intros j HI Hsw Hn Hsl. induction j as [|j IH]; intros Hj.
  - exists k, A. split_and!; try done.
    + rewrite Z.add_0_r. symmetry. apply u32_small. apply (sl_tick _ _ _ (ti_sleep _ _ _ _ _ HI)).
    + destruct (Z.eqb_spec (Z.of_nat 0) n); [lia|done].
  - destruct IH as (k1 & A1 & Hrun1 & HI1 & Hsw1 & Htick1 & Hst); [lia|].
    destruct (Z.eqb_spec (Z.of_nat j) n); [lia|].
    destruct (tick_sleeping k1 A1 t _ HI1 Hsw1 Hst) as (k2 & A2 & Hrun2 & HI2 & Hsw2 & Htick2 & Hst2).
    assert (Hnext : u32 (dos_tick_count (k_task k1) + 1) =
              u32 (dos_tick_count (k_task k) + Z.of_nat (S j))).
    { rewrite Htick1, u32_add_l. f_equal. lia. }
    exists k2, A2. split_and!; try done; [by simpl; run_with Hrun1 | by rewrite Htick2|].
    rewrite Hnext in Hst2.
    destruct (Z.eqb_spec (u32 (dos_tick_count (k_task k) + n))
      (u32 (dos_tick_count (k_task k) + Z.of_nat (S j)))) as [E|E],
      (Z.eqb_spec (Z.of_nat (S j)) n) as [E'|E']; try done.
    + apply u32_add_inj in E; lia.
    + rewrite E' in E. done.
Qed.

(** [dos_task_sleep] puts the calling task to sleep. *)
Lemma task_sleep_spec k A c n :
  let t := dos_current_task (k_task k) in
  kinv k A -> swtmr_ready k A -> caller k c -> 0 < n < 2 ^ 32 ->
  exists k' A', dos_task_sleep n k = Done (tt, k') /\ kinv k' A' /\ swtmr_ready k' A' /\
    dos_tick_count (k_task k') = dos_tick_count (k_task k) /\
    sleeping k' t (u32 (dos_tick_count (k_task k) + n)) /\
    primask (k_cpu k') = primask (k_cpu k).
Proof.
  intros t HI Hsw [HT Hr Hs Hidle] Hn. unfold dos_task_sleep.
  destruct (Z.eqb_spec n 0); [lia|]. kstep. set (k1 := assign_primask 1 k).
  destruct (sleep_insert_spec k1 A c n HI HT Hidle Hn)
    as (k2 & m & Hrun2 & HI2 & HT2 & Hg2 & Hl2 & Hv2 & _ & Hr2).
  destruct (scheduler_ok k2 _ _ HI2) as (k3 & Hrun3 & Hrs).
  pose proof (rescheduled_times _ _ Hrs) as Hg3.
  exists (assign_primask (primask (k_cpu k)) k3). eexists. split_and!.
  - run_with Hrun2. by run_with Hrun3.
  - exact (rescheduled_kinv _ _ _ HI2 Hrs).
  - destruct Hsw as (Q1 & (a & Q2) & Q3).
    pose proof (rescheduled_objs _ _ Hrs) as Ho. pose proof (same_rest_objs _ _ Hr2) as Ho2.
    unfold swtmr_ready, queue_view. simpl.
    rewrite (so_swtmr _ _ Ho), (so_queues _ _ Ho), (so_swtmr _ _ Ho2), (so_queues _ _ Ho2). simpl.
    split_and!; [done | by exists a |].
    unfold slept_lists. by apply insert_lookup_is_some, fmap_lookup_is_some.
  - simpl. rewrite (st_tick _ _ Hg3), Hg2. apply sleep_globals_tick.
  - destruct (rescheduled_task _ _ t (asleep c) Hrs) as [n' HT3].
    { rewrite HT2. apply lookup_insert_eq. }
    destruct (asleep_flags c) as (F1 & F2 & F3 & _). split.
    + exists (set_task_tick n' (asleep c)). split_and!; try done. change (suspended (asleep c) = false).
      congruence.
    + simpl. rewrite (rs_store _ _ Hrs), Hv2. by rewrite decide_True.
  - done.
Qed.

Lemma demo_swtmr_ready : swtmr_ready demo (lists_of demo).
Proof.
  split_and!; [vm_compute; discriminate | | apply is_some_check; by_eval].
  exists (mk_aqueue [] 0 0). apply (view_check_sound _ _ _ _ 0). by_eval.
Qed.

Lemma demo_sleep_swtmr_ready : swtmr_ready demo_sleep (lists_of demo_sleep).
Proof.
  split_and!; [vm_compute; discriminate | | apply is_some_check; by_eval].
  exists (mk_aqueue [] 0 0). apply (view_check_sound _ _ _ _ 0). by_eval.
Qed.

(** C6: [dos_task_sleep(n)], called by a task other than the idle task, sleeps for
    exactly [n] ticks, for every positive 32-bit [n] (with 0 it only reschedules) and
    every value of the tick counter, also when the wake-up time wraps around:
    after the call and [j] ticks with [j <= n], none of them faulting, the caller
    is ready if [j = n] and still asleep if [j < n].  The kernel invariant holds
    throughout, and the tick counter has advanced by [j] modulo 2^32. *)
Theorem sleep_exact k A c n (j : nat) :
  let t := dos_current_task (k_task k) in
  kinv k A -> swtmr_ready k A -> caller k c -> 0 < n < 2 ^ 32 -> Z.of_nat j <= n ->
  exists k' A' c', (dos_task_sleep n;; ticks j) k = Done (tt, k') /\ kinv k' A' /\
    dos_tick_count (k_task k') = u32 (dos_tick_count (k_task k) + Z.of_nat j) /\
    k_tcbs k' !! t = Some c' /\ ready c' = (Z.of_nat j =? n).
Proof.
  intros t HI Hsw Hc Hn Hj.
  destruct (task_sleep_spec k A c n HI Hsw Hc Hn) as (k1 & A1 & Hrun1 & HI1 & Hsw1 & Htick1 & Hsl & _).
  fold t in Hsl. rewrite <- Htick1 in Hsl.
  destruct (sleeping_ticks k1 A1 t n j HI1 Hsw1 Hn Hsl Hj)
    as (k2 & A2 & Hrun2 & HI2 & _ & Htick2 & Hst).
  assert (exists c', k_tcbs k2 !! t = Some c' /\ ready c' = (Z.of_nat j =? n)) as (c' & HT & Hr).
  { destruct (Z.of_nat j =? n); [done|]. destruct Hst as [(c' & HT & Hr & _) _]. eauto. }
  exists k2, A2, c'. split_and!; try done; [by run_with Hrun1 | by rewrite Htick2, Htick1].
Qed.

Lemma sleep_exact_witness :
  exists k' c', (dos_task_sleep 3;; ticks 3) demo = Done (tt, k') /\
    k_tcbs k' !! task_a = Some c' /\ ready c' = true.
Proof.
  destruct (sleep_exact demo (lists_of demo) (cb demo task_a) 3 3)
    as (k' & A' & c' & Hrun & _ & _ & HT & Hr).
  - by_check.
  - exact demo_swtmr_ready.
  - split; [by_eval | by_eval | by_eval | vm_compute; discriminate].
  - lia.
  - lia.
  - exists k', c'. split; [exact Hrun|].
    assert (E : dos_current_task (k_task demo) = task_a) by by_eval.
    cbv zeta in HT. rewrite E in HT. split; [exact HT | exact Hr].
Defined.

(** ** The interrupt *)

Lemma interrupt_enter_run k :
  exists n, dos_interrupt_enter k = Done (tt, assign_dos_interrupt_count n k).
Proof.
  unfold dos_interrupt_enter, dos_system_is_running, dos_context_is_interrupt.
  destruct k as [? ? ? [? ? i] [] ? ? ? ? ? ? ? ? ? ?]. kstep.
  destruct (negb _ || negb _); [exists i; done | eexists; done].
Qed.

Lemma interrupt_leave_run k A :
  kinv k A -> exists n k', dos_interrupt_leave k = Done (tt, k') /\
    rescheduled (assign_dos_interrupt_count n k) k'.
Proof.
  intros HI. unfold dos_interrupt_leave, dos_system_is_running, dos_context_is_interrupt,
    dos_is_in_interrupt. kstep.
  pose proof (ti_current _ _ _ _ _ HI) as Hcur.
  assert (Hid : assign_primask (primask (k_cpu k)) (assign_primask 1 k) =
                assign_dos_interrupt_count (dos_interrupt_count (k_sys k)) k)
    by (by destruct k as [? ? ? [] [] ? ? ? ? ? ? ? ? ? ?]).
  destruct (negb _ || negb _).
  - eexists _, _. split; [unfold dos_interrupt_enable, modify; rewrite Hid; done|].
    by apply rescheduled_refl.
  - kstep. set (n := u8 _).
    assert (Hset : assign_primask (primask (k_cpu k))
              (assign_dos_interrupt_count n (assign_primask 1 k)) = assign_dos_interrupt_count n k)
      by (by destruct k as [? ? ? [] [] ? ? ? ? ? ? ? ? ? ?]).
    change (dos_interrupt_count (k_sys (assign_dos_interrupt_count n (assign_primask 1 k)))) with n.
    destruct (negb (n =? 0)).
    + exists n. eexists. split; [unfold dos_interrupt_enable, modify; rewrite Hset; done|].
      by apply rescheduled_refl.
    + destruct (scheduler_ok (assign_dos_interrupt_count n k) A _ HI) as (k' & Hrun & Hrs).
      exists n, k'. split; [|done]. unfold dos_interrupt_enable. kstep. by rewrite Hset.
Qed.

(** C5: The tick interrupt wakes exactly the tasks whose time has come.  From any
    state with the kernel invariant and the timer queue in place, the whole
    handler ([dos_interrupt_enter], [dos_tick_update] with its sleep-list switch on
    wrap-around, [dos_interrupt_leave]) ends without a fault; a sleeping or timed
    waiting task whose wake-up time equals the new tick becomes ready, and marked
    as timed out if it was waiting for an object; every other task, the timer
    queue's reader aside, changes at most its time slice. *)
Theorem systick_wakes_due k A :
  kinv k A -> swtmr_ready k A ->
  exists k' A', SysTick_Handler k = Done (tt, k') /\ kinv k' A' /\ swtmr_ready k' A' /\
    dos_tick_count (k_task k') = u32 (dos_tick_count (k_task k) + 1) /\
    dos_current_task (k_task k') = dos_current_task (k_task k) /\
    (forall t c, k_tcbs k !! t = Some c -> ~ timer_waiter k t ->
       exists n, k_tcbs k' !! t = Some (set_task_tick n (if wakes k t c then expired c else c))) /\
    (forall t c, k_tcbs k !! t = Some c -> wakes k t c = true ->
       exists c', k_tcbs k' !! t = Some c' /\ ready c' = true).
Proof.
  intros HI Hsw. destruct (interrupt_enter_run k) as [n Hrun0].
  set (k0 := assign_dos_interrupt_count n k) in *.
  destruct (tick_update_spec k0 A HI Hsw)
    as (k1 & A1 & Hrun1 & HI1 & Hsw1 & Htick & Hcur & _ & _ & _ & Hother & Hwake).
  destruct (interrupt_leave_run k1 A1 HI1) as (n2 & k2 & Hrun2 & Hrs).
  set (k1' := assign_dos_interrupt_count n2 k1) in *.
  pose proof (rescheduled_times _ _ Hrs) as Hg. pose proof (rescheduled_objs _ _ Hrs) as Ho.
  exists k2, A1. split_and!.
  - unfold SysTick_Handler. run_with Hrun0. run_with Hrun1. done.
  - exact (rescheduled_kinv k1' _ _ HI1 Hrs).
  - unfold swtmr_ready, queue_view in *. by rewrite (so_swtmr _ _ Ho), (so_queues _ _ Ho).
  - by rewrite (st_tick _ _ Hg).
  - by rewrite (st_current _ _ Hg).
  - intros t c HT Hnw. destruct (Hother t c HT Hnw) as [m HT1].
    destruct (rescheduled_task k1' k2 t _ Hrs HT1) as [m' HT2]. by exists m'.
  - intros t c HT Hwk. destruct (Hwake t c HT Hwk) as (c1 & HT1 & Hr).
    destruct (rescheduled_task k1' k2 t _ Hrs HT1) as [m' HT2]. by exists (set_task_tick m' c1).
Qed.

Lemma systick_wakes_due_witness :
  exists k' c', SysTick_Handler demo_sleep = Done (tt, k') /\
    k_tcbs k' !! task_a = Some c' /\ ready c' = true.
Proof.
  destruct (systick_wakes_due demo_sleep (lists_of demo_sleep))
    as (k' & A' & Hrun & _ & _ & _ & _ & _ & Hwake); [by_check | exact demo_sleep_swtmr_ready |].
  destruct (Hwake task_a (cb demo_sleep task_a)) as (c' & HT & Hr); [by_eval | by_eval |].
  exists k', c'. split; [exact Hrun|]. split; [exact HT | exact Hr].
Defined.
