(* ===== verification/SwtmrSpec.v ===== *)
(** * Software timers are kept in two sorted rings

    The running timers are in the ring of the current round of the tick counter
    or in that of the next one, each sorted by wake-up time ([timers_rep]).
    Starting a timer is a sorted insertion, stopping one its removal, and the
    timer task handles exactly the timers that are due, in the order of their
    wake-up times. *)

From S2P Require Import Prelude TaskList Ring TaskListSpec Mem MemSpec Priority Kernel Sched KernelInv.
From S2P Require Import Queue Swtmr Tick KernelCheck Boot.

(** ** Fields of the timers *)

Abbreviation timers := (gmap swtmr_ptr dos_swtmr).

Definition tfld {B} (pr : dos_swtmr -> B) (V : timers) (p : swtmr_ptr) : option B := pr <$> V !! p.

Lemma tfld_set {B} (pr : dos_swtmr -> B) f (x : B) V p q :
  is_Some (V !! p) -> (forall v, pr (f v) = x) ->
  tfld pr (alter f p V) q = if decide (q = p) then Some x else tfld pr V q.
Proof.
  intros [v Hv] Hf. unfold tfld. case_decide as E.
  - subst q. rewrite lookup_alter_eq, Hv. simpl. by rewrite Hf.
  - by rewrite lookup_alter_ne.
Qed.

Lemma tfld_keep {B} (pr : dos_swtmr -> B) f V p q :
  (forall v, pr (f v) = pr v) -> tfld pr (alter f p V) q = tfld pr V q.
Proof.
  intros Hf. unfold tfld. destruct (decide (p = q)) as [->|Hne]; [|by rewrite lookup_alter_ne].
  rewrite lookup_alter_eq. destruct (V !! q); simpl; [by rewrite Hf | done].
Qed.

Lemma alter_is_some (f : dos_swtmr -> dos_swtmr) (V : timers) p q :
  is_Some (alter f p V !! q) <-> is_Some (V !! q).
Proof. apply lookup_alter_is_Some. Qed.

Lemma next_set p x V q : is_Some (V !! p) ->
  tfld swtmr_next (alter (swtmr_set_next x) p V) q = if decide (q = p) then Some x else tfld swtmr_next V q.
Proof. intros H. by apply tfld_set. Qed.

Lemma prev_set p x V q : is_Some (V !! p) ->
  tfld swtmr_prev (alter (swtmr_set_prev x) p V) q = if decide (q = p) then Some x else tfld swtmr_prev V q.
Proof. intros H. by apply tfld_set. Qed.

Lemma status_set p x V q : is_Some (V !! p) ->
  tfld swtmr_status (alter (swtmr_set_status x) p V) q = if decide (q = p) then Some x else tfld swtmr_status V q.
Proof. intros H. by apply tfld_set. Qed.

Lemma wake_set p x V q : is_Some (V !! p) ->
  tfld swtmr_wake_time (alter (swtmr_set_wake_time x) p V) q =
  if decide (q = p) then Some x else tfld swtmr_wake_time V q.
Proof. intros H. by apply tfld_set. Qed.

(** Evaluates the fields after a chain of writes. *)
Ltac tfld_eval :=
  repeat first [ rewrite tfld_keep by done
               | rewrite next_set by (rewrite ?alter_is_some; done)
               | rewrite prev_set by (rewrite ?alter_is_some; done)
               | rewrite status_set by (rewrite ?alter_is_some; done)
               | rewrite wake_set by (rewrite ?alter_is_some; done) ].

Lemma swtmr_at_run k p v : k_swtmrs k !! p = Some v -> swtmr_at p k = Done (v, k).
Proof. intros H. unfold swtmr_at. by apply deref_some. Qed.

Lemma upd_swtmr_run p f k :
  is_Some (k_swtmrs k !! p) ->
  upd_swtmr p f k = Done (tt, set_k_swtmrs (alter f p (k_swtmrs k)) k).
Proof.
  intros [v Hv]. unfold upd_swtmr. run_with (swtmr_at_run _ _ _ Hv). unfold modify, put_swtmr.
  do 2 f_equal. f_equal. apply map_eq. intros q. rewrite lookup_alter, lookup_insert.
  case_decide; [subst|done]. by rewrite Hv.
Qed.

Lemma tfld_some {B} (pr : dos_swtmr -> B) V p x :
  tfld pr V p = Some x -> exists v, V !! p = Some v /\ pr v = x.
Proof. unfold tfld. destruct (V !! p) as [v|]; [|done]. intros [= <-]. eauto. Qed.

Definition wake (V : timers) (p : swtmr_ptr) : Z := default 0 (tfld swtmr_wake_time V p).

(** ** Representation *)

Abbreviation timer_ring V e xs := (ring (tfld swtmr_next V) (tfld swtmr_prev V) e (Swtmr <$> xs)).

Definition is_head (p : swtmr_ptr) : bool := match p with Swtmr _ => false | _ => true end.

(** One ring: sorted, behind a head that comes last and does nothing. *)
Record ring_rep (V : timers) (e : swtmr_ptr) (xs : list Z) : Prop := {
  rr_head : is_head e = true;
  rr_ring : timer_ring V e xs;
  rr_sorted : StronglySorted (fun a b => wake V (Swtmr a) <= wake V (Swtmr b)) xs;
  rr_range : forall a, a ∈ xs -> 0 <= wake V (Swtmr a) <= 0xFFFFFFFF;
  rr_last : tfld swtmr_wake_time V e = Some 0xFFFFFFFF;
  rr_idle : tfld swtmr_call_backe V e = Some DOS_NULL
}.

(** A ring does not depend on the fields of other timers. *)
Lemma ring_rep_frame V V' e xs :
  ring_rep V e xs ->
  (forall q, q ∈ e :: (Swtmr <$> xs) -> tfld swtmr_next V' q = tfld swtmr_next V q /\
     tfld swtmr_prev V' q = tfld swtmr_prev V q /\ tfld swtmr_wake_time V' q = tfld swtmr_wake_time V q) ->
  (tfld swtmr_call_backe V' e = tfld swtmr_call_backe V e) -> ring_rep V' e xs.
Proof.
  intros [H1 H2 H3 H4 H5 H6] Hf Hcb.
  assert (Hw : forall a, a ∈ xs -> wake V' (Swtmr a) = wake V (Swtmr a)).
  { intros a Ha. unfold wake. destruct (Hf (Swtmr a)) as (_ & _ & ->); [|done].
    right. apply list_elem_of_fmap. eauto. }
  split; try done.
  - eapply ring_frame; [done|]. intros q Hq. by destruct (Hf q Hq) as (-> & -> & _).
  - clear -H3 Hw. induction H3 as [|a xs Hs IH Hfa]; constructor.
    + apply IH. intros b Hb. apply Hw. by right.
    + rewrite Forall_forall in *. intros b Hb. rewrite !Hw by (by left || by right). by apply Hfa.
  - intros a Ha. rewrite Hw by done. by apply H4.
  - by destruct (Hf e) as (_ & _ & ->); [left|].
  - by rewrite Hcb.
Qed.

(** Nodes of a ring exist. *)
Lemma ring_rep_exists V e xs q : ring_rep V e xs -> q ∈ e :: (Swtmr <$> xs) -> is_Some (V !! q).
Proof.
  intros [_ [Hl _] _ _ H5 _] Hq. apply elem_of_cons in Hq as [->|Hq].
  - destruct (tfld_some _ _ _ _ H5) as (v & Hv & _). eauto.
  - apply list_elem_of_split in Hq as (l1 & l2 & E). rewrite E in Hl.
    destruct (ring_split _ _ _ l1 (q :: l2) Hl) as (_ & Hp & _). simpl in Hp.
    destruct (tfld_some _ _ _ _ Hp) as (v & Hv & _). eauto.
Qed.

(** ** Insertion *)

(** The search stops behind the last timer that is due no later. *)
Lemma swtmr_position_run k e w m1 m2 : forall a fuel,
  linked (tfld swtmr_next (k_swtmrs k)) (tfld swtmr_prev (k_swtmrs k)) (a :: m1 ++ m2 ++ [e]) ->
  (forall x, x ∈ m1 -> wake (k_swtmrs k) x <= w) ->
  (forall x, head (m2 ++ [e]) = Some x -> w < wake (k_swtmrs k) x) -> (length m1 < fuel)%nat ->
  swtmr_position fuel a w k = Done (default a (last m1), k).
Proof.
  induction m1 as [|x m1 IH]; intros a fuel Hl Hle Hgt Hf; (destruct fuel as [|fuel]; [simpl in *; lia|]).
  - destruct (m2 ++ [e]) as [|b r] eqn:E; [by destruct m2|]. destruct Hl as (Hn & Hp & _).
    destruct (tfld_some _ _ _ _ Hn) as (va & Ha & En). destruct (tfld_some _ _ _ _ Hp) as (vb & Hb & _).
    cbn [swtmr_position]. run_with (swtmr_at_run _ _ _ Ha). rewrite En. run_with (swtmr_at_run _ _ _ Hb).
    specialize (Hgt b eq_refl). unfold wake, tfld in Hgt. rewrite Hb in Hgt. simpl in Hgt.
    by rewrite (proj2 (Z.leb_gt _ _)) by lia.
  - simpl in Hl. destruct Hl as (Hn & Hp & Hl).
    destruct (tfld_some _ _ _ _ Hn) as (va & Ha & En). destruct (tfld_some _ _ _ _ Hp) as (vx & Hx & _).
    cbn [swtmr_position]. run_with (swtmr_at_run _ _ _ Ha). rewrite En. run_with (swtmr_at_run _ _ _ Hx).
    pose proof (Hle x ltac:(left)) as Hv. unfold wake, tfld in Hv. rewrite Hx in Hv. simpl in Hv.
    rewrite (proj2 (Z.leb_le _ _)) by lia.
    rewrite (IH x fuel); [ | done | intros y Hy; apply Hle; by right | done | simpl in Hf; lia].
    rewrite last_cons. by destruct (last m1).
Qed.

(** The timers after [p] is linked in between [a] and [b] and runs. *)
Definition timer_linked (p a b : swtmr_ptr) (V : timers) : timers :=
  alter (swtmr_set_status DOS_SWTMR_STATUS_RUNNING) p (alter (swtmr_set_next p) a
    (alter (swtmr_set_prev a) p (alter (swtmr_set_prev p) b (alter (swtmr_set_next b) p V)))).

(** The second half of [_dos_swtmr_start]. *)
Definition start_link (p item : swtmr_ptr) : kprog unit :=
  it ← swtmr_at item;
  upd_swtmr p (swtmr_set_next (swtmr_next it));;
  v ← swtmr_at p;
  upd_swtmr (swtmr_next v) (swtmr_set_prev p);;
  upd_swtmr p (swtmr_set_prev item);;
  upd_swtmr item (swtmr_set_next p);;
  upd_swtmr p (swtmr_set_status DOS_SWTMR_STATUS_RUNNING).

Lemma timer_link_run k p a b :
  tfld swtmr_next (k_swtmrs k) a = Some b -> is_Some (k_swtmrs k !! p) -> is_Some (k_swtmrs k !! b) ->
  start_link p a k = Done (tt, set_k_swtmrs (timer_linked p a b (k_swtmrs k)) k).
Proof.
  intros Hn Hp Hb. unfold start_link. destruct (tfld_some _ _ _ _ Hn) as (va & Ha & En).
  run_with (swtmr_at_run _ _ _ Ha). rewrite En. run_by ltac:(by apply upd_swtmr_run).
  destruct Hp as [vp Hvp].
  run_by ltac:(apply swtmr_at_run; simpl; rewrite lookup_alter_eq, Hvp; reflexivity).
  cbn [swtmr_next swtmr_set_next].
  run_by ltac:(apply upd_swtmr_run; simpl; by apply alter_is_some).
  run_by ltac:(apply upd_swtmr_run; simpl; rewrite !alter_is_some; by eauto).
  run_by ltac:(apply upd_swtmr_run; simpl; rewrite !alter_is_some; by eauto).
  rewrite upd_swtmr_run; [done|]. simpl. rewrite !alter_is_some. by eauto.
Qed.

Lemma timer_linked_fields p a b V :
  is_Some (V !! p) -> is_Some (V !! a) -> is_Some (V !! b) -> p <> a -> p <> b ->
  let V' := timer_linked p a b V in
  (forall q, tfld swtmr_next V' q =
     if decide (q = a) then Some p else if decide (q = p) then Some b else tfld swtmr_next V q) /\
  (forall q, tfld swtmr_prev V' q =
     if decide (q = p) then Some a else if decide (q = b) then Some p else tfld swtmr_prev V q) /\
  (forall q, tfld swtmr_status V' q =
     if decide (q = p) then Some DOS_SWTMR_STATUS_RUNNING else tfld swtmr_status V q) /\
  (forall q, tfld swtmr_wake_time V' q = tfld swtmr_wake_time V q) /\
  (forall q, tfld swtmr_call_backe V' q = tfld swtmr_call_backe V q) /\
  (forall q, tfld swtmr_timeout V' q = tfld swtmr_timeout V q) /\
  (forall q, tfld swtmr_mode V' q = tfld swtmr_mode V q).
Proof.
  intros Hp Ha Hb Hpa Hpb V'. subst V'. unfold timer_linked. split_and!; intros q; tfld_eval; done.
Qed.

(** Sorted insertion into one ring. *)
Lemma ring_rep_insert V e xs a l1 l2 :
  ring_rep V e xs -> a ∉ xs -> is_Some (V !! Swtmr a) -> 0 <= wake V (Swtmr a) <= 0xFFFFFFFF ->
  xs = l1 ++ l2 -> insert_sorted (fun a => wake V (Swtmr a)) a xs = l1 ++ a :: l2 ->
  ring_rep (timer_linked (Swtmr a) (default e (last (Swtmr <$> l1))) (default e (head (Swtmr <$> l2))) V)
    e (l1 ++ a :: l2).
Proof.
  intros HR Ha HV Hw Exs Eins. pose proof HR as [H1 H2 H3 H4 H5 H6].
  set (pa := default e (last (Swtmr <$> l1))). set (pb := default e (head (Swtmr <$> l2))).
  assert (Hnew : Swtmr a ∉ e :: (Swtmr <$> l1) ++ (Swtmr <$> l2)).
  { rewrite <- fmap_app, <- Exs. rewrite elem_of_cons, list_elem_of_fmap.
    intros [<-|(b & [= <-] & Hb)]; done. }
  pose proof (elem_of_default_last e (Swtmr <$> l1)) as Hain. fold pa in Hain.
  pose proof (elem_of_default_head e (Swtmr <$> l2)) as Hbin. fold pb in Hbin.
  assert (Hin : forall q, q ∈ e :: (Swtmr <$> l1) \/ q ∈ e :: (Swtmr <$> l2) -> is_Some (V !! q)).
  { intros q Hq. apply (ring_rep_exists V e xs); [done|]. rewrite Exs, fmap_app. set_solver. }
  destruct (timer_linked_fields (Swtmr a) pa pb V) as (Fn & Fp & Fs & Fw & Fc & _);
    [done | by apply Hin; left | by apply Hin; right | | |].
  { intros E. apply Hnew. rewrite E. clear -Hain. set_solver. }
  { intros E. apply Hnew. rewrite E. clear -Hbin. set_solver. }
  set (V' := timer_linked _ _ _ V) in *.
  assert (Hw' : forall q, wake V' q = wake V q) by (intros q; unfold wake; by rewrite Fw).
  split; try done.
  - rewrite fmap_app. simpl. rewrite Exs, fmap_app in H2.
    apply (ring_insert (tfld swtmr_next V) (tfld swtmr_prev V) e); [done | done |]. by intros q _.
  - rewrite <- Eins. pose proof (insert_sorted_sorted (fun a => wake V (Swtmr a)) a xs H3) as Hs.
    clear -Hs Hw'. induction Hs as [|x ys Hs IH Hf]; constructor; [done|].
    rewrite Forall_forall in *. intros y Hy. rewrite !Hw'. by apply Hf.
  - intros b Hb. rewrite Hw'. rewrite <- Eins in Hb. apply elem_of_insert_sorted in Hb as [->|Hb]; [done|].
    by apply H4.
  - by rewrite Fw.
  - by rewrite Fc.
Qed.

(** ** Removal *)

(** The timers after [p], between [a] and [b], was taken out of its ring. *)
Definition timer_unlinked (p a b : swtmr_ptr) (V : timers) : timers :=
  alter (swtmr_set_next p) p (alter (swtmr_set_prev p) p
    (alter (swtmr_set_status DOS_SWTMR_STATUS_STOP) p (alter (swtmr_set_prev a) b
      (alter (swtmr_set_next b) a V)))).

Lemma alter_next_twice x p (V : timers) :
  alter (swtmr_set_next x) p (alter (swtmr_set_next x) p V) = alter (swtmr_set_next x) p V.
Proof.
  apply map_eq. intros i. destruct (decide (p = i)) as [->|Hne].
  - rewrite !lookup_alter_eq. by destruct (V !! i).
  - by rewrite !lookup_alter_ne.
Qed.

Lemma timer_unlink_run k p a b :
  let V := k_swtmrs k in
  let h := dos_swtmr_ptr (k_swtmr k) in
  tfld swtmr_next V p = Some b -> tfld swtmr_prev V p = Some a -> p <> a ->
  is_Some (V !! a) -> is_Some (V !! b) -> is_Some (V !! h) ->
  (tfld swtmr_next V h = Some p -> h = a) ->
  _dos_swtmr_stop p k = Done (tt, set_k_swtmrs (timer_unlinked p a b V) k).
Proof.
  intros V h Hn Hp Hpa Ha Hb [vh Hh] Hfirst.
  destruct (tfld_some _ _ _ _ Hn) as (vp & Hvp & En). destruct (tfld_some _ _ _ _ Hp) as (vp' & Hvp' & Ep).
  assert (vp' = vp) as -> by congruence. unfold _dos_swtmr_stop, getw. kstep. fold h.
  run_with (swtmr_at_run k h vh Hh).
  set (V0 := if decide (swtmr_next vh = p) then alter (swtmr_set_next b) h V else V).
  assert (HV0 : alter (swtmr_set_next b) a V0 = alter (swtmr_set_next b) a V).
  { unfold V0. case_decide as E; [|done]. rewrite Hfirst by (unfold tfld; rewrite Hh; simpl; by rewrite E).
    apply alter_next_twice. }
  assert (Hd : forall q, is_Some (V !! q) -> is_Some (V0 !! q)).
  { intros q Hq. unfold V0. case_decide; [by apply alter_is_some | done]. }
  assert (HVp : V0 !! p = Some vp).
  { unfold V0. case_decide as E; [|done]. rewrite lookup_alter_ne; [done|].
    rewrite Hfirst by (unfold tfld; rewrite Hh; simpl; by rewrite E). done. }
  rewrite (bind_done _ _ _ tt (set_k_swtmrs V0 k)); last first.
  { unfold V0. case_decide.
    - run_with (swtmr_at_run k p vp Hvp). rewrite En. apply upd_swtmr_run. by exists vh.
    - by destruct k. }
  run_by ltac:(apply swtmr_at_run; exact HVp). rewrite En, Ep.
  run_by ltac:(apply upd_swtmr_run; by apply Hd). simpl. rewrite HV0.
  assert (HVp2 : alter (swtmr_set_next b) a V !! p = Some vp) by (by rewrite lookup_alter_ne).
  run_by ltac:(apply swtmr_at_run; exact HVp2). rewrite En, Ep.
  run_by ltac:(apply upd_swtmr_run; simpl; by apply alter_is_some).
  do 2 run_by ltac:(apply upd_swtmr_run; simpl; rewrite !alter_is_some; by eauto).
  rewrite upd_swtmr_run; [done|]. simpl. rewrite !alter_is_some. by eauto.
Qed.

Lemma timer_unlinked_fields p a b V :
  is_Some (V !! p) -> is_Some (V !! a) -> is_Some (V !! b) ->
  let V' := timer_unlinked p a b V in
  (forall q, tfld swtmr_next V' q =
     if decide (q = p) then Some p else if decide (q = a) then Some b else tfld swtmr_next V q) /\
  (forall q, tfld swtmr_prev V' q =
     if decide (q = p) then Some p else if decide (q = b) then Some a else tfld swtmr_prev V q) /\
  (forall q, tfld swtmr_status V' q =
     if decide (q = p) then Some DOS_SWTMR_STATUS_STOP else tfld swtmr_status V q) /\
  (forall q, tfld swtmr_wake_time V' q = tfld swtmr_wake_time V q) /\
  (forall q, tfld swtmr_call_backe V' q = tfld swtmr_call_backe V q) /\
  (forall q, tfld swtmr_timeout V' q = tfld swtmr_timeout V q) /\
  (forall q, tfld swtmr_mode V' q = tfld swtmr_mode V q).
Proof.
  intros Hp Ha Hb V'. subst V'. unfold timer_unlinked. split_and!; intros q; tfld_eval; done.
Qed.

(** The neighbours of a timer in its ring. *)
Lemma ring_neighbours V e l1 a l2 :
  ring_rep V e (l1 ++ a :: l2) ->
  let pa := default e (last (Swtmr <$> l1)) in
  let pb := default e (head (Swtmr <$> l2)) in
  tfld swtmr_next V (Swtmr a) = Some pb /\ tfld swtmr_prev V (Swtmr a) = Some pa /\
  (Swtmr a ∉ e :: (Swtmr <$> l1) ++ (Swtmr <$> l2)) /\ is_Some (V !! pa) /\ is_Some (V !! pb) /\
  tfld swtmr_next V pa = Some (Swtmr a) /\
  (pa ∈ e :: (Swtmr <$> (l1 ++ a :: l2))) /\ (pb ∈ e :: (Swtmr <$> (l1 ++ a :: l2))).
Proof.
  intros HR pa pb. pose proof (rr_ring _ _ _ HR) as [Hl Hnd]. rewrite fmap_app in Hl, Hnd. simpl in Hl, Hnd.
  destruct (ring_split _ _ _ _ _ Hl) as (H1 & H2 & _). simpl in H1, H2. fold pa in H1, H2.
  assert (Hl2 : linked (tfld swtmr_next V) (tfld swtmr_prev V)
    (e :: (((Swtmr <$> l1) ++ [Swtmr a]) ++ (Swtmr <$> l2)) ++ [e])) by (by rewrite <- (app_assoc (Swtmr <$> l1))).
  destruct (ring_split _ _ _ _ _ Hl2) as (H3 & _ & _). rewrite last_snoc in H3. simpl in H3.
  pose proof (elem_of_default_last e (Swtmr <$> l1)) as Ha. fold pa in Ha.
  pose proof (elem_of_default_head e (Swtmr <$> l2)) as Hb. fold pb in Hb.
  assert (Ha' : pa ∈ e :: (Swtmr <$> (l1 ++ a :: l2))) by (rewrite fmap_app; clear -Ha; set_solver).
  assert (Hb' : pb ∈ e :: (Swtmr <$> (l1 ++ a :: l2))) by (rewrite fmap_app; clear -Hb; set_solver).
  split_and!; try done.
  - rewrite app_comm_cons, <- Permutation_middle in Hnd. by apply NoDup_cons in Hnd as [? _].
  - by eapply ring_rep_exists.
  - by eapply ring_rep_exists.
Qed.

Lemma ring_rep_remove V e l1 a l2 :
  ring_rep V e (l1 ++ a :: l2) ->
  ring_rep (timer_unlinked (Swtmr a) (default e (last (Swtmr <$> l1))) (default e (head (Swtmr <$> l2))) V)
    e (l1 ++ l2).
Proof.
  intros HR. pose proof (ring_neighbours _ _ _ _ _ HR) as (Hn & Hp & Hout & Ha & Hb & _).
  set (pa := default e (last (Swtmr <$> l1))) in *. set (pb := default e (head (Swtmr <$> l2))) in *.
  pose proof HR as [H1 H2 H3 H4 H5 H6].
  destruct (timer_unlinked_fields (Swtmr a) pa pb V) as (Fn & Fp & Fs & Fw & Fc & _); [|done|done|].
  { destruct (tfld_some _ _ _ _ Hn) as (v & Hv & _). eauto. }
  set (V' := timer_unlinked _ _ _ V) in *.
  assert (Hw' : forall q, wake V' q = wake V q) by (intros q; unfold wake; by rewrite Fw).
  split; try done.
  - rewrite fmap_app. rewrite fmap_app in H2. simpl in H2.
    apply (ring_remove (tfld swtmr_next V) (tfld swtmr_prev V) e _ _ _ (Swtmr a)); [done|].
    intros q Hq. rewrite Fn, Fp. by rewrite !(decide_False (P := q = Swtmr a)) by (by intros ->).
  - pose proof (StronglySorted_app_remove _ _ _ _ H3) as Hs.
    clear -Hs Hw'. induction Hs as [|x ys Hs IH Hf]; constructor; [done|].
    rewrite Forall_forall in *. intros y Hy. rewrite !Hw'. by apply Hf.
  - intros b Hin. rewrite Hw'. apply H4. clear -Hin. set_solver.
  - by rewrite Fw.
  - by rewrite Fc.
Qed.

(** ** Two rings *)

(** The nodes of two rings are different. *)
Lemma rings_apart e xs e' ys q :
  is_head e = true -> is_head e' = true -> e <> e' -> (forall b, b ∈ xs -> b ∉ ys) ->
  q ∈ e' :: (Swtmr <$> ys) -> q ∉ e :: (Swtmr <$> xs).
Proof.
  intros He He' Hne Hd [->|(b & -> & Hb)%list_elem_of_fmap]%elem_of_cons.
  - intros [E|(b & -> & _)%list_elem_of_fmap]%elem_of_cons; done.
  - intros [<-|(c & [= <-] & Hc)%list_elem_of_fmap]%elem_of_cons; [done|]. by apply (Hd b).
Qed.

(** A change at the nodes of one ring is none of the other. *)
Lemma ring_rep_other V V' e xs e' ys :
  ring_rep V e xs -> ring_rep V e' ys -> e <> e' -> (forall b, b ∈ xs -> b ∉ ys) ->
  (forall q, q ∉ e :: (Swtmr <$> xs) -> V' !! q = V !! q) -> ring_rep V' e' ys.
Proof.
  intros HR HR' Hne Hd HV.
  assert (HV' : forall q, q ∈ e' :: (Swtmr <$> ys) -> V' !! q = V !! q).
  { intros q Hq. apply HV. eapply rings_apart; [apply HR | apply HR' | done | done | done]. }
  eapply ring_rep_frame; [done | |].
  - intros q Hq. unfold tfld. by rewrite HV'.
  - unfold tfld. by rewrite HV' by left.
Qed.

Lemma timer_linked_other p a b V q : q <> p -> q <> a -> q <> b -> timer_linked p a b V !! q = V !! q.
Proof. intros. unfold timer_linked. by rewrite !lookup_alter_ne by done. Qed.

Lemma timer_unlinked_other p a b V q : q <> p -> q <> a -> q <> b -> timer_unlinked p a b V !! q = V !! q.
Proof. intros. unfold timer_unlinked. by rewrite !lookup_alter_ne by done. Qed.

(** The running timers: [cur] are due in this round of the tick counter, [ovf]
    in the next one. *)
Record timers_rep (g : swtmr_globals) (V : timers) (cur ovf : list Z) : Prop := {
  tr_heads : dos_swtmr_ptr g <> dos_swtmr_overflow_ptr g;
  tr_cur : ring_rep V (dos_swtmr_ptr g) cur;
  tr_ovf : ring_rep V (dos_swtmr_overflow_ptr g) ovf;
  tr_disjoint : forall b, b ∈ cur -> b ∉ ovf;
  tr_status : forall b, b ∈ cur ++ ovf <-> tfld swtmr_status V (Swtmr b) = Some DOS_SWTMR_STATUS_RUNNING
}.

(** What the user gave a timer at its creation. *)
Definition timer_data (v : dos_swtmr) : Z * Z * Z * Z :=
  (swtmr_parameter v, swtmr_call_backe v, swtmr_mode v, swtmr_timeout v).

(** Only the wake-up time and the status of [a] may differ. *)
Definition only_timer (a : Z) (V V' : timers) : Prop :=
  (forall b, tfld timer_data V' (Swtmr b) = tfld timer_data V (Swtmr b)) /\
  (forall b, b <> a -> tfld swtmr_wake_time V' (Swtmr b) = tfld swtmr_wake_time V (Swtmr b) /\
                       tfld swtmr_status V' (Swtmr b) = tfld swtmr_status V (Swtmr b)).

Lemma filter_split (l1 l2 : list Z) a :
  NoDup (l1 ++ a :: l2) -> filter (.≠ a) (l1 ++ a :: l2) = l1 ++ l2.
Proof.
  intros Hnd. rewrite filter_app, filter_cons_False by naive_solver.
  apply NoDup_app in Hnd as (_ & Hd & [Ha _]%NoDup_cons).
  rewrite !filter_all; [done | |]; [intros x Hx ->; done | intros x Hx ->]. apply (Hd a Hx). by left.
Qed.

Lemma ring_rep_nodup V e xs : ring_rep V e xs -> NoDup xs.
Proof. intros [_ [_ Hnd] _ _ _ _]. apply NoDup_cons in Hnd as [_ Hnd]. by apply NoDup_fmap_1 in Hnd. Qed.

(** ** Stopping a timer *)

Lemma unlink_two V e l1 a l2 e' ys :
  ring_rep V e (l1 ++ a :: l2) -> ring_rep V e' ys -> e <> e' -> (forall b, b ∈ l1 ++ a :: l2 -> b ∉ ys) ->
  let V' := timer_unlinked (Swtmr a) (default e (last (Swtmr <$> l1))) (default e (head (Swtmr <$> l2))) V in
  ring_rep V' e (l1 ++ l2) /\ ring_rep V' e' ys /\ only_timer a V V' /\
  (forall q, tfld swtmr_wake_time V' q = tfld swtmr_wake_time V q) /\
  tfld swtmr_status V' (Swtmr a) = Some DOS_SWTMR_STATUS_STOP.
Proof.
  intros HR HR' Hne Hd V'.
  pose proof (ring_neighbours _ _ _ _ _ HR) as (Hn & Hp & Hout & Ha & Hb & _ & Hina & Hinb).
  set (pa := default e (last (Swtmr <$> l1))) in *. set (pb := default e (head (Swtmr <$> l2))) in *.
  destruct (timer_unlinked_fields (Swtmr a) pa pb V) as (_ & _ & Fs & Fw & _); [|done|done|].
  { destruct (tfld_some _ _ _ _ Hn) as (v & Hv & _). eauto. }
  fold V' in Fs, Fw. split_and!.
  - by apply ring_rep_remove.
  - eapply (ring_rep_other V V' e (l1 ++ a :: l2)); [done | done | done | done |].
    intros q Hq. apply timer_unlinked_other; intros ->; apply Hq; [|done|done].
    right. apply list_elem_of_fmap. exists a. split; [done|]. apply elem_of_app. right. left.
  - split.
    + intros b. unfold V', timer_unlinked. by rewrite !tfld_keep by done.
    + intros b Hba. rewrite Fw, Fs. rewrite decide_False by congruence. done.
  - done.
  - rewrite Fs. by rewrite decide_True.
Qed.

(** The first timer of a ring. *)
Lemma ring_first V e xs a :
  ring_rep V e xs -> tfld swtmr_next V e = Some (Swtmr a) -> exists xs', xs = a :: xs'.
Proof.
  intros [Hh [Hl _] _ _ _ _] Hn. destruct xs as [|x xs]; simpl in Hl; destruct Hl as [Hx _];
    rewrite Hn in Hx; injection Hx; [by intros <- | intros ->; eauto].
Qed.

(** Removal from one of the rings, whichever of them is the current one. *)
Lemma stop_in_ring k e l1 a l2 e' ys :
  let V := k_swtmrs k in
  ring_rep V e (l1 ++ a :: l2) -> ring_rep V e' ys -> e <> e' -> (forall b, b ∈ l1 ++ a :: l2 -> b ∉ ys) ->
  dos_swtmr_ptr (k_swtmr k) = e \/ dos_swtmr_ptr (k_swtmr k) = e' ->
  exists V', _dos_swtmr_stop (Swtmr a) k = Done (tt, set_k_swtmrs V' k) /\
    ring_rep V' e (l1 ++ l2) /\ ring_rep V' e' ys /\ only_timer a V V' /\
    (forall q, tfld swtmr_wake_time V' q = tfld swtmr_wake_time V q) /\
    tfld swtmr_status V' (Swtmr a) = Some DOS_SWTMR_STATUS_STOP.
Proof.
  intros V HR HR' Hne Hd Hg. pose proof (ring_neighbours _ _ _ _ _ HR) as (Hn & Hp & Hout & Ha & Hb & _).
  eexists. split; [|by apply unlink_two]. apply timer_unlink_run; try done.
  - intros E. apply Hout. rewrite E. pose proof (elem_of_default_last e (Swtmr <$> l1)) as Hin.
    clear -Hin. set_solver.
  - destruct Hg as [->| ->]; [eapply (ring_rep_exists V e) | eapply (ring_rep_exists V e')]; try done; left.
  - destruct Hg as [->| ->]; intros Hf;
      [destruct (ring_first _ _ _ _ HR Hf) as [xs' E] | destruct (ring_first _ _ _ _ HR' Hf) as [xs' E]].
    + destruct l1 as [|x l1]; [done|]. simpl in E. injection E as -> _.
      exfalso. apply Hout. simpl. right. left.
    + exfalso. apply (Hd a); [apply elem_of_app; right; left|]. rewrite E. left.
Qed.

(** Removal from whichever ring the timer is in. *)
Lemma swtmr_stop_run k cur ovf a :
  timers_rep (k_swtmr k) (k_swtmrs k) cur ovf -> a ∈ cur ++ ovf ->
  exists V', _dos_swtmr_stop (Swtmr a) k = Done (tt, set_k_swtmrs V' k) /\
    timers_rep (k_swtmr k) V' (filter (.≠ a) cur) (filter (.≠ a) ovf) /\ only_timer a (k_swtmrs k) V' /\
    (forall q, tfld swtmr_wake_time V' q = tfld swtmr_wake_time (k_swtmrs k) q) /\
    tfld swtmr_status V' (Swtmr a) = Some DOS_SWTMR_STATUS_STOP.
Proof.
  intros [Hh Hc Ho Hd Hs] Hin. set (V := k_swtmrs k) in *. set (g := k_swtmr k) in *.
  assert (Hrun : exists V', _dos_swtmr_stop (Swtmr a) k = Done (tt, set_k_swtmrs V' k) /\
    ring_rep V' (dos_swtmr_ptr g) (filter (.≠ a) cur) /\ ring_rep V' (dos_swtmr_overflow_ptr g) (filter (.≠ a) ovf) /\
    only_timer a V V' /\ (forall q, tfld swtmr_wake_time V' q = tfld swtmr_wake_time V q) /\
    tfld swtmr_status V' (Swtmr a) = Some DOS_SWTMR_STATUS_STOP).
  { pose proof (ring_rep_nodup _ _ _ Hc) as Hndc. pose proof (ring_rep_nodup _ _ _ Ho) as Hndo.
    apply elem_of_app in Hin as [Hin|Hin]; pose proof Hin as (l1 & l2 & ->)%list_elem_of_split;
      rewrite (filter_split l1 l2 a) by done.
    - rewrite (filter_all _ ovf) by (intros x Hx ->; by apply (Hd a)).
      destruct (stop_in_ring k _ l1 a l2 _ _ Hc Ho Hh Hd) as (V' & ?); [by left | by exists V'].
    - rewrite (filter_all _ cur) by (intros x Hx ->; by apply (Hd a)).
      destruct (stop_in_ring k _ l1 a l2 _ _ Ho Hc) as (V' & H1 & H2 & H3 & H4); [done | | by right | by exists V'].
      intros b Hb1 Hb2. by apply (Hd b). }
  destruct Hrun as (V' & Hrun & Hc' & Ho' & [Hdt Hof] & Hw & Hst).
  exists V'. split_and!; try done. split; try done.
  - intros b [_ Hb]%list_elem_of_filter [_ Hb']%list_elem_of_filter. by apply (Hd b).
  - intros b. rewrite <- filter_app, list_elem_of_filter. destruct (decide (b = a)) as [->|Hne].
    + rewrite Hst. split; [by intros [? _] | done].
    + destruct (Hof b Hne) as [_ ->]. rewrite <- Hs. naive_solver.
Qed.

(** ** Starting a timer *)

(** A ring has no more nodes than there are timers. *)
Lemma ring_rep_size V e xs : ring_rep V e xs -> (length xs < size V)%nat.
Proof.
  intros HR. pose proof (rr_ring _ _ _ HR) as [_ Hnd].
  rewrite <- (length_fmap Swtmr xs). change (length (e :: (Swtmr <$> xs)) <= size V)%nat.
  rewrite <- (size_list_to_set (C := gset swtmr_ptr) (e :: (Swtmr <$> xs))), <- (size_dom (D := gset swtmr_ptr)) by done.
  apply subseteq_size. intros q Hq%elem_of_list_to_set. apply elem_of_dom. by eapply ring_rep_exists.
Qed.

Lemma swtmr_position_found k e xs w l1 l2 :
  let V := k_swtmrs k in
  ring_rep V e xs -> w < 0xFFFFFFFF -> xs = l1 ++ l2 ->
  (forall x, x ∈ l1 -> wake V (Swtmr x) <= w) -> (forall x, head l2 = Some x -> w < wake V (Swtmr x)) ->
  swtmr_position (S (size V)) e w k = Done (default e (last (Swtmr <$> l1)), k).
Proof.
  intros V HR Hw E H1 H2. pose proof (rr_ring _ _ _ HR) as [Hl _]. pose proof (ring_rep_size _ _ _ HR) as Hs.
  rewrite E, fmap_app, <- app_assoc in Hl. apply (swtmr_position_run k e w (Swtmr <$> l1) (Swtmr <$> l2)); [done | | |].
  - intros x (y & -> & Hy)%list_elem_of_fmap. by apply H1.
  - intros x Hx. destruct l2 as [|y l2]; simpl in Hx; injection Hx as <-; [|by apply H2].
    change (k_swtmrs k) with V. unfold wake. by rewrite (rr_last _ _ _ HR).
  - rewrite length_fmap. rewrite E, length_app in Hs. lia.
Qed.

(** A timer in no ring is not one of its nodes. *)
Lemma ring_rep_fresh V e xs a q : ring_rep V e xs -> a ∉ xs -> q ∈ e :: (Swtmr <$> xs) -> Swtmr a <> q.
Proof.
  intros HR Ha [->|(b & -> & Hb)%list_elem_of_fmap]%elem_of_cons.
  - intros E. pose proof (rr_head _ _ _ HR) as Hh. by rewrite <- E in Hh.
  - intros [= ->]. done.
Qed.

(** The wake-up time of the timer at an address. *)
Abbreviation due V := (fun b => wake V (Swtmr b)).

Lemma link_two V e xs a l1 l2 e' ys :
  ring_rep V e xs -> ring_rep V e' ys -> e <> e' -> (forall b, b ∈ xs -> b ∉ ys) -> a ∉ xs -> a ∉ ys ->
  is_Some (V !! Swtmr a) -> 0 <= due V a <= 0xFFFFFFFF ->
  xs = l1 ++ l2 -> insert_sorted (due V) a xs = l1 ++ a :: l2 ->
  let V' := timer_linked (Swtmr a) (default e (last (Swtmr <$> l1))) (default e (head (Swtmr <$> l2))) V in
  ring_rep V' e (l1 ++ a :: l2) /\ ring_rep V' e' ys /\ only_timer a V V' /\
  (forall q, tfld swtmr_wake_time V' q = tfld swtmr_wake_time V q) /\
  tfld swtmr_status V' (Swtmr a) = Some DOS_SWTMR_STATUS_RUNNING.
Proof.
  intros HR HR' Hne Hd Hax Hay Ha Hw Exs Eins V'.
  assert (HRa : ring_rep V' e (l1 ++ a :: l2)) by (by apply (ring_rep_insert V e xs)).
  unfold V' in *. clear V'. set (pa := default e (last (Swtmr <$> l1))) in *.
  set (pb := default e (head (Swtmr <$> l2))) in *. set (V' := timer_linked _ _ _ V) in *.
  pose proof (elem_of_default_last e (Swtmr <$> l1)) as Hpa. fold pa in Hpa.
  pose proof (elem_of_default_head e (Swtmr <$> l2)) as Hpb. fold pb in Hpb.
  assert (Hpa' : pa ∈ e :: (Swtmr <$> xs)) by (rewrite Exs, fmap_app; clear -Hpa; set_solver).
  assert (Hpb' : pb ∈ e :: (Swtmr <$> xs)) by (rewrite Exs, fmap_app; clear -Hpb; set_solver).
  pose proof (fun q => ring_rep_fresh V e xs a q HR ltac:(done)) as Hout.
  destruct (timer_linked_fields (Swtmr a) pa pb V) as (_ & _ & Fs & Fw & _);
    [done | by apply (ring_rep_exists V e xs) | by apply (ring_rep_exists V e xs) | by apply Hout | by apply Hout |].
  fold V' in Fs, Fw. split_and!; [done | | | done | ].
  - eapply (ring_rep_frame V); [done | |].
    + intros q Hq. enough (V' !! q = V !! q) as E by (unfold tfld; by rewrite E).
      assert (Hq' : q ∉ e :: (Swtmr <$> xs)).
      { eapply rings_apart; [apply HR | apply HR' | done | done | done]. }
      apply timer_linked_other; [|by intros ->|by intros ->].
      apply not_eq_sym. by apply (ring_rep_fresh V e' ys).
    + unfold V', timer_linked. by rewrite !tfld_keep by done.
  - split.
    + intros b. unfold V', timer_linked. by rewrite !tfld_keep by done.
    + intros b Hba. rewrite Fw, Fs. rewrite decide_False by congruence. done.
  - rewrite Fs. by rewrite decide_True.
Qed.

(** Writing the wake-up time of a timer that is in no ring. *)
Lemma ring_rep_wake V e xs a w :
  ring_rep V e xs -> a ∉ xs -> ring_rep (alter (swtmr_set_wake_time w) (Swtmr a) V) e xs.
Proof.
  intros HR Ha.
  pose proof (fun q => ring_rep_fresh V e xs a q HR ltac:(done)) as Hout.
  eapply ring_rep_frame; [done | |].
  - intros q Hq. unfold tfld. by rewrite lookup_alter_ne by (by apply Hout).
  - by rewrite tfld_keep.
Qed.

(** Where the new timer goes, when its ring is known. *)
Lemma start_in_ring k a e xs e' ys (search : kprog swtmr_ptr) l1 l2 :
  let V := k_swtmrs k in
  ring_rep V e xs -> ring_rep V e' ys -> e <> e' -> (forall b, b ∈ xs -> b ∉ ys) -> a ∉ xs -> a ∉ ys ->
  is_Some (V !! Swtmr a) -> 0 <= due V a <= 0xFFFFFFFF ->
  xs = l1 ++ l2 -> insert_sorted (due V) a xs = l1 ++ a :: l2 ->
  search k = Done (default e (last (Swtmr <$> l1)), k) ->
  exists V', (search ≫= start_link (Swtmr a)) k = Done (tt, set_k_swtmrs V' k) /\
    ring_rep V' e (insert_sorted (due V) a xs) /\ ring_rep V' e' ys /\ only_timer a V V' /\
    (forall q, tfld swtmr_wake_time V' q = tfld swtmr_wake_time V q) /\
    tfld swtmr_status V' (Swtmr a) = Some DOS_SWTMR_STATUS_RUNNING.
Proof.
  intros V HR HR' Hne Hd Hax Hay Ha Hw Exs Eins Hs. eexists. split.
  - run_with Hs. apply timer_link_run; [|done|].
    + pose proof (rr_ring _ _ _ HR) as [Hl _]. rewrite Exs, fmap_app in Hl.
      by destruct (ring_split _ _ _ _ _ Hl) as (? & _).
    + apply (ring_rep_exists V e xs); [done|]. pose proof (elem_of_default_head e (Swtmr <$> l2)) as Hpb.
      rewrite Exs, fmap_app. clear -Hpb. set_solver.
  - rewrite Eins. by apply (link_two V e xs).
Qed.

(** The place the new timer is linked in behind. *)
Definition start_search (fuel : nat) (now w : Z) : kprog swtmr_ptr :=
  if w <? now then head ← getw dos_swtmr_overflow_ptr; swtmr_position fuel head w
  else if w =? 0xFFFFFFFF then head ← getw dos_swtmr_ptr; h ← swtmr_at head; mret (swtmr_prev h)
  else head ← getw dos_swtmr_ptr; swtmr_position fuel head w.

Lemma start_search_run k a now w xs :
  let V := k_swtmrs k in
  let e := if w <? now then dos_swtmr_overflow_ptr (k_swtmr k) else dos_swtmr_ptr (k_swtmr k) in
  ring_rep V e xs -> due V a = w -> 0 <= w < 2 ^ 32 -> 0 <= now < 2 ^ 32 ->
  exists l1 l2, xs = l1 ++ l2 /\ insert_sorted (due V) a xs = l1 ++ a :: l2 /\
    start_search (S (size V)) now w k = Done (default e (last (Swtmr <$> l1)), k).
Proof.
  intros V e HR Ha Hw Hnow. unfold start_search, getw. destruct (Z.eqb_spec w 0xFFFFFFFF) as [E|E].
  - assert (Hlt : (w <? now) = false) by (apply Z.ltb_ge; lia). unfold e in *. rewrite Hlt in *.
    exists xs, []. rewrite app_nil_r. split_and!; [done | |].
    + apply insert_sorted_max. intros x Hx. rewrite Ha, E. by apply (rr_range _ _ _ HR).
    + kstep. pose proof (rr_ring _ _ _ HR) as [Hl _]. rewrite <- (app_nil_r (Swtmr <$> xs)) in Hl.
      destruct (ring_split _ _ _ _ _ Hl) as (_ & Hp & _). destruct (tfld_some _ _ _ _ Hp) as (h & Hh & Eh).
      simpl in Hh. run_with (swtmr_at_run _ _ _ Hh). by rewrite Eh.
  - destruct (insert_sorted_split (due V) a xs) as (l1 & l2 & Exs & Eins & H1 & H2). rewrite Ha in H1, H2.
    exists l1, l2. split_and!; [done | done |]. unfold e. destruct (w <? now) eqn:Hlt; kstep;
      apply (swtmr_position_found k _ xs _ l1 l2); try done; lia.
Qed.

(** The rings after a timer was started; [later] says that it is due in the next round. *)
Definition armed {A} (later next : bool) (ins : list A -> list A) (xs : list A) : list A :=
  if eqb later next then ins xs else xs.

Lemma elem_of_armed later (val : Z -> Z) a cur ovf b :
  b ∈ armed later false (insert_sorted val a) cur ++ armed later true (insert_sorted val a) ovf <->
  b = a \/ b ∈ cur ++ ovf.
Proof.
  unfold armed. destruct later; simpl; rewrite !elem_of_app, elem_of_insert_sorted; naive_solver.
Qed.

(** The search and the linking together. *)
Lemma start_linked k cur ovf a now :
  let V := k_swtmrs k in
  let g := k_swtmr k in
  let later := due V a <? now in
  dos_swtmr_ptr g <> dos_swtmr_overflow_ptr g -> ring_rep V (dos_swtmr_ptr g) cur ->
  ring_rep V (dos_swtmr_overflow_ptr g) ovf -> (forall b, b ∈ cur -> b ∉ ovf) -> a ∉ cur -> a ∉ ovf ->
  is_Some (V !! Swtmr a) -> 0 <= due V a < 2 ^ 32 -> 0 <= now < 2 ^ 32 ->
  exists V', (start_search (S (size V)) now (due V a) ≫= start_link (Swtmr a)) k = Done (tt, set_k_swtmrs V' k) /\
    ring_rep V' (dos_swtmr_ptr g) (armed later false (insert_sorted (due V) a) cur) /\
    ring_rep V' (dos_swtmr_overflow_ptr g) (armed later true (insert_sorted (due V) a) ovf) /\
    only_timer a V V' /\ (forall q, tfld swtmr_wake_time V' q = tfld swtmr_wake_time V q) /\
    tfld swtmr_status V' (Swtmr a) = Some DOS_SWTMR_STATUS_RUNNING.
Proof.
  intros V g later Hh Hc Ho Hd Hac Hao Ha Hw Hnow.
  destruct (start_search_run k a now (due V a) (if later then ovf else cur)) as (l1 & l2 & Exs & Eins & Hs);
    [unfold later; by destruct (due V a <? now) | done | done | done |].
  fold V in Eins, Hs. fold later in Hs. unfold armed. destruct later; simpl.
  - destruct (start_in_ring k a _ _ _ _ (start_search (S (size V)) now (due V a)) l1 l2 Ho Hc) as (V' & H1 & H2 & H3 & H4);
      try done; [intros b Hb1 Hb2; by apply (Hd b) | change (0 <= due V a <= 0xFFFFFFFF); lia | by exists V'].
  - destruct (start_in_ring k a _ _ _ _ (start_search (S (size V)) now (due V a)) l1 l2 Hc Ho) as (V' & H1 & H2 & H3 & H4);
      try done; [change (0 <= due V a <= 0xFFFFFFFF); lia | by exists V'].
Qed.

(** A started timer goes behind those that are due no later, in the ring of the
    round in which it is due. *)
Lemma swtmr_start_run k cur ovf a v :
  let now := dos_tick_count (k_task k) in
  let w := u32 (now + swtmr_timeout v) in
  timers_rep (k_swtmr k) (k_swtmrs k) cur ovf -> k_swtmrs k !! Swtmr a = Some v -> a ∉ cur ++ ovf ->
  0 <= now < 2 ^ 32 ->
  exists V', _dos_swtmr_start (Swtmr a) k = Done (tt, set_k_swtmrs V' k) /\
    timers_rep (k_swtmr k) V' (armed (w <? now) false (insert_sorted (due V') a) cur)
      (armed (w <? now) true (insert_sorted (due V') a) ovf) /\
    only_timer a (k_swtmrs k) V' /\ due V' a = w.
Proof.
  intros now w [Hh Hc Ho Hd Hs] Hv [Hac Hao]%not_elem_of_app Hnow.
  pose proof (u32_range (now + swtmr_timeout v)) as Hw. fold w in Hw.
  unfold _dos_swtmr_start, dos_get_tick. kstep. fold now. run_with (swtmr_at_run _ _ _ Hv). fold w.
  set (V := k_swtmrs k) in *. set (g := k_swtmr k) in *.
  run_by ltac:(apply upd_swtmr_run; by eauto). kstep. fold V.
  set (V1 := alter (swtmr_set_wake_time w) (Swtmr a) V). set (k1 := set_k_swtmrs V1 k).
  assert (Hw1 : wake V1 (Swtmr a) = w).
  { unfold wake, V1. rewrite wake_set by eauto. by rewrite decide_True. }
  change (k_swtmrs k1) with V1. fold (start_search (S (size V1)) now w).
  destruct (start_linked k1 cur ovf a now) as (V' & Hrun & Hc' & Ho' & [Hdt Hof] & Hwk & Hst);
    try done; [by apply ring_rep_wake | by apply ring_rep_wake | apply alter_is_some; by eauto |
               change (0 <= wake V1 (Swtmr a) < 2 ^ 32); lia |].
  change (k_swtmrs k1) with V1 in *. change (k_swtmr k1) with g in *. rewrite Hw1 in Hrun, Hc', Ho'.
  assert (Edue : forall b, due V1 b = due V' b) by (intros b; unfold wake; by rewrite Hwk).
  assert (Ear : forall later next xs,
    armed later next (insert_sorted (due V1) a) xs = armed later next (insert_sorted (due V') a) xs).
  { intros later next xs. unfold armed. case_match; [|done]. by apply insert_sorted_ext. }
  rewrite Ear in Hc', Ho'. exists V'. split_and!; [exact Hrun | | | by rewrite <- Edue].
  - split; try done.
    + intros b. unfold armed. destruct (w <? now); simpl; rewrite elem_of_insert_sorted; naive_solver.
    + intros b. rewrite elem_of_armed. destruct (decide (b = a)) as [->|Hne].
      * rewrite Hst. naive_solver.
      * destruct (Hof b Hne) as [_ ->]. unfold V1. rewrite tfld_keep, <- Hs by done. naive_solver.
  - split; intros b; [rewrite Hdt; unfold V1; by rewrite tfld_keep|]. intros Hb.
    destruct (Hof b Hb) as [-> ->]. unfold V1. rewrite wake_set by eauto.
    rewrite decide_False by congruence. by rewrite tfld_keep.
Qed.

(** ** Commands *)

(** What the timer task sees of the timer [b] is the same in both states. *)
Definition timer_kept (V V' : timers) (b : Z) : Prop :=
  tfld timer_data V' (Swtmr b) = tfld timer_data V (Swtmr b) /\
  tfld swtmr_wake_time V' (Swtmr b) = tfld swtmr_wake_time V (Swtmr b) /\
  tfld swtmr_status V' (Swtmr b) = tfld swtmr_status V (Swtmr b).

Lemma only_timer_kept a V V' b : only_timer a V V' -> b <> a -> timer_kept V V' b.
Proof. intros [H1 H2] Hb. destruct (H2 b Hb). split_and!; auto. Qed.

Lemma timer_kept_trans V1 V2 V3 b : timer_kept V1 V2 b -> timer_kept V2 V3 b -> timer_kept V1 V3 b.
Proof. intros (E1 & E2 & E3) (F1 & F2 & F3). split_and!; congruence. Qed.

Lemma timer_kept_due V V' b : timer_kept V V' b -> due V' b = due V b.
Proof. intros (_ & E & _). unfold wake. by rewrite E. Qed.

Lemma only_timer_trans a V1 V2 V3 : only_timer a V1 V2 -> only_timer a V2 V3 -> only_timer a V1 V3.
Proof.
  intros [H1 H2] [H3 H4]. split; [intros b; congruence|]. intros b Hb.
  destruct (H2 b Hb), (H4 b Hb). split; congruence.
Qed.

(** A timer is running exactly when it is in a ring. *)
Lemma running_iff g V cur ovf a v :
  timers_rep g V cur ovf -> V !! Swtmr a = Some v ->
  if swtmr_status v =? DOS_SWTMR_STATUS_RUNNING then a ∈ cur ++ ovf else a ∉ cur ++ ovf.
Proof.
  intros HR Hv. pose proof (tr_status _ _ _ _ HR a) as Hs. unfold tfld in Hs. rewrite Hv in Hs. simpl in Hs.
  destruct (Z.eqb_spec (swtmr_status v) DOS_SWTMR_STATUS_RUNNING) as [E|E].
  - apply Hs. by rewrite E.
  - rewrite Hs. by intros [= ?].
Qed.

Lemma filter_out (xs : list Z) a : a ∉ xs -> filter (.≠ a) xs = xs.
Proof. intros Ha. apply filter_all. by intros x Hx ->. Qed.

(** Stopping a timer if it runs. *)
Lemma stop_if_running k cur ovf a v :
  timers_rep (k_swtmr k) (k_swtmrs k) cur ovf -> k_swtmrs k !! Swtmr a = Some v ->
  exists V' v', (if swtmr_status v =? DOS_SWTMR_STATUS_RUNNING then _dos_swtmr_stop (Swtmr a) else mret tt) k =
      Done (tt, set_k_swtmrs V' k) /\
    timers_rep (k_swtmr k) V' (filter (.≠ a) cur) (filter (.≠ a) ovf) /\ only_timer a (k_swtmrs k) V' /\
    V' !! Swtmr a = Some v' /\ timer_data v' = timer_data v /\ swtmr_wake_time v' = swtmr_wake_time v.
Proof.
  intros HR Hv. pose proof (running_iff _ _ _ _ _ _ HR Hv) as Hin. case_match.
  - destruct (swtmr_stop_run k cur ovf a HR Hin) as (V' & Hrun & HR' & Hof & Hw & _).
    pose proof (proj1 Hof a) as Hdt. specialize (Hw (Swtmr a)). unfold tfld in Hdt, Hw. rewrite Hv in Hdt, Hw.
    destruct (V' !! Swtmr a) as [v'|] eqn:Hv'; [|done]. simpl in Hdt, Hw. injection Hdt as ? ? ? ?. injection Hw as ?.
    exists V', v'. split_and!; try done. unfold timer_data. congruence.
  - apply not_elem_of_app in Hin as [Hc Ho]. exists (k_swtmrs k), v.
    rewrite (filter_out _ _ Hc), (filter_out _ _ Ho). split_and!; try done. by destruct k.
Qed.

(** C19: The commands of a software timer.  The running timers are in two lists
    sorted by wake-up time, those due before and those due after the tick counter
    wraps around.  A start command takes the timer out of the list it is in, if any,
    gives it the wake-up time [now + timeout] modulo 2^32, and puts it behind the
    timers that are due no later, in the list of the round in which it is due.  A stop
    command takes it out.  No other timer changes, nor does the rest of the kernel. *)
Theorem swtmr_cmd_refines k cur ovf a v :
  let now := dos_tick_count (k_task k) in
  let w := u32 (now + swtmr_timeout v) in
  let cur0 := filter (.≠ a) cur in
  let ovf0 := filter (.≠ a) ovf in
  timers_rep (k_swtmr k) (k_swtmrs k) cur ovf -> k_swtmrs k !! Swtmr a = Some v ->
  swtmr_status v <> DOS_SWTMR_STATUS_UNUSED -> 0 <= now < 2 ^ 32 ->
  (exists V', _dos_swtmr_cmd_handle dos_swtmr_opt_start (Swtmr a) k = Done (tt, set_k_swtmrs V' k) /\
     timers_rep (k_swtmr k) V' (if w <? now then cur0 else insert_sorted (due V') a cur0)
       (if w <? now then insert_sorted (due V') a ovf0 else ovf0) /\
     only_timer a (k_swtmrs k) V' /\ due V' a = w) /\
  (exists V', _dos_swtmr_cmd_handle dos_swtmr_opt_stop (Swtmr a) k = Done (tt, set_k_swtmrs V' k) /\
     timers_rep (k_swtmr k) V' cur0 ovf0 /\ only_timer a (k_swtmrs k) V').
Proof.
  intros now w cur0 ovf0 HR Hv Hst Hnow.
  destruct (stop_if_running k cur ovf a v HR Hv) as (V1 & v1 & Hrun1 & HR1 & Hof1 & Hv1 & Hdt & _).
  split.
  - injection Hdt as _ _ _ Et.
    destruct (swtmr_start_run (set_k_swtmrs V1 k) cur0 ovf0 a v1) as (V' & Hrun2 & HR2 & Hof2 & Hw2); [done | done | | done |].
    { unfold cur0, ovf0. rewrite <- filter_app, list_elem_of_filter. by intros [? _]. }
    change (dos_tick_count _) with now in HR2, Hw2. rewrite Et in HR2, Hw2. fold w in HR2, Hw2.
    exists V'. split_and!; [ | by unfold armed in HR2; destruct (w <? now) | by eapply only_timer_trans | done].
    unfold _dos_swtmr_cmd_handle. run_with (swtmr_at_run _ _ _ Hv). rewrite (proj2 (Z.eqb_neq _ _) Hst).
    cbn [Z.eqb dos_swtmr_opt_start Pos.eqb]. by run_with Hrun1.
  - exists V1. split_and!; [|done|done]. unfold _dos_swtmr_cmd_handle. run_with (swtmr_at_run _ _ _ Hv).
    by rewrite (proj2 (Z.eqb_neq _ _) Hst).
Qed.

(** ** Deletion *)

(** Memory that is no timer any more. *)
Lemma timers_rep_put g V cur ovf a v :
  timers_rep g V cur ovf -> a ∉ cur ++ ovf -> swtmr_status v <> DOS_SWTMR_STATUS_RUNNING ->
  timers_rep g (<[Swtmr a := v]> V) cur ovf.
Proof.
  intros [Hh Hc Ho Hd Hs] [Hac Hao]%not_elem_of_app Hv.
  assert (Hring : forall e xs, ring_rep V e xs -> a ∉ xs -> ring_rep (<[Swtmr a := v]> V) e xs).
  { intros e xs HR Ha. eapply ring_rep_frame; [done | |].
    - intros q Hq. unfold tfld. rewrite lookup_insert_ne; [done|]. by apply (ring_rep_fresh V e xs).
    - unfold tfld. rewrite lookup_insert_ne; [done|]. apply (ring_rep_fresh V e xs); [done | done | left]. }
  split; [done | by apply Hring | by apply Hring | done |].
  intros b. unfold tfld. destruct (decide (a = b)) as [<-|Hne].
  - rewrite lookup_insert_eq. simpl. rewrite elem_of_app. split; [tauto | by intros [= ?]].
  - rewrite lookup_insert_ne by congruence. apply Hs.
Qed.

(** The states differ in nothing but the timers and the heap. *)
Definition timers_only (k k' : kernel) : Prop :=
  exists V h, k' = set_k_heap h (set_k_swtmrs V k).

Lemma timers_only_refl k : timers_only k k.
Proof. exists (k_swtmrs k), (k_heap k). by destruct k. Qed.

Lemma timers_only_trans k1 k2 k3 : timers_only k1 k2 -> timers_only k2 k3 -> timers_only k1 k3.
Proof. intros (V1 & h1 & ->) (V2 & h2 & ->). by exists V2, h2. Qed.

Lemma timers_only_set V k : timers_only k (set_k_swtmrs V k).
Proof. exists V, (k_heap k). by destruct k. Qed.

(** The heap block of a timer is given back; the timer is not in a list. *)
Lemma swtmr_delete_run k cur ovf bs a sz v :
  let base := MemHead (heap_info (k_heap k)) in
  timers_rep (k_swtmr k) (k_swtmrs k) cur ovf -> heap_rep (k_heap k) bs -> (a, sz) ∈ used_at base bs ->
  k_swtmrs k !! Swtmr a = Some v ->
  swtmr_status v ∈ [DOS_SWTMR_STATUS_CREATE; DOS_SWTMR_STATUS_STOP; DOS_SWTMR_STATUS_RUNNING] ->
  exists k' bs', _dos_swtmr_delete (Swtmr a) k = Done (DOS_OK, k') /\
    timers_rep (k_swtmr k') (k_swtmrs k') (filter (.≠ a) cur) (filter (.≠ a) ovf) /\
    k_swtmr k' = k_swtmr k /\ k_task k' = k_task k /\
    tfld swtmr_status (k_swtmrs k') (Swtmr a) = Some DOS_SWTMR_STATUS_UNUSED /\
    (forall b, b <> a -> timer_kept (k_swtmrs k) (k_swtmrs k') b) /\
    heap_rep (k_heap k') bs' /\ MemHead (heap_info (k_heap k')) = base /\
    used_at base bs ≡ₚ (a, sz) :: used_at base bs' /\ timers_only k k'.
Proof.
  intros base HR Hrep Hu Hv Hst.
  destruct (stop_if_running k cur ovf a v HR Hv) as (V1 & v1 & Hrun1 & HR1 & Hof1 & Hv1 & _).
  destruct (mem_free_ok (k_heap k) bs a sz Hrep Hu) as (h' & bs' & Hfree & Hrep' & Hhead & Hperm & _).
  assert (Ha0 : a <> DOS_NULL).
  { pose proof (used_at_range _ _ _ _ (hr_blks _ _ Hrep) Hu) as (Hr & _). pose proof (hr_begin _ _ Hrep).
    pose proof (hr_head _ _ Hrep). unfold DOS_NULL, MEM_NODE_SIZE, MEM_INFO_SIZE, base in *. lia. }
  set (k1 := set_k_swtmrs V1 k).
  exists (put_swtmr (Swtmr a) swtmr_zero (set_k_heap h' k1)), bs'. split_and!; try done.
  - unfold _dos_swtmr_delete. rewrite decide_False by congruence. run_with (swtmr_at_run _ _ _ Hv).
    assert (Hun : (swtmr_status v =? DOS_SWTMR_STATUS_UNUSED) = false).
    { apply Z.eqb_neq. intros E. rewrite E in Hst. clear -Hst. set_solver. }
    rewrite Hun.
    assert (Hstop : (if (swtmr_status v =? DOS_SWTMR_STATUS_CREATE) || (swtmr_status v =? DOS_SWTMR_STATUS_STOP)
                     then mret tt else _dos_swtmr_stop (Swtmr a)) k = Done (tt, k1)).
    { unfold k1. rewrite <- Hrun1. clear -Hst. rewrite !elem_of_cons, elem_of_nil in Hst. by destruct Hst as [->|[->|[->|[]]]]. }
    run_with Hstop. cbn [swtmr_addr]. unfold dos_mem_free.
    assert (Hfree' : on_heap (Mem.dos_mem_free a) k1 = Done (DOS_OK, set_k_heap h' k1)) by (by apply zoom_done).
    run_with Hfree'. done.
  - apply timers_rep_put; [done | | done]. rewrite <- filter_app, list_elem_of_filter. by intros [? _].
  - unfold tfld. simpl. by rewrite lookup_insert_eq.
  - intros b Hb. eapply timer_kept_trans; [by eapply only_timer_kept|].
    unfold timer_kept, tfld. simpl. by rewrite lookup_insert_ne by congruence.
  - by exists (<[Swtmr a := swtmr_zero]> V1), h'.
Qed.

(** ** Expiry *)

(** A timer the timer task may handle: it calls a function, its period is not
    zero, and it is in a heap block that is in use. *)
Definition timer_ok (h : heap) (bs : list blk) (V : timers) (b : Z) : Prop :=
  exists par cb mode timeout sz, tfld timer_data V (Swtmr b) = Some (par, cb, mode, timeout) /\
    cb <> DOS_NULL /\ 0 < timeout < 2 ^ 32 /\ (b, sz) ∈ used_at (MemHead (heap_info h)) bs.

(** The rings, the heap, and the timers in both. *)
Record timer_state (k : kernel) (cur ovf : list Z) (bs : list blk) : Prop := {
  ts_timers : timers_rep (k_swtmr k) (k_swtmrs k) cur ovf;
  ts_heap : heap_rep (k_heap k) bs;
  ts_ok : forall b, b ∈ cur ++ ovf -> timer_ok (k_heap k) bs (k_swtmrs k) b
}.

(** A function of the user that returns within the tick and leaves the timers
    and the heap alone. *)
Definition callback_ok (callback : Z -> Z -> kprog unit) : Prop :=
  forall f p k, exists k', callback f p k = Done (tt, k') /\ k_swtmrs k' = k_swtmrs k /\
    k_swtmr k' = k_swtmr k /\ k_heap k' = k_heap k /\
    dos_tick_count (k_task k') = dos_tick_count (k_task k).

Lemma timer_ok_kept h bs h' bs' V V' a sz b :
  timer_ok h bs V b -> timer_kept V V' b -> b <> a ->
  MemHead (heap_info h') = MemHead (heap_info h) ->
  used_at (MemHead (heap_info h)) bs ≡ₚ (a, sz) :: used_at (MemHead (heap_info h)) bs' -> timer_ok h' bs' V' b.
Proof.
  intros (par & cb & mode & tm & z & Hd & Hcb & Ht & Hu) (Ek & _) Hne Hh Hp.
  exists par, cb, mode, tm, z. rewrite Ek, Hh. do 3 (split; [done|]).
  rewrite Hp in Hu. apply elem_of_cons in Hu as [Eu|Hu]; [|done]. by injection Eu.
Qed.

(** The lists after the first timer of the current one was handled. *)
Definition rearmed (V' : timers) (now w a : Z) (cur ovf cur' ovf' : list Z) : Prop :=
  due V' a = w /\ cur' = armed (w <? now) false (insert_sorted (due V') a) cur /\
  ovf' = armed (w <? now) true (insert_sorted (due V') a) ovf.

Lemma timer_state_head k a cur ovf bs :
  timer_state k (a :: cur) ovf bs ->
  filter (.≠ a) (a :: cur) = cur /\ filter (.≠ a) cur = cur /\ filter (.≠ a) ovf = ovf.
Proof.
  intros [HR _ _]. pose proof (ring_rep_nodup _ _ _ (tr_cur _ _ _ _ HR)) as [Ha Hnd]%NoDup_cons.
  rewrite filter_cons_False by naive_solver. rewrite !filter_out; try done.
  apply (tr_disjoint _ _ _ _ HR). left.
Qed.

(** The call of the user's function and the removal of the timer. *)
Lemma timeout_fired callback k a cur ovf bs :
  let V := k_swtmrs k in
  callback_ok callback -> timer_state k (a :: cur) ovf bs ->
  exists k1 k2 v v2, V !! Swtmr a = Some v /\ swtmr_call_backe v <> DOS_NULL /\
    callback (swtmr_call_backe v) (swtmr_parameter v) k = Done (tt, k1) /\ timers_only k1 k2 /\
    (callback (swtmr_call_backe v) (swtmr_parameter v);; _dos_swtmr_stop (Swtmr a)) k = Done (tt, k2) /\
    timers_rep (k_swtmr k2) (k_swtmrs k2) cur ovf /\ only_timer a V (k_swtmrs k2) /\
    k_swtmrs k2 !! Swtmr a = Some v2 /\ timer_data v2 = timer_data v /\
    swtmr_status v2 = DOS_SWTMR_STATUS_STOP /\ k_swtmr k2 = k_swtmr k /\ k_heap k2 = k_heap k /\
    dos_tick_count (k_task k2) = dos_tick_count (k_task k).
Proof.
  intros V Hcb HS. pose proof (timer_state_head _ _ _ _ _ HS) as (Ef1 & _ & Ef3). destruct HS as [HR _ Hok].
  destruct (Hok a ltac:(left)) as (par & cb & mode & tm & sz & Hd & Hcbn & _).
  destruct (tfld_some _ _ _ _ Hd) as (v & Hv & Ev). injection Ev as Ep Ec Em Et.
  destruct (Hcb (swtmr_call_backe v) (swtmr_parameter v) k) as (k1 & Hrun1 & E1 & E2 & E3 & E4).
  destruct (swtmr_stop_run k1 (a :: cur) ovf a) as (V2 & Hrun2 & HR2 & Hof2 & _ & Hst2); [by rewrite E1, E2 | left |].
  rewrite E1 in Hof2. rewrite E2, Ef1, Ef3 in HR2. pose proof (proj1 Hof2 a) as Hd2. rewrite Hd in Hd2.
  destruct (tfld_some _ _ _ _ Hd2) as (v2 & Hv2 & Ev2). destruct (tfld_some _ _ _ _ Hst2) as (v3 & Hv3 & Est).
  assert (v3 = v2) as -> by congruence.
  exists k1, (set_k_swtmrs V2 k1), v, v2. split_and!; try done; [congruence | apply timers_only_set | | | ].
  - by run_with Hrun1.
  - cbn [k_swtmr k_swtmrs set_k_swtmrs]. by rewrite E2.
  - rewrite Ev2. unfold timer_data. congruence.
Qed.

(** One turn of the expiry loop. *)
Lemma timeout_handle_run callback k a cur ovf bs :
  let V := k_swtmrs k in
  let now := dos_tick_count (k_task k) in
  let base := MemHead (heap_info (k_heap k)) in
  callback_ok callback -> timer_state k (a :: cur) ovf bs -> 0 <= now < 2 ^ 32 ->
  exists k' cur' ovf' bs', _dos_swtmr_timeout_handle callback (Swtmr a) k = Done (tt, k') /\
    timer_state k' cur' ovf' bs' /\ dos_tick_count (k_task k') = now /\ k_swtmr k' = k_swtmr k /\
    (forall b, b <> a -> timer_kept V (k_swtmrs k') b) /\ MemHead (heap_info (k_heap k')) = base /\
    exists v, V !! Swtmr a = Some v /\
      (exists k1, callback (swtmr_call_backe v) (swtmr_parameter v) k = Done (tt, k1) /\ timers_only k1 k') /\
      (exists fs, fs.*1 = (if swtmr_mode v =? dos_swtmr_mode_period then [] else [a]) /\
         used_at base bs ≡ₚ fs ++ used_at base bs') /\
      if swtmr_mode v =? dos_swtmr_mode_period
      then rearmed (k_swtmrs k') now (u32 (now + swtmr_timeout v)) a cur ovf cur' ovf'
      else tfld swtmr_status (k_swtmrs k') (Swtmr a) = Some DOS_SWTMR_STATUS_UNUSED /\ cur' = cur /\ ovf' = ovf.
Proof.
  intros V now base Hcb HS Hnow. pose proof (timer_state_head _ _ _ _ _ HS) as (_ & Ef2 & Ef3).
  destruct (timeout_fired callback k a cur ovf bs Hcb HS) as
    (k1 & k2 & v & v2 & Hv & Hcbn & Hcall & Honly & Hrun & HR2 & Hof & Hv2 & Hdt & Hst & Eg & Eh & Etk). destruct HS as [HR Hrep Hok].
  injection Hdt as Ep Ec Em Et.
  assert (Hna : a ∉ cur ++ ovf).
  { rewrite (tr_status _ _ _ _ HR2). unfold tfld. rewrite Hv2. simpl. rewrite Hst. done. }
  assert (Hpre : forall (m : dos_swtmr -> kprog unit) r, m v2 k2 = r ->
    (if negb (swtmr_call_backe v =? DOS_NULL) then callback (swtmr_call_backe v) (swtmr_parameter v);;
       _dos_swtmr_stop (Swtmr a);; v ← swtmr_at (Swtmr a); m v else mret tt) k = r).
  { intros m r <-. rewrite (proj2 (Z.eqb_neq _ _) Hcbn). cbn [negb]. rewrite <- bind_assoc. run_with Hrun.
    by run_with (swtmr_at_run _ _ _ Hv2). }
  unfold _dos_swtmr_timeout_handle. setoid_rewrite (bind_done _ _ _ _ _ (swtmr_at_run _ _ _ Hv)).
  destruct (swtmr_mode v =? dos_swtmr_mode_period) eqn:Emode.
  - destruct (swtmr_start_run k2 cur ovf a v2) as (V3 & Hrun3 & HR3 & Hof3 & Hw3); [done | done | done | by rewrite Etk |].
    rewrite Etk, Et in HR3, Hw3. fold now in HR3, Hw3. pose proof (only_timer_trans _ _ _ _ Hof Hof3) as Hof'.
    eexists _, _, _, bs. split; [apply Hpre; rewrite Em, Emode; exact Hrun3|]. split_and!; try done.
    + split; [exact HR3 | simpl; by rewrite Eh|]. intros b. rewrite elem_of_armed. intros Hb. simpl. rewrite Eh.
      destruct (Hok b) as (par & cb & mode & tm & sz & Hd & H1 & H2 & H3); [destruct Hb as [->|]; [left | by right]|].
      exists par, cb, mode, tm, sz. by rewrite (proj1 Hof' b).
    + intros b Hb. by apply (only_timer_kept a).
    + simpl. by rewrite Eh.
    + exists v. split; [done|]. rewrite Emode. split; [|split; [by exists [] | done]].
      exists k1. split; [done|]. eapply timers_only_trans; [exact Honly | apply timers_only_set].
  - destruct (Hok a ltac:(left)) as (_ & _ & _ & _ & sz & _ & _ & _ & Hu). rewrite <- Eh in Hrep, Hu.
    destruct (swtmr_delete_run k2 cur ovf bs a sz v2) as (k' & bs' & Hrun3 & HR3 & Eg3 & Etk3 & Hun & Hk & Hrep3 & Hhd & Hp & Hto);
      [done | done | done | done | rewrite Hst; right; left |].
    rewrite Ef2, Ef3 in HR3. exists k', cur, ovf, bs'. split; [apply Hpre; rewrite Em, Emode; by run_with Hrun3|].
    assert (Hk' : forall b, b <> a -> timer_kept V (k_swtmrs k') b).
    { intros b Hb. eapply timer_kept_trans; [by eapply only_timer_kept | by apply Hk]. }
    rewrite Eh in Hhd, Hp. split_and!; try done; [|by rewrite Etk3 | by rewrite Eg3 |].
    + split; [done | done |]. intros b Hb. assert (b <> a) by (by intros ->).
      apply (timer_ok_kept (k_heap k) bs _ _ V _ a sz); [|by apply Hk' | done | done | done].
      apply Hok. by right.
    + exists v. split; [done|]. rewrite Emode. split_and!; try done; [|by exists [(a, sz)]].
      exists k1. split; [done|]. by eapply timers_only_trans.
Qed.

(** What became of a timer that was due at [now]: a periodic one runs again, for
    its whole period, and a one-shot one is gone. *)
Definition timer_outcome (V V' : timers) (now a : Z) : Prop :=
  exists par cb mode timeout, tfld timer_data V (Swtmr a) = Some (par, cb, mode, timeout) /\
    if mode =? dos_swtmr_mode_period
    then tfld swtmr_status V' (Swtmr a) = Some DOS_SWTMR_STATUS_RUNNING /\ due V' a = u32 (now + timeout)
    else tfld swtmr_status V' (Swtmr a) = Some DOS_SWTMR_STATUS_UNUSED.

(** The outcome is settled by the states around it. *)
Lemma timer_outcome_kept V V1 V2 V' now a :
  timer_kept V V1 a -> timer_outcome V1 V2 now a -> timer_kept V2 V' a -> timer_outcome V V' now a.
Proof.
  intros (E & _) (par & cb & mode & tm & Hd & Ho) HK. exists par, cb, mode, tm. split; [congruence|].
  destruct HK as (_ & Ew & Es). unfold wake. rewrite Ew, Es. exact Ho.
Qed.

Lemma get_swtmr_run k cur ovf :
  timers_rep (k_swtmr k) (k_swtmrs k) cur ovf ->
  _dos_get_swtmr k = Done (default (dos_swtmr_ptr (k_swtmr k)) (head (Swtmr <$> cur)), k).
Proof.
  intros HR. pose proof (rr_ring _ _ _ (tr_cur _ _ _ _ HR)) as [Hl _].
  destruct (ring_split _ _ _ [] (Swtmr <$> cur) Hl) as (Hn & _). simpl in Hn.
  destruct (tfld_some _ _ _ _ Hn) as (h & Hh & En). unfold _dos_get_swtmr, getw. kstep.
  run_with (swtmr_at_run _ _ _ Hh). by rewrite En.
Qed.

(** The list after the first timer was handled: the rest of those that are due,
    and timers that are not. *)
Lemma rearmed_split V V' now a xs rest ovf cur' ovf' timeout :
  0 <= now < 2 ^ 32 -> 0 < timeout < 2 ^ 32 -> rearmed V' now (u32 (now + timeout)) a (xs ++ rest) ovf cur' ovf' ->
  (forall b, b ∈ xs ++ rest -> due V' b = due V b) ->
  (forall b, b ∈ xs -> due V b <= now) -> (forall b, b ∈ rest -> now < due V b) ->
  exists rest', cur' = xs ++ rest' /\ (forall b, b ∈ rest' -> now < due V' b) /\ a ∈ cur' ++ ovf'.
Proof.
  intros Hnow Ht (Ew & -> & ->) Hk Hxs Hr. set (w := u32 (now + timeout)) in *.
  assert (Hne : w <> now).
  { unfold w, u32. intros E. destruct (Z_lt_le_dec (now + timeout) (2 ^ 32)) as [L|L].
    - rewrite Z.mod_small in E by lia. lia.
    - replace (now + timeout) with (now + timeout - 2 ^ 32 + 1 * 2 ^ 32) in E by lia.
      rewrite Z.mod_add, Z.mod_small in E by lia. lia. }
  assert (Hrest : forall b, b ∈ rest -> now < due V' b).
  { intros b Hb. rewrite Hk by (apply elem_of_app; by right). by apply Hr. }
  unfold armed. destruct (Z.ltb_spec w now) as [L|L]; simpl.
  - exists rest. split_and!; [done | done |]. apply elem_of_app. right. apply elem_of_insert_sorted. by left.
  - exists (insert_sorted (due V') a rest). split_and!.
    + apply insert_sorted_skip. intros x Hx. rewrite Ew, Hk by (apply elem_of_app; by left).
      pose proof (Hxs x Hx). lia.
    + intros b [->|Hb]%elem_of_insert_sorted; [lia | by apply Hrest].
    + apply elem_of_app. left. apply elem_of_insert_sorted. by left.
Qed.

(** The functions [cs], each with its parameter, are called one after the other
    on the way from [k] to [k']; around the calls nothing changes but timers and
    heap. *)
Fixpoint called (callback : Z -> Z -> kprog unit) (cs : list (Z * Z)) (k k' : kernel) : Prop :=
  match cs with
  | [] => timers_only k k'
  | c :: cs' => exists k1 k2, timers_only k k1 /\ callback c.1 c.2 k1 = Done (tt, k2) /\ called callback cs' k2 k'
  end.

Lemma called_after callback cs k k1 k' :
  timers_only k k1 -> called callback cs k1 k' -> called callback cs k k'.
Proof.
  intros H. destruct cs as [|c cs]; simpl; [by apply timers_only_trans|].
  intros (k2 & k3 & H1 & H2 & H3). exists k2, k3. split_and!; [by eapply timers_only_trans | done | done].
Qed.

(** What a timer calls, and whether it is a one-shot timer. *)
Definition timer_call (V : timers) (a : Z) : Z * Z :=
  (default 0 (tfld swtmr_call_backe V (Swtmr a)), default 0 (tfld swtmr_parameter V (Swtmr a))).
Definition one_shot (V : timers) (a : Z) : Prop :=
  tfld swtmr_mode V (Swtmr a) <> Some dos_swtmr_mode_period.

Lemma timer_kept_user V V' a : timer_kept V V' a ->
  timer_call V' a = timer_call V a /\ (one_shot V' a <-> one_shot V a).
Proof.
  intros (E & _). unfold timer_call, one_shot, tfld in *.
  destruct (V !! Swtmr a), (V' !! Swtmr a); simpl in *; try done. by injection E as -> -> -> _.
Qed.

Lemma one_shots_kept V V' (xs : list Z) :
  (forall a, a ∈ xs -> timer_kept V V' a) -> filter (one_shot V') xs = filter (one_shot V) xs.
Proof.
  induction xs as [|x xs IH]; intros H; [done|]. destruct (timer_kept_user V V' x) as [_ E]; [apply H; left|].
  rewrite !filter_cons, IH by (intros a Ha; apply H; by right). by repeat case_decide; try tauto.
Qed.

Lemma timer_calls_kept V V' (xs : list Z) :
  (forall a, a ∈ xs -> timer_kept V V' a) -> map (timer_call V') xs = map (timer_call V) xs.
Proof. intros H. apply map_ext_in. intros a Ha%list_elem_of_In. by apply timer_kept_user, H. Qed.

(** The loop of the timer task, from the first timer of the current list. *)
Definition expire (callback : Z -> Z -> kprog unit) (fuel : nat) : kprog unit :=
  p ← _dos_get_swtmr; now ← dos_get_tick; swtmr_timeout_loop callback fuel p now.

(** What the loop leaves: nothing in the current list is due, the timers [xs] that
    were due have called their functions, in order, and have their outcome, no
    other timer changed, and the blocks given back are those of the one-shot
    timers among [xs]. *)
Record expired (callback : Z -> Z -> kprog unit) (k k' : kernel) (xs : list Z) (bs : list blk)
    (cur' ovf' : list Z) (bs' : list blk) : Prop := {
  ex_state : timer_state k' cur' ovf' bs';
  ex_later : forall a, a ∈ cur' -> dos_tick_count (k_task k) < due (k_swtmrs k') a;
  ex_tick : dos_tick_count (k_task k') = dos_tick_count (k_task k);
  ex_kept : forall b, b ∉ xs -> timer_kept (k_swtmrs k) (k_swtmrs k') b;
  ex_outcome : forall a, a ∈ xs -> timer_outcome (k_swtmrs k) (k_swtmrs k') (dos_tick_count (k_task k)) a;
  ex_called : called callback (map (timer_call (k_swtmrs k)) xs) k k';
  ex_head : MemHead (heap_info (k_heap k')) = MemHead (heap_info (k_heap k));
  ex_freed : exists fs, fs.*1 = filter (one_shot (k_swtmrs k)) xs /\
    used_at (MemHead (heap_info (k_heap k))) bs ≡ₚ fs ++ used_at (MemHead (heap_info (k_heap k))) bs'
}.

(** The loop ends at the first timer that is not due. *)
Lemma expire_end callback k cur ovf bs fuel :
  timer_state k cur ovf bs -> dos_tick_count (k_task k) < 0xFFFFFFFF ->
  (forall a, a ∈ cur -> dos_tick_count (k_task k) < due (k_swtmrs k) a) -> expire callback (S fuel) k = Done (tt, k).
Proof.
  intros [HR _ _] Hnow Hc. unfold expire, dos_get_tick. run_with (get_swtmr_run _ _ _ HR). kstep.
  set (p := default _ _). cbn [swtmr_timeout_loop].
  assert (Hp : exists v, k_swtmrs k !! p = Some v /\ dos_tick_count (k_task k) < swtmr_wake_time v).
  { pose proof (tr_cur _ _ _ _ HR) as HRc. destruct cur as [|x cur]; simpl in p; subst p.
    - destruct (tfld_some _ _ _ _ (rr_last _ _ _ HRc)) as (v & Hv & E). exists v. split; [done | lia].
    - destruct (ring_rep_exists _ _ _ (Swtmr x) HRc) as [v Hv]; [right; left|]. exists v. split; [done|].
      specialize (Hc x ltac:(left)). unfold wake, tfld in Hc. by rewrite Hv in Hc. }
  destruct Hp as (v & Hv & Hw). run_with (swtmr_at_run _ _ _ Hv). rewrite Z.geb_leb. by rewrite (proj2 (Z.leb_gt _ _)) by lia.
Qed.

(** One turn, when more timers may be due. *)
Lemma timeout_next callback k a xs rest ovf bs :
  let now := dos_tick_count (k_task k) in
  let base := MemHead (heap_info (k_heap k)) in
  callback_ok callback -> timer_state k (a :: xs ++ rest) ovf bs -> 0 <= now < 2 ^ 32 ->
  (forall b, b ∈ xs -> due (k_swtmrs k) b <= now) -> (forall b, b ∈ rest -> now < due (k_swtmrs k) b) ->
  exists k1 rest1 ovf1 bs1, _dos_swtmr_timeout_handle callback (Swtmr a) k = Done (tt, k1) /\
    timer_state k1 (xs ++ rest1) ovf1 bs1 /\ dos_tick_count (k_task k1) = now /\
    (forall b, b <> a -> timer_kept (k_swtmrs k) (k_swtmrs k1) b) /\
    (forall b, b ∈ rest1 -> now < due (k_swtmrs k1) b) /\
    (a ∉ xs ++ rest) /\ timer_outcome (k_swtmrs k) (k_swtmrs k1) now a /\
    called callback [timer_call (k_swtmrs k) a] k k1 /\ MemHead (heap_info (k_heap k1)) = base /\
    exists fs, fs.*1 = filter (one_shot (k_swtmrs k)) [a] /\ used_at base bs ≡ₚ fs ++ used_at base bs1.
Proof.
  intros now base Hcb HS Hnow Hdue Hrest. pose proof HS as [HR _ Hok].
  pose proof (ring_rep_nodup _ _ _ (tr_cur _ _ _ _ HR)) as Hnd. apply NoDup_cons in Hnd as [Hax _].
  destruct (Hok a ltac:(left)) as (par & cb & mode & tm & sz & Hd & _ & Htm & _).
  destruct (timeout_handle_run callback k a (xs ++ rest) ovf bs Hcb HS Hnow) as
    (k1 & cur1 & ovf1 & bs1 & Hrun1 & HS1 & Etk & _ & Hk1 & Hhd & v & Hv & Hcall & Hfs & Hout).
  pose proof Hd as Hd'. unfold tfld in Hd'. rewrite Hv in Hd'. injection Hd' as Ep Ec Em Et.
  rewrite Em, Et in Hout. fold now in Etk, Hout.
  assert (Hcalled : called callback [timer_call (k_swtmrs k) a] k k1).
  { destruct Hcall as (kc & H1 & H2). exists k, kc. split; [apply timers_only_refl|]. split; [|done].
    unfold timer_call, tfld. by rewrite Hv. }
  assert (Hshot : filter (one_shot (k_swtmrs k)) [a] = if swtmr_mode v =? dos_swtmr_mode_period then [] else [a]).
  { unfold filter, list_filter, one_shot, tfld. rewrite Hv. simpl. case_decide as E; destruct (Z.eqb_spec (swtmr_mode v) dos_swtmr_mode_period);
      try done; [by destruct E; f_equal | congruence]. }
  rewrite <- Hshot in Hfs.
  assert (Hk1' : forall b, b ∈ xs ++ rest -> due (k_swtmrs k1) b = due (k_swtmrs k) b).
  { intros b Hb. apply timer_kept_due, Hk1. by intros ->. }
  destruct (mode =? dos_swtmr_mode_period) eqn:Emode.
  - destruct (rearmed_split (k_swtmrs k) (k_swtmrs k1) now a xs rest ovf cur1 ovf1 tm Hnow Htm Hout Hk1' Hdue Hrest)
      as (rest1 & -> & H1 & H2). exists k1, rest1, ovf1, bs1. split_and!; try done.
    exists par, cb, mode, tm. split; [done|]. rewrite Emode.
    split; [by apply (tr_status _ _ _ _ (ts_timers _ _ _ _ HS1)) | apply Hout].
  - destruct Hout as (Hun & -> & ->). exists k1, rest, ovf, bs1. split_and!; try done.
    + intros b Hb. rewrite Hk1' by (apply elem_of_app; by right). by apply Hrest.
    + exists par, cb, mode, tm. split; [done|]. by rewrite Emode.
Qed.

Lemma expire_run callback xs : forall k rest ovf bs fuel,
  let now := dos_tick_count (k_task k) in
  callback_ok callback -> timer_state k (xs ++ rest) ovf bs -> 0 <= now < 0xFFFFFFFF ->
  (forall a, a ∈ xs -> due (k_swtmrs k) a <= now) -> (forall a, a ∈ rest -> now < due (k_swtmrs k) a) ->
  (length xs < fuel)%nat ->
  exists k' cur' ovf' bs', expire callback fuel k = Done (tt, k') /\
    expired callback k k' xs bs cur' ovf' bs'.
Proof.
  induction xs as [|a xs IH]; intros k rest ovf bs fuel now Hcb HS Hnow Hdue Hrest Hf;
    (destruct fuel as [|fuel]; [simpl in Hf; lia|]).
  - exists k, rest, ovf, bs. split; [by apply (expire_end callback k rest ovf bs); [| lia |]|].
    split; try done; [by intros b ?%elem_of_nil | apply timers_only_refl | by exists []].
  - destruct (timeout_next callback k a xs rest ovf bs Hcb HS) as
      (k1 & rest1 & ovf1 & bs1 & Hrun1 & HS1 & Etk & Hk1 & Hrest1 & Hax & Hout1 & Hc1 & Hh1 & fs1 & Hf1 & Hp1);
      [fold now; lia | intros b Hb; apply Hdue; by right | done |]. fold now in Etk, Hrest1, Hout1.
    assert (Ha : a ∉ xs) by (intros Ha; apply Hax, elem_of_app; by left).
    assert (Hk1x : forall b, b ∈ xs -> timer_kept (k_swtmrs k) (k_swtmrs k1) b).
    { intros b Hb. apply Hk1. by intros ->. }
    destruct (IH k1 rest1 ovf1 bs1 fuel) as (k' & cur' & ovf' & bs' & Hrun2 & HE);
      [done | done | by rewrite Etk | | rewrite Etk; done | simpl in Hf; lia |].
    { intros b Hb. rewrite Etk, (timer_kept_due (k_swtmrs k)); [apply Hdue; by right | by apply Hk1x]. }
    exists k', cur', ovf', bs'. split.
    + unfold expire, dos_get_tick. run_with (get_swtmr_run _ _ _ (ts_timers _ _ _ _ HS)). kstep. simpl default.
      destruct (ring_rep_exists _ _ _ (Swtmr a) (tr_cur _ _ _ _ (ts_timers _ _ _ _ HS))) as [v Hv]; [right; left|].
      cbn [swtmr_timeout_loop]. run_with (swtmr_at_run _ _ _ Hv).
      pose proof (Hdue a ltac:(left)) as Hda. unfold wake, tfld in Hda. rewrite Hv in Hda. simpl in Hda.
      fold now. rewrite Z.geb_leb, (proj2 (Z.leb_le _ _)) by done. run_with Hrun1. exact Hrun2.
    + destruct HE as [E1 E2 E3 E4 E5 E6 E7 (fs2 & Hf2 & Hp2)]. rewrite Etk in *. rewrite Hh1 in *.
      split; try done.
      * intros b [Hba Hbx]%not_elem_of_cons. eapply timer_kept_trans; [by apply Hk1 | by apply E4].
      * intros b [->|Hb]%elem_of_cons.
        -- eapply timer_outcome_kept; [|exact Hout1 | by apply E4]. done.
        -- eapply timer_outcome_kept; [|by apply E5 |done]. by apply Hk1x.
      * destruct Hc1 as (k2 & k3 & C1 & C2 & C3). exists k2, k3. split_and!; [done | done |].
        rewrite (timer_calls_kept (k_swtmrs k)) in E6 by done. by eapply called_after.
      * exists (fs1 ++ fs2). rewrite fmap_app, Hf1, Hf2, (one_shots_kept (k_swtmrs k) (k_swtmrs k1)) by done.
        split; [by rewrite <- filter_app | by rewrite Hp1, Hp2, app_assoc].
Qed.

(** The timers that are due are at the front of a sorted list. *)
Lemma sorted_split (val : Z -> Z) now xs :
  StronglySorted (fun a b => val a <= val b) xs ->
  xs = filter (fun a => val a <= now) xs ++ filter (fun a => now < val a) xs.
Proof.
  induction 1 as [|x xs Hs IH Hf]; [done|]. destruct (Z_le_gt_dec (val x) now) as [L|L].
  - rewrite filter_cons_True, filter_cons_False by lia. simpl. by rewrite <- IH.
  - rewrite Forall_forall in Hf. rewrite filter_cons_False, filter_cons_True by lia.
    assert (E : filter (fun a => val a <= now) xs = []).
    { apply elem_of_nil_inv. intros y [Hy Hin]%list_elem_of_filter. specialize (Hf y Hin). simpl in Hf. lia. }
    rewrite E, filter_all; [done|]. intros y Hin. specialize (Hf y Hin). simpl in Hf. lia.
Qed.

(** C18: Expiry of software timers.  When the wait of the timer task for a command
    times out, its loop ends and has handled exactly the timers that are due, each
    once and in the order of their wake-up times: their functions were called in
    this order, each with its parameter, and nothing but the timers and the heap
    changed around these calls ([called]); a periodic timer runs again with the
    wake-up time [now + timeout] modulo 2^32; a one-shot timer is out of the lists and
    marked unused, and the heap blocks of these timers, and no others, are free
    again ([ex_freed]).  Nothing that is still in the current list is due, and the
    other timers are as they were.  The tick counter is below 0xFFFFFFFF (at that
    value the loop of the code does not end on an empty list), and the functions
    return within the tick and leave timers and heap alone ([callback_ok]). *)
Theorem swtmr_expiry callback k cur ovf bs fuel p msg :
  let now := dos_tick_count (k_task k) in
  let xs := filter (fun a => due (k_swtmrs k) a <= now) cur in
  callback_ok callback -> timer_state k cur ovf bs -> 0 <= now < 0xFFFFFFFF ->
  _dos_get_swtmr k = Done (p, k) -> (length xs < fuel)%nat ->
  exists k' cur' ovf' bs', swtmr_task_handle callback fuel p (DOS_NOK, msg) k = Done (tt, k') /\
    expired callback k k' xs bs cur' ovf' bs'.
Proof.
  intros now xs Hcb HS Hnow Hp Hf.
  pose proof (sorted_split (due (k_swtmrs k)) now cur (rr_sorted _ _ _ (tr_cur _ _ _ _ (ts_timers _ _ _ _ HS)))) as E.
  fold xs in E. set (rest := filter (fun a => now < due (k_swtmrs k) a) cur) in E.
  rewrite E in HS.
  destruct (expire_run callback xs k rest ovf bs fuel) as (k' & cur' & ovf' & bs' & Hrun & HE); try done.
  - by intros a [Ha _]%list_elem_of_filter.
  - by intros a [Ha _]%list_elem_of_filter.
  - exists k', cur', ovf', bs'. split; [|done]. rewrite <- Hrun. unfold expire, swtmr_task_handle. by run_with Hp.
Qed.

(** Deletion of a software timer.  The delete command takes the timer out of its
    list, gives its heap block back, and marks it as unused: a later command for it
    is ignored.  The other timers and the other blocks of the heap are kept. *)
Theorem swtmr_cmd_delete k cur ovf bs a sz v opt :
  let base := MemHead (heap_info (k_heap k)) in
  timers_rep (k_swtmr k) (k_swtmrs k) cur ovf -> heap_rep (k_heap k) bs -> (a, sz) ∈ used_at base bs ->
  k_swtmrs k !! Swtmr a = Some v ->
  swtmr_status v ∈ [DOS_SWTMR_STATUS_CREATE; DOS_SWTMR_STATUS_STOP; DOS_SWTMR_STATUS_RUNNING] ->
  exists k' bs', _dos_swtmr_cmd_handle dos_swtmr_opt_delete (Swtmr a) k = Done (tt, k') /\
    timers_rep (k_swtmr k') (k_swtmrs k') (filter (.≠ a) cur) (filter (.≠ a) ovf) /\
    (forall b, b <> a -> timer_kept (k_swtmrs k) (k_swtmrs k') b) /\
    heap_rep (k_heap k') bs' /\ used_at base bs ≡ₚ (a, sz) :: used_at base bs' /\
    _dos_swtmr_cmd_handle opt (Swtmr a) k' = Done (tt, k').
Proof.
  intros base HR Hrep Hu Hv Hst.
  destruct (swtmr_delete_run k cur ovf bs a sz v HR Hrep Hu Hv Hst) as
    (k' & bs' & Hrun & HR' & _ & _ & Hun & Hk & Hrep' & _ & Hp & _).
  exists k', bs'. split_and!; try done.
  - unfold _dos_swtmr_cmd_handle. run_with (swtmr_at_run _ _ _ Hv).
    transitivity ((_dos_swtmr_delete (Swtmr a);; mret tt) k); [|by run_with Hrun].
    rewrite !elem_of_cons, elem_of_nil in Hst. by destruct Hst as [->|[->|[->|[]]]].
  - destruct (tfld_some _ _ _ _ Hun) as (v' & Hv' & Es). unfold _dos_swtmr_cmd_handle.
    run_with (swtmr_at_run _ _ _ Hv'). by rewrite Es.
Qed.

(** The command that switches the lists when the tick counter wraps around names no
    timer; its handling reads one nevertheless. *)
Lemma overflow_cmd_faults k :
  k_swtmrs k !! Swtmr DOS_NULL = None ->
  _dos_swtmr_cmd_handle dos_swtmr_opt_overflow (Swtmr DOS_NULL) k = Fault.
Proof. intros Hn. unfold _dos_swtmr_cmd_handle, swtmr_at, mbind, prog_bind, deref. by rewrite Hn. Qed.

(** ** Instances *)

#[local] Instance linked_dec {P} `{!EqDecision P} (nx pv : P -> option P) l : Decision (linked nx pv l).
Proof.
  induction l as [|p [|q l] IH]; [left; done | left; done |].
  change (Decision (nx p = Some q /\ pv q = Some p /\ linked nx pv (q :: l))). apply _.
Defined.

Fixpoint sorted_check (val : Z -> Z) (xs : list Z) : bool :=
  match xs with [] => true | x :: xs' => forallb (fun y => val x <=? val y) xs' && sorted_check val xs' end.

Lemma sorted_check_sound val xs :
  sorted_check val xs = true -> StronglySorted (fun a b => val a <= val b) xs.
Proof.
  induction xs as [|x xs IH]; simpl; constructor; [apply IH; by apply andb_true_iff in H as [_ ?]|].
  apply andb_true_iff in H as [H _]. rewrite forallb_forall in H. apply Forall_forall.
  intros y Hy%list_elem_of_In%H. by apply Z.leb_le.
Qed.

Definition ring_check (V : timers) (e : swtmr_ptr) (xs : list Z) : bool :=
  is_head e && bool_decide (timer_ring V e xs) && sorted_check (due V) xs &&
  forallb (fun a => (0 <=? due V a) && (due V a <=? 0xFFFFFFFF)) xs &&
  bool_decide (tfld swtmr_wake_time V e = Some 0xFFFFFFFF) &&
  bool_decide (tfld swtmr_call_backe V e = Some DOS_NULL).

Lemma ring_check_sound V e xs : ring_check V e xs = true -> ring_rep V e xs.
Proof.
  unfold ring_check. rewrite !andb_true_iff, !bool_decide_eq_true.
  intros (((((H1 & H2) & H3) & H4) & H5) & H6). split; try done; [by apply sorted_check_sound|].
  intros a Ha. rewrite forallb_forall in H4. apply list_elem_of_In in Ha. specialize (H4 a Ha).
  by rewrite andb_true_iff, !Z.leb_le in H4.
Qed.

Definition timers_check (g : swtmr_globals) (V : timers) (cur ovf : list Z) : bool :=
  negb (bool_decide (dos_swtmr_ptr g = dos_swtmr_overflow_ptr g)) &&
  ring_check V (dos_swtmr_ptr g) cur && ring_check V (dos_swtmr_overflow_ptr g) ovf &&
  forallb (fun b => negb (bool_decide (b ∈ ovf))) cur &&
  forallb (fun b => bool_decide (tfld swtmr_status V (Swtmr b) = Some DOS_SWTMR_STATUS_RUNNING)) (cur ++ ovf) &&
  forallb (fun x => match x.1 with
                    | Swtmr b => bool_decide (b ∈ cur ++ ovf) || negb (swtmr_status x.2 =? DOS_SWTMR_STATUS_RUNNING)
                    | _ => true
                    end) (map_to_list V).

Lemma timers_check_sound g V cur ovf : timers_check g V cur ovf = true -> timers_rep g V cur ovf.
Proof.
  unfold timers_check. rewrite !andb_true_iff, !forallb_forall, negb_true_iff, bool_decide_eq_false.
  intros (((((H1 & H2) & H3) & H4) & H5) & H6).
  split; [done | by apply ring_check_sound | by apply ring_check_sound | |].
  - intros b Hb%list_elem_of_In%H4. by rewrite negb_true_iff, bool_decide_eq_false in Hb.
  - intros b. split.
    + intros Hb%list_elem_of_In%H5. by apply bool_decide_eq_true in Hb.
    + intros (v & Hv & Es)%tfld_some. apply elem_of_map_to_list, list_elem_of_In, H6 in Hv. cbn [fst snd] in Hv.
      by rewrite Es, orb_false_r, bool_decide_eq_true in Hv.
Qed.

Definition timer_ok_check (h : heap) (bs : list blk) (V : timers) (b : Z) : bool :=
  match V !! Swtmr b with
  | Some v => negb (swtmr_call_backe v =? DOS_NULL) && (0 <? swtmr_timeout v) && (swtmr_timeout v <? 2 ^ 32) &&
              existsb (fun u => u.1 =? b) (used_at (MemHead (heap_info h)) bs)
  | None => false
  end.

Lemma timer_ok_check_sound h bs V b : timer_ok_check h bs V b = true -> timer_ok h bs V b.
Proof.
  unfold timer_ok_check. destruct (V !! Swtmr b) as [v|] eqn:Hv; [|done].
  rewrite !andb_true_iff, negb_true_iff, Z.eqb_neq, !Z.ltb_lt, existsb_exists.
  intros (((H1 & H2) & H3) & ([p sz] & Hin & E%Z.eqb_eq)). simpl in E. subst p.
  exists (swtmr_parameter v), (swtmr_call_backe v), (swtmr_mode v), (swtmr_timeout v), sz.
  split; [unfold tfld; by rewrite Hv|]. split; [done|]. split; [done|]. by apply list_elem_of_In.
Qed.

Definition timer_state_check (k : kernel) (cur ovf : list Z) : bool :=
  let bs := blocks_of (k_heap k) in
  timers_check (k_swtmr k) (k_swtmrs k) cur ovf && heap_check (k_heap k) bs &&
  forallb (timer_ok_check (k_heap k) bs (k_swtmrs k)) (cur ++ ovf).

Lemma timer_state_check_sound k cur ovf :
  timer_state_check k cur ovf = true -> timer_state k cur ovf (blocks_of (k_heap k)).
Proof.
  unfold timer_state_check. rewrite !andb_true_iff, forallb_forall. intros [[H1 H2] H3].
  split; [by apply timers_check_sound | by apply heap_check_sound |].
  intros b Hb%list_elem_of_In%H3. by apply timer_ok_check_sound.
Qed.

(** A one-shot timer beside the periodic one of [Boot], both started; then four
    ticks pass, after which the one-shot timer is due. *)
Definition start_timers : kprog Z :=
  t ← dos_swtmr_create 3 dos_swtmr_mode_one 0x08000601 7;
  _dos_swtmr_cmd_handle dos_swtmr_opt_start (Swtmr (o_swtmr objs));;
  _dos_swtmr_cmd_handle dos_swtmr_opt_start (Swtmr t);;
  mret t.
Definition demo_timers : kernel := after start_timers demo.
Definition timer_once : Z := Eval vm_compute in result_value (start_timers demo) 0.
Definition demo_due : kernel :=
  after (SysTick_Handler;; SysTick_Handler;; SysTick_Handler;; SysTick_Handler) demo_timers.
Definition timer_list : list Z := [timer_once; o_swtmr objs].

(** The timer of [Boot] as it is in [demo_timers]. *)
Definition timer_at (k : kernel) (a : Z) : dos_swtmr := default swtmr_zero (k_swtmrs k !! Swtmr a).

Lemma swtmr_cmd_refines_witness :
  exists V', _dos_swtmr_cmd_handle dos_swtmr_opt_start (Swtmr (o_swtmr objs)) demo_timers =
    Done (tt, set_k_swtmrs V' demo_timers).
Proof.
  destruct (swtmr_cmd_refines demo_timers timer_list [] (o_swtmr objs) (timer_at demo_timers (o_swtmr objs)))
    as [(V' & H & _) _].
  - apply timers_check_sound. by_eval.
  - by_eval.
  - assert (E : (swtmr_status (timer_at demo_timers (o_swtmr objs)) =? DOS_SWTMR_STATUS_UNUSED) = false) by by_eval.
    by apply Z.eqb_neq.
  - assert (E : dos_tick_count (k_task demo_timers) = 0) by by_eval. rewrite E. lia.
  - exists V'. exact H.
Defined.

Lemma swtmr_expiry_witness :
  exists k', swtmr_task_handle (fun _ _ => mret tt) 2 (Swtmr timer_once) (DOS_NOK, []) demo_due = Done (tt, k').
Proof.
  destruct (swtmr_expiry (fun _ _ => mret tt) demo_due timer_list [] (blocks_of (k_heap demo_due)) 2
    (Swtmr timer_once) []) as (k' & _ & _ & _ & H & _).
  - intros f p k. by exists k.
  - apply timer_state_check_sound. by_eval.
  - assert (E : dos_tick_count (k_task demo_due) = 4) by by_eval. rewrite E. lia.
  - apply (get_swtmr_run demo_due timer_list []). apply timers_check_sound. by_eval.
  - apply Nat.ltb_lt. by_eval.
  - exists k'. exact H.
Defined.

Lemma swtmr_cmd_delete_witness :
  exists k', _dos_swtmr_cmd_handle dos_swtmr_opt_delete (Swtmr timer_once) demo_timers = Done (tt, k').
Proof.
  destruct (swtmr_cmd_delete demo_timers timer_list [] (blocks_of (k_heap demo_timers)) timer_once 28
    (timer_at demo_timers timer_once) dos_swtmr_opt_start) as (k' & bs' & H & _).
  - apply timers_check_sound. by_eval.
  - apply heap_check_sound. by_eval.
  - apply list_elem_of_In. vm_compute. tauto.
  - by_eval.
  - assert (E : swtmr_status (timer_at demo_timers timer_once) = DOS_SWTMR_STATUS_RUNNING) by by_eval.
    rewrite E. right. right. left.
  - exists k'. exact H.
Defined.
