(* ===== verification/System.v ===== *)
(** * The running system

    Tasks call the kernel, block in the middle of a call and go on when they
    are scheduled again; the tick interrupt and the context switch come in
    between.  A state of the system is the kernel and, for every task that is
    inside a blocking call, what is left of that call.  A step is a call of the
    running task up to its return or its context switch, the rest of a
    suspended call, the tick interrupt, or the context switch itself.

    No interrupt cuts a step.  The code guarantees that for the work of a call
    that is one masked section with a call of [dos_scheduler] behind it: the
    semaphore and mutex calls, [dos_event_wait], sleeping, the scheduler lock.
    It is an assumption about the run where the code enables interrupts inside
    what is one step here: in the queue calls between the count, the copy, the
    test of the pend list and the waking (queue.c:97-109) and at the end of a
    timed out wait (queue.c:88-94), and in the loop of [dos_event_set], which
    runs under the scheduler lock (event.c:167-183).  For the queue calls the
    assumption matters: [QueueSpec.queue_wake_race] is a run of the code, cut
    by a tick behind queue.c:102, that faults. *)

From S2P Require Import Prelude TaskList Mem Priority Kernel Sched Task Sem Mutex Queue Event Swtmr Tick.

(** ** Calls *)

Inductive api_call : Type :=
| SemPend (sem timeout : Z)
| SemPost (sem : Z)
| MutexPend (mutex timeout : Z)
| MutexPost (mutex : Z)
| QueueRead (queue : Z) (buff : list Z) (size timeout : Z)
| QueueWrite (queue : Z) (buff : list Z) (size timeout : Z)
| EventWait (event wait op timeout : Z)
| EventSet (event set_event : Z)
| Sleep (sleep_tick : Z)
| SchedLock
| SchedUnlock.

(** The result of a call: the error code or the flags, and the caller's buffer. *)
Definition outcome : Type := Z * list Z.

Definition no_buff (m : kprog Z) : kprog outcome := r ← m; mret (r, []).

Definition call_no_buff (c : call Z) : call outcome :=
  match c with Return r => Return (r, []) | Suspend m => Suspend (no_buff m) end.

Definition returns (m : kprog Z) : kprog (call outcome) := r ← m; mret (Return (r, [])).

Definition run_call (a : api_call) : kprog (call outcome) :=
  match a with
  | SemPend sem timeout => c ← dos_sem_pend sem timeout; mret (call_no_buff c)
  | SemPost sem => returns (dos_sem_post sem)
  | MutexPend mutex timeout => c ← dos_mutex_pend mutex timeout; mret (call_no_buff c)
  | MutexPost mutex => c ← dos_mutex_post mutex; mret (call_no_buff c)
  | QueueRead queue buff size timeout => dos_queue_read queue (Some buff) size timeout
  | QueueWrite queue buff size timeout => dos_queue_write queue (Some buff) size timeout
  | EventWait event wait op timeout => c ← dos_event_wait event wait op timeout; mret (call_no_buff c)
  | EventSet event set_event => c ← dos_event_set event set_event; mret (call_no_buff c)
  | Sleep n => returns (dos_task_sleep n;; mret DOS_OK)
  | SchedLock => returns (dos_scheduler_lock;; mret DOS_OK)
  | SchedUnlock => returns (dos_scheduler_unlock;; mret DOS_OK)
  end.

(** How long the caller is willing to wait. *)
Definition timeout_of (a : api_call) : option Z :=
  match a with
  | SemPend _ timeout | MutexPend _ timeout | QueueRead _ _ _ timeout | QueueWrite _ _ _ timeout
  | EventWait _ _ _ timeout | Sleep timeout => Some timeout
  | _ => None
  end.

(** ** Suspended calls *)

Inductive pending : Type :=
| InSemPend (sem : Z)
| InMutexPend (mutex : Z)
| InMutexPost
| InQueue (queue : Z) (buff : list Z) (size op : Z)
| InEventWait (event wait : Z)
| InEventSet (event : Z).

(** The rest of the call, run by task [t]; PRIMASK was clear when it began. *)
Definition resume (t : Z) (p : pending) : kprog outcome :=
  match p with
  | InSemPend _ => no_buff sem_pend_resume
  | InMutexPend _ => no_buff (mutex_pend_resume t)
  | InMutexPost => no_buff (dos_interrupt_enable 0;; mret DOS_OK)
  | InQueue queue buff size op => queue_resume queue buff size op
  | InEventWait _ wait => no_buff (event_wait_resume t wait)
  | InEventSet event => no_buff (v ← event_at event; mret (event_flag v))
  end.

(** The call cuts the size to that of a message before it blocks. *)
Definition message_size (k : kernel) (queue size : Z) : Z :=
  match k_queues k !! queue with Some v => Z.min size (queue_size v) | None => size end.

Definition pending_of (k : kernel) (a : api_call) : option pending :=
  match a with
  | SemPend sem _ => Some (InSemPend sem)
  | MutexPend mutex _ => Some (InMutexPend mutex)
  | MutexPost _ => Some InMutexPost
  | QueueRead queue buff size _ => Some (InQueue queue buff (message_size k queue size) QUEUE_READ)
  | QueueWrite queue buff size _ => Some (InQueue queue buff (message_size k queue size) QUEUE_WRITE)
  | EventWait event wait _ _ => Some (InEventWait event wait)
  | EventSet event _ => Some (InEventSet event)
  | SemPost _ | Sleep _ | SchedLock | SchedUnlock => None
  end.

(** ** Rules of use *)

(** What a caller has to respect: objects exist, buffers are as long as the
    part of the message that is copied, numbers fit their types, the idle task
    does not block, a task does not sleep with the scheduler locked, and
    neither a mutex nor the scheduler is locked more often than its counter
    can count. *)
Definition timeout_ok (k : kernel) (timeout : Z) : Prop :=
  0 <= timeout < 2 ^ 32 /\ dos_current_task (k_task k) <> dos_idle_task (k_task k).

Definition buffer_ok (k : kernel) (queue : Z) (buff : list Z) (size : Z) : Prop :=
  is_Some (k_queues k !! queue) /\ 0 < size /\ message_size k queue size <= Z.of_nat (length buff).

Definition permitted (k : kernel) (a : api_call) : Prop :=
  match a with
  | SemPend sem timeout => is_Some (k_sems k !! sem) /\ timeout_ok k timeout
  | SemPost sem => is_Some (k_sems k !! sem)
  | MutexPend mutex timeout =>
      (exists v, k_mutexes k !! mutex = Some v /\ mutex_count v < 2 ^ 16 - 1) /\ timeout_ok k timeout
  | MutexPost mutex => is_Some (k_mutexes k !! mutex)
  | QueueRead queue buff size timeout | QueueWrite queue buff size timeout =>
      buffer_ok k queue buff size /\ timeout_ok k timeout
  | EventWait event _ _ timeout => is_Some (k_events k !! event) /\ timeout_ok k timeout
  | EventSet event _ => is_Some (k_events k !! event) /\ dos_scheduler_lock_count (k_sys k) < 255
  | Sleep n => timeout_ok k n /\ dos_scheduler_lock_count (k_sys k) = 0
  | SchedLock => dos_scheduler_lock_count (k_sys k) < 255
  | SchedUnlock => True
  end.

(** ** Steps *)

Record system : Type := mk_system {
  sy_kernel : kernel;
  sy_waiting : gmap Z pending
}.

Definition current (k : kernel) : Z := dos_current_task (k_task k).

(** The tick exception: number 15 on the Cortex-M. *)
Definition SYSTICK_IPSR : Z := 15.

Definition assign_ipsr (n : Z) (k : kernel) : kernel :=
  set_k_cpu (mk_cpu (primask (k_cpu k)) n (pendsv (k_cpu k))) k.

Definition tick_interrupt : kprog unit :=
  modify (assign_ipsr SYSTICK_IPSR);;
  SysTick_Handler;;
  modify (assign_ipsr 0).

Inductive event : Type :=
| Call (a : api_call)
| Resume
| TickInterrupt
| ContextSwitch.

(** A pending context switch is taken before the task runs on. *)
Inductive step : event -> system -> system -> Prop :=
| step_return a v k k' W :
    pendsv (k_cpu k) = false -> W !! current k = None -> permitted k a ->
    run_call a k = Done (Return v, k') ->
    step (Call a) (mk_system k W) (mk_system k' W)
| step_suspend a p k k' W :
    pendsv (k_cpu k) = false -> W !! current k = None -> permitted k a ->
    pending_of k a = Some p -> run_call a k = Done (Suspend (resume (current k) p), k') ->
    step (Call a) (mk_system k W) (mk_system k' (<[current k := p]> W))
| step_resume p v k k' W :
    pendsv (k_cpu k) = false -> W !! current k = Some p ->
    resume (current k) p k = Done (v, k') ->
    step Resume (mk_system k W) (mk_system k' (delete (current k) W))
| step_tick k k' W :
    tick_interrupt k = Done (tt, k') ->
    step TickInterrupt (mk_system k W) (mk_system k' W)
| step_switch k k' W :
    pendsv (k_cpu k) = true -> PendSV_Handler k = Done (tt, k') ->
    step ContextSwitch (mk_system k W) (mk_system k' W).

(** The system can go on in every way its state allows: the code that would
    run next does not fault. *)
Definition no_fault (s : system) : Prop :=
  let k := sy_kernel s in let W := sy_waiting s in
  (exists s', step TickInterrupt s s') /\
  (if pendsv (k_cpu k) then exists s', step ContextSwitch s s'
   else match W !! current k with
        | Some _ => exists s', step Resume s s'
        | None => forall a, permitted k a -> exists s', step (Call a) s s'
        end).
