(* ===== verification/SystemInv.v ===== *)
(** * The invariant of the running system

    [sys_inv] is the kernel invariant together with what relates the kernel to
    the calls in progress: every object is well formed, a task waits for an
    object only inside a call on it, and the messages and slots promised to
    woken tasks are there.  [inv_frame] reduces its preservation to the objects
    and tasks a step touches. *)

From S2P Require Import Prelude TaskList TaskListSpec Mem Priority Kernel Sched KernelInv.
From S2P Require Import SchedSpec Sem Mutex Queue IpcSpec FrameSpec SemSpec MutexSpec.
From S2P Require Import QueueSpec System KernelCheck.

(** ** The invariant *)

(** The list on which the caller of a suspended call may be. *)
Definition list_of (p : pending) : list_ptr :=
  match p with
  | InSemPend sem => SemPendList sem
  | InMutexPend mutex => MutexPendList mutex
  | InMutexPost => ListNull
  | InQueue queue _ _ op => QueuePendList queue op
  | InEventWait event _ => EventPendList event
  | InEventSet _ => ListNull
  end.

(** Whether the caller may be waiting; the others only let another task run. *)
Definition waits (p : pending) : bool :=
  match p with InMutexPost | InEventSet _ => false | _ => true end.

(** The task was woken to go on with operation [op] on [queue]. *)
Definition promised_to (k : kernel) (W : gmap Z pending) (queue op t : Z) : bool :=
  match W !! t, k_tcbs k !! t with
  | Some (InQueue q _ _ o), Some c =>
      (q =? queue) && (o =? op) && negb (suspended c) && negb (timed_out c)
  | _, _ => false
  end.

Definition promised (k : kernel) (W : gmap Z pending) (queue op : Z) : gset Z :=
  filter (fun t => promised_to k W queue op t = true) (dom W).

Definition sem_ok (k : kernel) (A : gmap list_ptr (list item_ptr)) (sem : Z) : Prop :=
  sem <> DOS_NULL /\ exists a, sem_view k A sem = Some a /\ asem_inv a.

Definition mutex_ok (k : kernel) (A : gmap list_ptr (list item_ptr)) (mutex : Z) : Prop :=
  mutex <> DOS_NULL /\ exists a, mutex_view k A mutex = Some a /\ amutex_inv k a.

Definition queue_ok (k : kernel) (A : gmap list_ptr (list item_ptr)) (W : gmap Z pending)
    (queue : Z) : Prop :=
  queue <> DOS_NULL /\ is_Some (A !! QueuePendList queue QUEUE_READ) /\
  is_Some (A !! QueuePendList queue QUEUE_WRITE) /\
  exists n z a, queue_view k queue n z a /\
    (size (promised k W queue QUEUE_READ) <= aq_readers a)%nat /\
    (size (promised k W queue QUEUE_WRITE) <= aq_writers a)%nat.

Definition event_ok (k : kernel) (A : gmap list_ptr (list item_ptr)) (event : Z) : Prop :=
  event <> DOS_NULL /\ is_Some (A !! EventPendList event).

(** A suspended call of a queue has a buffer for what it will copy, and one of
    an event group will find it. *)
Definition pending_ok (k : kernel) (p : pending) : Prop :=
  match p with
  | InQueue queue buff size op =>
      (op = QUEUE_READ \/ op = QUEUE_WRITE) /\
      exists v, k_queues k !! queue = Some v /\ 0 < size <= queue_size v /\
        size <= Z.of_nat (length buff)
  | InEventSet event => is_Some (k_events k !! event)
  | _ => True
  end.

(** A task outside of a call is not waiting; inside one it is on the list of
    the call or has been woken. *)
Definition task_inv (k : kernel) (W : gmap Z pending) (t : Z) (c : dos_task_cb) : Prop :=
  t <> DOS_NULL /\
  match W !! t with
  | None => suspended c = false /\ timed_out c = false
  | Some p => pending_ok k p /\
      if waits p then
        (suspended c = true -> loc (k_store k) (PendItem t) = Some (list_of p)) /\
        (suspended c = true -> ready c = true -> timed_out c = true)
      else suspended c = false /\ timed_out c = false
  end.

Record sys_inv_at (k : kernel) (A : gmap list_ptr (list item_ptr)) (W : gmap Z pending) : Prop := {
  si_kinv : kinv k A;
  si_sched : sched_state k A;
  si_running : running k;
  si_primask : primask (k_cpu k) = 0;
  si_ipsr : ipsr (k_cpu k) = 0;
  si_lock : 0 <= dos_scheduler_lock_count (k_sys k) < 256;
  si_sems : forall s, is_Some (k_sems k !! s) -> sem_ok k A s;
  si_mutexes : forall m, is_Some (k_mutexes k !! m) -> mutex_ok k A m;
  si_queues : forall q, is_Some (k_queues k !! q) -> queue_ok k A W q;
  si_events : forall e, is_Some (k_events k !! e) -> event_ok k A e;
  si_timer : exists v, k_queues k !! dos_swtmr_queue (k_swtmr k) = Some v /\
    queue_len v = 4 /\ queue_size v = 8;
  si_tasks : forall t c, k_tcbs k !! t = Some c -> task_inv k W t c
}.

Definition sys_inv (s : system) : Prop := exists A, sys_inv_at (sy_kernel s) A (sy_waiting s).

(** ** Promises *)

Lemma elem_of_promised k W q op t :
  t ∈ promised k W q op <-> exists b sz c, W !! t = Some (InQueue q b sz op) /\
    k_tcbs k !! t = Some c /\ suspended c = false /\ timed_out c = false.
Proof.
  unfold promised, promised_to. rewrite elem_of_filter, elem_of_dom. split.
  - intros [H _]. destruct (W !! t) as [[| | |q' b sz o| |]|]; try done.
    destruct (k_tcbs k !! t) as [c|]; [|done].
    rewrite !andb_true_iff, !negb_true_iff, !Z.eqb_eq in H. naive_solver.
  - intros (b & sz & c & -> & -> & -> & ->). rewrite !Z.eqb_refl. eauto.
Qed.

Lemma size_union_list (X : gset Z) (ws : list Z) :
  (size (X ∪ list_to_set ws) <= size X + length ws)%nat.
Proof.
  revert X. induction ws as [|w ws IH]; intros X; simpl.
  - rewrite union_empty_r_L. lia.
  - rewrite union_assoc_L. etrans; [apply IH|].
    rewrite size_union_alt. pose proof (subseteq_size ({[w]} ∖ X) ({[w]} : gset Z)) as Hs.
    rewrite size_singleton in Hs. specialize (Hs ltac:(set_solver)). lia.
Qed.

(** New promises are only made to the tasks [ws]. *)
Lemma promised_le k k' W W' q op (ws : list Z) :
  (forall t, t ∈ promised k' W' q op -> t ∈ promised k W q op \/ t ∈ ws) ->
  (size (promised k' W' q op) <= size (promised k W q op) + length ws)%nat.
Proof.
  intros H. etrans; [|apply size_union_list]. apply subseteq_size. intros t Ht.
  rewrite elem_of_union, elem_of_list_to_set. by apply H.
Qed.

(** A promise to [t] is kept and gone. *)
Lemma promised_lt k k' W W' q op t (ws : list Z) :
  t ∈ promised k W q op -> t ∉ promised k' W' q op ->
  (forall t', t' ∈ promised k' W' q op -> t' ∈ promised k W q op \/ t' ∈ ws) ->
  (size (promised k' W' q op) < size (promised k W q op) + length ws)%nat.
Proof.
  intros Ht Hn H. eapply Nat.le_lt_trans with (size ((promised k W q op ∖ {[t]}) ∪ list_to_set ws)).
  - apply subseteq_size. intros t' Ht'.
    rewrite elem_of_union, elem_of_list_to_set, elem_of_difference, elem_of_singleton.
    destruct (H t' Ht'); [left|by right]. split; [done|]. by intros ->.
  - eapply Nat.le_lt_trans; [apply size_union_list|].
    assert (0 < size (promised k W q op))%nat.
    { apply Nat.neq_0_lt_0. intros E. apply size_empty_inv in E. set_solver. }
    rewrite size_difference by set_solver. rewrite size_singleton. lia.
Qed.

(** ** Steps that respect a frame *)

(** The queues that exist stay, with their layout, and the event groups. *)
Definition same_layout (k k' : kernel) : Prop :=
  (forall q v, k_queues k !! q = Some v -> exists v', k_queues k' !! q = Some v' /\
     queue_len v' = queue_len v /\ queue_size v' = queue_size v) /\
  (forall e, is_Some (k_events k !! e) -> is_Some (k_events k' !! e)).

Lemma same_layout_eq k k' :
  k_queues k' = k_queues k -> k_events k' = k_events k -> same_layout k k'.
Proof. intros E1 E2. split; [|by rewrite E2]. intros q v Hv. exists v. by rewrite E1. Qed.

Lemma pending_ok_layout k k' p : same_layout k k' -> pending_ok k p -> pending_ok k' p.
Proof.
  intros [HL HE]. destruct p as [| | |q b sz op| |]; try done; [|apply HE].
  intros (Hop & v & Hv & Hs & Hb). destruct (HL q v Hv) as (v' & Hv' & _ & Hz).
  split; [done|]. exists v'. by rewrite Hz.
Qed.

(** A task whose flags and place did not change. *)
Lemma task_inv_same k k' W W' t c c' :
  task_inv k W t c -> same_layout k k' -> W' !! t = W !! t -> same_flags c c' ->
  loc (k_store k') (PendItem t) = loc (k_store k) (PendItem t) -> task_inv k' W' t c'.
Proof.
  intros [H1 H2] HL HW [F1 _ F3 F4] Hl. split; [done|]. rewrite HW, Hl, F1, F3, F4.
  destruct (W !! t) as [p|]; [|done]. destruct H2 as (H2 & H3). split; [|done].
  by eapply pending_ok_layout.
Qed.

Lemma frame_promised ls ws k A k' A' W W' q op t :
  frame ls ws k A k' A' -> t ∉ ws -> W' !! t = W !! t ->
  t ∈ promised k' W' q op -> t ∈ promised k W q op.
Proof.
  intros F Hn HW. rewrite !elem_of_promised, HW. intros (b & sz & c' & Hp & HT & Hs & Ho).
  destruct (proj1 (fr_tcbs _ _ _ _ _ _ F t)) as [c HT0]; [by eauto|].
  destruct (fr_tasks _ _ _ _ _ _ F t c Hn HT0) as (c2 & HT2 & [_ _ F3 F4]).
  exists b, sz, c. simplify_eq. by rewrite F3 in Hs; rewrite F4 in Ho.
Qed.

Lemma frame_waiters ls ws k A k' A' l :
  frame ls ws k A k' A' -> kinv k A -> is_pend_list l = true -> l ∉ ls ->
  waiters k' A' l = waiters k A l.
Proof.
  intros F HI Hl Hn. apply (waiters_same _ _ _ _ _ _ HI Hl); [by apply F|]. apply F.
Qed.

Lemma frame_sem_ok ls ws k A k' A' s :
  frame ls ws k A k' A' -> kinv k A -> SemPendList s ∉ ls -> sem_ok k A s -> sem_ok k' A' s.
Proof.
  intros F HI Hn [H1 (a & Hv & Ha)]. split; [done|]. exists a. split; [|done]. rewrite <- Hv.
  unfold sem_view. rewrite (fr_sems _ _ _ _ _ _ F s Hn), (fr_lists _ _ _ _ _ _ F (SemPendList s) eq_refl Hn).
  by rewrite (frame_waiters _ _ _ _ _ _ (SemPendList s) F HI eq_refl Hn).
Qed.

Lemma amutex_inv_ext k k' a :
  (forall t, is_Some (k_tcbs k !! t) -> is_Some (k_tcbs k' !! t)) -> amutex_inv k a -> amutex_inv k' a.
Proof. intros HT [I1 I2 I3 I4]. split; try done. intros Hc. destruct (I3 Hc). auto. Qed.

Lemma frame_mutex_ok ls ws k A k' A' m :
  frame ls ws k A k' A' -> kinv k A -> MutexPendList m ∉ ls -> mutex_ok k A m -> mutex_ok k' A' m.
Proof.
  intros F HI Hn [H1 (a & Hv & Ha)]. split; [done|]. exists a. split.
  - rewrite <- Hv. unfold mutex_view.
    rewrite (fr_mutexes _ _ _ _ _ _ F m Hn), (fr_lists _ _ _ _ _ _ F (MutexPendList m) eq_refl Hn).
    by rewrite (frame_waiters _ _ _ _ _ _ (MutexPendList m) F HI eq_refl Hn).
  - eapply amutex_inv_ext; [|done]. intros t. apply F.
Qed.

(** The tasks [ws] got no promise from the queue. *)
Lemma frame_queue_ok ls ws k A k' A' W W' q :
  frame ls ws k A k' A' -> QueuePendList q QUEUE_READ ∉ ls -> QueuePendList q QUEUE_WRITE ∉ ls ->
  (forall t, t ∉ ws -> W' !! t = W !! t) ->
  (forall op t, t ∈ ws -> t ∉ promised k' W' q op) ->
  queue_ok k A W q -> queue_ok k' A' W' q.
Proof.
  intros F Hr Hw HW Hp (H1 & H2 & H3 & n & z & a & Hv & P1 & P2).
  split; [done|]. split; [by apply F|]. split; [by apply F|]. exists n, z, a. split.
  - unfold queue_view. by rewrite (fr_queues _ _ _ _ _ _ F q Hr Hw).
  - assert (Hsub : forall op, (size (promised k' W' q op) <= size (promised k W q op))%nat).
    { intros op. apply subseteq_size. intros t Ht. destruct (decide (t ∈ ws)) as [Hin|Hin].
      - by apply Hp in Ht.
      - by eapply frame_promised; [exact F | | apply HW |]. }
    pose proof (Hsub QUEUE_READ). pose proof (Hsub QUEUE_WRITE). lia.
Qed.

(** The steps have to account for what the frame lets them touch. *)
Lemma inv_frame ls ws k A W k' A' W' :
  sys_inv_at k A W -> kinv k' A' -> sched_state k' A' -> frame ls ws k A k' A' ->
  same_layout k k' -> (forall t, t ∉ ws -> W' !! t = W !! t) ->
  (forall t c, t ∈ ws -> k_tcbs k' !! t = Some c -> task_inv k' W' t c) ->
  (forall s, SemPendList s ∈ ls -> sem_ok k' A' s) ->
  (forall m, MutexPendList m ∈ ls -> mutex_ok k' A' m) ->
  (forall q op, QueuePendList q op ∈ ls -> queue_ok k' A' W' q) ->
  (forall q op t, QueuePendList q QUEUE_READ ∉ ls -> t ∈ ws -> t ∉ promised k' W' q op) ->
  (forall e, EventPendList e ∈ ls -> is_Some (k_events k !! e)) ->
  sys_inv_at k' A' W'.
Proof.
  intros [I1 I2 [R1 R2] I4 I5 I6 I7 I8 I9 I10 (vt & T1 & T2 & T3) I11] HI' HS' F HL HW Ht Hs Hm Hq Hp He.
  split; try done.
  - split; by rewrite (fr_sys _ _ _ _ _ _ F).
  - by rewrite (fr_primask _ _ _ _ _ _ F).
  - by rewrite (fr_ipsr _ _ _ _ _ _ F).
  - by rewrite (fr_sys _ _ _ _ _ _ F).
  - intros s HS. destruct (decide (SemPendList s ∈ ls)) as [Hin|Hn]; [by apply Hs|].
    eapply frame_sem_ok; [done..|]. apply I7. by rewrite <- (fr_sems _ _ _ _ _ _ F s Hn).
  - intros m HM. destruct (decide (MutexPendList m ∈ ls)) as [Hin|Hn]; [by apply Hm|].
    eapply frame_mutex_ok; [done..|]. apply I8. by rewrite <- (fr_mutexes _ _ _ _ _ _ F m Hn).
  - intros q HQ. destruct (decide (QueuePendList q QUEUE_READ ∈ ls)) as [Hin|Hn1]; [by eapply Hq|].
    destruct (decide (QueuePendList q QUEUE_WRITE ∈ ls)) as [Hin|Hn2]; [by eapply Hq|].
    eapply frame_queue_ok; [done | done | done | done | by intros; apply Hp |].
    apply I9. by rewrite <- (fr_queues _ _ _ _ _ _ F q Hn1 Hn2).
  - intros e HE. destruct (I10 e) as [H1 H2].
    + destruct (decide (EventPendList e ∈ ls)) as [Hin|Hn]; [by apply He|].
      by rewrite <- (fr_events _ _ _ _ _ _ F e Hn).
    + split; [done|]. by apply F.
  - rewrite (fr_swtmr _ _ _ _ _ _ F). destruct (proj1 HL _ _ T1) as (v' & V1 & V2 & V3).
    exists v'. split_and!; congruence.
  - intros t c HT. destruct (decide (t ∈ ws)) as [Hin|Hn]; [by apply Ht|].
    destruct (proj1 (fr_tcbs _ _ _ _ _ _ F t)) as [c0 HT0]; [by eauto|].
    destruct (fr_tasks _ _ _ _ _ _ F t c0 Hn HT0) as (c2 & HT2 & Hf). simplify_eq.
    eapply task_inv_same; [by apply I11 | done | by apply HW | done | by apply F].
Qed.

(** ** The running task and the waiting tasks *)

Lemma runner k A W :
  sys_inv_at k A W -> pendsv (k_cpu k) = false ->
  exists c, k_tcbs k !! current k = Some c /\ ready c = true /\ task_inv k W (current k) c.
Proof.
  intros HS Hp. destruct (ss_ready _ _ (si_sched _ _ _ HS) Hp) as (c & HT & Hr).
  exists c. split_and!; try done. by apply (si_tasks _ _ _ HS).
Qed.

(** A task that is in no call. *)
Lemma runner_free k A W :
  sys_inv_at k A W -> pendsv (k_cpu k) = false -> W !! current k = None ->
  exists c, k_tcbs k !! current k = Some c /\ ready c = true /\ suspended c = false /\
    timed_out c = false /\ current k <> DOS_NULL.
Proof.
  intros HS Hp HW. destruct (runner k A W HS Hp) as (c & HT & Hr & Hn & Ht).
  rewrite HW in Ht. naive_solver.
Qed.

Lemma runner_caller k A W timeout :
  sys_inv_at k A W -> pendsv (k_cpu k) = false -> W !! current k = None -> timeout_ok k timeout ->
  exists c, caller k c /\ timed_out c = false.
Proof.
  intros HS Hp HW [_ Hi]. destruct (runner_free k A W HS Hp HW) as (c & HT & Hr & Hs & Ho & _).
  exists c. by split.
Qed.

(** A task on a pend list is inside the call the list belongs to. *)
Lemma waiting_on k A W t l :
  sys_inv_at k A W -> is_pend_list l = true -> loc (k_store k) (PendItem t) = Some l ->
  exists p c, W !! t = Some p /\ list_of p = l /\ pending_ok k p /\ k_tcbs k !! t = Some c /\
    suspended c = true /\ t <> DOS_NULL.
Proof.
  intros HS Hl Hloc. destruct (ti_items _ _ _ _ _ (si_kinv _ _ _ HS) (PendItem t) eq_refl) as [c HT].
  { unfold loc, fld in Hloc. destruct (items (k_store k) !! PendItem t); [by eauto | done]. }
  simpl in HT. pose proof (ti_task _ _ _ _ _ (si_kinv _ _ _ HS) _ _ HT) as HK.
  destruct (tk_pend _ _ _ HK) as (l' & Hl' & Hok). assert (l' = l) as -> by congruence.
  assert (Hsus : suspended c = true) by (by destruct l).
  destruct (si_tasks _ _ _ HS t c HT) as [Hn Ht].
  destruct (W !! t) as [p|] eqn:HW; [|destruct Ht; congruence]. destruct Ht as [Hpo Ht].
  destruct (waits p); [|destruct Ht; congruence]. destruct Ht as [H1 _]. specialize (H1 Hsus).
  exists p, c. split_and!; try done. congruence.
Qed.

(** A woken task, and one that just blocked. *)
Lemma woken_task_inv k W t c p :
  t <> DOS_NULL -> W !! t = Some p -> pending_ok k p -> suspended c = false ->
  (waits p = false -> timed_out c = false) -> task_inv k W t c.
Proof.
  intros Hn HW Hp Hs Ho. split; [done|]. rewrite HW, Hs. split; [done|].
  destruct (waits p); [done | by split; [|apply Ho]].
Qed.

Lemma blocked_task_inv k W t c p :
  t <> DOS_NULL -> pending_ok k p -> loc (k_store k) (PendItem t) = Some (list_of p) ->
  ready c = false -> waits p = true -> task_inv k (<[t := p]> W) t c.
Proof.
  intros Hn Hp Hl Hr Hpo. split; [done|]. rewrite lookup_insert_eq, Hpo.
  split_and!; try done; congruence.
Qed.

Lemma free_task_inv k W t c :
  t <> DOS_NULL -> W !! t = None -> suspended c = false -> timed_out c = false -> task_inv k W t c.
Proof. intros Hn HW Hs Ho. split; [done|]. by rewrite HW. Qed.

(** Only a task inside a call of the queue can hold a promise. *)
Lemma not_promised k W q op t :
  (forall b sz, W !! t <> Some (InQueue q b sz op)) -> t ∉ promised k W q op.
Proof. intros H (b & sz & c & HW & _)%elem_of_promised. by apply H in HW. Qed.

Lemma not_promised_suspended k W q op t c :
  k_tcbs k !! t = Some c -> suspended c = true -> t ∉ promised k W q op.
Proof. intros HT Hs (b & sz & c' & _ & HT' & Hs' & _)%elem_of_promised. congruence. Qed.

(** A call that ends with the scheduler, or without having done anything the
    scheduler would see. *)
Lemma call_settled ls ws k A W k' A' :
  sys_inv_at k A W -> pendsv (k_cpu k) = false -> settled k A k' A' -> frame ls ws k A k' A' ->
  (dos_scheduler_lock_count (k_sys k) <> 0 -> current k ∉ ws) ->
  sched_state k' A' /\ (preemptive k A -> preemptive k' A').
Proof.
  intros HS Hp Hse F Hl. destruct (runner k A W HS Hp) as (c & HT & Hr & _).
  apply (settled_ok k A); [done | apply HS | done | apply HS |]. intros Hlk.
  destruct (fr_tasks _ _ _ _ _ _ F (current k) c) as (c' & HT' & Hf); [by apply Hl | done |].
  exists c'. rewrite (fr_current _ _ _ _ _ _ F). split; [done|]. by rewrite (sf_ready _ _ Hf).
Qed.

Lemma frame_events ls ws k A k' A' :
  frame ls ws k A k' A' -> (forall e, EventPendList e ∈ ls -> is_Some (k_events k' !! e)) ->
  forall e, is_Some (k_events k !! e) -> is_Some (k_events k' !! e).
Proof.
  intros F He e HE. destruct (decide (EventPendList e ∈ ls)) as [Hin|Hn]; [by apply He|].
  by rewrite (fr_events _ _ _ _ _ _ F).
Qed.

Lemma frame_layout ls ws k A k' A' :
  frame ls ws k A k' A' -> (forall q op, QueuePendList q op ∉ ls) ->
  (forall e, EventPendList e ∈ ls -> is_Some (k_events k' !! e)) -> same_layout k k'.
Proof.
  intros F Hn He. split; [|by eapply frame_events]. intros q v Hv. exists v.
  by rewrite (fr_queues _ _ _ _ _ _ F).
Qed.

(** ** Deciding the invariant of a concrete state *)

Definition asem_check (a : asem) : bool :=
  (0 <=? as_count a) && (as_count a <=? as_max a) && (as_max a <? 2 ^ 32) &&
  (bool_decide (as_wait a = []) || (as_count a =? 0)).

Definition amutex_check (k : kernel) (a : amutex) : bool :=
  (0 <=? am_count a) && (am_count a <? 2 ^ 16) && (0 <=? am_priority a) && (am_priority a <? 32) &&
  (if am_count a =? 0 then bool_decide (am_wait a = [])
   else bool_decide (is_Some (k_tcbs k !! am_owner a)) && negb (am_owner a =? DOS_NULL)).

(** The queues are checked for being empty and without promises. *)
Definition queue_ok_check (k : kernel) (A : gmap list_ptr (list item_ptr)) (W : gmap Z pending)
    (q : Z) (v : dos_queue) : bool :=
  negb (q =? DOS_NULL) && bool_decide (is_Some (A !! QueuePendList q QUEUE_READ)) &&
  bool_decide (is_Some (A !! QueuePendList q QUEUE_WRITE)) &&
  view_check k q (Z.to_nat (queue_len v)) (Z.to_nat (queue_size v)) 0 (mk_aqueue [] 0 0) &&
  (size (promised k W q QUEUE_READ) =? 0)%nat && (size (promised k W q QUEUE_WRITE) =? 0)%nat.

Definition pending_check (k : kernel) (p : pending) : bool :=
  match p with
  | InQueue q b sz op =>
      ((op =? QUEUE_READ) || (op =? QUEUE_WRITE)) &&
      match k_queues k !! q with
      | Some v => (0 <? sz) && (sz <=? queue_size v) && (sz <=? Z.of_nat (length b))
      | None => false
      end
  | InEventSet e => bool_decide (is_Some (k_events k !! e))
  | _ => true
  end.

Definition task_inv_check (k : kernel) (W : gmap Z pending) (t : Z) (c : dos_task_cb) : bool :=
  negb (t =? DOS_NULL) &&
  match W !! t with
  | None => negb (suspended c) && negb (timed_out c)
  | Some p => pending_check k p &&
      if waits p then
        (negb (suspended c) || bool_decide (loc (k_store k) (PendItem t) = Some (list_of p))) &&
        (negb (suspended c) || negb (ready c) || timed_out c)
      else negb (suspended c) && negb (timed_out c)
  end.

Definition sched_check (k : kernel) : bool :=
  negb (pendsv (k_cpu k)) &&
  match k_tcbs k !! dos_current_task (k_task k) with Some c => ready c | None => false end &&
  (dos_system_is_run (k_sys k) =? DOS_YES) && (dos_interrupt_count (k_sys k) =? 0) &&
  (primask (k_cpu k) =? 0) && (ipsr (k_cpu k) =? 0) &&
  (0 <=? dos_scheduler_lock_count (k_sys k)) && (dos_scheduler_lock_count (k_sys k) <? 256).

Definition timer_check (k : kernel) : bool :=
  match k_queues k !! dos_swtmr_queue (k_swtmr k) with
  | Some v => (queue_len v =? 4) && (queue_size v =? 8)
  | None => false
  end.

Definition sys_check (k : kernel) (W : gmap Z pending) : bool :=
  let A := contents (k_store k) in
  kinv_check k && sched_check k && timer_check k &&
  bool_decide (map_Forall (fun s _ => s <> DOS_NULL /\
    match sem_view k A s with Some a => asem_check a | None => false end = true) (k_sems k)) &&
  bool_decide (map_Forall (fun m _ => m <> DOS_NULL /\
    match mutex_view k A m with Some a => amutex_check k a | None => false end = true) (k_mutexes k)) &&
  bool_decide (map_Forall (fun q v => queue_ok_check k A W q v = true) (k_queues k)) &&
  bool_decide (map_Forall (fun e _ => e <> DOS_NULL /\ is_Some (A !! EventPendList e)) (k_events k)) &&
  bool_decide (map_Forall (fun t c => task_inv_check k W t c = true) (k_tcbs k)).

Lemma asem_check_sound a : asem_check a = true -> asem_inv a.
Proof.
  unfold asem_check, asem_inv. rewrite !andb_true_iff, orb_true_iff, !Z.leb_le, Z.ltb_lt, Z.eqb_eq,
    bool_decide_eq_true. naive_solver lia.
Qed.

Lemma amutex_check_sound k a : amutex_check k a = true -> amutex_inv k a.
Proof.
  unfold amutex_check. rewrite !andb_true_iff, !Z.leb_le, !Z.ltb_lt.
  intros ((((H1 & H2) & H3) & H4) & H5). split; try lia.
  - intros H. rewrite (proj2 (Z.eqb_neq _ _)) in H5 by lia.
    apply andb_true_iff in H5 as [?%bool_decide_eq_true ?%negb_true_iff%Z.eqb_neq]. done.
  - intros H. rewrite H in H5. by apply bool_decide_eq_true in H5.
Qed.

Lemma queue_ok_check_sound k A W q v : queue_ok_check k A W q v = true -> queue_ok k A W q.
Proof.
  unfold queue_ok_check. rewrite !andb_true_iff, !bool_decide_eq_true, !Nat.eqb_eq, negb_true_iff, Z.eqb_neq.
  intros (((((H1 & H2) & H3) & H4) & H5) & H6). split_and!; try done. apply view_check_sound in H4.
  eexists _, _, _. split; [exact H4|]. simpl. lia.
Qed.

Lemma pending_check_sound k p : pending_check k p = true -> pending_ok k p.
Proof.
  destruct p as [| | |q b sz op| |e]; try done; [|by intros ?%bool_decide_eq_true].
  simpl. rewrite andb_true_iff, orb_true_iff, !Z.eqb_eq.
  destruct (k_queues k !! q) as [v|]; [|naive_solver]. rewrite !andb_true_iff, Z.ltb_lt, !Z.leb_le.
  intros [H1 [[H2 H3] H4]]. split; [done|]. exists v. split; [done|]. lia.
Qed.

Lemma task_inv_check_sound k W t c : task_inv_check k W t c = true -> task_inv k W t c.
Proof.
  unfold task_inv_check, task_inv. rewrite andb_true_iff, negb_true_iff, Z.eqb_neq.
  intros [H1 H2]. split; [done|].
  destruct (W !! t) as [p|]; rewrite ?andb_true_iff in H2; [destruct H2 as [Hp H2]; split;
    [by apply pending_check_sound|]; destruct (waits p); rewrite andb_true_iff in H2|];
    rewrite ?orb_true_iff, ?negb_true_iff, ?bool_decide_eq_true in H2; intuition congruence.
Qed.

Lemma sys_check_sound k W : sys_check k W = true -> sys_inv_at k (contents (k_store k)) W.
Proof.
  unfold sys_check. rewrite !andb_true_iff, !bool_decide_eq_true.
  intros (((((((H1 & H2) & H3) & H4) & H5) & H6) & HE) & H7). unfold sched_check in H2.
  rewrite !andb_true_iff, negb_true_iff, !Z.eqb_eq, Z.leb_le, Z.ltb_lt in H2.
  destruct H2 as (((((((S1 & S2) & S3) & S4) & S5) & S6) & S7) & S8). split; try done.
  - by apply kinv_check_sound.
  - split; [|congruence]. intros _. destruct (k_tcbs k !! _) as [c|]; [by exists c | done].
  - intros s [v Hv]. destruct (H4 s v Hv) as [Hn Hc]. split; [done|].
    destruct (sem_view k _ s) as [a|]; [|done]. exists a. split; [done|]. by apply asem_check_sound.
  - intros m [v Hv]. destruct (H5 m v Hv) as [Hn Hc]. split; [done|].
    destruct (mutex_view k _ m) as [a|]; [|done]. exists a. split; [done|]. by apply amutex_check_sound.
  - intros q [v Hv]. eapply queue_ok_check_sound. exact (H6 q v Hv).
  - intros e [v Hv]. exact (HE e v Hv).
  - unfold timer_check in H3. destruct (k_queues k !! _) as [v|]; [|done]. exists v.
    rewrite andb_true_iff, !Z.eqb_eq in H3. naive_solver.
  - intros t c HT. apply task_inv_check_sound. exact (H7 t c HT).
Qed.
