(* ===== verification/SystemSpec.v ===== *)
(** * The running system keeps its invariant and does not fault

    Every call, whatever its outcome, the rest of a suspended call, the tick
    and the context switch keep [sys_inv]; in a state that satisfies it none of
    them faults. *)

From stdpp Require Import relations.
From S2P Require Import Prelude TaskList TaskListSpec Mem Priority Kernel Sched KernelInv.
From S2P Require Import SchedSpec Task Sem Mutex Queue Event Swtmr Tick IpcSpec FrameSpec LockSpec SemSpec.
From S2P Require Import MutexSpec QueueSpec EventSpec TickSpec SleepSpec System SystemInv KernelCheck Boot.

(** ** Calls *)

(** What a call means to the deadlines: it keeps those of the other tasks, and
    its caller goes on, waits forever, or has the deadline it asked for. *)
Record call_effect (k k' : kernel) (a : api_call) : Prop := {
  ce_tick : dos_tick_count (k_task k') = dos_tick_count (k_task k);
  ce_deadlines : deadlines_kept k k';
  ce_caller : is_ready k' (current k) \/ exists timeout, timeout_of a = Some timeout /\
    (timeout <> DOS_WAIT_FOREVER -> timed_wait k' (current k) (u32 (dos_tick_count (k_task k) + timeout)))
}.

(** The call ends, and the system is in order again; the highest ready
    priority keeps running unless a mutex was released. *)
Definition call_ok (k : kernel) (A : gmap list_ptr (list item_ptr)) (W : gmap Z pending)
    (a : api_call) : Prop :=
  exists r k' A', run_call a k = Done (r, k') /\
    match r with
    | Return _ => sys_inv_at k' A' W
    | Suspend m => exists p, pending_of k a = Some p /\ m = resume (current k) p /\
        sys_inv_at k' A' (<[current k := p]> W)
    end /\
    (preemptive k A -> (forall m, a <> MutexPost m) -> preemptive k' A') /\ call_effect k k' a.

Lemma not_in_singleton {B} (x y : B) : x <> y -> x ∉ [y].
Proof. by intros Hne ?%list_elem_of_singleton. Qed.

Lemma agree_insert (W : gmap Z pending) t p t' (ws : list Z) :
  t ∈ ws -> t' ∉ ws -> <[t := p]> W !! t' = W !! t'.
Proof. intros Hin Hn. apply lookup_insert_ne. by intros ->. Qed.

(** A step that touches one semaphore, or one mutex. *)
Lemma inv_sem sem ws k A W k' A' W' :
  sys_inv_at k A W -> kinv k' A' -> sched_state k' A' -> frame [SemPendList sem] ws k A k' A' ->
  (forall t, t ∉ ws -> W' !! t = W !! t) ->
  (forall t c, t ∈ ws -> k_tcbs k' !! t = Some c -> task_inv k' W' t c) ->
  sem_ok k' A' sem -> (forall q op t, t ∈ ws -> t ∉ promised k' W' q op) -> sys_inv_at k' A' W'.
Proof.
  intros HS HI' HS' F HW Ht Hs Hp. eapply inv_frame; try done.
  - eapply frame_layout; [done | |by intros e ?%list_elem_of_singleton]. intros q op. by apply not_in_singleton.
  - by intros s [= ->]%list_elem_of_singleton.
  - by intros m ?%list_elem_of_singleton.
  - by intros q op ?%list_elem_of_singleton.
  - intros q op t _. apply Hp.
  - by intros e ?%list_elem_of_singleton.
Qed.

Lemma inv_mutex mutex ws k A W k' A' W' :
  sys_inv_at k A W -> kinv k' A' -> sched_state k' A' -> frame [MutexPendList mutex] ws k A k' A' ->
  (forall t, t ∉ ws -> W' !! t = W !! t) ->
  (forall t c, t ∈ ws -> k_tcbs k' !! t = Some c -> task_inv k' W' t c) ->
  mutex_ok k' A' mutex -> (forall q op t, t ∈ ws -> t ∉ promised k' W' q op) -> sys_inv_at k' A' W'.
Proof.
  intros HS HI' HS' F HW Ht Hs Hp. eapply inv_frame; try done.
  - eapply frame_layout; [done | |by intros e ?%list_elem_of_singleton]. intros q op. by apply not_in_singleton.
  - by intros s ?%list_elem_of_singleton.
  - by intros m [= ->]%list_elem_of_singleton.
  - by intros q op ?%list_elem_of_singleton.
  - intros q op t _. apply Hp.
  - by intros e ?%list_elem_of_singleton.
Qed.

Lemma inv_event event ws k A W k' A' W' :
  sys_inv_at k A W -> kinv k' A' -> sched_state k' A' -> frame [EventPendList event] ws k A k' A' ->
  (forall t, t ∉ ws -> W' !! t = W !! t) ->
  (forall t c, t ∈ ws -> k_tcbs k' !! t = Some c -> task_inv k' W' t c) ->
  is_Some (k_events k !! event) -> is_Some (k_events k' !! event) ->
  (forall q op t, t ∈ ws -> t ∉ promised k' W' q op) -> sys_inv_at k' A' W'.
Proof.
  intros HS HI' HS' F HW Ht He He' Hp. eapply inv_frame; try done.
  - eapply frame_layout; [done | |by intros e [= ->]%list_elem_of_singleton].
    intros q op. by apply not_in_singleton.
  - by intros s ?%list_elem_of_singleton.
  - by intros m ?%list_elem_of_singleton.
  - by intros q op ?%list_elem_of_singleton.
  - intros q op t _. apply Hp.
  - by intros e [= ->]%list_elem_of_singleton.
Qed.

Lemma inv_queue q ws k A W k' A' W' :
  sys_inv_at k A W -> kinv k' A' -> sched_state k' A' -> frame (queue_lists q) ws k A k' A' ->
  same_layout k k' -> (forall t, t ∉ ws -> W' !! t = W !! t) ->
  (forall t c, t ∈ ws -> k_tcbs k' !! t = Some c -> task_inv k' W' t c) ->
  queue_ok k' A' W' q -> (forall q' op t, q' <> q -> t ∈ ws -> t ∉ promised k' W' q' op) ->
  sys_inv_at k' A' W'.
Proof.
  intros HS HI' HS' F HL HW Ht Hq Hp. eapply inv_frame; try done.
  - by intros s [[=]|[=]%list_elem_of_singleton]%elem_of_cons.
  - by intros m [[=]|[=]%list_elem_of_singleton]%elem_of_cons.
  - by intros q' op [[= -> _]|[= -> _]%list_elem_of_singleton]%elem_of_cons.
  - intros q' op t Hn. apply Hp. intros ->. apply Hn. left.
  - by intros e [[=]|[=]%list_elem_of_singleton]%elem_of_cons.
Qed.

(** The layout of a queue shows in its abstract view. *)
Lemma view_layout q ws k A k' A' n z a a' :
  frame (queue_lists q) ws k A k' A' -> queue_view k q n z a -> queue_view k' q n z a' ->
  same_layout k k'.
Proof.
  intros F (v & r & Hv & Hrep & _) (v' & r' & Hv' & Hrep' & _). split; last first.
  { eapply frame_events; [exact F|]. by intros e [[=]|[=]%list_elem_of_singleton]%elem_of_cons. }
  intros q' v0 Hv0.
  destruct (decide (q' = q)) as [->|Hne].
  - exists v'. simplify_eq. destruct Hrep as [E1 E2 _ _ _ _ _ _ _ _ _], Hrep' as [E3 E4 _ _ _ _ _ _ _ _ _].
    split_and!; congruence.
  - exists v0. rewrite (fr_queues _ _ _ _ _ _ F); [done|..];
      intros [[=]|[=]%list_elem_of_singleton]%elem_of_cons; done.
Qed.

Lemma woken_of_length xs : length (woken_of xs) = one_if (negb (bool_decide (xs = []))).
Proof. by destruct xs. Qed.

(** The tasks a transfer wakes are inside a call of that queue. *)
Lemma transferred_wakes k A W q op xs lo k' A' t :
  sys_inv_at k A W -> transferred q op xs lo k A k' A' -> t ∈ woken_of xs ->
  exists b sz, W !! t = Some (InQueue q b sz op) /\ pending_ok k (InQueue q b sz op) /\ t <> DOS_NULL.
Proof.
  intros HS Htr Ht. destruct (tr_woken _ _ _ _ _ _ _ _ Htr t Ht) as [Hl _].
  destruct (waiting_on k A W t (QueuePendList q op) HS eq_refl Hl)
    as ([] & ct & HWt & [=] & Hpo & _ & _ & Htn). naive_solver.
Qed.

(** A transfer, by a task that is in no call afterwards. *)
Lemma inv_transfer q op xs n z a a' (own : list Z) k A W k' A' W' :
  sys_inv_at k A W -> pendsv (k_cpu k) = false ->
  transferred q op xs (dos_tick_count (k_task k)) k A k' A' ->
  queue_view k q n z a -> queue_view k' q n z a' -> current k ∉ woken_of xs ->
  (forall t, t ∈ own -> t = current k) ->
  (forall t, t ∉ own -> W' !! t = W !! t) -> (forall t, t ∈ own -> W' !! t = None) ->
  (forall c, current k ∈ own -> k_tcbs k !! current k = Some c ->
     suspended c = false /\ timed_out c = false) ->
  (size (promised k' W' q QUEUE_READ) <= aq_readers a')%nat ->
  (size (promised k' W' q QUEUE_WRITE) <= aq_writers a')%nat ->
  sys_inv_at k' A' W' /\ (preemptive k A -> preemptive k' A').
Proof.
  intros HS Hp Htr Hv Hv' Hcw Hown HW1 HW2 Hcur P1 P2.
  pose proof (tr_frame _ _ _ _ _ _ _ _ Htr) as F.
  destruct (runner k A W HS Hp) as (c & HT & Hr & Hcn & _).
  assert (Hex : is_Some (k_queues k !! q)) by (destruct Hv as (v & _ & Hv0 & _); by exists v).
  destruct (si_queues _ _ _ HS q Hex) as (Q1 & Q2 & Q3 & _).
  destruct (call_settled _ _ k A W k' A' HS Hp (tr_settled _ _ _ _ _ _ _ _ Htr eq_refl) F)
    as [HS' HP']; [done|]. split; [|done].
  pose proof (view_layout _ _ _ _ _ _ _ _ _ _ F Hv Hv') as HL.
  apply (inv_queue q (own ++ woken_of xs) k A W); try done.
  - by eapply transferred_kinv.
  - eapply frame_weaken; [exact F | done |]. intros t Ht. apply elem_of_app. by right.
  - intros t [Hn _]%not_elem_of_app. by apply HW1.
  - intros t ct Hin HTc. destruct (decide (t ∈ own)) as [Ho|Ho].
    + pose proof (Hown t Ho) as ->. destruct (Hcur c Ho HT) as [H1 H2].
      destruct (fr_tasks _ _ _ _ _ _ F (current k) c Hcw HT) as (c' & HT' & Hf).
      assert (ct = c') as -> by congruence.
      apply free_task_inv; [done | by apply HW2 | by rewrite (sf_suspended _ _ Hf) |].
      by rewrite (sf_timed_out _ _ Hf).
    + apply elem_of_app in Hin as [?|Hin]; [done|].
      destruct (transferred_wakes _ _ _ _ _ _ _ _ _ _ HS Htr Hin) as (b & sz & HWt & Hpo & Hn).
      destruct (tr_woken _ _ _ _ _ _ _ _ Htr t Hin) as (_ & c2 & HT2 & _ & Hs2).
      eapply woken_task_inv; [done | by rewrite HW1 | by eapply pending_ok_layout | congruence | done].
  - split; [done|]. split; [by apply F|]. split; [by apply F|]. eauto 6.
  - intros q' o t Hne Hin. apply not_promised. intros b sz.
    destruct (decide (t ∈ own)) as [Ho|Ho]; [by rewrite HW2|]. rewrite HW1 by done.
    apply elem_of_app in Hin as [?|Hin]; [done|].
    destruct (transferred_wakes _ _ _ _ _ _ _ _ _ _ HS Htr Hin) as (b' & sz' & -> & _). congruence.
Qed.

(** A transfer makes promises only for the operation it enables. *)
Lemma transfer_promised q op xs lo own k A W k' A' W' :
  sys_inv_at k A W -> transferred q op xs lo k A k' A' ->
  (forall t, t ∉ own -> W' !! t = W !! t) -> (forall t, t ∈ (own : list Z) -> W' !! t = None) ->
  forall o t, t ∈ promised k' W' q o -> t ∈ promised k W q o \/ (o = op /\ t ∈ woken_of xs).
Proof.
  intros HS Htr HW1 HW2 o t Ht. destruct (decide (t ∈ own)) as [Ho|Ho].
  { apply elem_of_promised in Ht as (b & sz & c & HWt & _). by rewrite HW2 in HWt. }
  destruct (decide (t ∈ woken_of xs)) as [Hw|Hw].
  - right. split; [|done]. apply elem_of_promised in Ht as (b & sz & c & HWt & _).
    destruct (transferred_wakes _ _ _ _ _ _ _ _ _ _ HS Htr Hw) as (b' & sz' & HWt' & _).
    rewrite HW1 in HWt by done. congruence.
  - left. eapply frame_promised; [apply Htr | done | by apply HW1 | done].
Qed.

Section calls.
Context (k : kernel) (A : gmap list_ptr (list item_ptr)) (W : gmap Z pending).
Hypotheses (HS : sys_inv_at k A W) (Hp : pendsv (k_cpu k) = false) (HW : W !! current k = None).

(** Tasks whose status a call changed are ready, or the caller that waits. *)
Lemma frame_effect a ls ws k' A' :
  frame ls ws k A k' A' ->
  (forall t, t ∈ ws -> is_ready k' t \/ t = current k /\ exists timeout, timeout_of a = Some timeout /\
     (timeout <> DOS_WAIT_FOREVER -> timed_wait k' t (u32 (dos_tick_count (k_task k) + timeout)))) ->
  call_effect k k' a.
Proof.
  intros F Hws. destruct (runner k A W HS Hp) as (c & HT & Hr & _). split; [apply F | |].
  - eapply frame_deadlines; [exact F|]. intros t Ht. destruct (Hws t Ht) as [Hrd|[-> _]]; [by left|right].
    intros v. eapply ready_no_wait; [apply HS | by exists c].
  - destruct (decide (current k ∈ ws)) as [Hin|Hn].
    + destruct (Hws _ Hin) as [|[_ ?]]; [by left | by right].
    + left. destruct (fr_tasks _ _ _ _ _ _ F _ c Hn HT) as (c' & HT' & Hf). exists c'.
      by rewrite (sf_ready _ _ Hf).
Qed.

(** A call that may block its caller. *)
Lemma blocking_effect a l timeout ls ws k' A' :
  frame ls ws k A k' A' -> (forall t, t ∈ ws -> waits_on l timeout k k' t) -> timeout_of a = Some timeout ->
  (forall t, t ∈ ws -> t = current k) -> call_effect k k' a.
Proof.
  intros F Hl Ha Hws. apply (frame_effect a ls ws k' A' F). intros t Ht. right.
  destruct (Hl t Ht) as [_ Hd]. split; [by apply Hws|]. by exists timeout.
Qed.

(** A message was transferred. *)
Lemma transfer_effect a q op xs lo k' A' : transferred q op xs lo k A k' A' -> call_effect k k' a.
Proof.
  intros Htr. apply (frame_effect _ _ _ _ _ (tr_frame _ _ _ _ _ _ _ _ Htr)). intros t Ht. left.
  destruct (tr_woken _ _ _ _ _ _ _ _ Htr t Ht) as (_ & c & H1 & H2 & _). by exists c.
Qed.

(** Nothing changed. *)
Lemma call_effect_refl a : call_effect k k a.
Proof. apply (frame_effect a [] [] k A); [apply frame_refl | by intros t ?%elem_of_nil]. Qed.

(** *** Semaphores *)

Lemma sem_post_ok sem : permitted k (SemPost sem) -> call_ok k A W (SemPost sem).
Proof.
  intros Hsem. destruct (si_sems _ _ _ HS sem Hsem) as [Hn (a & Hv & Ha)].
  destruct (sem_post_run k A sem a (si_kinv _ _ _ HS) Hn Hv Ha)
    as (k' & A' & Hrun & HI' & Hv' & Hw & F & Hse).
  destruct (runner_free k A W HS Hp HW) as (c & HT & Hr & Hs & _).
  assert (Hwt : forall t, t ∈ asem_wakes a -> W !! t = Some (InSemPend sem) /\ t <> DOS_NULL).
  { intros t Ht. destruct (Hw t Ht) as [Hl _].
    destruct (waiting_on k A W t (SemPendList sem) HS eq_refl Hl) as ([] & ct & HWt & [=] & _ & _ & _ & Htn).
    naive_solver. }
  destruct (call_settled _ _ k A W k' A' HS Hp Hse F) as [HS' HP'].
  { intros _ Hin. destruct (Hwt _ Hin). congruence. }
  assert (He : call_effect k k' (SemPost sem)).
  { apply (frame_effect _ _ _ _ _ F). intros t Ht. destruct (Hw t Ht) as (_ & c2 & H1 & H2 & _). left. by exists c2. }
  eexists (Return _), k', A'. split; [unfold run_call, returns; by run_with Hrun|].
  split; [|auto]. eapply (inv_sem sem); try done.
  - intros t ct Ht HT'. destruct (Hwt t Ht) as [H1 H2]. destruct (Hw t Ht) as (_ & c2 & HT2 & _ & Hs2).
    eapply woken_task_inv; [done | done | done | congruence | done].
  - split; [done|]. eexists. split; [done|]. by apply asem_post_inv.
  - intros q op t Ht. apply not_promised. intros b sz. destruct (Hwt t Ht) as [-> _]. done.
Qed.

Lemma sem_pend_ok sem timeout :
  permitted k (SemPend sem timeout) -> call_ok k A W (SemPend sem timeout).
Proof.
  intros [Hsem Hto]. destruct (si_sems _ _ _ HS sem Hsem) as [Hn (a & Hv & Ha)].
  destruct (runner_caller k A W timeout HS Hp HW Hto) as (c & Hc & Htm). destruct Hto as [Hto _].
  destruct (sem_pend_run k A sem timeout a c (si_kinv _ _ _ HS) Hn Hv Ha Hc Hto)
    as (r & k' & A' & Hrun & HI' & Hout & F & Hse & Hl).
  destruct (call_settled _ _ k A W k' A' HS Hp Hse F) as [HS' HP'].
  { intros Hlk. unfold sem_pend_blocks, may_block.
    rewrite (proj2 (Z.eqb_neq _ _) Hlk), andb_false_r. destruct (as_count a >? 0); apply not_elem_of_nil. }
  assert (Hrun' : run_call (SemPend sem timeout) k = Done (call_no_buff r, k'))
    by (unfold run_call; by run_with Hrun).
  assert (He : call_effect k k' (SemPend sem timeout)).
  { apply (blocking_effect (SemPend sem timeout) _ _ _ _ _ _ F Hl eq_refl). unfold sem_pend_blocks, current.
    repeat case_match; set_solver. }
  unfold sem_pend_outcome, asem_try in Hout. unfold sem_pend_blocks in F, Hl.
  exists (call_no_buff r), k'. destruct (as_count a >? 0) eqn:Hcnt.
  - destruct Hout as (-> & Hv' & _). exists A'. split; [done|]. split; [simpl | auto]. eapply (inv_sem sem); try done.
    + by intros t ct ?%elem_of_nil.
    + split; [done|]. eexists. split; [done|]. apply (asem_try_inv a); [done|].
      unfold asem_try. by rewrite Hcnt.
    + by intros q op t ?%elem_of_nil.
  - destruct (may_block k timeout) eqn:Hb.
    + destruct Hout as (-> & Hv' & c' & HT' & Hr' & Hs'). exists A'. split; [done|]. split; [|auto].
      exists (InSemPend sem). split; [done|]. split; [done|]. eapply (inv_sem sem); try done.
      * intros t Ht. by eapply agree_insert; [left|].
      * intros t ct ->%list_elem_of_singleton HTc. eapply blocked_task_inv; [|done| | |done].
        -- by destruct (runner_free k A W HS Hp HW) as (? & _ & _ & _ & _ & H).
        -- by destruct (Hl (current k) ltac:(left)).
        -- congruence.
      * split; [done|]. eexists. split; [done|]. apply asem_wait_inv; [done|].
        unfold asem_try. by rewrite Hcnt.
      * intros q op t ->%list_elem_of_singleton. by eapply not_promised_suspended.
    + destruct Hout as (-> & ->). by exists A.
Qed.

(** *** Mutexes *)

Lemma mutex_pend_ok mutex timeout :
  permitted k (MutexPend mutex timeout) -> call_ok k A W (MutexPend mutex timeout).
Proof.
  intros [(v & Hmx & Hmax) Hto]. pose proof (si_kinv _ _ _ HS) as HI.
  destruct (si_mutexes _ _ _ HS mutex) as [Hn (a & Hv & Ha)]; [by eauto|].
  destruct (runner_caller k A W timeout HS Hp HW Hto) as (c & Hc & Htm). destruct Hto as [Hto _].
  destruct (runner_free k A W HS Hp HW) as (c0 & HT0 & _ & _ & _ & Hcn).
  pose proof (ca_task _ _ Hc) as HT. pose proof (si_ipsr _ _ _ HS) as Hip.
  pose proof (mutex_view_inv _ _ _ _ Hv) as (v0 & xs & Hv0 & HA & Ea).
  assert (Hcnt : am_count a < 2 ^ 16 - 1) by (rewrite Ea; simpl; congruence).
  pose proof (ai_count _ _ Ha) as Hc16.
  destruct (decide (am_count a = 0 \/ am_owner a = current k)) as [Htake|Hwait].
  - set (v' := mk_mutex (am_count a + 1) (if am_count a =? 0 then priority c else am_priority a) (current k)).
    assert (Hrun : dos_mutex_pend mutex timeout k = Done (Return DOS_OK, put_mutex mutex v' k)).
    { apply (mutex_take_run k A mutex timeout a c); try done. unfold current in Htake. naive_solver. }
    set (k' := put_mutex mutex v' k) in *.
    assert (F : frame [MutexPendList mutex] [] k A k' A) by (apply frame_mutex; left).
    assert (Hse : settled k A k' A) by (by apply settled_quiet).
    destruct (call_settled _ _ k A W k' A HS Hp Hse F) as [HS' HP']; [intros _; apply not_elem_of_nil|].
    assert (He : call_effect k k' (MutexPend mutex timeout)).
    { apply (frame_effect _ _ _ _ _ F). by intros t ?%elem_of_nil. }
    eexists (Return _), k', A. split; [unfold run_call; by run_with Hrun|]. split; [|auto].
    eapply (inv_mutex mutex); try done; [by intros t ct ?%elem_of_nil | |by intros q op t ?%elem_of_nil].
    split; [done|]. eexists. split; [by eapply mutex_view_intro; [apply lookup_insert_eq|]|].
    apply amutex_inv_held; simpl; [lia | | by exists c | done].
    destruct (am_count a =? 0); [|apply Ha]. apply (tk_priority _ _ _ (ti_task _ _ _ _ _ HI _ _ HT)).
  - destruct (mutex_wait_run k A mutex timeout a c) as (r & k' & A' & Hrun & HI' & Hout & F & Hse & Hl);
      try done; [naive_solver | unfold current in Hwait; naive_solver |].
    destruct (call_settled _ _ k A W k' A' HS Hp Hse F) as [HS' HP'].
    { intros Hlk. unfold mutex_pend_blocks. rewrite (proj2 (Z.eqb_neq _ _) Hlk), orb_true_r.
      apply not_elem_of_nil. }
    assert (Hrun' : run_call (MutexPend mutex timeout) k = Done (call_no_buff r, k'))
      by (unfold run_call; by run_with Hrun).
    assert (He : call_effect k k' (MutexPend mutex timeout)).
    { apply (blocking_effect (MutexPend mutex timeout) _ _ _ _ _ _ F Hl eq_refl).
      unfold mutex_pend_blocks, current. case_match; set_solver. }
    unfold mutex_wait_outcome in Hout. unfold mutex_pend_blocks in F, Hl.
    exists (call_no_buff r), k'. destruct ((timeout =? 0) || _) eqn:Hb.
    + destruct Hout as (-> & ->). by exists A.
    + destruct Hout as (-> & Hv' & (c' & HT' & Hr' & Hs') & Ho'). exists A'. split; [done|].
      split; [|auto]. exists (InMutexPend mutex). split; [done|]. split; [done|].
      eapply (inv_mutex mutex); try done.
      * intros t Ht. by eapply agree_insert; [left|].
      * intros t ct ->%list_elem_of_singleton HTc. eapply blocked_task_inv; [done|done| | |done].
        -- by destruct (Hl (current k) ltac:(left)).
        -- congruence.
      * split; [done|]. eexists. split; [done|]. destruct Ha as [A1 A2 A3 A4].
        split; simpl; try done; [|naive_solver].
        intros H. destruct (A3 H). split; [by apply F|done].
      * intros q op t ->%list_elem_of_singleton. by eapply not_promised_suspended.
Qed.

Lemma amutex_post_inv k' A' mutex a c r :
  mutex_posted k A mutex a c r k' A' -> amutex_inv k a ->
  amutex_inv k' (amutex_post (current k) (task_prio k) a).2.
Proof.
  intros HP Ha. pose proof (mp_frame _ _ _ _ _ _ _ _ HP) as F. pose proof Ha as [A1 A2 A3 A4].
  pose proof (mp_wakes _ _ _ _ _ _ _ _ HP) as Hw. fold (current k) in Hw.
  unfold amutex_post. unfold amutex_wakes in Hw.
  assert (Hown : 0 < am_count a -> is_Some (k_tcbs k' !! am_owner a) /\ am_owner a <> DOS_NULL).
  { intros H. destruct (A3 H). split; [by apply F|done]. }
  destruct ((am_count a =? 0) || negb (am_owner a =? current k)) eqn:E1; [by split|].
  apply orb_false_iff in E1 as [E1%Z.eqb_neq _].
  destruct (Z.eqb_spec (am_count a - 1) 0) as [E2|E2]; simpl in *.
  - destruct (am_wait a) as [|w ws]; [apply amutex_inv_new|]. simpl in Hw. rewrite take_0 in Hw.
    destruct (Hw w.2) as [Hl _]; [left|].
    destruct (waiting_on k A W w.2 (MutexPendList mutex) HS eq_refl Hl)
      as (_ & ct & _ & _ & _ & HT & _ & Hn).
    apply amutex_inv_held; [lia | | by apply F; eexists | done].
    unfold task_prio. rewrite HT.
    apply (tk_priority _ _ _ (ti_task _ _ _ _ _ (si_kinv _ _ _ HS) _ _ HT)).
  - split; simpl; [lia | done | intros _; apply Hown; lia | lia].
Qed.

Lemma mutex_post_ok mutex : permitted k (MutexPost mutex) -> call_ok k A W (MutexPost mutex).
Proof.
  intros Hmx. destruct (si_mutexes _ _ _ HS mutex Hmx) as [Hn (a & Hv & Ha)].
  destruct (runner_free k A W HS Hp HW) as (c & HT & Hr & Hs & Hto & Hcn).
  destruct (mutex_post_run k A mutex a c (si_kinv _ _ _ HS) Hn Hv Ha HT Hs (si_ipsr _ _ _ HS))
    as (r & k' & A' & Hrun & HP). pose proof (mp_frame _ _ _ _ _ _ _ _ HP) as F.
  pose proof (mp_wakes _ _ _ _ _ _ _ _ HP) as Hw. fold (current k) in F, Hw.
  assert (Hwt : forall t, t ∈ amutex_wakes (current k) a ->
            W !! t = Some (InMutexPend mutex) /\ t <> DOS_NULL).
  { intros t Ht. destruct (Hw t Ht) as [Hl _].
    destruct (waiting_on k A W t (MutexPendList mutex) HS eq_refl Hl)
      as ([] & ct & HWt & [=] & _ & _ & _ & Htn). naive_solver. }
  assert (Hcw : current k ∉ amutex_wakes (current k) a).
  { intros Hin. destruct (Hwt _ Hin). congruence. }
  assert (HS' : sched_state k' A').
  { destruct (mp_end _ _ _ _ _ _ _ _ HP) as [Hse|Hcpu].
    - by destruct (call_settled _ _ k A W k' A' HS Hp Hse F) as [HS' _].
    - split; rewrite Hcpu; [|by rewrite Hp]. intros _.
      destruct (fr_tasks _ _ _ _ _ _ F (current k) c Hcw HT) as (c' & HT' & Hf).
      exists c'. rewrite (fr_current _ _ _ _ _ _ F), (sf_ready _ _ Hf). done. }
  assert (Hok : mutex_ok k' A' mutex).
  { split; [done|]. eexists. split; [apply HP|]. by eapply amutex_post_inv. }
  assert (Hti : forall W' t ct, (forall t, t ∈ amutex_wakes (current k) a -> W' !! t = W !! t) ->
            t ∈ amutex_wakes (current k) a -> k_tcbs k' !! t = Some ct -> task_inv k' W' t ct).
  { intros W' t ct HW' Ht HT'. destruct (Hwt t Ht) as [H1 H2].
    destruct (Hw t Ht) as (_ & c2 & HT2 & _ & Hs2).
    eapply woken_task_inv; [done | by rewrite HW' | done | congruence | done]. }
  assert (He : call_effect k k' (MutexPost mutex)).
  { apply (frame_effect _ _ _ _ _ F). intros t Ht. destruct (Hw t Ht) as (_ & c2 & H1 & H2 & _). left. by exists c2. }
  exists (call_no_buff r), k', A'. split; [unfold run_call; by run_with Hrun|].
  split; [|split; [by intros _ H; destruct (H mutex) | done]].
  destruct (mp_return _ _ _ _ _ _ _ _ HP) as [->|[-> _]]; simpl.
  - eapply (inv_mutex mutex); try done; [apply HP | by intros; apply Hti|].
    intros q op t Ht. apply not_promised. intros b sz. destruct (Hwt t Ht) as [-> _]. done.
  - exists InMutexPost. split; [done|]. rewrite (si_primask _ _ _ HS). split; [done|].
    eapply (inv_mutex mutex (current k :: amutex_wakes (current k) a)); try done; [apply HP | | | |].
    + eapply frame_weaken; [exact F | done |]. intros t Ht. by right.
    + intros t Ht. by eapply agree_insert; [left|].
    + intros t ct [-> |Ht]%elem_of_cons HTc.
      * destruct (fr_tasks _ _ _ _ _ _ F (current k) c Hcw HT) as (c' & HT' & Hf).
        assert (ct = c') as -> by congruence.
        eapply woken_task_inv; [done | apply lookup_insert_eq | done | by rewrite (sf_suspended _ _ Hf) |].
        intros _. by rewrite (sf_timed_out _ _ Hf).
      * apply Hti; try done. intros t' Ht'. apply lookup_insert_ne. by intros <-.
    + intros q op t [-> |Ht]%elem_of_cons; apply not_promised; intros b sz.
      * by rewrite lookup_insert_eq.
      * rewrite lookup_insert_ne by (by intros <-). destruct (Hwt t Ht) as [-> _]. done.
Qed.

(** *** Queues *)

Lemma message_size_at q v size :
  k_queues k !! q = Some v -> message_size k q size = Z.min size (queue_size v).
Proof. intros Hv. unfold message_size. by rewrite Hv. Qed.

(** The operation has to wait for a message or a slot. *)
Lemma queue_wait_ok a q op buff size timeout v :
  run_call a = _dos_queue_handler q (Some buff) size op timeout ->
  pending_of k a = Some (InQueue q buff (message_size k q size) op) ->
  op = QUEUE_READ \/ op = QUEUE_WRITE -> k_queues k !! q = Some v -> queue_rw_count op v = 0 ->
  buffer_ok k q buff size -> timeout_ok k timeout -> timeout_of a = Some timeout -> call_ok k A W a.
Proof.
  intros Ha Hpd Hop Hv Hc (Hex & Hs & Hb) Hto Hta.
  destruct (si_queues _ _ _ HS q Hex) as (Q1 & Q2 & Q3 & n & z & aq & Qv & P1 & P2).
  destruct (runner_caller k A W timeout HS Hp HW Hto) as (c & Hca & _). destruct Hto as [Hto _].
  destruct (runner_free k A W HS Hp HW) as (c0 & HT0 & _ & _ & _ & Hcn).
  destruct (queue_block_run k A q v buff size op timeout c (si_kinv _ _ _ HS) Hv Q1)
    as (r & k' & A' & Hrun & HI' & Hqs & Hout & F & Hse & Hl); try done; [lia | |].
  { by destruct Hop as [-> | ->]. }
  destruct (call_settled _ _ k A W k' A' HS Hp Hse F) as [HS' HP'].
  { intros Hlk. unfold queue_blocks, may_block. rewrite (proj2 (Z.eqb_neq _ _) Hlk), andb_false_r.
    apply not_elem_of_nil. }
  assert (He : call_effect k k' a).
  { apply (blocking_effect _ _ _ _ _ _ _ F Hl Hta). unfold queue_blocks, current. case_match; set_solver. }
  exists r, k'. rewrite Ha. unfold queue_blocks in F, Hl. destruct (may_block k timeout).
  - destruct Hout as (-> & Hw & c' & HT' & Hr' & Hs'). exists A'. split; [done|]. split; [|auto].
    eexists. split; [exact Hpd|]. rewrite (message_size_at q v) in * by done. split; [done|].
    destruct Qv as (v1 & r1 & Qv1 & Qrep & Qrest). assert (v1 = v) as -> by congruence.
    pose proof (qr_pos _ _ _ _ _ Qrep). pose proof (qr_size _ _ _ _ _ Qrep).
    assert (HL : same_layout k k').
    { split; [intros q0 v0 Hq0; exists v0; by rewrite Hqs|]. eapply frame_events; [exact F|].
      by intros e [[=]|[=]%list_elem_of_singleton]%elem_of_cons. }
    assert (Hnp : forall q' o, current k ∉ promised k' (<[current k := InQueue q buff
      (Z.min size (queue_size v)) op]> W) q' o)
      by (intros q' o; by eapply not_promised_suspended).
    eapply (inv_queue q [current k]); try done.
    + intros t Ht. by eapply agree_insert; [left|].
    + intros t ct ->%list_elem_of_singleton HTc. eapply blocked_task_inv; [done | | | |done].
      * eapply pending_ok_layout; [done|]. split; [done|]. exists v. split; [done|]. lia.
      * by destruct (Hl (current k) ltac:(left)).
      * unfold current in HTc. congruence.
    + split; [done|]. split; [by apply F|]. split; [by apply F|]. exists n, z, aq.
      assert (Hle : forall o, (base.size (promised k' (<[current k := InQueue q buff
        (Z.min size (queue_size v)) op]> W) q o) <= base.size (promised k W q o) + @length Z [])%nat).
      { intros o. apply promised_le. intros t Ht. left.
        destruct (decide (t = current k)) as [->|Hne]; [by apply Hnp in Ht|].
        eapply (frame_promised _ _ _ _ _ _ _ _ _ _ _ F); [by apply not_in_singleton | |done].
        by rewrite lookup_insert_ne. }
      pose proof (Hle QUEUE_READ) as L1. pose proof (Hle QUEUE_WRITE) as L2. simpl in L1, L2.
      split; [|lia]. exists v, r1. by rewrite Hqs.
    + intros q' o t _ ->%list_elem_of_singleton. apply Hnp.
  - destruct Hout as (-> & ->). by exists A.
Qed.

Lemma queue_read_ok q buff size timeout :
  permitted k (QueueRead q buff size timeout) -> call_ok k A W (QueueRead q buff size timeout).
Proof.
  intros [Hbuf Hto]. pose proof Hbuf as ([v Hv] & Hs & Hb).
  destruct (si_queues _ _ _ HS q) as (Q1 & Q2 & [xs Q3] & n & z & [ms nr nw] & Qv & P1 & P2); [by eauto|].
  destruct (decide (queue_read_count v = 0)) as [Hz|Hz].
  { by eapply (queue_wait_ok _ q QUEUE_READ); [| |by left | | | | |]. }
  pose proof Qv as (v1 & r1 & Qv1 & Qrep & Qrc & Qwc & Qr0 & Qw0 & Qn).
  cbn [aq_msgs aq_readers aq_writers] in *.
  assert (v1 = v) as -> by congruence. pose proof (qr_size _ _ _ _ _ Qrep) as Hsz.
  rewrite (message_size_at q v) in Hb by done. rewrite Hsz in Hb.
  destruct ms as [|m ms]; [simpl in *; lia|]. simpl length in Qrc.
  destruct (queue_read_run k A q n z m ms nr nw buff size timeout xs (si_kinv _ _ _ HS) Q1 Qv)
    as (k' & A' & Hrun & HI' & Hv' & Htr); try done; [lia|].
  destruct (runner_free k A W HS Hp HW) as (c & HT & Hr & Hsu & Htm & Hcn).
  pose proof (transfer_promised _ _ _ _ [] _ _ W _ _ W HS Htr (fun _ _ => eq_refl)
    ltac:(by intros t ?%elem_of_nil)) as Hpr.
  destruct (inv_transfer q QUEUE_WRITE xs n z _ _ [] k A W k' A' W HS Hp Htr Qv Hv') as [HI2 HP2];
    try done; try (by intros t ?%elem_of_nil).
  - intros Hin. destruct (transferred_wakes _ _ _ _ _ _ _ _ _ _ HS Htr Hin) as (? & ? & ? & _).
    congruence.
  - simpl. etrans; [|exact P1]. apply subseteq_size. intros t Ht.
    destruct (Hpr QUEUE_READ t Ht) as [|[[=] _]]; done.
  - simpl. rewrite <- woken_of_length. etrans; [apply (promised_le k k' W W q QUEUE_WRITE (woken_of xs))|lia].
    intros t Ht. destruct (Hpr QUEUE_WRITE t Ht) as [|[_ ?]]; auto.
  - eexists (Return _), k', A'. split; [exact Hrun|]. eauto using transfer_effect.
Qed.

Lemma queue_write_ok q buff size timeout :
  permitted k (QueueWrite q buff size timeout) -> call_ok k A W (QueueWrite q buff size timeout).
Proof.
  intros [Hbuf Hto]. pose proof Hbuf as ([v Hv] & Hs & Hb).
  destruct (si_queues _ _ _ HS q) as (Q1 & [xs Q2] & Q3 & n & z & a & Qv & P1 & P2); [by eauto|].
  destruct (decide (queue_write_count v = 0)) as [Hz|Hz].
  { by eapply (queue_wait_ok _ q QUEUE_WRITE); [| |by right | | | | |]. }
  pose proof Qv as (v1 & r1 & Qv1 & Qrep & Qrc & Qwc & Qr0 & Qw0 & Qn).
  assert (v1 = v) as -> by congruence. pose proof (qr_size _ _ _ _ _ Qrep) as Hsz.
  pose proof (qr_count _ _ _ _ _ Qrep) as Hqc.
  rewrite (message_size_at q v) in Hb by done. rewrite Hsz in Hb.
  destruct (queue_write_fifo_lo k A _ q n z a buff size timeout xs (si_kinv _ _ _ HS) Q1 Qv)
    as (k' & A' & m & Hrun & _ & Hv' & Htr); try done; [lia|].
  destruct (runner_free k A W HS Hp HW) as (c & HT & Hr & Hsu & Htm & Hcn).
  pose proof (transfer_promised _ _ _ _ [] _ _ W _ _ W HS Htr (fun _ _ => eq_refl)
    ltac:(by intros t ?%elem_of_nil)) as Hpr.
  destruct (inv_transfer q QUEUE_READ xs n z _ _ [] k A W k' A' W HS Hp Htr Qv Hv') as [HI2 HP2];
    try done; try (by intros t ?%elem_of_nil).
  - intros Hin. destruct (transferred_wakes _ _ _ _ _ _ _ _ _ _ HS Htr Hin) as (? & ? & ? & _).
    congruence.
  - simpl. rewrite <- woken_of_length. etrans; [apply (promised_le k k' W W q QUEUE_READ (woken_of xs))|lia].
    intros t Ht. destruct (Hpr QUEUE_READ t Ht) as [|[_ ?]]; auto.
  - simpl. etrans; [|exact P2]. apply subseteq_size. intros t Ht.
    destruct (Hpr QUEUE_WRITE t Ht) as [|[[=] _]]; done.
  - eexists (Return _), k', A'. split; [exact Hrun|]. eauto using transfer_effect.
Qed.

(** *** Event groups *)

Lemma event_set_ok e set : permitted k (EventSet e set) -> call_ok k A W (EventSet e set).
Proof.
  intros [Hex Hl]. pose proof (si_kinv _ _ _ HS) as HI. pose proof (si_lock _ _ _ HS) as Hlk.
  destruct (si_events _ _ _ HS e Hex) as [Hn [xs HA]]. destruct Hex as [[f] Hv].
  destruct (runner_free k A W HS Hp HW) as (c & HT & Hr & Hs & Hto & Hcn).
  destruct (decide (set = 0)) as [->|Hset].
  { exists (Return (0, [])), k, A. split; [|auto using call_effect_refl]. unfold run_call, dos_event_set. rewrite bind_assoc. kstep.
    rewrite orb_true_r, bind_assoc. kstep. by rewrite primask_id. }
  destruct (event_set_run k A e f set xs HI Hn Hset ltac:(lia) Hv HA)
    as (order & k1 & r & k' & A' & Hrot & Hrun & Hres & Hsv & HA' & Hrs & Hse). cbv zeta in *.
  set (out := event_serve _ _) in *.
  assert (Hwt : forall t, t ∈ out.2 -> exists w ct, W !! t = Some (InEventWait e w) /\ t <> DOS_NULL /\
            k_tcbs k !! t = Some ct).
  { intros t Ht%event_serve_in. rewrite requests_tasks in Ht. apply list_elem_of_fmap in Ht as (q & -> & Hq).
    assert (Hq' : q ∈ xs) by (rewrite Hrot in Hq; by apply elem_of_round_of in Hq).
    destruct (pend_list_item k A _ (EventPendList e) xs q HI eq_refl HA Hq') as (t & ct & -> & _ & HTt & Hloc & _).
    destruct (waiting_on k A W t (EventPendList e) HS eq_refl Hloc) as ([] & ct' & HWt & [=] & _ & _ & _ & Htn).
    subst. simpl. eauto 6. }
  assert (F : frame [EventPendList e] out.2 k A k' A').
  { eapply frame_trans; [|by apply frame_resched]. eapply served_frame; [done | by eauto |].
    intros t Ht. destruct (Hwt t Ht) as (w & ct & _ & _ & HTt). eauto. }
  assert (Hcw : current k ∉ out.2) by (intros Hin; destruct (Hwt _ Hin) as (w & ct & E & _); congruence).
  destruct (call_settled _ _ k A W k' A' HS Hp Hse F) as [HS' HP']; [done|].
  assert (HI' : kinv k' A').
  { eapply rescheduled_kinv; [|done]. unfold kinv.
    rewrite (st_tick _ _ (sv_times _ _ _ _ _ _ _ _ Hsv)). apply Hsv. }
  assert (He' : is_Some (k_events k' !! e)).
  { rewrite (rs_events _ _ Hrs), (sr_events _ _ (sv_rest _ _ _ _ _ _ _ _ Hsv)). simpl.
    rewrite lookup_insert_eq. eauto. }
  assert (Hrun' : run_call (EventSet e set) k = Done (call_no_buff r, k')) by (unfold run_call; by run_with Hrun).
  assert (Hinv : forall W' (own : list Z), (forall t, t ∉ own -> W' !! t = W !! t) ->
    (forall t, t ∈ own -> t = current k /\ W' !! t = Some (InEventSet e)) -> sys_inv_at k' A' W').
  { intros W' own HW1 HW2. assert (HWw : forall t, t ∈ out.2 -> W' !! t = W !! t).
    { intros t Ht. apply HW1. intros Ho. destruct (HW2 t Ho) as [-> _]. done. }
    apply (inv_event e (own ++ out.2) k A W); try done.
    - eapply frame_weaken; [exact F | done |]. intros t Ht. apply elem_of_app. by right.
    - intros t [Ho _]%not_elem_of_app. by apply HW1.
    - intros t ct Hin HTt. destruct (decide (t ∈ out.2)) as [Hw|Hw].
      + destruct (Hwt t Hw) as (w & c0 & HWt & Htn & HT0).
        destruct (served_task _ _ _ _ _ _ _ _ _ _ _ Hsv Hrs Hw HT0) as (c' & HT' & _ & Hs' & _).
        eapply woken_task_inv; [done | by rewrite HWw | done | congruence | done].
      + apply elem_of_app in Hin as [Ho|]; [|done]. destruct (HW2 t Ho) as [-> HWo].
        destruct (fr_tasks _ _ _ _ _ _ F (current k) c Hcw HT) as (c' & HT' & Hf).
        assert (ct = c') as -> by congruence.
        eapply woken_task_inv; [done | done | done | by rewrite (sf_suspended _ _ Hf) |].
        by rewrite (sf_timed_out _ _ Hf).
    - intros q op t Hin. apply not_promised. intros b sz. destruct (decide (t ∈ out.2)) as [Hw|Hw].
      + rewrite HWw by done. by destruct (Hwt t Hw) as (w & c0 & -> & _).
      + apply elem_of_app in Hin as [Ho|]; [|done]. by destruct (HW2 t Ho) as [_ ->]. }
  assert (He : call_effect k k' (EventSet e set)).
  { apply (frame_effect _ _ _ _ _ F). intros t Ht. left. destruct (Hwt t Ht) as (w & c0 & _ & _ & HT0).
    destruct (served_task _ _ _ _ _ _ _ _ _ _ _ Hsv Hrs Ht HT0) as (c' & HT' & Hr' & _). by exists c'. }
  exists (call_no_buff r), k', A'. split; [done|]. split; [|auto]. subst r. case_decide; simpl.
  - apply (Hinv W []); [done|]. by intros t ?%elem_of_nil.
  - exists (InEventSet e). split; [done|]. split; [done|]. apply (Hinv _ [current k]).
    + intros t Ht. by eapply agree_insert; [left|].
    + intros t ->%list_elem_of_singleton. split; [done|]. apply lookup_insert_eq.
Qed.

Lemma event_wait_ok e wait op timeout :
  permitted k (EventWait e wait op timeout) -> call_ok k A W (EventWait e wait op timeout).
Proof.
  intros [Hex Hto]. destruct (si_events _ _ _ HS e Hex) as [Hn HA]. pose proof Hex as [[f] Hv].
  destruct (runner_caller k A W timeout HS Hp HW Hto) as (c & Hc & Htm). destruct Hto as [Hto _].
  destruct (event_args_ok e wait op) eqn:Hok; last first.
  { exists (Return (0, [])), k, A. split; [|auto using call_effect_refl]. unfold run_call.
    by run_with (event_wait_invalid k e wait op timeout Hok). }
  unfold event_args_ok in Hok. rewrite !andb_true_iff, !negb_true_iff, !Z.eqb_neq in Hok.
  destruct Hok as [[_ H2] H3].
  destruct (event_wait_run k A e f wait op timeout c (si_kinv _ _ _ HS) Hn H2 H3 Hv HA Hc Hto)
    as (r & k' & A' & Hrun & HI' & Hout & F & Hse & Hl).
  destruct (call_settled _ _ k A W k' A' HS Hp Hse F) as [HS' HP'].
  { intros Hlk. unfold event_wait_blocks, may_block.
    rewrite (proj2 (Z.eqb_neq _ _) Hlk), andb_false_r. destruct (event_match f wait op); apply not_elem_of_nil. }
  assert (Hrun' : run_call (EventWait e wait op timeout) k = Done (call_no_buff r, k'))
    by (unfold run_call; by run_with Hrun).
  assert (He : call_effect k k' (EventWait e wait op timeout)).
  { apply (blocking_effect (EventWait e wait op timeout) _ _ _ _ _ _ F Hl eq_refl).
    unfold event_wait_blocks, current. repeat case_match; set_solver. }
  unfold event_wait_outcome in Hout. unfold event_wait_blocks in F, Hl.
  exists (call_no_buff r), k'. destruct (event_match f wait op).
  - destruct Hout as (-> & -> & ->). exists A. split; [done|]. split; [simpl | auto].
    eapply (inv_event e); try done; [by intros t ct ?%elem_of_nil | |by intros q o t ?%elem_of_nil].
    simpl. rewrite lookup_insert_eq. eauto.
  - destruct (may_block k timeout).
    + destruct Hout as (-> & _ & Hev & c' & HT' & Hr' & Hs' & _). exists A'. split; [done|]. split; [|auto].
      exists (InEventWait e wait). split; [done|]. split; [done|].
      eapply (inv_event e); try done; [| | by rewrite Hev |].
      * intros t Ht. by eapply agree_insert; [left|].
      * intros t ct ->%list_elem_of_singleton HTc. eapply blocked_task_inv; [|done| | |done].
        -- by destruct (runner_free k A W HS Hp HW) as (? & _ & _ & _ & _ & H).
        -- by destruct (Hl (current k) ltac:(left)).
        -- congruence.
      * intros q o t ->%list_elem_of_singleton. by eapply not_promised_suspended.
    + destruct Hout as (-> & -> & ->). by exists A.
Qed.

(** *** Sleeping and the scheduler lock *)

(** No object is involved. *)
Lemma inv_self k' A' :
  kinv k' A' -> sched_state k' A' -> frame [] [current k] k A k' A' ->
  (forall c, k_tcbs k' !! current k = Some c -> suspended c = false /\ timed_out c = false) ->
  sys_inv_at k' A' W.
Proof.
  intros HI' HS' F Hc. destruct (runner_free k A W HS Hp HW) as (c & HT & Hr & Hs & Hto & Hcn).
  eapply inv_frame; try done.
  - eapply frame_layout; [done | |by intros e ?%elem_of_nil]. intros q op. apply not_elem_of_nil.
  - intros t ct ->%list_elem_of_singleton HTc. destruct (Hc ct HTc). by apply free_task_inv.
  - by intros s ?%elem_of_nil.
  - by intros m ?%elem_of_nil.
  - by intros q op ?%elem_of_nil.
  - intros q op t _ ->%list_elem_of_singleton. apply not_promised. intros b sz. by rewrite HW.
  - by intros e ?%elem_of_nil.
Qed.

Lemma sleep_ok_call n : permitted k (Sleep n) -> call_ok k A W (Sleep n).
Proof.
  intros [[Hn Hidle] Hlock]. destruct (runner_free k A W HS Hp HW) as (c & HT & Hr & Hs & Hto & Hcn).
  pose proof (si_kinv _ _ _ HS) as HI.
  assert (Hrun : exists k' A', dos_task_sleep n k = Done (tt, k') /\ kinv k' A' /\ sched_state k' A' /\
    preemptive k' A' /\ frame [] [current k] k A k' A' /\
    (is_ready k' (current k) \/ timed_wait k' (current k) (u32 (dos_tick_count (k_task k) + n))) /\
    forall c, k_tcbs k' !! current k = Some c -> suspended c = false /\ timed_out c = false).
  { unfold dos_task_sleep. destruct (Z.eqb_spec n 0) as [->|Hnz].
    - destruct (scheduler_ok k A _ HI) as (k' & Hrun & Hrs).
      destruct (scheduler_settles k A k' HI (si_running _ _ _ HS) Hlock Hrun) as [S1 S2].
      destruct (rescheduled_task _ _ _ _ Hrs HT) as [m HT2].
      exists k', A. split_and!; try done; [by eapply rescheduled_kinv | by apply frame_resched | left; by eexists |].
      intros c' HT'. assert (c' = set_task_tick m c) as -> by congruence. done.
    - kstep. destruct (sleep_insert_spec (assign_primask 1 k) A c n HI HT Hidle)
        as (k2 & m & Hrun2 & HI2 & HT2 & Hg2 & Hl2 & Hv2 & _ & Hr2); [lia|].
      set (A2 := slept_lists _ _ _ A) in *. destruct (scheduler_ok k2 A2 _ HI2) as (k3 & Hrun3 & Hrs).
      destruct (scheduler_settles k2 A2 k3 HI2) as [[S1 S2] S3]; [| |done|].
      { destruct (si_running _ _ _ HS). split; by rewrite (sr_sys _ _ Hr2). }
      { by rewrite (sr_sys _ _ Hr2). }
      destruct (asleep_flags c) as (F1 & F2 & F3 & F4 & _).
      assert (F : frame [] [current k] (assign_primask 1 k) A k3 A2).
      { eapply frame_trans; [|by apply frame_resched].
        destruct (tk_status _ _ _ (ti_task _ _ _ _ _ HI _ _ HT)) as (ls & Hls & Hsk).
        assert (HA2 : forall l, is_pend_list l = true -> A2 !! l = A !! l).
        { intros l Hl. unfold A2, slept_lists. rewrite lookup_insert_ne.
          - apply (remove_status_pend (k_store k) A); [apply HI | | done].
            exists ls. split; [done|]. by eapply status_not_pend.
          - intros <-. pose proof (sleep_dest_sleep _ _ n _ (ti_sleep _ _ _ _ _ HI)) as Hd. simpl in Hl.
            by destruct (sleep_dest (k_task k) n). }
        eapply (frame_update [] [current k] (current k)); try done.
        - left.
        - intros l Hl _. by apply HA2.
        - intros l Hl Hx. by rewrite HA2.
        - intros t Ht%not_elem_of_cons. rewrite Hv2, decide_False; naive_solver.
        - rewrite Hg2. apply sleep_globals_times. }
      destruct (rescheduled_task k2 k3 (current k) (asleep c) Hrs) as [m2 HT3].
      { rewrite HT2. apply lookup_insert_eq. }
      exists (assign_primask (primask (k_cpu k)) k3), A2. split_and!; try done.
      + run_with Hrun2. by run_with Hrun3.
      + exact (rescheduled_kinv k2 k3 A2 HI2 Hrs).
      + by apply (frame_masked _ _ k A k3 A2 1).
      + right. exists (set_task_tick m2 (asleep c)). split_and!; [exact HT3 | exact F2 |]. simpl.
        rewrite (rs_store _ _ Hrs), Hv2. by rewrite decide_True.
      + intros c' HT'.
        assert (c' = set_task_tick m2 (asleep c)) as -> by (simpl in HT'; congruence).
        change (suspended (asleep c) = false /\ timed_out (asleep c) = false). by rewrite F3, F4. }
  destruct Hrun as (k' & A' & Hrun & HI' & HS' & HP' & F & Hd & Hc).
  assert (He : call_effect k k' (Sleep n)).
  { apply (frame_effect _ _ _ _ _ F). intros t ->%list_elem_of_singleton.
    destruct Hd as [|Hd]; [by left | right; split; [done | by exists n]]. }
  eexists (Return _), k', A'. split; [|split; [by apply inv_self | done]].
  unfold run_call, returns. rewrite bind_assoc. by run_with Hrun.
Qed.

(** The lock count only matters to the scheduler. *)
Lemma inv_lock_count n :
  0 <= n < 256 -> sys_inv_at (assign_dos_scheduler_lock_count n k) A W.
Proof.
  intros Hn. destruct HS as [I1 [S1 S2] [R1 R2] I4 I5 I6 I7 I8 I9 I10 I11 I12].
  split; try done.
  - split; [done|]. simpl. by rewrite Hp.
  - intros m Hm. destruct (I8 m Hm) as [Hm0 (a & Hv & Ha)]. split; [done|]. exists a.
    split; [done|]. by apply (amutex_inv_ext k).
Qed.

Lemma lock_ok : permitted k SchedLock -> call_ok k A W SchedLock.
Proof.
  simpl. intros Hl. pose proof (si_lock _ _ _ HS) as Hlk. pose proof (lock_run k ltac:(lia)) as Hrun.
  eexists (Return _), _, A. split; [|split].
  - unfold run_call, returns. rewrite bind_assoc. by run_with Hrun.
  - apply inv_lock_count. lia.
  - split; [intros _ _ _ H; simpl in H; lia|]. split; [done | by right |].
    left. by destruct (runner k A W HS Hp) as (c & HT & Hr & _); exists c.
Qed.

(** A pass of the scheduler. *)
Lemma resched_inv k1 k' :
  sys_inv_at k1 A W -> rescheduled k1 k' -> sched_state k' A -> sys_inv_at k' A W.
Proof.
  intros HS1 Hrs S1. eapply inv_frame; [exact HS1 | by eapply rescheduled_kinv; [apply HS1|] | done
    | by apply (frame_resched [] []) | | done | | | | | |].
  - apply same_layout_eq; apply Hrs.
  - by intros t c ?%elem_of_nil.
  - by intros s ?%elem_of_nil.
  - by intros m ?%elem_of_nil.
  - by intros q op ?%elem_of_nil.
  - by intros q op t _ ?%elem_of_nil.
  - by intros e ?%elem_of_nil.
Qed.

Lemma unlock_ok : call_ok k A W SchedUnlock.
Proof.
  pose proof (si_lock _ _ _ HS) as Hlk. destruct (runner k A W HS Hp) as (c & HT & Hr & _).
  assert (Hrun : exists k', dos_scheduler_unlock k = Done (tt, k') /\ sys_inv_at k' A W /\
    (preemptive k A -> preemptive k' A) /\ call_effect k k' SchedUnlock).
  { destruct (decide (lock_count k = 0)) as [Hz|Hz].
    - exists k. cut (dos_scheduler_unlock k = Done (tt, k)); [auto using call_effect_refl|]. unfold dos_scheduler_unlock. kstep. change (lock_count (assign_primask 1 k)) with (lock_count k).
      rewrite Hz. change (0 >? 0) with false. unfold dos_interrupt_enable, modify. by rewrite primask_id.
    - destruct (unlock_run k A _ (si_kinv _ _ _ HS) ltac:(lia)) as (k' & Hrun & Hrs & Hc).
      pose proof (inv_lock_count (lock_count k - 1) ltac:(lia)) as HS1.
      set (k1 := assign_dos_scheduler_lock_count (lock_count k - 1) k) in *. exists k'. split; [done|].
      rewrite (and_assoc (sys_inv_at k' A W)). split; last first.
      { destruct (rescheduled_task _ _ _ _ Hrs HT) as [m HT2]. split; [apply (rescheduled_times _ _ Hrs) | | left; by eexists].
        apply (frame_deadlines [] [] k1 A k' A); [by apply frame_resched | by intros t ?%elem_of_nil]. }
      destruct (Z.eqb_spec (lock_count k) 1) as [E|E].
      + destruct (scheduler_settles k1 A k' (si_kinv _ _ _ HS1) (si_running _ _ _ HS1)) as [S1 S2];
          [simpl; lia | done |]. split; [by apply (resched_inv k1) | done].
      + subst k'. split; [done|]. intros _ _ H. simpl in H. lia. }
  destruct Hrun as (k' & Hrun & HI' & HP' & He). eexists (Return _), k', A. split; [|auto].
  unfold run_call, returns. rewrite bind_assoc. by run_with Hrun.
Qed.

Lemma calls_ok a : permitted k a -> call_ok k A W a.
Proof.
  destruct a; eauto using sem_pend_ok, sem_post_ok, mutex_pend_ok, mutex_post_ok, queue_read_ok,
    queue_write_ok, event_wait_ok, event_set_ok, sleep_ok_call, lock_ok, unlock_ok.
Qed.

End calls.

(** ** The rest of a suspended call *)

Definition resume_ok (k : kernel) (A : gmap list_ptr (list item_ptr)) (W : gmap Z pending)
    (p : pending) : Prop :=
  exists v k' A', resume (current k) p k = Done (v, k') /\
    sys_inv_at k' A' (delete (current k) W) /\ (preemptive k A -> preemptive k' A') /\ time_kept k k'.

(** The end of a wait concerns no deadline: its task is ready. *)
Lemma ended_time k A k' A' t c :
  kinv k A -> k_tcbs k !! t = Some c -> ready c = true -> ended t c k A k' A' -> time_kept k k'.
Proof.
  intros HI HT Hr HE. split; [by rewrite (en_task _ _ _ _ _ _ HE)|]. intros t' v Hw. right.
  destruct (decide (t' = t)) as [->|Hne]; [by destruct (ready_no_wait k A _ t v HI); [exists c|]|].
  destruct Hw as (c' & HT' & Hd & Hv). exists c'.
  rewrite (item_val_same _ _ _ (en_data _ _ _ _ _ _ HE)), (en_tcbs _ _ _ _ _ _ HE). split; [|done].
  destruct (timed_out c); [|done]. by rewrite lookup_insert_ne.
Qed.

Lemma put_task_time k t c c' :
  k_tcbs k !! t = Some c -> same_flags c c' -> time_kept k (put_task t c' k).
Proof.
  intros HT Hf. split; [done|]. intros t' v (c0 & HT0 & Hd & Hv). right. unfold timed_wait. simpl.
  destruct (decide (t = t')) as [<-|Hne].
  - exists c'. rewrite lookup_insert_eq, (sf_delayed _ _ Hf). naive_solver congruence.
  - exists c0. by rewrite lookup_insert_ne.
Qed.

Lemma time_kept_trans k1 k2 k3 A lo :
  time_kept k1 k2 -> time_kept k2 k3 -> k_tcbs k2 = k_tcbs k1 \/ (forall t, is_ready k2 t -> is_ready k3 t) ->
  tinv_at k1 A lo -> time_kept k1 k3.
Proof.
  intros [E1 H1] [E2 H2] Hr HI. split; [congruence|]. intros t v Hw.
  destruct (H1 t v Hw) as [Hrd|Hw2]; [|by apply H2]. destruct Hr as [ET|Hr]; [|by left; apply Hr].
  destruct (ready_no_wait k1 A lo t v HI); [|done]. destruct Hrd as (c & HT & Hrd). exists c. by rewrite <- ET.
Qed.

(** Leaving a pend list leaves the others as they are and an empty one empty. *)
Lemma ended_list t c k A k' A' l xs :
  ended t c k A k' A' -> A !! l = Some xs ->
  exists xs', A' !! l = Some xs' /\ (xs = [] -> xs' = []).
Proof.
  intros HE HA. rewrite (en_lists _ _ _ _ _ _ HE). destruct (timed_out c); [|by exists xs].
  exists (remove_item (PendItem t) xs). rewrite lookup_fmap, HA. split; [done|]. by intros ->.
Qed.

Lemma waiters_not_nil k A l xs : A !! l = Some xs -> waiters k A l <> [] <-> xs <> [].
Proof. intros HA. unfold waiters. rewrite HA. simpl. by destruct xs. Qed.

Section resume.
Context (k : kernel) (A : gmap list_ptr (list item_ptr)) (W : gmap Z pending) (p : pending).
Hypotheses (HS : sys_inv_at k A W) (Hp : pendsv (k_cpu k) = false) (HW : W !! current k = Some p).

Lemma inv_ended k' A' c :
  k_tcbs k !! current k = Some c -> ready c = true ->
  (timed_out c = false -> suspended c = false) ->
  ended (current k) c k A k' A' -> sys_inv_at k' A' (delete (current k) W) /\
    (preemptive k A -> preemptive k' A') /\ time_kept k k'.
Proof.
  intros HT Hr Hs HE. pose proof (si_kinv _ _ _ HS) as HI. pose proof (ended_time _ _ _ _ _ _ HI HT Hr HE) as Htk.
  destruct (ended_sched _ _ _ _ _ _ HE HI eq_refl HT Hr (si_sched _ _ _ HS)) as [HS' HP'].
  split; [|done]. destruct (ended_flags _ _ _ _ _ _ HE HT Hr Hs) as (c' & HT' & Hr' & Hs' & Ho').
  destruct HS as [I1 I2 [R1 R2] I4 I5 I6 I7 I8 I9 Iev I10 I11].
  pose proof (en_rest _ _ _ _ _ _ HE) as [Hy Hcpu _ Hsem Hmx Hqu Hev Hsw _ _ _ _].
  assert (HTn : forall t, t <> current k -> k_tcbs k' !! t = k_tcbs k !! t).
  { intros t Hne. rewrite (en_tcbs _ _ _ _ _ _ HE). destruct (timed_out c); [|done].
    by rewrite lookup_insert_ne. }
  assert (HTd : forall t, is_Some (k_tcbs k !! t) -> is_Some (k_tcbs k' !! t)).
  { intros t. destruct (decide (t = current k)) as [->|Hne]; [by eauto | by rewrite HTn]. }
  split; rewrite ?Hcpu, ?Hy; try done.
  - apply HE.
  - split; by rewrite Hy.
  - rewrite Hsem. intros s Hx. destruct (I7 s Hx) as [Hn (a & Hv & H1 & H2 & H3)]. split; [done|].
    apply sem_view_inv in Hv as (v & xs & Hv & HA & ->).
    destruct (ended_list _ _ _ _ _ _ _ _ HE HA) as (xs' & HA' & Hxs).
    unfold sem_view. rewrite Hsem, Hv, HA'. eexists. split; [done|]. split; [done|]. split; [done|].
    simpl in *. rewrite (waiters_not_nil _ _ _ _ HA') . intros Hne. apply H3.
    rewrite (waiters_not_nil _ _ _ _ HA). naive_solver.
  - rewrite Hmx. intros m Hx. destruct (I8 m Hx) as [Hn (a & Hv & Ha)]. split; [done|].
    apply mutex_view_inv in Hv as (v & xs & Hv & HA & ->).
    destruct (ended_list _ _ _ _ _ _ _ _ HE HA) as (xs' & HA' & Hxs).
    unfold mutex_view. rewrite Hmx, Hv, HA'. eexists. split; [done|].
    destruct Ha as [A1 A2 A3 A4]. split; simpl in *; try done.
    + intros H. destruct (A3 H). auto.
    + intros H. specialize (A4 H). unfold waiters in *. rewrite HA'. rewrite HA in A4.
      destruct xs; [|done]. by rewrite Hxs.
  - rewrite Hqu. intros q Hx. destruct (I9 q Hx) as (Q1 & [x2 Q2] & [x3 Q3] & n & z & a & Qv & P1 & P2).
    destruct (ended_list _ _ _ _ _ _ _ _ HE Q2) as (y2 & Q2' & _).
    destruct (ended_list _ _ _ _ _ _ _ _ HE Q3) as (y3 & Q3' & _).
    split; [done|]. split; [by eauto|]. split; [by eauto|]. exists n, z, a.
    split; [unfold queue_view; by rewrite Hqu|].
    assert (Hsub : forall op, (size (promised k' (delete (current k) W) q op) <= size (promised k W q op))%nat).
    { intros op. apply subseteq_size. intros t. rewrite !elem_of_promised.
      intros (b & sz & ct & Hd & HTt & Hst). destruct (decide (t = current k)) as [->|Hne].
      - by rewrite lookup_delete_eq in Hd.
      - rewrite lookup_delete_ne in Hd by done. rewrite HTn in HTt by done. eauto 10. }
    pose proof (Hsub QUEUE_READ). pose proof (Hsub QUEUE_WRITE). lia.
  - rewrite Hev. intros e Hx. destruct (Iev e Hx) as [Hn [xs HA]]. split; [done|].
    destruct (ended_list _ _ _ _ _ _ _ _ HE HA) as (xs' & HA' & _). eauto.
  - by rewrite Hsw, Hqu.
  - intros t ct HTt. destruct (decide (t = current k)) as [->|Hne].
    + assert (ct = c') as -> by congruence. destruct (I11 _ _ HT) as [Hn _].
      apply free_task_inv; try done. apply lookup_delete_eq.
    + rewrite HTn in HTt by done. eapply (task_inv_same k k' W); [by apply I11 | by apply same_layout_eq | | done |].
      * by rewrite lookup_delete_ne.
      * rewrite (en_loc _ _ _ _ _ _ HE), decide_False; [done|]. by intros [[=] _].
Qed.

(** A woken task uses up the promise that was made to it. *)
Lemma resumed_transfer q op op' b sz xs n z a a' k' A' c :
  p = InQueue q b sz op -> op <> op' ->
  k_tcbs k !! current k = Some c -> suspended c = false -> timed_out c = false ->
  transferred q op' xs (dos_tick_count (k_task k)) k A k' A' ->
  queue_view k q n z a -> queue_view k' q n z a' ->
  let W' := delete (current k) W in
  ((size (promised k' W' q op) < size (promised k W q op))%nat ->
   (size (promised k' W' q op') <=
     size (promised k W q op') + one_if (negb (bool_decide (xs = []))))%nat ->
   (size (promised k' W' q QUEUE_READ) <= aq_readers a' /\
    size (promised k' W' q QUEUE_WRITE) <= aq_writers a')%nat) ->
  sys_inv_at k' A' W' /\ (preemptive k A -> preemptive k' A') /\ time_kept k k'.
Proof.
  intros Ep Hne HT Hs Hto Htr Hv Hv' W' Hle. rewrite (and_assoc (sys_inv_at k' A' W')). split; last first.
  { split; [apply (tr_times _ _ _ _ _ _ _ _ Htr)|]. apply (frame_deadlines _ _ _ _ _ _ (tr_frame _ _ _ _ _ _ _ _ Htr)).
    intros t Ht. left. destruct (tr_woken _ _ _ _ _ _ _ _ Htr t Ht) as (_ & c1 & H1 & H2 & _). by exists c1. }
  assert (HW1 : forall t, t ∉ [current k] -> W' !! t = W !! t).
  { intros t [Ht _]%not_elem_of_cons. by apply lookup_delete_ne. }
  assert (HW2 : forall t, t ∈ [current k] -> W' !! t = None).
  { intros t ->%list_elem_of_singleton. apply lookup_delete_eq. }
  pose proof (transfer_promised _ _ _ _ _ _ _ _ _ _ _ HS Htr HW1 HW2) as Hpr.
  destruct Hle as [P1 P2].
  - rewrite <- (Nat.add_0_r (size (promised k W q op))).
    apply (promised_lt k k' W W' q op (current k) []).
    + apply elem_of_promised. rewrite HW, Ep. eauto 10.
    + apply not_promised. intros ? ?. by rewrite HW2 by left.
    + intros t Ht. destruct (Hpr op t Ht) as [|[? _]]; [by left | done].
  - rewrite <- woken_of_length. apply promised_le. intros t Ht.
    destruct (Hpr op' t Ht) as [|[_ ?]]; auto.
  - eapply (inv_transfer q op' xs n z a a' [current k]); try done.
    + intros Hin. destruct (transferred_wakes _ _ _ _ _ _ _ _ _ _ HS Htr Hin) as (? & ? & E & _).
      rewrite HW, Ep in E. congruence.
    + by intros t ->%list_elem_of_singleton.
    + intros c' _ HT'. by simplify_eq.
Qed.

End resume.

(** A change of a control block that shows neither in the flags nor in the
    priority. *)
Lemma inv_put_task k A W t c c' :
  sys_inv_at k A W -> k_tcbs k !! t = Some c -> same_flags c c' -> priority c' = priority c ->
  sys_inv_at (put_task t c' k) A W.
Proof.
  intros HS HT Hf Hpr. pose proof (si_kinv _ _ _ HS) as HI.
  assert (HI' : kinv (put_task t c' k) A).
  { destruct Hf. apply (tinv_put_task k A _ t c); try done. rewrite Hpr.
    apply (tk_priority _ _ _ (ti_task _ _ _ _ _ HI _ _ HT)). }
  eapply inv_frame; [exact HS | done | | by apply (frame_same_flags [] [] t c c') | | done | | | | | |].
  - destruct (si_sched _ _ _ HS) as [S1 S2]. split; [|done]. intros Hp. destruct (S1 Hp) as (c0 & HT0 & Hr).
    simpl. destruct (decide (t = dos_current_task (k_task k))) as [->|Hne].
    + exists c'. rewrite lookup_insert_eq. split; [done|]. rewrite (sf_ready _ _ Hf). congruence.
    + exists c0. by rewrite lookup_insert_ne.
  - by apply same_layout_eq.
  - by intros t' c0 ?%elem_of_nil.
  - by intros s ?%elem_of_nil.
  - by intros m ?%elem_of_nil.
  - by intros q op ?%elem_of_nil.
  - by intros q op t' _ ?%elem_of_nil.
  - by intros e ?%elem_of_nil.
Qed.

Lemma preemptive_put_task k A t c c' :
  k_tcbs k !! t = Some c -> priority c' = priority c -> preemptive k A -> preemptive (put_task t c' k) A.
Proof.
  intros HT Hpr HP Hp Hl c0. simpl. destruct (decide (t = dos_current_task (k_task k))) as [->|Hne].
  - rewrite lookup_insert_eq. intros [= <-]. rewrite Hpr. by apply HP.
  - rewrite lookup_insert_ne by done. by apply HP.
Qed.

Lemma resume_done k A W p :
  sys_inv_at k A W -> pendsv (k_cpu k) = false -> W !! current k = Some p -> resume_ok k A W p.
Proof.
  intros HS Hp HW. pose proof (si_kinv _ _ _ HS) as HI.
  destruct (runner k A W HS Hp) as (c & HT & Hr & Hcn & Ht). rewrite HW in Ht.
  destruct p as [s|m| |q b sz op|e w|e].
  - destruct Ht as (_ & _ & Ht). destruct (sem_resume_run k A c HI HT Hr) as (k' & A' & Hrun & HE).
    destruct (inv_ended k A W HS k' A' c HT Hr) as [H1 H2]; [by destruct (suspended c); naive_solver | done |].
    eexists _, k', A'. split; [unfold resume, no_buff; by run_with Hrun | done].
  - destruct Ht as (_ & _ & Ht). destruct (wait_end_run k A (current k) c HI HT Hr) as (k' & A' & Hrun & HE).
    destruct (inv_ended k A W HS k' A' c HT Hr) as [H1 H2]; [by destruct (suspended c); naive_solver | done |].
    eexists _, k', A'. split; [|done]. unfold resume, no_buff, mutex_pend_resume.
    rewrite bind_assoc. run_by ltac:(apply task_at_run; exact HT). by run_with Hrun.
  - destruct Ht as (_ & Hs & Ho). destruct (inv_ended k A W HS k A c HT Hr) as [H1 H2]; [done | by apply ended_quiet |].
    eexists _, k, A. split; [|done]. unfold resume, no_buff. rewrite bind_assoc. kstep.
    rewrite <- (si_primask _ _ _ HS). by destruct k as [? ? ? ? [] ? ? ? ? ? ? ? ? ? ?].
  - destruct Ht as ((Hop & v & Hv & Hsz & Hb) & _ & Ht). destruct (timed_out c) eqn:Hto.
    { destruct (queue_resume_timeout k A q b sz op c HI HT Hr Hto) as (k' & A' & Hrun & HE).
      destruct (inv_ended k A W HS k' A' c HT Hr) as [H1 H2]; [congruence | done |].
      eexists _, k', A'. split; [exact Hrun | done]. }
    assert (Hs : suspended c = false) by (destruct (suspended c); naive_solver).
    assert (Hpr : current k ∈ promised k W q op) by (apply elem_of_promised; rewrite HW; eauto 10).
    destruct (si_queues _ _ _ HS q) as (Q1 & [xr Q2] & [xw Q3] & n & z & [ms nr nw] & Qv & P1 & P2);
      [by eauto|]. cbn [aq_readers aq_writers] in *.
    pose proof Qv as (v1 & r1 & Qv1 & Qrep & Qrc & Qwc & Qr0 & Qw0 & Qn).
    cbn [aq_msgs aq_readers aq_writers] in *.
    assert (v1 = v) as -> by congruence. pose proof (qr_size _ _ _ _ _ Qrep) as Hz.
    assert (Hpos : (0 < size (promised k W q op))%nat).
    { apply Nat.neq_0_lt_0. intros E. apply size_empty_inv in E. set_solver. }
    destruct Hop as [-> | ->].
    + destruct nr as [|nr]; [lia|]. destruct ms as [|m ms]; [simpl in *; lia|].
      destruct (queue_resume_read_run k A q n z m ms nr nw b sz xw c HI HT Hto Qv)
        as (k' & A' & Hrun & HI' & Hv' & Htr); [lia | done | done |].
      destruct (resumed_transfer k A W _ HS Hp HW q QUEUE_READ QUEUE_WRITE b sz xw n z _ _ k' A' c
        eq_refl ltac:(done) HT Hs Hto Htr Qv Hv') as [H1 H2].
      * intros L1 L2. cbn [aq_readers aq_writers]. lia.
      * eexists _, k', A'. split; [exact Hrun | done].
    + destruct nw as [|nw]; [lia|].
      destruct (queue_resume_write_run k A q n z ms nr nw b sz xr c HI HT Hto Qv)
        as (k' & A' & m & Hrun & HI' & _ & Hv' & Htr); [lia | done | done |].
      destruct (resumed_transfer k A W _ HS Hp HW q QUEUE_WRITE QUEUE_READ b sz xr n z _ _ k' A' c
        eq_refl ltac:(done) HT Hs Hto Htr Qv Hv') as [H1 H2].
      * intros L1 L2. cbn [aq_readers aq_writers]. lia.
      * eexists _, k', A'. split; [exact Hrun | done].
  - destruct Ht as (_ & _ & Ht).
    destruct (event_resume_run k A (current k) c w HI HT Hr) as (k' & A' & HE & Hrun).
    destruct (inv_ended k A W HS k' A' c HT Hr) as [H1 H2]; [by destruct (suspended c); naive_solver | done |].
    pose proof (en_tcbs _ _ _ _ _ _ HE) as HT'. destruct (timed_out c).
    + set (c' := forget_request w (timeout_cleared c)) in *.
      assert (HTc : k_tcbs k' !! current k = Some (timeout_cleared c)) by (rewrite HT'; apply lookup_insert_eq).
      eexists _, (put_task (current k) c' k'), A'. split; [unfold resume, no_buff; by run_with Hrun|].
      split; [by apply (inv_put_task k' A' _ _ (timeout_cleared c))|]. destruct H2 as [H2 H3]. split.
      * intros HP. exact (preemptive_put_task k' A' (current k) (timeout_cleared c) c' HTc eq_refl (H2 HP)).
      * eapply (time_kept_trans k k'); [done | by apply (put_task_time k' _ (timeout_cleared c)) | right | exact HI].
        intros t (ct & HTt & Hrt). unfold is_ready. simpl. destruct (decide (current k = t)) as [<-|Hne].
        -- exists c'. rewrite lookup_insert_eq. split; [done|]. change (ready (timeout_cleared c) = true). congruence.
        -- exists ct. by rewrite lookup_insert_ne.
    + eexists _, k', A'. split; [unfold resume, no_buff; by run_with Hrun | done].
  - destruct Ht as ([v Hv] & Hs & Ho). destruct (inv_ended k A W HS k A c HT Hr) as [H1 H2]; [done | by apply ended_quiet |].
    eexists _, k, A. split; [|done]. unfold resume, no_buff. rewrite bind_assoc.
    by run_by ltac:(apply deref_some; exact Hv).
Qed.

(** ** The context switch *)

Lemma promised_tcbs k k' W q op : k_tcbs k' = k_tcbs k -> promised k' W q op = promised k W q op.
Proof. intros HT. unfold promised, promised_to. by rewrite HT. Qed.

Lemma waiters_items k k' A l :
  items (k_store k') = items (k_store k) -> waiters k' A l = waiters k A l.
Proof. intros Hi. unfold waiters, item_val, fld. by rewrite Hi. Qed.

Lemma switch_ok k A W :
  sys_inv_at k A W -> pendsv (k_cpu k) = true ->
  exists k', PendSV_Handler k = Done (tt, k') /\ sys_inv_at k' A W /\ preemptive k' A /\ time_kept k k'.
Proof.
  intros HS Hp. destruct (ss_next _ _ (si_sched _ _ _ HS) Hp) as [Hlock Htop].
  pose proof (si_kinv _ _ _ HS) as HI. pose proof Htop as (Hpr & Hne & _).
  destruct (ti_lists _ _ _ _ _ HI (PriorityList (dos_cur_priority (k_task k))) Hpr) as [xs HA].
  destruct (pendsv_spec k A xs HI HA) as (k' & t & c & Hrun & HI' & HT & Hg & Hin & HTc & Hr & Hpc & Hi &
    Hcpu & Hy & Hsem & Hmx & Hqu & Hev & Hsw); [congruence|].
  exists k'. split; [done|].
  assert (Hcur : k_tcbs k' !! dos_current_task (k_task k') = Some c) by (by rewrite Hg).
  destruct HS as [I1 I2 [R1 R2] I4 I5 I6 I7 I8 I9 Iev I10 I11]. split.
  - split; rewrite ?Hcpu, ?Hy; try done.
    + split; [by eauto|]. by rewrite Hcpu.
    + split; by rewrite Hy.
    + intros s. rewrite Hsem. intros Hx. destruct (I7 s Hx) as [H1 (a & H2 & H3)]. split; [done|].
      exists a. unfold sem_view in *. rewrite Hsem. by rewrite (waiters_items k k').
    + intros m. rewrite Hmx. intros Hx. destruct (I8 m Hx) as [H1 (a & H2 & H3)]. split; [done|].
      exists a. unfold mutex_view in *. rewrite Hmx, (waiters_items k k') by done. split; [done|].
      eapply amutex_inv_ext; [|done]. by rewrite HT.
    + intros q. rewrite Hqu. intros Hx. destruct (I9 q Hx) as (H1 & H2 & H3 & n & z & a & H4 & H5).
      split; [done|]. split; [done|]. split; [done|]. exists n, z, a. unfold queue_view in *.
      by rewrite Hqu, !(promised_tcbs k k').
    + by rewrite Hev.
    + by rewrite Hsw, Hqu.
    + intros t' c' HT'. rewrite HT in HT'. eapply (task_inv_same k k' W); [by apply I11 | | done | done |].
      * by apply same_layout_eq.
      * unfold loc, fld. by rewrite Hi.
  - split; [intros _ _ c' HT'; assert (c' = c) as -> by congruence; by rewrite Hpc|].
    split; [by rewrite Hg|]. intros t' v (c' & Hw). right. exists c'. unfold item_val, fld in *. by rewrite HT, Hi.
Qed.

(** ** The tick *)

Lemma ticked_tick c c' n : ticked c c' -> ticked c (set_task_tick n c').
Proof. by intros []. Qed.

Lemma inv_tick ws a a' k A W k' A' :
  sys_inv_at k A W -> kinv k' A' -> sched_state k' A' -> tick_frame ws a a' k A k' A' ->
  queue_view k (dos_swtmr_queue (k_swtmr k)) 4 8 a ->
  (size (promised k W (dos_swtmr_queue (k_swtmr k)) QUEUE_READ) <= aq_readers a)%nat ->
  (size (promised k W (dos_swtmr_queue (k_swtmr k)) QUEUE_WRITE) <= aq_writers a)%nat ->
  sys_inv_at k' A' W.
Proof.
  intros HS HI' HS' [V1 V2 V3 V4 V5 F1 F2 F3 F4 F5 F6 F7 F8 F9 F10 F11 _ F13 F14 F15 F16 F17 _ _] Hv P1 P2.
  set (tq := dos_swtmr_queue (k_swtmr k)) in *. pose proof (si_kinv _ _ _ HS) as HI.
  assert (Hws : forall t, t ∈ ws -> exists b sz, W !! t = Some (InQueue tq b sz QUEUE_READ) /\
            pending_ok k (InQueue tq b sz QUEUE_READ) /\ t <> DOS_NULL).
  { intros t Ht. destruct (V5 t Ht) as [Hl _].
    destruct (waiting_on k A W t (QueuePendList tq QUEUE_READ) HS eq_refl Hl)
      as ([] & ct & HWt & [=] & Hpo & _ & _ & Htn). naive_solver. }
  assert (HL : same_layout k k').
  { split; [|by rewrite F17]. intros q v Hq. destruct (decide (q = tq)) as [->|Hne]; [|exists v; by rewrite F16].
    destruct Hv as (v0 & r & Hv0 & Hrep & _), V1 as (v' & r' & Hv' & Hrep' & _). exists v'.
    simplify_eq. destruct Hrep as [E1 E2 _ _ _ _ _ _ _ _ _], Hrep' as [E3 E4 _ _ _ _ _ _ _ _ _].
    split_and!; congruence. }
  assert (Hpr : forall q op t, t ∈ promised k' W q op ->
            t ∈ promised k W q op \/ (q = tq /\ op = QUEUE_READ /\ t ∈ ws)).
  { intros q op t Ht. destruct (decide (t ∈ ws)) as [Hin|Hn].
    - right. apply elem_of_promised in Ht as (b & sz & c & HWt & _).
      destruct (Hws t Hin) as (b' & sz' & HWt' & _). rewrite HWt in HWt'. by simplify_eq.
    - left. apply elem_of_promised in Ht as (b & sz & c' & HWt & HT' & Hs & Ho).
      destruct (proj1 (F6 t)) as [c HT]; [by eauto|].
      destruct (F5 t c Hn HT) as (c2 & HT2 & [T1 T2 T3 T4 T5]). apply elem_of_promised.
      exists b, sz, c. simplify_eq. split_and!; try done; [congruence|].
      destruct (timed_out c); [|done]. by rewrite T4 in Ho. }
  assert (Hql : forall l, (forall op, l <> QueuePendList tq op) -> l ∉ queue_lists tq).
  { intros l Hl. unfold queue_lists. rewrite !not_elem_of_cons, elem_of_nil. naive_solver. }
  assert (Hwt : forall l, is_pend_list l = true -> (forall op, l <> QueuePendList tq op) ->
            A' !! l = A !! l /\ waiters k' A' l = waiters k A l).
  { intros l Hl Hq. assert (E : A' !! l = A !! l) by (apply F1; auto). split; [done|].
    by apply (waiters_same _ _ _ _ _ _ HI Hl). }
  destruct HS as [I1 I2 [R1 R2] I4 I5 I6 I7 I8 I9 Iev (vt & T1 & T2 & T3) I11].
  split; try done.
  - split; by rewrite F9.
  - by rewrite F10.
  - by rewrite F11.
  - by rewrite F9.
  - rewrite F14. intros s Hx. destruct (I7 s Hx) as [H1 (b & H2 & H3)]. split; [done|]. exists b.
    unfold sem_view in *. destruct (Hwt (SemPendList s)) as [-> ->]; [done | done |]. by rewrite F14.
  - rewrite F15. intros m Hx. destruct (I8 m Hx) as [H1 (b & H2 & H3)]. split; [done|]. exists b.
    unfold mutex_view in *. destruct (Hwt (MutexPendList m)) as [-> ->]; [done | done |]. rewrite F15.
    split; [done|]. eapply amutex_inv_ext; [|done]. intros t. apply F6.
  - intros q Hx. assert (Hx0 : is_Some (k_queues k !! q)).
    { destruct (decide (q = tq)) as [->|Hne]; [by eauto | by rewrite <- F16]. }
    destruct (I9 q Hx0) as (H1 & H2 & H3 & n & z & b & H4 & H5 & H6).
    split; [done|]. split; [by apply F2|]. split; [by apply F2|].
    destruct (decide (q = tq)) as [->|Hne].
    + exists 4%nat, 8%nat, a'. split; [done|]. rewrite V2, V3. split.
      * etrans; [apply (promised_le k k' W W tq QUEUE_READ ws)|lia]. intros t Ht.
        destruct (Hpr _ _ _ Ht) as [|(_ & _ & ?)]; auto.
      * etrans; [|exact P2]. apply subseteq_size. intros t Ht.
        destruct (Hpr _ _ _ Ht) as [|(_ & [=] & _)]; done.
    + exists n, z, b. unfold queue_view in *. rewrite F16 by done. split; [done|].
      split; (etrans; [apply subseteq_size|]); [|done| |done]; intros t Ht;
        destruct (Hpr _ _ _ Ht) as [|(? & _)]; done.
  - rewrite F17. intros e Hx. destruct (Iev e Hx) as [H1 H2]. split; [done|]. by apply F2.
  - rewrite F13. fold tq in T1. destruct (proj1 HL _ _ T1) as (v' & L1 & L2 & L3). exists v'.
    split_and!; [exact L1 | congruence | congruence].
  - intros t c' HT'. destruct (decide (t ∈ ws)) as [Hin|Hn].
    + destruct (Hws t Hin) as (b & sz & HWt & Hpo & Htn). destruct (V5 t Hin) as (_ & c2 & HT2 & _ & Hs2).
      eapply woken_task_inv; [done | done | by eapply pending_ok_layout | congruence | done].
    + destruct (proj1 (F6 t)) as [c HT]; [by eauto|].
      destruct (F5 t c Hn HT) as (c2 & HT2 & [K1 K2 K3 K4 K5]). simplify_eq.
      destruct (I11 t c HT) as [Htn Ht]. split; [done|]. rewrite F4, K1 by done.
      assert (Hno : suspended c = false /\ timed_out c = false ->
                suspended c = false /\ timed_out c' = false).
      { intros [Hs Ho]. split; [done|]. destruct (timed_out c') eqn:E; [|done].
        destruct (K3 eq_refl); congruence. }
      destruct (W !! t) as [p|]; [|by apply Hno]. destruct Ht as [G1 Ht].
      split; [by eapply (pending_ok_layout k)|]. destruct (waits p); [|by apply Hno].
      destruct Ht as [G2 G3]. split; [done|]. intros Hs Hr. destruct (K5 Hs Hr) as [Hr0|]; auto.
Qed.

Lemma interrupt_enter_count k n :
  running k -> ipsr (k_cpu k) = n -> n <> 0 ->
  dos_interrupt_enter k = Done (tt, assign_dos_interrupt_count 1 k).
Proof.
  intros [Hr Hc] Hi Hn.
  unfold dos_interrupt_enter, dos_system_is_running, dos_context_is_interrupt. kstep.
  change (k_sys (assign_primask 1 k)) with (k_sys k).
  change (ipsr (k_cpu (assign_primask 1 k))) with (ipsr (k_cpu k)).
  rewrite Hr, Hi, (proj2 (Z.eqb_neq _ _) Hn). cbn [Z.eqb negb orb DOS_YES Pos.eqb]. kstep.
  change (k_sys (assign_primask 1 k)) with (k_sys k). rewrite Hc.
  by destruct k as [? ? ? [] [] ? ? ? ? ? ? ? ? ? ?].
Qed.

Lemma interrupt_leave_count k n :
  dos_system_is_run (k_sys k) = DOS_YES -> dos_interrupt_count (k_sys k) = 1 ->
  ipsr (k_cpu k) = n -> n <> 0 ->
  dos_interrupt_leave k = dos_scheduler (assign_dos_interrupt_count 0 k).
Proof.
  intros Hr Hc Hi Hn. unfold dos_interrupt_leave, dos_system_is_running, dos_context_is_interrupt,
    dos_is_in_interrupt. kstep.
  change (k_sys (assign_primask 1 k)) with (k_sys k).
  change (ipsr (k_cpu (assign_primask 1 k))) with (ipsr (k_cpu k)).
  rewrite Hr, Hi, (proj2 (Z.eqb_neq _ _) Hn). cbn [Z.eqb negb orb DOS_YES Pos.eqb]. kstep.
  change (k_sys (assign_primask 1 k)) with (k_sys k). rewrite Hc.
  change (u8 (1 - 1)) with 0. cbn [Z.eqb negb assign_dos_interrupt_count]. simpl dos_interrupt_count.
  cbn [Z.eqb negb]. unfold dos_interrupt_enable. kstep.
  by destruct k as [? ? ? [] [] ? ? ? ? ? ? ? ? ? ?].
Qed.

Lemma tick_ok k A W :
  sys_inv_at k A W ->
  exists k' A', tick_interrupt k = Done (tt, k') /\ sys_inv_at k' A' W /\ preemptive k' A' /\
    dos_tick_count (k_task k') = u32 (dos_tick_count (k_task k) + 1) /\ deadlines_met k k'.
Proof.
  intros HS. pose proof (si_kinv _ _ _ HS) as HI. set (tq := dos_swtmr_queue (k_swtmr k)).
  destruct (si_timer _ _ _ HS) as (vt & T1 & T2 & T3).
  destruct (si_queues _ _ _ HS tq) as (Q1 & Q2 & Q3 & n & z & a & Qv & P1 & P2); [by eauto|].
  assert (n = 4%nat /\ z = 8%nat) as [-> ->].
  { destruct Qv as (v & r & Hv & [E1 E2 _ _ _ _ _ _ _ _ _] & _). unfold tq in Hv. simplify_eq. lia. }
  set (k1 := assign_dos_interrupt_count 1 (assign_ipsr SYSTICK_IPSR k)).
  destruct (si_running _ _ _ HS) as [R1 R2].
  assert (Hen : dos_interrupt_enter (assign_ipsr SYSTICK_IPSR k) = Done (tt, k1))
    by (by apply (interrupt_enter_count _ SYSTICK_IPSR)).
  destruct (tick_frame_spec k1 A a) as (k2 & A2 & ws & a' & Hrun2 & HI2 & F); [exact HI | | exact Qv |].
  { split_and!; [done | by exists a | done]. }
  assert (Hy2 : k_sys k2 = k_sys k1) by apply F.
  set (k3 := assign_dos_interrupt_count 0 k2).
  assert (Hle : dos_interrupt_leave k2 = dos_scheduler k3).
  { apply (interrupt_leave_count _ SYSTICK_IPSR); rewrite ?Hy2; try done. apply F. }
  destruct (scheduler_ok k3 A2 _ HI2) as (k4 & Hrun4 & Hrs).
  assert (Hy3 : k_sys k3 = k_sys k).
  { destruct k as [? ? ? [] ? ? ? ? ? ? ? ? ? ? ?]. unfold k3. simpl. rewrite Hy2. simpl in *. by rewrite R2. }
  set (k5 := assign_ipsr 0 k4).
  assert (Hrun : tick_interrupt k = Done (tt, k5)).
  { unfold tick_interrupt. kstep. unfold SysTick_Handler. rewrite bind_assoc. run_with Hen.
    rewrite bind_assoc. run_with Hrun2. rewrite <- Hle in Hrun4. by run_with Hrun4. }
  assert (F5 : tick_frame ws a a' k A k5 A2).
  { pose proof (frame_resched [] [] k3 k4 A2 Hrs) as FR.
    destruct F as [V1 V2 V3 V4 V5 G1 G2 G3 G4 G5 G6 G7 G8 G9 G10 G11 G12 G13 G14 G15 G16 G17 G18 G19].
    pose proof (rescheduled_times _ _ Hrs) as [_ _ H1 H2 _].
    pose proof (st_tick _ _ (rescheduled_times _ _ Hrs)) as H0.
    split; try done.
    - unfold queue_view in *. simpl. by rewrite (rs_queues _ _ Hrs).
    - intros t Ht. destruct (V5 t Ht) as (E1 & c & E2 & E3 & E4). split; [done|].
      destruct (rescheduled_task k3 k4 t c Hrs E2) as [m HT]. by eexists.
    - intros t. simpl. rewrite (rs_store _ _ Hrs). apply G3.
    - intros t Ht. simpl. rewrite (rs_store _ _ Hrs). by apply G4.
    - intros t c Ht HT. destruct (G5 t c Ht HT) as (c' & HT' & Hc).
      destruct (rescheduled_task k3 k4 t c' Hrs HT') as [m HT4]. eexists. split; [exact HT4|].
      by apply ticked_tick.
    - intros t. simpl. rewrite (fr_tcbs _ _ _ _ _ _ FR). apply G6.
    - simpl. by rewrite H1.
    - simpl. by rewrite H2.
    - simpl. by rewrite (rs_sys _ _ Hrs).
    - simpl. rewrite (rescheduled_primask _ _ Hrs). apply G10.
    - simpl. symmetry. apply (si_ipsr _ _ _ HS).
    - intros He. simpl. rewrite (rs_pendsv _ _ Hrs).
      + simpl. rewrite G12; [done|]. unfold sched_enabled. simpl. done.
      + revert He. unfold sched_enabled. by rewrite Hy3.
    - simpl. by rewrite (rs_swtmr _ _ Hrs).
    - simpl. by rewrite (rs_sems _ _ Hrs).
    - simpl. by rewrite (rs_mutexes _ _ Hrs).
    - intros q Hq. simpl. rewrite (rs_queues _ _ Hrs). by apply G16.
    - simpl. by rewrite (rs_events _ _ Hrs).
    - simpl. by rewrite H0.
    - intros t v Hw. destruct (G19 t v Hw) as [(c & HT & Hr)|[(c & HT & Hd & Hv) Hne]];
        destruct (rescheduled_task k3 k4 t c Hrs HT) as [m HT4].
      + left. by eexists.
      + right. unfold timed_wait. simpl. rewrite H0, (rs_store _ _ Hrs). split; [by eexists | done]. }
  assert (HI5 : kinv k5 A2) by exact (rescheduled_kinv k3 k4 A2 HI2 Hrs).
  assert (HSP : sched_state k5 A2 /\ preemptive k5 A2).
  { destruct (decide (dos_scheduler_lock_count (k_sys k) = 0)) as [Hl|Hl].
    - destruct (scheduler_settles k3 A2 k4 HI2) as [[S1 S2] S3]; [| |done|done].
      + split; by rewrite Hy3.
      + by rewrite Hy3.
    - assert (Hps : pendsv (k_cpu k) = false).
      { destruct (pendsv (k_cpu k)) eqn:E; [|done]. by destruct (ss_next _ _ (si_sched _ _ _ HS) E). }
      assert (Hps5 : pendsv (k_cpu k5) = false).
      { rewrite (tf_pendsv _ _ _ _ _ _ _ F5); [done|]. unfold sched_enabled.
        by rewrite (proj2 (Z.eqb_neq _ _) Hl), andb_false_r. }
      split; [split; rewrite Hps5; [intros _|done]|].
      + destruct (runner k A W HS Hps) as (c & HT & Hr & Hcn & Ht). rewrite (tf_current _ _ _ _ _ _ _ F5).
        destruct (decide (current k ∈ ws)) as [Hin|Hn].
        * destruct (tf_woken _ _ _ _ _ _ _ F5 _ Hin) as (_ & c' & HT' & Hr' & _). eauto.
        * destruct (tf_tasks _ _ _ _ _ _ _ F5 _ c Hn HT) as (c' & HT' & Hc). exists c'. split; [done|].
          by apply Hc.
      + intros _. rewrite (tf_sys _ _ _ _ _ _ _ F5). done. }
  destruct HSP as [HS5 HP5]. exists k5, A2. split; [done|].
  split; [by eapply (inv_tick ws a a') | split; [done|]]. by destruct F5.
Qed.

(** ** All steps *)

Lemma call_step_inv k W k' a r A :
  sys_inv_at k A W -> pendsv (k_cpu k) = false -> W !! current k = None -> permitted k a ->
  run_call a k = Done (r, k') ->
  exists A', match r with
    | Return _ => sys_inv_at k' A' W
    | Suspend m => exists p, pending_of k a = Some p /\ m = resume (current k) p /\
        sys_inv_at k' A' (<[current k := p]> W)
    end /\ (preemptive k A -> (forall m, a <> MutexPost m) -> preemptive k' A') /\ call_effect k k' a.
Proof.
  intros HS Hp HW Ha Hrun. destruct (calls_ok k A W HS Hp HW a Ha) as (r' & k2 & A' & Hrun' & H).
  rewrite Hrun in Hrun'. simplify_eq. by exists A'.
Qed.

(** What a step means to the deadlines. *)
Definition step_time (e : event) (k k' : kernel) : Prop :=
  match e with
  | Call a => call_effect k k' a
  | TickInterrupt =>
      dos_tick_count (k_task k') = u32 (dos_tick_count (k_task k) + 1) /\ deadlines_met k k'
  | Resume | ContextSwitch => time_kept k k'
  end.

(** The state after a step, with the priority of the running task. *)
Lemma step_inv_at e k W s' A :
  sys_inv_at k A W -> step e (mk_system k W) s' ->
  exists A', sys_inv_at (sy_kernel s') A' (sy_waiting s') /\
    (preemptive k A -> (forall m, e <> Call (MutexPost m)) -> preemptive (sy_kernel s') A') /\
    step_time e k (sy_kernel s').
Proof.
  intros HS Hst. remember (mk_system k W) as s eqn:Es.
  destruct Hst as [a v k0 k' W0 Hp HW Ha Hrun | a p k0 k' W0 Hp HW Ha Hpd Hrun | p v k0 k' W0 Hp HW Hrun
    | k0 k' W0 Hrun | k0 k' W0 Hp Hrun]; injection Es as -> ->; simpl.
  - destruct (call_step_inv k W k' a _ A HS Hp HW Ha Hrun) as (A' & H1 & H2 & H3). exists A'.
    split; [done|]. split; [|done]. intros HP He. apply H2; [done|]. intros m ->. by apply (He m).
  - destruct (call_step_inv k W k' a _ A HS Hp HW Ha Hrun) as (A' & (p' & H1 & _ & H3) & H2 & H4). exists A'.
    assert (p' = p) as -> by congruence. split; [done|]. split; [|done]. intros HP He. apply H2; [done|]. intros m ->. by apply (He m).
  - destruct (resume_done k A W p HS Hp HW) as (v' & k2 & A' & Hrun' & H1 & H2 & H3).
    assert (k2 = k') as -> by congruence. exists A'. auto.
  - destruct (tick_ok k A W HS) as (k2 & A' & Hrun' & H1 & H2 & H3). assert (k2 = k') as -> by congruence. exists A'. auto.
  - destruct (switch_ok k A W HS Hp) as (k2 & Hrun' & H1 & H2 & H3). assert (k2 = k') as -> by congruence. exists A. auto.
Qed.

Lemma inv_no_fault s : sys_inv s -> no_fault s.
Proof.
  destruct s as [k W]. intros [A HS]. unfold no_fault. cbn [sy_kernel sy_waiting] in *. split.
  - destruct (tick_ok k A W HS) as (k' & A' & Hrun & _). eexists. by apply step_tick.
  - destruct (pendsv (k_cpu k)) eqn:Hp.
    + destruct (switch_ok k A W HS Hp) as (k' & Hrun & _). eexists. by apply step_switch.
    + destruct (W !! current k) as [p|] eqn:HW.
      * destruct (resume_done k A W p HS Hp HW) as (v & k' & A' & Hrun & _). eexists.
        by eapply step_resume.
      * intros a Ha. destruct (calls_ok k A W HS Hp HW a Ha) as (r & k' & A' & Hrun & H & _).
        destruct r as [v|m]; [eexists; by eapply step_return|].
        destruct H as (p & H1 & -> & _). eexists. by eapply step_suspend.
Qed.

(** A run of the system: any calls within the rules of use, in any order, with
    ticks and context switches in between. *)
Definition runs (ok : event -> Prop) : relation system :=
  rtc (fun s s' => exists e, ok e /\ step e s s').

(** A run of the system of [Boot], whose timer task waits for a message: [a]
    sleeps for a tick, and [b] runs. *)
Definition demo_waiting : gmap Z pending :=
  {[ dos_swtmr_tcb (k_swtmr demo) :=
       InQueue (dos_swtmr_queue (k_swtmr demo)) (repeat 0 8) SIZEOF_SWTMR_MSG QUEUE_READ ]}.
Definition demo_system : system := mk_system demo demo_waiting.
Definition demo_asleep : kernel := after (run_call (Sleep 1)) demo.
Definition demo_switched : kernel := after PendSV_Handler demo_asleep.

Lemma demo_system_inv : sys_inv_at demo (lists_of demo) demo_waiting.
Proof. apply sys_check_sound. by_eval. Qed.

Lemma run_after {R} (m : kprog R) k v :
  succeeds (m k) = true -> result_value (m k) v = v -> m k = Done (v, after m k).
Proof. unfold after. destruct (m k) as [[r k']| |]; try done. simpl. by intros _ ->. Qed.

Lemma demo_may_sleep : permitted demo (Sleep 1).
Proof.
  assert (H1 : dos_current_task (k_task demo) <> dos_idle_task (k_task demo)) by (vm_compute; discriminate).
  assert (H2 : dos_scheduler_lock_count (k_sys demo) = 0) by by_eval.
  exact (conj (conj (conj (Z.le_0_1) eq_refl) H1) H2).
Qed.

Lemma demo_sleeps : step (Call (Sleep 1)) demo_system (mk_system demo_asleep demo_waiting).
Proof.
  assert (H1 : pendsv (k_cpu demo) = false) by by_eval.
  assert (H2 : demo_waiting !! current demo = None) by by_eval.
  assert (H3 : succeeds (run_call (Sleep 1) demo) = true) by by_eval.
  assert (H4 : result_value (run_call (Sleep 1) demo) (Return (DOS_OK, [])) = Return (DOS_OK, [])) by by_eval.
  exact (step_return (Sleep 1) (DOS_OK, []) demo demo_asleep demo_waiting H1 H2 demo_may_sleep
    (run_after (run_call (Sleep 1)) demo _ H3 H4)).
Qed.

Lemma demo_switches :
  step ContextSwitch (mk_system demo_asleep demo_waiting) (mk_system demo_switched demo_waiting).
Proof.
  assert (H1 : pendsv (k_cpu demo_asleep) = true) by by_eval.
  assert (H2 : succeeds (PendSV_Handler demo_asleep) = true) by by_eval.
  assert (H3 : result_value (PendSV_Handler demo_asleep) tt = tt) by by_eval.
  exact (step_switch demo_asleep demo_switched demo_waiting H1 (run_after PendSV_Handler demo_asleep tt H2 H3)).
Qed.

Lemma demo_system_runs :
  runs (fun e => forall m, e <> Call (MutexPost m)) demo_system (mk_system demo_switched demo_waiting).
Proof.
  apply (rtc_l _ _ (mk_system demo_asleep demo_waiting)).
  - exists (Call (Sleep 1)). split; [discriminate | exact demo_sleeps].
  - apply rtc_once. exists ContextSwitch. split; [discriminate | exact demo_switches].
Qed.

Lemma runs_mono (P Q : event -> Prop) s s' :
  (forall e, P e -> Q e) -> runs P s s' -> runs Q s s'.
Proof. intros H. apply rtc_subrel. intros x y (e & He & Hst). eauto. Qed.



(** The system invariant with the highest ready priority running. *)
Definition sys_preemptive (s : system) : Prop :=
  exists A, sys_inv_at (sy_kernel s) A (sy_waiting s) /\ preemptive (sy_kernel s) A.


Lemma demo_preemptive : preemptive demo (lists_of demo).
Proof.
  intros _ _ c HT.
  assert (H : option_map priority (k_tcbs demo !! dos_current_task (k_task demo)) = Some 3) by by_eval.
  rewrite HT in H. injection H as H. rewrite H.
  assert (H1 : lists_of demo !! PriorityList 3 = Some [StatusItem task_a; StatusItem task_b]) by by_eval.
  assert (H2 : lists_of demo !! PriorityList 0 = Some []) by by_eval.
  assert (H3 : lists_of demo !! PriorityList 1 = Some []) by by_eval.
  assert (H4 : lists_of demo !! PriorityList 2 = Some []) by by_eval.
  generalize dependent (lists_of demo). intros A H1 H2 H3 H4. clear HT. split; [lia|]. split.
  - by rewrite H1.
  - intros i Hi. assert (i = 0 \/ i = 1 \/ i = 2) as [-> |[-> | ->]] by lia; done.
Qed.

