(* ===== verification/SystemLive.v ===== *)
(** * A wait with a timeout ends in time

    A task that blocks with a timeout, or sleeps, has a deadline.  The steps of
    the other tasks, the ticks and the context switches keep the deadline until
    it is met, so the task is ready again after at most as many ticks as it
    asked for, whatever the other tasks do in the meantime. *)

From S2P Require Import Prelude TaskList Mem Kernel Sched KernelInv Task Sem Mutex Queue Event Swtmr Tick.
From S2P Require Import FrameSpec TickSpec System SystemInv SystemSpec KernelCheck Boot.

(** ** Traces *)

Inductive trace : list event -> system -> system -> Prop :=
| trace_nil s : trace [] s s
| trace_cons e es s1 s2 s3 : step e s1 s2 -> trace es s2 s3 -> trace (e :: es) s1 s3.

Fixpoint ticks (es : list event) : nat :=
  match es with
  | [] => 0
  | TickInterrupt :: es => S (ticks es)
  | _ :: es => ticks es
  end.

Definition now (s : system) : Z := dos_tick_count (k_task (sy_kernel s)).

(** Some state of the trace, after at most [n] of its ticks, satisfies [P]. *)
Definition within (n : Z) (P : system -> Prop) (es : list event) (s s' : system) : Prop :=
  exists es1 es2 s1, es = es1 ++ es2 /\ trace es1 s s1 /\ trace es2 s1 s' /\
    Z.of_nat (ticks es1) <= n /\ P s1.

Lemma within_here n (P : system -> Prop) es s s' : 0 <= n -> P s -> trace es s s' -> within n P es s s'.
Proof. intros Hn HP Ht. exists [], es, s. by repeat split; [constructor | | |]. Qed.

Lemma within_step n (P : system -> Prop) e es s1 s2 s3 :
  step e s1 s2 -> within (n - Z.of_nat (ticks [e])) P es s2 s3 -> within n P (e :: es) s1 s3.
Proof.
  intros Hst (es1 & es2 & s & -> & H1 & H2 & Hn & HP). exists (e :: es1), es2, s.
  split_and!; [done | by econstructor | done | | done].
  change (ticks (e :: es1)) with (ticks ([e] ++ es1)). destruct e; simpl in *; lia.
Qed.

(** ** Deadlines *)

(** One step: a deadline [n] ticks ahead is met, or lies as far ahead as before,
    less the tick of the step. *)
Lemma step_deadline e s s' t n :
  sys_inv s -> step e s s' -> timed_wait (sy_kernel s) t (u32 (now s + n)) -> 0 < n < 2 ^ 32 ->
  sys_inv s' /\ Z.of_nat (ticks [e]) <= n /\
  (is_ready (sy_kernel s') t \/
   (0 < n - Z.of_nat (ticks [e]) /\
    timed_wait (sy_kernel s') t (u32 (now s' + (n - Z.of_nat (ticks [e])))))).
Proof.
  destruct s as [k W]. intros [A HS] Hst Hw Hn.
  destruct (step_inv_at e k W s' A HS Hst) as (A' & HS' & _ & Ht). split; [by exists A'|].
  unfold now in *. cbn [sy_kernel] in *. set (k' := sy_kernel s') in *.
  assert (Hkeep : dos_tick_count (k_task k') = dos_tick_count (k_task k) -> deadlines_kept k k' ->
    0 <= n /\ (is_ready k' t \/ (0 < n - 0 /\ timed_wait k' t (u32 (dos_tick_count (k_task k') + (n - 0)))))).
  { intros E Hd. split; [lia|]. rewrite E, Z.sub_0_r. destruct (Hd t _ Hw); [by left | right; split; [lia|done]]. }
  destruct e as [a| | |]; [apply Hkeep; apply Ht | apply Hkeep; apply Ht | | apply Hkeep; apply Ht].
  destruct Ht as [E Hd]. change (Z.of_nat (ticks [TickInterrupt])) with 1. split; [lia|].
  destruct (Hd t _ Hw) as [Hr|[Hw' Hne]]; [by left | right]. rewrite E in *.
  assert (n <> 1) by (intros ->; done). split; [lia|].
  replace (u32 (u32 (dos_tick_count (k_task k) + 1) + (n - 1))) with (u32 (dos_tick_count (k_task k) + n)); [done|].
  unfold u32. rewrite Zplus_mod_idemp_l. f_equal. lia.
Qed.

Lemma deadline_met es s s' : trace es s s' -> forall t n,
  sys_inv s -> timed_wait (sy_kernel s) t (u32 (now s + n)) -> 0 < n < 2 ^ 32 ->
  n <= Z.of_nat (ticks es) -> within n (fun s => is_ready (sy_kernel s) t) es s s'.
Proof.
  intros Htr. induction Htr as [s|e es s1 s2 s3 Hst Htr IH]; intros t n HS Hw Hn Hle; [simpl in Hle; lia|].
  destruct (step_deadline e s1 s2 t n HS Hst Hw Hn) as (HS2 & Hn2 & [Hr|[Hp Hw2]]); apply (within_step _ _ _ _ _ s2); try done.
  - apply within_here; [lia | done | done].
  - apply IH; [done | done | lia |]. destruct e; simpl in *; lia.
Qed.

Lemma permitted_timeout k a timeout :
  permitted k a -> timeout_of a = Some timeout -> 0 <= timeout < 2 ^ 32.
Proof. unfold permitted, timeout_ok. destruct a; naive_solver. Qed.

Lemma call_permitted a s s' : step (Call a) s s' -> permitted (sy_kernel s) a.
Proof. by inversion 1. Qed.

(** The system of [Boot] goes on: [a] sleeps, [b] is switched in, the tick comes. *)
Definition demo_ticked : kernel := after tick_interrupt demo_switched.

Lemma demo_trace :
  trace [ContextSwitch; TickInterrupt] (mk_system demo_asleep demo_waiting) (mk_system demo_ticked demo_waiting).
Proof.
  assert (H1 : succeeds (tick_interrupt demo_switched) = true) by by_eval.
  assert (H2 : result_value (tick_interrupt demo_switched) tt = tt) by by_eval.
  refine (trace_cons _ _ _ _ _ demo_switches (trace_cons _ _ _ _ _ _ (trace_nil _))).
  exact (step_tick demo_switched demo_ticked demo_waiting (run_after tick_interrupt demo_switched tt H1 H2)).
Qed.

(** C3: A wait with a timeout ends in time.  When a task calls a blocking
    operation (semaphore, mutex, queue or event group with a finite timeout, or a
    sleep) in a system that satisfies its invariant, then in every run of the
    system after that call in which as many ticks pass as the timeout says, the
    caller is ready again at some point, after at most that many ticks: whatever
    the other tasks call, however they block and are woken, and wherever the tick
    counter wraps. *)
Theorem wait_bounded a timeout s s1 s' es :
  sys_inv s -> step (Call a) s s1 -> timeout_of a = Some timeout ->
  0 < timeout -> timeout <> DOS_WAIT_FOREVER ->
  trace es s1 s' -> timeout <= Z.of_nat (ticks es) ->
  within timeout (fun s2 => is_ready (sy_kernel s2) (current (sy_kernel s))) es s1 s'.
Proof.
  intros HS Hst Ha H0 Hf Htr Hle. pose proof (permitted_timeout _ _ _ (call_permitted _ _ _ Hst) Ha) as Hb.
  destruct s as [k W], HS as [A HS]. destruct (step_inv_at _ k W s1 A HS Hst) as (A' & HS1 & _ & [E _ Hc]).
  destruct Hc as [Hr|(n & En & Hw)]; [apply within_here; [lia | done | done]|].
  assert (n = timeout) as -> by congruence. apply deadline_met; [done | by exists A' | | lia | done].
  unfold now. rewrite E. by apply Hw.
Qed.

Lemma wait_bounded_witness :
  within 1 (fun s2 => is_ready (sy_kernel s2) (current demo)) [ContextSwitch; TickInterrupt]
    (mk_system demo_asleep demo_waiting) (mk_system demo_ticked demo_waiting).
Proof.
  assert (H : DOS_WAIT_FOREVER <> 1) by discriminate.
  exact (wait_bounded (Sleep 1) 1 demo_system (mk_system demo_asleep demo_waiting)
    (mk_system demo_ticked demo_waiting) [ContextSwitch; TickInterrupt]
    (ex_intro _ (lists_of demo) demo_system_inv) demo_sleeps eq_refl Z.lt_0_1 (not_eq_sym H) demo_trace (Z.le_refl 1)).
Defined.
