(* ===== verification/FifoSpec.v ===== *)
(** * The byte FIFO is a bounded queue of bytes

    [fifo_rep] relates the ring buffer and its free running counters to the
    bytes stored; writing appends and reading removes at the front, across the
    end of the buffer and the wrap-around of the counters. *)

From S2P Require Import Prelude TaskList TaskListSpec Mem Priority Kernel Sched KernelInv.
From S2P Require Import SchedSpec Sem Mutex Fifo IpcSpec MutexSpec KernelCheck Boot.

(** ** Sizes *)

(** [m] is the exponent of the buffer size; the counters hold the positions
    modulo 2^32. *)
Record fifo_rep (m : Z) (f : dos_fifo) (bs : list Z) : Prop := {
  fr_exp : 0 <= m <= 31;
  fr_size : fifo_size f = 2 ^ m;
  fr_data : Z.of_nat (length (fifo_buffer f)) = 2 ^ m;
  fr_in : 0 <= fifo_in f < 2 ^ 32;
  fr_out : 0 <= fifo_out f < 2 ^ 32;
  fr_count : u32 (fifo_in f - fifo_out f) = Z.of_nat (length bs);
  fr_bound : Z.of_nat (length bs) <= 2 ^ m;
  fr_bytes : forall i, 0 <= i < Z.of_nat (length bs) ->
    fifo_buffer f !! Z.to_nat ((fifo_out f + i) mod 2 ^ m) = bs !! Z.to_nat i
}.

(** [x & (size - 1)] is the remainder. *)
Lemma land_mask m x : 0 <= m <= 31 -> Z.land x (u32 (2 ^ m - 1)) = x mod 2 ^ m.
Proof.
  intros Hm. rewrite u32_small, <- Z.land_ones, Z.ones_equiv, <- Z.sub_1_r; [done | lia |].
  assert (2 ^ m <= 2 ^ 31) by (apply Z.pow_le_mono_r; lia).
  pose proof (Z.pow_pos_nonneg 2 m ltac:(lia) ltac:(lia)). lia.
Qed.

Lemma mod_of a b n q : a = b + q * n -> 0 <= b < n -> a mod n = b.
Proof. intros -> Hb. rewrite Z_mod_plus_full. by apply Z.mod_small. Qed.

(** The buffer sizes divide the counters' modulus. *)
Lemma pow_divides m : 0 <= m <= 31 -> exists q, 2 ^ 32 = q * 2 ^ m /\ 0 < 2 ^ m <= 2 ^ 31.
Proof.
  intros Hm. exists (2 ^ (32 - m)). rewrite <- Z.pow_add_r by lia.
  replace (32 - m + m) with 32 by lia. split; [done|].
  split; [apply Z.pow_pos_nonneg; lia | apply Z.pow_le_mono_r; lia].
Qed.

Lemma u32_mod_pow m x : 0 <= m <= 31 -> u32 x mod 2 ^ m = x mod 2 ^ m.
Proof.
  intros Hm. destruct (pow_divides m Hm) as (q & Hq & Hp). unfold u32.
  pose proof (Z.div_mod x (2 ^ 32) ltac:(lia)) as E.
  pose proof (f_equal (Z.mul (x / 2 ^ 32)) Hq) as Hy.
  replace (x mod 2 ^ 32) with (x + (- (x / 2 ^ 32) * q) * 2 ^ m) by lia.
  apply Z_mod_plus_full.
Qed.

(** ** Copies into the buffer *)

Lemma fifo_mem_put_length d off bs :
  (off + length bs <= length d)%nat -> length (fifo_mem_put d off bs) = length d.
Proof. intros H. unfold fifo_mem_put. rewrite !length_app, length_take, length_drop. lia. Qed.

Lemma fifo_mem_put_lookup d off bs i :
  (off + length bs <= length d)%nat ->
  fifo_mem_put d off bs !! i =
    if decide (off <= i < off + length bs)%nat then bs !! (i - off)%nat else d !! i.
Proof.
  intros H. unfold fifo_mem_put.
  destruct (decide (i < off)%nat) as [Hi|Hi].
  - rewrite lookup_app_l by (rewrite length_take; lia).
    rewrite lookup_take_lt by lia. by rewrite decide_False by lia.
  - rewrite lookup_app_r by (rewrite length_take; lia).
    rewrite length_take, Nat.min_l by lia. case_decide as Hd.
    + by rewrite lookup_app_l by lia.
    + rewrite lookup_app_r by lia. rewrite lookup_drop. f_equal. lia.
Qed.

(** The two copies of a write of [n] bytes at ring position [w]. *)
Lemma ring_put_lookup d N w n buff p :
  Z.of_nat (length d) = N -> 0 <= w < N -> 0 <= n <= N -> n <= Z.of_nat (length buff) ->
  0 <= p < N ->
  let l := Z.min n (N - w) in
  let d' := fifo_mem_put (fifo_mem_put d (Z.to_nat w) (take (Z.to_nat l) buff)) 0
              (take (Z.to_nat (n - l)) (drop (Z.to_nat l) buff)) in
  d' !! Z.to_nat p =
    if (p - w) mod N <? n then buff !! Z.to_nat ((p - w) mod N) else d !! Z.to_nat p.
Proof.
  intros Hd Hw Hn Hb Hp l d'. unfold d'.
  assert (L1 : length (take (Z.to_nat l) buff) = Z.to_nat l) by (rewrite length_take; lia).
  assert (L2 : length (take (Z.to_nat (n - l)) (drop (Z.to_nat l) buff)) = Z.to_nat (n - l))
    by (rewrite length_take, length_drop; lia).
  rewrite fifo_mem_put_lookup; rewrite ?L2, ?fifo_mem_put_length; rewrite ?L1; try lia.
  rewrite Nat.add_0_l, Nat.sub_0_r, fifo_mem_put_lookup; rewrite L1; try lia.
  destruct (decide (w <= p)) as [Hwp|Hwp].
  - rewrite (mod_of (p - w) (p - w) N 0) by lia.
    rewrite decide_False by lia. destruct (Z.ltb_spec (p - w) n).
    + rewrite decide_True, lookup_take_lt by lia. f_equal. lia.
    + by rewrite decide_False by lia.
  - rewrite (mod_of (p - w) (p - w + N) N (-1)) by lia.
    destruct (Z.ltb_spec (p - w + N) n).
    + rewrite decide_True, lookup_take_lt, lookup_drop by lia. f_equal. lia.
    + rewrite decide_False by lia. by rewrite decide_False by lia.
Qed.

(** The bytes of a read of [n] bytes at ring position [w]. *)
Lemma ring_take_lookup (d : list Z) N w n i :
  Z.of_nat (length d) = N -> 0 <= w < N -> 0 <= n <= N -> 0 <= i < n ->
  let l := Z.min n (N - w) in
  (take (Z.to_nat l) (drop (Z.to_nat w) d) ++ take (Z.to_nat (n - l)) d) !! Z.to_nat i =
    d !! Z.to_nat ((w + i) mod N).
Proof.
  intros Hd Hw Hn Hi l.
  assert (L1 : length (take (Z.to_nat l) (drop (Z.to_nat w) d)) = Z.to_nat l)
    by (rewrite length_take, length_drop; lia).
  destruct (decide (w + i < N)) as [Hwi|Hwi].
  - rewrite (mod_of (w + i) (w + i) N 0) by lia.
    rewrite lookup_app_l, lookup_take_lt, lookup_drop by lia. f_equal. lia.
  - rewrite (mod_of (w + i) (w + i - N) N 1) by lia.
    rewrite lookup_app_r, lookup_take_lt by lia. f_equal. lia.
Qed.

(** ** Operations *)

Lemma fifo_free m f bs :
  fifo_rep m f bs -> u32 (fifo_size f - fifo_in f + fifo_out f) = 2 ^ m - Z.of_nat (length bs).
Proof.
  intros []. destruct (pow_divides m) as (q & Hq & Hp); [done|].
  pose proof (Z.div_mod (fifo_in f - fifo_out f) (2 ^ 32) ltac:(lia)) as E.
  unfold u32 in *. apply (mod_of _ _ _ (- ((fifo_in f - fifo_out f) / 2 ^ 32))); lia.
Qed.

(** The write position is behind the stored bytes. *)
Lemma fifo_in_out m f bs :
  fifo_rep m f bs -> fifo_in f mod 2 ^ m = (fifo_out f + Z.of_nat (length bs)) mod 2 ^ m.
Proof.
  intros []. rewrite <- fr_count0, <- Z.add_mod_idemp_r, u32_mod_pow by lia.
  rewrite Z.add_mod_idemp_r by lia. f_equal. lia.
Qed.

(** Moving a position by [i] bytes, counted from the stored ones. *)
Lemma fifo_distance m f bs i :
  fifo_rep m f bs -> 0 <= i <= 2 ^ m ->
  ((fifo_out f + i) mod 2 ^ m - fifo_in f mod 2 ^ m) mod 2 ^ m =
    (i - Z.of_nat (length bs)) mod 2 ^ m.
Proof.
  intros R Hi. rewrite (fifo_in_out m f bs R). destruct R.
  rewrite <- Zminus_mod. f_equal. lia.
Qed.

Lemma fifo_put_spec m f bs buff len :
  fifo_rep m f bs -> 0 <= len <= Z.of_nat (length buff) ->
  let n := Z.min len (2 ^ m - Z.of_nat (length bs)) in
  exists f', fifo_put f buff len = (n, f') /\ fifo_rep m f' (bs ++ take (Z.to_nat n) buff) /\
    fifo_mutex_read f' = fifo_mutex_read f /\ fifo_mutex_write f' = fifo_mutex_write f /\
    fifo_out f' = fifo_out f.
Proof.
  intros R Hlen n. pose proof (fifo_free m f bs R) as Hfree.
  pose proof (fifo_distance m f bs) as Hdist. pose proof R as [].
  destruct (pow_divides m) as (q & Hq & Hp); [done|].
  pose proof (Z.mod_pos_bound (fifo_in f) (2 ^ m) ltac:(lia)) as Hw.
  assert (L : length (bs ++ take (Z.to_nat n) buff) = (length bs + Z.to_nat n)%nat)
    by (rewrite length_app, length_take; lia).
  unfold fifo_put. rewrite Hfree, fr_size0, land_mask by done.
  rewrite (u32_small (2 ^ m - fifo_in f mod 2 ^ m)) by lia. fold n.
  eexists. split; [reflexivity|]. split; [|done]. split; cbn -[fifo_mem_put].
  - done.
  - done.
  - rewrite !fifo_mem_put_length; rewrite ?fifo_mem_put_length;
      rewrite ?length_take, ?length_drop; lia.
  - apply u32_range.
  - done.
  - rewrite L. unfold u32 in *. rewrite Zminus_mod_idemp_l.
    pose proof (Z.div_mod (fifo_in f - fifo_out f) (2 ^ 32) ltac:(lia)) as E.
    apply (mod_of _ _ _ ((fifo_in f - fifo_out f) / 2 ^ 32)); lia.
  - rewrite L. lia.
  - rewrite L. intros i Hi.
    pose proof (Z.mod_pos_bound (fifo_out f + i) (2 ^ m) ltac:(lia)) as Hpos.
    rewrite ring_put_lookup, Hdist by (done || lia).
    destruct (decide (i < Z.of_nat (length bs))) as [Hb|Hb].
    + rewrite (mod_of _ (i - Z.of_nat (length bs) + 2 ^ m) _ (-1)) by lia.
      destruct (Z.ltb_spec (i - Z.of_nat (length bs) + 2 ^ m) n); [lia|].
      rewrite lookup_app_l by lia. apply fr_bytes0. lia.
    + rewrite (mod_of _ (i - Z.of_nat (length bs)) _ 0) by lia.
      destruct (Z.ltb_spec (i - Z.of_nat (length bs)) n); [|lia].
      rewrite lookup_app_r, lookup_take_lt by lia. f_equal. lia.
Qed.

Lemma fifo_take_spec m f bs len :
  fifo_rep m f bs -> 0 <= len ->
  let n := Z.to_nat (Z.min len (Z.of_nat (length bs))) in
  exists f', fifo_take f len = (take n bs, f') /\ fifo_rep m f' (drop n bs) /\
    fifo_mutex_read f' = fifo_mutex_read f /\ fifo_mutex_write f' = fifo_mutex_write f /\
    fifo_in f' = fifo_in f.
Proof.
  intros R Hlen n. pose proof R as []. destruct (pow_divides m) as (q & Hq & Hp); [done|].
  pose proof (Z.mod_pos_bound (fifo_out f) (2 ^ m) ltac:(lia)) as Hw.
  unfold fifo_take. rewrite fr_count0, fr_size0, land_mask by done.
  rewrite (u32_small (2 ^ m - fifo_out f mod 2 ^ m)) by lia.
  set (z := Z.min len (Z.of_nat (length bs))) in *.
  eexists. split; [f_equal|].
  - apply list_eq. intros i. destruct (decide (i < n)%nat) as [Hi|Hi].
    + rewrite lookup_take_lt by done.
      rewrite <- (Nat2Z.id i), ring_take_lookup, Z.add_mod_idemp_l by lia.
      apply fr_bytes0. lia.
    + rewrite !lookup_ge_None_2; [done | |].
      all: rewrite ?length_app, ?length_take, ?length_drop; lia.
  - split; [|done]. split; cbn; try done.
    + apply u32_range.
    + rewrite length_drop. unfold u32 in *. rewrite Zminus_mod_idemp_r.
      pose proof (Z.div_mod (fifo_in f - fifo_out f) (2 ^ 32) ltac:(lia)) as E.
      apply (mod_of _ _ _ ((fifo_in f - fifo_out f) / 2 ^ 32)); lia.
    + rewrite length_drop. lia.
    + rewrite length_drop. intros i Hi. rewrite lookup_drop.
      replace (Z.to_nat i) with (Z.to_nat (z + i) - n)%nat by lia.
      rewrite <- Z.add_mod_idemp_l, u32_mod_pow, Z.add_mod_idemp_l by lia.
      replace (n + (Z.to_nat (z + i) - n))%nat with (Z.to_nat (z + i)) by lia.
      rewrite <- fr_bytes0 by lia. do 3 f_equal. lia.
Qed.

(** ** The calls, with their mutexes *)

(** A FIFO with its contents, whose mutex [mx] is idle, called by a task. *)
Record fifo_call (k : kernel) (A : gmap list_ptr (list item_ptr)) (fifo : Z) (mx : dos_fifo -> Z)
    (m : Z) (f : dos_fifo) (bs : list Z) (c : dos_task_cb) : Prop := {
  fc_addr : fifo <> DOS_NULL;
  fc_fifo : k_fifos k !! fifo = Some f;
  fc_rep : fifo_rep m f bs;
  fc_mutex : mutex_idle k A (mx f);
  fc_task : k_tcbs k !! dos_current_task (k_task k) = Some c;
  fc_thread : ipsr (k_cpu k) = 0
}.

Definition same_mutexes (f f' : dos_fifo) : Prop :=
  fifo_mutex_read f' = fifo_mutex_read f /\ fifo_mutex_write f' = fifo_mutex_write f.

(** What both calls leave: only the FIFO differs, its mutex is idle again. *)
Definition fifo_after (k : kernel) (mx fifo : Z) (f' : dos_fifo) : kernel :=
  put_mutex mx (mk_mutex 0 0 DOS_NULL) (put_fifo fifo f' k).

(** [dos_fifo_write] appends to the byte queue: it locks the FIFO, accepts as
    many bytes as there is room for, returns their number, and unlocks it.  The
    FIFO then holds the old bytes followed by the accepted ones, also when the data
    goes round the end of the buffer and when a counter wraps around at 2^32;
    nothing else in the kernel changes. *)
Lemma fifo_write_run k A fifo m f bs c buff len timeout :
  kinv k A -> fifo_call k A fifo fifo_mutex_write m f bs c ->
  0 < len <= Z.of_nat (length buff) ->
  let n := Z.min len (2 ^ m - Z.of_nat (length bs)) in
  exists f', dos_fifo_write fifo (Some buff) len timeout k =
      Done (Return n, fifo_after k (fifo_mutex_write f) fifo f') /\
    fifo_rep m f' (bs ++ take (Z.to_nat n) buff) /\ same_mutexes f f' /\
    kinv (fifo_after k (fifo_mutex_write f) fifo f') A.
Proof.
  intros HI [Ha Hf R Hm HT Hip] Hlen n.
  destruct (fifo_put_spec m f bs buff len R ltac:(lia)) as (f' & Hput & R' & Er & Ew & _).
  exists f'. split; [|done]. unfold dos_fifo_write.
  rewrite (proj2 (Z.eqb_neq _ _) Ha), (proj2 (Z.eqb_neq len 0)) by lia. cbn [orb].
  run_by ltac:(apply deref_some; exact Hf).
  run_by ltac:(exact (mutex_lock_run k A _ timeout c Hm HT Hip)).
  unfold after_call, fifo_write_locked. cbn [DOS_OK DOS_NOK Z.eqb].
  run_by ltac:(apply deref_some; exact Hf). rewrite Hput. kstep.
  run_by ltac:(apply (mutex_unlock_run _ A _ c); [exact HI | exact (mi_addr _ _ _ Hm)
    | apply lookup_insert_eq | exact (mi_wait _ _ _ Hm) | exact HT | exact Hip]).
  unfold mret, prog_ret. do 2 f_equal. destruct k as [? ? ? ? [] ? ? ? ? ? ? ? ? ? ?].
  unfold fifo_after, put_mutex, put_fifo, set_k_mutexes, set_k_fifos. simpl.
  by rewrite insert_insert_eq.
Qed.

(** A boolean check of [fifo_rep]. *)
Definition fifo_check (m : Z) (f : dos_fifo) (bs : list Z) : bool :=
  (0 <=? m) && (m <=? 31) && (fifo_size f =? 2 ^ m) &&
  (Z.of_nat (length (fifo_buffer f)) =? 2 ^ m) &&
  (0 <=? fifo_in f) && (fifo_in f <? 2 ^ 32) && (0 <=? fifo_out f) && (fifo_out f <? 2 ^ 32) &&
  (u32 (fifo_in f - fifo_out f) =? Z.of_nat (length bs)) &&
  (Z.of_nat (length bs) <=? 2 ^ m) &&
  forallb (fun i => bool_decide
    (fifo_buffer f !! Z.to_nat ((fifo_out f + Z.of_nat i) mod 2 ^ m) = bs !! i))
    (seq 0 (length bs)).

Lemma fifo_check_sound m f bs : fifo_check m f bs = true -> fifo_rep m f bs.
Proof.
  unfold fifo_check. rewrite !andb_true_iff, !Z.leb_le, !Z.ltb_lt, !Z.eqb_eq.
  intros ((((((((((?&?)&?)&?)&?)&?)&?)&?)&?)&?)&Hb). split; try done.
  intros i Hi. rewrite forallb_forall in Hb.
  specialize (Hb (Z.to_nat i)). rewrite bool_decide_eq_true, Z2Nat.id in Hb by lia.
  apply Hb, in_seq. lia.
Qed.

(** The FIFO of the running system, and the same one about to wrap around:
    both counters near 2^32 and three bytes stored. *)
Definition demo_fifo : dos_fifo :=
  Eval vm_compute in default (mk_fifo 0 0 0 0 0 []) (k_fifos demo !! o_fifo objs).
Definition wrap_fifo : dos_fifo :=
  mk_fifo (fifo_size demo_fifo) 1 0xFFFFFFFE (fifo_mutex_read demo_fifo)
    (fifo_mutex_write demo_fifo) (22 :: repeat 0 13 ++ [20; 21]).
Definition demo_wrap : kernel := put_fifo (o_fifo objs) wrap_fifo demo.

Lemma wrap_mutex_idle mx :
  bool_decide (mx = fifo_mutex_read wrap_fifo \/ mx = fifo_mutex_write wrap_fifo) = true ->
  mutex_idle demo_wrap (lists_of demo_wrap) mx.
Proof.
  intros [-> | ->]%bool_decide_eq_true.
  all: split; [discriminate | exists (mk_mutex 0 0 0); split; by_eval | by_eval].
Qed.

Lemma demo_wrap_call mx :
  bool_decide (mx wrap_fifo = fifo_mutex_read wrap_fifo \/
               mx wrap_fifo = fifo_mutex_write wrap_fifo) = true ->
  fifo_call demo_wrap (lists_of demo_wrap) (o_fifo objs) mx 4 wrap_fifo [20; 21; 22]
    (cb demo_wrap task_a).
Proof.
  intros H. split; [discriminate | by_eval | apply fifo_check_sound; by_eval
    | by apply wrap_mutex_idle | by_eval | by_eval].
Qed.

(** [dos_fifo_read] takes from the front of the byte queue: it returns the
    oldest bytes, at most as many as asked for and as there are, and leaves the
    rest in order; it never fails for lack of data, and nothing else in the kernel
    changes. *)
Lemma fifo_read_run k A fifo m f bs c len timeout :
  kinv k A -> fifo_call k A fifo fifo_mutex_read m f bs c -> 0 < len ->
  let n := Z.to_nat (Z.min len (Z.of_nat (length bs))) in
  exists f', dos_fifo_read fifo true len timeout k =
      Done (Return (take n bs), fifo_after k (fifo_mutex_read f) fifo f') /\
    fifo_rep m f' (drop n bs) /\ same_mutexes f f' /\ kinv (fifo_after k (fifo_mutex_read f) fifo f') A.
Proof.
  intros HI [Ha Hf R Hm HT Hip] Hlen n.
  destruct (fifo_take_spec m f bs len R ltac:(lia)) as (f' & Htake & R' & Er & Ew & _).
  exists f'. split; [|done]. unfold dos_fifo_read.
  rewrite (proj2 (Z.eqb_neq _ _) Ha), (proj2 (Z.eqb_neq len 0)) by lia. cbn [negb orb].
  run_by ltac:(apply deref_some; exact Hf).
  run_by ltac:(exact (mutex_lock_run k A _ timeout c Hm HT Hip)).
  unfold after_call, fifo_read_locked. cbn [DOS_OK DOS_NOK Z.eqb].
  run_by ltac:(apply deref_some; exact Hf). rewrite Htake. kstep.
  run_by ltac:(apply (mutex_unlock_run _ A _ c); [exact HI | exact (mi_addr _ _ _ Hm)
    | apply lookup_insert_eq | exact (mi_wait _ _ _ Hm) | exact HT | exact Hip]).
  unfold mret, prog_ret. do 2 f_equal. destruct k as [? ? ? ? [] ? ? ? ? ? ? ? ? ? ?].
  unfold fifo_after, put_mutex, put_fifo, set_k_mutexes, set_k_fifos. simpl.
  by rewrite insert_insert_eq.
Qed.

(** ** Histories *)

Inductive fifo_op : Type :=
| Write (buff : list Z) (len timeout : Z)
| Read (len timeout : Z).

(** The abstract FIFO: a bounded list of bytes. *)
Definition fifo_step (m : Z) (op : fifo_op) (bs : list Z) : (Z + list Z) * list Z :=
  match op with
  | Write buff len _ =>
      let n := Z.min len (2 ^ m - Z.of_nat (length bs)) in (inl n, bs ++ take (Z.to_nat n) buff)
  | Read len _ => let n := Z.to_nat len in (inr (take n bs), drop n bs)
  end.

Fixpoint fifo_spec (m : Z) (ops : list fifo_op) (bs : list Z) : list (Z + list Z) * list Z :=
  match ops with
  | [] => ([], bs)
  | op :: ops' => let '(v, bs1) := fifo_step m op bs in let '(vs, bs2) := fifo_spec m ops' bs1 in (v :: vs, bs2)
  end.

Definition fifo_do (fifo : Z) (op : fifo_op) (k : kernel) (v : Z + list Z) (k' : kernel) : Prop :=
  match op, v with
  | Write buff len timeout, inl n => dos_fifo_write fifo (Some buff) len timeout k = Done (Return n, k')
  | Read len timeout, inr out => dos_fifo_read fifo true len timeout k = Done (Return out, k')
  | _, _ => False
  end.

(** The calls of one task in sequence. *)
Inductive fifo_history (fifo : Z) : kernel -> list fifo_op -> list (Z + list Z) -> kernel -> Prop :=
| fifo_none k : fifo_history fifo k [] [] k
| fifo_more k op v k1 ops vs k' :
    fifo_do fifo op k v k1 -> fifo_history fifo k1 ops vs k' -> fifo_history fifo k (op :: ops) (v :: vs) k'.

Definition fifo_op_ok (op : fifo_op) : Prop :=
  match op with Write buff len _ => 0 < len <= Z.of_nat (length buff) | Read len _ => 0 < len end.

(** The mutexes stay idle. *)
Lemma fifo_call_after k A fifo m f bs c mx mx' f' bs' :
  fifo_call k A fifo mx' m f bs c -> fifo_rep m f' bs' -> mx' f' = mx' f ->
  fifo_call (fifo_after k mx fifo f') A fifo mx' m f' bs' c.
Proof.
  intros [Ha Hf R [M1 (x & M2 & M3) M4] HT Hip] R' E. split; try done.
  - apply lookup_insert_eq.
  - rewrite E. split; [done | | done].
    destruct (decide (mx = mx' f)) as [->|Hne].
    + eexists. split; [apply lookup_insert_eq | done].
    + exists x. split; [|done]. unfold fifo_after, put_mutex. simpl. by rewrite lookup_insert_ne.
Qed.

(** C27: The byte FIFO.  Every sequence of writes and reads of a task on a FIFO whose
    mutexes are idle returns what the bounded list of bytes returns: a write
    appends as many bytes as there is room for and returns their number, a read
    returns the oldest bytes, at most as many as asked for and as there are, and
    leaves the rest in order.  This holds also when the data goes round the end of
    the buffer and when a counter wraps around at 2^32; the calls always end, the
    mutexes are free again, and the kernel invariant is kept. *)
Theorem fifo_refines k A fifo m f bs c ops :
  kinv k A -> fifo_call k A fifo fifo_mutex_write m f bs c -> fifo_call k A fifo fifo_mutex_read m f bs c ->
  Forall fifo_op_ok ops ->
  exists k' f', fifo_history fifo k ops (fifo_spec m ops bs).1 k' /\ kinv k' A /\
    fifo_call k' A fifo fifo_mutex_write m f' (fifo_spec m ops bs).2 c /\
    fifo_call k' A fifo fifo_mutex_read m f' (fifo_spec m ops bs).2 c.
Proof.
  intros HI HW HR Hops. revert k f bs HI HW HR. induction Hops as [|op ops Hop Hops IH]; intros k f bs HI HW HR.
  - exists k, f. split; [constructor | done].
  - assert (Hstep : exists k1 f1, fifo_do fifo op k (fifo_step m op bs).1 k1 /\ kinv k1 A /\
      fifo_call k1 A fifo fifo_mutex_write m f1 (fifo_step m op bs).2 c /\
      fifo_call k1 A fifo fifo_mutex_read m f1 (fifo_step m op bs).2 c).
    { destruct op as [buff len timeout|len timeout]; simpl in Hop |- *.
      - destruct (fifo_write_run k A fifo m f bs c buff len timeout HI HW Hop) as (f1 & Hrun & R & [E1 E2] & HI1).
        eexists _, f1. split_and!; [exact Hrun | exact HI1 | by eapply fifo_call_after..].
      - destruct (fifo_read_run k A fifo m f bs c len timeout HI HR Hop) as (f1 & Hrun & R & [E1 E2] & HI1).
        assert (Et : take (Z.to_nat (Z.min len (Z.of_nat (length bs)))) bs = take (Z.to_nat len) bs /\
                     drop (Z.to_nat (Z.min len (Z.of_nat (length bs)))) bs = drop (Z.to_nat len) bs).
        { destruct (Z.min_spec len (Z.of_nat (length bs))) as [[H ->]|[H ->]]; [done|].
          rewrite Nat2Z.id, take_ge, drop_ge by done. rewrite take_ge, drop_ge by lia. done. }
        destruct Et as [Et Ed]. rewrite Et in Hrun. rewrite Ed in R.
        eexists _, f1. split_and!; [exact Hrun | exact HI1 | by eapply fifo_call_after..]. }
    destruct Hstep as (k1 & f1 & Hdo & HI1 & HW1 & HR1). simpl. destruct (fifo_step m op bs) as [v bs1]. cbn [fst snd] in *.
    destruct (IH k1 f1 bs1 HI1 HW1 HR1) as (k' & f' & Hh & Hrest). destruct (fifo_spec m ops bs1) as [vs bs2].
    exists k', f'. split; [by econstructor | exact Hrest].
Qed.

(** Both counters wrap around in the middle of the history. *)
Lemma fifo_refines_witness :
  exists k', fifo_history (o_fifo objs) demo_wrap [Write (repeat 7 20) 20 0; Read 2 0; Write [1; 2; 3] 3 0; Read 100 0]
    [inl 13; inr [20; 21]; inl 2; inr (22 :: repeat 7 13 ++ [1; 2])] k'.
Proof.
  destruct (fifo_refines demo_wrap (lists_of demo_wrap) (o_fifo objs) 4 wrap_fifo
    [20; 21; 22] (cb demo_wrap task_a) [Write (repeat 7 20) 20 0; Read 2 0; Write [1; 2; 3] 3 0; Read 100 0]) as (k' & f' & Hh & _).
  - by_check.
  - apply demo_wrap_call. reflexivity.
  - apply demo_wrap_call. reflexivity.
  - repeat constructor; discriminate.
  - exists k'. exact Hh.
Defined.

(** ** Rounding and counting *)

(** The mask of the upper [s] bits is disjoint from what lies below them. *)
Lemma mask_zero x s :
  0 <= s <= 32 -> 0 < x < 2 ^ 32 ->
  (Z.land x (Z.shiftl (Z.ones s) (32 - s)) =? 0) = (Z.log2 x <? 32 - s).
Proof.
  intros Hs Hx. pose proof (Z.log2_lt_pow2 x 32 ltac:(lia)) as [Hl _].
  destruct (Z.ltb_spec (Z.log2 x) (32 - s)) as [H|H].
  - apply Z.eqb_eq, Z.bits_inj'. intros n Hn. rewrite Z.land_spec, Z.bits_0, Z.shiftl_spec by lia.
    destruct (decide (n < 32 - s)).
    + rewrite (Z.testbit_neg_r (Z.ones s)) by lia. apply andb_false_r.
    + rewrite Z.bits_above_log2 by lia. done.
  - apply Z.eqb_neq. intros E. apply (f_equal (fun z => Z.testbit z (Z.log2 x))) in E.
    rewrite Z.land_spec, Z.bits_0, Z.shiftl_spec, Z.bit_log2, Z.ones_spec_low in E by lia. done.
Qed.

(** Each step of the search halves the range of the highest bit and keeps the
    sum of its index and the counter. *)
Lemma flbs_step_spec mask s x r :
  mask = Z.shiftl (Z.ones s) (32 - s) -> 0 <= s <= 16 -> 0 < x < 2 ^ 32 ->
  32 - 2 * s <= Z.log2 x ->
  let '(x', r') := flbs_step mask s (x, r) in
  0 < x' < 2 ^ 32 /\ 32 - s <= Z.log2 x' /\ r' + Z.log2 x' = r + Z.log2 x.
Proof.
  intros -> Hs Hx Hl. unfold flbs_step. cbn [fst snd]. rewrite mask_zero by lia.
  destruct (Z.ltb_spec (Z.log2 x) (32 - s)) as [H|H]; [|lia].
  assert (Hlt : 0 < Z.shiftl x s < 2 ^ 32).
  { rewrite Z.shiftl_mul_pow2 by lia. apply Z.log2_lt_pow2 in H; [|lia].
    pose proof (Z.pow_pos_nonneg 2 s ltac:(lia) ltac:(lia)). split; [lia|].
    replace (2 ^ 32) with (2 ^ (32 - s) * 2 ^ s) by (rewrite <- Z.pow_add_r by lia; f_equal; lia).
    apply Z.mul_lt_mono_pos_r; lia. }
  rewrite u32_small by lia. pose proof (Z.log2_shiftl x s ltac:(lia) ltac:(lia)). lia.
Qed.

Lemma find_last_bit_set_spec x :
  0 < x < 2 ^ 32 -> _dos_find_last_bit_set x = Z.log2 x + 1.
Proof.
  intros Hx. unfold _dos_find_last_bit_set. rewrite (proj2 (Z.eqb_neq x 0)) by lia.
  assert (H0 : 0 <= Z.log2 x) by apply Z.log2_nonneg.
  assert (Hl : 32 - 2 * 16 <= Z.log2 x) by lia.
  pose proof (flbs_step_spec 0xffff0000 16 x 32 eq_refl ltac:(lia) Hx Hl) as S1.
  destruct (flbs_step 0xffff0000 16 (x, 32)) as [x1 r1]. destruct S1 as (X1 & L1 & R1).
  pose proof (flbs_step_spec 0xff000000 8 x1 r1 eq_refl ltac:(lia) X1 ltac:(lia)) as S2.
  destruct (flbs_step 0xff000000 8 (x1, r1)) as [x2 r2]. destruct S2 as (X2 & L2 & R2).
  pose proof (flbs_step_spec 0xf0000000 4 x2 r2 eq_refl ltac:(lia) X2 ltac:(lia)) as S3.
  destruct (flbs_step 0xf0000000 4 (x2, r2)) as [x3 r3]. destruct S3 as (X3 & L3 & R3).
  pose proof (flbs_step_spec 0xc0000000 2 x3 r3 eq_refl ltac:(lia) X3 ltac:(lia)) as S4.
  destruct (flbs_step 0xc0000000 2 (x3, r3)) as [x4 r4]. destruct S4 as (X4 & L4 & R4).
  pose proof (flbs_step_spec 0x80000000 1 x4 r4 eq_refl ltac:(lia) X4 ltac:(lia)) as S5.
  destruct (flbs_step 0x80000000 1 (x4, r4)) as [x5 r5]. destruct S5 as (X5 & L5 & R5).
  cbn [snd]. pose proof (Z.log2_lt_pow2 x5 32 ltac:(lia)) as [H5 _]. lia.
Qed.

(** [x & (x - 1)] is zero exactly for the powers of two. *)
Lemma pow2_test x :
  0 < x < 2 ^ 32 -> (Z.land x (u32 (x - 1)) =? 0) = (x =? 2 ^ Z.log2 x).
Proof.
  intros Hx. rewrite u32_small by lia.
  pose proof (Z.log2_spec x ltac:(lia)) as Hl. pose proof (Z.log2_nonneg x) as H0.
  destruct (Z.eqb_spec x (2 ^ Z.log2 x)) as [E|E].
  - rewrite E at 1. rewrite E at 2. rewrite Z.eqb_eq.
    replace (2 ^ Z.log2 x - 1) with (Z.ones (Z.log2 x)) by (rewrite Z.ones_equiv; lia).
    rewrite Z.land_ones by lia. apply Z_mod_same_full.
  - assert (El : Z.log2 (x - 1) = Z.log2 x) by (apply Z.log2_unique; lia).
    apply Z.eqb_neq. intros H. apply (f_equal (fun z => Z.testbit z (Z.log2 x))) in H.
    rewrite Z.land_spec, Z.bits_0, Z.bit_log2, <- El, Z.bit_log2 in H by lia. done.
Qed.

(** The size of a FIFO is a power of two, as the masking of its counters
    needs: [dos_fifo_create] takes the largest power of two that is at most the
    requested size, for every non-zero 32-bit size. *)
Theorem fifo_round_pow2 size :
  0 < size < 2 ^ 32 ->
  exists m, 0 <= m <= 31 /\ fifo_round size = 2 ^ m /\ 2 ^ m <= size < 2 * 2 ^ m.
Proof.
  intros Hs. pose proof (Z.log2_spec size ltac:(lia)) as Hl.
  pose proof (Z.log2_nonneg size) as H0. pose proof (Z.log2_lt_pow2 size 32 ltac:(lia)) as [H32 _].
  rewrite Z.pow_succ_r in Hl by lia. exists (Z.log2 size). split; [lia|]. split; [|lia].
  unfold fifo_round. rewrite pow2_test by done.
  destruct (Z.eqb_spec size (2 ^ Z.log2 size)) as [E|E]; cbn [negb]; [done|].
  unfold _dos_fifo_align. pose proof (Z.pow_pos_nonneg 2 (Z.log2 size) ltac:(lia) H0).
  rewrite (u32_small (size - 1)), find_last_bit_set_spec by lia.
  assert (El : Z.log2 (size - 1) = Z.log2 size).
  { apply Z.log2_unique; [done|]. rewrite Z.pow_succ_r by lia. lia. }
  rewrite El, Z.add_simpl_r, Z.shiftl_1_l. apply u32_small. lia.
Qed.

Lemma fifo_round_pow2_witness : exists m, 0 <= m <= 31 /\ fifo_round 1000 = 2 ^ m.
Proof. destruct (fifo_round_pow2 1000) as (m & ? & ? & _); [lia | eauto]. Defined.

(** [dos_fifo_read_able] and [dos_fifo_write_able] are exact as long as the
    write counter has not wrapped around since the read counter did; after a
    wrap-around of the write counter alone the number of readable bytes is
    reported too large by the size of the FIFO. *)
Theorem fifo_able_spec k fifo m f bs :
  fifo <> DOS_NULL -> k_fifos k !! fifo = Some f -> fifo_rep m f bs ->
  let wrapped := fifo_in f <? fifo_out f in
  let n := Z.of_nat (length bs) in
  dos_fifo_read_able fifo k = Done (u32 (n + (if wrapped then 2 ^ m else 0)), k) /\
  dos_fifo_write_able fifo k = Done (if wrapped then u32 (- n) else 2 ^ m - n, k).
Proof.
  intros Ha Hf [] wrapped n. destruct (pow_divides m) as (q & Hq & Hp); [done|].
  assert (E : fifo_read_able f = u32 (n + (if wrapped then 2 ^ m else 0))).
  { unfold fifo_read_able, wrapped, n in *. rewrite <- fr_count0, fr_size0. unfold u32.
    rewrite Z.add_mod_idemp_l by lia. rewrite Z.gtb_ltb.
    destruct (Z.eqb_spec (fifo_in f) (fifo_out f)) as [E|E].
    { by rewrite E, Z.sub_diag, Z.ltb_irrefl. }
    destruct (Z.ltb_spec (fifo_out f) (fifo_in f)).
    all: destruct (Z.ltb_spec (fifo_in f) (fifo_out f)); try lia; f_equal; lia. }
  assert (R : dos_fifo_read_able fifo k = Done (u32 (n + (if wrapped then 2 ^ m else 0)), k)).
  { unfold dos_fifo_read_able. rewrite (proj2 (Z.eqb_neq _ _) Ha).
    run_by ltac:(apply deref_some; exact Hf). by rewrite E. }
  split; [done|]. unfold dos_fifo_write_able. run_by ltac:(apply deref_some; exact Hf).
  run_with R. unfold mret, prog_ret. do 2 f_equal. rewrite fr_size0. unfold u32.
  rewrite Zminus_mod_idemp_r. destruct wrapped; [f_equal; lia | rewrite Z.add_0_r; apply Z.mod_small; lia].
Qed.

Lemma fifo_able_spec_witness :
  dos_fifo_read_able (o_fifo objs) demo_wrap = Done (3 + 16, demo_wrap) /\
  dos_fifo_write_able (o_fifo objs) demo_wrap = Done (0xFFFFFFFD, demo_wrap).
Proof.
  apply (fifo_able_spec demo_wrap (o_fifo objs) 4 wrap_fifo [20; 21; 22]).
  - discriminate.
  - by_eval.
  - apply fifo_check_sound. by_eval.
Defined.
