(* ===== verification/FormatSpec.v ===== *)
(** * The formatter: bounds, termination and what it prints

    [dos_format_nstr] always ends, writes only inside the buffer it is given and
    leaves a terminated string there; on a format made of text and conversions
    it prints what the conversions denote. *)

From Stdlib Require Import Ascii String.
From S2P Require Import Prelude Format.

(** The characters of a string. *)
Definition codes (s : string) : list Z := map (fun a => Z.of_N (N_of_ascii a)) (list_ascii_of_string s).

(** ** Bounds *)

(** Output from [o] to [o'] that stays below [max]. *)
Record within (max : Z) (o o' : out) : Prop := {
  wi_length : length (o_buf o') = length (o_buf o);
  wi_above : drop (Z.to_nat max) (o_buf o') = drop (Z.to_nat max) (o_buf o);
  wi_pos : 0 <= o_pos o -> 0 <= o_pos o'
}.

#[export] Instance within_refl max : Reflexive (within max).
Proof. by split. Qed.

#[export] Instance within_trans max : Transitive (within max).
Proof. intros o1 o2 o3 [] []. split; [congruence | congruence | auto]. Qed.

Lemma put_char_within max c o : 0 <= o_pos o -> within max o (_dos_buff_put_char max c o).
Proof.
  intros Hp. unfold _dos_buff_put_char. destruct (Z.ltb_spec (o_pos o) max).
  all: split; cbn; [by rewrite ?length_insert | | intros _; apply u32_range].
  - by rewrite drop_insert_lt by lia.
  - done.
Qed.

Lemma put_chars_within max cs o : 0 <= o_pos o -> within max o (put_chars max cs o).
Proof.
  revert o. induction cs as [|c cs IH]; intros o Hp; [done|].
  pose proof (put_char_within max c o Hp) as W. etrans; [exact W|].
  apply IH, (wi_pos _ _ _ W), Hp.
Qed.

(** Case analysis on the innermost test of the goal. *)
Ltac case_inner :=
  match goal with
  | |- context [match ?x with _ => _ end] =>
      lazymatch x with
      | context [match _ with _ => _ end] => fail
      | _ => let E := fresh "E" in destruct x eqn:E
      end
  end.

Create HintDb format discriminated.
#[export] Hint Resolve put_char_within put_chars_within : format.

Lemma format_int_within max num base width flags o o' :
  0 <= o_pos o -> _dos_format_int max num base width flags o = Done o' -> within max o o'.
Proof.
  intros Hp. unfold _dos_format_int. destruct (_ || _); [by intros [= <-]|].
  destruct (int_digits _ _ _ _); intros [= <-]. auto with format.
Qed.

Lemma conv_step_within size c rest st st' c' :
  0 <= o_pos (f_out st) -> conv_step size c rest st = Done (st', c') ->
  within size (f_out st) (f_out st').
Proof.
  intros Hp. unfold conv_step.
  repeat case_inner; intros [= <- <-]; cbn; eauto using format_int_within with format.
  etrans; [by apply put_char_within|]. by apply put_char_within, u32_range.
Qed.

(** ** Termination *)

Lemma atoi_length n str : (length (atoi_loop n str).2 <= length str)%nat.
Proof.
  revert n. induction str as [|c str IH]; intros n; cbn; [done|].
  destruct (is_digit c); [|done]. specialize (IH (i32 (n * 10 + c - 48))). lia.
Qed.

Lemma get_atoi_length str :
  is_digit (hd 0 str) = true -> (length (_dos_get_atoi str).2 < length str)%nat.
Proof.
  unfold _dos_get_atoi. destruct str as [|c str]; cbn; [done|]. intros ->.
  pose proof (atoi_length (i32 (0 * 10 + c - 48)) str) as H. cbn in H. lia.
Qed.

(** Characters left, and for each of them the states still to come. *)
Definition left_over (st : fstate) : nat :=
  (6 * length (f_fmt st) + (5 - Z.to_nat (f_state st)))%nat.

Lemma hd_cons (fmt : list Z) : hd 0 fmt <> 0 -> length fmt = S (length (tl fmt)).
Proof. by destruct fmt. Qed.

Lemma int_digits_fuel fuel small base n :
  2 <= base -> n < 2 ^ Z.of_nat fuel -> fuel <> O -> int_digits fuel small base n <> NoFuel.
Proof.
  intros Hb. revert n. induction fuel as [|fuel IH]; intros n Hn Hf; [done|]. cbn.
  destruct (_ <? 0); [done|]. rewrite Z.gtb_ltb.
  destruct (Z.ltb_spec 0 (Z.quot n base)) as [Hq|Hq]; [|done].
  assert (0 < n).
  { destruct (decide (0 < n)); [done|].
    pose proof (Z.quot_opp_l n base ltac:(lia)) as E.
    pose proof (Z.quot_pos (- n) base ltac:(lia) ltac:(lia)). lia. }
  assert (Hlt : Z.quot n base < 2 ^ Z.of_nat fuel).
  { rewrite Z.quot_div_nonneg by lia. apply Z.div_lt_upper_bound; [lia|].
    rewrite Nat2Z.inj_succ, Z.pow_succ_r in Hn by lia. nia. }
  destruct fuel as [|fuel]; [cbn in Hlt; lia|].
  specialize (IH _ Hlt ltac:(done)). by destruct (int_digits (S fuel) small base _).
Qed.

Lemma i32_range x : - 2 ^ 31 <= i32 x < 2 ^ 31.
Proof. unfold i32. pose proof (Z.mod_pos_bound (x + 2 ^ 31) (2 ^ 32) ltac:(lia)). lia. Qed.

Lemma format_int_fuel max num base width flags o :
  _dos_format_int max num base width flags o <> NoFuel.
Proof.
  unfold _dos_format_int. destruct (Z.ltb_spec base 2); [done|]. cbn [orb].
  destruct (base >? 16); [done|]. cbv zeta.
  match goal with |- context [int_digits 64 ?b base ?n] =>
    assert (H64 : int_digits 64 b base n <> NoFuel);
      [|by destruct (int_digits 64 b base n)] end.
  apply int_digits_fuel; [done | | done].
  match goal with |- (if ?b then i32 ?x else i32 ?y) < _ =>
    pose proof (i32_range x); pose proof (i32_range y); destruct b end.
  all: change (2 ^ Z.of_nat 64) with (2 ^ 33 * 2 ^ 31); lia.
Qed.

Lemma fetch_num_fuel c st : fetch_num c st <> NoFuel.
Proof.
  unfold fetch_num, next_int32, next_int64. destruct (f_args st) as [|[] ?].
  all: by repeat case_inner.
Qed.

(** A conversion ends in the default state, behind its character. *)
Lemma conv_step_next size c rest st :
  match conv_step size c rest st with
  | Done (st', c') => f_fmt st' = rest /\ f_state st' = S_DEFAULT /\ (c = 0 -> c' = 0)
  | Fault => True
  | NoFuel => False
  end.
Proof.
  unfold conv_step. destruct (is_int_conv c).
  { destruct (fetch_num c st) as [[num args]| |] eqn:F; [|done|by apply fetch_num_fuel in F].
    destruct (_dos_format_int _ _ _ _ _ _) eqn:E; [done | done | by apply format_int_fuel in E]. }
  destruct (c =? 112).
  { destruct (f_args st) as [|[] ?]; try done.
    destruct (_dos_format_int _ _ _ _ _ _) eqn:E; [done | done | by apply format_int_fuel in E]. }
  destruct (c =? 115); [by destruct (f_args st) as [|[] ?]|].
  destruct (Z.eqb_spec c 99) as [->|]; [by destruct (f_args st) as [|[] ?]|].
  by destruct (c =? 37).
Qed.

(** A turn that reads a character or enters a later state. *)
Ltac step_less H :=
  cbn [f_fmt f_state]; let Hc := fresh in intros Hc; specialize (H Hc);
  unfold S_DEFAULT, S_FLAGS, S_WIDTH, S_PRECIS, S_LENGTH, S_CONV in *; lia.

(** Unless the string is at its end, a turn leaves less over than before. *)
Lemma format_step_next size st :
  match format_step size st with
  | Done (st', c) => c <> 0 -> (left_over st' < left_over st)%nat
  | Fault => True
  | NoFuel => False
  end.
Proof.
  unfold format_step, next_int32, left_over. pose proof (hd_cons (f_fmt st)) as Hhd.
  set (c := hd 0 (f_fmt st)) in *. cbv zeta.
  destruct (Z.eqb_spec (f_state st) S_DEFAULT) as [->|_].
  { destruct (c =? 37); step_less Hhd. }
  destruct (Z.eqb_spec (f_state st) S_FLAGS) as [->|_].
  { destruct (flag_of c); step_less Hhd. }
  destruct (Z.eqb_spec (f_state st) S_WIDTH) as [->|_].
  { destruct (c =? 42).
    - destruct (f_args st) as [|[] ?]; try done.
      destruct (_ <? 0); step_less Hhd.
    - destruct (is_digit c) eqn:Hd; cbn [andb].
      + pose proof (get_atoi_length (f_fmt st) Hd) as Hl. destruct (c >? 48).
        * destruct (_dos_get_atoi (f_fmt st)) as [w fmt']. cbn [snd] in *. step_less Hhd.
        * step_less Hhd.
      + step_less Hhd. }
  destruct (Z.eqb_spec (f_state st) S_PRECIS) as [->|_].
  { destruct (c =? 46); [|step_less Hhd]. destruct (is_digit _) eqn:Hd.
    - pose proof (get_atoi_length _ Hd) as Hl.
      destruct (_dos_get_atoi (tl (f_fmt st))) as [p fmt']. cbn [snd] in *.
      step_less Hhd.
    - destruct (_ =? 42).
      + destruct (f_args st) as [|[] ?]; try done. step_less Hhd.
      + step_less Hhd. }
  destruct (Z.eqb_spec (f_state st) S_LENGTH) as [->|_].
  { destruct (c =? 104), (c =? 108), (c =? 76); step_less Hhd. }
  pose proof (conv_step_next size c (tl (f_fmt st)) st) as Hn.
  destruct (conv_step _ _ _ _) as [[st' c']| |]; [|done|done].
  destruct Hn as (-> & -> & Hz). intros Hc'. specialize (Hhd ltac:(tauto)). unfold S_DEFAULT. lia.
Qed.

Lemma format_step_within size st st' c :
  0 <= o_pos (f_out st) -> format_step size st = Done (st', c) ->
  within size (f_out st) (f_out st').
Proof.
  intros Hp. unfold format_step, next_int32. set (c0 := hd 0 (f_fmt st)). cbv zeta.
  destruct (f_state st =? S_DEFAULT).
  { destruct (c0 =? 37); intros [= <- <-]; cbn; auto with format. done. }
  destruct (f_state st =? S_FLAGS).
  { by destruct (flag_of c0); intros [= <- <-]. }
  destruct (f_state st =? S_WIDTH).
  { destruct (_dos_get_atoi (f_fmt st)).
    destruct (c0 =? 42), (is_digit c0 && (c0 >? 48)), (f_args st) as [|[x|x|x|x] ?]; try done;
      try (by intros [= <- <-]).
    all: destruct (x <? 0); by intros [= <- <-]. }
  destruct (f_state st =? S_PRECIS).
  { destruct (_dos_get_atoi (tl (f_fmt st))).
    destruct (c0 =? 46), (is_digit (hd 0 (tl (f_fmt st)))), (hd 0 (tl (f_fmt st)) =? 42), (f_args st) as [|[x|x|x|x] ?]; try done;
      by intros [= <- <-]. }
  destruct (f_state st =? S_LENGTH).
  { destruct (c0 =? 104), (c0 =? 108), (c0 =? 76); by intros [= <- <-]. }
  by apply conv_step_within.
Qed.

(** ** Faults *)

(** A turn of the interpreter that is not the last one. *)
Definition turn (size : Z) (st st' : fstate) : Prop :=
  exists c, format_step size st = Done (st', c) /\ c <> 0.

Inductive arg_kind : Type := KInt32 | KInt64 | KPtr | KStr.

Definition kind_of (a : arg) : arg_kind :=
  match a with ArgInt32 _ => KInt32 | ArgInt64 _ => KInt64 | ArgPtr _ => KPtr | ArgStr _ => KStr end.

(** Whether the next turn is a conversion. *)
Definition converts (st : fstate) : bool :=
  negb (bool_decide (f_state st ∈ [S_DEFAULT; S_FLAGS; S_WIDTH; S_PRECIS; S_LENGTH])).

Definition is_one_of (c : Z) (s : string) : bool := existsb (Z.eqb c) (codes s).

(** The argument the next turn fetches, if any: [*] as width or precision, and the
    conversions.  After [h], as after [ll] and [L], the code fetches 64 bits. *)
Definition wanted (st : fstate) : option arg_kind :=
  let c := hd 0 (f_fmt st) in
  if f_state st =? S_WIDTH then if is_one_of c "*" then Some KInt32 else None
  else if f_state st =? S_PRECIS then
    if is_one_of c "." && is_one_of (hd 0 (tl (f_fmt st))) "*" then Some KInt32 else None
  else if converts st then
    if is_one_of c "diobuxX" then
      Some (if f_lflags st =? L_LONG then KInt32
            else if has_flag (f_lflags st) (Z.lor L_LLONG L_DOUBLE) then KInt64 else KInt32)
    else if is_one_of c "p" then Some KPtr
    else if is_one_of c "s" then Some KStr
    else if is_one_of c "c" then Some KInt32
    else None
  else None.

(** The argument is missing or of another type. *)
Definition wrong_arg (st : fstate) : Prop :=
  exists kd, wanted st = Some kd /\ kind_of <$> head (f_args st) <> Some kd.

(** The argument of an integer or pointer conversion: an unsigned one whose value,
    a signed one whose absolute value is negative as a [dos_int32]. *)
Definition bad_number (st : fstate) : Prop :=
  let c := hd 0 (f_fmt st) in
  converts st = true /\ is_one_of c "diobuxXp" = true /\
  exists x r, f_args st ∈ [ArgInt32 x :: r; ArgInt64 x :: r; ArgPtr x :: r] /\
    i32 (if is_one_of c "di" then Z.abs x else x) < 0.

Lemma int_digits_fault fuel small base n :
  2 <= base -> int_digits fuel small base n = Fault -> n < 0.
Proof.
  intros Hb. revert n. induction fuel as [|fuel IH]; intros n; [done|]. cbn [int_digits].
  destruct (Z.ltb_spec (Z.rem n base) 0) as [Hr|Hr].
  - intros _. destruct (Z_lt_le_dec n 0); [done|]. pose proof (Z.rem_nonneg n base ltac:(lia) ltac:(lia)). lia.
  - destruct (Z.gtb_spec (Z.quot n base) 0) as [Hq|]; [|done].
    destruct (int_digits fuel small base (Z.quot n base)) eqn:E; try done. apply IH in E. lia.
Qed.

Lemma format_int_fault max num base width flags o :
  2 <= base -> _dos_format_int max num base width flags o = Fault ->
  i32 (if has_flag flags F_SIGNED then Z.abs num else num) < 0.
Proof.
  intros Hb. unfold _dos_format_int. destruct (_ || _); [done|]. cbv zeta.
  set (fl2 := if has_flag flags F_LEFT then _ else _).
  assert (has_flag fl2 F_SIGNED = has_flag flags F_SIGNED) as ->.
  { unfold fl2. destruct (has_flag flags F_LEFT); [|done]. unfold has_flag. by rewrite <- Z.land_assoc. }
  destruct (int_digits _ _ _ _) eqn:E; try done. intros _. apply int_digits_fault in E; [|done].
  destruct (has_flag flags F_SIGNED); cbn [andb] in E; [|done].
  destruct (Z.ltb_spec num 0); [by replace (Z.abs num) with (- num) by lia | by rewrite Z.abs_eq].
Qed.

Lemma i32_u32 x : i32 (u32 x) = i32 x.
Proof. unfold i32, u32. by rewrite Zplus_mod_idemp_l. Qed.

Lemma i32_i32 x : i32 (i32 x) = i32 x.
Proof.
  unfold i32. replace ((x + 2 ^ 31) mod 2 ^ 32 - 2 ^ 31 + 2 ^ 31) with ((x + 2 ^ 31) mod 2 ^ 32) by lia.
  by rewrite Z.mod_mod.
Qed.

Lemma is_int_conv_one_of c : is_int_conv c = is_one_of c "diobuxX".
Proof. unfold is_int_conv, is_one_of. cbn. by rewrite orb_false_r, !orb_assoc. Qed.

Lemma is_one_of_1 c a : (c =? Z.of_N (N_of_ascii a)) = is_one_of c (String a "").
Proof. unfold is_one_of. cbn. by rewrite orb_false_r. Qed.

Lemma is_one_of_di c : is_one_of c "di" = (c =? 100) || (c =? 105).
Proof. change (is_one_of c "di") with ((c =? 100) || ((c =? 105) || false)). by rewrite orb_false_r. Qed.

(** The flags of a directive never include the internal [F_SIGNED]. *)
Definition unsigned_flags (st : fstate) : Prop := has_flag (f_flags st) F_SIGNED = false.

Lemma has_flag_or f g h : has_flag (Z.lor f g) h = has_flag f h || has_flag g h.
Proof.
  unfold has_flag. rewrite Z.land_lor_distr_l, <- negb_andb. f_equal.
  apply eq_bool_prop_intro. rewrite andb_True, !Is_true_true, !Z.eqb_eq. apply Z.lor_eq_0_iff.
Qed.

Lemma conv_step_flags size c rest st st' c' :
  conv_step size c rest st = Done (st', c') -> f_flags st' = f_flags st.
Proof. unfold conv_step. repeat case_inner; by intros [= <- <-]. Qed.

Lemma flag_of_unsigned c f : flag_of c = Some f -> has_flag f F_SIGNED = false.
Proof. unfold flag_of. repeat case_inner; by intros [= <-]. Qed.

Lemma format_step_unsigned size st st' c :
  unsigned_flags st -> format_step size st = Done (st', c) -> unsigned_flags st'.
Proof.
  unfold unsigned_flags. intros Hf. unfold format_step, next_int32. set (c0 := hd 0 (f_fmt st)). cbv zeta.
  destruct (f_state st =? S_DEFAULT); [by destruct (c0 =? 37); intros [= <- <-]|].
  destruct (f_state st =? S_FLAGS).
  { destruct (flag_of c0) as [f|] eqn:E; intros [= <- <-]; [|done]. cbn.
    by rewrite has_flag_or, Hf, (flag_of_unsigned _ _ E). }
  destruct (f_state st =? S_WIDTH).
  { destruct (_dos_get_atoi (f_fmt st)).
    destruct (c0 =? 42), (is_digit c0 && (c0 >? 48)), (f_args st) as [|[x|x|x|x] ?]; try done;
      try (by intros [= <- <-]).
    all: destruct (x <? 0); intros [= <- <-]; [|done]; cbn [f_flags]; by rewrite has_flag_or, Hf. }
  destruct (f_state st =? S_PRECIS).
  { destruct (_dos_get_atoi (tl (f_fmt st))).
    destruct (c0 =? 46), (is_digit (hd 0 (tl (f_fmt st)))), (hd 0 (tl (f_fmt st)) =? 42), (f_args st) as [|[x|x|x|x] ?]; try done;
      by intros [= <- <-]. }
  destruct (f_state st =? S_LENGTH).
  { destruct (c0 =? 104), (c0 =? 108), (c0 =? 76); by intros [= <- <-]. }
  intros H. by rewrite (conv_step_flags _ _ _ _ _ _ H).
Qed.

(** An integer conversion faults because of its argument. *)
Lemma int_conv_fault size c st :
  unsigned_flags st -> is_int_conv c = true -> hd 0 (f_fmt st) = c -> converts st = true ->
  match fetch_num c st with
  | Done (num, args) =>
      match _dos_format_int size num (conv_base c) (f_width st) (conv_flags c (f_flags st)) (f_out st) with
      | Fault => bad_number st
      | _ => True
      end
  | _ => wrong_arg st
  end.
Proof.
  intros Hu Hc Hh Hcv. rewrite is_int_conv_one_of in Hc.
  assert (Hw : wanted st = Some (if f_lflags st =? L_LONG then KInt32
    else if has_flag (f_lflags st) (Z.lor L_LLONG L_DOUBLE) then KInt64 else KInt32)).
  { unfold wanted. rewrite Hh, Hcv, Hc. unfold converts in Hcv. apply negb_true_iff, bool_decide_eq_false in Hcv.
    rewrite !(proj2 (Z.eqb_neq _ _)) by (intros E; apply Hcv; rewrite E; set_solver). done. }
  assert (Hbad : forall num x r, f_args st ∈ [ArgInt32 x :: r; ArgInt64 x :: r; ArgPtr x :: r] ->
    (num = x \/ num = u32 x /\ is_one_of c "di" = false) ->
    match _dos_format_int size num (conv_base c) (f_width st) (conv_flags c (f_flags st)) (f_out st) with
    | Fault => bad_number st | _ => True end).
  { intros num x r Ha Hnum. destruct (_dos_format_int _ _ _ _ _ _) eqn:E; try done.
    apply format_int_fault in E; [|unfold conv_base; repeat case_match; lia]. split; [done|]. rewrite Hh.
    split; [revert Hc; unfold is_one_of; cbn; rewrite !orb_true_iff; tauto|].
    exists x, r. split; [done|].
    assert (Hs : has_flag (conv_flags c (f_flags st)) F_SIGNED = is_one_of c "di").
    { unfold conv_flags. rewrite is_one_of_di. destruct ((c =? 100) || (c =? 105)); [by rewrite has_flag_or, orb_true_r|].
      destruct (c =? 120); [by rewrite has_flag_or, Hu | done]. }
    rewrite Hs in E. destruct Hnum as [->|[-> Hn]]; [done|]. rewrite Hn in *. by rewrite i32_u32 in E. }
  assert (Hwrong : forall kd, wanted st = Some kd -> kind_of <$> head (f_args st) <> Some kd -> wrong_arg st)
    by (intros kd H1 H2; by exists kd).
  unfold fetch_num, next_int32, next_int64. destruct (f_lflags st =? L_LONG); [|destruct (has_flag (f_lflags st) _)].
  - destruct (f_args st) as [|[x|x|x|x] r] eqn:Ea; try (by apply (Hwrong _ Hw)).
    apply (Hbad x x r); [left | by left].
  - destruct (f_args st) as [|[x|x|x|x] r] eqn:Ea; try (by apply (Hwrong _ Hw)).
    apply (Hbad x x r); [right; left | by left].
  - destruct (f_args st) as [|[x|x|x|x] r] eqn:Ea; try (by destruct (_ || _); apply (Hwrong _ Hw)).
    destruct ((c =? 100) || (c =? 105)) eqn:E.
    + apply (Hbad x x r); [left | by left].
    + apply (Hbad (u32 x) x r); [left | right; by rewrite is_one_of_di].
Qed.

Lemma conv_step_fault size rest st :
  unsigned_flags st -> converts st = true ->
  conv_step size (hd 0 (f_fmt st)) rest st = Fault -> wrong_arg st \/ bad_number st.
Proof.
  intros Hu Hcv. set (c := hd 0 (f_fmt st)). unfold conv_step.
  assert (Hw : is_int_conv c = false -> wanted st =
    if is_one_of c "p" then Some KPtr else if is_one_of c "s" then Some KStr
    else if is_one_of c "c" then Some KInt32 else None).
  { intros Hc. unfold wanted. fold c. rewrite is_int_conv_one_of in Hc. rewrite Hcv, Hc. unfold converts in Hcv.
    apply negb_true_iff, bool_decide_eq_false in Hcv.
    rewrite !(proj2 (Z.eqb_neq _ _)) by (intros E; apply Hcv; rewrite E; set_solver). done. }
  destruct (is_int_conv c) eqn:Hc.
  { pose proof (int_conv_fault size c st Hu Hc eq_refl Hcv) as H.
    destruct (fetch_num c st) as [[num args]| |]; [|by left|done].
    destruct (_dos_format_int _ _ _ _ _ _); [done | by right | done]. }
  specialize (Hw eq_refl). unfold wrong_arg. rewrite Hw, <- !is_one_of_1.
  change (Z.of_N (N_of_ascii "p")) with 112. change (Z.of_N (N_of_ascii "s")) with 115.
  change (Z.of_N (N_of_ascii "c")) with 99.
  destruct (Z.eqb_spec c 112) as [E|_].
  { destruct (f_args st) as [|[x|x|x|x] r] eqn:Ea; try (by intros _; left; exists KPtr).
    destruct (_dos_format_int _ _ _ _ _ _) eqn:Ef; try done. intros _. right.
    apply format_int_fault in Ef; [|lia]. rewrite !has_flag_or, Hu in Ef.
    change (false || (has_flag F_SMALL F_SIGNED || has_flag F_ALTERNATE F_SIGNED)) with false in Ef.
    cbv iota in Ef. rewrite i32_i32 in Ef.
    split; [done|]. fold c. rewrite E. split; [done|]. exists x, r. rewrite Ea.
    split; [right; right; left | done]. }
  destruct (c =? 115).
  { destruct (f_args st) as [|[x|x|x|x] r]; try done; intros _; left; by exists KStr. }
  destruct (c =? 99).
  { destruct (f_args st) as [|[x|x|x|x] r]; try done; intros _; left; by exists KInt32. }
  by destruct (c =? 37).
Qed.

Lemma format_step_fault size st :
  unsigned_flags st -> format_step size st = Fault -> wrong_arg st \/ bad_number st.
Proof.
  intros Hu. unfold format_step, next_int32. set (c := hd 0 (f_fmt st)). cbv zeta.
  destruct (Z.eqb_spec (f_state st) S_DEFAULT) as [|N1]; [by destruct (c =? 37)|].
  destruct (Z.eqb_spec (f_state st) S_FLAGS) as [|N2]; [by destruct (flag_of c)|].
  destruct (Z.eqb_spec (f_state st) S_WIDTH) as [E|N3].
  { destruct (_dos_get_atoi (f_fmt st)). destruct (c =? 42) eqn:Ec; [|by destruct (is_digit c && (c >? 48))].
    intros H. left. exists KInt32. unfold wanted. rewrite E. cbn [Z.eqb S_WIDTH Pos.eqb]. fold c.
    rewrite <- is_one_of_1. change (Z.of_N (N_of_ascii "*")) with 42. rewrite Ec. split; [done|].
    destruct (f_args st) as [|[x|x|x|x] r]; try done. by destruct (x <? 0). }
  destruct (Z.eqb_spec (f_state st) S_PRECIS) as [E|N4].
  { destruct (c =? 46) eqn:Ec; [|done]. destruct (_dos_get_atoi (tl (f_fmt st))).
    destruct (is_digit (hd 0 (tl (f_fmt st)))); [done|].
    destruct (hd 0 (tl (f_fmt st)) =? 42) eqn:E2; [|done]. intros H. left. exists KInt32.
    unfold wanted. rewrite E. cbn [Z.eqb S_WIDTH S_PRECIS Pos.eqb]. fold c.
    rewrite <- !is_one_of_1. change (Z.of_N (N_of_ascii "*")) with 42. change (Z.of_N (N_of_ascii ".")) with 46.
    rewrite Ec, E2. split; [done|]. by destruct (f_args st) as [|[x|x|x|x] r]. }
  destruct (Z.eqb_spec (f_state st) S_LENGTH) as [|N5]; [by destruct (c =? 104), (c =? 108), (c =? 76)|].
  apply conv_step_fault; [done|]. unfold converts. apply negb_true_iff, bool_decide_eq_false.
  rewrite !elem_of_cons, elem_of_nil. tauto.
Qed.

(** ** Safety *)

Lemma format_loop_safe fuel size st :
  0 <= o_pos (f_out st) -> (left_over st < fuel)%nat -> unsigned_flags st ->
  match format_loop fuel size st with
  | Done st' => within size (f_out st) (f_out st')
  | Fault => exists st', rtc (turn size) st st' /\ (wrong_arg st' \/ bad_number st')
  | NoFuel => False
  end.
Proof.
  revert st. induction fuel as [|fuel IH]; intros st Hp Hf Hu; [lia|]. cbn.
  pose proof (format_step_next size st) as Hn. pose proof (format_step_within size st) as Hw.
  pose proof (format_step_fault size st Hu) as Hfl. pose proof (format_step_unsigned size st) as Hus.
  destruct (format_step size st) as [[st' c]| |] eqn:Hst; [|eauto using rtc_refl|done].
  specialize (Hw st' c Hp eq_refl). destruct (Z.eqb_spec c 0) as [|Hc]; [done|].
  specialize (Hn Hc). specialize (IH st' (wi_pos _ _ _ Hw Hp) ltac:(lia) (Hus _ _ Hu eq_refl)).
  destruct (format_loop fuel size st'); [by etrans | | done].
  destruct IH as (st2 & H1 & H2). exists st2. split; [|done]. eapply rtc_l; [|exact H1]. by exists c.
Qed.

Definition format_start (buf fmt : list Z) (args : list arg) : fstate :=
  mk_fstate S_DEFAULT 0 0 0 0 fmt args (mk_out buf 0).

(** C28: [dos_format_nstr] with a buffer of at least [size > 0] bytes ends, for every
    format string and every argument list, and is memory safe but for two cases: it
    returns a buffer of the same length whose bytes at and behind [size] are
    untouched, with a terminating zero below [size]; or the run came to a turn that
    fetches an argument that is missing or of another type than the format says
    ([wrong_arg]), or that prints a number which is negative as a [dos_int32]
    after the sign was taken off ([bad_number]: an unsigned number of at least
    2^31, or -2^31), for which the code reads in front of the digit table.  The
    loop over the format never runs out of its bound. *)
Theorem format_safe buf size fmt args :
  0 < size <= Z.of_nat (length buf) ->
  match dos_format_nstr (Some buf) size fmt args with
  | Done (b, _) => length b = length buf /\
      drop (Z.to_nat size) b = drop (Z.to_nat size) buf /\
      exists i, 0 <= i < size /\ b !! Z.to_nat i = Some 0
  | Fault => exists st, rtc (turn size) (format_start buf fmt args) st /\ (wrong_arg st \/ bad_number st)
  | NoFuel => False
  end.
Proof.
  intros Hs. unfold dos_format_nstr. cbn [default]. fold (format_start buf fmt args).
  set (st := format_start buf fmt args).
  pose proof (format_loop_safe (format_fuel fmt) size st ltac:(done)) as H.
  specialize (H ltac:(unfold left_over, format_fuel; cbn; lia) eq_refl).
  destruct (format_loop _ _ _) as [st'| |]; [|done|done].
  destruct H as [Hl Ha Hp]. cbn in Hl, Ha, Hp.
  pose proof (u32_range (o_pos (f_out st') - 1)) as Hr.
  set (n := u32 (o_pos (f_out st') - 1)) in *. destruct (Z.ltb_spec n size).
  2: rewrite (proj2 (Z.gtb_lt size 0)) by lia.
  all: rewrite length_insert, drop_insert_lt by lia; split_and!; [done | done |].
  - exists n. split; [lia|]. rewrite list_lookup_insert_eq by lia. done.
  - exists (size - 1). split; [lia|]. rewrite list_lookup_insert_eq by lia. done.
Qed.

Lemma format_safe_witness :
  exists b n, dos_format_nstr (Some (repeat 7 6)) 4 [37; 53; 100; 37; 99] [ArgInt32 42; ArgInt32 0] = Done (b, n) /\
    length b = 6%nat /\ drop 4 b = [7; 7] /\ exists i, 0 <= i < 4 /\ b !! Z.to_nat i = Some 0.
Proof.
  pose proof (format_safe (repeat 7 6) 4 [37; 53; 100; 37; 99] [ArgInt32 42; ArgInt32 0]
    ltac:(cbn; lia)) as H.
  assert (E : match dos_format_nstr (Some (repeat 7 6)) 4 [37; 53; 100; 37; 99] [ArgInt32 42; ArgInt32 0]
              with Done _ => true | _ => false end = true) by reflexivity.
  destruct (dos_format_nstr _ _ _ _) as [[b n]| |]; [|discriminate E|discriminate E].
  exists b, n. split; [reflexivity | exact H].
Defined.

(** The second case is real: [%u] of 2^31 + 1 indexes the digits with -7. *)
Lemma format_bad_number : dos_format_nstr (Some (repeat 7 16)) 16 [37; 117] [ArgInt32 (2 ^ 31 + 1)] = Fault.
Proof. reflexivity. Qed.

(** ** Numerals *)

(** The digits up to fifteen. *)
Definition digit_at (small : bool) (d : Z) : Z :=
  nth (Z.to_nat d) (codes (if small then "0123456789abcdef" else "0123456789ABCDEF")%string) 0.

Lemma digit_char_at small d : 0 <= d < 16 -> digit_char small d = digit_at small d.
Proof.
  intros Hd. assert (Hn : (Z.to_nat d < 16)%nat) by lia. rewrite <- (Z2Nat.id d) by lia.
  revert Hn. generalize (Z.to_nat d). intros n Hn.
  do 16 (destruct n as [|n]; [by destruct small|]). lia.
Qed.

(** The numeral of a non-negative number, least significant digit first. *)
Fixpoint numeral_rev (fuel : nat) (small : bool) (base n : Z) : list Z :=
  match fuel with
  | O => []
  | S fuel' => digit_at small (n mod base) ::
      (if n / base =? 0 then [] else numeral_rev fuel' small base (n / base))
  end.

Definition numeral (small : bool) (base n : Z) : list Z := rev (numeral_rev 64 small base n).

Lemma int_digits_numeral fuel small base n :
  2 <= base <= 16 -> 0 <= n < 2 ^ Z.of_nat fuel -> fuel <> O ->
  int_digits fuel small base n = Done (numeral_rev fuel small base n).
Proof.
  intros Hb. revert n. induction fuel as [|fuel IH]; intros n Hn Hf; [done|].
  cbn [int_digits numeral_rev].
  rewrite Z.rem_mod_nonneg, Z.quot_div_nonneg by lia.
  pose proof (Z.mod_pos_bound n base ltac:(lia)). pose proof (Z.div_pos n base ltac:(lia) ltac:(lia)).
  rewrite (proj2 (Z.ltb_ge _ _)), Z.gtb_ltb, digit_char_at by lia.
  destruct (Z.eqb_spec (n / base) 0) as [->|Hq]; [done|].
  rewrite (proj2 (Z.ltb_lt _ _)) by lia.
  assert (n / base < 2 ^ Z.of_nat fuel).
  { apply Z.div_lt_upper_bound; [lia|].
    rewrite Nat2Z.inj_succ, Z.pow_succ_r in Hn by lia. nia. }
  rewrite IH; [done | lia |]. intros ->. cbn in *. lia.
Qed.

(** Reading digits back. *)
Definition digit_value (c : Z) : Z :=
  if is_digit c then c - 48 else if c <? 97 then c - 55 else c - 87.

Definition value_of (base : Z) (cs : list Z) : Z :=
  foldl (fun n c => n * base + digit_value c) 0 cs.

Lemma digit_value_char small d : 0 <= d < 16 -> digit_value (digit_char small d) = d.
Proof.
  intros Hd. unfold digit_value, digit_char, is_digit.
  destruct (Z.ltb_spec d 10), small.
  all: repeat match goal with
    | |- context [?a <=? ?b] => destruct (Z.leb_spec a b); try lia
    | |- context [?a <? ?b] => destruct (Z.ltb_spec a b); try lia
    end; cbn [andb]; lia.
Qed.

Lemma numeral_rev_value fuel small base n :
  2 <= base <= 16 -> 0 <= n < 2 ^ Z.of_nat fuel -> fuel <> O ->
  value_of base (rev (numeral_rev fuel small base n)) = n.
Proof.
  intros Hb. revert n. induction fuel as [|fuel IH]; intros n Hn Hf; [done|].
  cbn [numeral_rev rev]. unfold value_of in *. rewrite foldl_app. cbn [foldl].
  pose proof (Z.mod_pos_bound n base ltac:(lia)). pose proof (Z.div_mod n base ltac:(lia)).
  pose proof (Z.div_pos n base ltac:(lia) ltac:(lia)).
  rewrite <- digit_char_at, digit_value_char by lia. destruct (Z.eqb_spec (n / base) 0) as [E|E].
  { cbn. lia. }
  assert (n / base < 2 ^ Z.of_nat fuel).
  { apply Z.div_lt_upper_bound; [lia|].
    rewrite Nat2Z.inj_succ, Z.pow_succ_r in Hn by lia. nia. }
  rewrite IH; [lia | lia |]. intros ->. cbn in *. lia.
Qed.

Lemma numeral_value small base n :
  2 <= base <= 16 -> 0 <= n < 2 ^ 32 -> value_of base (numeral small base n) = n.
Proof. intros. apply numeral_rev_value; [done | | done]. split; [lia|]. cbn. lia. Qed.

Lemma numeral_digits small n c :
  0 <= n -> c ∈ numeral small 10 n -> is_digit c = true.
Proof.
  unfold numeral. rewrite list_elem_of_In, <- in_rev. generalize 64%nat as fuel.
  intros fuel. revert n. induction fuel as [|fuel IH]; intros n Hn; [done|]. cbn [numeral_rev In].
  pose proof (Z.mod_pos_bound n 10 ltac:(lia)).
  intros [<-|Hin].
  - rewrite <- digit_char_at by lia. unfold digit_char, is_digit. rewrite (proj2 (Z.ltb_lt _ _)) by lia.
    by rewrite !(proj2 (Z.leb_le _ _)) by lia.
  - destruct (n / 10 =? 0); [done|]. apply (IH (n / 10)); [|done]. apply Z.div_pos; lia.
Qed.

(** A numeral that does not stand for zero has no leading zero. *)
Lemma numeral_rev_last fuel n :
  0 < n < 2 ^ Z.of_nat fuel -> exists cs d, numeral_rev fuel false 10 n = cs ++ [d] /\ 48 < d <= 57.
Proof.
  revert n. induction fuel as [|fuel IH]; intros n Hn; [cbn in Hn; lia|].
  cbn [numeral_rev]. destruct (Z.eqb_spec (n / 10) 0) as [E|E].
  - pose proof (Z.div_mod n 10 ltac:(lia)). exists [], (digit_at false (n mod 10)).
    pose proof (Z.mod_pos_bound n 10 ltac:(lia)). split; [done|].
    rewrite <- digit_char_at by lia. unfold digit_char. rewrite (proj2 (Z.ltb_lt _ _)) by lia. lia.
  - pose proof (Z.div_pos n 10 ltac:(lia) ltac:(lia)).
    destruct (IH (n / 10)) as (cs & d & -> & Hd).
    { split; [lia|]. apply Z.div_lt_upper_bound; [lia|].
      rewrite Nat2Z.inj_succ, Z.pow_succ_r in Hn by lia. lia. }
    by exists (digit_at false (n mod 10) :: cs), d.
Qed.

(** ** Reading a decimal number back *)

Lemma i32_small x : - 2 ^ 31 <= x < 2 ^ 31 -> i32 x = x.
Proof. intros. unfold i32. rewrite Z.mod_small by lia. lia. Qed.

Lemma atoi_digits cs rest n :
  (forall c, c ∈ cs -> is_digit c = true) -> is_digit (hd 0 rest) = false ->
  0 <= n -> foldl (fun n c => n * 10 + digit_value c) n cs < 2 ^ 31 ->
  atoi_loop n (cs ++ rest) = (foldl (fun n c => n * 10 + digit_value c) n cs, rest).
Proof.
  revert n. induction cs as [|c cs IH]; intros n Hcs Hrest Hn Hlt.
  { destruct rest as [|c rest]; [done|]. cbn in *. by rewrite Hrest. }
  assert (Hd : is_digit c = true) by (apply Hcs; left). cbn [app atoi_loop foldl] in *.
  rewrite Hd. unfold digit_value at 2 in Hlt. unfold digit_value at 2.
  rewrite Hd in *. pose proof Hd as Hd'. unfold is_digit in Hd'.
  apply andb_true_iff in Hd' as [?%Z.leb_le ?%Z.leb_le].
  assert (Hmono : forall cs n, 0 <= n -> (forall c, c ∈ cs -> is_digit c = true) ->
            n <= foldl (fun n c => n * 10 + digit_value c) n cs).
  { clear. induction cs as [|c cs IH]; intros n Hn Hcs; cbn; [lia|].
    assert (Hd : is_digit c = true) by (apply Hcs; left). unfold digit_value at 2. rewrite Hd.
    unfold is_digit in Hd. apply andb_true_iff in Hd as [?%Z.leb_le ?%Z.leb_le].
    etrans; [|apply IH]; [lia | lia |]. intros. apply Hcs. by right. }
  assert (Hle := Hmono cs (n * 10 + (c - 48)) ltac:(lia) ltac:(intros; apply Hcs; by right)).
  rewrite i32_small by lia. replace (n * 10 + c - 48) with (n * 10 + (c - 48)) by lia.
  apply IH; [intros; apply Hcs; by right | done | lia | done].
Qed.

(** Reading back what was printed: [_dos_get_atoi] applied to the decimal
    numeral of any non-negative [dos_int32], as the integer conversion produces
    it, followed by anything that is not a digit, returns that number and stops
    behind it. *)
Theorem atoi_numeral n rest :
  0 <= n < 2 ^ 31 -> is_digit (hd 0 rest) = false ->
  exists cs, int_digits 64 false 10 n = Done cs /\ _dos_get_atoi (rev cs ++ rest) = (n, rest).
Proof.
  intros Hn Hrest. exists (numeral_rev 64 false 10 n).
  split; [apply int_digits_numeral; [lia | cbn; lia | done]|]. change (rev _) with (numeral false 10 n).
  pose proof (numeral_value false 10 n ltac:(lia) ltac:(lia)) as Hv. unfold value_of in Hv.
  unfold _dos_get_atoi. rewrite atoi_digits; rewrite ?Hv; try lia; try done.
  intros c Hc. apply (numeral_digits false n); [lia | exact Hc].
Qed.

Lemma atoi_numeral_witness :
  exists cs, int_digits 64 false 10 2147483647 = Done cs /\
    _dos_get_atoi (rev cs ++ [100]) = (2147483647, [100]).
Proof. apply (atoi_numeral 2147483647 [100]); [lia | reflexivity]. Defined.

(** ** What a format prints *)

(** A format is a sequence of directives: text, and conversions with flags and
    a width. *)
Inductive conversion : Type :=
| ConvDec (x : Z)
| ConvUns (x : Z)
| ConvHex (upper : bool) (x : Z)
| ConvOct (x : Z)
| ConvBin (x : Z)
| ConvStr (s : list Z)
| ConvChar (c : Z)
| ConvPercent.

Inductive flag : Type := FlagAlternate | FlagZero | FlagLeft | FlagSpace | FlagPlus | FlagQuote | FlagI.

#[export] Instance flag_eq_dec : EqDecision flag.
Proof. solve_decision. Defined.

Inductive directive : Type :=
| Text (cs : list Z)
| Conv (fl : list flag) (w : Z) (v : conversion).

(** [# 0 - + ' I] and the blank. *)
Definition flag_char (g : flag) : Z :=
  match g with
  | FlagAlternate => 35 | FlagZero => 48 | FlagLeft => 45 | FlagSpace => 32 | FlagPlus => 43
  | FlagQuote => 39 | FlagI => 73
  end.

Definition conv_char (v : conversion) : Z :=
  match v with
  | ConvDec _ => 100 | ConvUns _ => 117 | ConvHex u _ => if u then 88 else 120
  | ConvOct _ => 111 | ConvBin _ => 98 | ConvStr _ => 115 | ConvChar _ => 99 | ConvPercent => 37
  end.

Definition conv_args (v : conversion) : list arg :=
  match v with
  | ConvDec x | ConvUns x | ConvHex _ x | ConvOct x | ConvBin x | ConvChar x => [ArgInt32 x]
  | ConvStr s => [ArgStr (Some s)]
  | ConvPercent => []
  end.

Definition render (d : directive) : list Z :=
  match d with
  | Text cs => cs
  | Conv fl w v => 37 :: map flag_char fl ++ (if w =? 0 then [] else numeral false 10 w) ++ [conv_char v]
  end.

Definition directive_args (d : directive) : list arg :=
  match d with Text _ => [] | Conv _ _ v => conv_args v end.

Definition blanks (n : Z) : list Z := repeat 32 (Z.to_nat n).
Definition zeros (n : Z) : list Z := repeat 48 (Z.to_nat n).

Section printed.
(** The flags that are given. *)
Context (has : flag -> bool).

(** Text in a field of [w] characters. *)
Definition text_field (cs : list Z) (w : Z) : list Z :=
  let n := w - Z.of_nat (length cs) in
  if has FlagLeft then cs ++ blanks n else blanks n ++ cs.

(** A number with its prefix in a field of [w] characters. *)
Definition field (pre body : list Z) (w : Z) : list Z :=
  let n := w - Z.of_nat (length body) - Z.of_nat (length pre) in
  if has FlagLeft then pre ++ body ++ blanks n
  else if has FlagZero then pre ++ zeros n ++ body
  else blanks n ++ pre ++ body.

Definition plus_sign : list Z :=
  if has FlagPlus then codes "+" else if has FlagSpace then codes " " else [].

Definition base_prefix (base : Z) (small : bool) : list Z :=
  if has FlagAlternate
  then if base =? 8 then codes "0" else if base =? 16 then codes (if small then "0x" else "0X") else []
  else [].

Definition printed_int (w base : Z) (small : bool) (x : Z) : list Z :=
  field ((if x <? 0 then codes "-" else plus_sign) ++ base_prefix base small)
    (numeral small base (Z.abs x)) w.

End printed.

Definition given (fl : list flag) (g : flag) : bool := bool_decide (g ∈ fl).

Definition printed (d : directive) : list Z :=
  match d with
  | Text cs => cs
  | Conv fl w v =>
      match v with
      | ConvDec x | ConvUns x => printed_int (given fl) w 10 false x
      | ConvHex upper x => printed_int (given fl) w 16 (negb upper) x
      | ConvOct x => printed_int (given fl) w 8 false x
      | ConvBin x => printed_int (given fl) w 2 false x
      | ConvStr s => text_field (given fl) s w
      | ConvChar c => text_field (given fl) [c] w
      | ConvPercent => codes "%"
      end
  end.

Definition conv_ok (v : conversion) : Prop :=
  match v with
  | ConvDec x => - 2 ^ 31 < x < 2 ^ 31
  | ConvUns x | ConvHex _ x | ConvOct x | ConvBin x => 0 <= x < 2 ^ 31
  | ConvStr s => Z.of_nat (length s) < 2 ^ 31
  | ConvChar c => 0 < c < 256
  | ConvPercent => True
  end.

Definition directive_ok (d : directive) : Prop :=
  match d with
  | Text cs => Forall (fun c => c <> 0 /\ c <> 37) cs
  | Conv _ w v => 0 <= w < 2 ^ 31 /\ conv_ok v
  end.

(** *** Flags *)

(** The bit of a flag, and the bits of several. *)
Definition flag_bit (g : flag) : Z :=
  match g with
  | FlagAlternate => F_ALTERNATE | FlagZero => F_ZEROPAD | FlagLeft => F_LEFT | FlagSpace => F_SPACE
  | FlagPlus => F_PLUS | FlagQuote | FlagI => 0
  end.

Definition flags_of (fl : list flag) : Z := foldl (fun f g => Z.lor f (flag_bit g)) 0 fl.

(** The flags that have an effect. *)
Definition effective : list flag := [FlagAlternate; FlagZero; FlagLeft; FlagSpace; FlagPlus].

Lemma flag_of_char g : flag_of (flag_char g) = Some (flag_bit g).
Proof. by destruct g. Qed.

Lemma flags_of_given fl g : g ∈ effective -> has_flag (flags_of fl) (flag_bit g) = given fl g.
Proof.
  intros Hg. unfold flags_of, given.
  assert (H : forall f, has_flag (foldl (fun f g => Z.lor f (flag_bit g)) f fl) (flag_bit g) =
                   has_flag f (flag_bit g) || bool_decide (g ∈ fl)).
  { induction fl as [|h fl IH]; intros f; cbn [foldl].
    - rewrite bool_decide_false by apply not_elem_of_nil. by rewrite orb_false_r.
    - rewrite IH, has_flag_or, <- orb_assoc. f_equal.
      destruct (decide (g = h)) as [<-|Hne].
      + rewrite (bool_decide_true (g ∈ g :: fl)) by left.
        unfold effective in Hg. rewrite !elem_of_cons, elem_of_nil in Hg. by destruct g; naive_solver.
      + assert (has_flag (flag_bit h) (flag_bit g) = false) as -> by (destruct g, h; done).
        apply bool_decide_ext. rewrite elem_of_cons. naive_solver. }
  apply (H 0).
Qed.

(** *** Turns of the interpreter *)

Lemma turns_loop size st st' fuel :
  rtc (turn size) st st' -> (left_over st < fuel)%nat ->
  exists fuel', (left_over st' < fuel')%nat /\
    format_loop fuel size st = format_loop fuel' size st'.
Proof.
  intros H. revert fuel. induction H as [st|st st1 st' (c & Hs & Hc) _ IH]; intros fuel Hf; [eauto|].
  destruct fuel as [|fuel]; [lia|]. cbn.
  pose proof (format_step_next size st) as Hn. rewrite Hs in Hn. specialize (Hn Hc).
  rewrite Hs, (proj2 (Z.eqb_neq _ _) Hc). apply IH. lia.
Qed.

Lemma put_chars_app max cs cs' o :
  put_chars max (cs ++ cs') o = put_chars max cs' (put_chars max cs o).
Proof. apply foldl_app. Qed.

Lemma text_turns size cs st rest :
  Forall (fun c => c <> 0 /\ c <> 37) cs -> f_state st = S_DEFAULT -> f_fmt st = cs ++ rest ->
  rtc (turn size) st (mk_fstate S_DEFAULT (f_flags st) (f_width st) (f_precision st) (f_lflags st)
    rest (f_args st) (put_chars size cs (f_out st))).
Proof.
  intros Hcs. revert st. induction Hcs as [|c cs [H0 H37] _ IH]; intros st Es Ef.
  { destruct st; cbn in *; subst. done. }
  eapply rtc_l; [exists c; split; [|done]|].
  - unfold format_step. rewrite Es, Ef. cbn [hd tl app Z.eqb S_DEFAULT].
    rewrite (proj2 (Z.eqb_neq _ _) H37). reflexivity.
  - apply (IH (mk_fstate _ _ _ _ _ _ _ _)); done.
Qed.

Lemma flag_turns size fl st rest :
  f_state st = S_FLAGS -> f_fmt st = map flag_char fl ++ rest ->
  rtc (turn size) st (mk_fstate S_FLAGS (foldl (fun f g => Z.lor f (flag_bit g)) (f_flags st) fl) (f_width st)
    (f_precision st) (f_lflags st) rest (f_args st) (f_out st)).
Proof.
  revert st. induction fl as [|g fl IH]; intros st Es Ef.
  { destruct st; cbn in *; subst. done. }
  eapply rtc_l; [exists (flag_char g); split; [|by destruct g]|].
  - unfold format_step. rewrite Es, Ef. cbn [map hd tl app Z.eqb S_DEFAULT S_FLAGS].
    rewrite flag_of_char. reflexivity.
  - cbn [foldl]. apply (IH (mk_fstate _ _ _ _ _ _ _ _)); done.
Qed.

(** From the character of the conversion to the conversion itself. *)
Lemma select_turns size v st rest :
  f_state st = S_WIDTH -> f_fmt st = conv_char v :: rest ->
  rtc (turn size) st (mk_fstate S_CONV (f_flags st) (f_width st) (-1) 0
    (conv_char v :: rest) (f_args st) (f_out st)).
Proof.
  intros Es Ef.
  eapply rtc_l; [exists (conv_char v); split|].
  { unfold format_step. rewrite Es, Ef. destruct v as [| |[]| | | | |]; reflexivity. }
  { by destruct v as [| |[]| | | | |]. }
  eapply rtc_l; [exists (conv_char v); split|].
  { unfold format_step. destruct v as [| |[]| | | | |]; reflexivity. }
  { by destruct v as [| |[]| | | | |]. }
  eapply rtc_l; [exists (conv_char v); split|].
  { unfold format_step. destruct v as [| |[]| | | | |]; reflexivity. }
  { by destruct v as [| |[]| | | | |]. }
  done.
Qed.

(** *** The width *)

Lemma numeral_head w :
  0 < w < 2 ^ 31 -> exists d ds, numeral false 10 w = d :: ds /\ 48 < d <= 57.
Proof.
  intros Hw. destruct (numeral_rev_last 64 w) as (cs & d & E & Hd); [cbn; lia|].
  exists d, (rev cs). unfold numeral. by rewrite E, rev_app_distr.
Qed.

Lemma digit_is_digit d : 48 < d <= 57 -> is_digit d = true /\ (d =? 42) = false /\ (d >? 48) = true.
Proof.
  intros Hd. unfold is_digit. rewrite !(proj2 (Z.leb_le _ _)), (proj2 (Z.eqb_neq _ _)) by lia.
  by rewrite (proj2 (Z.gtb_lt _ _)) by lia.
Qed.

Lemma digit_no_flag d : 48 < d <= 57 -> flag_of d = None.
Proof.
  intros Hd. unfold flag_of. rewrite !(proj2 (Z.eqb_neq _ _)) by lia. done.
Qed.

Lemma width_turns size w v st rest :
  0 <= w < 2 ^ 31 -> f_state st = S_FLAGS ->
  f_fmt st = (if w =? 0 then [] else numeral false 10 w) ++ conv_char v :: rest ->
  rtc (turn size) st (mk_fstate S_WIDTH (f_flags st) w (f_precision st) (f_lflags st)
    (conv_char v :: rest) (f_args st) (f_out st)).
Proof.
  intros Hw Es. destruct (Z.eqb_spec w 0) as [->|Hw0]; intros Ef.
  { eapply rtc_l; [exists (conv_char v); split|done].
    - unfold format_step. rewrite Es, Ef. by destruct v as [| |[]| | | | |].
    - by destruct v as [| |[]| | | | |]. }
  pose proof (numeral_value false 10 w ltac:(lia) ltac:(lia)) as Hv. unfold value_of in Hv.
  pose proof (fun c => numeral_digits false w c ltac:(lia)) as Hds.
  destruct (numeral_head w) as (d & ds & E & Hd); [lia|].
  destruct (digit_is_digit d Hd) as (D1 & D2 & D3). rewrite E in *.
  eapply rtc_l; [exists d; split; [|lia]|].
  { unfold format_step. rewrite Es, Ef. cbn [hd tl app Z.eqb S_DEFAULT S_FLAGS].
    rewrite digit_no_flag by done. reflexivity. }
  eapply rtc_l; [exists d; split; [|lia]|].
  { unfold format_step. cbn -[is_digit _dos_get_atoi Z.gtb].
    rewrite D1, D2, D3. cbn -[_dos_get_atoi]. unfold _dos_get_atoi.
    change (d :: ds ++ conv_char v :: rest) with ((d :: ds) ++ conv_char v :: rest).
    rewrite atoi_digits; [rewrite Hv; reflexivity | exact Hds | | lia | rewrite Hv; lia].
    by destruct v as [| |[]| | | | |]. }
  done.
Qed.

(** *** The conversions *)

Lemma has_flag_lor f g h : Z.land g h = 0 -> has_flag (Z.lor f g) h = has_flag f h.
Proof. intros E. unfold has_flag. by rewrite Z.land_lor_distr_l, E, Z.lor_0_r. Qed.

Lemma has_flag_clear f g h : Z.land (Z.lnot g) h = h -> has_flag (Z.land f (Z.lnot g)) h = has_flag f h.
Proof. intros E. unfold has_flag. by rewrite <- Z.land_assoc, E. Qed.

(** The flags of a directive set neither of the internal flags. *)
Lemma flags_of_internal fl : has_flag (flags_of fl) F_SMALL = false.
Proof.
  unfold flags_of.
  assert (H : forall f, has_flag f F_SMALL = false ->
    has_flag (foldl (fun f g => Z.lor f (flag_bit g)) f fl) F_SMALL = false).
  { induction fl as [|g fl IH]; intros f Hf; [done|]. apply IH. rewrite has_flag_or, Hf. by destruct g. }
  by apply H.
Qed.

(** Membership in a list that is spelt out. *)
Ltac in_list := repeat first [apply list_elem_of_here | apply list_elem_of_further].

Lemma format_int_prints size has fl' w base small x o :
  2 <= base <= 16 -> - 2 ^ 31 < x < 2 ^ 31 -> (x < 0 -> has_flag fl' F_SIGNED = true) ->
  has_flag fl' F_SMALL = small ->
  (forall g, g ∈ effective -> has_flag fl' (flag_bit g) = has g) ->
  _dos_format_int size x base w fl' o = Done (put_chars size (printed_int has w base small x) o).
Proof.
  intros Hb Hx Hsg Hsm Hfl.
  pose proof (Hfl FlagAlternate ltac:(in_list)) as HfA. pose proof (Hfl FlagZero ltac:(in_list)) as HfZ.
  pose proof (Hfl FlagLeft ltac:(in_list)) as HfL. pose proof (Hfl FlagSpace ltac:(in_list)) as HfS.
  pose proof (Hfl FlagPlus ltac:(in_list)) as HfP. cbn [flag_bit] in *. unfold _dos_format_int.
  rewrite (proj2 (Z.ltb_ge _ _)), Z.gtb_ltb, (proj2 (Z.ltb_ge _ _)) by lia. cbn [orb]. cbv zeta.
  set (fl2 := if has_flag fl' F_LEFT then _ else _).
  assert (H2 : forall h, h ∈ [F_ALTERNATE; F_LEFT; F_SPACE; F_PLUS; F_SIGNED; F_SMALL] ->
                 has_flag fl2 h = has_flag fl' h).
  { intros h Hh. unfold fl2. destruct (has_flag fl' F_LEFT); [|done]. apply has_flag_clear.
    unfold F_ALTERNATE, F_LEFT, F_SPACE, F_PLUS, F_SIGNED, F_SMALL in Hh. set_unfold.
    naive_solver. }
  assert (Hneg : has_flag fl2 F_SIGNED && (x <? 0) = (x <? 0)).
  { destruct (Z.ltb_spec x 0) as [Hlt|]; [|apply andb_false_r].
    rewrite H2, Hsg by (done || in_list). done. }
  rewrite Hneg, !(H2 F_LEFT), !(H2 F_PLUS), !(H2 F_SPACE), (H2 F_SMALL), Hsm by in_list.
  assert (En : (if x <? 0 then i32 (- x) else i32 x) = Z.abs x).
  { destruct (Z.ltb_spec x 0); rewrite i32_small by lia; lia. }
  rewrite En, int_digits_numeral by (cbn; lia || done). do 2 f_equal.
  set (nb := numeral_rev 64 small base (Z.abs x)).
  assert (Hp : int_prefix (if x <? 0 then 45 else if has_flag fl' F_PLUS then 43
                else if has_flag fl' F_SPACE then 32 else 0) base fl2 =
               (if x <? 0 then codes "-" else plus_sign has) ++ base_prefix has base small).
  { unfold int_prefix, plus_sign, base_prefix. rewrite !(H2 F_ALTERNATE), (H2 F_SMALL), Hsm by in_list.
    rewrite HfA, HfP, HfS. destruct (x <? 0), (has FlagPlus), (has FlagSpace), (has FlagAlternate),
      (Z.eqb_spec base 8), (Z.eqb_spec base 16), small; try done; lia. }
  rewrite Hp. set (pre := _ ++ base_prefix has base small). unfold printed_int, field, numeral, blanks, zeros.
  fold nb pre. rewrite length_rev, HfL.
  replace (pad (if w >? _ then _ else 0)) with
    (pad (w - Z.of_nat (length nb) - Z.of_nat (length pre))).
  2: { unfold pad. rewrite Z.gtb_ltb. destruct (Z.ltb_spec (Z.of_nat (length nb) + Z.of_nat (length pre)) w).
       - done.
       - by replace (Z.to_nat _) with O by lia. }
  destruct (has FlagLeft) eqn:HL; [done|]. unfold fl2. by rewrite HfL, HfZ.
Qed.

Lemma has_flag_set f h : h <> 0 -> has_flag (Z.lor f h) h = true.
Proof.
  intros Hh. unfold has_flag. rewrite Z.land_lor_distr_l, Z.land_diag.
  apply negb_true_iff, Z.eqb_neq. by intros [_ E]%Z.lor_eq_0_iff.
Qed.

(** The integer conversions; [f] are the flags of the directive. *)
Lemma int_conv_prints size has c f w base small x st rest args :
  is_int_conv c = true -> conv_base c = base -> 2 <= base <= 16 -> - 2 ^ 31 < x < 2 ^ 31 ->
  (x < 0 -> has_flag (conv_flags c f) F_SIGNED = true) ->
  has_flag (conv_flags c f) F_SMALL = small ->
  (forall g, g ∈ effective -> has_flag (conv_flags c f) (flag_bit g) = has g) ->
  fetch_num c st = Done (x, args) -> f_flags st = f -> f_width st = w -> f_lflags st = 0 ->
  conv_step size c rest st = Done (mk_fstate S_DEFAULT f w (f_precision st) 0 rest args
    (put_chars size (printed_int has w base small x) (f_out st)), c).
Proof.
  intros Hc Hb Hbr Hx Hsg Hsm Hfl Hn Ef Ew El. unfold conv_step. rewrite Hc, Hn, Ef, Ew, El, Hb.
  by rewrite (format_int_prints size has _ w base small x).
Qed.

(** Text in a field: [_dos_format_str] and [_dos_format_char] give the number of
    blanks in different ways. *)
Lemma justify_field has cs npad f w :
  has_flag f F_LEFT = has FlagLeft -> Z.to_nat npad = Z.to_nat (w - Z.of_nat (length cs)) ->
  justify cs npad f = text_field has cs w.
Proof. intros Hf Hn. unfold justify, text_field, blanks, pad. by rewrite Hf, Hn. Qed.

Lemma conv_prints size fl w v st rest args :
  let f := flags_of fl in
  0 <= w < 2 ^ 31 -> conv_ok v ->
  f_flags st = f -> f_width st = w -> f_lflags st = 0 -> f_args st = conv_args v ++ args ->
  exists c, c <> 0 /\ conv_step size (conv_char v) rest st =
    Done (mk_fstate S_DEFAULT f w (f_precision st) 0 rest args
            (put_chars size (printed (Conv fl w v)) (f_out st)), c).
Proof.
  intros f Hw Hv Ef Ew El Ea. pose proof (flags_of_internal fl) as Hsm.
  pose proof (flags_of_given fl) as Hg. fold f in Hg, Hsm.
  assert (Hlor : forall b g, Z.land b 31 = 0 -> g ∈ effective -> has_flag (Z.lor f b) (flag_bit g) = given fl g).
  { intros b g Hb Hin. rewrite has_flag_lor; [by apply Hg|].
    assert (Z.land 31 (flag_bit g) = flag_bit g) as <- by (by destruct g). by rewrite Z.land_assoc, Hb. }
  assert (Hu : forall x, 0 <= x < 2 ^ 31 -> u32 x = x) by (intros; apply u32_small; lia).
  destruct v as [x|x|up x|x|x|s|c|]; cbn [conv_ok conv_args app conv_char printed] in *.
  - exists 100. split; [done|]. apply (int_conv_prints size (given fl) 100 f w 10 false x); try done.
    + intros _. by apply has_flag_set.
    + cbn. by rewrite has_flag_lor.
    + intros g. by apply Hlor.
    + unfold fetch_num, next_int32. by rewrite El, Ea.
  - exists 117. split; [done|]. apply (int_conv_prints size (given fl) 117 f w 10 false x); try done; try lia.
    unfold fetch_num, next_int32. rewrite El, Ea. cbn. by rewrite Hu.
  - exists (if up then 88 else 120). split; [by destruct up|]. destruct up.
    + apply (int_conv_prints size (given fl) 88 f w 16 false x); try done; try lia.
      unfold fetch_num, next_int32. rewrite El, Ea. cbn. by rewrite Hu.
    + apply (int_conv_prints size (given fl) 120 f w 16 true x); try done; try lia.
      * by apply has_flag_set.
      * intros g. by apply Hlor.
      * unfold fetch_num, next_int32. rewrite El, Ea. cbn. by rewrite Hu.
  - exists 111. split; [done|]. apply (int_conv_prints size (given fl) 111 f w 8 false x); try done; try lia.
    unfold fetch_num, next_int32. rewrite El, Ea. cbn. by rewrite Hu.
  - exists 98. split; [done|]. apply (int_conv_prints size (given fl) 98 f w 2 false x); try done; try lia.
    unfold fetch_num, next_int32. rewrite El, Ea. cbn. by rewrite Hu.
  - exists 115. split; [done|]. unfold conv_step. cbn -[text_field _dos_format_str].
    rewrite El, Ea, Ew, Ef. cbn -[text_field _dos_format_str]. unfold _dos_format_str, _dos_strlen. cbv zeta.
    rewrite (justify_field (given fl) _ _ _ w); [done | by apply (Hg FlagLeft); in_list |].
    rewrite Z.gtb_ltb. destruct (Z.ltb_spec 0 w).
    + rewrite i32_small by lia. destruct (Z.ltb_spec (w - Z.of_nat (length s)) 0); lia.
    + cbn [Z.ltb Z.compare]. lia.
  - exists (u8 c). rewrite u8_small by lia. split; [lia|]. unfold conv_step.
    cbn -[text_field _dos_format_char]. rewrite El, Ea, Ew, Ef. cbn -[text_field _dos_format_char].
    rewrite u8_small by lia. unfold _dos_format_char. cbv zeta.
    rewrite (justify_field (given fl) _ _ _ w); [done | by apply (Hg FlagLeft); in_list |].
    rewrite Z.gtb_ltb. cbn [length]. destruct (Z.ltb_spec 0 w); lia.
  - exists 37. split; [done|]. unfold conv_step. cbn -[_dos_buff_put_char].
    by rewrite El, Ea, Ew, Ef.
Qed.

(** *** Whole formats *)

(** Between directives only the rest of the format, the arguments and the
    output count. *)
Lemma directive_turns size d st rest args :
  directive_ok d -> f_state st = S_DEFAULT -> f_fmt st = render d ++ rest ->
  f_args st = directive_args d ++ args ->
  exists st', rtc (turn size) st st' /\ f_state st' = S_DEFAULT /\ f_fmt st' = rest /\
    f_args st' = args /\ f_out st' = put_chars size (printed d) (f_out st).
Proof.
  destruct d as [cs|fl w v]; cbn [directive_ok render directive_args].
  { intros Hcs Es Ef Ea. eexists. split; [by apply (text_turns size cs st rest)|]. done. }
  intros (Hw & Hv) Es Ef Ea. rewrite <- app_comm_cons, <- !app_assoc in Ef.
  destruct (conv_prints size fl w v (mk_fstate S_CONV (flags_of fl) w (-1) 0 (conv_char v :: rest)
    (f_args st) (f_out st)) rest args) as (c & Hc & Hstep); try done.
  eexists. split; [|shelve].
  eapply rtc_l.
  { exists 37. split; [|done]. unfold format_step. rewrite Es, Ef. reflexivity. }
  etrans; [apply (flag_turns size fl _ ((if w =? 0 then [] else numeral false 10 w) ++
    conv_char v :: rest)); reflexivity|].
  etrans; [apply (width_turns size w v _ rest Hw); reflexivity|].
  etrans; [apply (select_turns size v _ rest); reflexivity|].
  apply rtc_once. exists c. split; [exact Hstep | exact Hc].
  Unshelve. done.
Qed.

Lemma directives_turns size ds st rest args :
  Forall directive_ok ds -> f_state st = S_DEFAULT -> f_fmt st = concat (map render ds) ++ rest ->
  f_args st = concat (map directive_args ds) ++ args ->
  exists st', rtc (turn size) st st' /\ f_state st' = S_DEFAULT /\ f_fmt st' = rest /\
    f_args st' = args /\ f_out st' = put_chars size (concat (map printed ds)) (f_out st).
Proof.
  intros Hds. revert st. induction Hds as [|d ds Hd _ IH]; intros st Es Ef Ea; [eauto 10 using rtc_refl|].
  cbn in Ef, Ea. rewrite <- app_assoc in Ef, Ea.
  destruct (directive_turns size d st _ _ Hd Es Ef Ea) as (st1 & R1 & Es1 & Ef1 & Ea1 & Eo1).
  destruct (IH st1 Es1 Ef1 Ea1) as (st2 & R2 & Es2 & Ef2 & Ea2 & Eo2).
  exists st2. split; [by etrans|]. rewrite Eo2, Eo1. cbn [map concat]. by rewrite put_chars_app.
Qed.

(** The buffer after printing [cs] from position 0. *)
Lemma put_chars_spec max cs o :
  0 <= max <= Z.of_nat (length (o_buf o)) -> 0 <= o_pos o ->
  o_pos o + Z.of_nat (length cs) < 2 ^ 32 ->
  o_pos (put_chars max cs o) = o_pos o + Z.of_nat (length cs) /\
  forall i, 0 <= i < max -> o_buf (put_chars max cs o) !! Z.to_nat i =
    if decide (o_pos o <= i < o_pos o + Z.of_nat (length cs))
    then cs !! Z.to_nat (i - o_pos o) else o_buf o !! Z.to_nat i.
Proof.
  revert o. induction cs as [|c cs IH]; intros o Hm Hp Hlen.
  { split; [cbn; lia|]. intros i Hi. by rewrite decide_False by (cbn; lia). }
  cbn [length] in *. pose proof (put_char_within max c o Hp) as [Hl _ _].
  assert (Ep : o_pos (_dos_buff_put_char max c o) = o_pos o + 1).
  { unfold _dos_buff_put_char. cbn. apply u32_small. lia. }
  destruct (IH (_dos_buff_put_char max c o)) as [IHp IHb]; rewrite ?Ep, ?Hl; try lia.
  rewrite Ep in *. change (put_chars max (c :: cs) o) with
    (put_chars max cs (_dos_buff_put_char max c o)).
  split; [lia|]. intros i Hi. rewrite IHb by done.
  assert (Eb : o_buf (_dos_buff_put_char max c o) !! Z.to_nat i =
            if decide (i = o_pos o) then Some c else o_buf o !! Z.to_nat i).
  { unfold _dos_buff_put_char. cbn. case_decide as Hd.
    - subst i. rewrite (proj2 (Z.ltb_lt _ _)) by lia. apply list_lookup_insert_eq. lia.
    - destruct (o_pos o <? max); [|done]. apply list_lookup_insert_ne. lia. }
  destruct (decide (i = o_pos o)) as [->|Hne].
  - rewrite decide_False, Eb by lia. rewrite decide_True by lia.
    by rewrite Z.sub_diag.
  - destruct (decide (o_pos o + 1 <= i < o_pos o + 1 + Z.of_nat (length cs))).
    + rewrite decide_True by lia.
      by replace (Z.to_nat (i - o_pos o)) with (S (Z.to_nat (i - (o_pos o + 1)))) by lia.
    + by rewrite decide_False, Eb by lia.
Qed.

(** C29: [dos_format_nstr] prints what the format says.  For every sequence of text
    and conversions ([%d], [%u], [%x], [%X], [%o], [%b], [%s], [%c], [%%], each with
    any of the flags and a width), with signed arguments above -2^31, unsigned ones
    below 2^31 (the code keeps the number in a signed variable and goes wrong
    above), characters from 1 to 255 and an output of less than 2^31 characters, the
    call returns the length of the full output, and the buffer holds the output,
    cut to [size - 1] characters, and a terminating zero behind it.  The output
    ([printed]) is given on its own: the digits of the number in its base, the sign
    or [+] or blank, [0], [0x] or [0X], and blanks or zeros up to the width, on the
    left or on the right. *)
Theorem format_prints buf size ds :
  0 < size <= Z.of_nat (length buf) -> Forall directive_ok ds ->
  let text := concat (map printed ds) in
  Z.of_nat (length text) < 2 ^ 31 ->
  let n := Z.to_nat (Z.min (Z.of_nat (length text)) (size - 1)) in
  exists b, dos_format_nstr (Some buf) size (concat (map render ds))
      (concat (map directive_args ds)) = Done (b, Z.of_nat (length text)) /\
    take n b = take n text /\ b !! n = Some 0 /\ length b = length buf.
Proof.
  intros Hs Hds text Htext n. unfold dos_format_nstr. cbv beta iota zeta. cbn [default from_option id].
  set (fmt := concat (map render ds)). set (args := concat (map directive_args ds)).
  set (st := mk_fstate S_DEFAULT 0 0 0 0 fmt args (mk_out buf 0)).
  destruct (directives_turns size ds st [] []) as (st1 & R1 & Es1 & Ef1 & Ea1 & Eo1);
    try done; [by rewrite app_nil_r | by rewrite app_nil_r |].
  destruct (turns_loop size st st1 (format_fuel fmt) R1) as (fuel & Hfuel & ->).
  { unfold left_over, format_fuel. cbn. lia. }
  destruct fuel as [|fuel]; [lia|]. cbn [format_loop]. unfold format_step.
  rewrite Es1, Ef1. cbn [hd tl Z.eqb S_DEFAULT f_out]. rewrite Eo1. fold text.
  change (_dos_buff_put_char size 0 (put_chars size text (f_out st)))
    with (put_chars size [0] (put_chars size text (mk_out buf 0))).
  rewrite <- put_chars_app.
  destruct (put_chars_spec size (text ++ [0]) (mk_out buf 0)) as [Ep Eb];
    cbn [o_pos o_buf] in *; rewrite ?length_app in *; cbn [length] in *; try lia.
  pose proof (put_chars_within size (text ++ [0]) (mk_out buf 0) ltac:(done)) as [Hl _ _].
  cbn [o_buf] in Hl. set (o := put_chars size (text ++ [0]) (mk_out buf 0)) in *. rewrite Ep.
  replace (u32 (0 + Z.of_nat (length text + 1) - 1)) with (Z.of_nat (length text))
    by (rewrite u32_small; lia).
  rewrite i32_small by lia. eexists. split; [reflexivity|].
  set (m := if Z.of_nat (length text) <? size then length text else Z.to_nat (size - 1)).
  assert (Em : m = n) by (unfold m, n; destruct (Z.ltb_spec (Z.of_nat (length text)) size); lia).
  match goal with |- take n ?b = _ /\ _ => replace b with (<[m := 0]> (o_buf o)) end.
  2: { unfold m. destruct (Z.ltb_spec (Z.of_nat (length text)) size); [by rewrite Nat2Z.id|].
       by rewrite (proj2 (Z.gtb_lt size 0)) by lia. }
  assert (Hn : (n < length buf)%nat) by lia.
  rewrite Em, length_insert, Hl. split_and!; [| apply list_lookup_insert_eq; lia | done].
  rewrite take_insert_ge by done. apply list_eq. intros i.
  destruct (decide (i < n)%nat).
  - rewrite !lookup_take_lt by done. rewrite <- (Nat2Z.id i), Eb by lia.
    rewrite decide_True by lia. rewrite Z.sub_0_r, Nat2Z.id. apply lookup_app_l. lia.
  - rewrite !lookup_ge_None_2; [done| |]; rewrite length_take; lia.
Qed.

(** [%-5d|%08x %s] and so on, into a buffer that is too short. *)
Lemma format_prints_witness :
  exists b, dos_format_nstr (Some (repeat 1 16)) 12
      [37; 45; 53; 100; 124; 37; 35; 120; 32; 37; 115]
      [ArgInt32 (-42); ArgInt32 255; ArgStr (Some [104; 105])] = Done (b, 13) /\
    take 11 b = [45; 52; 50; 32; 32; 124; 48; 120; 102; 102; 32] /\ b !! 11%nat = Some 0 /\
    length b = 16%nat.
Proof.
  apply (format_prints (repeat 1 16) 12
    [Conv [FlagLeft] 5 (ConvDec (-42)); Text [124]; Conv [FlagAlternate] 0 (ConvHex false 255); Text [32];
     Conv [] 0 (ConvStr [104; 105])]).
  - cbn. lia.
  - repeat constructor; cbn; eauto; lia.
  - vm_compute. reflexivity.
Defined.
