(* ===== verification/NetDef.v ===== *)
(** * Byte order and string helpers of the network stack (common/lwip/core/def.c)

    The processor is little endian.  A C string is the list of its characters
    without the terminating zero. *)

From S2P Require Import Prelude.

(** ** Byte order *)

Definition PP_HTONS (x : Z) : Z :=
  u16 (Z.lor (Z.shiftl (Z.land x 0x00ff) 8) (Z.shiftr (Z.land x 0xff00) 8)).

Definition PP_HTONL (x : Z) : Z :=
  u32 (Z.lor (Z.lor (Z.lor (Z.shiftl (Z.land x 0x000000ff) 24) (Z.shiftl (Z.land x 0x0000ff00) 8))
    (Z.shiftr (Z.land x 0x00ff0000) 8)) (Z.shiftr (Z.land x 0xff000000) 24)).

Definition lwip_htons (n : Z) : Z := PP_HTONS n.
Definition lwip_htonl (n : Z) : Z := PP_HTONL n.

(** ** Strings *)

(** The character a pointer into the string points to; zero at its end. *)
Definition char_at (s : list Z) : Z := hd 0 s.

(** [strncmp(p, token, strlen(token)) == 0] *)
Fixpoint has_prefix (token p : list Z) : bool :=
  match token, p with
  | [], _ => true
  | t :: token', c :: p' => (t =? c) && has_prefix token' p'
  | _ :: _, [] => false
  end.

(** The loop of [lwip_strnstr]: [i] is [p - buffer]; the offset found. *)
Fixpoint strnstr_loop (p token : list Z) (i n : Z) : option Z :=
  match p with
  | [] => None
  | c :: p' =>
      if i + Z.of_nat (length token) <=? n then
        if (c =? char_at token) && has_prefix token p then Some i
        else strnstr_loop p' token (i + 1) n
      else None
  end.

Definition lwip_strnstr (buffer token : list Z) (n : Z) : option Z :=
  if Z.of_nat (length token) =? 0 then Some 0 else strnstr_loop buffer token 0 n.

(** One turn of the comparison: [None] to go on, or the value returned. *)
Definition icmp_differ (c1 c2 : Z) : bool :=
  if c1 =? c2 then false
  else
    let c1_upc := Z.lor c1 0x20 in
    if (97 <=? c1_upc) && (c1_upc <=? 122) then negb (c1_upc =? Z.lor c2 0x20) else true.

(** The [do ... while (c1 != 0)] loop; both strings end with a zero, which
    stops it. *)
Fixpoint lwip_stricmp (str1 str2 : list Z) : Z :=
  let c1 := char_at str1 in
  let c2 := char_at str2 in
  if icmp_differ c1 c2 then 1
  else match str1 with
       | [] => 0
       | _ :: str1' => lwip_stricmp str1' (tl str2)
       end.

Fixpoint strnicmp_loop (len : nat) (str1 str2 : list Z) : Z :=
  match len with
  | O => 0
  | S len' =>
      let c1 := char_at str1 in
      if icmp_differ c1 (char_at str2) then 1
      else if c1 =? 0 then 0 else strnicmp_loop len' (tl str1) (tl str2)
  end.

(** The body runs before [len] is tested, and [len] is unsigned: a length of
    zero compares up to 2^32 characters. *)
Definition lwip_strnicmp (str1 str2 : list Z) (len : Z) : Z :=
  if len =? 0 then lwip_stricmp str1 str2
  else strnicmp_loop (Z.to_nat len) str1 str2.

(** ** Numbers *)

(** The loop of [lwip_itoa]: [room] is [tmp - res], and the digits go in front of
    the ones already written. *)
Fixpoint itoa_loop (room : nat) (n : Z) (ds : list Z) : Z * list Z :=
  match room with
  | O => (n, ds)
  | S room' =>
      if n =? 0 then (n, ds) else itoa_loop room' (Z.quot n 10) (48 + Z.rem n 10 :: ds)
  end.

(** The string left in the result buffer, [None] when nothing is written.  A
    number is an [int]; [-number] wraps around for the smallest one. *)
Definition lwip_itoa (bufsize number : Z) : option (list Z) :=
  let n := if number >=? 0 then number
           else (- number + 2 ^ 31) mod 2 ^ 32 - 2 ^ 31 in
  if bufsize <? 2 then (if bufsize =? 1 then Some [] else None)
  else
    let sign := if number <? 0 then [45] else [] in
    let room := Z.to_nat (bufsize - 1 - Z.of_nat (length sign)) in
    let '(rest, ds) := itoa_loop room n [] in
    if negb (rest =? 0) then Some []
    else match ds with
         | [] => Some (sign ++ [48])
         | _ => Some (sign ++ ds)
         end.
