(* ===== verification/Ip4Addr.v ===== *)
(** * IPv4 addresses (common/lwip/core/ipv4/ip4_addr.c)

    An address is the 32-bit number the processor reads from the four bytes in
    network order. *)

From S2P Require Import Prelude NetDef.

Definition IPADDR_ANY : Z := 0x00000000.
Definition IPADDR_BROADCAST : Z := 0xffffffff.
Definition IPADDR_NONE : Z := 0xffffffff.
Definition IP4ADDR_STRLEN_MAX : Z := 16.
Definition NETIF_FLAG_BROADCAST : Z := 0x02.

(** The fields of [struct netif] the functions read. *)
Record netif : Type := mk_netif {
  netif_flags : Z;
  netif_ip4_addr : Z;
  netif_ip4_netmask : Z
}.

Definition ip4_addr_netcmp (addr1 addr2 mask : Z) : bool :=
  Z.land addr1 mask =? Z.land addr2 mask.

Definition ip4_addr_isbroadcast_u32 (addr : Z) (n : netif) : Z :=
  if (not32 addr =? IPADDR_ANY) || (addr =? IPADDR_ANY) then 1
  else if Z.land (netif_flags n) NETIF_FLAG_BROADCAST =? 0 then 0
  else if addr =? netif_ip4_addr n then 0
  else if ip4_addr_netcmp addr (netif_ip4_addr n) (netif_ip4_netmask n) &&
          (Z.land addr (not32 (netif_ip4_netmask n)) =?
           Z.land IPADDR_BROADCAST (not32 (netif_ip4_netmask n)))
  then 1 else 0.

(** ** Netmasks *)

(** [for (; mask != 0; mask >>= 1) if (...) break;] *)
Fixpoint first_zero (fuel : nat) (nm mask : Z) : result Z :=
  match fuel with
  | O => NoFuel
  | S fuel' =>
      if mask =? 0 then Done mask
      else if Z.land nm mask =? 0 then Done mask
      else first_zero fuel' nm (Z.shiftr mask 1)
  end.

Fixpoint no_more_ones (fuel : nat) (nm mask : Z) : result Z :=
  match fuel with
  | O => NoFuel
  | S fuel' =>
      if mask =? 0 then Done 1
      else if negb (Z.land nm mask =? 0) then Done 0
      else no_more_ones fuel' nm (Z.shiftr mask 1)
  end.

(** Both loops halve a mask of 32 bits until it is zero. *)
Definition ip4_addr_netmask_valid (netmask : Z) : result Z :=
  let nm_hostorder := lwip_htonl netmask in
  match first_zero 33 nm_hostorder (Z.shiftl 1 31) with
  | Done mask => no_more_ones 33 nm_hostorder mask
  | Fault => Fault
  | NoFuel => NoFuel
  end.

(** ** From text *)

Definition lwip_isdigit (c : Z) : bool := (48 <=? c) && (c <=? 57).
Definition lwip_islower (c : Z) : bool := (97 <=? c) && (c <=? 122).
Definition lwip_isxdigit (c : Z) : bool :=
  lwip_isdigit c || ((97 <=? c) && (c <=? 102)) || ((65 <=? c) && (c <=? 70)).
Definition lwip_isspace (c : Z) : bool :=
  (c =? 32) || (c =? 12) || (c =? 10) || (c =? 13) || (c =? 9) || (c =? 11).

(** The prefix that selects the base. *)
Definition aton_base (cp : list Z) : Z * list Z :=
  if char_at cp =? 48 then
    if (char_at (tl cp) =? 120) || (char_at (tl cp) =? 88) then (16, tl (tl cp))
    else (8, tl cp)
  else (10, cp).

Fixpoint aton_digits (base val : Z) (cp : list Z) : Z * list Z :=
  match cp with
  | [] => (val, [])
  | c :: cp' =>
      if lwip_isdigit c then aton_digits base (u32 (val * base + (c - 48))) cp'
      else if (base =? 16) && lwip_isxdigit c then
        aton_digits base
          (u32 (Z.lor (Z.shiftl val 4) (c + 10 - (if lwip_islower c then 97 else 65)))) cp'
      else (val, cp)
  end.

(** The outer loop: the parts in front of the last dot, the last value, and what
    follows it.  [more] is the number of dots [parts] has room for. *)
Fixpoint aton_parts (more : nat) (parts : list Z) (cp : list Z) : option (list Z * Z * list Z) :=
  if negb (lwip_isdigit (char_at cp)) then None
  else
    let '(base, cp1) := aton_base cp in
    let '(val, cp2) := aton_digits base 0 cp1 in
    if char_at cp2 =? 46 then
      match more with
      | O => None
      | S more' => aton_parts more' (parts ++ [val]) (tl cp2)
      end
    else Some (parts, val, cp2).

(** [switch (pp - parts + 1)] *)
Definition aton_concoct (parts : list Z) (val : Z) : option Z :=
  match parts with
  | [] => Some val
  | [p0] =>
      if (val >? 0xffffff) || (p0 >? 0xff) then None
      else Some (Z.lor val (u32 (Z.shiftl p0 24)))
  | [p0; p1] =>
      if (val >? 0xffff) || (p0 >? 0xff) || (p1 >? 0xff) then None
      else Some (Z.lor val (Z.lor (u32 (Z.shiftl p0 24)) (u32 (Z.shiftl p1 16))))
  | [p0; p1; p2] =>
      if (val >? 0xff) || (p0 >? 0xff) || (p1 >? 0xff) || (p2 >? 0xff) then None
      else Some (Z.lor val (Z.lor (Z.lor (u32 (Z.shiftl p0 24)) (u32 (Z.shiftl p1 16)))
                              (u32 (Z.shiftl p2 8))))
  | _ => Some val
  end.

(** The address, [None] when the call returns 0. *)
Definition ip4addr_aton (cp : list Z) : option Z :=
  match aton_parts 3 [] cp with
  | None => None
  | Some (parts, val, rest) =>
      if negb (char_at rest =? 0) && negb (lwip_isspace (char_at rest)) then None
      else option_map lwip_htonl (aton_concoct parts val)
  end.

Definition ipaddr_addr (cp : list Z) : Z :=
  match ip4addr_aton cp with Some v => v | None => IPADDR_NONE end.

(** ** To text *)

(** The digits of a byte, least significant first. *)
Fixpoint byte_digits (fuel : nat) (ap : Z) : list Z :=
  match fuel with
  | O => []
  | S fuel' =>
      48 + ap mod 10 :: (if ap / 10 =? 0 then [] else byte_digits fuel' (ap / 10))
  end.

(** [if (len++ >= buflen) return NULL; *rp++ = c;] on the characters written. *)
Definition put (buflen : Z) (o : option (list Z)) (c : Z) : option (list Z) :=
  match o with
  | Some s => if Z.of_nat (length s) >=? buflen then None else Some (s ++ [c])
  | None => None
  end.

(** The four bytes in memory order. *)
Definition addr_bytes (a : Z) : list Z :=
  [u8 a; u8 (Z.shiftr a 8); u8 (Z.shiftr a 16); u8 (Z.shiftr a 24)].

(** The string, without the last dot, whose place the terminating zero takes. *)
Definition ip4addr_ntoa_r (addr buflen : Z) : option (list Z) :=
  match foldl (fun o b => foldl (put buflen) o (rev (byte_digits 3 b) ++ [46]))
          (Some []) (addr_bytes addr) with
  | Some s => Some (removelast s)
  | None => None
  end.

Definition ip4addr_ntoa (addr : Z) : option (list Z) := ip4addr_ntoa_r addr IP4ADDR_STRLEN_MAX.
