(* ===== verification/InetChksum.v ===== *)
(** * Internet checksum (common/lwip/core/inet_chksum.c)

    The three selectable versions of [lwip_standard_chksum], and the checksums
    over buffers, pbuf chains and the pseudo header built on it.  A buffer is the
    list of its bytes together with the address it starts at. *)

From S2P Require Import Prelude NetDef.

(** ** Macros (inet_chksum.h) *)

Definition SWAP_BYTES_IN_WORD (w : Z) : Z :=
  Z.lor (Z.shiftl (Z.land w 0xff) 8) (Z.shiftr (Z.land w 0xff00) 8).

Definition FOLD_U32T (u : Z) : Z := u32 (Z.shiftr u 16 + Z.land u 0x0000ffff).

(** Memory reads of the little endian processor. *)
Definition le16 (b0 b1 : Z) : Z := b0 + b1 * 256.
Definition le32 (b0 b1 b2 b3 : Z) : Z := le16 b0 b1 + le16 b2 b3 * 65536.

(** ** Version 1: byte by byte *)

Fixpoint chksum1_loop (acc : Z) (bs : list Z) : Z :=
  match bs with
  | b0 :: b1 :: bs' => chksum1_loop (u32 (acc + u16 (Z.lor (Z.shiftl b0 8) b1))) bs'
  | [b0] => u32 (acc + u16 (Z.shiftl b0 8))
  | [] => acc
  end.

Definition lwip_standard_chksum1 (bs : list Z) : Z :=
  let acc := chksum1_loop 0 bs in
  let acc := u32 (Z.shiftr acc 16 + Z.land acc 0x0000ffff) in
  let acc := if negb (Z.land acc 0xffff0000 =? 0)
             then u32 (Z.shiftr acc 16 + Z.land acc 0x0000ffff) else acc in
  lwip_htons (u16 acc).

(** ** Version 2: two bytes at a time *)

(** The loop over 16-bit words: the sum and the bytes left, at most one. *)
Fixpoint sum16 (sum : Z) (bs : list Z) : Z * list Z :=
  match bs with
  | b0 :: b1 :: bs' => sum16 (u32 (sum + le16 b0 b1)) bs'
  | _ => (sum, bs)
  end.

(** The first byte of a buffer at an odd address, and the rest. *)
Definition odd_byte (odd : bool) (bs : list Z) : Z * list Z :=
  match odd, bs with
  | true, b :: bs' => (b, bs')
  | _, _ => (0, bs)
  end.

Definition is_odd (addr : Z) : bool := negb (Z.land addr 1 =? 0).

Definition lwip_standard_chksum (addr : Z) (bs : list Z) : Z :=
  let odd := is_odd addr in
  let '(t1, bs1) := odd_byte odd bs in
  let '(sum, bs2) := sum16 0 bs1 in
  let t0 := match bs2 with b :: _ => b | [] => 0 end in
  let sum := u32 (sum + le16 t0 t1) in
  let sum := FOLD_U32T (FOLD_U32T sum) in
  let sum := if odd then SWAP_BYTES_IN_WORD sum else sum in
  u16 sum.

(** ** Version 3: eight bytes at a time *)

(** [tmp = sum + x; if (tmp < sum) tmp++;] *)
Definition add_carry (sum x : Z) : Z :=
  let tmp := u32 (sum + x) in if tmp <? sum then u32 (tmp + 1) else tmp.

Fixpoint sum32 (sum : Z) (bs : list Z) : Z * list Z :=
  match bs with
  | b0 :: b1 :: b2 :: b3 :: b4 :: b5 :: b6 :: b7 :: bs' =>
      sum32 (add_carry (add_carry sum (le32 b0 b1 b2 b3)) (le32 b4 b5 b6 b7)) bs'
  | _ => (sum, bs)
  end.

Definition lwip_standard_chksum3 (addr : Z) (bs : list Z) : Z :=
  let odd := is_odd addr in
  let '(t1, bs1) := odd_byte odd bs in
  let ps := match odd, bs with true, _ :: _ => addr + 1 | _, _ => addr end in
  let '(sum, bs2) :=
    match bs1 with
    | b0 :: b1 :: bs' =>
        if negb (Z.land ps 3 =? 0) then (u32 (0 + le16 b0 b1), bs') else (0, bs1)
    | _ => (0, bs1)
    end in
  let '(sum, bs3) := sum32 sum bs2 in
  let sum := FOLD_U32T sum in
  let '(sum, bs4) := sum16 sum bs3 in
  let t0 := match bs4 with b :: _ => b | [] => 0 end in
  let sum := u32 (sum + le16 t0 t1) in
  let sum := FOLD_U32T (FOLD_U32T sum) in
  let sum := if odd then SWAP_BYTES_IN_WORD sum else sum in
  u16 sum.

(** ** Buffers and pbuf chains *)

Definition inet_chksum (addr : Z) (bs : list Z) : Z :=
  u16 (Z.lnot (lwip_standard_chksum addr bs)).

(** A pbuf: the address and the bytes of its payload ([q->len] of them). *)
Record pbuf : Type := mk_pbuf {
  payload_addr : Z;
  payload : list Z
}.

(** The loop over the chain: the accumulator and [swapped]. *)
Fixpoint chksum_chain (acc : Z) (swapped : bool) (p : list pbuf) : Z * bool :=
  match p with
  | [] => (acc, swapped)
  | q :: p' =>
      let acc := u32 (acc + lwip_standard_chksum (payload_addr q) (payload q)) in
      let acc := FOLD_U32T acc in
      if negb (Z.of_nat (length (payload q)) mod 2 =? 0)
      then chksum_chain (SWAP_BYTES_IN_WORD acc) (negb swapped) p'
      else chksum_chain acc swapped p'
  end.

Definition inet_chksum_pbuf (p : list pbuf) : Z :=
  let '(acc, swapped) := chksum_chain 0 false p in
  let acc := if (swapped : bool) then SWAP_BYTES_IN_WORD acc else acc in
  u16 (Z.lnot (Z.land acc 0xffff)).

Definition inet_cksum_pseudo_base (p : list pbuf) (proto proto_len acc : Z) : Z :=
  let '(acc, swapped) := chksum_chain acc false p in
  let acc := if (swapped : bool) then SWAP_BYTES_IN_WORD acc else acc in
  let acc := u32 (acc + lwip_htons (u16 proto)) in
  let acc := u32 (acc + lwip_htons proto_len) in
  let acc := FOLD_U32T (FOLD_U32T acc) in
  u16 (Z.lnot (Z.land acc 0xffff)).

(** The two halves of an address. *)
Definition add_halves (acc addr : Z) : Z :=
  u32 (u32 (acc + Z.land addr 0xffff) + Z.land (Z.shiftr addr 16) 0xffff).

Definition inet_chksum_pseudo (p : list pbuf) (proto proto_len src dest : Z) : Z :=
  let acc := add_halves (add_halves 0 src) dest in
  inet_cksum_pseudo_base p proto proto_len (FOLD_U32T (FOLD_U32T acc)).

(** The chain cut after [chksum_len] bytes. *)
Fixpoint chksum_partial (acc : Z) (swapped : bool) (chksum_len : Z) (p : list pbuf) : Z * bool :=
  match p with
  | [] => (acc, swapped)
  | q :: p' =>
      if chksum_len >? 0 then
        let chklen := Z.min (Z.of_nat (length (payload q))) chksum_len in
        let acc := u32 (acc + lwip_standard_chksum (payload_addr q)
                                (take (Z.to_nat chklen) (payload q))) in
        let chksum_len := u16 (chksum_len - chklen) in
        let acc := FOLD_U32T acc in
        if negb (Z.of_nat (length (payload q)) mod 2 =? 0)
        then chksum_partial (SWAP_BYTES_IN_WORD acc) (negb swapped) chksum_len p'
        else chksum_partial acc swapped chksum_len p'
      else (acc, swapped)
  end.

Definition inet_cksum_pseudo_partial_base (p : list pbuf) (proto proto_len chksum_len acc : Z) : Z :=
  let '(acc, swapped) := chksum_partial acc false chksum_len p in
  let acc := if (swapped : bool) then SWAP_BYTES_IN_WORD acc else acc in
  let acc := u32 (acc + lwip_htons (u16 proto)) in
  let acc := u32 (acc + lwip_htons proto_len) in
  let acc := FOLD_U32T (FOLD_U32T acc) in
  u16 (Z.lnot (Z.land acc 0xffff)).

Definition inet_chksum_pseudo_partial (p : list pbuf) (proto proto_len chksum_len src dest : Z) : Z :=
  let acc := add_halves (add_halves 0 src) dest in
  inet_cksum_pseudo_partial_base p proto proto_len chksum_len (FOLD_U32T (FOLD_U32T acc)).

(** Without IPv6 the dispatch has one branch. *)
Definition ip_chksum_pseudo (p : list pbuf) (proto proto_len src dest : Z) : Z :=
  inet_chksum_pseudo p proto proto_len src dest.

Definition ip_chksum_pseudo_partial (p : list pbuf) (proto proto_len chksum_len src dest : Z) : Z :=
  inet_chksum_pseudo_partial p proto proto_len chksum_len src dest.
