(* ===== verification/Timeouts.v ===== *)
(** * Timeouts of the network stack (common/lwip/core/timeouts.c)

    The one timeout list of the stack, in the order of expiry.  Times are 32-bit
    milliseconds that wrap around; [now] is what [sys_now] returns.  The handlers
    belong to the protocols: what a call [h(arg)] does to the timeouts is a
    parameter of the functions that call one. *)

From S2P Require Import Prelude.

Definition LWIP_MAX_TIMEOUT : Z := 0x7fffffff.
Definition SYS_TIMEOUTS_SLEEPTIME_INFINITE : Z := 0xffffffff.
Definition TCP_TMR_INTERVAL : Z := 250.

Definition TIME_LESS_THAN (t compare_to : Z) : bool := u32 (t - compare_to) >? LWIP_MAX_TIMEOUT.

(** [struct sys_timeo]; the [next] pointers are the order of the list. *)
Record sys_timeo : Type := mk_timeo {
  time : Z;
  h : Z;
  arg : Z
}.

(** The globals of the file, and the number of free elements of the pool the
    list nodes are taken from ([memp_malloc] returns null when it is zero). *)
Record tstate : Type := mk_tstate {
  next_timeout : list sys_timeo;
  current_timeout_due_time : Z;
  tcpip_tcp_timer_active : bool;
  pool_free : Z
}.

Definition set_timeouts (l : list sys_timeo) (free : Z) (s : tstate) : tstate :=
  mk_tstate l (current_timeout_due_time s) (tcpip_tcp_timer_active s) free.

(** ** The list *)

(** [for (t = next_timeout; t != NULL; t = t->next)] behind the first node. *)
Fixpoint insert_after (new : sys_timeo) (l : list sys_timeo) : list sys_timeo :=
  match l with
  | [] => []
  | t :: l' =>
      match l' with
      | [] => [t; new]
      | t' :: _ =>
          if TIME_LESS_THAN (time new) (time t') then t :: new :: l'
          else t :: insert_after new l'
      end
  end.

Definition sys_timeout_abs (abs_time handler a : Z) (s : tstate) : tstate :=
  if pool_free s =? 0 then s
  else
    let timeout := mk_timeo abs_time handler a in
    let l := match next_timeout s with
             | [] => [timeout]
             | t :: _ =>
                 if TIME_LESS_THAN abs_time (time t) then timeout :: next_timeout s
                 else insert_after timeout (next_timeout s)
             end in
    set_timeouts l (pool_free s - 1) s.

Definition sys_timeout (now msecs handler a : Z) (s : tstate) : tstate :=
  sys_timeout_abs (u32 (now + msecs)) handler a s.

(** The list without the first node that matches, or nothing when there is none. *)
Fixpoint unlink_match (handler a : Z) (l : list sys_timeo) : option (list sys_timeo) :=
  match l with
  | [] => None
  | t :: l' =>
      if (h t =? handler) && (arg t =? a) then Some l'
      else option_map (cons t) (unlink_match handler a l')
  end.

Definition sys_untimeout (handler a : Z) (s : tstate) : tstate :=
  match unlink_match handler a (next_timeout s) with
  | Some l => set_timeouts l (pool_free s + 1) s
  | None => s
  end.

(** ** Expiry *)

Section Handlers.
Context (call : Z -> Z -> tstate -> tstate).

(** One turn of the loop removes the first timeout if it has expired and calls
    its handler, unless that is null. *)
Fixpoint sys_check_timeouts (fuel : nat) (now : Z) (s : tstate) : result tstate :=
  match fuel with
  | O => NoFuel
  | S fuel' =>
      match next_timeout s with
      | [] => Done s
      | t :: l =>
          if TIME_LESS_THAN now (time t) then Done s
          else
            let s1 := mk_tstate l (time t) (tcpip_tcp_timer_active s) (pool_free s + 1) in
            sys_check_timeouts fuel' now
              (if negb (h t =? 0) then call (h t) (arg t) s1 else s1)
      end
  end.
End Handlers.

Definition sys_restart_timeouts (now : Z) (s : tstate) : tstate :=
  match next_timeout s with
  | [] => s
  | t0 :: _ =>
      set_timeouts (map (fun t => mk_timeo (u32 (time t - time t0 + now)) (h t) (arg t))
        (next_timeout s)) (pool_free s) s
  end.

Definition sys_timeouts_sleeptime (now : Z) (s : tstate) : Z :=
  match next_timeout s with
  | [] => SYS_TIMEOUTS_SLEEPTIME_INFINITE
  | t :: _ => if TIME_LESS_THAN (time t) now then 0 else u32 (time t - now)
  end.

(** ** Cyclic timers *)

(** An entry of [lwip_cyclic_timers]: the period and the handler. *)
Record cyclic : Type := mk_cyclic {
  interval_ms : Z;
  cyclic_handler : Z
}.

(** [lwip_cyclic_timer] of the entry at address [a], after its handler was
    called; [self] is the address of [lwip_cyclic_timer], [now] the time after
    the handler. *)
Definition lwip_cyclic_timer (self now a : Z) (c : cyclic) (s : tstate) : tstate :=
  let next_timeout_time := u32 (current_timeout_due_time s + interval_ms c) in
  if TIME_LESS_THAN next_timeout_time now
  then sys_timeout_abs (u32 (now + interval_ms c)) self a s
  else sys_timeout_abs next_timeout_time self a s.

(** The entries behind the first, which TCP starts on demand, with their
    addresses. *)
Definition sys_timeouts_init (self now : Z) (timers : list (Z * cyclic)) (s : tstate) : tstate :=
  foldl (fun s e => sys_timeout now (interval_ms e.2) self e.1 s) s (tl timers).

(** [active] says whether [tcp_active_pcbs] or [tcp_tw_pcbs] is not null, for the
    timer after [tcp_tmr] was called. *)
Definition tcpip_tcp_timer (self now : Z) (active : bool) (s : tstate) : tstate :=
  if active then sys_timeout now TCP_TMR_INTERVAL self 0 s
  else mk_tstate (next_timeout s) (current_timeout_due_time s) false (pool_free s).

Definition tcp_timer_needed (tcpip_tcp_timer_addr now : Z) (active : bool) (s : tstate) : tstate :=
  if negb (tcpip_tcp_timer_active s) && active then
    sys_timeout now TCP_TMR_INTERVAL tcpip_tcp_timer_addr 0
      (mk_tstate (next_timeout s) (current_timeout_due_time s) true (pool_free s))
  else s.
