(* ===== verification/NetSpec.v ===== *)
(** * Byte order and IPv4 addresses: text and numbers

    Writing an address and reading it back is the identity; the netmask check
    accepts exactly a run of ones followed by a run of zeros. *)

From S2P Require Import Prelude NetDef Ip4Addr.

(** ** Bytes of a word *)

(** Masking the byte at bit [k]. *)
Lemma land_byte x k : 0 <= k -> Z.land x (Z.shiftl 0xff k) = Z.shiftl (u8 (Z.shiftr x k)) k.
Proof.
  intros Hk. apply Z.bits_inj'. intros n Hn. rewrite Z.land_spec, !Z.shiftl_spec by lia.
  destruct (decide (n < k)) as [Hlt|Hge].
  { rewrite (Z.testbit_neg_r 255), (Z.testbit_neg_r (u8 _)) by lia. apply andb_false_r. }
  unfold u8. change 255 with (Z.ones 8). rewrite <- Z.land_ones, Z.land_spec, Z.shiftr_spec by lia.
  by replace (n - k + k) with n by lia.
Qed.

(** Disjoint parts can be added. *)
Lemma lor_disjoint a b k : 0 <= k -> 0 <= a < 2 ^ k -> Z.lor a (Z.shiftl b k) = a + b * 2 ^ k.
Proof.
  intros Hk Ha. rewrite <- Z.shiftl_mul_pow2 by done.
  assert (H0 : Z.land a (Z.shiftl b k) = 0).
  { apply Z.bits_inj'. intros n Hn. rewrite Z.land_spec, Z.bits_0, Z.shiftl_spec by done.
    destruct (decide (n < k)).
    - rewrite (Z.testbit_neg_r b) by lia. apply andb_false_r.
    - rewrite <- (Z.mod_small a (2 ^ k)) by done. by rewrite Z.mod_pow2_bits_high by lia. }
  by rewrite <- Z.lxor_lor, Z.add_nocarry_lxor.
Qed.

Definition byte (x : Z) : Prop := 0 <= x < 256.

Lemma u8_byte x : byte (u8 x).
Proof. apply u8_range. Qed.

(** The word with the bytes [a], [b], [c], [d], from the lowest. *)
Definition word4 (a b c d : Z) : Z := a + b * 2 ^ 8 + c * 2 ^ 16 + d * 2 ^ 24.

Lemma word4_range a b c d :
  byte a -> byte b -> byte c -> byte d -> 0 <= word4 a b c d < 2 ^ 32.
Proof. unfold byte, word4. lia. Qed.

Lemma lor4 a b c d :
  byte a -> byte b -> byte c ->
  Z.lor a (Z.lor (Z.lor (Z.shiftl d 24) (Z.shiftl c 16)) (Z.shiftl b 8)) = word4 a b c d.
Proof.
  unfold byte, word4. intros Ha Hb Hc.
  rewrite (Z.lor_comm (Z.lor (Z.shiftl d 24) (Z.shiftl c 16)) (Z.shiftl b 8)).
  rewrite (Z.lor_comm (Z.shiftl d 24)), !Z.lor_assoc.
  rewrite (lor_disjoint a b 8), (lor_disjoint _ c 16), (lor_disjoint _ d 24) by lia. done.
Qed.

Lemma word4_bytes a b c d :
  byte a -> byte b -> byte c -> byte d ->
  u8 (word4 a b c d) = a /\ u8 (Z.shiftr (word4 a b c d) 8) = b /\
  u8 (Z.shiftr (word4 a b c d) 16) = c /\ u8 (Z.shiftr (word4 a b c d) 24) = d.
Proof.
  unfold byte, word4, u8. intros. rewrite !Z.shiftr_div_pow2 by lia.
  split_and!; Z.div_mod_to_equations; lia.
Qed.

Lemma word4_surj x :
  0 <= x < 2 ^ 32 ->
  x = word4 (u8 x) (u8 (Z.shiftr x 8)) (u8 (Z.shiftr x 16)) (u8 (Z.shiftr x 24)).
Proof.
  intros Hx. unfold word4, u8. rewrite !Z.shiftr_div_pow2 by lia.
  Z.div_mod_to_equations. lia.
Qed.

(** [lwip_htonl] reverses the bytes. *)
Lemma htonl_word4 a b c d :
  byte a -> byte b -> byte c -> byte d -> lwip_htonl (word4 a b c d) = word4 d c b a.
Proof.
  intros Ha Hb Hc Hd. unfold lwip_htonl, PP_HTONL.
  destruct (word4_bytes a b c d) as (Ea & Eb & Ec & Ed); try done.
  set (x := word4 a b c d) in *.
  change 255 with (Z.shiftl 255 0). change 65280 with (Z.shiftl 255 8).
  change 16711680 with (Z.shiftl 255 16). change 4278190080 with (Z.shiftl 255 24).
  rewrite !land_byte, Z.shiftr_0_r, Ea, Eb, Ec, Ed, Z.shiftl_0_r by lia.
  rewrite Z.shiftl_shiftl by lia. rewrite !Z.shiftr_shiftl_l by lia.
  change (8 + 8) with 16. change (16 - 8) with 8. change (24 - 24) with 0. rewrite Z.shiftl_0_r.
  rewrite (Z.lor_comm _ d), lor4 by done. apply u32_small, word4_range; done.
Qed.

Lemma htonl_involutive x : 0 <= x < 2 ^ 32 -> lwip_htonl (lwip_htonl x) = x.
Proof.
  intros Hx. rewrite (word4_surj x Hx) at 1.
  rewrite !htonl_word4 by apply u8_byte. by rewrite <- word4_surj.
Qed.

(** ** Dotted decimal *)

Definition byte_text (b : Z) : list Z := rev (byte_digits 3 b).

Definition dotted (a b c d : Z) : list Z :=
  byte_text a ++ 46 :: byte_text b ++ 46 :: byte_text c ++ 46 :: byte_text d.

Lemma foldl_put_none buflen cs : foldl (put buflen) None cs = None.
Proof. by induction cs. Qed.

Lemma foldl_put buflen s cs :
  Z.of_nat (length s) <= buflen ->
  foldl (put buflen) (Some s) cs =
    if Z.of_nat (length s + length cs) <=? buflen then Some (s ++ cs) else None.
Proof.
  revert s. induction cs as [|c cs IH]; intros s Hs; cbn [foldl put length].
  { by rewrite Nat.add_0_r, (proj2 (Z.leb_le _ _)), app_nil_r by lia. }
  rewrite Z.geb_leb. destruct (Z.leb_spec buflen (Z.of_nat (length s))).
  - rewrite foldl_put_none. by rewrite (proj2 (Z.leb_gt _ _)) by lia.
  - rewrite IH by (rewrite length_app; cbn; lia). rewrite length_app, <- app_assoc. cbn [length app].
    by replace (length s + 1 + length cs)%nat with (length s + S (length cs))%nat by lia.
Qed.

Lemma ntoa_text a buflen :
  0 <= buflen ->
  let s := dotted (u8 a) (u8 (Z.shiftr a 8)) (u8 (Z.shiftr a 16)) (u8 (Z.shiftr a 24)) in
  ip4addr_ntoa_r a buflen = if Z.of_nat (length s) <? buflen then Some s else None.
Proof.
  intros Hb s. unfold ip4addr_ntoa_r, addr_bytes. fold (byte_text (u8 a)).
  assert (E : forall bs o, foldl (fun o b => foldl (put buflen) o (rev (byte_digits 3 b) ++ [46])) o bs =
            foldl (put buflen) o (concat (map (fun b => byte_text b ++ [46]) bs))).
  { induction bs as [|b bs IH]; intros o; [done|]. cbn [foldl map concat].
    rewrite IH. symmetry. apply foldl_app. }
  rewrite E, foldl_put by (cbn; lia). clear E. cbn [map concat length app].
  set (w := _ ++ _ ++ _ ++ _ ++ []).
  assert (Ew : w = s ++ [46]).
  { unfold w, s, dotted. repeat (rewrite <- app_assoc || rewrite <- app_comm_cons). done. }
  rewrite Ew, length_app. cbn [length].
  destruct (Z.leb_spec (Z.of_nat (0 + (length s + 1))) buflen);
    destruct (Z.ltb_spec (Z.of_nat (length s)) buflen); try lia; [|done].
  by rewrite removelast_last.
Qed.

(** The text of every byte is read back, in front of a dot or at the end. *)
Definition reads_back (b : Z) : Prop :=
  lwip_isdigit (char_at (byte_text b)) = true /\ (length (byte_text b) <= 3)%nat /\
  byte_text b <> [] /\
  forall rest, rest = [] \/ (exists r, rest = 46 :: r) ->
    let '(base, cp) := aton_base (byte_text b ++ rest) in aton_digits base 0 cp = (b, rest).

Lemma all_bytes (P : Z -> Prop) : Forall P (seqZ 0 256) -> forall b, byte b -> P b.
Proof.
  intros H b Hb. rewrite Forall_forall in H. apply H, elem_of_seqZ. unfold byte in Hb. lia.
Qed.

Lemma byte_text_reads b : byte b -> reads_back b.
Proof.
  apply all_bytes. let l := eval vm_compute in (seqZ 0 256) in change (seqZ 0 256) with l.
  repeat apply Forall_cons_2; try apply Forall_nil_2.
  all: split; [reflexivity|]; split; [apply Nat.leb_le; reflexivity|]; split; [discriminate|].
  all: intros rest [->|[r ->]]; reflexivity.
Qed.

Lemma char_at_text b rest : byte b -> char_at (byte_text b ++ rest) = char_at (byte_text b).
Proof. intros (_ & _ & Hne & _)%byte_text_reads. by destruct (byte_text b). Qed.

Lemma aton_part more parts b rest :
  byte b ->
  aton_parts (S more) parts (byte_text b ++ 46 :: rest) = aton_parts more (parts ++ [b]) rest.
Proof.
  intros Hb. pose proof (byte_text_reads b Hb) as (Hd & _ & _ & Hr).
  specialize (Hr (46 :: rest) ltac:(eauto)). cbn [aton_parts]. rewrite char_at_text, Hd by done.
  cbn [negb]. destruct (aton_base _) as [base cp]. rewrite Hr. done.
Qed.

Lemma aton_last more parts b :
  byte b -> aton_parts more parts (byte_text b) = Some (parts, b, []).
Proof.
  intros Hb. pose proof (byte_text_reads b Hb) as (Hd & _ & _ & Hr).
  specialize (Hr [] ltac:(eauto)). rewrite app_nil_r in Hr.
  destruct more; cbn [aton_parts]; rewrite Hd; cbn [negb];
    destruct (aton_base _) as [base cp]; by rewrite Hr.
Qed.

Lemma aton_dotted a b c d :
  byte a -> byte b -> byte c -> byte d -> ip4addr_aton (dotted a b c d) = Some (word4 a b c d).
Proof.
  intros Ha Hb Hc Hd. unfold ip4addr_aton, dotted. rewrite !aton_part, aton_last by done.
  cbn [app char_at hd Z.eqb negb andb aton_concoct option_map].
  unfold byte in *. rewrite !Z.gtb_ltb, !(proj2 (Z.ltb_ge _ _)) by lia. cbn [orb].
  rewrite !u32_small by (rewrite Z.shiftl_mul_pow2; lia).
  rewrite lor4 by done. cbn [option_map]. by rewrite htonl_word4.
Qed.

(** C38: Writing an IPv4 address and reading it back gives the address, for every
    32-bit address: [ip4addr_ntoa] always fits its static buffer of 16 characters,
    and [ip4addr_aton] and [ipaddr_addr] return the same address, in network
    order, from its text. *)
Theorem ip4_text_roundtrip a :
  0 <= a < 2 ^ 32 ->
  exists s, ip4addr_ntoa a = Some s /\ (length s < 16)%nat /\
    ip4addr_aton s = Some a /\ ipaddr_addr s = a.
Proof.
  intros Ha.
  set (s := dotted (u8 a) (u8 (Z.shiftr a 8)) (u8 (Z.shiftr a 16)) (u8 (Z.shiftr a 24))).
  assert (Hs : ip4addr_aton s = Some a).
  { unfold s. rewrite aton_dotted by apply u8_byte. by rewrite <- word4_surj. }
  assert (Hl : (length s < 16)%nat).
  { unfold s, dotted. repeat (rewrite length_app; cbn [length]).
    destruct (byte_text_reads _ (u8_byte a)) as (_ & ? & _).
    destruct (byte_text_reads _ (u8_byte (Z.shiftr a 8))) as (_ & ? & _).
    destruct (byte_text_reads _ (u8_byte (Z.shiftr a 16))) as (_ & ? & _).
    destruct (byte_text_reads _ (u8_byte (Z.shiftr a 24))) as (_ & ? & _). lia. }
  exists s. unfold ip4addr_ntoa, IP4ADDR_STRLEN_MAX, ipaddr_addr. rewrite Hs, ntoa_text by lia.
  fold s. by rewrite (proj2 (Z.ltb_lt _ _)) by lia.
Qed.

Lemma ip4_text_roundtrip_witness :
  exists s, ip4addr_ntoa 0x0100A8C0 = Some s /\ (length s < 16)%nat /\
    ip4addr_aton s = Some 0x0100A8C0 /\ ipaddr_addr s = 0x0100A8C0.
Proof. apply (ip4_text_roundtrip 0x0100A8C0). lia. Defined.

(** ** Netmasks *)

(** [1 << i], or zero once the bit has been shifted out. *)
Definition mask_at (i : Z) : Z := if i <? 0 then 0 else 2 ^ i.

Lemma mask_at_neg i : i < 0 -> mask_at i = 0.
Proof. intros. unfold mask_at. by rewrite (proj2 (Z.ltb_lt _ _)) by lia. Qed.

Lemma mask_at_nonzero i : 0 <= i -> (mask_at i =? 0) = false.
Proof.
  intros. unfold mask_at. rewrite (proj2 (Z.ltb_ge _ _)) by lia. apply Z.eqb_neq.
  pose proof (Z.pow_pos_nonneg 2 i ltac:(lia) ltac:(lia)). lia.
Qed.

Lemma mask_at_shift i : 0 <= i -> Z.shiftr (mask_at i) 1 = mask_at (i - 1).
Proof.
  intros. unfold mask_at. rewrite (proj2 (Z.ltb_ge i 0)) by lia.
  destruct (Z.ltb_spec (i - 1) 0).
  - by replace i with 0 by lia.
  - rewrite Z.shiftr_div_pow2, <- Z.pow_sub_r by lia. done.
Qed.

Lemma mask_at_land nm i : 0 <= i -> (Z.land nm (mask_at i) =? 0) = negb (Z.testbit nm i).
Proof.
  intros Hi. unfold mask_at. rewrite (proj2 (Z.ltb_ge i 0)) by lia.
  destruct (Z.testbit nm i) eqn:E; cbn [negb].
  - apply Z.eqb_neq. intros H. apply (f_equal (fun z => Z.testbit z i)) in H.
    rewrite Z.land_spec, E, Z.pow2_bits_true, Z.bits_0 in H by lia. done.
  - apply Z.eqb_eq, Z.bits_inj'. intros n Hn. rewrite Z.land_spec, Z.bits_0.
    destruct (decide (n = i)) as [->|Hne]; [by rewrite E|].
    rewrite Z.pow2_bits_false by lia. apply andb_false_r.
Qed.

Lemma first_zero_spec fuel nm i :
  -1 <= i -> i + 2 <= Z.of_nat fuel ->
  exists j, -1 <= j <= i /\ first_zero fuel nm (mask_at i) = Done (mask_at j) /\
    (forall k, j < k <= i -> Z.testbit nm k = true) /\ (0 <= j -> Z.testbit nm j = false).
Proof.
  revert i. induction fuel as [|fuel IH]; intros i Hi Hf; [lia|]. cbn [first_zero].
  destruct (decide (i < 0)).
  { exists i. rewrite mask_at_neg by lia. split_and!; (done || lia). }
  rewrite mask_at_nonzero, mask_at_land by lia. destruct (Z.testbit nm i) eqn:E; cbn [negb].
  - rewrite mask_at_shift by lia. destruct (IH (i - 1)) as (j & Hj & -> & Hk & Hz); [lia | lia |].
    exists j. split_and!; [lia | lia | done | | done]. intros k Hk'.
    destruct (decide (k = i)) as [->|]; [done|]. apply Hk. lia.
  - exists i. split_and!; (done || lia).
Qed.

Lemma no_more_ones_spec fuel nm i :
  -1 <= i -> i + 2 <= Z.of_nat fuel ->
  (no_more_ones fuel nm (mask_at i) = Done 1 /\ forall k, 0 <= k <= i -> Z.testbit nm k = false) \/
  (no_more_ones fuel nm (mask_at i) = Done 0 /\ exists k, 0 <= k <= i /\ Z.testbit nm k = true).
Proof.
  revert i. induction fuel as [|fuel IH]; intros i Hi Hf; [lia|]. cbn [no_more_ones].
  destruct (decide (i < 0)).
  { rewrite mask_at_neg by lia. left. split; [done | lia]. }
  rewrite mask_at_nonzero, mask_at_land, negb_involutive by lia.
  destruct (Z.testbit nm i) eqn:E; [right; split; [done | exists i; split; [lia | done]]|].
  rewrite mask_at_shift by lia. destruct (IH (i - 1)) as [[-> Hk]|[-> (k & Hk & Hb)]]; [lia | lia | |].
  - left. split; [done|]. intros k Hk'. destruct (decide (k = i)) as [->|]; [done|]. apply Hk. lia.
  - right. split; [done|]. exists k. split; [lia | done].
Qed.

(** [n] ones in front of [32 - n] zeros. *)
Definition prefix_mask (n : Z) : Z := 2 ^ 32 - 2 ^ (32 - n).

Lemma prefix_mask_bit n k :
  0 <= n <= 32 -> 0 <= k < 32 -> Z.testbit (prefix_mask n) k = (32 - n <=? k).
Proof.
  intros Hn Hk. unfold prefix_mask.
  replace (2 ^ 32 - 2 ^ (32 - n)) with (Z.shiftl (Z.ones n) (32 - n)).
  - rewrite Z.shiftl_spec by lia. destruct (Z.leb_spec (32 - n) k).
    + rewrite Z.ones_spec_low by lia. done.
    + apply Z.testbit_neg_r. lia.
  - rewrite Z.shiftl_mul_pow2, Z.ones_equiv by lia.
    replace (2 ^ 32) with (2 ^ n * 2 ^ (32 - n)); [lia|]. rewrite <- Z.pow_add_r by lia. f_equal. lia.
Qed.

Lemma prefix_mask_range n : 0 <= n <= 32 -> 0 <= prefix_mask n < 2 ^ 32.
Proof.
  intros Hn. unfold prefix_mask. pose proof (Z.pow_pos_nonneg 2 (32 - n) ltac:(lia) ltac:(lia)).
  pose proof (Z.pow_le_mono_r 2 (32 - n) 32 ltac:(lia) ltac:(lia)). lia.
Qed.

Lemma bits32_eq x y :
  0 <= x < 2 ^ 32 -> 0 <= y < 2 ^ 32 ->
  (forall k, 0 <= k < 32 -> Z.testbit x k = Z.testbit y k) -> x = y.
Proof.
  intros Hx Hy H. apply Z.bits_inj'. intros n Hn. destruct (decide (n < 32)); [apply H; lia|].
  rewrite <- (Z.mod_small x (2 ^ 32)), <- (Z.mod_small y (2 ^ 32)) by lia.
  by rewrite !Z.mod_pow2_bits_high by lia.
Qed.

(** [ip4_addr_netmask_valid] ends for every netmask and returns 1 exactly when
    the netmask, in host order, is a run of ones followed by a run of zeros (a
    prefix length between 0 and 32), and 0 otherwise. *)
Theorem netmask_valid_spec netmask :
  exists r, ip4_addr_netmask_valid netmask = Done r /\ (r = 0 \/ r = 1) /\
    (r = 1 <-> exists n, 0 <= n <= 32 /\ lwip_htonl netmask = prefix_mask n).
Proof.
  unfold ip4_addr_netmask_valid. set (nm := lwip_htonl netmask).
  assert (Hr : 0 <= nm < 2 ^ 32) by apply u32_range.
  change (Z.shiftl 1 31) with (mask_at 31).
  destruct (first_zero_spec 33 nm 31) as (j & Hj & -> & Hones & Hz); [lia | lia |].
  destruct (no_more_ones_spec 33 nm j) as [[-> Hzeros]|[-> (k & Hk & Hb)]]; [lia | lia | |].
  - exists 1. split_and!; [done | by right | split; [intros _ | done]].
    exists (31 - j). split; [lia|]. apply bits32_eq; [done | apply prefix_mask_range; lia |].
    intros k Hk. rewrite prefix_mask_bit by lia. destruct (Z.leb_spec (32 - (31 - j)) k).
    + apply Hones. lia.
    + apply Hzeros. lia.
  - exists 0. split_and!; [done | by left | split; [done|]]. intros (n & Hn & E). exfalso.
    specialize (Hz ltac:(lia)). rewrite E, prefix_mask_bit in Hz, Hb by lia.
    apply Z.leb_gt in Hz. apply Z.leb_le in Hb. lia.
Qed.
