(* ===== verification/ChksumSpec.v ===== *)
(** * The Internet checksum

    All versions of the sum compute the one's complement sum of RFC 1071, at
    every alignment, and the sum over a chain of buffers is the sum over the
    bytes in a row.

    One's complement addition of 16-bit words is addition modulo 65535 in which
    zero is only the sum of zeros; a byte swap multiplies by 256, whose square
    is 1. *)

From S2P Require Import Prelude NetDef Ip4Addr NetSpec InetChksum.

(** ** One's complement numbers *)

(** The representative of a non-negative number among 0 .. 65535. *)
Definition norm (x : Z) : Z := if x =? 0 then 0 else (x - 1) mod 65535 + 1.

Lemma norm_range x : 0 <= norm x <= 65535.
Proof.
  unfold norm. destruct (x =? 0); [lia|]. pose proof (Z.mod_pos_bound (x - 1) 65535 ltac:(lia)). lia.
Qed.

Lemma norm_zero x : norm x = 0 <-> x = 0.
Proof.
  unfold norm. destruct (Z.eqb_spec x 0); [done|].
  pose proof (Z.mod_pos_bound (x - 1) 65535 ltac:(lia)). lia.
Qed.

Lemma norm_mod x : norm x mod 65535 = x mod 65535.
Proof.
  unfold norm. destruct (Z.eqb_spec x 0) as [->|]; [done|].
  rewrite Z.add_mod_idemp_l by lia. f_equal. lia.
Qed.

(** Congruent numbers, zero together. *)
Definition same (x y : Z) : Prop := x mod 65535 = y mod 65535 /\ (x = 0 <-> y = 0).

#[export] Instance same_equiv : Equivalence same.
Proof.
  split; unfold same.
  - done.
  - intros x y [H1 H2]. split; [done | tauto].
  - intros x y z [H1 H2] [H3 H4]. split; [congruence | tauto].
Qed.

Lemma norm_same x : same (norm x) x.
Proof. split; [apply norm_mod | apply norm_zero]. Qed.

Lemma same_small x y : same x y -> 0 <= x <= 65535 -> 0 <= y <= 65535 -> x = y.
Proof. intros [H1 H2] Hx Hy. Z.div_mod_to_equations. lia. Qed.

#[export] Instance norm_proper : Proper (same ==> eq) norm.
Proof.
  intros x y H. apply same_small; [|apply norm_range..].
  etrans; [apply norm_same|]. etrans; [exact H|]. symmetry. apply norm_same.
Qed.

Lemma norm_id x : 0 <= x <= 65535 -> norm x = x.
Proof. intros. apply same_small; [apply norm_same | apply norm_range | done]. Qed.

(** Sums and products respect [same] on non-negative numbers. *)
Lemma same_add x x' y y' :
  0 <= x -> 0 <= y -> 0 <= x' -> 0 <= y' -> same x x' -> same y y' -> same (x + y) (x' + y').
Proof.
  intros Hx Hy Hx' Hy' [H1 H2] [H3 H4]. split; [|lia].
  rewrite Zplus_mod, H1, H3, <- Zplus_mod. done.
Qed.

Lemma same_mul_256 x : same (256 * (256 * x)) x.
Proof.
  split; [|lia]. replace (256 * (256 * x)) with (x + x * 65535) by lia. apply Z_mod_plus_full.
Qed.

Lemma same_mul x y : same x y -> same (256 * x) (256 * y).
Proof. intros [H1 H2]. split; [|lia]. by rewrite Zmult_mod, H1, <- Zmult_mod. Qed.

(** ** Folding and swapping *)

Lemma land_ffff x : Z.land x 0xffff = x mod 65536.
Proof. change 0xffff with (Z.ones 16). by rewrite Z.land_ones by lia. Qed.

Lemma fold_value x : 0 <= x < 2 ^ 32 -> FOLD_U32T x = x / 65536 + x mod 65536.
Proof.
  intros Hx. unfold FOLD_U32T. rewrite land_ffff, Z.shiftr_div_pow2 by lia.
  change (2 ^ 16) with 65536. apply u32_small. Z.div_mod_to_equations. lia.
Qed.

Lemma fold_same x : 0 <= x < 2 ^ 32 -> same (FOLD_U32T x) x.
Proof.
  intros Hx. rewrite fold_value by done. split.
  - pose proof (Z.div_mod x 65536 ltac:(lia)) as E. rewrite E at 3.
    replace (65536 * (x / 65536) + x mod 65536)
      with (x / 65536 + x mod 65536 + (x / 65536) * 65535) by lia.
    symmetry. apply Z_mod_plus_full.
  - Z.div_mod_to_equations. lia.
Qed.

Lemma fold_bound x : 0 <= x < 2 ^ 32 -> 0 <= FOLD_U32T x <= 0x1fffe.
Proof. intros Hx. rewrite fold_value by done. Z.div_mod_to_equations. lia. Qed.

Lemma fold_bound_small x : 0 <= x <= 0x1fffe -> 0 <= FOLD_U32T x <= 0xffff.
Proof. intros Hx. rewrite fold_value by lia. Z.div_mod_to_equations. lia. Qed.

(** Folding twice normalises. *)
Lemma fold_norm x : 0 <= x < 2 ^ 32 -> FOLD_U32T (FOLD_U32T x) = norm x.
Proof.
  intros Hx. pose proof (fold_bound x Hx). apply same_small.
  - etrans; [apply fold_same; lia|]. etrans; [by apply fold_same|]. symmetry. apply norm_same.
  - apply fold_bound_small. lia.
  - apply norm_range.
Qed.

Lemma fold_norm_small x : 0 <= x <= 0x1fffe -> FOLD_U32T x = norm x.
Proof.
  intros Hx. apply same_small; [|by apply fold_bound_small | apply norm_range].
  etrans; [apply fold_same; lia|]. symmetry. apply norm_same.
Qed.

Lemma swap_value w : 0 <= w <= 65535 -> SWAP_BYTES_IN_WORD w = w mod 256 * 256 + w / 256.
Proof.
  intros Hw. unfold SWAP_BYTES_IN_WORD. change 0xff00 with (Z.shiftl 0xff 8).
  rewrite land_byte, Z.shiftr_shiftl_l, Z.shiftl_0_r by lia.
  change 0xff with (Z.ones 8). rewrite Z.land_ones, Z.lor_comm by lia.
  unfold u8. rewrite Z.shiftr_div_pow2 by lia. change (2 ^ 8) with 256.
  rewrite lor_disjoint by (Z.div_mod_to_equations; lia). change (2 ^ 8) with 256.
  Z.div_mod_to_equations. lia.
Qed.

Lemma swap_norm x : SWAP_BYTES_IN_WORD (norm x) = norm (256 * x).
Proof.
  pose proof (norm_range x) as Hr. rewrite swap_value by done. apply same_small; [| |apply norm_range].
  - rewrite (norm_same (256 * x)). etrans; [|apply same_mul, (norm_same x)].
    pose proof (Z.div_mod (norm x) 256 ltac:(lia)) as E. split; [|Z.div_mod_to_equations; lia].
    replace (256 * norm x) with (norm x mod 256 * 256 + norm x / 256 + (norm x / 256) * 65535) by lia.
    symmetry. apply Z_mod_plus_full.
  - Z.div_mod_to_equations. lia.
Qed.

Lemma htons_norm x : lwip_htons (norm x) = norm (256 * x).
Proof.
  rewrite <- swap_norm. unfold lwip_htons, PP_HTONS. fold (SWAP_BYTES_IN_WORD (norm x)).
  apply u16_small. rewrite swap_norm. pose proof (norm_range (256 * x)). lia.
Qed.

(** ** The sum of the words of a buffer *)

(** The 16-bit words in memory order, the last byte padded with a zero. *)
Fixpoint le_sum (bs : list Z) : Z :=
  match bs with
  | b0 :: b1 :: bs' => le16 b0 b1 + le_sum bs'
  | [b] => b
  | [] => 0
  end.

(** RFC 1071, on a little endian processor. *)
Definition ones_sum (bs : list Z) : Z := norm (le_sum bs).

Lemma pairs_ind (P : list Z -> Prop) :
  P [] -> (forall b, P [b]) -> (forall b0 b1 bs, P bs -> P (b0 :: b1 :: bs)) -> forall bs, P bs.
Proof.
  intros H0 H1 H2. fix go 1. intros [|b0 [|b1 bs]]; [exact H0 | exact (H1 b0) | exact (H2 b0 b1 bs (go bs))].
Qed.

Lemma le_sum_nonneg bs : Forall byte bs -> 0 <= le_sum bs.
Proof.
  induction bs as [|b|b0 b1 bs IH] using pairs_ind; intros H; [done | |].
  - apply Forall_cons in H as [[] _]. done.
  - apply Forall_cons in H as [[] [[] Hb]%Forall_cons]. specialize (IH Hb).
    cbn [le_sum]. unfold le16. lia.
Qed.

(** Moving by one byte multiplies by 256. *)
Lemma le_sum_cons b bs : byte b -> Forall byte bs -> same (le_sum (b :: bs)) (b + 256 * le_sum bs).
Proof.
  revert b. induction bs as [|c bs IH]; intros b Hb Hbs; [cbn; by rewrite Z.add_0_r|].
  apply Forall_cons in Hbs as [Hc Hbs]. specialize (IH c Hc Hbs).
  pose proof (le_sum_nonneg bs Hbs). pose proof (le_sum_nonneg (c :: bs) ltac:(by constructor)).
  unfold byte in *. cbn [le_sum]. change (le16 b c) with (b + c * 256).
  assert (S1 : same (b + 256 * le_sum (c :: bs)) (b + 256 * (c + 256 * le_sum bs))).
  { apply same_add; [lia | lia | lia | lia | done | by apply same_mul]. }
  rewrite S1. replace (b + 256 * (c + 256 * le_sum bs))
    with (b + c * 256 + 256 * (256 * le_sum bs)) by lia.
  apply same_add; [lia | lia | lia | lia | done | symmetry; apply same_mul_256].
Qed.

(** The power of 256 a buffer of this length shifts by. *)
Definition shift_by (n : nat) (x : Z) : Z := if Nat.even n then x else 256 * x.

Lemma shift_by_nonneg n x : 0 <= x -> 0 <= shift_by n x.
Proof. unfold shift_by. destruct (Nat.even n); lia. Qed.

Lemma shift_by_S n x : same (shift_by (S n) x) (256 * shift_by n x).
Proof.
  unfold shift_by. rewrite Nat.even_succ, <- Nat.negb_even. destruct (Nat.even n); cbn [negb]; [done|].
  symmetry. apply same_mul_256.
Qed.

Lemma le_sum_app bs bs' :
  Forall byte bs -> Forall byte bs' ->
  same (le_sum (bs ++ bs')) (le_sum bs + shift_by (length bs) (le_sum bs')).
Proof.
  intros Hbs Hbs'. pose proof (le_sum_nonneg bs' Hbs') as H'.
  induction Hbs as [|b bs Hb Hbs IH]; [done|]. cbn [app length].
  pose proof (le_sum_nonneg bs Hbs). pose proof (shift_by_nonneg (length bs) _ H') as Hs.
  pose proof (shift_by_nonneg (S (length bs)) _ H') as Hs'.
  pose proof (le_sum_nonneg (b :: bs) ltac:(by constructor)).
  assert (Hb' := Hb). unfold byte in Hb'.
  assert (Happ : 0 <= le_sum (bs ++ bs')) by (apply le_sum_nonneg, Forall_app; done).
  etrans; [apply le_sum_cons; [done | by apply Forall_app]|].
  etrans; [apply (same_add _ b _ (256 * (le_sum bs + shift_by (length bs) (le_sum bs'))));
    [lia | lia | lia | lia | done | by apply same_mul]|].
  rewrite Z.mul_add_distr_l, Z.add_assoc. apply same_add; try lia.
  - symmetry. by apply le_sum_cons.
  - symmetry. apply shift_by_S.
Qed.

(** ** The loops *)

Definition tail_byte (bs : list Z) : Z := match bs with b :: _ => b | [] => 0 end.

Lemma sum16_spec s bs :
  Forall byte bs -> 0 <= s -> 2 * s + 65535 * Z.of_nat (length bs) < 2 ^ 33 ->
  let '(s', r) := sum16 s bs in
  s' + tail_byte r = s + le_sum bs /\ s <= s' /\ Forall byte r /\
  2 * s' + 65535 * Z.of_nat (length r) <= 2 * s + 65535 * Z.of_nat (length bs) /\ (length r <= 1)%nat.
Proof.
  revert s. induction bs as [|b|b0 b1 bs IH] using pairs_ind; intros s Hb Hs Hl.
  - cbn. split_and!; (done || lia).
  - cbn. split_and!; (done || lia).
  - apply Forall_cons in Hb as [[] [[] Hb]%Forall_cons]. cbn [sum16 length] in *.
    assert (Hw : 0 <= le16 b0 b1 <= 65535) by (unfold le16; lia).
    rewrite u32_small by lia. specialize (IH (s + le16 b0 b1) Hb ltac:(lia) ltac:(lia)).
    destruct (sum16 (s + le16 b0 b1) bs) as [s' r]. cbn [le_sum].
    destruct IH as (E & ? & ? & ? & ?). split_and!; (done || lia).
Qed.

Lemma add_carry_spec s x :
  0 <= s < 2 ^ 32 -> 0 <= x < 2 ^ 32 ->
  same (add_carry s x) (s + x) /\ 0 <= add_carry s x < 2 ^ 32.
Proof.
  intros Hs Hx. unfold add_carry, u32. destruct (decide (s + x < 2 ^ 32)).
  - rewrite Z.mod_small by lia. rewrite (proj2 (Z.ltb_ge _ _)) by lia. split; [done | lia].
  - replace ((s + x) mod 2 ^ 32) with (s + x - 2 ^ 32)
      by (apply Z.mod_unique with 1; lia).
    rewrite (proj2 (Z.ltb_lt _ _)) by lia. rewrite Z.mod_small by lia. split; [|lia].
    split; [|lia]. rewrite <- (Z_mod_plus_full (s + x - 2 ^ 32 + 1) 65537 65535). f_equal. lia.
Qed.

Lemma le32_same b0 b1 b2 b3 :
  byte b0 -> byte b1 -> byte b2 -> byte b3 ->
  same (le32 b0 b1 b2 b3) (le16 b0 b1 + le16 b2 b3) /\ 0 <= le32 b0 b1 b2 b3 < 2 ^ 32.
Proof.
  unfold byte, le32, le16. intros. split; [|lia]. split; [|lia].
  replace (b0 + b1 * 256 + (b2 + b3 * 256) * 65536)
    with (b0 + b1 * 256 + (b2 + b3 * 256) + (b2 + b3 * 256) * 65535) by lia.
  apply Z_mod_plus_full.
Qed.

Lemma eights_ind (P : list Z -> Prop) :
  (forall bs, (length bs <= 7)%nat -> P bs) ->
  (forall b0 b1 b2 b3 b4 b5 b6 b7 bs, P bs ->
     P (b0 :: b1 :: b2 :: b3 :: b4 :: b5 :: b6 :: b7 :: bs)) ->
  forall bs, P bs.
Proof.
  intros H0 H1. fix go 1.
  intros [|b0 [|b1 [|b2 [|b3 [|b4 [|b5 [|b6 [|b7 bs]]]]]]]];
    first [exact (H1 b0 b1 b2 b3 b4 b5 b6 b7 bs (go bs)) | apply H0; cbn; lia].
Qed.

Lemma sum32_short s bs : (length bs <= 7)%nat -> sum32 s bs = (s, bs).
Proof.
  intros H. do 8 (destruct bs as [|? bs]; [done|]). cbn in H. lia.
Qed.

Lemma sum32_spec s bs :
  Forall byte bs -> 0 <= s < 2 ^ 32 ->
  let '(s', r) := sum32 s bs in
  same (s' + le_sum r) (s + le_sum bs) /\ 0 <= s' < 2 ^ 32 /\ Forall byte r /\ (length r <= 7)%nat.
Proof.
  revert s. induction bs as [bs Hl|b0 b1 b2 b3 b4 b5 b6 b7 bs IH] using eights_ind; intros s Hb Hs.
  { by rewrite sum32_short. }
  cbn [sum32]. do 8 (apply Forall_cons in Hb as [? Hb]).
  destruct (le32_same b0 b1 b2 b3) as [E1 R1]; try done.
  destruct (le32_same b4 b5 b6 b7) as [E2 R2]; try done.
  destruct (add_carry_spec s (le32 b0 b1 b2 b3) Hs R1) as [A1 Ra1].
  destruct (add_carry_spec _ (le32 b4 b5 b6 b7) Ra1 R2) as [A2 Ra2].
  specialize (IH _ Hb Ra2). destruct (sum32 _ bs) as [s' r]. destruct IH as (E & Rs & Hr & Hl).
  split_and!; try done; try lia. rewrite E. cbn [le_sum].
  pose proof (le_sum_nonneg bs Hb). unfold byte in *.
  assert (W : forall x y, byte x -> byte y -> 0 <= le16 x y) by (unfold byte, le16; lia).
  pose proof (W b0 b1). pose proof (W b2 b3). pose proof (W b4 b5). pose proof (W b6 b7).
  unfold byte in *.
  replace (s + (le16 b0 b1 + (le16 b2 b3 + (le16 b4 b5 + (le16 b6 b7 + le_sum bs)))))
    with (s + (le16 b0 b1 + le16 b2 b3) + (le16 b4 b5 + le16 b6 b7) + le_sum bs) by lia.
  apply same_add; try lia; [|done]. rewrite A2.
  apply same_add; try lia; [|done]. rewrite A1. apply same_add; try lia; done.
Qed.

(** ** The three versions *)

Lemma odd_byte_spec odd bs :
  Forall byte bs ->
  let '(t1, bs1) := odd_byte odd bs in
  byte t1 /\ Forall byte bs1 /\ (length bs1 <= length bs)%nat /\
  norm (if odd then 256 * (256 * t1 + le_sum bs1) else 256 * t1 + le_sum bs1) = ones_sum bs /\
  (t1 <> 0 -> length bs = S (length bs1)).
Proof.
  intros Hb. assert (B0 : byte 0) by (unfold byte; lia).
  destruct odd, bs as [|b bs]; cbn [odd_byte]; try (split_and!; done || lia).
  apply Forall_cons in Hb as [Hb Hbs]. split_and!; try done; [cbn; lia|].
  unfold ones_sum. apply norm_proper. rewrite le_sum_cons by done.
  pose proof (le_sum_nonneg bs Hbs). unfold byte in *.
  rewrite Z.mul_add_distr_l. apply same_add; try lia; [apply same_mul_256 | done].
Qed.

Lemma finish_norm odd x :
  0 <= x < 2 ^ 32 ->
  u16 (if odd : bool then SWAP_BYTES_IN_WORD (FOLD_U32T (FOLD_U32T x)) else FOLD_U32T (FOLD_U32T x)) =
    norm (if odd then 256 * x else x).
Proof.
  intros Hx. rewrite fold_norm, swap_norm by done.
  pose proof (norm_range x). pose proof (norm_range (256 * x)).
  destruct odd; apply u16_small; lia.
Qed.

Lemma chksum2_spec addr bs :
  Forall byte bs -> Z.of_nat (length bs) <= 0x20000 -> lwip_standard_chksum addr bs = ones_sum bs.
Proof.
  intros Hb Hl. unfold lwip_standard_chksum. set (odd := is_odd addr).
  pose proof (odd_byte_spec odd bs Hb) as H. destruct (odd_byte odd bs) as [t1 bs1].
  destruct H as (Ht & Hb1 & Hl1 & E & Hodd).
  pose proof (sum16_spec 0 bs1 Hb1 ltac:(lia) ltac:(lia)) as Hs.
  destruct (sum16 0 bs1) as [s r]. destruct Hs as (Es & Hs & Hr & Hbound & Hlr).
  fold (tail_byte r). pose proof (le_sum_nonneg bs1 Hb1).
  assert (Htb : byte (tail_byte r)) by (destruct Hr; unfold byte in *; cbn; lia).
  assert (Hsum : s + le16 (tail_byte r) t1 = 256 * t1 + le_sum bs1) by (unfold le16; lia).
  assert (Hx : 0 <= 256 * t1 + le_sum bs1 < 2 ^ 32).
  { unfold byte in *. split; [lia|]. destruct r as [|r0 [|]]; cbn [tail_byte length] in *; lia. }
  rewrite Hsum, u32_small, finish_norm by done. exact E.
Qed.

Lemma chksum3_spec addr bs : Forall byte bs -> lwip_standard_chksum3 addr bs = ones_sum bs.
Proof.
  intros Hb. unfold lwip_standard_chksum3. set (odd := is_odd addr).
  pose proof (odd_byte_spec odd bs Hb) as H. destruct (odd_byte odd bs) as [t1 bs1].
  destruct H as (Ht & Hb1 & _ & E & _). pose proof (le_sum_nonneg bs1 Hb1) as Hn1.
  set (ps := match odd, bs with true, _ :: _ => addr + 1 | _, _ => addr end).
  set (start := match bs1 with b0 :: b1 :: bs' => _ | _ => _ end).
  assert (Hstart : let '(s, bs2) := start in
    s + le_sum bs2 = le_sum bs1 /\ 0 <= s <= 65535 /\ Forall byte bs2).
  { unfold start. destruct bs1 as [|b0 [|b1 bs']]; [done | done |].
    apply Forall_cons in Hb1 as [H0 [H1 Hb']%Forall_cons]. unfold byte in *.
    destruct (negb _); [|split_and!; try lia; repeat (constructor; try done)].
    assert (0 <= le16 b0 b1 <= 65535) by (unfold le16; lia).
    rewrite u32_small by lia. cbn [le_sum]. split_and!; (done || lia). }
  destruct start as [s0 bs2]. destruct Hstart as (E0 & R0 & Hb2).
  pose proof (sum32_spec s0 bs2 Hb2 ltac:(lia)) as H32. destruct (sum32 s0 bs2) as [s1 bs3].
  destruct H32 as (E1 & R1 & Hb3 & L3). pose proof (fold_bound s1 R1) as Rf.
  pose proof (fold_same s1 R1) as Ef. pose proof (le_sum_nonneg bs3 Hb3) as Hn3.
  pose proof (sum16_spec (FOLD_U32T s1) bs3 Hb3 ltac:(lia) ltac:(lia)) as Hs.
  destruct (sum16 (FOLD_U32T s1) bs3) as [s r]. destruct Hs as (Es & Hs & Hr & Hbound & Hlr).
  fold (tail_byte r).
  assert (Htb : byte (tail_byte r)) by (destruct Hr; unfold byte in *; cbn; lia).
  unfold byte in *.
  assert (Hx : 0 <= s + le16 (tail_byte r) t1 < 2 ^ 32) by (unfold le16; lia).
  rewrite u32_small, finish_norm by done. rewrite <- E. apply norm_proper.
  assert (S : same (s + le16 (tail_byte r) t1) (256 * t1 + le_sum bs1)).
  { replace (s + le16 (tail_byte r) t1) with (256 * t1 + (FOLD_U32T s1 + le_sum bs3))
      by (unfold le16; lia).
    apply same_add; [lia | lia | lia | lia | done |]. rewrite <- E0, <- E1.
    apply same_add; [lia | lia | lia | lia | done | done]. }
  destruct odd; [by apply same_mul | done].
Qed.

(** Version 1 sums the words in network order. *)
Fixpoint be_sum (bs : list Z) : Z :=
  match bs with
  | b0 :: b1 :: bs' => b0 * 256 + b1 + be_sum bs'
  | [b] => b * 256
  | [] => 0
  end.

Lemma be_sum_le bs : Forall byte bs -> 0 <= be_sum bs /\ same (256 * be_sum bs) (le_sum bs).
Proof.
  induction bs as [|b|b0 b1 bs IH] using pairs_ind; intros H; [done | |].
  - apply Forall_cons in H as [Hb _]. unfold byte in Hb. cbn [be_sum le_sum]. split; [lia|].
    replace (256 * (b * 256)) with (256 * (256 * b)) by lia. apply same_mul_256.
  - apply Forall_cons in H as [H0 [H1 Hb]%Forall_cons]. destruct (IH Hb) as [Hn E].
    pose proof (le_sum_nonneg bs Hb). unfold byte in *. cbn [be_sum le_sum]. split; [lia|].
    unfold le16. rewrite Z.mul_add_distr_l. apply same_add; try lia; [|done].
    split; [|lia]. rewrite <- (Z_mod_plus_full (b0 + b1 * 256) b0 65535). f_equal. lia.
Qed.

Lemma lor_byte b0 b1 : byte b0 -> byte b1 -> u16 (Z.lor (Z.shiftl b0 8) b1) = b0 * 256 + b1.
Proof.
  unfold byte. intros. rewrite Z.lor_comm, lor_disjoint, u16_small by lia. lia.
Qed.

Lemma chksum1_loop_spec acc bs :
  Forall byte bs -> 0 <= acc -> 2 * acc + 65535 * Z.of_nat (length bs) < 2 ^ 33 - 65535 ->
  chksum1_loop acc bs = acc + be_sum bs /\ 0 <= acc + be_sum bs < 2 ^ 32.
Proof.
  revert acc. induction bs as [|b|b0 b1 bs IH] using pairs_ind; intros acc H Ha Hl.
  - cbn in *. lia.
  - apply Forall_cons in H as [Hb _]. unfold byte in Hb. cbn [chksum1_loop be_sum length] in *.
    rewrite Z.shiftl_mul_pow2, u16_small, u32_small by lia. lia.
  - apply Forall_cons in H as [H0 [H1 Hb]%Forall_cons]. cbn [chksum1_loop be_sum length] in *.
    rewrite lor_byte by done. unfold byte in *. rewrite u32_small by lia.
    destruct (IH (acc + (b0 * 256 + b1))) as [-> ?]; [done | lia | lia |]. lia.
Qed.

Lemma chksum1_spec bs :
  Forall byte bs -> Z.of_nat (length bs) <= 0x20000 -> lwip_standard_chksum1 bs = ones_sum bs.
Proof.
  intros Hb Hl. unfold lwip_standard_chksum1.
  destruct (be_sum_le bs Hb) as [Hn E].
  assert (Hloop : chksum1_loop 0 bs = be_sum bs /\ be_sum bs < 2 ^ 32).
  { destruct (chksum1_loop_spec 0 bs Hb) as [? ?]; lia. }
  destruct Hloop as [-> Hlt]. fold (FOLD_U32T (be_sum bs)).
  pose proof (fold_bound (be_sum bs) ltac:(lia)) as Hf.
  assert (Hfold : (if negb (Z.land (FOLD_U32T (be_sum bs)) 0xffff0000 =? 0)
    then FOLD_U32T (FOLD_U32T (be_sum bs)) else FOLD_U32T (be_sum bs)) = norm (be_sum bs)).
  { destruct (Z.eqb_spec (Z.land (FOLD_U32T (be_sum bs)) 0xffff0000) 0) as [Hz|Hz]; cbn [negb];
      [|apply fold_norm; lia].
    apply same_small; [|split; [lia|] | apply norm_range].
    - etrans; [apply fold_same; lia|]. symmetry. apply norm_same.
    - destruct (decide (FOLD_U32T (be_sum bs) <= 65535)); [done|]. exfalso.
      apply (f_equal (fun z => Z.testbit z 16)) in Hz.
      rewrite Z.land_spec, Z.bits_0 in Hz.
      assert (Hlog : Z.log2 (FOLD_U32T (be_sum bs)) = 16) by (apply Z.log2_unique; lia).
      rewrite <- Hlog in Hz at 1. rewrite Z.bit_log2 in Hz by lia. done. }
  cbv zeta. fold (FOLD_U32T (FOLD_U32T (be_sum bs))). rewrite Hfold.
  pose proof (norm_range (be_sum bs)). rewrite u16_small, htons_norm by lia.
  by apply norm_proper.
Qed.

(** The three versions of [lwip_standard_chksum] (byte by byte, two and eight
    bytes at a time with carries added back) agree, at every alignment of the
    buffer and for every length up to 0x20000, and compute the one's complement
    sum of RFC 1071. *)
Theorem chksum_versions_agree addr bs :
  Forall byte bs -> Z.of_nat (length bs) <= 0x20000 ->
  lwip_standard_chksum addr bs = ones_sum bs /\
  lwip_standard_chksum1 bs = ones_sum bs /\
  lwip_standard_chksum3 addr bs = ones_sum bs.
Proof. intros. split_and!; [by apply chksum2_spec | by apply chksum1_spec | by apply chksum3_spec]. Qed.

Definition sample : list Z := [69; 0; 0; 115; 0; 0; 64; 0; 64; 17; 184; 97; 192; 168; 0; 1; 192].

Lemma bytes_check bs : forallb (fun b => (0 <=? b) && (b <? 256)) bs = true -> Forall byte bs.
Proof.
  rewrite forallb_forall. intros H. apply Forall_forall. intros b Hb%list_elem_of_In.
  apply H, andb_true_iff in Hb as [?%Z.leb_le ?%Z.ltb_lt]. done.
Qed.

Lemma chksum_versions_agree_witness :
  lwip_standard_chksum 0x20000001 sample = ones_sum sample /\
  lwip_standard_chksum1 sample = ones_sum sample /\
  lwip_standard_chksum3 0x20000001 sample = ones_sum sample.
Proof. apply chksum_versions_agree; [apply bytes_check; reflexivity | cbn; lia]. Defined.

(** ** Chains *)

Lemma shift_by_add n x y : shift_by n (x + y) = shift_by n x + shift_by n y.
Proof. unfold shift_by. destruct (Nat.even n); lia. Qed.

Lemma shift_by_same n x y : same x y -> same (shift_by n x) (shift_by n y).
Proof. unfold shift_by. destruct (Nat.even n); [done | apply same_mul]. Qed.

Lemma shift_by_plus n m x : same (shift_by (n + m) x) (shift_by m (shift_by n x)).
Proof.
  unfold shift_by. rewrite Nat.even_add. destruct (Nat.even n), (Nat.even m); cbn; try done.
  symmetry. apply same_mul_256.
Qed.

Lemma shift_by_twice n x : same (shift_by n (shift_by n x)) x.
Proof. unfold shift_by. destruct (Nat.even n); [done | apply same_mul_256]. Qed.

Lemma odd_length n : negb (Z.of_nat n mod 2 =? 0) = negb (Nat.even n).
Proof.
  rewrite Zmod_even. f_equal. replace (Z.even (Z.of_nat n)) with (Nat.even n).
  - by destruct (Nat.even n).
  - induction n as [|n IH]; [done|]. rewrite Nat2Z.inj_succ, Z.even_succ, Nat.even_succ.
    by rewrite <- Nat.negb_even, <- Z.negb_even, IH.
Qed.

Definition pbuf_ok (q : pbuf) : Prop :=
  Forall byte (payload q) /\ Z.of_nat (length (payload q)) <= 0xffff.

Definition chain_bytes (p : list pbuf) : list Z := concat (map payload p).

Lemma chain_bytes_ok p : Forall pbuf_ok p -> Forall byte (chain_bytes p).
Proof.
  induction 1 as [|q p [Hq _] _ IH]; [constructor|]. by apply Forall_app.
Qed.

(** The accumulator stands for the bytes so far, shifted by their number. *)
Lemma chksum_chain_spec x sw p :
  0 <= x -> Forall pbuf_ok p ->
  chksum_chain (norm x) sw p =
    (norm (shift_by (length (chain_bytes p)) (x + le_sum (chain_bytes p))),
     xorb sw (negb (Nat.even (length (chain_bytes p))))).
Proof.
  intros Hx Hp. revert x sw Hx. induction Hp as [|q p [Hq Hl] Hp IH]; intros x sw Hx.
  { cbn. by rewrite Z.add_0_r, xorb_false_r. }
  cbn [chksum_chain]. rewrite chksum2_spec, odd_length by (done || lia).
  pose proof (norm_range x). pose proof (norm_range (le_sum (payload q))). unfold ones_sum.
  pose proof (le_sum_nonneg _ Hq) as Hn. pose proof (chain_bytes_ok p Hp) as Hc.
  pose proof (le_sum_nonneg _ Hc) as Hcn.
  rewrite u32_small, fold_norm_small by lia.
  assert (E : norm (norm x + norm (le_sum (payload q))) = norm (x + le_sum (payload q))).
  { apply norm_proper, same_add; try lia; apply norm_same. }
  pose proof (shift_by_nonneg (length (payload q))) as Hsh.
  rewrite E, swap_norm. change (chain_bytes (q :: p)) with (payload q ++ chain_bytes p).
  rewrite length_app.
  assert (Hstep : chksum_chain (norm (shift_by (length (payload q)) (x + le_sum (payload q))))
      (xorb sw (negb (Nat.even (length (payload q))))) p =
    (norm (shift_by (length (payload q) + length (chain_bytes p))
            (x + le_sum (payload q ++ chain_bytes p))),
     xorb sw (negb (Nat.even (length (payload q) + length (chain_bytes p)))))).
  { rewrite IH by (apply shift_by_nonneg; lia). f_equal.
    - apply norm_proper. rewrite shift_by_plus. apply shift_by_same.
      transitivity (shift_by (length (payload q)) (x + le_sum (payload q) +
        shift_by (length (payload q)) (le_sum (chain_bytes p)))).
      + rewrite (shift_by_add _ (x + _)).
        apply same_add; [apply Hsh; lia | done | apply Hsh; lia | by apply Hsh, Hsh | done
          | symmetry; apply shift_by_twice].
      + apply shift_by_same. rewrite <- Z.add_assoc. specialize (Hsh _ Hcn).
        apply same_add; [done | lia | done | by apply le_sum_nonneg, Forall_app | done
          | symmetry; by apply le_sum_app].
    - rewrite Nat.even_add.
      destruct sw, (Nat.even (length (payload q))), (Nat.even (length (chain_bytes p))); done. }
  rewrite <- Hstep. unfold shift_by.
  destruct (Nat.even (length (payload q))); cbn [negb]; [by rewrite xorb_false_r | by rewrite xorb_true_r].
Qed.

(** The chain put together, with what was in the accumulator. *)
Lemma chain_total x p :
  0 <= x -> Forall pbuf_ok p ->
  (let '(acc, swapped) := chksum_chain (norm x) false p in
   if (swapped : bool) then SWAP_BYTES_IN_WORD acc else acc) = norm (x + le_sum (chain_bytes p)).
Proof.
  intros Hx Hp. rewrite chksum_chain_spec by done. rewrite xorb_false_l. unfold shift_by.
  destruct (Nat.even _); cbn [negb]; [done|]. rewrite swap_norm. apply norm_proper, same_mul_256.
Qed.

Definition complement (x : Z) : Z := u16 (Z.lnot x).

Lemma complement_value x : 0 <= x <= 65535 -> complement x = 65535 - x.
Proof.
  intros Hx. unfold complement, u16. change (2 ^ 16) with 65536.
  replace (Z.lnot x) with (65535 - x + (-1) * 65536) by (unfold Z.lnot; lia).
  rewrite Z_mod_plus_full. apply Z.mod_small. lia.
Qed.

Lemma complement_masked x :
  0 <= x <= 65535 -> u16 (Z.lnot (Z.land x 0xffff)) = complement x.
Proof. intros. by rewrite land_ffff, Z.mod_small by lia. Qed.

Lemma inet_chksum_spec addr bs :
  Forall byte bs -> Z.of_nat (length bs) <= 0x20000 ->
  inet_chksum addr bs = complement (ones_sum bs).
Proof. intros. unfold inet_chksum. by rewrite chksum2_spec. Qed.

Lemma htons_value x : 0 <= x <= 65535 -> lwip_htons x = le16 (x / 256) (x mod 256).
Proof.
  intros Hx. unfold lwip_htons, PP_HTONS. fold (SWAP_BYTES_IN_WORD x).
  rewrite swap_value by done. unfold le16. rewrite u16_small; Z.div_mod_to_equations; lia.
Qed.

(** The IPv4 pseudo header: the two addresses, a zero, the protocol and the
    length, all in network order. *)
Definition pseudo_header (proto proto_len src dest : Z) : list Z :=
  addr_bytes src ++ addr_bytes dest ++
  [0; proto; proto_len / 256; proto_len mod 256].

Lemma add_halves_spec acc a :
  0 <= a < 2 ^ 32 -> 0 <= acc <= 0x20000 ->
  add_halves acc a = acc + le_sum (addr_bytes a) /\
  0 <= le_sum (addr_bytes a) <= 0x1fffe /\ Forall byte (addr_bytes a).
Proof.
  intros Ha Hacc. unfold add_halves, addr_bytes.
  rewrite !land_ffff.
  pose proof (word4_surj a Ha) as E. unfold word4 in E.
  pose proof (u8_byte a) as B0. pose proof (u8_byte (Z.shiftr a 8)) as B1.
  pose proof (u8_byte (Z.shiftr a 16)) as B2. pose proof (u8_byte (Z.shiftr a 24)) as B3.
  cbn [le_sum]. unfold le16, byte in *.
  set (b0 := u8 a) in *. set (b1 := u8 (Z.shiftr a 8)) in *.
  set (b2 := u8 (Z.shiftr a 16)) in *. set (b3 := u8 (Z.shiftr a 24)) in *.
  assert (Elo : a mod 65536 = b0 + b1 * 256) by (Z.div_mod_to_equations; lia).
  assert (Ehi : Z.shiftr a 16 mod 65536 = b2 + b3 * 256)
    by (rewrite Z.shiftr_div_pow2 by lia; Z.div_mod_to_equations; lia).
  rewrite Elo, Ehi, (u32_small (acc + _)), u32_small by lia. split_and!; [lia | lia | lia |].
  repeat (constructor; [done|]). constructor.
Qed.

(** C36: The checksum over a chain of buffers does not depend on how the data is
    cut into buffers or on their alignment: [inet_chksum_pbuf] returns the checksum
    of the bytes in a row, and [inet_chksum_pseudo], which TCP and UDP use, that of
    the IPv4 pseudo header followed by these bytes. *)
Theorem chksum_chain_flat p proto proto_len src dest addr :
  Forall pbuf_ok p -> Z.of_nat (length (chain_bytes p)) <= 0xffff ->
  byte proto -> 0 <= proto_len <= 0xffff -> 0 <= src < 2 ^ 32 -> 0 <= dest < 2 ^ 32 ->
  inet_chksum_pbuf p = inet_chksum addr (chain_bytes p) /\
  inet_chksum_pseudo p proto proto_len src dest =
    inet_chksum addr (pseudo_header proto proto_len src dest ++ chain_bytes p).
Proof.
  intros Hp Hl Hproto Hlen Hsrc Hdest. pose proof (chain_bytes_ok p Hp) as Hb.
  pose proof (le_sum_nonneg _ Hb) as Hn. split.
  { unfold inet_chksum_pbuf. pose proof (chain_total 0 p ltac:(lia) Hp) as Ht.
    change (norm 0) with 0 in Ht. destruct (chksum_chain 0 false p) as [acc sw]. rewrite Ht.
    pose proof (norm_range (0 + le_sum (chain_bytes p))).
    rewrite complement_masked, inet_chksum_spec by (done || lia). done. }
  destruct (add_halves_spec 0 src Hsrc ltac:(lia)) as (E1 & R1 & B1).
  destruct (add_halves_spec (0 + le_sum (addr_bytes src)) dest Hdest ltac:(lia))
    as (E2 & R2 & B2).
  unfold inet_chksum_pseudo. rewrite E1, E2, fold_norm by lia.
  set (x := 0 + le_sum (addr_bytes src) + le_sum (addr_bytes dest)).
  assert (Hhl : byte (proto_len / 256) /\ byte (proto_len mod 256))
    by (unfold byte; Z.div_mod_to_equations; lia).
  assert (Hhdr : Forall byte (pseudo_header proto proto_len src dest)).
  { unfold pseudo_header. repeat (apply Forall_app; split; [done|]).
    repeat constructor; unfold byte in *; try done; lia. }
  rewrite inet_chksum_spec;
    [|by apply Forall_app | rewrite length_app; cbn [length pseudo_header app addr_bytes]; lia].
  unfold inet_cksum_pseudo_base.
  pose proof (chain_total x p ltac:(lia) Hp) as Ht.
  destruct (chksum_chain (norm x) false p) as [acc sw]. rewrite Ht.
  pose proof (norm_range (x + le_sum (chain_bytes p))) as Hr. unfold byte in Hproto.
  rewrite (u16_small proto), !htons_value by lia.
  assert (Hw : forall a b, byte a -> byte b -> 0 <= le16 a b <= 65535) by (unfold byte, le16; lia).
  pose proof (Hw _ _ (proj1 Hhl) (proj2 Hhl)) as W1.
  assert (W2 : 0 <= le16 (proto / 256) (proto mod 256) <= 65535)
    by (apply Hw; unfold byte; Z.div_mod_to_equations; lia).
  rewrite (u32_small (norm _ + _)), u32_small, fold_norm by lia.
  rewrite complement_masked by apply norm_range. unfold ones_sum. f_equal. apply norm_proper.
  symmetry. etrans; [by apply le_sum_app|]. unfold shift_by. cbn [length pseudo_header app addr_bytes Nat.even].
  assert (Eh : le_sum (pseudo_header proto proto_len src dest) =
    x + le16 (proto / 256) (proto mod 256) + le16 (proto_len / 256) (proto_len mod 256)).
  { unfold x, pseudo_header. cbn [app addr_bytes le_sum].
    rewrite (Z.div_small proto), (Z.mod_small proto) by lia. lia. }
  unfold pseudo_header in Eh. cbn [app addr_bytes] in Eh. rewrite Eh.
  transitivity (x + le_sum (chain_bytes p) + le16 (proto / 256) (proto mod 256) +
    le16 (proto_len / 256) (proto_len mod 256)); [by rewrite <- !Z.add_assoc, (Z.add_comm (le_sum (chain_bytes p))), !Z.add_assoc|].
  apply same_add; try lia; [|done]. apply same_add; try lia; [|done]. symmetry. apply norm_same.
Qed.

Definition sample_chain : list pbuf :=
  [mk_pbuf 0x20000000 [1; 2; 3]; mk_pbuf 0x20000011 [4; 5]; mk_pbuf 0x20000022 [6; 7; 8; 9; 10]].

Lemma chksum_chain_flat_witness :
  inet_chksum_pbuf sample_chain = inet_chksum 0 [1; 2; 3; 4; 5; 6; 7; 8; 9; 10] /\
  inet_chksum_pseudo sample_chain 17 10 0x0100A8C0 0x0200A8C0 =
    inet_chksum 0 ([192; 168; 0; 1; 192; 168; 0; 2; 0; 17; 0; 10] ++ [1; 2; 3; 4; 5; 6; 7; 8; 9; 10]).
Proof.
  apply (chksum_chain_flat sample_chain 17 10 0x0100A8C0 0x0200A8C0 0).
  - repeat constructor; try (apply bytes_check; reflexivity); cbn; lia.
  - cbn. lia.
  - unfold byte. lia.
  - lia.
  - lia.
  - lia.
Defined.

(** C37: A packet that carries its checksum passes the check of the receiver: when
    the checksum computed with a zero field is stored, as the processor stores it,
    at an even position, the checksum over the packet is zero, at any alignment. *)
Theorem chksum_verifies addr addr' pre post :
  Forall byte pre -> Forall byte post -> Nat.even (length pre) = true ->
  Z.of_nat (length (pre ++ [0; 0] ++ post)) <= 0x20000 ->
  let c := inet_chksum addr (pre ++ [0; 0] ++ post) in
  inet_chksum addr' (pre ++ [c mod 256; c / 256] ++ post) = 0.
Proof.
  intros Hpre Hpost Heven Hlen c. assert (B0 : byte 0) by (unfold byte; lia).
  assert (Hz : Forall byte (pre ++ [0; 0] ++ post)) by (repeat (apply Forall_app; split); auto).
  pose proof (norm_range (le_sum (pre ++ [0; 0] ++ post))) as Hr.
  assert (Ec : c = 65535 - norm (le_sum (pre ++ [0; 0] ++ post))).
  { unfold c. rewrite inet_chksum_spec by done. by apply complement_value. }
  assert (Hc : 0 <= c <= 65535) by lia.
  assert (Bc : byte (c mod 256) /\ byte (c / 256)) by (unfold byte; Z.div_mod_to_equations; lia).
  assert (Hnew : Forall byte (pre ++ [c mod 256; c / 256] ++ post)).
  { repeat (apply Forall_app; split); auto. repeat constructor; apply Bc. }
  rewrite inet_chksum_spec by (done || (rewrite !length_app in *; cbn [length] in *; lia)).
  rewrite complement_value by apply norm_range. unfold ones_sum.
  assert (Hsum : forall lo hi, byte lo -> byte hi ->
    same (le_sum (pre ++ [lo; hi] ++ post)) (le_sum pre + (le16 lo hi + le_sum post))).
  { intros lo hi Hlo Hhi. etrans.
    - apply le_sum_app; [done|]. by apply Forall_cons; split; [|apply Forall_cons; split].
    - unfold shift_by. by rewrite Heven. }
  pose proof (le_sum_nonneg _ Hz) as Hnz.
  assert (S : same (le_sum (pre ++ [c mod 256; c / 256] ++ post))
                (le_sum (pre ++ [0; 0] ++ post) + c)).
  { rewrite Hsum by apply Bc. pose proof (le_sum_nonneg _ Hpre). pose proof (le_sum_nonneg _ Hpost).
    replace (le_sum pre + (le16 (c mod 256) (c / 256) + le_sum post))
      with (le_sum pre + (le16 0 0 + le_sum post) + c)
      by (unfold le16; Z.div_mod_to_equations; lia).
    apply same_add; [unfold le16; lia | lia | lia | lia | symmetry; by apply Hsum | done]. }
  rewrite (norm_proper _ _ S). assert (Hmod := norm_mod (le_sum (pre ++ [0; 0] ++ post))).
  set (z := le_sum (pre ++ [0; 0] ++ post)) in *.
  assert (norm (z + c) = 65535); [|lia]. apply same_small; [|apply norm_range | lia].
  rewrite norm_same. split; [|rewrite Ec; pose proof (norm_zero z); lia].
  replace (z + c) with (z - norm z + 65535) by lia.
  rewrite Zplus_mod, Zminus_mod, Hmod, Z.sub_diag. done.
Qed.

Lemma chksum_verifies_witness :
  let c := inet_chksum 0x20000000 ([69; 0; 0; 60] ++ [0; 0] ++ [192; 168; 1]) in
  inet_chksum 0x20000003 ([69; 0; 0; 60] ++ [c mod 256; c / 256] ++ [192; 168; 1]) = 0.
Proof.
  apply (chksum_verifies 0x20000000 0x20000003 [69; 0; 0; 60] [192; 168; 1]);
    [apply bytes_check; reflexivity | apply bytes_check; reflexivity | reflexivity | cbn; lia].
Defined.
