(* ===== verification/TimeoutsSpec.v ===== *)
(** * The timeouts of the network stack fire in order

    Times are compared modulo 2^32.  As long as all times lie in a window of 2^31
    milliseconds behind some base, the list is sorted by the distance from the
    base, and expiry takes exactly the timeouts that are due, in order. *)

From S2P Require Import Prelude Timeouts.

Section Window.
Context (base : Z).

(** Milliseconds behind the base. *)
Definition after_base (x : Z) : Z := u32 (x - base).
Definition due_at (t : sys_timeo) : Z := after_base (time t).

Definition in_window (x : Z) : Prop := after_base x <= LWIP_MAX_TIMEOUT.

Record timers_ok (l : list sys_timeo) : Prop := {
  to_sorted : StronglySorted (fun t t' => due_at t <= due_at t') l;
  to_window : Forall (fun t => in_window (time t)) l
}.

Lemma time_less_than x y :
  in_window x -> in_window y -> TIME_LESS_THAN x y = (after_base x <? after_base y).
Proof.
  unfold in_window, after_base, TIME_LESS_THAN, LWIP_MAX_TIMEOUT, u32. intros Hx Hy.
  assert (E : (x - y) mod 2 ^ 32 = ((x - base) mod 2 ^ 32 - (y - base) mod 2 ^ 32) mod 2 ^ 32).
  { rewrite <- Zminus_mod. f_equal. lia. }
  rewrite E, Z.gtb_ltb. clear E.
  pose proof (Z.mod_pos_bound (x - base) (2 ^ 32) ltac:(lia)) as Rx.
  pose proof (Z.mod_pos_bound (y - base) (2 ^ 32) ltac:(lia)) as Ry.
  generalize dependent ((x - base) mod 2 ^ 32). intros dx Hx Rx.
  generalize dependent ((y - base) mod 2 ^ 32). intros dy Hy Ry.
  destruct (Z.ltb_spec dx dy).
  - replace ((dx - dy) mod 2 ^ 32) with (dx - dy + 2 ^ 32) by (apply Z.mod_unique with (-1); lia).
    apply Z.ltb_lt. lia.
  - rewrite Z.mod_small by lia. apply Z.ltb_ge. lia.
Qed.

(** ** Insertion *)

(** [t] behind all timeouts that expire no later. *)
Fixpoint insert_timeo (t : sys_timeo) (l : list sys_timeo) : list sys_timeo :=
  match l with
  | [] => [t]
  | t' :: l' => if due_at t <? due_at t' then t :: l else t' :: insert_timeo t l'
  end.

Lemma insert_after_spec new t l :
  Forall (fun t => in_window (time t)) (t :: l) -> in_window (time new) ->
  insert_after new (t :: l) = t :: insert_timeo new l.
Proof.
  intros Hw Hn. revert t Hw. induction l as [|t' l IH]; intros t Hw; [done|].
  apply Forall_cons in Hw as [_ Hw]. pose proof Hw as [Ht' _]%Forall_cons.
  change (insert_after new (t :: t' :: l)) with
    (if TIME_LESS_THAN (time new) (time t') then t :: new :: t' :: l
     else t :: insert_after new (t' :: l)).
  rewrite time_less_than, IH by done. cbn [insert_timeo]. unfold due_at. by destruct (_ <? _).
Qed.

Lemma sys_timeout_abs_spec abs_time hd a s :
  Forall (fun t => in_window (time t)) (next_timeout s) -> in_window abs_time -> pool_free s <> 0 ->
  sys_timeout_abs abs_time hd a s =
    set_timeouts (insert_timeo (mk_timeo abs_time hd a) (next_timeout s)) (pool_free s - 1) s.
Proof.
  intros Hw Hn Hp. unfold sys_timeout_abs. rewrite (proj2 (Z.eqb_neq _ _) Hp). f_equal.
  destruct (next_timeout s) as [|t l]; [done|].
  rewrite insert_after_spec, time_less_than by (done || by apply Forall_cons in Hw as [??]).
  done.
Qed.

Lemma insert_timeo_perm t l : insert_timeo t l ≡ₚ t :: l.
Proof.
  induction l as [|t' l IH]; [done|]. cbn. destruct (_ <? _); [done|].
  rewrite IH. apply Permutation_swap.
Qed.

Lemma insert_timeo_ok t l : timers_ok l -> in_window (time t) -> timers_ok (insert_timeo t l).
Proof.
  intros [Hs Hw] Ht. split; [|rewrite insert_timeo_perm; by constructor].
  clear Hw. induction Hs as [|t' l Hs IH Hle]; cbn; [repeat constructor|].
  destruct (Z.ltb_spec (due_at t) (due_at t')).
  - constructor; [by constructor|]. constructor; [lia|].
    eapply Forall_impl; [exact Hle|]. cbn. intros. lia.
  - constructor; [done|]. rewrite insert_timeo_perm. constructor; [done | exact Hle].
Qed.

(** Timeouts that are not yet due do not change those that are. *)
Definition due_now (now : Z) (t : sys_timeo) : Prop := due_at t <= after_base now.

#[export] Instance due_now_dec now t : Decision (due_now now t).
Proof. unfold due_now. apply _. Defined.

Lemma insert_timeo_due now t l :
  after_base now < due_at t -> filter (due_now now) (insert_timeo t l) = filter (due_now now) l.
Proof.
  intros Ht. assert (Hn : ~ due_now now t) by (unfold due_now; lia).
  induction l as [|t' l IH]; cbn [insert_timeo].
  - by rewrite filter_cons_False.
  - destruct (_ <? _).
    + by rewrite filter_cons_False.
    + rewrite !filter_cons. case_decide; by rewrite IH.
Qed.

(** ** Expiry *)

(** A handler may change the list as long as it stays sorted and the timeouts
    due now stay as they are; starting a timeout that is due later is such a
    change. *)
Definition polite (now : Z) (call : Z -> Z -> tstate -> tstate) : Prop :=
  forall hd a s, timers_ok (next_timeout s) ->
    timers_ok (next_timeout (call hd a s)) /\
    filter (due_now now) (next_timeout (call hd a s)) = filter (due_now now) (next_timeout s).

(** The first timeout expires. *)
Definition expire (call : Z -> Z -> tstate -> tstate) (s : tstate) : tstate :=
  match next_timeout s with
  | [] => s
  | t :: l =>
      let s1 := mk_tstate l (time t) (tcpip_tcp_timer_active s) (pool_free s + 1) in
      if negb (h t =? 0) then call (h t) (arg t) s1 else s1
  end.

Definition expire_n (call : Z -> Z -> tstate -> tstate) (n : nat) (s : tstate) : tstate :=
  Nat.iter n (expire call) s.

Lemma timers_ok_tail t l : timers_ok (t :: l) -> timers_ok l.
Proof.
  intros [Hs Hw]. split; [by apply StronglySorted_inv in Hs as [??] | by apply Forall_cons in Hw as [??]].
Qed.

Lemma expire_ok now call s t l :
  polite now call -> timers_ok (next_timeout s) -> next_timeout s = t :: l ->
  timers_ok (next_timeout (expire call s)) /\
  filter (due_now now) (next_timeout (expire call s)) = filter (due_now now) l.
Proof.
  intros Hc Hok E. unfold expire. rewrite E in *. pose proof (timers_ok_tail _ _ Hok).
  destruct (negb (h t =? 0)); [|done].
  apply (Hc _ _ (mk_tstate l (time t) (tcpip_tcp_timer_active s) (pool_free s + 1))). done.
Qed.

(** A sorted list starts with the timeouts that are due. *)
Lemma not_due_first now t l :
  timers_ok (t :: l) -> ~ due_now now t -> filter (due_now now) (t :: l) = [].
Proof.
  intros [Hs _] Ht. apply StronglySorted_inv in Hs as [_ Hle].
  rewrite filter_cons_False by done. apply elem_of_nil_inv. intros x [Hx Hin]%list_elem_of_filter.
  rewrite Forall_forall in Hle. specialize (Hle x Hin). unfold due_now in *. lia.
Qed.

Lemma check_timeouts_run now call n s fuel :
  polite now call -> in_window now -> timers_ok (next_timeout s) ->
  length (filter (due_now now) (next_timeout s)) = n -> (n < fuel)%nat ->
  sys_check_timeouts call fuel now s = Done (expire_n call n s) /\
  timers_ok (next_timeout (expire_n call n s)) /\
  Forall (fun t => ~ due_now now t) (next_timeout (expire_n call n s)) /\
  forall i, (i < n)%nat ->
    head (next_timeout (expire_n call i s)) = filter (due_now now) (next_timeout s) !! i.
Proof.
  intros Hc Hnow. revert n s. induction fuel as [|fuel IH]; intros n s Hok Hn Hf; [lia|].
  cbn [sys_check_timeouts]. destruct (next_timeout s) as [|t l] eqn:E.
  { cbn in Hn. subst n. cbn. rewrite E. split_and!; try done; intros; lia. }
  pose proof Hok as [Hs Hw]. apply Forall_cons in Hw as [Ht Hw].
  rewrite time_less_than by done.
  assert (Hd : (after_base now <? after_base (time t)) = negb (bool_decide (due_now now t))).
  { unfold due_now, due_at. destruct (Z.ltb_spec (after_base now) (after_base (time t))).
    - by rewrite bool_decide_false by lia.
    - by rewrite bool_decide_true by lia. }
  rewrite Hd. destruct (decide (due_now now t)) as [Hdue|Hdue].
  - rewrite bool_decide_true by done. cbn [negb].
    rewrite filter_cons_True in Hn by done. destruct n as [|n]; [done|]. injection Hn as Hn.
    destruct (expire_ok now call s t l Hc) as [Hok1 Hf1]; [by rewrite E | done |].
    assert (Ex : (if negb (h t =? 0) then call (h t) (arg t)
        (mk_tstate l (time t) (tcpip_tcp_timer_active s) (pool_free s + 1))
      else mk_tstate l (time t) (tcpip_tcp_timer_active s) (pool_free s + 1)) = expire call s).
    { unfold expire. by rewrite E. }
    cbv zeta. rewrite Ex. unfold expire_n in *. rewrite Nat.iter_succ_r.
    destruct (IH n (expire call s)) as (-> & Hok' & Hnd & Htrace); [done | by rewrite Hf1 | lia |].
    split_and!; try done. intros i Hi. rewrite filter_cons_True by done. destruct i as [|i].
    + cbn. by rewrite E.
    + rewrite Nat.iter_succ_r, Htrace, Hf1 by lia. done.
  - rewrite bool_decide_false by done. cbn [negb].
    pose proof (not_due_first now t l Hok Hdue) as Hnil. rewrite Hnil in Hn. cbn in Hn. subst n.
    cbn. rewrite E. split_and!; try done; [|intros; lia].
    apply Forall_forall. intros x Hx Hdx.
    assert (Hin : x ∈ filter (due_now now) (t :: l)) by (by apply list_elem_of_filter).
    rewrite Hnil in Hin. by apply not_elem_of_nil in Hin.
Qed.
End Window.

Lemma insert_timeo_split base t l :
  StronglySorted (fun t t' => due_at base t <= due_at base t') l ->
  exists l1 l2, l = l1 ++ l2 /\ insert_timeo base t l = l1 ++ t :: l2 /\
    Forall (fun t' => due_at base t' <= due_at base t) l1 /\
    Forall (fun t' => due_at base t < due_at base t') l2.
Proof.
  induction 1 as [|t' l Hs IH Hle]; cbn; [by exists [], []|].
  destruct (Z.ltb_spec (due_at base t) (due_at base t')) as [Hlt|Hge].
  - exists [], (t' :: l). split_and!; try done. constructor; [done|].
    eapply Forall_impl; [exact Hle|]. cbn. intros. lia.
  - destruct IH as (l1 & l2 & -> & -> & H1 & H2). exists (t' :: l1), l2.
    split_and!; try done. by constructor.
Qed.

(** Starting a timeout keeps the list sorted across the wrap-around of the
    clock: whenever all expiry times lie within 2^31 milliseconds behind some
    base, [sys_timeout] puts the new one behind every timeout that expires no later
    and in front of every one that expires later. *)
Theorem timeout_start_sorted base now msecs hd a s :
  timers_ok base (next_timeout s) -> in_window base (u32 (now + msecs)) -> pool_free s <> 0 ->
  let new := mk_timeo (u32 (now + msecs)) hd a in
  exists l1 l2, next_timeout s = l1 ++ l2 /\
    next_timeout (sys_timeout now msecs hd a s) = l1 ++ new :: l2 /\
    Forall (fun t => due_at base t <= due_at base new) l1 /\
    Forall (fun t => due_at base new < due_at base t) l2 /\
    timers_ok base (next_timeout (sys_timeout now msecs hd a s)) /\
    pool_free (sys_timeout now msecs hd a s) = pool_free s - 1.
Proof.
  intros Hok Hn Hp new. unfold sys_timeout.
  rewrite (sys_timeout_abs_spec base) by (done || apply (to_window _ _ Hok)). fold new. cbn.
  destruct (insert_timeo_split base new _ (to_sorted _ _ Hok)) as (l1 & l2 & E & E' & H1 & H2).
  exists l1, l2. split_and!; try done. by apply insert_timeo_ok.
Qed.

(** Three timeouts around the wrap-around of the clock. *)
Definition sample_timers : tstate :=
  mk_tstate [mk_timeo 0xFFFFFF00 1 0; mk_timeo 0xFFFFFFF0 2 0; mk_timeo 100 3 0] 0 false 3.

Lemma sample_timers_ok : timers_ok 0xFFFFFF00 (next_timeout sample_timers).
Proof.
  split.
  - repeat constructor; vm_compute; discriminate.
  - repeat constructor; vm_compute; discriminate.
Qed.

Lemma timeout_start_sorted_witness :
  exists l1 l2, next_timeout sample_timers = l1 ++ l2 /\
    next_timeout (sys_timeout 0xFFFFFFF8 50 9 0 sample_timers) = l1 ++ mk_timeo 42 9 0 :: l2.
Proof.
  destruct (timeout_start_sorted 0xFFFFFF00 0xFFFFFFF8 50 9 0 sample_timers)
    as (l1 & l2 & E & E' & _).
  - exact sample_timers_ok.
  - vm_compute. discriminate.
  - discriminate.
  - exists l1, l2. split; [exact E | exact E'].
Defined.

(** C39: [sys_check_timeouts] ends and fires exactly the timeouts that are due.
    The list is sorted by expiry, and the expiry times and the current time lie in
    one window of 2^31 milliseconds ([in_window]), in which the wrap-around
    comparison of the code is an order.  For every behaviour of the handlers that does not touch the timeouts due now
    (starting timeouts that expire later, as the cyclic timers do, is allowed), the
    loop takes as many turns as timeouts are due, the handler called in each turn
    is that of the next due timeout in order of expiry, and afterwards no timeout
    in the list is due and the list is sorted. *)
Theorem timeouts_fire base now call s :
  polite base now call -> in_window base now -> timers_ok base (next_timeout s) ->
  let due := filter (due_now base now) (next_timeout s) in
  let s' := expire_n call (length due) s in
  sys_check_timeouts call (S (length due)) now s = Done s' /\
  (forall i, (i < length due)%nat -> head (next_timeout (expire_n call i s)) = due !! i) /\
  Forall (fun t => ~ due_now base now t) (next_timeout s') /\ timers_ok base (next_timeout s').
Proof.
  intros Hc Hn Hok due s'.
  destruct (check_timeouts_run base now call (length due) s (S (length due)) Hc Hn Hok eq_refl
    (Nat.lt_succ_diag_r _)) as (H1 & H2 & H3 & H4). split_and!; done.
Qed.

(** Handlers that start themselves again 250 ms later are polite. *)
Lemma restart_polite base now :
  in_window base (u32 (now + 250)) -> after_base base now < after_base base (u32 (now + 250)) ->
  polite base now (fun hd a s => sys_timeout now 250 hd a s).
Proof.
  intros Hw Hlt hd a s Hok. unfold sys_timeout.
  destruct (decide (pool_free s = 0)) as [Hp|Hp].
  { unfold sys_timeout_abs. by rewrite (proj2 (Z.eqb_eq _ _) Hp). }
  rewrite (sys_timeout_abs_spec base) by (done || apply (to_window _ _ Hok)). cbn.
  split; [by apply insert_timeo_ok | by apply insert_timeo_due].
Qed.

Lemma timeouts_fire_witness :
  let call := fun hd a s => sys_timeout 0xFFFFFFF8 250 hd a s in
  sys_check_timeouts call 3 0xFFFFFFF8 sample_timers = Done (expire_n call 2 sample_timers).
Proof.
  apply (timeouts_fire 0xFFFFFF00 0xFFFFFFF8 (fun hd a s => sys_timeout 0xFFFFFFF8 250 hd a s)
    sample_timers).
  - apply restart_polite; vm_compute; [discriminate | reflexivity].
  - vm_compute. discriminate.
  - exact sample_timers_ok.
Defined.
