(* ===== verification/LwipMem.v ===== *)
(** * Heap of the network stack (common/lwip/core/mem.c, include/lwip/mem.h)

    The heap of lwIP in the configuration of lwipopts.h: its own allocator
    ([MEM_LIBC_MALLOC] and [MEM_USE_POOLS] are 0), without guard regions, sanity
    checks and statistics, with a 16-bit [mem_size_t].  A state holds the globals
    of the file and the block headers ([struct mem]) by address; reading a header
    where none was written is a [Fault].  The address of the array [ram_heap] is
    chosen by the linker: it is an argument of [mem_init].

    Every access to the heap is made with [mem_mutex] held: an operation is what
    runs between the lock and the unlock.  A failed [LWIP_ASSERT] prints and goes
    on ([LWIP_PLATFORM_ASSERT] of cc.h), so assertions have no effect here. *)

From S2P Require Import Prelude.

Definition MEM_ALIGNMENT : Z := 4.
Definition MEM_SIZE : Z := 25 * 1024.
Definition MIN_SIZE : Z := 12.
(** [sizeof(struct mem)]: two 16-bit offsets and a byte, padded. *)
Definition sizeof_mem : Z := 6.

Definition LWIP_MEM_ALIGN_SIZE (size : Z) : Z :=
  Z.land (u32 (size + MEM_ALIGNMENT - 1)) (not32 (MEM_ALIGNMENT - 1)).
Definition LWIP_MEM_ALIGN (addr : Z) : Z :=
  Z.land (u32 (addr + MEM_ALIGNMENT - 1)) (not32 (MEM_ALIGNMENT - 1)).

Definition MIN_SIZE_ALIGNED : Z := LWIP_MEM_ALIGN_SIZE MIN_SIZE.
Definition SIZEOF_STRUCT_MEM : Z := LWIP_MEM_ALIGN_SIZE sizeof_mem.
Definition MEM_SIZE_ALIGNED : Z := LWIP_MEM_ALIGN_SIZE MEM_SIZE.

(** [struct mem] *)
Record mem : Type := mk_mem {
  next : Z;
  prev : Z;
  used : Z
}.

Record lwip_heap : Type := mk_lwip_heap {
  ram : Z;
  ram_end : Z;
  lfree : Z;
  mems : gmap Z mem
}.

Definition set_lfree (a : Z) (h : lwip_heap) : lwip_heap := mk_lwip_heap (ram h) (ram_end h) a (mems h).
Definition put_mem (a : Z) (m : mem) (h : lwip_heap) : lwip_heap :=
  mk_lwip_heap (ram h) (ram_end h) (lfree h) (<[a := m]> (mems h)).
Definition set_next (x : Z) (m : mem) : mem := mk_mem x (prev m) (used m).
Definition set_prev (x : Z) (m : mem) : mem := mk_mem (next m) x (used m).
Definition set_used (x : Z) (m : mem) : mem := mk_mem (next m) (prev m) x.

Definition mem_at (a : Z) : prog lwip_heap mem := deref (fun h => mems h !! a).
Definition upd_mem (a : Z) (f : mem -> mem) : prog lwip_heap unit :=
  m ← mem_at a; modify (put_mem a (f m)).

Definition ptr_to_mem (ptr : Z) : prog lwip_heap Z := gets (fun h => u32 (ram h + ptr)).
Definition mem_to_ptr (mem : Z) : prog lwip_heap Z := gets (fun h => u16 (mem - ram h)).

(** [ptr_to_mem(ptr)->prev = x] *)
Definition link_prev (ptr x : Z) : prog lwip_heap unit :=
  a ← ptr_to_mem ptr; upd_mem a (set_prev x).

(** ** Releasing *)

(** The block at [mem] is extended up to the offset [nxt]. *)
Definition skip_next (mem nxt : Z) : prog lwip_heap unit :=
  upd_mem mem (set_next nxt);;
  if negb (nxt =? MEM_SIZE_ALIGNED) then p ← mem_to_ptr mem; link_prev nxt p else mret tt.

(** "Plug hole forward": the block behind is unused and not the end. *)
Definition plug_next (mem : Z) : prog lwip_heap unit :=
  m ← mem_at mem;
  nmem ← ptr_to_mem (next m);
  nm ← mem_at nmem;
  e ← gets ram_end;
  if negb (mem =? nmem) && (used nm =? 0) && negb (nmem =? e) then
    lf ← gets lfree;
    (if lf =? nmem then modify (set_lfree mem) else mret tt);;
    skip_next mem (next nm)
  else mret tt.

(** "Plug hole backward": the block before is unused. *)
Definition plug_prev (mem : Z) : prog lwip_heap unit :=
  m ← mem_at mem;
  pmem ← ptr_to_mem (prev m);
  pm ← mem_at pmem;
  if negb (pmem =? mem) && (used pm =? 0) then
    lf ← gets lfree;
    (if lf =? mem then modify (set_lfree pmem) else mret tt);;
    skip_next pmem (next m)
  else mret tt.

Definition plug_holes (mem : Z) : prog lwip_heap unit := plug_next mem;; plug_prev mem.

Definition mem_init (ram_heap : Z) : prog lwip_heap unit :=
  let ram := LWIP_MEM_ALIGN ram_heap in
  modify (fun h => mk_lwip_heap ram (ram_end h) (lfree h) (mems h));;
  modify (put_mem ram (mk_mem MEM_SIZE_ALIGNED 0 0));;
  e ← ptr_to_mem MEM_SIZE_ALIGNED;
  modify (fun h => mk_lwip_heap ram e (lfree h) (mems h));;
  modify (put_mem e (mk_mem MEM_SIZE_ALIGNED MEM_SIZE_ALIGNED 1));;
  modify (set_lfree ram).

(** The condition is evaluated from the left and stops at the first true part. *)
Definition mem_link_valid (mem : Z) : prog lwip_heap bool :=
  rmem_idx ← mem_to_ptr mem;
  m ← mem_at mem;
  nmem ← ptr_to_mem (next m);
  pmem ← ptr_to_mem (prev m);
  e ← gets ram_end;
  if (next m >? MEM_SIZE_ALIGNED) || (prev m >? MEM_SIZE_ALIGNED) then mret false
  else
    bad ← (if negb (prev m =? rmem_idx) then
             pm ← mem_at pmem; mret (negb (next pm =? rmem_idx))
           else mret false);
    if (bad : bool) then mret false
    else if negb (nmem =? e) then
      nm ← mem_at nmem; mret (prev nm =? rmem_idx)
    else mret true.

Definition mem_free (rmem : Z) : prog lwip_heap unit :=
  if rmem =? 0 then mret tt
  else if negb (Z.land rmem (MEM_ALIGNMENT - 1) =? 0) then mret tt
  else
    let mem := u32 (rmem - SIZEOF_STRUCT_MEM) in
    r ← gets ram; e ← gets ram_end;
    if (mem <? r) || (u32 (rmem + MIN_SIZE_ALIGNED) >? e) then mret tt
    else
      m ← mem_at mem;
      if used m =? 0 then mret tt
      else
        valid ← mem_link_valid mem;
        if negb valid then mret tt
        else
          upd_mem mem (set_used 0);;
          lf ← gets lfree;
          (if mem <? lf then modify (set_lfree mem) else mret tt);;
          plug_holes mem.

(** ** Shrinking *)

(** A free block is written at [ptr2], between the block at [ptr] and the one at
    the offset [nxt]. *)
Definition new_mem2 (mem ptr ptr2 nxt : Z) : prog lwip_heap unit :=
  mem2 ← ptr_to_mem ptr2;
  modify (put_mem mem2 (mk_mem nxt ptr 0));;
  upd_mem mem (set_next ptr2).

(** [mem_trim] of a block of [size] bytes to [newsize] bytes: the free block behind
    is moved, or a new one is made of the rest when it is large enough. *)
Definition trim_tail (m : mem) (rmem mem ptr newsize size : Z) : prog lwip_heap Z :=
  mem2 ← ptr_to_mem (next m);
  m2 ← mem_at mem2;
  let ptr2 := u16 (ptr + SIZEOF_STRUCT_MEM + newsize) in
  if used m2 =? 0 then
    lf ← gets lfree;
    (if lf =? mem2 then a ← ptr_to_mem ptr2; modify (set_lfree a) else mret tt);;
    new_mem2 mem ptr ptr2 (next m2);;
    (if negb (next m2 =? MEM_SIZE_ALIGNED) then link_prev (next m2) ptr2 else mret tt);;
    mret rmem
  else if u32 (newsize + SIZEOF_STRUCT_MEM + MIN_SIZE_ALIGNED) <=? size then
    a ← ptr_to_mem ptr2;
    lf ← gets lfree;
    (if a <? lf then modify (set_lfree a) else mret tt);;
    new_mem2 mem ptr ptr2 (next m);;
    (if negb (next m =? MEM_SIZE_ALIGNED) then link_prev (next m) ptr2 else mret tt);;
    mret rmem
  else mret rmem.

Definition mem_trim (rmem new_size : Z) : prog lwip_heap Z :=
  let newsize := u16 (LWIP_MEM_ALIGN_SIZE new_size) in
  let newsize := if newsize <? MIN_SIZE_ALIGNED then MIN_SIZE_ALIGNED else newsize in
  if (newsize >? MEM_SIZE_ALIGNED) || (newsize <? new_size) then mret 0
  else
    r ← gets ram; e ← gets ram_end;
    if (rmem <? r) || (rmem >=? e) then mret rmem
    else
      let mem := u32 (rmem - SIZEOF_STRUCT_MEM) in
      ptr ← mem_to_ptr mem;
      m ← mem_at mem;
      let size := u16 (u16 (next m - ptr) - SIZEOF_STRUCT_MEM) in
      if newsize >? size then mret 0
      else if newsize =? size then mret rmem
      else trim_tail m rmem mem ptr newsize size.

(** ** Allocation *)

(** [while (cur->used && cur != ram_end)] *)
Fixpoint next_free (fuel : nat) (cur : Z) : prog lwip_heap Z :=
  match fuel with
  | O => fun _ => NoFuel
  | S fuel' =>
      c ← mem_at cur;
      e ← gets ram_end;
      if negb (used c =? 0) && negb (cur =? e)
      then a ← ptr_to_mem (next c); next_free fuel' a
      else mret cur
  end.

Definition heap_fuel (h : lwip_heap) : nat := S (S (base.size (mems h))).

Definition adjust_lfree (mem : Z) : prog lwip_heap unit :=
  lf ← gets lfree;
  if mem =? lf then
    fuel ← gets heap_fuel;
    cur ← next_free fuel lf;
    modify (set_lfree cur)
  else mret tt.

(** The block at [ptr] is taken, split when the rest can be a block. *)
Definition take_mem (m : mem) (mem ptr size : Z) : prog lwip_heap unit :=
  if u32 (next m - u32 (ptr + SIZEOF_STRUCT_MEM)) >=? u32 (size + SIZEOF_STRUCT_MEM + MIN_SIZE_ALIGNED) then
    let ptr2 := u16 (ptr + SIZEOF_STRUCT_MEM + size) in
    new_mem2 mem ptr ptr2 (next m);;
    upd_mem mem (set_used 1);;
    (if negb (next m =? MEM_SIZE_ALIGNED) then link_prev (next m) ptr2 else mret tt)
  else upd_mem mem (set_used 1).

(** [for (ptr = mem_to_ptr(lfree); ptr < MEM_SIZE_ALIGNED - size; ptr = ptr_to_mem(ptr)->next)] *)
Fixpoint malloc_loop (fuel : nat) (ptr size : Z) : prog lwip_heap Z :=
  match fuel with
  | O => fun _ => NoFuel
  | S fuel' =>
      if ptr <? u32 (MEM_SIZE_ALIGNED - size) then
        mem ← ptr_to_mem ptr;
        m ← mem_at mem;
        if (used m =? 0) && (u32 (next m - u32 (ptr + SIZEOF_STRUCT_MEM)) >=? size) then
          take_mem m mem ptr size;;
          adjust_lfree mem;;
          mret (u32 (mem + SIZEOF_STRUCT_MEM))
        else malloc_loop fuel' (next m) size
      else mret 0
  end.

Definition mem_malloc (size_in : Z) : prog lwip_heap Z :=
  if size_in =? 0 then mret 0
  else
    let size := u16 (LWIP_MEM_ALIGN_SIZE size_in) in
    let size := if size <? MIN_SIZE_ALIGNED then MIN_SIZE_ALIGNED else size in
    if (size >? MEM_SIZE_ALIGNED) || (size <? size_in) then mret 0
    else
      lf ← gets lfree;
      ptr ← mem_to_ptr lf;
      fuel ← gets heap_fuel;
      malloc_loop fuel ptr size.
