(* ===== verification/LwipMemSpec.v ===== *)
(** * Heap of the network stack: correctness

    The heap of [LwipMem] is a sequence of blocks that tile the array
    ([lheap_rep]); the blocks are those of [MemSpec], whose layout functions are
    used here.  [mem_malloc] is a first-fit allocator of disjoint blocks that
    fails exactly when no free block is large enough, [mem_free] and [mem_trim]
    give memory back and keep neighbouring free blocks merged, and [lfree] is
    the lowest free block throughout. *)

From S2P Require Import Prelude Mem MemSpec LwipMem.

(** ** Layout *)

(** The blocks from address [a] on have their headers; [p] is the block before. *)
Fixpoint seg (N : gmap Z mem) (r p a : Z) (bs : list blk) : Prop :=
  match bs with
  | [] => True
  | b :: bs' => N !! a = Some (mk_mem (a + span b - r) (p - r) (flag b.2)) /\
                seg N r a (a + span b) bs'
  end.

(** The address of the first free block, or the end. *)
Fixpoint first_free (a : Z) (bs : list blk) : Z :=
  match bs with [] => a | b :: bs' => if b.2 then first_free (a + span b) bs' else a end.

Definition lblk_ok (b : blk) : Prop := MIN_SIZE_ALIGNED <= b.1 /\ b.1 mod 4 = 0.

(** The blocks tile the array up to the last header. *)
Record tiled (h : lwip_heap) (bs : list blk) : Prop := {
  lr_ram : 0 < ram h /\ ram h mod 4 = 0 /\ ram h + MEM_SIZE_ALIGNED + SIZEOF_STRUCT_MEM < 2 ^ 32;
  lr_ram_end : ram_end h = ram h + MEM_SIZE_ALIGNED;
  lr_seg : seg (mems h) (ram h) (ram h) (ram h) bs;
  lr_end : end_addr (ram h) bs = ram_end h;
  lr_last : mems h !! ram_end h = Some (mk_mem MEM_SIZE_ALIGNED MEM_SIZE_ALIGNED 1);
  lr_blks : Forall lblk_ok bs
}.

Record lheap_rep (h : lwip_heap) (bs : list blk) : Prop := {
  lr_tiled : tiled h bs;
  lr_coalesced : coalesced bs;
  lr_lfree : lfree h = first_free (ram h) bs
}.

Lemma lblk_blk bs : Forall lblk_ok bs -> Forall blk_ok bs.
Proof. intros H. eapply Forall_impl; [exact H|]. intros b [B1 B2]. split; [|done]. change MIN_SIZE_ALIGNED with 12 in B1. lia. Qed.

Lemma seg_app N r p a l1 l2 :
  seg N r p a (l1 ++ l2) <-> seg N r p a l1 /\ seg N r (last_addr p a l1) (end_addr a l1) l2.
Proof. revert p a. induction l1 as [|b l1 IH]; intros p a; simpl; [tauto|]. rewrite IH. tauto. Qed.

Lemma seg_frame N N' r p a bs :
  seg N r p a bs -> Forall lblk_ok bs -> (forall x, a <= x < end_addr a bs -> N' !! x = N !! x) ->
  seg N' r p a bs.
Proof.
  intros Hs Hok. revert p a Hs. induction bs as [|b bs IH]; intros p a Hs HN; simpl in *; [done|].
  apply Forall_cons in Hok as [[Hb _] Hok]. destruct Hs as [Ha Hs].
  pose proof (end_addr_le (a + span b) bs (lblk_blk _ Hok)). change MIN_SIZE_ALIGNED with 12 in Hb.
  unfold span, MEM_NODE_SIZE in *. split.
  - rewrite HN by lia. done.
  - apply IH; [done | done |]. intros x Hx. apply HN. lia.
Qed.

Lemma seg_size N r p a bs : seg N r p a bs -> Forall lblk_ok bs -> (length bs <= base.size N)%nat.
Proof.
  intros Hs Hok%lblk_blk. rewrite <- (addrs_length a bs), <- size_dom.
  rewrite <- (size_list_to_set (C := gset Z) (addrs a bs)) by (by apply addrs_nodup).
  apply subseteq_size. intros x Hx%elem_of_list_to_set.
  clear Hok. revert p a Hs Hx. induction bs as [|b bs IH]; intros p a; simpl; [by rewrite elem_of_nil|].
  intros [Ha Hs]. rewrite elem_of_cons. intros [->|Hx]; [by apply elem_of_dom | eauto].
Qed.

Lemma first_free_range a bs : Forall lblk_ok bs -> a <= first_free a bs <= end_addr a bs.
Proof.
  intros H. revert a. induction H as [|b bs [Hb _] Hok IH]; intros a; simpl; [lia|].
  pose proof (end_addr_le (a + span b) bs (lblk_blk _ Hok)). specialize (IH (a + span b)).
  change MIN_SIZE_ALIGNED with 12 in Hb. unfold span, MEM_NODE_SIZE in *. destruct b.2; lia.
Qed.

(** Either a free block lies in front, or the search goes on behind. *)
Lemma first_free_cases a l1 : Forall lblk_ok l1 ->
  (first_free a l1 < end_addr a l1 /\ forall l2, first_free a (l1 ++ l2) = first_free a l1) \/
  (Forall (fun b => b.2 = true) l1 /\ forall l2, first_free a (l1 ++ l2) = first_free (end_addr a l1) l2).
Proof.
  intros H. revert a. induction H as [|b l1 [Hb _] Hok IH]; intros a; simpl; [right; done|].
  pose proof (end_addr_le (a + span b) l1 (lblk_blk _ Hok)). change MIN_SIZE_ALIGNED with 12 in Hb.
  destruct b as [s []]; cbn [snd] in *.
  - destruct (IH (a + span (s, true))) as [[H1 H2]|[H1 H2]]; [left | right]; split; try done. by constructor.
  - left. split; [|done]. unfold span, MEM_NODE_SIZE in *. cbn [fst] in *. lia.
Qed.

(** A free block stops the search whatever follows it. *)
Lemma first_free_stop a l1 s s' l2 l2' :
  first_free a (l1 ++ (s, false) :: l2) = first_free a (l1 ++ (s', false) :: l2').
Proof. revert a. induction l1 as [|b l1 IH]; intros a; simpl; [done|]. destruct b.2; [apply IH | done]. Qed.

(** ** Headers *)

Lemma mem_at_run a h m : mems h !! a = Some m -> mem_at a h = Done (m, h).
Proof. intros H. unfold mem_at. by apply deref_some. Qed.

Lemma upd_mem_run a f h m : mems h !! a = Some m -> upd_mem a f h = Done (tt, put_mem a (f m) h).
Proof. intros H. unfold upd_mem. by run_with (mem_at_run _ _ _ H). Qed.

(** What the operations leave alone. *)
Definition same_ram (h h' : lwip_heap) : Prop := ram h' = ram h /\ ram_end h' = ram_end h.

(** The block behind, if there is one, is linked to its new predecessor. *)
Lemma relink_run h p a bs x :
  ram_end h = ram h + MEM_SIZE_ALIGNED -> 0 <= ram h -> ram_end h < 2 ^ 32 -> ram h <= a ->
  seg (mems h) (ram h) p a bs -> end_addr a bs = ram_end h -> Forall lblk_ok bs ->
  exists h', (if negb (a - ram h =? MEM_SIZE_ALIGNED) then link_prev (a - ram h) (x - ram h) else mret tt) h =
      Done (tt, h') /\
    seg (mems h') (ram h) x a bs /\ same_ram h h' /\ lfree h' = lfree h /\
    (forall y, y <> a \/ a = ram_end h -> mems h' !! y = mems h !! y).
Proof.
  intros HE Hr He Ha Hs Hend Hok. destruct bs as [|b bs].
  - simpl in Hend. exists h. replace (a - ram h =? MEM_SIZE_ALIGNED) with true by (symmetry; apply Z.eqb_eq; lia). done.
  - pose proof Hok as Hok'. apply Forall_cons in Hok' as [[Hb _] Hok2]. destruct Hs as [Hn Hs].
    pose proof (end_addr_le (a + span b) bs (lblk_blk _ Hok2)) as Hle. simpl in Hend. change MIN_SIZE_ALIGNED with 12 in Hb.
    assert (Hspan : a < a + span b) by (unfold span, MEM_NODE_SIZE; lia).
    destruct (Z.eqb_spec (a - ram h) MEM_SIZE_ALIGNED) as [E|_]; [lia|]. cbn [negb].
    eexists (put_mem a _ h). split_and!; [| | done | done |].
    + unfold link_prev, ptr_to_mem. kstep. rewrite u32_small by lia. replace (ram h + (a - ram h)) with a by lia.
      apply upd_mem_run. exact Hn.
    + simpl. split; [by rewrite lookup_insert_eq|]. eapply seg_frame; [exact Hs | done |].
      intros y Hy. simpl. apply lookup_insert_ne. lia.
    + intros y [Hy|Hy]; simpl; apply lookup_insert_ne; lia.
Qed.

Section middle.
Context (h : lwip_heap) (l1 mid l2 : list blk).
Hypothesis Hrep : tiled h (l1 ++ mid ++ l2).

Local Abbreviation r := (ram h).
Local Abbreviation E := (end_addr r l1).
Local Abbreviation D := (end_addr E mid).

Lemma middle_ok : Forall lblk_ok l1 /\ Forall lblk_ok mid /\ Forall lblk_ok l2.
Proof. pose proof (lr_blks _ _ Hrep) as H. rewrite !Forall_app in H. done. Qed.

Lemma middle_bounds :
  0 < r /\ r <= E /\ E <= D /\ D <= ram_end h /\ end_addr D l2 = ram_end h /\
  ram_end h = r + MEM_SIZE_ALIGNED /\ ram_end h + 8 < 2 ^ 32.
Proof.
  destruct middle_ok as (O1 & O2 & O3). pose proof (lr_ram _ _ Hrep) as (R1 & R2 & R3).
  pose proof (lr_ram_end _ _ Hrep). pose proof (lr_end _ _ Hrep) as He. rewrite !end_addr_app in He.
  pose proof (end_addr_le r l1 (lblk_blk _ O1)). pose proof (end_addr_le E mid (lblk_blk _ O2)).
  pose proof (end_addr_le D l2 (lblk_blk _ O3)). change SIZEOF_STRUCT_MEM with 8 in R3. lia.
Qed.

Lemma middle_seg :
  seg (mems h) r r r l1 /\ seg (mems h) r (last_addr r r l1) E mid /\
  seg (mems h) r (last_addr (last_addr r r l1) E mid) D l2.
Proof. pose proof (lr_seg _ _ Hrep) as H. rewrite !seg_app in H. tauto. Qed.

(** Other blocks in the same place. *)
Lemma tiled_replace h' mid' :
  same_ram h h' -> end_addr E mid' = D -> Forall lblk_ok mid' ->
  seg (mems h') r (last_addr r r l1) E mid' ->
  seg (mems h') r (last_addr (last_addr r r l1) E mid') D l2 ->
  (forall x, x < E \/ x = ram_end h -> mems h' !! x = mems h !! x) ->
  tiled h' (l1 ++ mid' ++ l2).
Proof.
  intros [Hr He] HD Hok Hmid H2 Hfr. destruct middle_ok as (O1 & O2 & O3). destruct middle_seg as (S1 & _ & _).
  pose proof middle_bounds. split; rewrite ?Hr, ?He.
  - apply (lr_ram _ _ Hrep).
  - apply (lr_ram_end _ _ Hrep).
  - rewrite !seg_app. rewrite HD. split_and!; [|done|done]. eapply seg_frame; [exact S1 | done |].
    intros x Hx. apply Hfr. lia.
  - rewrite !end_addr_app, HD. tauto.
  - rewrite Hfr by tauto. apply (lr_last _ _ Hrep).
  - by rewrite !Forall_app.
Qed.
End middle.

(** ** Plugging holes *)

Lemma span_blk s u : span (s, u) = 8 + s.
Proof. done. Qed.

Lemma u16_off h a : ram h <= a <= ram h + MEM_SIZE_ALIGNED -> u16 (a - ram h) = a - ram h.
Proof. intros H. apply u16_small. change MEM_SIZE_ALIGNED with 25600 in H. lia. Qed.

(** Two neighbours become one. *)
Lemma skip_next_run h l1 s1 u s2 u2 l2 :
  tiled h (l1 ++ [(s1, u); (s2, u2)] ++ l2) ->
  let E := end_addr (ram h) l1 in
  exists h', skip_next E (E + 16 + s1 + s2 - ram h) h = Done (tt, h') /\
    tiled h' (l1 ++ [(s1 + 8 + s2, u)] ++ l2) /\ same_ram h h' /\ lfree h' = lfree h.
Proof.
  intros HT E. pose proof (middle_bounds _ _ _ _ HT) as B. destruct (middle_ok _ _ _ _ HT) as (O1 & O2 & O3).
  destruct (middle_seg _ _ _ _ HT) as (S1 & [S2 [S2' _]] & S3). cbn [end_addr last_addr] in B, S3.
  fold E in B, S2, S2', S3. rewrite !span_blk in *. apply Forall_cons in O2 as [[Z1 M1] [[Z2 M2] _]%Forall_cons].
  change MIN_SIZE_ALIGNED with 12 in Z1, Z2. cbn [fst snd] in *.
  set (D := E + (8 + s1) + (8 + s2)) in *. replace (E + 16 + s1 + s2 - ram h) with (D - ram h) by (unfold D; lia).
  set (h1 := put_mem E (mk_mem (D - ram h) (last_addr (ram h) (ram h) l1 - ram h) (flag u)) h).
  destruct (relink_run h1 (E + (8 + s1)) D l2 E) as (h' & Hrun & HS' & [HR HR'] & Hlf & Hfr); try done; try (unfold h1; simpl; lia).
  { eapply seg_frame; [exact S3 | done |]. intros x Hx. unfold h1. simpl. apply lookup_insert_ne. unfold D in *. lia. }
  exists h'. split_and!; [| | by split | done].
  - unfold skip_next. run_by ltac:(apply upd_mem_run; exact S2). change (put_mem E _ h) with h1. unfold mem_to_ptr.
    destruct (negb (D - ram h =? MEM_SIZE_ALIGNED)) eqn:En; [|by change (ram h) with (ram h1) in En; rewrite En in Hrun].
    kstep. change (ram h1) with (ram h). rewrite u16_off by lia.
    change (ram h1) with (ram h) in Hrun. by rewrite En in Hrun.
  - apply (tiled_replace _ _ _ _ HT); cbn [end_addr last_addr app]; fold E; rewrite ?span_blk.
    + by split.
    + lia.
    + repeat constructor; cbn [fst]; [change MIN_SIZE_ALIGNED with 12; lia|].
      apply Z.mod_divide in M1 as [q1 ->]; [|done]. apply Z.mod_divide in M2 as [q2 ->]; [|done].
      apply Z.mod_divide; [done|]. exists (q1 + q2 + 2). lia.
    + split; [|done]. rewrite Hfr by (unfold D; lia). unfold h1. simpl. rewrite lookup_insert_eq, span_blk.
      do 2 f_equal. unfold D. lia.
    + exact HS'.
    + intros x Hx. change (ram_end h1) with (ram_end h) in Hfr. rewrite Hfr by (unfold D in *; lia). unfold h1. simpl. apply lookup_insert_ne. unfold D in *. lia.
Qed.

(** The header of the block behind a block: that of [l2], or the last one. *)
Lemma next_header h l1 sz u l2 :
  tiled h (l1 ++ (sz, u) :: l2) ->
  exists m, mems h !! (end_addr (ram h) l1 + 8 + sz) = Some m /\
    match l2 with [] => used m = 1 | b :: _ => used m = flag b.2 end.
Proof.
  intros HT. pose proof (middle_bounds h l1 [(sz, u)] l2 HT) as B. destruct (middle_seg h l1 [(sz, u)] l2 HT) as (_ & _ & S3).
  cbn [end_addr last_addr] in B, S3. rewrite span_blk in B, S3. rewrite Z.add_assoc in B, S3. destruct l2 as [|b l2].
  - cbn [end_addr] in B. eexists. replace (end_addr (ram h) l1 + 8 + sz) with (ram_end h) by lia.
    by split; [apply (lr_last _ _ HT)|].
  - destruct S3 as [S3 _]. by eexists.
Qed.

Lemma plug_next_run h l1 sz l2 :
  let E := end_addr (ram h) l1 in
  tiled h (l1 ++ (sz, false) :: l2) -> coalesced l2 -> lfree h <= E ->
  exists h' sz' l2', plug_next E h = Done (tt, h') /\ tiled h' (l1 ++ (sz', false) :: l2') /\
    ends_used l2' /\ coalesced l2' /\ same_ram h h' /\ lfree h' = lfree h /\
    used_at (E + 8 + sz') l2' = used_at (E + 8 + sz) l2.
Proof.
  intros E HT Hco Hlf. pose proof (middle_bounds h l1 [(sz, false)] l2 HT) as B.
  destruct (middle_seg h l1 [(sz, false)] l2 HT) as (_ & [S2 _] & _). destruct (middle_ok h l1 [(sz, false)] l2 HT) as (_ & O2 & O3).
  apply Forall_cons in O2 as [[Z1 _] _]. change MIN_SIZE_ALIGNED with 12 in Z1. cbn [fst snd end_addr] in *.
  rewrite span_blk, ?Z.add_assoc in *. fold E in B, S2.
  destruct (next_header _ _ _ _ _ HT) as (nm & Hnm & Hu). fold E in Hnm.
  unfold plug_next. run_with (mem_at_run _ _ _ S2). cbn [next]. unfold ptr_to_mem. kstep.
  rewrite u32_small by lia. replace (ram h + (E + 8 + sz - ram h)) with (E + 8 + sz) by lia.
  run_with (mem_at_run _ _ _ Hnm). kstep. destruct (free_head l2) as [He|(s2 & l3 & ->)].
  - exists h, sz, l2. split_and!; try done. replace (used nm =? 0) with false; [by rewrite andb_false_r|].
    symmetry. apply Z.eqb_neq. destruct l2 as [|[? []] ?]; simpl in *; try done; rewrite Hu; done.
  - apply Forall_cons in O3 as [[Z2 _] O3]. change MIN_SIZE_ALIGNED with 12 in Z2. cbn [fst snd end_addr flag] in *.
    rewrite span_blk, ?Z.add_assoc in *. pose proof (end_addr_le (E + 8 + sz + 8 + s2) l3 (lblk_blk _ O3)).
    destruct (Z.eqb_spec E (E + 8 + sz)); [lia|]. rewrite Hu. destruct (Z.eqb_spec (E + 8 + sz) (ram_end h)); [lia|].
    cbn [negb andb Z.eqb]. kstep. destruct (Z.eqb_spec (lfree h) (E + 8 + sz)); [lia|]. kstep.
    assert (Hnx : next nm = E + 16 + sz + s2 - ram h).
    { destruct (middle_seg h l1 [(sz, false)] ((s2, false) :: l3) HT) as (_ & _ & S3 & _). cbn [end_addr fst] in S3.
      rewrite !span_blk, ?Z.add_assoc in S3. fold E in S3. rewrite Hnm in S3. simplify_eq. simpl. lia. }
    rewrite Hnx. destruct (skip_next_run h l1 sz false s2 false l3 HT) as (h' & Hrun & HT' & Hsr & Hlf').
    exists h', (sz + 8 + s2), l3. pose proof (coalesced_free_inv _ _ Hco) as [C1 C2]. split_and!; try done.
    cbn [used_at snd fst app]. rewrite span_blk. f_equal. lia.
Qed.

(** The last block of a prefix, and its address. *)
Lemma last_block p a l1 b : last_addr p a (l1 ++ [b]) = end_addr a l1.
Proof. by rewrite last_addr_app. Qed.

Lemma plug_prev_run h l1 sz l2 :
  let E := end_addr (ram h) l1 in
  tiled h (l1 ++ (sz, false) :: l2) -> coalesced l1 -> coalesced l2 -> ends_used l2 ->
  lfree h = first_free (ram h) (l1 ++ (sz, false) :: l2) ->
  exists h' bs', plug_prev E h = Done (tt, h') /\ lheap_rep h' bs' /\ same_ram h h' /\
    used_at (ram h) bs' = used_at (ram h) l1 ++ used_at (E + 8 + sz) l2.
Proof.
  intros E HT Hc1 Hc2 He Hlf. pose proof (middle_bounds h l1 [(sz, false)] l2 HT) as B.
  destruct (middle_seg h l1 [(sz, false)] l2 HT) as (S1 & [S2 _] & _).
  destruct (middle_ok h l1 [(sz, false)] l2 HT) as (O1 & O2 & O3).
  apply Forall_cons in O2 as [[Z1 _] _]. change MIN_SIZE_ALIGNED with 12 in Z1. cbn [fst snd end_addr] in *.
  rewrite span_blk, ?Z.add_assoc in *. fold E in B, S2.
  unfold plug_prev. run_with (mem_at_run _ _ _ S2). cbn [prev next]. unfold ptr_to_mem. kstep.
  destruct l1 as [|b l1 _] using rev_ind.
  { simpl in E. cbn [last_addr] in *. replace (ram h + (ram h - ram h)) with (ram h) by lia. rewrite u32_small by lia.
    run_with (mem_at_run _ _ _ S2). subst E. rewrite Z.eqb_refl. cbn [negb andb].
    exists h, ((sz, false) :: l2). split_and!; try done; [|simpl; rewrite span_blk; f_equal; lia].
    split; [done | by apply coalesced_free | done]. }
  rewrite last_block in S2 |- *. destruct b as [s0 u0]. apply Forall_app in O1 as [O1 [[Z0 _] _]%Forall_cons].
  change MIN_SIZE_ALIGNED with 12 in Z0. cbn [fst] in Z0. set (E0 := end_addr (ram h) l1) in *.
  assert (HE : E = E0 + 8 + s0) by (subst E E0; rewrite end_addr_app; simpl; rewrite span_blk; lia).
  pose proof (end_addr_le (ram h) l1 (lblk_blk _ O1)) as Hle. fold E0 in Hle.
  replace (ram h + (E0 - ram h)) with E0 by lia. rewrite u32_small by lia.
  apply seg_app in S1 as [S1 [S0 _]]. fold E0 in S0. run_with (mem_at_run _ _ _ S0). cbn [used snd].
  destruct (Z.eqb_spec E0 E); [lia|]. cbn [negb andb]. destruct u0; cbn [flag Z.eqb].
  - exists h, ((l1 ++ [(s0, true)]) ++ (sz, false) :: l2). split_and!; try done.
    + split; [done | | done]. rewrite <- app_assoc. apply coalesced_app. split; [done|]. split; [done|]. by apply coalesced_free.
    + rewrite used_at_app. fold E. cbn [used_at snd app]. rewrite span_blk. f_equal. f_equal. lia.
  - assert (Hlf2 : lfree h <= E0).
    { rewrite Hlf, <- app_assoc. destruct (first_free_cases (ram h) l1 O1) as [[F1 F2]|[_ F2]]; rewrite F2; [fold E0 in F1; lia | simpl; fold E0; lia]. }
    kstep. destruct (Z.eqb_spec (lfree h) E); [lia|]. kstep.
    rewrite <- app_assoc in HT. change (tiled h (l1 ++ [(s0, false); (sz, false)] ++ l2)) in HT.
    destruct (skip_next_run h l1 s0 false sz false l2 HT) as (h' & Hrun & HT' & [Hsr Hsr'] & Hlf'). fold E0 in Hrun.
    replace (E + 8 + sz - ram h) with (E0 + 16 + s0 + sz - ram h) by lia. exists h', (l1 ++ (s0 + 8 + sz, false) :: l2).
    split_and!; [done | | by split |].
    + split; [done | | rewrite Hsr, Hlf', Hlf, <- app_assoc; apply first_free_stop].
      apply coalesced_app. split; [eapply coalesced_last; exact Hc1 | by apply coalesced_free].
    + rewrite !used_at_app. fold E0. cbn [used_at snd app]. rewrite !span_blk, app_nil_r. f_equal. f_equal. lia.
Qed.

(** ** Release *)

Lemma coalesced_prefix l1 l2 : coalesced (l1 ++ l2) -> coalesced l1.
Proof.
  induction l1 as [|x l1 IH]; [done|]. destruct l1 as [|y l1]; [done|]. simpl in *. intros [H1 H2]. split; [done | by apply IH].
Qed.

Lemma prev_header h l1 b l2 :
  let E := end_addr (ram h) l1 in let P := last_addr (ram h) (ram h) l1 in
  tiled h (l1 ++ b :: l2) ->
  (l1 = [] /\ P = E) \/ (ram h <= P < E /\ exists m, mems h !! P = Some m /\ next m = E - ram h).
Proof.
  intros E P HT. destruct (middle_seg h l1 [b] l2 HT) as (S1 & _). destruct (middle_ok h l1 [b] l2 HT) as (O1 & _).
  destruct l1 as [|[s0 u0] l1 _] using rev_ind; [by left | right]. apply Forall_app in O1 as [O1 [[Z0 _] _]%Forall_cons].
  change MIN_SIZE_ALIGNED with 12 in Z0. cbn [fst] in Z0. pose proof (end_addr_le (ram h) l1 (lblk_blk _ O1)).
  apply seg_app in S1 as [_ [S1 _]]. unfold E, P. rewrite end_addr_app, last_block. simpl. rewrite span_blk in *.
  split; [lia|]. by eexists.
Qed.

Lemma mem_link_valid_run h l1 sz u l2 :
  tiled h (l1 ++ (sz, u) :: l2) -> mem_link_valid (end_addr (ram h) l1) h = Done (true, h).
Proof.
  intros HT. pose proof (middle_bounds h l1 [(sz, u)] l2 HT) as B. pose proof (prev_header _ _ _ _ HT) as HP.
  destruct (middle_seg h l1 [(sz, u)] l2 HT) as (_ & [S2 _] & S3). destruct (middle_ok h l1 [(sz, u)] l2 HT) as (_ & O2 & _).
  apply Forall_cons in O2 as [[Z1 _] _]. change MIN_SIZE_ALIGNED with 12 in Z1. cbn [fst snd end_addr last_addr] in *.
  rewrite span_blk in *. set (E := end_addr (ram h) l1) in *. set (P := last_addr (ram h) (ram h) l1) in *.
  assert (HPE : ram h <= P <= E) by (destruct HP as [[-> ->]|[? _]]; [simpl in E|]; lia).
  unfold mem_link_valid, mem_to_ptr, ptr_to_mem. kstep. rewrite u16_off by lia.
  run_with (mem_at_run _ _ _ S2). cbn [next prev]. kstep.
  rewrite !u32_small by lia. replace (ram h + (E + (8 + sz) - ram h)) with (E + (8 + sz)) by lia.
  replace (ram h + (P - ram h)) with P by lia.
  destruct (Z.gtb_spec (E + (8 + sz) - ram h) MEM_SIZE_ALIGNED); [lia|].
  destruct (Z.gtb_spec (P - ram h) MEM_SIZE_ALIGNED); [lia|]. cbn [orb].
  assert (Hbad : (if negb (P - ram h =? E - ram h) then pm ← mem_at P; mret (negb (next pm =? E - ram h)) else mret false) h = Done (false, h)).
  { destruct HP as [[_ ->]|[HP (pm & Hpm & Hn)]]; [by rewrite Z.eqb_refl|].
    destruct (Z.eqb_spec (P - ram h) (E - ram h)); [lia|]. cbn [negb]. run_with (mem_at_run _ _ _ Hpm).
    by rewrite Hn, Z.eqb_refl. }
  run_with Hbad. destruct l2 as [|b l2].
  - cbn [end_addr] in B. replace (E + (8 + sz) =? ram_end h) with true; [done|]. symmetry. apply Z.eqb_eq. lia.
  - destruct S3 as [S3 _]. destruct (Z.eqb_spec (E + (8 + sz)) (ram_end h)); [done|]. cbn [negb].
    run_with (mem_at_run _ _ _ S3). cbn [prev]. by rewrite Z.eqb_refl.
Qed.

(** The used flag of one block. *)
Lemma set_used_tiled h l1 sz u u' l2 m :
  tiled h (l1 ++ (sz, u) :: l2) -> mems h !! end_addr (ram h) l1 = Some m ->
  tiled (put_mem (end_addr (ram h) l1) (set_used (flag u') m) h) (l1 ++ (sz, u') :: l2).
Proof.
  intros HT Hm. pose proof (middle_bounds h l1 [(sz, u)] l2 HT) as B. destruct (middle_seg h l1 [(sz, u)] l2 HT) as (_ & [S2 _] & S3).
  destruct (middle_ok h l1 [(sz, u)] l2 HT) as (_ & O2 & O3). apply Forall_cons in O2 as [[Z1 M1] _]. cbn [fst] in Z1, M1.
  pose proof Z1 as Z1'. change MIN_SIZE_ALIGNED with 12 in Z1'. cbn [end_addr last_addr snd] in *. rewrite span_blk in *.
  rewrite Hm in S2. injection S2 as ->. apply (tiled_replace h l1 [(sz, u)] l2 HT _ [(sz, u')]); cbn [end_addr last_addr app]; rewrite ?span_blk; try done.
  - by repeat constructor.
  - split; [|done]. simpl. by rewrite lookup_insert_eq.
  - eapply seg_frame; [exact S3 | done |]. intros x Hx. simpl. apply lookup_insert_ne. lia.
  - intros x Hx. simpl. apply lookup_insert_ne. lia.
Qed.

Lemma lheap_free h bs p sz :
  lheap_rep h bs -> (p, sz) ∈ used_at (ram h) bs ->
  exists h' bs', mem_free p h = Done (tt, h') /\ lheap_rep h' bs' /\ same_ram h h' /\
    used_at (ram h) bs ≡ₚ (p, sz) :: used_at (ram h) bs'.
Proof.
  intros [HT Hco Hlf] Hin. destruct (used_at_split _ _ _ _ Hin) as (l1 & l2 & -> & Hp).
  destruct (used_at_range _ _ _ _ (lblk_blk _ (lr_blks _ _ HT)) Hin) as (R1 & _ & _ & R2).
  pose proof (middle_bounds h l1 [(sz, true)] l2 HT) as B. destruct (middle_seg h l1 [(sz, true)] l2 HT) as (_ & [S2 _] & _).
  destruct (middle_ok h l1 [(sz, true)] l2 HT) as (O1 & O2 & O3). apply Forall_cons in O2 as [[Z1 _] _].
  change MIN_SIZE_ALIGNED with 12 in Z1. cbn [end_addr fst snd] in *. rewrite span_blk in *.
  apply coalesced_app in Hco as [C1 C2]. pose proof (lr_ram _ _ HT) as (_ & R3 & _). apply R2 in R3.
  set (E := end_addr (ram h) l1) in *. unfold MEM_NODE_SIZE in Hp. unfold mem_free.
  destruct (Z.eqb_spec p 0); [lia|]. replace (Z.land p (MEM_ALIGNMENT - 1) =? 0) with true; cbn [negb]; last first.
  { symmetry. apply Z.eqb_eq. change (MEM_ALIGNMENT - 1) with (Z.ones 2). by rewrite Z.land_ones by lia. }
  kstep. change SIZEOF_STRUCT_MEM with 8. change MIN_SIZE_ALIGNED with 12. rewrite !u32_small by lia.
  replace (p - 8) with E by lia. destruct (Z.ltb_spec E (ram h)); [lia|]. destruct (Z.gtb_spec (p + 12) (ram_end h)); [lia|].
  cbn [orb]. run_with (mem_at_run _ _ _ S2). cbn [used flag Z.eqb].
  run_by ltac:(apply (mem_link_valid_run h l1 sz true l2 HT)). cbn [negb].
  run_by ltac:(apply upd_mem_run; exact S2). kstep. pose proof (set_used_tiled h l1 sz true false l2 _ HT S2) as HT1. fold E in HT1.
  cbn [flag] in HT1. set (h1 := put_mem E _ h) in *. change (lfree h1) with (lfree h).
  set (h2 := if E <? lfree h then set_lfree E h1 else h1).
  assert (HT2 : tiled h2 (l1 ++ (sz, false) :: l2)) by (unfold h2; case_match; by destruct HT1).
  assert (Hr2 : same_ram h h2) by (unfold h2; by case_match). destruct Hr2 as [Hr2 Hr2'].
  assert (Hl2 : lfree h2 = first_free (ram h2) (l1 ++ (sz, false) :: l2)).
  { rewrite Hr2. unfold h2. destruct (first_free_cases (ram h) l1 O1) as [[F1 F2]|[_ F2]]; rewrite F2 in *; fold E in F2 |- *.
    - fold E in F1. destruct (Z.ltb_spec E (lfree h)); [lia | done].
    - fold E in Hlf. cbn [first_free snd] in Hlf |- *. pose proof (first_free_range (E + span (sz, true)) l2 O3). rewrite span_blk in *.
      destruct (Z.ltb_spec E (lfree h)); [done | lia]. }
  run_by ltac:(instantiate (1 := h2); instantiate (1 := tt); unfold h2; by destruct (E <? lfree h)).
  assert (HE2 : lfree h2 <= E).
  { rewrite Hl2, Hr2. destruct (first_free_cases (ram h) l1 O1) as [[F1 F2]|[_ F2]]; rewrite F2; fold E in F1 |- * || fold E; simpl; lia. }
  assert (HEE : end_addr (ram h2) l1 = E) by (by rewrite Hr2).
  destruct (plug_next_run h2 l1 sz l2 HT2 (coalesced_tail _ _ C2)) as (h3 & sz3 & l3 & Hrun3 & HT3 & He3 & Hc3 & [Hr3 Hr3'] & Hl3 & Hu3);
    [by rewrite HEE|]. rewrite HEE in Hrun3, Hu3.
  destruct (plug_prev_run h3 l1 sz3 l3 HT3) as (h4 & bs' & Hrun4 & Hrep & [Hr4 Hr4'] & Hu4); try done.
  { by apply coalesced_prefix in C1. }
  { rewrite Hl3, Hl2, Hr3. apply first_free_stop. }
  rewrite Hr3, HEE in Hrun4. exists h4, bs'. split_and!; [| done | split; congruence |].
  - unfold plug_holes. by run_with Hrun3.
  - rewrite Hr3, Hr2 in Hu4. rewrite Hu4. fold E. rewrite Hu3, used_at_app. fold E. cbn [used_at snd fst app].
    rewrite span_blk. unfold MEM_NODE_SIZE. rewrite Z.add_assoc, <- Hp. by rewrite Permutation_middle.
Qed.

(** ** Splitting *)

Definition lblk_size (s : Z) : Prop := 12 <= s /\ s mod 4 = 0.

(** A block of [s] bytes and a free one of [t] bytes take the place of [mid]. *)
Lemma split_tiled h l1 mid l2 s t u :
  let r := ram h in let E := end_addr r l1 in let C := E + 8 + s in let D := C + 8 + t in
  let P := last_addr r r l1 in
  tiled h (l1 ++ mid ++ l2) -> end_addr E mid = D -> mid <> [] -> lblk_size s -> lblk_size t ->
  let h1 := put_mem E (mk_mem (C - r) (P - r) (flag u)) (put_mem C (mk_mem (D - r) (E - r) 0) h) in
  exists h', (if negb (D - r =? MEM_SIZE_ALIGNED) then link_prev (D - r) (C - r) else mret tt) h1 = Done (tt, h') /\
    tiled h' (l1 ++ [(s, u); (t, false)] ++ l2) /\ same_ram h h' /\ lfree h' = lfree h.
Proof.
  intros r E C D P HT HD Hne [Z1 M1] [Z2 M2] h1. pose proof (middle_bounds _ _ _ _ HT) as B.
  destruct (middle_ok _ _ _ _ HT) as (_ & _ & O3). destruct (middle_seg _ _ _ _ HT) as (_ & _ & S3).
  fold r E in B, S3. rewrite HD in B, S3.
  destruct (relink_run h1 (last_addr P E mid) D l2 C) as (h' & Hrun & HS' & [HR HR'] & Hlf & Hfr); try done; try (simpl; lia).
  { eapply seg_frame; [exact S3 | done |]. intros x Hx. simpl. rewrite !lookup_insert_ne by (unfold C, D in *; lia). done. }
  change (ram h1) with r in *. change (ram_end h1) with (ram_end h) in *. change (lfree h1) with (lfree h) in *.
  exists h'. split_and!; [exact Hrun | | by split | done].
  apply (tiled_replace _ _ _ _ HT); fold r E P; cbn [end_addr last_addr app]; rewrite ?span_blk.
  - by split.
  - rewrite HD. unfold C, D. lia.
  - repeat constructor; cbn [fst]; try (change MIN_SIZE_ALIGNED with 12); lia.
  - cbn [seg]. rewrite !span_blk. replace (E + (8 + s)) with C by (unfold C; lia). split_and!; [| |done].
    + rewrite Hfr by (left; unfold C, D; lia). simpl. by rewrite lookup_insert_eq.
    + rewrite Hfr by (left; unfold C, D; lia). simpl. rewrite lookup_insert_ne, lookup_insert_eq by (unfold C; lia).
      do 2 f_equal. unfold D. lia.
  - rewrite HD. replace (E + (8 + s)) with C by (unfold C; lia). exact HS'.
  - intros x Hx. rewrite Hfr by (unfold C, D in *; lia). simpl. rewrite !lookup_insert_ne by (unfold C, D in *; lia). done.
Qed.

Lemma new_mem2_run h a m ptr ptr2 nxt :
  mems h !! a = Some m -> 0 <= ram h -> 0 <= ptr2 -> ram h + ptr2 < 2 ^ 32 -> ram h + ptr2 <> a ->
  new_mem2 a ptr ptr2 nxt h = Done (tt, put_mem a (set_next ptr2 m) (put_mem (ram h + ptr2) (mk_mem nxt ptr 0) h)).
Proof.
  intros Hm H0 H1 H2 Hne. unfold new_mem2, ptr_to_mem. kstep. rewrite u32_small by lia.
  apply upd_mem_run. simpl. by rewrite lookup_insert_ne.
Qed.

(** ** The lowest free block *)

Lemma next_free_run h p a bs : forall fuel,
  tiled h bs -> forall pre l, bs = pre ++ l -> p = last_addr (ram h) (ram h) pre -> a = end_addr (ram h) pre ->
  (length l < fuel)%nat -> next_free fuel a h = Done (first_free a l, h).
Proof.
  intros fuel HT pre l. revert fuel p a pre. induction l as [|[s u] l IH]; intros [|fuel] p a pre Hbs Hp Ha Hf;
    try (simpl in Hf; lia); subst bs p a; cbn [next_free].
  - rewrite app_nil_r in HT. pose proof (lr_last _ _ HT) as HL. rewrite (lr_end _ _ HT).
    run_with (mem_at_run _ _ _ HL). kstep. rewrite Z.eqb_refl. cbn [negb]. by rewrite andb_false_r.
  - pose proof (middle_bounds h pre [(s, u)] l HT) as B. destruct (middle_seg h pre [(s, u)] l HT) as (_ & [S2 _] & _).
    destruct (middle_ok h pre [(s, u)] l HT) as (_ & O2 & _). apply Forall_cons in O2 as [[Z1 _] _].
    change MIN_SIZE_ALIGNED with 12 in Z1. cbn [end_addr fst snd] in *. rewrite span_blk in *.
    run_with (mem_at_run _ _ _ S2). kstep. cbn [used next first_free snd]. rewrite span_blk.
    destruct (Z.eqb_spec (end_addr (ram h) pre) (ram_end h)); [lia|]. cbn [negb]. rewrite andb_true_r.
    destruct u; cbn [flag Z.eqb negb]; [|done]. unfold ptr_to_mem. kstep. rewrite u32_small by lia.
    replace (ram h + (end_addr (ram h) pre + (8 + s) - ram h)) with (end_addr (ram h) pre + (8 + s)) by lia.
    eapply (IH _ _ _ (pre ++ [(s, true)])); [by rewrite <- app_assoc | done | by rewrite end_addr_app | simpl in Hf; lia].
Qed.

Lemma heap_fuel_enough h bs : tiled h bs -> (length bs < heap_fuel h)%nat.
Proof. intros HT. pose proof (seg_size _ _ _ _ _ (lr_seg _ _ HT) (lr_blks _ _ HT)). unfold heap_fuel. lia. Qed.

(** After the block at the end of [l1] was taken. *)
Lemma adjust_lfree_run h l1 s l2 sz0 l0 :
  let E := end_addr (ram h) l1 in
  tiled h (l1 ++ (s, true) :: l2) -> lfree h = first_free (ram h) (l1 ++ (sz0, false) :: l0) ->
  exists h', adjust_lfree E h = Done (tt, h') /\ tiled h' (l1 ++ (s, true) :: l2) /\ same_ram h h' /\
    lfree h' = first_free (ram h) (l1 ++ (s, true) :: l2).
Proof.
  intros E HT Hlf. pose proof (middle_ok h l1 [(s, true)] l2 HT) as (O1 & _ & O3).
  unfold adjust_lfree. kstep. destruct (first_free_cases (ram h) l1 O1) as [[F1 F2]|[_ F2]]; rewrite F2 in Hlf |- *.
  - fold E in F1. destruct (Z.eqb_spec E (lfree h)); [lia|]. by exists h.
  - fold E in Hlf |- *. simpl in Hlf. rewrite Hlf, Z.eqb_refl. kstep.
    pose proof (heap_fuel_enough _ _ HT) as Hf. rewrite length_app in Hf.
    run_by ltac:(eapply (next_free_run h _ E _ _ HT l1 ((s, true) :: l2)); [done.. | lia]).
    eexists. split; [done|]. split_and!; [by destruct HT | done | done].
Qed.

(** ** Allocation *)

(** A block in use separates what lies on its sides. *)
Lemma coalesced_used l1 s l2 : coalesced (l1 ++ (s, true) :: l2) <-> coalesced l1 /\ coalesced l2.
Proof.
  induction l1 as [|x l1 IH]; [by destruct l2; simpl; tauto|].
  destruct l1 as [|y l1]; simpl in *; [rewrite orb_true_r; destruct l2; tauto|]. rewrite IH. tauto.
Qed.

Lemma coalesced_take l1 sz l2 s : coalesced (l1 ++ (sz, false) :: l2) -> coalesced (l1 ++ (s, true) :: l2).
Proof.
  intros [C1 C2]%coalesced_app. apply coalesced_used. split; [by eapply coalesced_prefix | by eapply coalesced_tail].
Qed.

Lemma coalesced_split l1 sz l2 s t :
  coalesced (l1 ++ (sz, false) :: l2) -> coalesced (l1 ++ (s, true) :: (t, false) :: l2).
Proof.
  intros [C1 C2]%coalesced_app. apply coalesced_used. split; [by eapply coalesced_prefix | by destruct l2].
Qed.

Lemma take_mem_run h l1 sz l2 s m :
  let r := ram h in let E := end_addr r l1 in
  tiled h (l1 ++ (sz, false) :: l2) -> lblk_size s -> s <= sz -> mems h !! E = Some m ->
  exists h' n rest, take_mem m E (E - r) s h = Done (tt, h') /\ tiled h' (l1 ++ (n, true) :: rest) /\
    same_ram h h' /\ lfree h' = lfree h /\ s <= n /\ used_at (E + 8 + n) rest = used_at (E + 8 + sz) l2 /\
    (coalesced (l1 ++ (sz, false) :: l2) -> coalesced (l1 ++ (n, true) :: rest)).
Proof.
  intros r E HT [Z1 M1] Hs Hm. pose proof (middle_bounds h l1 [(sz, false)] l2 HT) as B.
  destruct (middle_seg h l1 [(sz, false)] l2 HT) as (_ & [S2 _] & _). destruct (middle_ok h l1 [(sz, false)] l2 HT) as (_ & O2 & _).
  apply Forall_cons in O2 as [[_ M2] _]. cbn [end_addr fst snd] in *. rewrite span_blk in *. fold r E in B, S2.
  change MEM_SIZE_ALIGNED with 25600 in B. rewrite Hm in S2. injection S2 as ->. unfold take_mem. cbn [next]. change SIZEOF_STRUCT_MEM with 8. change MIN_SIZE_ALIGNED with 12.
  rewrite (u32_small (E - r + 8)) by lia. rewrite (u32_small (E + (8 + sz) - r - (E - r + 8))) by lia.
  rewrite (u32_small (s + 8 + 12)) by lia. replace (E + (8 + sz) - r - (E - r + 8)) with sz by lia.
  destruct (Z.geb_spec sz (s + 8 + 12)) as [Hge|Hlt].
  - rewrite u16_small by lia. set (t := sz - s - 8).
    assert (Ht : lblk_size t).
    { split; [unfold t; lia|]. apply Z.mod_divide in M1 as [q1 ->]; [|done]. apply Z.mod_divide in M2 as [q2 ->]; [|done].
      apply Z.mod_divide; [done|]. exists (q2 - q1 - 2). unfold t. lia. }
    destruct (split_tiled h l1 [(sz, false)] l2 s t true HT) as (h' & Hrun & HT' & Hsr & Hlf); try done.
    { simpl. rewrite span_blk. fold r E. unfold t. lia. }
    fold r E in Hrun. exists h', s, ((t, false) :: l2). split_and!; try done.
    + run_by ltac:(apply (new_mem2_run h E _ _ _ _ Hm); fold r; lia).
      run_by ltac:(apply upd_mem_run; simpl; apply lookup_insert_eq).
      replace (E + (8 + sz) - r) with (E + 8 + s + 8 + t - r) by (unfold t; lia). fold r.
      replace (r + (E - r + 8 + s)) with (E + 8 + s) by lia. replace (E - r + 8 + s) with (E + 8 + s - r) by lia.
      rewrite <- Hrun. f_equal. unfold put_mem. simpl. by rewrite insert_insert_eq.
    + cbn [used_at snd app]. rewrite span_blk. f_equal. unfold t. lia.
    + apply coalesced_split.
  - eexists _, sz, l2. split_and!; [by apply upd_mem_run | by apply (set_used_tiled h l1 sz false true l2) | done.. |].
    intros. by eapply coalesced_take.
Qed.

Definition fits (s : Z) (b : blk) : bool := negb b.2 && (s <=? b.1).

(** What a search for [s] bytes from the address [a] gives. *)
Definition malloc_result (h : lwip_heap) (bs l : list blk) (s v : Z) (h' : lwip_heap) : Prop :=
  if decide (v = 0) then h' = h /\ Forall (fun b => fits s b = false) l
  else exists bs' n, lheap_rep h' bs' /\ same_ram h h' /\ s <= n /\
    used_at (ram h) bs' ≡ₚ (v, n) :: used_at (ram h) bs.

Lemma malloc_loop_run h s bs : lheap_rep h bs -> lblk_size s -> s <= MEM_SIZE_ALIGNED ->
  forall l l1 fuel, bs = l1 ++ l -> (length l < fuel)%nat ->
  exists v h', malloc_loop fuel (end_addr (ram h) l1 - ram h) s h = Done (v, h') /\ malloc_result h bs l s v h'.
Proof.
  intros [HT Hco Hlf] Hs Hmax. induction l as [|[sz u] l IH]; intros l1 [|fuel] Hbs Hf; try (simpl in Hf; lia);
    cbn [malloc_loop]; change MEM_SIZE_ALIGNED with 25600 in *; pose proof Hs as [Z1 M1].
  - rewrite u32_small by lia. pose proof (lr_end _ _ HT) as He. rewrite Hbs, app_nil_r, (lr_ram_end _ _ HT) in He.
    change MEM_SIZE_ALIGNED with 25600 in *.
    destruct (Z.ltb_spec (end_addr (ram h) l1 - ram h) (25600 - s)); [lia|]. exists 0, h. by split.
  - subst bs. pose proof (middle_bounds h l1 [(sz, u)] l HT) as B. destruct (middle_seg h l1 [(sz, u)] l HT) as (_ & [S2 _] & _).
    destruct (middle_ok h l1 [(sz, u)] l HT) as (_ & O2 & _). apply Forall_cons in O2 as [[Z2 M2] O2]. pose proof (middle_ok h l1 [(sz, u)] l HT) as (_ & _ & O3).
    change MIN_SIZE_ALIGNED with 12 in Z2. change MEM_SIZE_ALIGNED with 25600 in *. cbn [end_addr fst snd] in *.
    rewrite span_blk in *. set (E := end_addr (ram h) l1) in *. rewrite u32_small by lia.
    pose proof (end_addr_le (E + (8 + sz)) l (lblk_blk _ O3)).
    assert (Hskip : fits s (sz, u) = false -> malloc_loop fuel (E + (8 + sz) - ram h) s h =
      malloc_loop fuel (end_addr (ram h) (l1 ++ [(sz, u)]) - ram h) s h).
    { intros _. rewrite end_addr_app. simpl. rewrite span_blk. by fold E. }
    assert (Hnext : fits s (sz, u) = false -> exists v h', malloc_loop fuel (E + (8 + sz) - ram h) s h = Done (v, h') /\
      malloc_result h (l1 ++ (sz, u) :: l) ((sz, u) :: l) s v h').
    { intros Hfit. rewrite (Hskip Hfit). destruct (IH (l1 ++ [(sz, u)]) fuel) as (v & h' & Hrun & Hres);
        [by rewrite <- app_assoc | simpl in Hf; lia|]. exists v, h'. split; [done|]. unfold malloc_result in *.
      destruct (decide (v = 0)); [|done]. destruct Hres. by split; [|constructor]. }
    destruct (Z.ltb_spec (E - ram h) (25600 - s)) as [Hlt|Hge].
    + unfold ptr_to_mem. kstep. rewrite (u32_small (ram h + (E - ram h))) by lia. replace (ram h + (E - ram h)) with E by lia.
      run_with (mem_at_run _ _ _ S2). cbn [used next]. change SIZEOF_STRUCT_MEM with 8.
      rewrite (u32_small (E - ram h + 8)) by lia. rewrite (u32_small (E + (8 + sz) - ram h - (E - ram h + 8))) by lia.
      replace (E + (8 + sz) - ram h - (E - ram h + 8)) with sz by lia.
      destruct u; cbn [flag Z.eqb andb]; [by apply Hnext|].
      destruct (Z.geb_spec sz s) as [Hge'|Hlt']; [|apply Hnext; unfold fits; simpl; by apply Z.leb_gt].
      destruct (take_mem_run h l1 sz l s _ HT Hs Hge' S2) as (h1 & n & rest & Hrun1 & HT1 & [R1 R1'] & L1 & Hn & Hu1 & Hc1).
      fold E in Hrun1, Hu1. run_with Hrun1. destruct (adjust_lfree_run h1 l1 n rest sz l HT1) as (h2 & Hrun2 & HT2 & [R2 R2'] & L2); [congruence|].
      rewrite R1 in Hrun2. fold E in Hrun2. run_with Hrun2. rewrite u32_small by lia. exists (E + 8), h2. split; [done|].
      unfold malloc_result. rewrite decide_False by lia. exists (l1 ++ (n, true) :: rest), n.
      split_and!; [split; [done | by apply Hc1 | congruence] | split; congruence | done |].
      rewrite !used_at_app. fold E. cbn [used_at snd app fst]. rewrite !span_blk, !Z.add_assoc, Hu1. by rewrite Permutation_middle.
    + exists 0, h. split; [done|]. unfold malloc_result. rewrite decide_True by done. split; [done|].
      assert (Hall : Forall (fun b => b.1 < s) ((sz, u) :: l)).
      { constructor; [simpl; lia|]. apply Forall_forall. intros b Hb. apply list_elem_of_In, in_split in Hb as (k1 & k2 & ->).
        rewrite end_addr_app in B. cbn [end_addr] in B. apply Forall_app in O3 as [O4 [[Z5 _] O5]%Forall_cons].
        pose proof (end_addr_le (E + (8 + sz)) k1 (lblk_blk _ O4)). pose proof (end_addr_le (end_addr (E + (8 + sz)) k1 + span b) k2 (lblk_blk _ O5)).
        unfold span, MEM_NODE_SIZE in *. lia. }
      eapply Forall_impl; [exact Hall|]. intros b Hb. cbv beta in Hb. unfold fits. destruct (Z.leb_spec s b.1); [lia|]. by rewrite andb_false_r.
Qed.

Lemma lwip_align_spec n :
  0 <= n < 2 ^ 16 -> n <= LWIP_MEM_ALIGN_SIZE n < n + 4 /\ LWIP_MEM_ALIGN_SIZE n mod 4 = 0.
Proof.
  intros Hn. unfold LWIP_MEM_ALIGN_SIZE, MEM_ALIGNMENT. change (4 - 1) with 3. rewrite u32_small by lia.
  rewrite land_not3 by lia. replace (n + 4 - 1) with (n + 3) by lia.
  pose proof (Z.div_mod (n + 3) 4 ltac:(lia)). pose proof (Z.mod_pos_bound (n + 3) 4 ltac:(lia)).
  split; [lia|]. rewrite Z.mul_comm. apply Z.mod_mul. lia.
Qed.

(** The size of the block for [n] bytes: 16 bits may not be enough for it. *)
Definition block_size (n : Z) : Z :=
  let s := u16 (LWIP_MEM_ALIGN_SIZE n) in if s <? MIN_SIZE_ALIGNED then MIN_SIZE_ALIGNED else s.

Lemma block_size_spec n : 0 <= n < 2 ^ 16 ->
  (n <= block_size n /\ lblk_size (block_size n) /\ forall s, lblk_size s -> n <= s -> block_size n <= s) \/
  (block_size n < n /\ 65532 < n).
Proof.
  intros Hn. destruct (lwip_align_spec n Hn) as [A1 A2]. unfold block_size. change MIN_SIZE_ALIGNED with 12.
  set (al := LWIP_MEM_ALIGN_SIZE n) in *. clearbody al. apply Z.mod_divide in A2 as [q ->]; [|done].
  destruct (decide (q * 4 < 2 ^ 16)) as [Hq|Hq].
  - left. rewrite u16_small by lia. destruct (Z.ltb_spec (q * 4) 12) as [Hlt|Hge].
    + split_and!; [lia | done |]. intros s [Hs _] _. lia.
    + split_and!; [lia | split; [lia | apply Z.mod_mul; lia] |]. intros s [Hs Hs4] Hns.
      apply Z.mod_divide in Hs4 as [q' ->]; [|done]. lia.
  - right. assert (q * 4 = 65536) as -> by lia. simpl. lia.
Qed.

Lemma first_free_split a bs : exists l1 l, bs = l1 ++ l /\ Forall (fun b => b.2 = true) l1 /\ first_free a bs = end_addr a l1.
Proof.
  revert a. induction bs as [|[s u] bs IH]; intros a; [by exists [], []|]. destruct u.
  - destruct (IH (a + span (s, true))) as (l1 & l & -> & H1 & H2). exists ((s, true) :: l1), l. split_and!; try done. by constructor.
  - by exists [], ((s, false) :: bs).
Qed.

Lemma block_bound h bs b : tiled h bs -> b ∈ bs -> b.1 <= MEM_SIZE_ALIGNED - 8 /\ lblk_ok b.
Proof.
  intros HT Hb. apply list_elem_of_In, in_split in Hb as (l1 & l2 & ->). pose proof (middle_bounds h l1 [b] l2 HT) as B.
  destruct (middle_ok h l1 [b] l2 HT) as (_ & [O2 _]%Forall_cons & _). cbn [end_addr] in B.
  unfold span, MEM_NODE_SIZE in *. split; [lia | done].
Qed.

Lemma lheap_malloc h bs n :
  lheap_rep h bs -> 0 < n < 2 ^ 16 ->
  exists v h', mem_malloc n h = Done (v, h') /\ malloc_result h bs bs n v h'.
Proof.
  intros HR Hn. pose proof HR as [HT Hco Hlf]. unfold mem_malloc. destruct (Z.eqb_spec n 0); [lia|]. fold (block_size n).
  destruct (block_size_spec n) as [(B1 & B2 & B3)|[B1 B2]]; [lia | |].
  - destruct (Z.ltb_spec (block_size n) n); [lia|]. rewrite orb_false_r. destruct (Z.gtb_spec (block_size n) MEM_SIZE_ALIGNED) as [Hgt|Hle].
    + exists 0, h. split; [done|]. unfold malloc_result. rewrite decide_True by done. split; [done|]. apply Forall_forall.
      intros b Hb. destruct (block_bound _ _ _ HT Hb) as [Hb1 [Hb2 Hb3]]. unfold fits. change MIN_SIZE_ALIGNED with 12 in Hb2.
      destruct (Z.leb_spec n b.1) as [Hle|]; [|by rewrite andb_false_r]. pose proof (B3 b.1 (conj Hb2 Hb3) Hle). lia.
    + destruct (first_free_split (ram h) bs) as (l1 & l & -> & Hu & Hff). unfold mem_to_ptr. kstep. rewrite Hlf, Hff.
      pose proof (middle_bounds h l1 [] l HT) as B. rewrite u16_off by lia.
      pose proof (heap_fuel_enough _ _ HT) as Hf. rewrite length_app in Hf.
      destruct (malloc_loop_run h (block_size n) _ HR B2 Hle l l1 (heap_fuel h) eq_refl) as (v & h' & Hrun & Hres); [lia|].
      exists v, h'. split; [exact Hrun|]. unfold malloc_result in *. destruct (decide (v = 0)).
      * destruct Hres as [-> Hnf]. split; [done|]. apply Forall_app. split.
        -- eapply Forall_impl; [exact Hu|]. intros b Hb. unfold fits. by rewrite Hb.
        -- apply Forall_forall. intros b Hb. rewrite Forall_forall in Hnf. specialize (Hnf b Hb). unfold fits in *.
           destruct (block_bound _ _ b HT) as [_ [Hb2 Hb3]]; [by apply elem_of_app; right|].
           apply andb_false_iff in Hnf as [->|Hnf]; [done|]. apply Z.leb_gt in Hnf. change MIN_SIZE_ALIGNED with 12 in Hb2.
           destruct (Z.leb_spec n b.1) as [Hle'|]; [|by rewrite andb_false_r]. pose proof (B3 b.1 (conj Hb2 Hb3) Hle'). lia.
      * destruct Hres as (bs' & sz & R1 & R2 & R3 & R4). exists bs', sz. split_and!; try done. lia.
  - destruct (Z.ltb_spec (block_size n) n); [|lia]. rewrite orb_true_r. exists 0, h. split; [done|]. unfold malloc_result. rewrite decide_True by done. split; [done|]. apply Forall_forall.
    intros b Hb. destruct (block_bound _ _ _ HT Hb) as [Hb1 _]. unfold fits. change MEM_SIZE_ALIGNED with 25600 in Hb1.
    destruct (Z.leb_spec n b.1); [lia|]. by rewrite andb_false_r.
Qed.

(** ** Shrinking *)

Section trim.
Context (h : lwip_heap) (l1 l2 : list blk) (sz s p : Z).
Local Abbreviation r := (ram h).
Local Abbreviation E := (end_addr r l1).
Local Abbreviation C := (E + 8 + s).
Hypothesis HR : lheap_rep h (l1 ++ (sz, true) :: l2).
Hypothesis Hs : lblk_size s.
Hypothesis Hlt : s < sz.

Lemma trim_bounds :
  0 < r <= E /\ 12 <= s /\ E + 8 + sz <= ram_end h /\ ram_end h = r + 25600 /\ ram_end h + 8 < 2 ^ 32 /\
  Forall lblk_ok l1 /\ Forall lblk_ok l2 /\ coalesced l1 /\ coalesced l2 /\ exists q, sz - s = 4 * q.
Proof.
  destruct HR as [HT Hco _]. destruct Hs as [Z1 M1]. apply coalesced_used in Hco as [C1 C2].
  pose proof (middle_bounds h l1 [(sz, true)] l2 HT) as B. destruct (middle_ok h l1 [(sz, true)] l2 HT) as (O1 & O2 & O3).
  apply Forall_cons in O2 as [[_ M2] _]. cbn [end_addr fst] in *. rewrite span_blk in B.
  change MEM_SIZE_ALIGNED with 25600 in B. split_and!; try done; try lia.
  apply Z.mod_divide in M1 as [q1 E1]; [|done]. apply Z.mod_divide in M2 as [q2 E2]; [|done]. exists (q2 - q1). lia.
Qed.

(** The block is cut after [s] bytes and the rest becomes a free block of [t]
    bytes; [h0] is the heap with [lfree] already moved. *)
Lemma trim_cut_run h0 mid l3 t f :
  tiled h0 (l1 ++ ((sz, true) :: mid) ++ l3) -> ram h0 = r -> ram_end h0 = ram_end h -> mems h0 = mems h ->
  end_addr (E + 8 + sz) mid = C + 8 + t -> lblk_size t -> coalesced ((t, false) :: l3) ->
  lfree h0 = first_free r (l1 ++ (s, true) :: (f, false) :: l3) ->
  exists h', (new_mem2 E (E - r) (C - r) (C + 8 + t - r);;
      (if negb (C + 8 + t - r =? MEM_SIZE_ALIGNED) then link_prev (C + 8 + t - r) (C - r) else mret tt);; mret p) h0 =
      Done (p, h') /\
    lheap_rep h' (l1 ++ (s, true) :: (t, false) :: l3) /\ same_ram h h'.
Proof.
  intros HT0 R0 R0' N0 Hmid Ht Hc Hlf. destruct trim_bounds as (B1 & B2 & B3 & B4 & B5 & _ & _ & C1 & _).
  destruct HR as [HT _ _]. destruct (middle_seg h l1 [(sz, true)] l2 HT) as (_ & [S2 _] & _).
  destruct (split_tiled h0 l1 ((sz, true) :: mid) l3 s t true HT0) as (h' & Hrun & HT' & [R1 R1'] & L1); try done.
  { rewrite R0. cbn [end_addr]. by rewrite span_blk, Z.add_assoc. }
  rewrite R0 in Hrun. run_by ltac:(apply new_mem2_run; [rewrite N0; exact S2 | rewrite ?R0; lia..]). rewrite R0.
  replace (r + (C - r)) with C by lia. unfold set_next. cbn [prev used snd]. run_with Hrun.
  exists h'. split; [done|]. split; [|split; congruence]. split; [done | by apply coalesced_used |].
  rewrite L1, Hlf, R1, R0. destruct (first_free_cases r l1) as [[_ F]|[_ F]]; [apply trim_bounds | by rewrite !F..].
Qed.

(** What the cut does to the lowest free block. *)
Lemma trim_lfree : forall f l3,
  (lfree h < E /\ lfree h = first_free r (l1 ++ (s, true) :: (f, false) :: l3)) \/
  (C < lfree h /\ lfree h = first_free (E + 8 + sz) l2 /\ C = first_free r (l1 ++ (s, true) :: (f, false) :: l3)).
Proof.
  intros f l3. destruct trim_bounds as (B1 & B2 & B3 & B4 & B5 & O1 & O3 & _). destruct HR as [_ _ Hlf].
  destruct (first_free_cases r l1 O1) as [[F1 F]|[_ F]]; [left | right]; rewrite F in *.
  - by rewrite Hlf.
  - cbn [first_free snd] in *. rewrite span_blk, Z.add_assoc in *.
    pose proof (first_free_range (E + 8 + sz) l2 O3). split_and!; [lia | done | done].
Qed.
End trim.

Definition with_lfree (b : bool) (a : Z) (h : lwip_heap) : lwip_heap := if b then set_lfree a h else h.

Lemma with_lfree_run (b : bool) a h : (if b then modify (set_lfree a) else mret tt) h = Done (tt, with_lfree b a h).
Proof. by destruct b. Qed.

Lemma with_lfree_same b a h :
  ram (with_lfree b a h) = ram h /\ ram_end (with_lfree b a h) = ram_end h /\ mems (with_lfree b a h) = mems h.
Proof. by destruct b. Qed.

Lemma with_lfree_tiled (b : bool) a h bs : tiled h bs -> tiled (with_lfree b a h) bs.
Proof. intros HT. destruct b; [|done]. by destruct HT. Qed.

Lemma trim_tail_run h l1 l2 sz s p m :
  let r := ram h in let E := end_addr r l1 in let C := E + 8 + s in
  lheap_rep h (l1 ++ (sz, true) :: l2) -> lblk_size s -> s < sz -> next m = E + 8 + sz - r ->
  exists h' sz' rest, trim_tail m p E (E - r) s sz h = Done (p, h') /\
    lheap_rep h' (l1 ++ (sz', true) :: rest) /\ same_ram h h' /\ s <= sz' <= sz /\ sz' < s + 20 /\
    used_at (E + 8 + sz') rest = used_at (E + 8 + sz) l2.
Proof.
  intros r E C HR Hs Hlt Hnx. destruct (trim_bounds h l1 l2 sz s HR Hs) as (B1 & B2 & B3 & B4 & B5 & O1 & O3 & C1 & C2 & q & Hq).
  fold r E in B1, B3. pose proof (lr_tiled _ _ HR) as HT.
  destruct (next_header _ _ _ _ _ HT) as (m2 & Hm2 & Hu2). fold r E in Hm2.
  assert (HC : u32 (r + (C - r)) = C) by (rewrite u32_small; unfold C; lia).
  unfold trim_tail, ptr_to_mem. kstep. fold r. rewrite Hnx. change SIZEOF_STRUCT_MEM with 8. change MIN_SIZE_ALIGNED with 12.
  rewrite (u32_small (r + (E + 8 + sz - r))) by lia. replace (r + (E + 8 + sz - r)) with (E + 8 + sz) by lia.
  run_with (mem_at_run _ _ _ Hm2). rewrite (u16_small (E - r + 8 + s)), (u32_small (s + 8 + 12)) by lia.
  replace (E - r + 8 + s) with (C - r) by (unfold C; lia). replace (s + 8 + 12) with (s + 20) by lia.
  destruct (free_head l2) as [He|(s2 & l3 & ->)].
  - replace (used m2 =? 0) with false; last first.
    { symmetry. apply Z.eqb_neq. destruct l2 as [|[? []] ?]; simpl in *; try done; rewrite Hu2; done. }
    destruct (Z.leb_spec (s + 20) sz) as [Hroom|Hroom]; last by exists h, sz, l2; split_and!; try done; lia.
    set (t := sz - s - 8). assert (Ht : lblk_size t).
    { split; [unfold t; lia|]. apply Z.mod_divide; [done|]. exists (q - 2). unfold t. lia. }
    kstep. fold r. rewrite HC. run_by ltac:(apply with_lfree_run).
    set (h0 := with_lfree _ _ h). destruct (with_lfree_same (C <? lfree h) C h) as (R0 & R0' & N0). fold h0 in R0, R0', N0.
    replace (E + 8 + sz - r) with (C + 8 + t - r) by (unfold C, t; lia).
    destruct (trim_cut_run h l1 l2 sz s p HR Hs Hlt h0 [] l2 t t) as (h' & Hrun & HR' & Hsr); try done.
    + apply with_lfree_tiled. exact HT.
    + simpl. fold r E. unfold t. lia.
    + by apply coalesced_free.
    + fold r. unfold h0. destruct (trim_lfree h l1 l2 sz s HR Hs Hlt t l2) as [[F1 F2]|(F1 & _ & F2)]; fold r E in F1, F2.
      * destruct (Z.ltb_spec C (lfree h)); [unfold C in *; lia | done].
      * fold C in F1, F2. destruct (Z.ltb_spec C (lfree h)); [done | lia].
    + fold r E C in Hrun. exists h', s, ((t, false) :: l2). split_and!; try done; try lia.
      cbn [used_at snd app]. rewrite span_blk. f_equal. unfold t. lia.
  - cbn [flag snd] in Hu2. rewrite Hu2. cbn [Z.eqb]. kstep. set (t := s2 + (sz - s)).
    destruct (middle_seg h l1 [(sz, true)] ((s2, false) :: l3) HT) as (_ & _ & S3 & _). cbn [end_addr] in S3.
    rewrite !span_blk, !Z.add_assoc in S3. fold r E in S3. rewrite Hm2 in S3. injection S3 as ->. cbn [next].
    apply Forall_cons in O3 as [[Z2 M2] O3]. change MIN_SIZE_ALIGNED with 12 in Z2. cbn [fst] in Z2, M2.
    assert (Ht : lblk_size t).
    { split; [unfold t; lia|]. apply Z.mod_divide in M2 as [q2 ->]; [|done]. apply Z.mod_divide; [done|]. exists (q2 + q). unfold t. lia. }
    replace (E + 8 + sz + 8 + s2 - r) with (C + 8 + t - r) by (unfold C, t; lia).
    set (h0 := with_lfree (lfree h =? E + 8 + sz) C h).
    destruct (with_lfree_same (lfree h =? E + 8 + sz) C h) as (R0 & R0' & N0). fold h0 in R0, R0', N0.
    run_by ltac:(instantiate (1 := h0); instantiate (1 := tt); unfold h0, ptr_to_mem; destruct (lfree h =? E + 8 + sz); [kstep; fold r; by rewrite HC | done]).
    destruct (trim_cut_run h l1 ((s2, false) :: l3) sz s p HR Hs Hlt h0 [(s2, false)] l3 t t) as (h' & Hrun & HR' & Hsr); try done.
    + apply with_lfree_tiled. exact HT.
    + simpl. rewrite span_blk. fold r E. unfold t. lia.
    + fold r. unfold h0. destruct (trim_lfree h l1 _ sz s HR Hs Hlt t l3) as [[F1 F2]|(F1 & F3 & F2)]; fold r E in F1, F2.
      * destruct (Z.eqb_spec (lfree h) (E + 8 + sz)); [lia | done].
      * fold C in F1, F2. cbn [first_free snd] in F3. fold r E in F3. rewrite F3, Z.eqb_refl. done.
    + fold r E C in Hrun. exists h', s, ((t, false) :: l3). split_and!; try done; try lia.
      cbn [used_at snd app]. rewrite !span_blk. f_equal. unfold t. lia.
Qed.

Lemma block_size_upper n : 0 <= n < 2 ^ 16 - 4 -> block_size n <= Z.max 12 (n + 3).
Proof.
  intros Hn. destruct (lwip_align_spec n ltac:(lia)) as [A _]. unfold block_size. rewrite u16_small by lia.
  change MIN_SIZE_ALIGNED with 12. destruct (Z.ltb_spec (LWIP_MEM_ALIGN_SIZE n) 12); lia.
Qed.

(** A trimmed block keeps less than a header and a smallest block more than it
    was asked for, rounded up. *)
Lemma lheap_trim h bs p sz n :
  lheap_rep h bs -> (p, sz) ∈ used_at (ram h) bs -> 0 <= n <= sz ->
  exists h' bs' sz' rest, mem_trim p n h = Done (p, h') /\ lheap_rep h' bs' /\ same_ram h h' /\ n <= sz' <= sz /\
    sz' < Z.max 12 (n + 3) + 20 /\
    used_at (ram h) bs ≡ₚ (p, sz) :: rest /\ used_at (ram h) bs' ≡ₚ (p, sz') :: rest.
Proof.
  intros HR Hin Hn. pose proof (lr_tiled _ _ HR) as HT. destruct (used_at_split _ _ _ _ Hin) as (l1 & l2 & -> & Hp).
  pose proof (middle_bounds h l1 [(sz, true)] l2 HT) as B. destruct (middle_seg h l1 [(sz, true)] l2 HT) as (_ & [S2 _] & _).
  destruct (middle_ok h l1 [(sz, true)] l2 HT) as (O1 & O2 & O3). apply Forall_cons in O2 as [[Z1 M1] _].
  change MIN_SIZE_ALIGNED with 12 in Z1. cbn [end_addr fst snd] in *. rewrite span_blk, Z.add_assoc in *.
  set (E := end_addr (ram h) l1) in *. unfold MEM_NODE_SIZE in Hp. change MEM_SIZE_ALIGNED with 25600 in B.
  pose proof (block_size_upper n ltac:(lia)) as Hup. destruct (block_size_spec n) as [(B1 & B2 & B3)|[B1 B2]]; [lia | | lia]. pose proof (B3 sz (conj Z1 M1) (proj2 Hn)) as Hns.
  assert (HU : forall s rest, used_at (E + 8 + s) rest = used_at (E + 8 + sz) l2 ->
    used_at (ram h) (l1 ++ (s, true) :: rest) ≡ₚ (p, s) :: used_at (ram h) l1 ++ used_at (E + 8 + sz) l2).
  { intros s rest Hr. rewrite used_at_app. fold E. cbn [used_at snd fst app]. rewrite span_blk, Z.add_assoc, Hr.
    unfold MEM_NODE_SIZE. rewrite <- Hp. by rewrite Permutation_middle. }
  unfold mem_trim. fold (block_size n). destruct (Z.gtb_spec (block_size n) MEM_SIZE_ALIGNED) as [Hgt|_];
    [change MEM_SIZE_ALIGNED with 25600 in Hgt; lia|]. destruct (Z.ltb_spec (block_size n) n); [lia|]. cbn [orb]. kstep.
  destruct (Z.ltb_spec p (ram h)); [lia|]. destruct (Z.geb_spec p (ram_end h)); [lia|]. cbn [orb].
  unfold mem_to_ptr. kstep. change SIZEOF_STRUCT_MEM with 8. rewrite (u32_small (p - 8)) by lia. replace (p - 8) with E by lia.
  rewrite u16_off by (change MEM_SIZE_ALIGNED with 25600; lia). run_with (mem_at_run _ _ _ S2). cbn [next].
  rewrite (u16_small (E + 8 + sz - ram h - (E - ram h))) by lia. rewrite (u16_small (_ - 8)) by lia.
  replace (E + 8 + sz - ram h - (E - ram h) - 8) with sz by lia. set (s := block_size n) in *.
  destruct (Z.gtb_spec s sz); [lia|]. destruct (Z.eqb_spec s sz) as [Hs|Hs].
  { exists h, (l1 ++ (sz, true) :: l2), sz. eexists. split_and!; try done; [lia | lia | by apply HU | by apply HU]. }
  destruct (trim_tail_run h l1 l2 sz s p (mk_mem (E + 8 + sz - ram h) (last_addr (ram h) (ram h) l1 - ram h) (flag true)) HR B2)
    as (h' & sz' & rest & Hrun & HR' & Hsr & Hsz & Hsl & Hu); [lia | done |].
  fold E in Hrun, Hu. exists h', (l1 ++ (sz', true) :: rest), sz'. eexists.
  split_and!; [exact Hrun | done | done | lia | lia | lia | by apply HU | by apply HU].
Qed.

(** ** The contract of the heap *)

Lemma mem_init_ok addr h0 :
  0 < addr -> addr + 3 + MEM_SIZE_ALIGNED + 2 * SIZEOF_STRUCT_MEM < 2 ^ 32 ->
  exists h, mem_init addr h0 = Done (tt, h) /\ addr <= ram h < addr + 4 /\ lheap_rep h [(MEM_SIZE_ALIGNED - 8, false)].
Proof.
  change MEM_SIZE_ALIGNED with 25600. change SIZEOF_STRUCT_MEM with 8. intros H0 H1.
  set (a := LWIP_MEM_ALIGN addr). assert (Ha : addr <= a < addr + 4 /\ a mod 4 = 0).
  { unfold a, LWIP_MEM_ALIGN, MEM_ALIGNMENT. change (4 - 1) with 3. rewrite u32_small by lia. rewrite land_not3 by lia.
    replace (addr + 4 - 1) with (addr + 3) by lia.
    pose proof (Z.div_mod (addr + 3) 4 ltac:(lia)). pose proof (Z.mod_pos_bound (addr + 3) 4 ltac:(lia)).
    split; [lia|]. rewrite Z.mul_comm. apply Z.mod_mul. lia. }
  unfold mem_init, ptr_to_mem. fold a. kstep. cbn [ram put_mem]. change MEM_SIZE_ALIGNED with 25600. rewrite u32_small by lia.
  eexists. split; [done|]. split; [simpl; lia|]. split; [|done..]. split; simpl; change MEM_SIZE_ALIGNED with 25600; change SIZEOF_STRUCT_MEM with 8.
  - lia.
  - done.
  - split; [|done]. rewrite lookup_insert_ne by lia. rewrite lookup_insert_eq. unfold span, MEM_NODE_SIZE. simpl. do 2 f_equal; lia.
  - unfold span, MEM_NODE_SIZE. simpl. lia.
  - apply lookup_insert_eq.
  - by repeat constructor.
Qed.

Inductive heap_request : Type :=
| Malloc (n : Z)
| Free (p : Z)
| Trim (p n : Z).

Definition run_request (q : heap_request) : prog lwip_heap Z :=
  match q with
  | Malloc n => mem_malloc n
  | Free p => mem_free p;; mret 0
  | Trim p n => mem_trim p n
  end.

(** The requests a user that owns the blocks [us] may make. *)
Definition request_ok (us : list (Z * Z)) (q : heap_request) : Prop :=
  match q with
  | Malloc n => 0 < n < 2 ^ 16
  | Free p => exists sz, (p, sz) ∈ us
  | Trim p n => exists sz, (p, sz) ∈ us /\ 0 <= n <= sz
  end.

(** The blocks in use after a request that returned [v]; [free] are the sizes of
    the free blocks before it. *)
Definition request_effect (q : heap_request) (v : Z) (us us' : list (Z * Z)) (free : list Z) : Prop :=
  match q with
  | Malloc n => (v = 0 /\ us' = us /\ Forall (fun z => z < n) free) \/
                (v <> 0 /\ exists sz, n <= sz /\ us' ≡ₚ (v, sz) :: us)
  | Free p => exists sz, us ≡ₚ (p, sz) :: us'
  | Trim p n => v = p /\ exists sz sz' rest, n <= sz' <= sz /\ us ≡ₚ (p, sz) :: rest /\ us' ≡ₚ (p, sz') :: rest
  end.

Definition free_sizes (bs : list blk) : list Z := (filter (fun b => b.2 = false) bs).*1.

(** Blocks in use are aligned, lie in the array and, in the order of their
    addresses, have room for a header between them. *)
Definition live_ok (h : lwip_heap) (us : list (Z * Z)) : Prop :=
  Forall (fun u => u.1 mod 4 = 0 /\ ram h + SIZEOF_STRUCT_MEM <= u.1 /\ 12 <= u.2 /\ u.1 + u.2 <= ram_end h) us /\
  Sorted (fun u v => u.1 + u.2 + SIZEOF_STRUCT_MEM <= v.1) us.

Lemma used_min a bs p z : Forall lblk_ok bs -> (p, z) ∈ used_at a bs -> 12 <= z.
Proof.
  intros H Hin. apply used_at_split in Hin as (l1 & l2 & -> & _). apply Forall_app in H as [_ [[Hz _] _]%Forall_cons]. done.
Qed.

Lemma live_ok_rep h bs : lheap_rep h bs -> live_ok h (used_at (ram h) bs).
Proof.
  intros [HT _ _]. pose proof (lr_ram _ _ HT) as (R1 & R2 & R3). pose proof (lblk_blk _ (lr_blks _ _ HT)) as Hok. split.
  - apply Forall_forall. intros [p z] Hin. destruct (used_at_range _ _ _ _ Hok Hin) as (H1 & _ & H2 & H3).
    rewrite (lr_end _ _ HT) in H2. split_and!; [by apply H3 | done | eapply used_min; [apply (lr_blks _ _ HT) | done] | done].
  - clear -Hok. revert Hok. generalize (ram h). induction bs as [|[s u] bs IH]; intros a Hok; [constructor|].
    apply Forall_cons in Hok as [_ Hok]. cbn [used_at snd fst]. destruct u; cbn [app]; [|by apply IH].
    constructor; [by apply IH|]. destruct (used_at (a + span (s, true)) bs) as [|[p z] us] eqn:Hu; constructor.
    destruct (used_at_range (a + span (s, true)) bs p z Hok) as (H1 & _); [rewrite Hu; left|]. simpl.
    change SIZEOF_STRUCT_MEM with 8. rewrite span_blk in H1. unfold MEM_NODE_SIZE in *. lia.
Qed.

(** C30: Heap of the network stack.  On every heap that [mem_init] and the requests
    below produce, a request of an owner succeeds: [mem_malloc] returns null only
    when every free block is smaller than the request, and otherwise a block of at
    least that size that no one owned; [mem_free] gives back exactly the block;
    [mem_trim] keeps the block at its address, with at least the new size.  No
    other block changes, and afterwards the blocks are again aligned, disjoint
    with room for their headers and inside the array, neighbouring free blocks
    are merged, and [lfree] is the lowest of them. *)
Theorem lwip_heap_refines h bs q :
  lheap_rep h bs -> request_ok (used_at (ram h) bs) q ->
  exists v h' bs', run_request q h = Done (v, h') /\ lheap_rep h' bs' /\ same_ram h h' /\
    request_effect q v (used_at (ram h) bs) (used_at (ram h') bs') (free_sizes bs) /\
    live_ok h' (used_at (ram h') bs').
Proof.
  intros HR Hq. destruct q as [n|p|p n]; simpl in Hq |- *.
  - destruct (lheap_malloc h bs n HR Hq) as (v & h' & Hrun & Hres). unfold malloc_result in Hres. exists v, h'.
    destruct (decide (v = 0)) as [->|Hv].
    + destruct Hres as [-> Hnf]. exists bs. split_and!; try done; [|by apply live_ok_rep]. left. split_and!; try done.
      apply Forall_forall. intros z Hz. apply list_elem_of_fmap in Hz as (b & -> & [Hb Hin]%list_elem_of_filter).
      rewrite Forall_forall in Hnf. specialize (Hnf b Hin). unfold fits in Hnf. rewrite Hb in Hnf. by apply Z.leb_gt.
    + destruct Hres as (bs' & sz & HR' & Hsr & Hsz & Hu). exists bs'. split_and!; try done; [|by apply live_ok_rep].
      right. destruct Hsr as [-> _]. eauto.
  - destruct Hq as [sz Hin]. destruct (lheap_free h bs p sz HR Hin) as (h' & bs' & Hrun & HR' & Hsr & Hu).
    exists 0, h', bs'. split_and!; try done; [by run_with Hrun | | by apply live_ok_rep]. destruct Hsr as [-> _]. eauto.
  - destruct Hq as (sz & Hin & Hn). destruct (lheap_trim h bs p sz n HR Hin Hn) as (h' & bs' & sz' & rest & Hrun & HR' & Hsr & Hsz & _ & Hu & Hu').
    exists p, h', bs'. split_and!; try done; [|by apply live_ok_rep]. destruct Hsr as [-> _]. by exists sz, sz', rest.
Qed.

(** Three blocks, the middle one shrunk and the first one freed. *)
Definition lwip_heap0 : lwip_heap := mk_lwip_heap 0 0 0 ∅.

Definition lwip_demo : lwip_heap :=
  match (mem_init 0x20010001;; a ← mem_malloc 100; b ← mem_malloc 401; c ← mem_malloc 7;
         mem_trim b 200;; mem_free a) lwip_heap0 with
  | Done (_, h) => h | _ => lwip_heap0 end.

Fixpoint seg_check (N : gmap Z mem) (r p a : Z) (bs : list blk) : bool :=
  match bs with
  | [] => true
  | b :: bs' => match N !! a with
                | Some (mk_mem n q u) => (n =? a + span b - r) && (q =? p - r) && (u =? flag b.2)
                | None => false
                end && seg_check N r a (a + span b) bs'
  end.

Lemma seg_check_sound N r p a bs : seg_check N r p a bs = true -> seg N r p a bs.
Proof.
  revert p a. induction bs as [|b bs IH]; intros p a; simpl; [done|]. intros [H1 H2]%andb_true_iff.
  split; [|by apply IH]. destruct (N !! a) as [[n q u]|]; [|done].
  apply andb_true_iff in H1 as [[H1 H3]%andb_true_iff H4]. apply Z.eqb_eq in H1, H3, H4. by subst.
Qed.

Definition demo_lblocks : list blk := [(100, false); (200, true); (196, false); (12, true); (25052, false)].

Lemma lwip_demo_rep : lheap_rep lwip_demo demo_lblocks.
Proof.
  split; [split| |].
  - vm_compute. done.
  - vm_compute. done.
  - apply seg_check_sound. vm_compute. done.
  - vm_compute. done.
  - vm_compute. done.
  - repeat constructor; vm_compute; done.
  - vm_compute. done.
  - vm_compute. done.
Qed.

Lemma lwip_heap_refines_witness :
  exists v h' bs', run_request (Malloc 150) lwip_demo = Done (v, h') /\ lheap_rep h' bs' /\ v = 0x20010004 + 8 + 316.
Proof.
  destruct (lwip_heap_refines lwip_demo demo_lblocks (Malloc 150) lwip_demo_rep) as (v & h' & bs' & Hrun & HR & _).
  - simpl. lia.
  - exists v, h', bs'. split; [done|]. split; [done|]. vm_compute in Hrun. injection Hrun as <- _. reflexivity.
Defined.
