(* ===== verification/LwipMemp.v ===== *)
(** * Pools of the network stack (common/lwip/core/memp.c, include/lwip/priv/memp_priv.h)

    Pools of elements of one size, in the configuration of lwipopts.h: without
    overflow and sanity checks and without statistics, so that [MEMP_SIZE] is 0
    and a free element is only the pointer to the next one.  A state holds the
    table of pool descriptors, the variables [memp_tab_*] by their address and
    the [next] pointers of the free elements by theirs; an element given out
    belongs to its user, and its first word is no pointer any more.  The
    operations run in one critical section ([SYS_ARCH_PROTECT]). *)

From S2P Require Import Prelude LwipMem.

Definition MEMP_SIZE : Z := 0.

(** The pools of memp_std.h in this configuration, in the order of [memp_t]. *)
Definition MEMP_PBUF : Z := 11.
Definition MEMP_PBUF_POOL : Z := 12.

Record memp_desc : Type := mk_desc {
  desc_size : Z;
  num : Z;
  base : Z;
  tab : Z
}.

Record memp_state : Type := mk_memp {
  memp_pools : list memp_desc;
  tabs : gmap Z Z;
  memp_next : gmap Z Z
}.

Definition MEMP_MAX (s : memp_state) : Z := Z.of_nat (length (memp_pools s)).

Definition put_tab (d : memp_desc) (a : Z) (s : memp_state) : memp_state :=
  mk_memp (memp_pools s) (<[tab d := a]> (tabs s)) (memp_next s).
Definition put_link (a n : Z) (s : memp_state) : memp_state :=
  mk_memp (memp_pools s) (tabs s) (<[a := n]> (memp_next s)).
Definition drop_link (a : Z) (s : memp_state) : memp_state :=
  mk_memp (memp_pools s) (tabs s) (delete a (memp_next s)).

Definition tab_at (d : memp_desc) : prog memp_state Z := deref (fun s => tabs s !! tab d).

(** [memp->next = *desc->tab; *desc->tab = memp;] *)
Definition push_elem (d : memp_desc) (memp : Z) : prog memp_state unit :=
  t ← tab_at d; modify (put_link memp t);; modify (put_tab d memp).

(** [for (i = 0; i < desc->num; ++i)] *)
Fixpoint init_loop (n : nat) (d : memp_desc) (memp : Z) : prog memp_state unit :=
  match n with
  | O => mret tt
  | S n' => push_elem d memp;; init_loop n' d (u32 (memp + MEMP_SIZE + desc_size d))
  end.

Definition memp_init_pool (d : memp_desc) : prog memp_state unit :=
  modify (put_tab d 0);; init_loop (Z.to_nat (num d)) d (LWIP_MEM_ALIGN (base d)).

Fixpoint init_pools (ds : list memp_desc) : prog memp_state unit :=
  match ds with
  | [] => mret tt
  | d :: ds' => memp_init_pool d;; init_pools ds'
  end.

Definition memp_init : prog memp_state unit :=
  ds ← gets memp_pools; init_pools ds.

Definition do_memp_malloc_pool (d : memp_desc) : prog memp_state Z :=
  memp ← tab_at d;
  if negb (memp =? 0) then
    n ← deref (fun s => memp_next s !! memp);
    modify (put_tab d n);;
    modify (drop_link memp);;
    mret (u32 (memp + MEMP_SIZE))
  else mret 0.

Definition memp_malloc (type : Z) : prog memp_state Z :=
  s ← gets id;
  if type <? MEMP_MAX s then
    d ← deref (fun s => memp_pools s !! Z.to_nat type); do_memp_malloc_pool d
  else mret 0.

(** [memp_malloc_pool] of a private pool; [None] is a null descriptor. *)
Definition memp_malloc_pool (d : option memp_desc) : prog memp_state Z :=
  match d with None => mret 0 | Some d => do_memp_malloc_pool d end.

Definition do_memp_free_pool (d : memp_desc) (mem : Z) : prog memp_state unit :=
  push_elem d (u32 (mem - MEMP_SIZE)).

Definition memp_free (type mem : Z) : prog memp_state unit :=
  s ← gets id;
  if type <? MEMP_MAX s then
    if mem =? 0 then mret tt
    else d ← deref (fun s => memp_pools s !! Z.to_nat type); do_memp_free_pool d mem
  else mret tt.

Definition memp_free_pool (d : option memp_desc) (mem : Z) : prog memp_state unit :=
  match d with
  | None => mret tt
  | Some d => if mem =? 0 then mret tt else do_memp_free_pool d mem
  end.
