(* ===== verification/LwipMempSpec.v ===== *)
(** * Pools of the network stack: correctness

    Each pool is a stack of free elements.  Started by [memp_init] on disjoint
    pools, every history of [memp_malloc] and [memp_free] that gives back only
    what was taken returns what the stacks of the abstract specification
    ([pools_run]) return; so an element has at most one owner, and the elements of
    a pool are neither lost nor duplicated. *)

From S2P Require Import Prelude LwipMem LwipMemp.

(** ** Elements and free lists *)

Fixpoint elems_from (n : nat) (a sz : Z) : list Z :=
  match n with O => [] | S n' => a :: elems_from n' (a + sz) sz end.

Definition elems (d : memp_desc) : list Z :=
  elems_from (Z.to_nat (num d)) (LWIP_MEM_ALIGN (base d)) (desc_size d).

(** Pools in different places: the elements are all different and no address wraps. *)
Record pools_ok (ds : list memp_desc) : Prop := {
  po_tabs : NoDup (map tab ds);
  po_elems : NoDup (concat (map elems ds));
  po_range : Forall (fun d => 0 < desc_size d /\ Forall (fun e => 0 < e /\ e + desc_size d < 2 ^ 32) (elems d)) ds
}.

Fixpoint free_list (N : gmap Z Z) (a : Z) (es : list Z) : Prop :=
  match es with
  | [] => a = 0
  | e :: es' => a = e /\ 0 < e < 2 ^ 32 /\ exists n, N !! e = Some n /\ free_list N n es'
  end.

Definition pool_rep (s : memp_state) (d : memp_desc) (es : list Z) : Prop :=
  (exists t, tabs s !! tab d = Some t /\ free_list (memp_next s) t es) /\ NoDup es /\ es ⊆ elems d.

Definition memp_rep (s : memp_state) (frs : list (list Z)) : Prop :=
  pools_ok (memp_pools s) /\ Forall2 (pool_rep s) (memp_pools s) frs.

Lemma free_list_frame N N' a es : free_list N a es -> (forall e, e ∈ es -> N' !! e = N !! e) -> free_list N' a es.
Proof.
  revert a. induction es as [|e es IH]; intros a; simpl; [done|]. intros (-> & He & n & Hn & Hl) HN.
  split_and!; [done | lia | lia |]. exists n. split; [rewrite HN; [done | left]|]. apply IH; [done|]. intros x Hx. apply HN. by right.
Qed.

(** A change of one pool leaves the others alone. *)
Lemma pool_rep_frame s s' d es :
  pool_rep s d es -> tabs s' !! tab d = tabs s !! tab d ->
  (forall e, e ∈ elems d -> memp_next s' !! e = memp_next s !! e) -> pool_rep s' d es.
Proof.
  intros ((t & Ht & Hl) & Hnd & Hsub) Htab Hn. split; [|done]. exists t. rewrite Htab. split; [done|].
  eapply free_list_frame; [done|]. intros e He. by apply Hn, Hsub.
Qed.

Lemma concat_disjoint {A} (ls : list (list A)) i j xs ys x :
  NoDup (concat ls) -> ls !! i = Some xs -> ls !! j = Some ys -> x ∈ xs -> x ∈ ys -> i = j.
Proof.
  revert i j. induction ls as [|l ls IH]; intros [|i] [|j] Hnd Hi Hj Hx Hy; simplify_eq/=; try done;
    apply NoDup_app in Hnd as (_ & Hd & Hnd).
  - exfalso. apply (Hd x Hx). apply list_elem_of_In, in_concat. exists ys. split; apply list_elem_of_In; [by eapply list_elem_of_lookup_2 | done].
  - exfalso. apply (Hd x Hy). apply list_elem_of_In, in_concat. exists xs. split; apply list_elem_of_In; [by eapply list_elem_of_lookup_2 | done].
  - f_equal. by eapply IH.
Qed.

(** Changing the pool [i] of a state. *)
Lemma memp_rep_update s s' frs i d es :
  memp_rep s frs -> memp_pools s' = memp_pools s -> memp_pools s !! i = Some d ->
  (forall a, a <> tab d -> tabs s' !! a = tabs s !! a) ->
  (forall e, e ∉ elems d -> memp_next s' !! e = memp_next s !! e) ->
  pool_rep s' d es -> memp_rep s' (<[i := es]> frs).
Proof.
  intros [Hok HF] Hp Hd Htab Hnx Hrep. split; [by rewrite Hp|]. rewrite Hp.
  apply Forall2_same_length_lookup. rewrite length_insert. apply Forall2_same_length_lookup in HF as [Hlen HF].
  split; [done|]. intros j dj fj Hdj Hfj. destruct (decide (i = j)) as [<-|Hne].
  - apply list_lookup_insert_Some in Hfj as [(_ & -> & _)|[? _]]; [|done]. by simplify_eq.
  - rewrite list_lookup_insert_ne in Hfj by done. eapply pool_rep_frame; [by eapply HF | |].
    + apply Htab. intros E. apply Hne. eapply (NoDup_lookup (map tab (memp_pools s))); [apply Hok | |].
      * rewrite list_lookup_fmap, Hd. done.
      * rewrite list_lookup_fmap, Hdj. simpl. by rewrite E.
    + intros e He. apply Hnx. intros He'. apply Hne.
      eapply (concat_disjoint (map elems (memp_pools s))); [apply Hok | | | exact He' | exact He];
        by rewrite list_lookup_fmap, ?Hd, ?Hdj.
Qed.

(** ** Operations on one pool *)

Lemma push_elem_run s d es e :
  pool_rep s d es -> e ∈ elems d -> e ∉ es -> 0 < e < 2 ^ 32 ->
  exists s', push_elem d e s = Done (tt, s') /\ pool_rep s' d (e :: es) /\ memp_pools s' = memp_pools s /\
    (forall a, a <> tab d -> tabs s' !! a = tabs s !! a) /\
    (forall x, x <> e -> memp_next s' !! x = memp_next s !! x).
Proof.
  intros ((t & Ht & Hl) & Hnd & Hsub) He Hne Hr. eexists. split_and!.
  - unfold push_elem. run_by ltac:(apply deref_some; exact Ht). kstep. done.
  - split_and!; simpl.
    + exists e. rewrite lookup_insert_eq. split_and!; [done | done | lia | lia |]. exists t. rewrite lookup_insert_eq. split; [done|].
      eapply free_list_frame; [done|]. intros x Hx. apply lookup_insert_ne. by intros ->.
    + by constructor.
    + intros x [->|Hx]%elem_of_cons; [done | by apply Hsub].
  - done.
  - intros a Ha. simpl. by rewrite lookup_insert_ne.
  - intros x Hx. simpl. by rewrite lookup_insert_ne.
Qed.

Lemma malloc_pool_run s d es :
  pool_rep s d es ->
  exists s', do_memp_malloc_pool d s = Done (hd 0 es, s') /\ pool_rep s' d (tail es) /\ memp_pools s' = memp_pools s /\
    (forall a, a <> tab d -> tabs s' !! a = tabs s !! a) /\
    (forall x, x ∉ elems d -> memp_next s' !! x = memp_next s !! x).
Proof.
  intros Hrep. pose proof Hrep as ((t & Ht & Hl) & Hnd & Hsub). unfold do_memp_malloc_pool. destruct es as [|e es]; simpl in Hl.
  - subst t. exists s. split_and!; try done. by run_by ltac:(apply deref_some; exact Ht).
  - destruct Hl as (-> & Hr & n & Hn & Hl). apply NoDup_cons in Hnd as [Hne Hnd]. eexists. split_and!.
    + run_by ltac:(apply deref_some; exact Ht). destruct (Z.eqb_spec e 0); [lia|]. cbn [negb].
      run_by ltac:(apply deref_some; exact Hn). kstep. unfold MEMP_SIZE. rewrite Z.add_0_r, u32_small by lia. done.
    + split_and!; simpl; [|done | intros x Hx; apply Hsub; by right]. exists n. rewrite lookup_insert_eq. split; [done|].
      eapply free_list_frame; [done|]. intros x Hx. apply lookup_delete_ne. by intros ->.
    + done.
    + intros a Ha. simpl. by rewrite lookup_insert_ne.
    + intros x Hx. simpl. apply lookup_delete_ne. intros ->. apply Hx, Hsub. left.
Qed.

(** ** Initialisation *)

Lemma init_loop_run d : forall n a s es,
  pool_rep s d es -> elems d = reverse es ++ elems_from n a (desc_size d) -> NoDup (elems d) ->
  Forall (fun e => 0 < e /\ e + desc_size d < 2 ^ 32) (elems d) -> 0 < desc_size d ->
  exists s', init_loop n d a s = Done (tt, s') /\ pool_rep s' d (reverse (elems d)) /\ memp_pools s' = memp_pools s /\
    (forall x, x <> tab d -> tabs s' !! x = tabs s !! x) /\
    (forall x, x ∉ elems d -> memp_next s' !! x = memp_next s !! x).
Proof.
  induction n as [|n IH]; intros a s es Hrep He Hnd Hr Hsz; simpl in *.
  - rewrite app_nil_r in He. exists s. split_and!; try done. by rewrite He, reverse_involutive.
  - assert (Ha : a ∈ elems d) by (rewrite He; apply elem_of_app; right; left).
    assert (Hna : a ∉ es).
    { intros Hin. rewrite He in Hnd. apply NoDup_app in Hnd as (_ & Hd & _). apply (Hd a); [by apply elem_of_reverse | left]. }
    pose proof (proj1 (Forall_forall _ _) Hr a Ha) as [R1 R2].
    destruct (push_elem_run s d es a Hrep Ha Hna) as (s1 & Hrun1 & Hrep1 & Hp1 & Ht1 & Hn1); [lia|].
    destruct (IH (a + desc_size d) s1 (a :: es)) as (s' & Hrun & Hrep' & Hp & Ht & Hn); try done.
    { by rewrite reverse_cons, <- app_assoc. }
    exists s'. split_and!; [| done | congruence | |].
    + run_with Hrun1. unfold MEMP_SIZE. rewrite Z.add_0_r, u32_small by lia. done.
    + intros x Hx. rewrite Ht, Ht1 by done. done.
    + intros x Hx. rewrite Hn, Hn1; [done | by intros -> | done].
Qed.

Lemma init_pool_run s d :
  NoDup (elems d) -> Forall (fun e => 0 < e /\ e + desc_size d < 2 ^ 32) (elems d) -> 0 < desc_size d ->
  exists s', memp_init_pool d s = Done (tt, s') /\ pool_rep s' d (reverse (elems d)) /\ memp_pools s' = memp_pools s /\
    (forall x, x <> tab d -> tabs s' !! x = tabs s !! x) /\
    (forall x, x ∉ elems d -> memp_next s' !! x = memp_next s !! x).
Proof.
  intros Hnd Hr Hsz. destruct (init_loop_run d (Z.to_nat (num d)) (LWIP_MEM_ALIGN (base d)) (put_tab d 0 s) [])
    as (s' & Hrun & Hrep & Hp & Ht & Hn); try done.
  - split_and!; [|constructor | intros x Hx; by apply elem_of_nil in Hx]. exists 0. simpl. by rewrite lookup_insert_eq.
  - exists s'. split_and!; try done. intros x Hx. rewrite Ht by done. simpl. by rewrite lookup_insert_ne.
Qed.

Lemma init_pools_run : forall ds s pre frs,
  pools_ok (pre ++ ds) -> Forall2 (pool_rep s) pre frs ->
  exists s', init_pools ds s = Done (tt, s') /\ memp_pools s' = memp_pools s /\
    Forall2 (pool_rep s') (pre ++ ds) (frs ++ map (fun d => reverse (elems d)) ds).
Proof.
  induction ds as [|d ds IH]; intros s pre frs Hok HF; [by exists s; rewrite !app_nil_r|].
  pose proof Hok as [H1 H2 H3]. rewrite map_app, concat_app in H2. apply NoDup_app in H2 as (_ & Hd & H2). simpl in H2, Hd.
  apply NoDup_app in H2 as (Hnd & _). apply Forall_app in H3 as [_ [[Hsz Hr] _]%Forall_cons].
  destruct (init_pool_run s d Hnd Hr Hsz) as (s1 & Hrun1 & Hrep1 & Hp1 & Ht1 & Hn1).
  destruct (IH s1 (pre ++ [d]) (frs ++ [reverse (elems d)])) as (s' & Hrun & Hp & HF').
  - by rewrite <- app_assoc.
  - apply Forall2_app; [|by constructor; [|constructor]]. rewrite map_app in H1. apply NoDup_app in H1 as (_ & H1 & _). simpl in H1.
    assert (Hfr : forall d' es, d' ∈ pre -> pool_rep s d' es -> pool_rep s1 d' es).
    { intros d' es Hin Hrep. eapply pool_rep_frame; [done | |].
      - apply Ht1. intros E. apply (H1 (tab d')); [by apply list_elem_of_fmap_2 | rewrite E; left].
      - intros e He. apply Hn1. intros He'. apply (Hd e); [|apply elem_of_app; by left].
        apply list_elem_of_In, in_concat. exists (elems d'). split; apply list_elem_of_In; [by apply list_elem_of_fmap_2 | done]. }
    clear -HF Hfr. induction HF as [|d' es pre frs Hrep HF IH]; constructor; [apply Hfr; [left | done]|].
    apply IH. intros. apply Hfr; [by right | done].
  - exists s'. split_and!; [simpl; by run_with Hrun1 | congruence |]. rewrite <- !app_assoc in HF'. done.
Qed.

(** ** Histories *)

Inductive memp_request : Type :=
| Take (type : Z)
| Put (type e : Z).

Definition memp_do (q : memp_request) : prog memp_state Z :=
  match q with
  | Take type => memp_malloc type
  | Put type e => memp_free type e;; mret 0
  end.

(** The abstract pools: the stack of free elements of each. *)
Definition pools_step (q : memp_request) (frs : list (list Z)) : Z * list (list Z) :=
  match q with
  | Take type =>
      match frs !! Z.to_nat type with
      | Some es => (hd 0 es, <[Z.to_nat type := tail es]> frs)
      | None => (0, frs)
      end
  | Put type e =>
      if e =? 0 then (0, frs) else
      match frs !! Z.to_nat type with
      | Some es => (0, <[Z.to_nat type := e :: es]> frs)
      | None => (0, frs)
      end
  end.

Fixpoint pools_run (qs : list memp_request) (frs : list (list Z)) : list Z :=
  match qs with
  | [] => []
  | q :: qs' => let '(v, frs') := pools_step q frs in v :: pools_run qs' frs'
  end.

Fixpoint memp_run (qs : list memp_request) : prog memp_state (list Z) :=
  match qs with
  | [] => mret []
  | q :: qs' => v ← memp_do q; vs ← memp_run qs'; mret (v :: vs)
  end.

(** Only what is missing in a pool is given back to it. *)
Definition request_valid (ds : list memp_desc) (frs : list (list Z)) (q : memp_request) : Prop :=
  match q with
  | Take type => 0 <= type
  | Put type e => 0 <= type /\ (e = 0 \/ forall d es, ds !! Z.to_nat type = Some d -> frs !! Z.to_nat type = Some es -> e ∈ elems d /\ e ∉ es)
  end.

Fixpoint history_valid (ds : list memp_desc) (frs : list (list Z)) (qs : list memp_request) : Prop :=
  match qs with
  | [] => True
  | q :: qs' => request_valid ds frs q /\ history_valid ds (pools_step q frs).2 qs'
  end.

Lemma memp_do_run s frs q :
  memp_rep s frs -> request_valid (memp_pools s) frs q ->
  exists s', memp_do q s = Done ((pools_step q frs).1, s') /\ memp_rep s' (pools_step q frs).2 /\ memp_pools s' = memp_pools s.
Proof.
  intros HR Hv. pose proof HR as [Hok HF]. pose proof (Forall2_length _ _ _ HF) as Hlen. destruct q as [ty|ty e]; simpl in *.
  - unfold memp_malloc, MEMP_MAX. kstep. unfold id. destruct (Z.ltb_spec ty (Z.of_nat (length (memp_pools s)))) as [Hlt|Hge].
    + destruct (lookup_lt_is_Some_2 (memp_pools s) (Z.to_nat ty)) as [d Hd]; [lia|].
      destruct (Forall2_lookup_l _ _ _ _ _ HF Hd) as (es & Hes & Hrep). rewrite Hes. simpl.
      destruct (malloc_pool_run s d es Hrep) as (s' & Hrun & Hrep' & Hp & Ht & Hn). exists s'.
      split_and!; [by run_by ltac:(apply deref_some; exact Hd) | by eapply memp_rep_update | done].
    + rewrite lookup_ge_None_2 by lia. by exists s.
  - destruct Hv as [H0 Hv]. unfold memp_free, MEMP_MAX. rewrite bind_assoc. kstep. unfold id. destruct (Z.ltb_spec ty (Z.of_nat (length (memp_pools s)))) as [Hlt|Hge].
    + destruct (Z.eqb_spec e 0) as [->|Hne]; [by exists s|]. destruct Hv as [?|Hv]; [done|].
      destruct (lookup_lt_is_Some_2 (memp_pools s) (Z.to_nat ty)) as [d Hd]; [lia|].
      destruct (Forall2_lookup_l _ _ _ _ _ HF Hd) as (es & Hes & Hrep). rewrite Hes. simpl. destruct (Hv _ _ Hd Hes) as [He Hne'].
      pose proof (po_range _ Hok) as Hr. rewrite Forall_lookup in Hr. destruct (Hr _ _ Hd) as [Hsz Hr'].
      destruct (proj1 (Forall_forall _ _) Hr' e He) as [R1 R2].
      destruct (push_elem_run s d es e Hrep He Hne') as (s' & Hrun & Hrep' & Hp & Ht & Hn); [lia|]. exists s'. split_and!; [| | done].
      * rewrite bind_assoc. run_by ltac:(apply deref_some; exact Hd). unfold do_memp_free_pool, MEMP_SIZE. rewrite Z.sub_0_r, u32_small by lia.
        by run_with Hrun.
      * eapply memp_rep_update; try done. intros x Hx. apply Hn. by intros ->.
    + rewrite lookup_ge_None_2 by lia. destruct (e =? 0); by exists s.
Qed.

Lemma memp_run_refines qs : forall s frs,
  memp_rep s frs -> history_valid (memp_pools s) frs qs ->
  exists s' frs', memp_run qs s = Done (pools_run qs frs, s') /\ memp_rep s' frs'.
Proof.
  induction qs as [|q qs IH]; intros s frs HR Hv; [by exists s, frs|]. destruct Hv as [Hq Hv].
  destruct (memp_do_run s frs q HR Hq) as (s1 & Hrun1 & HR1 & Hp1). rewrite <- Hp1 in Hv.
  destruct (IH s1 _ HR1 Hv) as (s' & frs' & Hrun & HR'). exists s', frs'. split; [|done]. simpl.
  run_with Hrun1. run_with Hrun. by destruct (pools_step q frs).
Qed.

(** C31: Pools of the network stack.  After [memp_init] has carved disjoint pools into
    elements, every history of allocations and releases in which only elements that
    were taken are given back runs without a fault and returns exactly what the
    abstract stacks of free elements return: an allocation gives the element
    released last, null only when all elements of the pool are in use, and nothing
    for an unknown pool; the pools do not disturb each other. *)
Theorem lwip_pools_refine s qs :
  pools_ok (memp_pools s) ->
  history_valid (memp_pools s) (map (fun d => reverse (elems d)) (memp_pools s)) qs ->
  exists s' frs', (memp_init;; memp_run qs) s =
      Done (pools_run qs (map (fun d => reverse (elems d)) (memp_pools s)), s') /\ memp_rep s' frs'.
Proof.
  intros Hok Hv. destruct (init_pools_run (memp_pools s) s [] [] Hok) as (s1 & Hrun1 & Hp1 & HF1); [constructor|].
  simpl in HF1. rewrite <- Hp1 in Hv at 1.
  destruct (memp_run_refines qs s1 (map (fun d => reverse (elems d)) (memp_pools s))) as (s' & frs' & Hrun & HR'); [|done|].
  - split; by rewrite Hp1.
  - exists s', frs'. split; [|done]. unfold memp_init. rewrite bind_assoc. kstep. by run_with Hrun1.
Qed.

(** Two small pools: the second allocation of the second pool after a release
    returns the released element. *)
Definition demo_pools : memp_state := mk_memp [mk_desc 16 3 0x20020002 8; mk_desc 24 2 0x20020100 12] ∅ ∅.

Lemma lwip_pools_refine_witness :
  exists s' frs', (memp_init;; memp_run [Take 0; Take 1; Take 1; Take 1; Put 1 0x20020100; Take 1]) demo_pools =
    Done ([0x20020024; 0x20020118; 0x20020100; 0; 0; 0x20020100], s') /\ memp_rep s' frs'.
Proof.
  apply (lwip_pools_refine demo_pools [Take 0; Take 1; Take 1; Take 1; Put 1 0x20020100; Take 1]).
  - split; [| | repeat constructor; vm_compute; done]; apply (bool_decide_eq_true_1 _); vm_compute; reflexivity.
  - simpl. split_and!; try lia. right. intros d es [= <-] Hes. vm_compute in Hes. injection Hes as <-.
    split; apply (bool_decide_eq_true_1 _); vm_compute; reflexivity.
Defined.
