(* ===== verification/Pbuf.v ===== *)
(** * Packet buffers (common/lwip/core/pbuf.c, include/lwip/pbuf.h)

    Chains of packet buffers in the configuration of lwipopts.h: custom pbufs are
    supported, out-of-sequence queueing, window scaling and checksums on copy are
    not.  A state holds the two allocators, the [struct pbuf]s by address, the
    function of each custom pbuf, and the bytes of the memory the payloads lie
    in; access to a pbuf that is not allocated or to a byte that is not mapped is
    a [Fault].  A released pbuf is gone from the state.

    Pointers are addresses, null is 0.  Assertions print and go on, as in
    [LwipMem]; [LWIP_ERROR] prints and runs its handler.  What the function of a
    custom pbuf does is a parameter. *)

From S2P Require Import Prelude LwipMem LwipMemp.

(** ** Constants *)

Definition PBUF_LINK_HLEN : Z := 14.
Definition PBUF_IP_HLEN : Z := 20.
Definition PBUF_TRANSPORT_HLEN : Z := 20.

(** [pbuf_layer] *)
Definition PBUF_TRANSPORT : Z := PBUF_LINK_HLEN + PBUF_IP_HLEN + PBUF_TRANSPORT_HLEN.
Definition PBUF_IP : Z := PBUF_LINK_HLEN + PBUF_IP_HLEN.
Definition PBUF_LINK : Z := PBUF_LINK_HLEN.
Definition PBUF_RAW : Z := 0.

Definition PBUF_TYPE_FLAG_STRUCT_DATA_CONTIGUOUS : Z := 0x80.
Definition PBUF_TYPE_FLAG_DATA_VOLATILE : Z := 0x40.
Definition PBUF_TYPE_ALLOC_SRC_MASK : Z := 0x0F.
Definition PBUF_ALLOC_FLAG_RX : Z := 0x0100.
Definition PBUF_ALLOC_FLAG_DATA_CONTIGUOUS : Z := 0x0200.
Definition PBUF_TYPE_ALLOC_SRC_MASK_STD_HEAP : Z := 0x00.
Definition PBUF_TYPE_ALLOC_SRC_MASK_STD_MEMP_PBUF : Z := 0x01.
Definition PBUF_TYPE_ALLOC_SRC_MASK_STD_MEMP_PBUF_POOL : Z := 0x02.

(** [pbuf_type] *)
Definition PBUF_RAM : Z :=
  Z.lor PBUF_ALLOC_FLAG_DATA_CONTIGUOUS
    (Z.lor PBUF_TYPE_FLAG_STRUCT_DATA_CONTIGUOUS PBUF_TYPE_ALLOC_SRC_MASK_STD_HEAP).
Definition PBUF_ROM : Z := PBUF_TYPE_ALLOC_SRC_MASK_STD_MEMP_PBUF.
Definition PBUF_REF : Z := Z.lor PBUF_TYPE_FLAG_DATA_VOLATILE PBUF_TYPE_ALLOC_SRC_MASK_STD_MEMP_PBUF.
Definition PBUF_POOL : Z :=
  Z.lor PBUF_ALLOC_FLAG_RX
    (Z.lor PBUF_TYPE_FLAG_STRUCT_DATA_CONTIGUOUS PBUF_TYPE_ALLOC_SRC_MASK_STD_MEMP_PBUF_POOL).

Definition PBUF_FLAG_IS_CUSTOM : Z := 0x02.
Definition NETIF_NO_INDEX : Z := 0.

Definition ERR_OK : Z := 0.
Definition ERR_MEM : Z := -1.
Definition ERR_VAL : Z := -6.
Definition ERR_ARG : Z := -16.

(** [sizeof(struct pbuf)]: two pointers, two 16-bit lengths and four bytes. *)
Definition SIZEOF_STRUCT_PBUF : Z := LWIP_MEM_ALIGN_SIZE 16.
Definition TCP_MSS : Z := 1500 - 40.
Definition PBUF_POOL_BUFSIZE : Z := LWIP_MEM_ALIGN_SIZE (TCP_MSS + 40 + PBUF_LINK_HLEN).
Definition PBUF_POOL_BUFSIZE_ALIGNED : Z := LWIP_MEM_ALIGN_SIZE PBUF_POOL_BUFSIZE.

(** ** State *)

Record pbuf : Type := mk_pbuf {
  p_next : Z;
  payload : Z;
  tot_len : Z;
  len : Z;
  type_internal : Z;
  flags : Z;
  ref : Z;
  if_idx : Z
}.

Record lwip : Type := mk_lwip {
  lw_heap : lwip_heap;
  lw_memp : memp_state;
  pbufs : gmap Z pbuf;
  custom_free_function : gmap Z Z;
  bytes : gmap Z Z
}.

Definition set_lw_heap (h : lwip_heap) (s : lwip) : lwip :=
  mk_lwip h (lw_memp s) (pbufs s) (custom_free_function s) (bytes s).
Definition set_lw_memp (m : memp_state) (s : lwip) : lwip :=
  mk_lwip (lw_heap s) m (pbufs s) (custom_free_function s) (bytes s).
Definition set_pbufs (f : gmap Z pbuf -> gmap Z pbuf) (s : lwip) : lwip :=
  mk_lwip (lw_heap s) (lw_memp s) (f (pbufs s)) (custom_free_function s) (bytes s).
Definition set_bytes (f : gmap Z Z -> gmap Z Z) (s : lwip) : lwip :=
  mk_lwip (lw_heap s) (lw_memp s) (pbufs s) (custom_free_function s) (f (bytes s)).

Definition put_pbuf (p : Z) (b : pbuf) : lwip -> lwip := set_pbufs (fun m => <[p := b]> m).
Definition drop_pbuf (p : Z) : lwip -> lwip := set_pbufs (fun m => delete p m).

Definition set_p_next (x : Z) (b : pbuf) : pbuf :=
  mk_pbuf x (payload b) (tot_len b) (len b) (type_internal b) (flags b) (ref b) (if_idx b).
Definition set_payload (x : Z) (b : pbuf) : pbuf :=
  mk_pbuf (p_next b) x (tot_len b) (len b) (type_internal b) (flags b) (ref b) (if_idx b).
Definition set_tot_len (x : Z) (b : pbuf) : pbuf :=
  mk_pbuf (p_next b) (payload b) x (len b) (type_internal b) (flags b) (ref b) (if_idx b).
Definition set_len (x : Z) (b : pbuf) : pbuf :=
  mk_pbuf (p_next b) (payload b) (tot_len b) x (type_internal b) (flags b) (ref b) (if_idx b).
Definition set_ref (x : Z) (b : pbuf) : pbuf :=
  mk_pbuf (p_next b) (payload b) (tot_len b) (len b) (type_internal b) (flags b) x (if_idx b).

Definition pbuf_at (p : Z) : prog lwip pbuf := deref (fun s => pbufs s !! p).
Definition upd_pbuf (p : Z) (f : pbuf -> pbuf) : prog lwip unit :=
  b ← pbuf_at p; modify (put_pbuf p (f b)).

Definition on_heap {A} (m : prog lwip_heap A) : prog lwip A := zoom lw_heap set_lw_heap m.
Definition on_memp {A} (m : prog memp_state A) : prog lwip A := zoom lw_memp set_lw_memp m.

Definition chain_fuel (s : lwip) : nat := S (base.size (pbufs s)).

(** ** Bytes *)

(** The [n] bytes at [a], and the bytes [bs] written at [a] if they are mapped. *)
Fixpoint load (M : gmap Z Z) (a : Z) (n : nat) : option (list Z) :=
  match n with
  | O => Some []
  | S n' => b ← M !! a; bs ← load M (a + 1) n'; Some (b :: bs)
  end.

Fixpoint store (M : gmap Z Z) (a : Z) (bs : list Z) : option (gmap Z Z) :=
  match bs with
  | [] => Some M
  | b :: bs' => _ ← M !! a; store (<[a := b]> M) (a + 1) bs'
  end.

Definition read_bytes (a n : Z) : prog lwip (list Z) :=
  deref (fun s => load (bytes s) a (Z.to_nat n)).
Definition write_bytes (a : Z) (bs : list Z) : prog lwip unit :=
  M ← deref (fun s => store (bytes s) a bs); modify (set_bytes (fun _ => M)).
Definition MEMCPY (dst src n : Z) : prog lwip unit :=
  bs ← read_bytes src n; write_bytes dst bs.

(** [mem_calloc] of mem.c: the product must fit in [mem_size_t], the block is cleared. *)
Definition mem_calloc (count size : Z) : prog lwip Z :=
  let alloc_size := u32 (count * size) in
  if negb (u16 alloc_size =? alloc_size) then mret 0
  else
    p ← on_heap (mem_malloc (u16 alloc_size));
    (if negb (p =? 0) then write_bytes p (repeat 0 (Z.to_nat alloc_size)) else mret tt);;
    mret p.

(** ** Single pbufs *)

Definition pbuf_get_allocsrc (b : pbuf) : Z := Z.land (type_internal b) PBUF_TYPE_ALLOC_SRC_MASK.
Definition pbuf_match_allocsrc (b : pbuf) (type : Z) : bool :=
  pbuf_get_allocsrc b =? Z.land type PBUF_TYPE_ALLOC_SRC_MASK.

Definition pbuf_init_alloced_pbuf (p pl tot l type fl : Z) : prog lwip unit :=
  modify (put_pbuf p (mk_pbuf 0 pl tot l (u8 type) fl 1 NETIF_NO_INDEX)).

Definition pbuf_alloc_reference (pl length type : Z) : prog lwip Z :=
  p ← on_memp (memp_malloc MEMP_PBUF);
  if p =? 0 then mret 0
  else pbuf_init_alloced_pbuf p pl length length type 0;; mret p.

Definition pbuf_alloced_custom (l length type p payload_mem payload_mem_len : Z) : prog lwip Z :=
  if LWIP_MEM_ALIGN_SIZE l + length >? payload_mem_len then mret 0
  else
    let pl := if negb (payload_mem =? 0) then u32 (payload_mem + LWIP_MEM_ALIGN_SIZE l) else 0 in
    pbuf_init_alloced_pbuf p pl length length type PBUF_FLAG_IS_CUSTOM;; mret p.

Definition pbuf_ref (p : Z) : prog lwip unit :=
  if negb (p =? 0) then upd_pbuf p (fun b => set_ref (u8 (ref b + 1)) b) else mret tt.

(** ** Headers *)

Definition pbuf_add_header_impl (p header_size_increment : Z) (force : bool) : prog lwip Z :=
  if (p =? 0) || (header_size_increment >? 0xFFFF) then mret 1
  else if header_size_increment =? 0 then mret 0
  else
    let increment_magnitude := u16 header_size_increment in
    b ← pbuf_at p;
    if u16 (increment_magnitude + tot_len b) <? increment_magnitude then mret 1
    else
      let pl := u32 (payload b - header_size_increment) in
      let ok := if negb (Z.land (type_internal b) PBUF_TYPE_FLAG_STRUCT_DATA_CONTIGUOUS =? 0)
                then negb (pl <? u32 (p + SIZEOF_STRUCT_PBUF)) else force in
      if ok then
        upd_pbuf p (set_payload pl);;
        upd_pbuf p (fun b => set_len (u16 (len b + increment_magnitude)) b);;
        upd_pbuf p (fun b => set_tot_len (u16 (tot_len b + increment_magnitude)) b);;
        mret 0
      else mret 1.

Definition pbuf_add_header (p n : Z) : prog lwip Z := pbuf_add_header_impl p n false.
Definition pbuf_add_header_force (p n : Z) : prog lwip Z := pbuf_add_header_impl p n true.

Definition pbuf_remove_header (p header_size_decrement : Z) : prog lwip Z :=
  if (p =? 0) || (header_size_decrement >? 0xFFFF) then mret 1
  else if header_size_decrement =? 0 then mret 0
  else
    let increment_magnitude := u16 header_size_decrement in
    b ← pbuf_at p;
    if increment_magnitude <=? len b then
      upd_pbuf p (set_payload (u32 (payload b + header_size_decrement)));;
      upd_pbuf p (fun b => set_len (u16 (len b - increment_magnitude)) b);;
      upd_pbuf p (fun b => set_tot_len (u16 (tot_len b - increment_magnitude)) b);;
      mret 0
    else mret 1.

(** [header_size_increment] is a signed 16-bit number. *)
Definition pbuf_header_impl (p header_size_increment : Z) (force : bool) : prog lwip Z :=
  if header_size_increment <? 0 then pbuf_remove_header p (u32 (- header_size_increment))
  else pbuf_add_header_impl p (u32 header_size_increment) force.

Definition pbuf_header (p n : Z) : prog lwip Z := pbuf_header_impl p n false.
Definition pbuf_header_force (p n : Z) : prog lwip Z := pbuf_header_impl p n true.

(** ** Chains *)

(** [++len] wraps at 16 bits. *)
Fixpoint clen_loop (fuel : nat) (p l : Z) : prog lwip Z :=
  match fuel with
  | O => fun _ => NoFuel
  | S fuel' =>
      if negb (p =? 0) then b ← pbuf_at p; clen_loop fuel' (p_next b) (u16 (l + 1)) else mret l
  end.
Definition pbuf_clen (p : Z) : prog lwip Z := fuel ← gets chain_fuel; clen_loop fuel p 0.

(** [for (p = h; p->next != NULL; p = p->next)]: the last pbuf. *)
Fixpoint cat_loop (fuel : nat) (p t : Z) : prog lwip Z :=
  match fuel with
  | O => fun _ => NoFuel
  | S fuel' =>
      b ← pbuf_at p;
      if negb (p_next b =? 0) then
        tb ← pbuf_at t;
        upd_pbuf p (fun b => set_tot_len (u16 (tot_len b + tot_len tb)) b);;
        cat_loop fuel' (p_next b) t
      else mret p
  end.

Definition pbuf_cat (h t : Z) : prog lwip unit :=
  if (h =? 0) || (t =? 0) then mret tt
  else
    fuel ← gets chain_fuel;
    p ← cat_loop fuel h t;
    tb ← pbuf_at t;
    upd_pbuf p (fun b => set_tot_len (u16 (tot_len b + tot_len tb)) b);;
    upd_pbuf p (set_p_next t).

Definition pbuf_chain (h t : Z) : prog lwip unit := pbuf_cat h t;; pbuf_ref t.

Section custom.
(** [call_free f p]: the call [f(p)] of the function of a custom pbuf. *)
Context (call_free : Z -> Z -> prog lwip unit).

(** The pbuf at [p] is given back to where it was allocated. *)
Definition release_pbuf (p : Z) (b : pbuf) : prog lwip unit :=
  let alloc_src := pbuf_get_allocsrc b in
  if negb (Z.land (flags b) PBUF_FLAG_IS_CUSTOM =? 0) then
    f ← deref (fun s => custom_free_function s !! p); call_free f p
  else if alloc_src =? PBUF_TYPE_ALLOC_SRC_MASK_STD_MEMP_PBUF_POOL then
    on_memp (memp_free MEMP_PBUF_POOL p);; modify (drop_pbuf p)
  else if alloc_src =? PBUF_TYPE_ALLOC_SRC_MASK_STD_MEMP_PBUF then
    on_memp (memp_free MEMP_PBUF p);; modify (drop_pbuf p)
  else if alloc_src =? PBUF_TYPE_ALLOC_SRC_MASK_STD_HEAP then
    on_heap (mem_free p);; modify (drop_pbuf p)
  else mret tt.

(** [while (p != NULL)] *)
Fixpoint free_loop (fuel : nat) (p count : Z) : prog lwip Z :=
  match fuel with
  | O => fun _ => NoFuel
  | S fuel' =>
      if negb (p =? 0) then
        upd_pbuf p (fun b => set_ref (u8 (ref b - 1)) b);;
        b ← pbuf_at p;
        if ref b =? 0 then
          release_pbuf p b;;
          free_loop fuel' (p_next b) (u8 (count + 1))
        else mret count
      else mret count
  end.

Definition pbuf_free (p : Z) : prog lwip Z :=
  if p =? 0 then mret 0 else fuel ← gets chain_fuel; free_loop fuel p 0.

Definition pbuf_dechain (p : Z) : prog lwip Z :=
  b ← pbuf_at p;
  let q := p_next b in
  if negb (q =? 0) then
    upd_pbuf q (set_tot_len (u16 (tot_len b - len b)));;
    upd_pbuf p (set_p_next 0);;
    upd_pbuf p (fun b => set_tot_len (len b) b);;
    tail_gone ← pbuf_free q;
    mret (if tail_gone >? 0 then 0 else q)
  else mret 0.

(** The [do ... while (rem_len > 0)] loop of [pbuf_alloc] for pool buffers; [p] is the
    head of the chain so far and [last] its last pbuf. *)
Fixpoint alloc_loop (fuel : nat) (p last rem_len offset type : Z) : prog lwip Z :=
  match fuel with
  | O => fun _ => NoFuel
  | S fuel' =>
      q ← on_memp (memp_malloc MEMP_PBUF_POOL);
      if q =? 0 then
        (if negb (p =? 0) then pbuf_free p;; mret tt else mret tt);; mret 0
      else
        let qlen := Z.min rem_len (u16 (PBUF_POOL_BUFSIZE_ALIGNED - LWIP_MEM_ALIGN_SIZE offset)) in
        pbuf_init_alloced_pbuf q (LWIP_MEM_ALIGN (u32 (q + SIZEOF_STRUCT_PBUF + offset))) rem_len qlen type 0;;
        (if p =? 0 then mret tt else upd_pbuf last (set_p_next q));;
        let p' := if p =? 0 then q else p in
        let rem_len := u16 (rem_len - qlen) in
        if rem_len >? 0 then alloc_loop fuel' p' q rem_len 0 type else mret p'
  end.

Definition pbuf_alloc (layer length type : Z) : prog lwip Z :=
  let offset := u16 layer in
  if (type =? PBUF_REF) || (type =? PBUF_ROM) then pbuf_alloc_reference 0 length type
  else if type =? PBUF_POOL then alloc_loop (S (Z.to_nat length)) 0 0 length offset type
  else if type =? PBUF_RAM then
    let payload_len := u16 (LWIP_MEM_ALIGN_SIZE offset + LWIP_MEM_ALIGN_SIZE length) in
    let alloc_len := u16 (LWIP_MEM_ALIGN_SIZE SIZEOF_STRUCT_PBUF + payload_len) in
    if (payload_len <? LWIP_MEM_ALIGN_SIZE length) || (alloc_len <? LWIP_MEM_ALIGN_SIZE length) then mret 0
    else
      p ← on_heap (mem_malloc alloc_len);
      if p =? 0 then mret 0
      else
        pbuf_init_alloced_pbuf p (LWIP_MEM_ALIGN (u32 (p + SIZEOF_STRUCT_PBUF + offset))) length length type 0;;
        mret p
  else mret 0.

(** [while (rem_len > q->len)]: the last pbuf that stays and its new length. *)
Fixpoint shrink_loop (fuel : nat) (q rem_len shrink : Z) : prog lwip (Z * Z) :=
  match fuel with
  | O => fun _ => NoFuel
  | S fuel' =>
      b ← pbuf_at q;
      if rem_len >? len b then
        upd_pbuf q (fun b => set_tot_len (u16 (tot_len b - shrink)) b);;
        shrink_loop fuel' (p_next b) (u16 (rem_len - len b)) shrink
      else mret (q, rem_len)
  end.

Definition pbuf_realloc (p new_len : Z) : prog lwip unit :=
  b ← pbuf_at p;
  if new_len >=? tot_len b then mret tt
  else
    let shrink := u16 (tot_len b - new_len) in
    fuel ← gets chain_fuel;
    '(q, rem_len) ← shrink_loop fuel p new_len shrink;
    qb ← pbuf_at q;
    q ← (if pbuf_match_allocsrc qb PBUF_TYPE_ALLOC_SRC_MASK_STD_HEAP && negb (rem_len =? len qb) &&
            (Z.land (flags qb) PBUF_FLAG_IS_CUSTOM =? 0)
         then on_heap (mem_trim q (u16 (payload qb - q + rem_len))) else mret q);
    upd_pbuf q (set_len rem_len);;
    upd_pbuf q (fun b => set_tot_len (len b) b);;
    qb ← pbuf_at q;
    (if negb (p_next qb =? 0) then pbuf_free (p_next qb);; mret tt else mret tt);;
    upd_pbuf q (set_p_next 0).

(** [while (free_left && p)] *)
Fixpoint free_header_loop (fuel : nat) (p free_left : Z) : prog lwip Z :=
  match fuel with
  | O => fun _ => NoFuel
  | S fuel' =>
      if negb (free_left =? 0) && negb (p =? 0) then
        b ← pbuf_at p;
        if free_left >=? len b then
          upd_pbuf p (set_p_next 0);;
          pbuf_free p;;
          free_header_loop fuel' (p_next b) (u16 (free_left - len b))
        else
          pbuf_remove_header p free_left;; free_header_loop fuel' p 0
      else mret p
  end.
Definition pbuf_free_header (q size : Z) : prog lwip Z :=
  fuel ← gets (fun s => S (chain_fuel s)); free_header_loop fuel q size.

(** ** Contents *)

(** [while ((q != NULL) && (q->len <= offset_left))]: the pbuf and the offset in it. *)
Fixpoint skip_loop (fuel : nat) (q offset_left : Z) : prog lwip (Z * Z) :=
  match fuel with
  | O => fun _ => NoFuel
  | S fuel' =>
      if q =? 0 then mret (q, offset_left)
      else
        b ← pbuf_at q;
        if len b <=? offset_left then skip_loop fuel' (p_next b) (u16 (offset_left - len b))
        else mret (q, offset_left)
  end.
Definition pbuf_skip (p offset : Z) : prog lwip (Z * Z) :=
  fuel ← gets chain_fuel; skip_loop fuel p offset.

(** [for (p = buf; len != 0 && p != NULL; p = p->next)] *)
Fixpoint copy_partial_loop (fuel : nat) (p dataptr l offset left copied_total : Z) : prog lwip Z :=
  match fuel with
  | O => fun _ => NoFuel
  | S fuel' =>
      if negb (l =? 0) && negb (p =? 0) then
        b ← pbuf_at p;
        if negb (offset =? 0) && (offset >=? len b) then
          copy_partial_loop fuel' (p_next b) dataptr l (u16 (offset - len b)) left copied_total
        else
          let buf_copy_len := u16 (len b - offset) in
          let buf_copy_len := if buf_copy_len >? l then l else buf_copy_len in
          MEMCPY (dataptr + left) (payload b + offset) buf_copy_len;;
          copy_partial_loop fuel' (p_next b) dataptr (u16 (l - buf_copy_len)) 0
            (u16 (left + buf_copy_len)) (u16 (copied_total + buf_copy_len))
      else mret copied_total
  end.

Definition pbuf_copy_partial (buf dataptr l offset : Z) : prog lwip Z :=
  if buf =? 0 then mret 0
  else if dataptr =? 0 then mret 0
  else fuel ← gets chain_fuel; copy_partial_loop fuel buf dataptr l offset 0 0.

Definition pbuf_get_contiguous (p buffer bufsize l offset : Z) : prog lwip Z :=
  if (p =? 0) || (buffer =? 0) || (bufsize <? l) then mret 0
  else
    '(q, out_offset) ← pbuf_skip p offset;
    if q =? 0 then mret 0
    else
      b ← pbuf_at q;
      if len b >=? out_offset + l then mret (u32 (payload b + out_offset))
      else
        n ← pbuf_copy_partial q buffer l out_offset;
        mret (if negb (n =? l) then 0 else buffer).

(** [for (p = buf; total_copy_len != 0; p = p->next)] *)
Fixpoint take_loop (fuel : nat) (p dataptr total_copy_len copied_total : Z) : prog lwip unit :=
  match fuel with
  | O => fun _ => NoFuel
  | S fuel' =>
      if total_copy_len =? 0 then mret tt
      else
        b ← pbuf_at p;
        let buf_copy_len := if total_copy_len >? len b then len b else total_copy_len in
        MEMCPY (payload b) (dataptr + copied_total) buf_copy_len;;
        take_loop fuel' (p_next b) dataptr (total_copy_len - buf_copy_len) (copied_total + buf_copy_len)
  end.

Definition pbuf_take (buf dataptr l : Z) : prog lwip Z :=
  if buf =? 0 then mret ERR_ARG
  else if dataptr =? 0 then mret ERR_ARG
  else
    b ← pbuf_at buf;
    if tot_len b >=? l then
      fuel ← gets chain_fuel; take_loop fuel buf dataptr l 0;; mret ERR_OK
    else mret ERR_MEM.

Definition pbuf_take_at (buf dataptr l offset : Z) : prog lwip Z :=
  '(q, target_offset) ← pbuf_skip buf offset;
  if q =? 0 then mret ERR_MEM
  else
    b ← pbuf_at q;
    if tot_len b >=? target_offset + l then
      let first_copy_len := u16 (Z.min (len b - target_offset) l) in
      MEMCPY (payload b + target_offset) dataptr first_copy_len;;
      let remaining_len := u16 (l - first_copy_len) in
      if remaining_len >? 0 then pbuf_take (p_next b) (u32 (dataptr + first_copy_len)) remaining_len
      else mret ERR_OK
    else mret ERR_MEM.

(** The end of a turn of [pbuf_copy]: a pbuf with [len == tot_len] must be the last. *)
Definition queue_check (p : Z) : prog lwip bool :=
  if p =? 0 then mret false
  else b ← pbuf_at p; mret ((len b =? tot_len b) && negb (p_next b =? 0)).

(** [do ... while (p_from)] *)
Fixpoint copy_loop (fuel : nat) (p_to p_from offset_to offset_from : Z) : prog lwip Z :=
  match fuel with
  | O => fun _ => NoFuel
  | S fuel' =>
      t ← pbuf_at p_to;
      f ← pbuf_at p_from;
      let l := if u32 (len t - offset_to) >=? u32 (len f - offset_from)
               then u32 (len f - offset_from) else u32 (len t - offset_to) in
      MEMCPY (payload t + offset_to) (payload f + offset_from) l;;
      let offset_to := u32 (offset_to + l) in
      let offset_from := u32 (offset_from + l) in
      let '(p_from, offset_from) := if offset_from >=? len f then (p_next f, 0) else (p_from, offset_from) in
      let '(p_to, offset_to) := if offset_to =? len t then (p_next t, 0) else (p_to, offset_to) in
      if (p_to =? 0) && negb (p_from =? 0) then mret ERR_ARG
      else
        bad ← queue_check p_from;
        if (bad : bool) then mret ERR_VAL
        else
          bad ← queue_check p_to;
          if (bad : bool) then mret ERR_VAL
          else if negb (p_from =? 0) then copy_loop fuel' p_to p_from offset_to offset_from
          else mret ERR_OK
  end.

Definition pbuf_copy (p_to p_from : Z) : prog lwip Z :=
  if (p_to =? 0) || (p_from =? 0) then mret ERR_ARG
  else
    t ← pbuf_at p_to; f ← pbuf_at p_from;
    if tot_len t >=? tot_len f then
      fuel ← gets (fun s => (chain_fuel s + chain_fuel s)%nat); copy_loop fuel p_to p_from 0 0
    else mret ERR_ARG.

Definition pbuf_clone (layer type p : Z) : prog lwip Z :=
  b ← pbuf_at p;
  q ← pbuf_alloc layer (tot_len b) type;
  if q =? 0 then mret 0 else pbuf_copy q p;; mret q.

Definition pbuf_coalesce (p layer : Z) : prog lwip Z :=
  b ← pbuf_at p;
  if p_next b =? 0 then mret p
  else
    q ← pbuf_clone layer PBUF_RAM p;
    if q =? 0 then mret p else pbuf_free p;; mret q.

(** Minus one when the offset lies behind the chain. *)
Definition pbuf_try_get_at (p offset : Z) : prog lwip Z :=
  '(q, q_idx) ← pbuf_skip p offset;
  if q =? 0 then mret (-1)
  else
    b ← pbuf_at q;
    if len b >? q_idx then x ← read_bytes (payload b + q_idx) 1; mret (hd 0 x) else mret (-1).

Definition pbuf_get_at (p offset : Z) : prog lwip Z :=
  r ← pbuf_try_get_at p offset; mret (if r >=? 0 then u8 r else 0).

Definition pbuf_put_at (p offset data : Z) : prog lwip unit :=
  '(q, q_idx) ← pbuf_skip p offset;
  if q =? 0 then mret tt
  else
    b ← pbuf_at q;
    if len b >? q_idx then write_bytes (payload b + q_idx) [data] else mret tt.

(** [for (i = 0; i < n; i++)]; [k] turns are left. *)
Fixpoint memcmp_loop (k : nat) (q start s2 i : Z) : prog lwip Z :=
  match k with
  | O => mret 0
  | S k' =>
      a ← pbuf_get_at q (u16 (start + i));
      b ← read_bytes (s2 + i) 1;
      if negb (a =? hd 0 b) then mret (u16 (Z.min (i + 1) 0xFFFF))
      else memcmp_loop k' q start s2 (i + 1)
  end.

Definition pbuf_memcmp (p offset s2 n : Z) : prog lwip Z :=
  b ← pbuf_at p;
  if tot_len b <? offset + n then mret 0xffff
  else
    '(q, start) ← pbuf_skip p offset;
    memcmp_loop (Z.to_nat n) q start s2 0.

(** [for (i = start_offset; i <= max_cmp_start; i++)]; [i] is a 16-bit number. *)
Fixpoint memfind_loop (fuel : nat) (p mem mem_len i max_cmp_start : Z) : prog lwip Z :=
  match fuel with
  | O => fun _ => NoFuel
  | S fuel' =>
      if i <=? max_cmp_start then
        plus ← pbuf_memcmp p i mem mem_len;
        if plus =? 0 then mret i else memfind_loop fuel' p mem mem_len (u16 (i + 1)) max_cmp_start
      else mret 0xFFFF
  end.

Definition pbuf_memfind (p mem mem_len start_offset : Z) : prog lwip Z :=
  b ← pbuf_at p;
  let max_cmp_start := u16 (tot_len b - mem_len) in
  if tot_len b >=? mem_len + start_offset then
    memfind_loop (S (Z.to_nat (max_cmp_start + 1 - start_offset))) p mem mem_len start_offset max_cmp_start
  else mret 0xFFFF.

(** The length of the string at [a], from the [n]-th character on. *)
Fixpoint strlen_loop (fuel : nat) (a n : Z) : prog lwip Z :=
  match fuel with
  | O => fun _ => NoFuel
  | S fuel' =>
      c ← read_bytes (a + n) 1;
      if hd 0 c =? 0 then mret n else strlen_loop fuel' a (n + 1)
  end.
Definition strlen (a : Z) : prog lwip Z :=
  fuel ← gets (fun s => S (base.size (bytes s))); strlen_loop fuel a 0.

Definition pbuf_strstr (p substr : Z) : prog lwip Z :=
  if substr =? 0 then mret 0xFFFF
  else
    c ← read_bytes substr 1;
    if hd 0 c =? 0 then mret 0xFFFF
    else
      b ← pbuf_at p;
      if tot_len b =? 0xFFFF then mret 0xFFFF
      else
        substr_len ← strlen substr;
        if substr_len >=? 0xFFFF then mret 0xFFFF
        else pbuf_memfind p substr (u16 substr_len) 0.
End custom.
