(* ===== verification/PbufData.v ===== *)
(** * Contents of packet buffers

    A packet is a chain of pbufs whose lengths add up ([packet]); its contents are
    the concatenation of the payloads.  The functions that read and search a
    packet are those of the flat contents: [pbuf_skip], [pbuf_get_at],
    [pbuf_copy_partial], [pbuf_memcmp], [pbuf_memfind]; and [pbuf_take] writes it. *)

From S2P Require Import Prelude LwipMem LwipMemp Pbuf.

(** ** Bytes in memory *)

Definition size_of {A} (l : list A) : Z := Z.of_nat (length l).

Definition mapped (M : gmap Z Z) (a n : Z) : Prop := forall i, a <= i < a + n -> is_Some (M !! i).

Lemma load_some M a n : mapped M a (Z.of_nat n) -> exists bs, load M a n = Some bs /\ length bs = n.
Proof.
  revert a. induction n as [|n IH]; intros a H; [by exists []|]. simpl.
  destruct (H a) as [b Hb]; [lia|]. destruct (IH (a + 1)) as (bs & Hbs & Hl); [intros i Hi; apply H; lia|].
  exists (b :: bs). rewrite Hb. simpl. rewrite Hbs. simpl. by rewrite Hl.
Qed.

Lemma load_lookup M a n bs :
  load M a n = Some bs -> length bs = n /\ forall i b, bs !! i = Some b -> M !! (a + Z.of_nat i) = Some b.
Proof.
  revert a bs. induction n as [|n IH]; intros a bs; simpl; [by intros [= <-]|].
  destruct (M !! a) as [b|] eqn:Hb; [|done]. simpl. destruct (load M (a + 1) n) as [bs'|] eqn:Hl; [|done]. intros [= <-].
  destruct (IH _ _ Hl) as [IH1 IH2]. simpl. split; [by rewrite IH1|]. intros [|i] c; simpl.
  - intros [= <-]. by rewrite Z.add_0_r.
  - intros Hc. apply IH2 in Hc. by replace (a + Z.of_nat (S i)) with (a + 1 + Z.of_nat i) by lia.
Qed.

Lemma load_intro M a bs :
  (forall i b, bs !! i = Some b -> M !! (a + Z.of_nat i) = Some b) -> load M a (length bs) = Some bs.
Proof.
  revert a. induction bs as [|b bs IH]; intros a H; [done|]. simpl.
  pose proof (H 0%nat b eq_refl) as H0. rewrite Z.add_0_r in H0. rewrite H0. simpl. rewrite IH; [done|].
  intros i c Hc. replace (a + 1 + Z.of_nat i) with (a + Z.of_nat (S i)) by lia. by apply H.
Qed.

Lemma load_mapped M a n bs : load M a n = Some bs -> mapped M a (Z.of_nat n).
Proof.
  intros [Hl H]%load_lookup i Hi. destruct (lookup_lt_is_Some_2 bs (Z.to_nat (i - a))) as [b Hb]; [lia|].
  apply H in Hb. exists b. by replace (a + Z.of_nat (Z.to_nat (i - a))) with i in Hb by lia.
Qed.

(** Part of a buffer. *)
Lemma load_sub M a n bs i k :
  load M a n = Some bs -> (i + k <= n)%nat -> load M (a + Z.of_nat i) k = Some (take k (drop i bs)).
Proof.
  intros [Hl H]%load_lookup Hk. assert (Hlen : length (take k (drop i bs)) = k) by (rewrite length_take, length_drop; lia).
  rewrite <- Hlen at 1. apply load_intro. intros j b Hb. apply lookup_take_Some in Hb as [Hb _]. rewrite lookup_drop in Hb.
  apply H in Hb. by replace (a + Z.of_nat i + Z.of_nat j) with (a + Z.of_nat (i + j)) by lia.
Qed.

Lemma load_same M M' a n bs :
  load M a n = Some bs -> (forall i, a <= i < a + Z.of_nat n -> M' !! i = M !! i) -> load M' a n = Some bs.
Proof.
  intros [Hl H]%load_lookup HM. rewrite <- Hl. apply load_intro. intros i b Hb. pose proof (lookup_lt_Some _ _ _ Hb).
  rewrite HM by lia. by apply H.
Qed.

Lemma store_some M a bs :
  mapped M a (size_of bs) ->
  exists M', store M a bs = Some M' /\ (forall i, i < a \/ a + size_of bs <= i -> M' !! i = M !! i) /\
    load M' a (length bs) = Some bs.
Proof.
  revert M a. induction bs as [|b bs IH]; intros M a H; [by exists M|]. unfold size_of in *. simpl in *.
  destruct (H a) as [x Hx]; [lia|]. rewrite Hx. simpl. destruct (IH (<[a := b]> M) (a + 1)) as (M' & HM' & Hfr & Hl).
  { intros i Hi. rewrite lookup_insert_ne by lia. apply H. lia. }
  exists M'. split_and!; [done | |].
  - intros i Hi. rewrite Hfr by lia. apply lookup_insert_ne. lia.
  - rewrite Hfr, lookup_insert_eq by lia. simpl. by rewrite Hl.
Qed.

Lemma store_dom M a bs M' : store M a bs = Some M' -> forall i, is_Some (M' !! i) <-> is_Some (M !! i).
Proof.
  revert M a. induction bs as [|b bs IH]; intros M a; simpl; [by intros [= <-]|].
  destruct (M !! a) eqn:Ha; [|done]. simpl. intros H i. rewrite (IH _ _ H). destruct (decide (i = a)) as [->|Hne].
  - rewrite lookup_insert_eq, Ha. split; eauto.
  - by rewrite lookup_insert_ne.
Qed.

Lemma store_app M a xs ys M1 : store M a xs = Some M1 -> store M a (xs ++ ys) = store M1 (a + size_of xs) ys.
Proof.
  unfold size_of. revert M a. induction xs as [|x xs IH]; intros M a; simpl; [intros [= ->]; by rewrite Z.add_0_r|].
  destruct (M !! a); [|done]. simpl. intros H. rewrite (IH _ _ H). f_equal. lia.
Qed.

Lemma read_bytes_run s a n bs : load (bytes s) a (Z.to_nat n) = Some bs -> read_bytes a n s = Done (bs, s).
Proof. intros H. unfold read_bytes. by apply deref_some. Qed.

Lemma write_bytes_run s a bs M : store (bytes s) a bs = Some M -> write_bytes a bs s = Done (tt, set_bytes (fun _ => M) s).
Proof. intros H. unfold write_bytes. by run_by ltac:(apply deref_some; exact H). Qed.

Lemma memcpy_run s dst src n bs M :
  load (bytes s) src (Z.to_nat n) = Some bs -> store (bytes s) dst bs = Some M ->
  MEMCPY dst src n s = Done (tt, set_bytes (fun _ => M) s).
Proof. intros H1 H2. unfold MEMCPY. run_with (read_bytes_run _ _ _ _ H1). by apply write_bytes_run. Qed.

Lemma set_bytes_twice M M' s : set_bytes (fun _ => M) (set_bytes (fun _ => M') s) = set_bytes (fun _ => M) s.
Proof. done. Qed.

Lemma set_bytes_id s : set_bytes (fun _ => bytes s) s = s.
Proof. by destruct s. Qed.

(** ** Packets *)

Abbreviation cell := (Z * pbuf)%type.

(** The pbufs from [p] on. *)
Fixpoint chain_at (P : gmap Z pbuf) (p : Z) (cs : list cell) : Prop :=
  match cs with
  | [] => p = 0
  | (q, b) :: cs' => p = q /\ q <> 0 /\ P !! q = Some b /\ chain_at P (p_next b) cs'
  end.

Fixpoint total (cs : list cell) : Z := match cs with [] => 0 | (_, b) :: cs' => len b + total cs' end.

(** The invariant of [struct pbuf]: [tot_len] is the length from this pbuf on. *)
Fixpoint lens_ok (cs : list cell) : Prop :=
  match cs with
  | [] => True
  | (_, b) :: cs' => 0 <= len b /\ tot_len b = len b + total cs' /\ tot_len b < 2 ^ 16 /\ lens_ok cs'
  end.

(** The payloads. *)
Definition holds (M : gmap Z Z) (cs : list cell) (ds : list (list Z)) : Prop :=
  Forall2 (fun c d => load M (payload c.2) (Z.to_nat (len c.2)) = Some d) cs ds.

Record packet (s : lwip) (p : Z) (cs : list cell) (ds : list (list Z)) : Prop := {
  pk_chain : chain_at (pbufs s) p cs;
  pk_lens : lens_ok cs;
  pk_data : holds (bytes s) cs ds
}.

Lemma chain_unique P p cs cs' : chain_at P p cs -> chain_at P p cs' -> cs = cs'.
Proof.
  revert p cs'. induction cs as [|[q b] cs IH]; intros p [|[q' b'] cs']; simpl; try done.
  - intros -> (<- & ? & _). done.
  - intros (<- & ? & _) ?. done.
  - intros (<- & _ & H1 & H2) (<- & _ & H1' & H2'). simplify_eq. f_equal. by eapply IH.
Qed.

Lemma chain_suffix P p cs1 cs2 : chain_at P p (cs1 ++ cs2) -> exists q, chain_at P q cs2.
Proof. revert p. induction cs1 as [|[q b] cs1 IH]; intros p; simpl; [eauto|]. intros (_ & _ & _ & H). eauto. Qed.

Lemma chain_lookup P p cs q b : chain_at P p cs -> (q, b) ∈ cs -> P !! q = Some b /\ q <> 0.
Proof.
  revert p. induction cs as [|[q' b'] cs IH]; intros p; simpl; [by rewrite elem_of_nil|].
  intros (_ & Hne & HP & Hc) [[= <- <-]|Hin]%elem_of_cons; [done | eauto].
Qed.

(** A chain has no cycle. *)
Lemma chain_nodup P p cs : chain_at P p cs -> NoDup cs.*1.
Proof.
  revert p. induction cs as [|[q b] cs IH]; intros p Hc; [constructor|]. simpl.
  destruct Hc as (-> & Hne & Hq & Hc). constructor; [|by eapply IH]. intros Hin.
  apply list_elem_of_fmap in Hin as ([q' b'] & Hq' & Hin). simpl in Hq'. subst q'.
  apply list_elem_of_In, in_split in Hin as (l1 & l2 & ->). destruct (chain_suffix _ _ l1 _ Hc) as (q' & Hc2).
  pose proof Hc2 as (-> & _ & Hb & Hc3). rewrite Hq in Hb. injection Hb as <-.
  assert (E : l1 ++ (q, b) :: l2 = l2) by (by eapply chain_unique). apply (f_equal length) in E.
  rewrite length_app in E. simpl in E. lia.
Qed.

Lemma chain_fuel_enough s p cs : chain_at (pbufs s) p cs -> (length cs < chain_fuel s)%nat.
Proof.
  intros Hc. unfold chain_fuel. assert (length cs <= base.size (pbufs s))%nat; [|lia].
  rewrite <- (length_fmap fst cs), <- size_dom, <- (size_list_to_set (C := gset Z) (cs.*1)) by (by eapply chain_nodup).
  apply subseteq_size. intros q Hq%elem_of_list_to_set. apply list_elem_of_fmap in Hq as ([q' b] & -> & Hin).
  apply elem_of_dom. eapply chain_lookup in Hin; [|done]. simpl. exists b. tauto.
Qed.

Lemma lens_total cs : lens_ok cs -> 0 <= total cs < 2 ^ 16.
Proof. induction cs as [|[q b] cs IH]; simpl; [lia|]. intros (H1 & H2 & H3 & H4). specialize (IH H4). lia. Qed.

Lemma lens_app cs1 cs2 : lens_ok (cs1 ++ cs2) -> lens_ok cs2.
Proof. induction cs1 as [|[q b] cs1 IH]; simpl; [done|]. tauto. Qed.

Lemma total_app cs1 cs2 : total (cs1 ++ cs2) = total cs1 + total cs2.
Proof. induction cs1 as [|[q b] cs1 IH]; simpl; [done|]. rewrite IH. lia. Qed.

Lemma holds_length M cs ds : holds M cs ds -> lens_ok cs -> size_of (concat ds) = total cs.
Proof.
  intros H. induction H as [|[q b] d cs ds Hd _ IH]; simpl; [done|]. intros (H1 & _ & _ & H4).
  apply load_lookup in Hd as [Hl _]. unfold size_of in *. rewrite length_app, Nat2Z.inj_add, (IH H4). simpl in Hl. lia.
Qed.

Lemma holds_frame M M' cs ds :
  holds M cs ds -> (forall c i, c ∈ cs -> payload c.2 <= i < payload c.2 + len c.2 -> M' !! i = M !! i) -> holds M' cs ds.
Proof.
  intros H. induction H as [|c d cs ds Hd HF IH]; intros HM; constructor.
  - eapply load_same; [exact Hd|]. intros i Hi. apply (HM c); [left | lia].
  - apply IH. intros c' i Hc'. apply HM. by right.
Qed.

Lemma pbuf_at_run s p b : pbufs s !! p = Some b -> pbuf_at p s = Done (b, s).
Proof. intros H. unfold pbuf_at. by apply deref_some. Qed.

Lemma packet_set_bytes s p cs ds ds' M :
  packet s p cs ds -> holds M cs ds' -> packet (set_bytes (fun _ => M) s) p cs ds'.
Proof. intros [H1 H2 _] H. by split. Qed.

(** ** Finding an offset *)

Fixpoint locate (cs : list cell) (off : Z) : list cell * Z :=
  match cs with
  | [] => ([], off)
  | c :: cs' => if len c.2 <=? off then locate cs' (off - len c.2) else (cs, off)
  end.

Definition head_addr (cs : list cell) : Z := match cs with [] => 0 | c :: _ => c.1 end.

Lemma skip_loop_run s cs : forall fuel p off,
  chain_at (pbufs s) p cs -> lens_ok cs -> (length cs < fuel)%nat -> 0 <= off < 2 ^ 16 ->
  skip_loop fuel p off s = Done ((head_addr (locate cs off).1, (locate cs off).2), s).
Proof.
  induction cs as [|[q b] cs IH]; intros [|fuel] p off Hc Hl Hf Ho; try (simpl in Hf; lia); simpl in Hc; simpl.
  - by subst p.
  - destruct Hc as (-> & Hne & Hb & Hc). destruct Hl as (L1 & L2 & L3 & Hl). destruct (Z.eqb_spec q 0); [done|].
    run_with (pbuf_at_run _ _ _ Hb). destruct (Z.leb_spec (len b) off); [|done].
    rewrite u16_small by lia. apply IH; [done | done | simpl in Hf; lia | lia].
Qed.

(** The rest of the chain from an offset, and its contents. *)
Lemma locate_spec M cs ds off :
  holds M cs ds -> lens_ok cs -> 0 <= off ->
  exists cs1 ds2, cs = cs1 ++ (locate cs off).1 /\ holds M (locate cs off).1 ds2 /\ 0 <= (locate cs off).2 /\
    (forall i, 0 <= i -> concat ds2 !! Z.to_nat ((locate cs off).2 + i) = concat ds !! Z.to_nat (off + i)) /\
    match (locate cs off).1 with [] => total cs <= off | (_, b) :: _ => (locate cs off).2 < len b end.
Proof.
  intros H. revert off. induction H as [|[q b] d cs ds Hd HF IH]; intros off Hl Ho; simpl.
  - exists [], []. split_and!; try done. constructor.
  - destruct Hl as (L1 & L2 & L3 & Hl). destruct (Z.leb_spec (len b) off) as [Hle|Hlt].
    + destruct (IH (off - len b) Hl) as (cs1 & ds2 & H1 & H2 & H3 & H4 & H5); [lia|].
      exists ((q, b) :: cs1), ds2. split_and!; [simpl; by rewrite <- H1 | done | done | |].
      * intros i Hi. rewrite (H4 i Hi). apply load_lookup in Hd as [Hd _]. simpl in Hd.
        rewrite lookup_app_r by lia. f_equal. lia.
      * destruct (locate cs (off - len b)) as [[|[] ?] ?]; simpl in *; [lia | done].
    + exists [], (d :: ds). split_and!; try done. by constructor.
Qed.

Lemma try_get_at_run s p cs ds off :
  packet s p cs ds -> 0 <= off < 2 ^ 16 ->
  pbuf_try_get_at p off s = Done (default (-1) (concat ds !! Z.to_nat off), s).
Proof.
  intros [Hc Hl Hd] Ho. unfold pbuf_try_get_at, pbuf_skip. rewrite bind_assoc. kstep.
  run_by ltac:(apply (skip_loop_run s cs); [done | done | by eapply chain_fuel_enough | done]).
  destruct (locate_spec _ _ _ off Hd Hl) as (cs1 & ds2 & H1 & H2 & H3 & H4 & H5); [lia|].
  specialize (H4 0 ltac:(lia)). rewrite !Z.add_0_r in H4. rewrite <- H4.
  destruct (locate cs off) as [cs2 o]. simpl in *. destruct cs2 as [|[q b] cs2]; simpl.
  - inversion H2; subst. done.
  - rewrite H1 in Hc. destruct (chain_suffix _ _ _ _ Hc) as (q' & _ & Hne & Hb & _).
    destruct (Z.eqb_spec q 0); [done|]. run_with (pbuf_at_run _ _ _ Hb). destruct (Z.gtb_spec (len b) o); [|lia].
    inversion H2 as [|? d ? ds2' Hd2 _]; subst. simpl in Hd2.
    pose proof (load_lookup _ _ _ _ Hd2) as [Hdl _].
    destruct (lookup_lt_is_Some_2 d (Z.to_nat o)) as [x Hx]; [lia|].
    assert (Hload : load (bytes s) (payload b + o) (Z.to_nat 1) = Some [x]).
    { replace (payload b + o) with (payload b + Z.of_nat (Z.to_nat o)) by lia.
      rewrite (load_sub _ _ _ _ _ 1 Hd2) by lia. f_equal. apply (take_drop_middle) in Hx. rewrite <- Hx at 1.
      rewrite drop_app_length'; [done|]. rewrite length_take. lia. }
    run_with (read_bytes_run _ _ _ _ Hload). simpl. rewrite lookup_app_l by lia. by rewrite Hx.
Qed.

(** ** Searching *)

Definition bytes_ok (s : lwip) : Prop := forall a b, bytes s !! a = Some b -> 0 <= b < 2 ^ 8.

Lemma holds_bytes s cs ds i b : bytes_ok s -> holds (bytes s) cs ds -> concat ds !! i = Some b -> 0 <= b < 2 ^ 8.
Proof.
  intros Hb H. revert i. induction H as [|c d cs ds Hd HF IH]; intros i; simpl; [done|].
  rewrite lookup_app. destruct (d !! i) eqn:E; [|apply IH]. intros [= ->]. apply load_lookup in Hd as [_ Hd]. eauto.
Qed.

Lemma get_at_run s p cs ds off :
  packet s p cs ds -> bytes_ok s -> 0 <= off < 2 ^ 16 ->
  pbuf_get_at p off s = Done (default 0 (concat ds !! Z.to_nat off), s).
Proof.
  intros Hp Hb Ho. unfold pbuf_get_at. run_by ltac:(by eapply try_get_at_run).
  destruct (concat ds !! Z.to_nat off) as [b|] eqn:E; [|done]. simpl.
  pose proof (holds_bytes _ _ _ _ _ Hb (pk_data _ _ _ _ Hp) E). destruct (Z.geb_spec b 0); [|lia]. by rewrite u8_small.
Qed.

(** One more than the index of the first difference, or 0. *)
Fixpoint first_diff (xs ys : list Z) (i : Z) : Z :=
  match xs, ys with
  | x :: xs', y :: ys' => if x =? y then first_diff xs' ys' (i + 1) else i + 1
  | _, _ => 0
  end.

Lemma first_diff_eq xs : forall ys i, 0 <= i -> length xs = length ys -> first_diff xs ys i = 0 <-> xs = ys.
Proof.
  induction xs as [|x xs IH]; intros [|y ys] i Hi Hl; simplify_eq/=; [done|].
  destruct (Z.eqb_spec x y) as [->|Hne]; [rewrite IH by (done || lia)|]; naive_solver lia.
Qed.

Lemma memcmp_loop_run s q cs ds start s2 : packet s q cs ds -> bytes_ok s -> 0 <= start ->
  forall k i xs ys, load (bytes s) (s2 + i) k = Some ys -> length xs = k -> 0 <= i -> start + i + Z.of_nat k < 2 ^ 16 ->
  (forall j, (j < k)%nat -> concat ds !! Z.to_nat (start + i + Z.of_nat j) = xs !! j) ->
  memcmp_loop k q start s2 i s = Done (first_diff xs ys i, s).
Proof.
  intros Hp Hb Hs. induction k as [|k IH]; intros i [|x xs] ys Hy Hx Hi Hr Hj; try done; simpl in Hy.
  destruct (bytes s !! (s2 + i)) as [y|] eqn:Ey; [|done]. simpl in Hy.
  destruct (load (bytes s) (s2 + i + 1) k) as [ys'|] eqn:El; [|done]. injection Hy as <-. simpl.
  rewrite (u16_small (start + i)) by lia.
  run_by ltac:(eapply get_at_run; [exact Hp | exact Hb | lia]).
  assert (H1 : load (bytes s) (s2 + i) (Z.to_nat 1) = Some [y]) by (simpl; by rewrite Ey).
  run_with (read_bytes_run _ _ _ _ H1). simpl. specialize (Hj 0%nat ltac:(lia)) as Hj0. rewrite Z.add_0_r in Hj0. rewrite Hj0. simpl.
  destruct (Z.eqb_spec x y); simpl.
  - rewrite (IH (i + 1) xs ys'); try done; try lia.
    + by replace (s2 + (i + 1)) with (s2 + i + 1) by lia.
    + simpl in Hx. lia.
    + intros j Hjk. specialize (Hj (S j) ltac:(lia)). simpl in Hj. rewrite <- Hj. f_equal. lia.
  - rewrite Z.min_l, u16_small by lia. done.
Qed.

Lemma locate_packet s p cs ds off :
  packet s p cs ds -> 0 <= off ->
  exists ds2, packet s (head_addr (locate cs off).1) (locate cs off).1 ds2 /\ 0 <= (locate cs off).2 <= off /\
    (forall i, 0 <= i -> concat ds2 !! Z.to_nat ((locate cs off).2 + i) = concat ds !! Z.to_nat (off + i)).
Proof.
  intros [Hc Hl Hd] Ho. destruct (locate_spec _ _ _ off Hd Hl Ho) as (cs1 & ds2 & H1 & H2 & H3 & H4 & _). exists ds2.
  split_and!; [| done | | done].
  - rewrite H1 in Hc, Hl. destruct (chain_suffix _ _ _ _ Hc) as (q & Hq). split; [| by eapply lens_app | done].
    destruct (locate cs off).1 as [|[q' b] cs2]; [done|]. by destruct Hq as (-> & ?).
  - clear -Hl Ho. revert off Ho. induction cs as [|[q b] cs IH]; intros off Ho; simpl; [lia|]. destruct Hl as (L1 & _ & _ & Hl).
    destruct (Z.leb_spec (len b) off); simpl; [|lia]. specialize (IH Hl (off - len b) ltac:(lia)). lia.
Qed.

Lemma sublist_lookup xs off k j : (j < k)%nat -> take k (drop off xs) !! j = (xs !! (off + j)%nat : option Z).
Proof. intros Hj. by rewrite lookup_take_lt, lookup_drop by done. Qed.

(** [pbuf_memcmp] compares a part of the packet with a buffer. *)
Lemma memcmp_run s p cs ds off s2 ys :
  packet s p cs ds -> bytes_ok s -> cs <> [] -> 0 <= off < 2 ^ 16 -> size_of ys < 2 ^ 16 ->
  load (bytes s) s2 (length ys) = Some ys ->
  pbuf_memcmp p off s2 (size_of ys) s =
    Done (if size_of (concat ds) <? off + size_of ys then 0xffff
          else first_diff (take (length ys) (drop (Z.to_nat off) (concat ds))) ys 0, s).
Proof.
  intros Hp Hb Hne Ho Hn Hy. pose proof Hp as [Hc Hl Hd]. pose proof (holds_length _ _ _ Hd Hl) as Htot.
  destruct cs as [|[q b] cs]; [done|]. pose proof Hc as (-> & Hq & HP & _). pose proof Hl as (L1 & L2 & L3 & _).
  unfold pbuf_memcmp. run_with (pbuf_at_run _ _ _ HP). rewrite Htot. simpl. rewrite L2.
  destruct (Z.ltb_spec (len b + total cs) (off + size_of ys)); [done|].
  unfold pbuf_skip. rewrite bind_assoc. kstep.
  run_by ltac:(apply (skip_loop_run s ((q, b) :: cs)); [done | done | by eapply chain_fuel_enough | done]).
  destruct (locate_packet _ _ _ _ off Hp) as (ds2 & Hp2 & Hst & Hix); [lia|].
  unfold size_of in *. rewrite Nat2Z.id. eapply (memcmp_loop_run s _ _ ds2); try done; try lia.
  - by rewrite Z.add_0_r.
  - rewrite length_take, length_drop. simpl in Htot. lia.
  - intros j Hj. rewrite sublist_lookup by done. rewrite Z.add_0_r, Hix by lia. f_equal. lia.
Qed.

(** The bytes [ys] occur in [xs] at [i]. *)
Definition occurs_at (xs ys : list Z) (i : Z) : Prop :=
  0 <= i /\ i + size_of ys <= size_of xs /\ take (length ys) (drop (Z.to_nat i) xs) = ys.

Lemma memfind_loop_run s p cs ds mem ys : let xs := concat ds in
  packet s p cs ds -> bytes_ok s -> cs <> [] -> ys <> [] -> load (bytes s) mem (length ys) = Some ys ->
  forall fuel i, 0 <= i -> size_of ys <= size_of xs -> Z.max 0 (size_of xs - size_of ys + 1 - i) < Z.of_nat fuel -> i < 2 ^ 16 ->
  exists v, memfind_loop fuel p mem (size_of ys) i (size_of xs - size_of ys) s = Done (v, s) /\
    ((occurs_at xs ys v /\ i <= v /\ forall j, i <= j < v -> ~ occurs_at xs ys j) \/
     (v = 0xFFFF /\ forall j, i <= j -> ~ occurs_at xs ys j)).
Proof.
  intros xs Hp Hb Hne Hys Hy. pose proof (holds_length _ _ _ (pk_data _ _ _ _ Hp) (pk_lens _ _ _ _ Hp)) as Htot.
  pose proof (lens_total _ (pk_lens _ _ _ _ Hp)) as Htl. fold xs in Htot.
  assert (H1 : 0 < size_of ys) by (destruct ys; [done | unfold size_of; simpl; lia]).
  induction fuel as [|fuel IH]; intros i Hi Hsz Hf Hmax; simpl; [|destruct (Z.leb_spec i (size_of xs - size_of ys)) as [Hle|Hgt]].
  - lia.
  - run_by ltac:(eapply (memcmp_run s p cs ds i mem ys); [done.. | lia | lia | done]). fold xs.
    destruct (Z.ltb_spec (size_of xs) (i + size_of ys)); [lia|].
    assert (Hl : length (take (length ys) (drop (Z.to_nat i) xs)) = length ys)
      by (rewrite length_take, length_drop; unfold size_of in *; lia).
    destruct (Z.eqb_spec (first_diff (take (length ys) (drop (Z.to_nat i) xs)) ys 0) 0) as [E|E].
    + apply first_diff_eq in E; [|lia|done]. exists i. split; [done|]. left. split_and!; [|lia|lia].
      split_and!; [done | lia | done].
    + destruct (IH (i + 1)) as (v & Hrun & Hv); [lia | lia | lia | lia |]. rewrite u16_small by lia. exists v. split; [done|].
      assert (Hno : ~ occurs_at xs ys i) by (intros (_ & _ & Ho); apply E, first_diff_eq; [lia | done | done]).
      destruct Hv as [(V1 & V2 & V3)|(V1 & V2)]; [left | right]; split_and!; try done; try lia.
      * intros j Hj. destruct (decide (j = i)) as [->|]; [done|]. apply V3. lia.
      * intros j Hj. destruct (decide (j = i)) as [->|]; [done|]. apply V2. lia.
  - exists 0xFFFF. split; [done|]. right. split; [done|]. intros j Hj (_ & Hj2 & _). lia.
Qed.

(** Searching a packet.  [pbuf_memfind] on a chain of pbufs is the search in the
    concatenation of their payloads: it returns the smallest offset from the start
    offset on at which the bytes occur, and 0xFFFF only when they occur nowhere
    there; however the bytes are distributed over the pbufs, empty ones included,
    nothing outside the payloads is read and nothing is changed. *)
Theorem pbuf_memfind_first s p cs ds mem ys start :
  packet s p cs ds -> bytes_ok s -> cs <> [] -> load (bytes s) mem (length ys) = Some ys ->
  size_of ys < 2 ^ 16 -> 0 <= start < 2 ^ 16 ->
  exists v, pbuf_memfind p mem (size_of ys) start s = Done (v, s) /\
    ((occurs_at (concat ds) ys v /\ start <= v /\ forall j, start <= j < v -> ~ occurs_at (concat ds) ys j) \/
     (v = 0xFFFF /\ forall j, start <= j -> ~ occurs_at (concat ds) ys j)).
Proof.
  intros Hp Hb Hne Hy Hn Hs. pose proof Hp as [Hc Hl Hd]. pose proof (holds_length _ _ _ Hd Hl) as Htot.
  pose proof (lens_total _ Hl) as Htl. pose proof Hp as Hp'. destruct cs as [|[q b] cs]; [done|].
  destruct Hc as (-> & Hq & HP & _). destruct Hl as (L1 & L2 & L3 & _). cbn [total] in Htot, Htl.
  unfold pbuf_memfind. run_with (pbuf_at_run _ _ _ HP). rewrite L2, <- Htot. set (xs := concat ds) in *.
  assert (0 <= size_of ys) by (unfold size_of; lia).
  destruct (Z.geb_spec (size_of xs) (size_of ys + start)) as [Hge|Hlt]; last first.
  { exists 0xFFFF. split; [done|]. right. split; [done|]. intros j Hj (_ & Hj2 & _). lia. }
  rewrite u16_small by lia. destruct (decide (ys = [])) as [->|Hys].
  - exists start. split.
    + cbn [memfind_loop]. destruct (Z.leb_spec start (size_of xs - size_of (A := Z) [])); [|lia].
      run_by ltac:(apply (memcmp_run s q _ ds start mem [] Hp' Hb Hne Hs); [lia | done]).
      fold xs. destruct (Z.ltb_spec (size_of xs) (start + size_of (A := Z) [])); [lia | done].
    + left. split_and!; [| lia | lia]. split_and!; [lia | lia | done].
  - destruct (memfind_loop_run s q _ ds mem ys Hp' Hb Hne Hys Hy (S (Z.to_nat (size_of xs - size_of ys + 1 - start))) start)
      as (v & Hrun & Hv); try (fold xs; lia). by exists v.
Qed.

(** ** Copying out *)

(** A buffer that lies apart from the payloads. *)
Definition apart_from (cs : list cell) (a n : Z) : Prop :=
  forall c, c ∈ cs -> payload c.2 + len c.2 <= a \/ a + n <= payload c.2.

Lemma holds_store M M' cs ds a (bs : list Z) :
  holds M cs ds -> apart_from cs a (size_of bs) -> (forall i, i < a \/ a + size_of bs <= i -> M' !! i = M !! i) -> holds M' cs ds.
Proof. intros H Ha HM. eapply holds_frame; [exact H|]. intros c i Hc Hi. apply HM. destruct (Ha c Hc); lia. Qed.

(** The part of the first payload that one turn copies, and what is left. *)
Lemma part_split (d rest : list Z) off l :
  (off <= length d)%nat ->
  let k := Nat.min (length d - off) l in
  take l (drop off (d ++ rest)) = take k (drop off d) ++ take (l - k) rest.
Proof.
  intros Ho k. rewrite drop_app_le by lia. destruct (decide (length d - off <= l)%nat) as [Hle|Hgt].
  - replace k with (length d - off)%nat by lia. rewrite take_app_ge by (rewrite length_drop; lia). rewrite length_drop.
    f_equal. rewrite take_ge; [done|]. rewrite length_drop. lia.
  - replace k with l by lia. rewrite Nat.sub_diag. rewrite take_0, app_nil_r, take_app_le; [done|]. rewrite length_drop. lia.
Qed.

Lemma copy_partial_loop_run d : forall cs ds fuel s p l off left done_,
  chain_at (pbufs s) p cs -> lens_ok cs -> holds (bytes s) cs ds -> (length cs < fuel)%nat ->
  0 <= l -> 0 <= off < 2 ^ 16 -> 0 <= left -> left + l < 2 ^ 16 -> 0 <= done_ -> done_ + l < 2 ^ 16 ->
  let out := take (Z.to_nat l) (drop (Z.to_nat off) (concat ds)) in
  mapped (bytes s) (d + left) (size_of out) -> apart_from cs (d + left) (size_of out) ->
  exists M, store (bytes s) (d + left) out = Some M /\
    copy_partial_loop fuel p d l off left done_ s = Done (done_ + size_of out, set_bytes (fun _ => M) s).
Proof.
  induction cs as [|[q b] cs IH]; intros ds [|fuel] s p l off left done_ Hc Hl Hd Hf H1 H2 H3 H4 H5 H6 out Hm Ha;
    try (simpl in Hf; lia); inversion Hd as [|? dt ? ds' Hdt Hd']; subst ds; simpl in Hc; cbn [copy_partial_loop].
  - subst p. rewrite Z.eqb_refl, andb_false_r. exists (bytes s). simpl in out. subst out. rewrite drop_nil, take_nil.
    simpl. unfold size_of. simpl. by rewrite Z.add_0_r, set_bytes_id.
  - destruct Hc as (-> & Hq & HP & Hc). destruct Hl as (L1 & L2 & L3 & Hl). cbn [concat] in out. simpl in Hdt.
    pose proof (load_lookup _ _ _ _ Hdt) as [Hlen _].
    destruct (Z.eqb_spec l 0) as [->|Hl0]; simpl.
    { exists (bytes s). subst out. simpl. unfold size_of. simpl. by rewrite Z.add_0_r, set_bytes_id. }
    destruct (Z.eqb_spec q 0); [done|]. simpl. run_with (pbuf_at_run _ _ _ HP).
    assert (Ha' : forall n, n <= size_of out -> apart_from cs (d + left) n).
    { intros m Hm' c Hc'. destruct (Ha c) as [?|?]; [by right | by left | right; lia]. }
    destruct (negb (off =? 0) && (off >=? len b)) eqn:Hskip.
    + apply andb_true_iff in Hskip as [Hs1 Hs2]. apply Z.geb_le in Hs2. rewrite u16_small by lia.
      assert (Hout : out = take (Z.to_nat l) (drop (Z.to_nat (off - len b)) (concat ds'))).
      { subst out. rewrite drop_app_ge by lia. do 2 f_equal. lia. }
      rewrite Hout in Hm, Ha' |- *. eapply (IH ds'); try done; try lia; [simpl in Hf; lia | by apply Ha'].
    + assert (Hoff : off <= len b).
      { apply andb_false_iff in Hskip as [Hs|Hs]; [apply negb_false_iff, Z.eqb_eq in Hs; lia|].
        rewrite Z.geb_leb in Hs. apply Z.leb_gt in Hs. lia. }
      pose proof (lens_total _ Hl). rewrite (u16_small (len b - off)) by lia.
      set (kz := if len b - off >? l then l else len b - off).
      set (k := Nat.min (length dt - Z.to_nat off) (Z.to_nat l)).
      assert (Hk : kz = Z.of_nat k).
      { unfold kz, k. destruct (Z.gtb_spec (len b - off) l); lia. }
      assert (Hsplit : out = take k (drop (Z.to_nat off) dt) ++ take (Z.to_nat (l - kz)) (concat ds')).
      { subst out. rewrite part_split by lia. fold k. do 2 f_equal. lia. }
      set (o1 := take k (drop (Z.to_nat off) dt)) in *. set (o2 := take (Z.to_nat (l - kz)) (concat ds')) in *.
      assert (Ho1 : size_of o1 = kz) by (unfold o1, size_of; rewrite length_take, length_drop; lia).
      assert (Hsz : size_of out = size_of o1 + size_of o2) by (rewrite Hsplit; unfold size_of; rewrite length_app; lia).
      assert (Hpos : 0 <= size_of o2) by (unfold size_of; lia). unfold size_of in Hpos. fold (size_of o2) in Hpos.
      destruct (store_some (bytes s) (d + left) o1) as (M1 & HM1 & Hfr1 & _); [intros i Hi; apply Hm; lia|].
      assert (Hload : load (bytes s) (payload b + off) (Z.to_nat kz) = Some o1).
      { rewrite Hk, Nat2Z.id. replace (payload b + off) with (payload b + Z.of_nat (Z.to_nat off)) by lia.
        apply (load_sub _ _ _ _ _ _ Hdt). lia. }
      run_by ltac:(apply (memcpy_run _ _ _ _ _ _ Hload HM1)).
      rewrite !(u16_small (_ + kz)) by lia. rewrite (u16_small (l - kz)) by lia.
      destruct (IH ds' fuel (set_bytes (fun _ => M1) s) (p_next b) (l - kz) 0 (left + kz) (done_ + kz)) as (M & HM & Hrun);
        try done; try lia; try (simpl in Hf; lia); change (drop (Z.to_nat 0) (concat ds')) with (concat ds') in *; cbn [bytes set_bytes] in *; fold o2.
      * eapply holds_store; [exact Hd' | apply (Ha' (size_of o1)); lia | done].
      * intros i Hi. apply (store_dom _ _ _ _ HM1). apply Hm. lia.
      * intros c Hc'. destruct (Ha' (size_of out) ltac:(lia) c Hc'); lia.
      * fold o2 in HM, Hrun. exists M. rewrite Hsplit, (store_app _ _ _ _ _ HM1), Ho1.
        rewrite <- Hsplit, Hsz, Ho1. split; [by rewrite <- Z.add_assoc|]. rewrite Hrun, set_bytes_twice. do 2 f_equal. lia.
Qed.

Lemma copy_partial_run s p cs ds d l off :
  let out := take (Z.to_nat l) (drop (Z.to_nat off) (concat ds)) in
  packet s p cs ds -> cs <> [] -> d <> 0 -> 0 <= l < 2 ^ 16 -> 0 <= off < 2 ^ 16 ->
  mapped (bytes s) d (size_of out) -> apart_from cs d (size_of out) ->
  exists M, pbuf_copy_partial p d l off s = Done (size_of out, set_bytes (fun _ => M) s) /\
    load M d (length out) = Some out /\ (forall i, i < d \/ d + size_of out <= i -> M !! i = bytes s !! i).
Proof.
  intros out [Hc Hl Hd] Hne Hd0 H1 H2 Hm Ha. destruct (store_some _ _ _ Hm) as (M & HM & Hfr & Hload).
  destruct (copy_partial_loop_run d cs ds (chain_fuel s) s p l off 0 0) as (M' & HM' & Hrun); rewrite ?Z.add_0_r; try done; try lia.
  { by eapply chain_fuel_enough. }
  rewrite Z.add_0_r in HM'. fold out in HM', Hrun. rewrite HM in HM'. injection HM' as <-.
  exists M. split_and!; [|done|done]. unfold pbuf_copy_partial. destruct cs as [|[q b] cs]; [done|]. destruct Hc as (-> & Hq & _).
  destruct (Z.eqb_spec q 0); [done|]. destruct (Z.eqb_spec d 0); [done|]. kstep. exact Hrun.
Qed.

(** ** Copying in *)

(** The payloads do not overlap. *)
Fixpoint spread (cs : list cell) : Prop :=
  match cs with [] => True | c :: cs' => apart_from cs' (payload c.2) (len c.2) /\ spread cs' end.

Definition in_payload (cs : list cell) (i : Z) : Prop := exists c, c ∈ cs /\ payload c.2 <= i < payload c.2 + len c.2.

(** The first bytes of a buffer are replaced. *)
Lemma load_overwrite M M1 a n d x :
  load M a n = Some d -> store M a x = Some M1 -> (length x <= n)%nat -> load M1 a n = Some (x ++ drop (length x) d).
Proof.
  intros Hd HM Hx. pose proof (load_lookup _ _ _ _ Hd) as [Hl Hix].
  destruct (store_some M a x) as (M' & HM' & Hfr & Hl1).
  { intros i Hi. apply (load_mapped _ _ _ _ Hd). unfold size_of in Hi. lia. }
  rewrite HM in HM'. injection HM' as <-.
  assert (E : n = length (x ++ drop (length x) d)) by (rewrite length_app, length_drop; lia).
  rewrite E at 1. apply load_intro. intros i y. rewrite lookup_app. destruct (x !! i) eqn:Ex.
  - intros [= ->]. by apply (load_lookup _ _ _ _ Hl1).
  - apply lookup_ge_None in Ex. rewrite lookup_drop. intros Hy. replace (length x + (i - length x))%nat with i in Hy by lia.
    rewrite Hfr by (unfold size_of; lia). by apply Hix.
Qed.

Lemma overwrite_concat (xs dt rest : list Z) k :
  (k = Nat.min (length xs) (length dt))%nat ->
  (take k xs ++ drop k dt) ++ drop k xs ++ drop (length xs - k) rest = xs ++ drop (length xs) (dt ++ rest).
Proof.
  intros Hk. rewrite <- app_assoc. destruct (decide (length xs <= length dt)%nat).
  - replace k with (length xs) by lia. rewrite (take_ge xs), (drop_ge xs), Nat.sub_diag by lia. simpl.
    rewrite drop_app_le by lia. by rewrite drop_0.
  - replace k with (length dt) by lia. rewrite (drop_ge dt) by lia. rewrite (drop_app_ge dt) by lia. simpl.
    by rewrite app_assoc, take_drop.
Qed.

Lemma take_loop_run d : forall cs ds fuel s p l done_ xs,
  chain_at (pbufs s) p cs -> lens_ok cs -> holds (bytes s) cs ds -> spread cs -> (length cs < fuel)%nat ->
  0 <= done_ -> size_of xs = l -> l <= total cs -> load (bytes s) (d + done_) (length xs) = Some xs ->
  apart_from cs (d + done_) l ->
  exists M ds', take_loop fuel p d l done_ s = Done (tt, set_bytes (fun _ => M) s) /\ holds M cs ds' /\
    concat ds' = xs ++ drop (length xs) (concat ds) /\
    (forall i, ~ in_payload cs i -> M !! i = bytes s !! i).
Proof.
  induction cs as [|[q b] cs IH]; intros ds [|fuel] s p l done_ xs Hc Hl Hd Hs Hf H1 Hx Hle Hld Ha;
    try (simpl in Hf; lia); inversion Hd as [|? dt ? ds' Hdt Hd']; subst ds; simpl in Hc, Hle; cbn [take_loop].
  - assert (xs = []) as -> by (destruct xs; [done | unfold size_of in Hx; simpl in Hx; lia]). simpl in Hx. subst l.
    exists (bytes s), []. split_and!; try done. by rewrite set_bytes_id.
  - destruct (Z.eqb_spec l 0) as [->|Hl0].
    { exists (bytes s), (dt :: ds'). assert (xs = []) as -> by (destruct xs; [done | unfold size_of in Hx; simpl in Hx; lia]).
      split_and!; try done. by rewrite set_bytes_id. }
    destruct Hc as (-> & Hq & HP & Hc). destruct Hl as (L1 & L2 & L3 & Hl). destruct Hs as [Hs1 Hs]. simpl in Hdt, Hs1.
    pose proof (load_lookup _ _ _ _ Hdt) as [Hlen _]. run_with (pbuf_at_run _ _ _ HP).
    set (k := if l >? len b then len b else l). assert (Hk : k = Z.min l (len b)) by (unfold k; destruct (Z.gtb_spec l (len b)); lia).
    pose proof (lens_total _ Hl). unfold size_of in Hx. set (x1 := take (Z.to_nat k) xs). set (x2 := drop (Z.to_nat k) xs).
    assert (Hx1 : size_of x1 = k) by (unfold x1, size_of; rewrite length_take; lia).
    assert (Hx2 : size_of x2 = l - k) by (unfold x2, size_of; rewrite length_drop; lia).
    assert (Ha1 : payload b + len b <= d + done_ \/ d + done_ + l <= payload b) by (apply (Ha (q, b)); left).
    destruct (store_some (bytes s) (payload b) x1) as (M1 & HM1 & Hfr1 & Hl1).
    { intros i Hi. apply (load_mapped _ _ _ _ Hdt). lia. }
    assert (Hload : load (bytes s) (d + done_) (Z.to_nat k) = Some x1).
    { pose proof (load_sub _ _ _ _ 0 (Z.to_nat k) Hld ltac:(lia)) as E. by rewrite Z.add_0_r in E. }
    run_by ltac:(apply (memcpy_run _ _ _ _ _ _ Hload HM1)).
    destruct (IH ds' fuel (set_bytes (fun _ => M1) s) (p_next b) (l - k) (done_ + k) x2) as (M & ds2 & Hrun & Hh & Hcat & Hfr);
      try done; try lia; cbn [bytes set_bytes].
    + eapply holds_frame; [exact Hd'|]. intros c i Hcin Hi. apply Hfr1. destruct (Hs1 c Hcin); lia.
    + simpl in Hf. lia.
    + pose proof (load_sub _ _ _ _ (Z.to_nat k) (length xs - Z.to_nat k) Hld ltac:(lia)) as E.
      rewrite take_ge in E by (rewrite length_drop; lia). fold x2 in E.
      assert (length x2 = length xs - Z.to_nat k)%nat as -> by (unfold x2; by rewrite length_drop).
      eapply load_same; [replace (d + (done_ + k)) with (d + done_ + Z.of_nat (Z.to_nat k)) by lia; exact E|].
      intros i Hi. apply Hfr1. lia.
    + intros c Hcin. destruct (Ha c) as [?|?]; [by right | lia | lia].
    + cbn [bytes set_bytes] in Hfr. exists M, ((x1 ++ drop (Z.to_nat k) dt) :: ds2). split_and!.
      * rewrite Hrun. by rewrite set_bytes_twice.
      * constructor; [|done]. simpl.
        assert (Hdt2 : load M1 (payload b) (Z.to_nat (len b)) = Some (x1 ++ drop (Z.to_nat k) dt)).
        { replace (Z.to_nat k) with (length x1) by (unfold size_of in Hx1; lia).
          eapply load_overwrite; [done | done | unfold size_of in Hx1; lia]. }
        eapply load_same; [exact Hdt2|]. intros i Hi. apply Hfr. intros (c & Hcin & Hci). destruct (Hs1 c Hcin); lia.
      * simpl. rewrite Hcat. unfold x1, x2. rewrite length_drop. apply overwrite_concat. lia.
      * intros i Hi. rewrite Hfr, Hfr1; [done | | intros (c & Hcin & Hci); apply Hi; exists c; split; [by right | done]].
        destruct (decide (payload b <= i < payload b + size_of x1)) as [Hin|]; [|lia]. exfalso. apply Hi.
        exists (q, b). split; [left | simpl; lia].
Qed.

Lemma pbuf_take_run s p cs ds d xs :
  packet s p cs ds -> spread cs -> cs <> [] -> d <> 0 -> size_of xs <= total cs ->
  load (bytes s) d (length xs) = Some xs -> apart_from cs d (size_of xs) ->
  exists M ds', pbuf_take p d (size_of xs) s = Done (ERR_OK, set_bytes (fun _ => M) s) /\ holds M cs ds' /\
    concat ds' = xs ++ drop (length xs) (concat ds) /\ (forall i, ~ in_payload cs i -> M !! i = bytes s !! i).
Proof.
  intros [Hc Hl Hd] Hs Hne Hd0 Hle Hx Ha.
  destruct (take_loop_run d cs ds (chain_fuel s) s p (size_of xs) 0 xs) as (M & ds' & Hrun & H1 & H2 & H3);
    rewrite ?Z.add_0_r; try done; [by eapply chain_fuel_enough|].
  exists M, ds'. split_and!; try done. unfold pbuf_take. destruct cs as [|[q b] cs]; [done|]. destruct Hc as (-> & Hq & HP & _).
  destruct (Z.eqb_spec q 0); [done|]. destruct (Z.eqb_spec d 0); [done|]. run_with (pbuf_at_run _ _ _ HP).
  destruct Hl as (_ & L2 & _). simpl in Hle. destruct (Z.geb_spec (tot_len b) (size_of xs)); [|lia]. kstep. by run_with Hrun.
Qed.

(** Reading a packet.  [pbuf_copy_partial] writes to the buffer exactly the bytes
    [offset .. offset + len) of the concatenated payloads, as far as the packet
    reaches, returns their number, and changes nothing else. *)
Theorem pbuf_copy_partial_flat s p cs ds d l off :
  let out := take (Z.to_nat l) (drop (Z.to_nat off) (concat ds)) in
  packet s p cs ds -> cs <> [] -> d <> 0 -> 0 <= l < 2 ^ 16 -> 0 <= off < 2 ^ 16 ->
  mapped (bytes s) d (size_of out) -> apart_from cs d (size_of out) ->
  exists M, pbuf_copy_partial p d l off s = Done (size_of out, set_bytes (fun _ => M) s) /\
    load M d (length out) = Some out /\ (forall i, i < d \/ d + size_of out <= i -> M !! i = bytes s !! i) /\
    packet (set_bytes (fun _ => M) s) p cs ds.
Proof.
  intros out Hp Hne Hd0 H1 H2 Hm Ha. destruct (copy_partial_run s p cs ds d l off Hp Hne Hd0 H1 H2 Hm Ha) as (M & Hrun & Hl & Hfr).
  exists M. split_and!; try done. eapply packet_set_bytes; [done|]. eapply holds_store; [apply Hp | exact Ha | exact Hfr].
Qed.

(** C35: Writing and reading back.  [pbuf_take] of data that fits in the packet
    overwrites its first bytes and leaves the others, so that
    [pbuf_copy_partial] of the same length returns the data; data that does not
    fit is refused with [ERR_MEM] and nothing is written. *)
Theorem pbuf_take_roundtrip s p cs ds src dst xs :
  packet s p cs ds -> spread cs -> cs <> [] -> src <> 0 -> dst <> 0 -> size_of xs < 2 ^ 16 ->
  load (bytes s) src (length xs) = Some xs -> apart_from cs src (size_of xs) ->
  mapped (bytes s) dst (size_of xs) -> apart_from cs dst (size_of xs) ->
  if size_of xs <=? total cs then
    exists s1 s2 ds', pbuf_take p src (size_of xs) s = Done (ERR_OK, s1) /\ packet s1 p cs ds' /\
      concat ds' = xs ++ drop (length xs) (concat ds) /\
      pbuf_copy_partial p dst (size_of xs) 0 s1 = Done (size_of xs, s2) /\
      load (bytes s2) dst (length xs) = Some xs /\ packet s2 p cs ds'
  else pbuf_take p src (size_of xs) s = Done (ERR_MEM, s).
Proof.
  intros Hp Hs Hne Hs0 Hd0 Hx Hld Ha Hm Ha2. destruct (Z.leb_spec (size_of xs) (total cs)) as [Hle|Hgt].
  - destruct (pbuf_take_run s p cs ds src xs Hp Hs Hne Hs0 Hle Hld Ha) as (M & ds' & Hrun & Hh & Hcat & Hfr).
    set (s1 := set_bytes (fun _ => M) s) in *. assert (Hp1 : packet s1 p cs ds') by (by eapply packet_set_bytes).
    assert (Hout : take (Z.to_nat (size_of xs)) (drop (Z.to_nat 0) (concat ds')) = xs).
    { unfold size_of. rewrite Nat2Z.id, Hcat. change (Z.to_nat 0) with 0%nat. rewrite drop_0, take_app_le by lia. by rewrite take_ge. }
    destruct (copy_partial_run s1 p cs ds' dst (size_of xs) 0 Hp1 Hne Hd0) as (M2 & Hrun2 & Hl2 & Hfr2); rewrite ?Hout;
      try (unfold size_of in *; lia); try done.
    { intros i Hi. simpl. rewrite Hfr; [by apply Hm|]. intros (c & Hc & Hci). destruct (Ha2 c Hc); lia. }
    rewrite Hout in *. exists s1, (set_bytes (fun _ => M2) s1), ds'. split_and!; try done.
    eapply packet_set_bytes; [done|]. eapply holds_store; [exact Hh | exact Ha2 | exact Hfr2].
  - unfold pbuf_take. destruct cs as [|[q b] cs]; [done|]. destruct (pk_chain _ _ _ _ Hp) as (-> & Hq & HP & _).
    destruct (pk_lens _ _ _ _ Hp) as (_ & L2 & _). simpl in Hgt. destruct (Z.eqb_spec q 0); [done|]. destruct (Z.eqb_spec src 0); [done|].
    run_with (pbuf_at_run _ _ _ HP). destruct (Z.geb_spec (tot_len b) (size_of xs)); [lia | done].
Qed.

(** ** A packet of three pbufs, one of them empty *)

Fixpoint bytes_from (a : Z) (bs : list Z) (M : gmap Z Z) : gmap Z Z :=
  match bs with [] => M | b :: bs' => <[a := b]> (bytes_from (a + 1) bs' M) end.

Definition demo_chain : list cell :=
  [(16, mk_pbuf 48 100 7 3 0x82 0 1 0); (48, mk_pbuf 80 110 4 0 0x82 0 1 0); (80, mk_pbuf 0 120 4 4 0x82 0 1 0)].

Definition demo_net : lwip :=
  mk_lwip (mk_lwip_heap 0 0 0 ∅) (mk_memp [] ∅ ∅) (list_to_map demo_chain) ∅
    (bytes_from 100 [1; 2; 3] (bytes_from 120 [4; 5; 6; 7]
      (bytes_from 200 [3; 4; 5; 9] (bytes_from 300 (repeat 0 8) ∅)))).

Definition demo_data : list (list Z) := [[1; 2; 3]; []; [4; 5; 6; 7]].

Lemma demo_packet : packet demo_net 16 demo_chain demo_data.
Proof. split; [vm_compute; repeat split; discriminate | vm_compute; repeat split; discriminate |]. repeat constructor. Qed.

Lemma demo_apart a n : 200 <= a -> apart_from demo_chain a n.
Proof. intros Ha c [->|[->|[->|[]%elem_of_nil]%elem_of_cons]%elem_of_cons]%elem_of_cons; simpl; lia. Qed.

Lemma mapped_check M a n : load M a (Z.to_nat n) <> None -> mapped M a n.
Proof. destruct (load M a (Z.to_nat n)) eqn:E; [|done]. intros _ i Hi. apply (load_mapped _ _ _ _ E). lia. Qed.

Lemma pbuf_copy_partial_flat_witness :
  exists M, pbuf_copy_partial 16 300 3 2 demo_net = Done (3, set_bytes (fun _ => M) demo_net) /\
    load M 300 3 = Some [3; 4; 5].
Proof.
  destruct (pbuf_copy_partial_flat demo_net 16 demo_chain demo_data 300 3 2 demo_packet) as (M & Hrun & Hl & _); try done.
  - apply mapped_check. vm_compute. done.
  - by apply demo_apart.
  - by exists M.
Defined.

Lemma demo_bytes : bytes_ok demo_net.
Proof.
  intros a b Hb. assert (H : map_Forall (fun _ b => 0 <= b < 2 ^ 8) (bytes demo_net)).
  { apply (bool_decide_eq_true_1 _). vm_compute. reflexivity. }
  by apply (H a).
Qed.

Lemma pbuf_memfind_first_witness :
  exists v, pbuf_memfind 16 200 3 0 demo_net = Done (v, demo_net) /\ v = 2.
Proof.
  destruct (pbuf_memfind_first demo_net 16 demo_chain demo_data 200 [3; 4; 5] 0 demo_packet demo_bytes) as (v & Hrun & _); try done.
  exists v. split; [exact Hrun|]. vm_compute in Hrun. injection Hrun as <-. reflexivity.
Defined.

Lemma pbuf_take_roundtrip_witness :
  exists s1 s2 ds', pbuf_take 16 200 4 demo_net = Done (ERR_OK, s1) /\ concat ds' = [3; 4; 5; 9; 5; 6; 7] /\
    pbuf_copy_partial 16 300 4 0 s1 = Done (4, s2) /\ packet s2 16 demo_chain ds'.
Proof.
  destruct (pbuf_take_roundtrip demo_net 16 demo_chain demo_data 200 300 [3; 4; 5; 9] demo_packet) as (s1 & s2 & ds' & H1 & _ & H2 & H3 & _ & H4); try done.
  - simpl. split_and!; try done; intros c Hc; repeat (apply elem_of_cons in Hc as [->|Hc]; [simpl; lia|]); by apply elem_of_nil in Hc.
  - by apply demo_apart.
  - apply mapped_check. vm_compute. done.
  - by apply demo_apart.
  - by exists s1, s2, ds'.
Defined.
