(* ===== verification/PbufSpec.v ===== *)
(** * Allocation and release of packet buffers

    Every pbuf lies in memory that its allocator has given out ([net_rep]): a block
    of the heap, an element of the pool of references or one of the pool of
    buffers.  [pbuf_alloc] makes a fresh packet or changes nothing, [pbuf_free]
    gives back exactly the pbufs at the head of a chain that lose their last
    reference. *)

From S2P Require Import Prelude Mem MemSpec LwipMem LwipMemSpec LwipMemp LwipMempSpec Pbuf PbufData.

(** ** Ownership *)

Definition PBUF_ELEM : Z := 16.
Definition POOL_ELEM : Z := 16 + 1516.

(** What the linker and memp_std.h fix: the two pools of pbufs, apart from the heap. *)
Record net_layout (s : lwip) (d1 d2 : memp_desc) : Prop := {
  nl_pbuf : memp_pools (lw_memp s) !! Z.to_nat MEMP_PBUF = Some d1;
  nl_pool : memp_pools (lw_memp s) !! Z.to_nat MEMP_PBUF_POOL = Some d2;
  nl_sizes : desc_size d1 = PBUF_ELEM /\ desc_size d2 = POOL_ELEM;
  nl_apart : forall e, e ∈ elems d1 \/ e ∈ elems d2 -> e < ram (lw_heap s) \/ ram_end (lw_heap s) <= e;
  nl_aligned : forall e, e ∈ elems d2 -> e mod 4 = 0
}.

Definition is_custom (b : pbuf) : bool := negb (Z.land (flags b) PBUF_FLAG_IS_CUSTOM =? 0).

(** The payload lies behind the structure and inside the block of [n] bytes. *)
Definition in_block (p n : Z) (b : pbuf) : Prop :=
  p + 16 <= payload b /\ 0 <= len b /\ payload b + len b <= p + n.

(** Where a pbuf lies, given the blocks in use and the free elements. *)
Definition placed (d1 d2 : memp_desc) (U : list (Z * Z)) (F1 F2 : list Z) (h : lwip_heap) (p : Z) (b : pbuf) : Prop :=
  if is_custom b then
    (p ∉ elems d1) /\ (p ∉ elems d2) /\ (p < ram h \/ ram_end h <= p)
  else
    (pbuf_get_allocsrc b = PBUF_TYPE_ALLOC_SRC_MASK_STD_HEAP /\ exists n, (p, n) ∈ U /\ in_block p n b) \/
    (pbuf_get_allocsrc b = PBUF_TYPE_ALLOC_SRC_MASK_STD_MEMP_PBUF /\ p ∈ elems d1 /\ (p ∉ F1)) \/
    (pbuf_get_allocsrc b = PBUF_TYPE_ALLOC_SRC_MASK_STD_MEMP_PBUF_POOL /\ p ∈ elems d2 /\ (p ∉ F2) /\ in_block p POOL_ELEM b).

Record net_rep (s : lwip) (d1 d2 : memp_desc) (U : list (Z * Z)) (F1 F2 : list Z) : Prop := {
  nr_layout : net_layout s d1 d2;
  nr_heap : exists bs, lheap_rep (lw_heap s) bs /\ U = used_at (ram (lw_heap s)) bs;
  nr_memp : exists frs, memp_rep (lw_memp s) frs /\
    frs !! Z.to_nat MEMP_PBUF = Some F1 /\ frs !! Z.to_nat MEMP_PBUF_POOL = Some F2;
  nr_placed : forall p b, pbufs s !! p = Some b -> placed d1 d2 U F1 F2 (lw_heap s) p b
}.

(** The blocks in use have different addresses. *)
Lemma live_above h us : forall a z q m, live_ok h ((a, z) :: us) -> (q, m) ∈ us -> a < q.
Proof.
  induction us as [|[a' z'] us IH]; intros a z q m [Hf Hs] Hin; [by apply elem_of_nil in Hin|].
  apply Forall_cons in Hf as [(_ & _ & Hz & _) Hf]. apply Sorted_inv in Hs as [Hs Hhd%HdRel_inv]. cbn [fst snd] in *.
  change SIZEOF_STRUCT_MEM with 8 in Hhd. apply elem_of_cons in Hin as [[= -> ->]|Hin]; [lia|].
  specialize (IH a' z' q m (conj Hf Hs) Hin). lia.
Qed.

Lemma live_nodup h us : live_ok h us -> NoDup us.*1.
Proof.
  induction us as [|[a z] us IH]; intros Hl; [constructor|]. rewrite fmap_cons. constructor.
  - intros Hin. apply list_elem_of_fmap in Hin as ([q m] & E & Hin). simpl in E. subst a.
    pose proof (live_above _ _ _ _ _ _ Hl Hin). lia.
  - apply IH. destruct Hl as [[_ Hf]%Forall_cons [Hs _]%Sorted_inv]. by split.
Qed.

(** An address of the heap is no element of a pool. *)
Lemma live_no_elem s d1 d2 us p n :
  net_layout s d1 d2 -> live_ok (lw_heap s) us -> (p, n) ∈ us -> (p ∉ elems d1) /\ (p ∉ elems d2).
Proof.
  intros HL [Hf _] Hin. rewrite Forall_forall in Hf. specialize (Hf _ Hin) as (_ & H1 & H2 & H3). simpl in *.
  change SIZEOF_STRUCT_MEM with 8 in H1. split; intros He; destruct (nl_apart _ _ _ HL p); try lia; auto.
Qed.

Lemma elems_apart s d1 d2 frs e :
  net_layout s d1 d2 -> memp_rep (lw_memp s) frs -> e ∈ elems d1 -> e ∉ elems d2.
Proof.
  intros HL [Hok _] H1 H2.
  assert (E : Z.to_nat MEMP_PBUF = Z.to_nat MEMP_PBUF_POOL); [|done].
  eapply (concat_disjoint (map elems (memp_pools (lw_memp s)))); [apply Hok | | | exact H1 | exact H2];
    rewrite list_lookup_fmap; [by rewrite (nl_pbuf _ _ _ HL) | by rewrite (nl_pool _ _ _ HL)].
Qed.

(** ** Release of one pbuf *)

Definition source (b : pbuf) : Z := pbuf_get_allocsrc b.

(** The addresses of the pbufs that came from an allocator. *)
Definition from_source (src : Z) (cs : list cell) : list Z := (filter (fun c => source c.2 = src) cs).*1.

(** The allocators after the pbufs [cs] were given back in this order. *)
Definition given_back (cs : list cell) (U : list (Z * Z)) (F1 F2 : list Z) (U' : list (Z * Z)) (F1' F2' : list Z) : Prop :=
  (exists bs, U ≡ₚ bs ++ U' /\ bs.*1 = from_source PBUF_TYPE_ALLOC_SRC_MASK_STD_HEAP cs) /\
  F1' = reverse (from_source PBUF_TYPE_ALLOC_SRC_MASK_STD_MEMP_PBUF cs) ++ F1 /\
  F2' = reverse (from_source PBUF_TYPE_ALLOC_SRC_MASK_STD_MEMP_PBUF_POOL cs) ++ F2.

Lemma from_source_one src p b : from_source src [(p, b)] = if decide (source b = src) then [p] else [].
Proof. unfold from_source. case_decide; [by rewrite filter_cons_True | by rewrite filter_cons_False]. Qed.

Lemma given_back_one p b n U F1 F2 U' F1' F2' :
  (source b = PBUF_TYPE_ALLOC_SRC_MASK_STD_HEAP /\ U ≡ₚ (p, n) :: U' /\ F1' = F1 /\ F2' = F2) \/
  (source b = PBUF_TYPE_ALLOC_SRC_MASK_STD_MEMP_PBUF /\ U' = U /\ F1' = p :: F1 /\ F2' = F2) \/
  (source b = PBUF_TYPE_ALLOC_SRC_MASK_STD_MEMP_PBUF_POOL /\ U' = U /\ F1' = F1 /\ F2' = p :: F2) ->
  given_back [(p, b)] U F1 F2 U' F1' F2'.
Proof.
  unfold given_back. rewrite !from_source_one.
  intros [(E & HU & -> & ->)|[(E & -> & -> & ->)|(E & -> & -> & ->)]]; rewrite E;
    (split; [|done]); [exists [(p, n)] | exists [] ..]; done.
Qed.

Lemma given_back_nil U F1 F2 : given_back [] U F1 F2 U F1 F2.
Proof. split_and!; [|done|done]. by exists []. Qed.

Lemma from_source_app src cs1 cs2 : from_source src (cs1 ++ cs2) = from_source src cs1 ++ from_source src cs2.
Proof. unfold from_source. by rewrite filter_app, fmap_app. Qed.

Lemma given_back_app cs1 cs2 U F1 F2 U1 G1 G2 U2 H1 H2 :
  given_back cs1 U F1 F2 U1 G1 G2 -> given_back cs2 U1 G1 G2 U2 H1 H2 -> given_back (cs1 ++ cs2) U F1 F2 U2 H1 H2.
Proof.
  intros ((bs1 & E1 & N1) & -> & ->) ((bs2 & E2 & N2) & -> & ->). split_and!.
  - exists (bs1 ++ bs2). rewrite fmap_app, N1, N2, from_source_app. split; [|done]. by rewrite E1, E2, <- app_assoc.
  - by rewrite from_source_app, reverse_app, <- app_assoc.
  - by rewrite from_source_app, reverse_app, <- app_assoc.
Qed.

(** The kernel of a state the pbufs do not depend on. *)
Definition same_memory (s s' : lwip) : Prop :=
  bytes s' = bytes s /\ custom_free_function s' = custom_free_function s.

Lemma on_heap_run {A} (m : prog lwip_heap A) s a h : m (lw_heap s) = Done (a, h) -> on_heap m s = Done (a, set_lw_heap h s).
Proof. intros H. unfold on_heap. by apply zoom_done. Qed.
Lemma on_memp_run {A} (m : prog memp_state A) s a h : m (lw_memp s) = Done (a, h) -> on_memp m s = Done (a, set_lw_memp h s).
Proof. intros H. unfold on_memp. by apply zoom_done. Qed.

Section release.
Context (call_free : Z -> Z -> prog lwip unit).

(** Pbufs other than [p] stay where they are when [p] is given back. *)
Lemma placed_frame d1 d2 U F1 F2 h U' F1' F2' h' p p' b' :
  placed d1 d2 U F1 F2 h p' b' -> p' <> p -> ram h' = ram h -> ram_end h' = ram_end h ->
  (forall n, (p', n) ∈ U -> (p', n) ∈ U') -> (forall e, e ∈ F1' -> e = p \/ e ∈ F1) -> (forall e, e ∈ F2' -> e = p \/ e ∈ F2) ->
  placed d1 d2 U' F1' F2' h' p' b'.
Proof.
  intros Hp Hne Hr Hr' HU H1 H2. unfold placed in *. rewrite Hr, Hr'. destruct (is_custom b'); [done|].
  destruct Hp as [(E & n & Hn & Hb)|[(E & He & Hf)|(E & He & Hf & Hb)]].
  - left. split; [done|]. exists n. auto.
  - right; left. split_and!; try done. intros H. apply H1 in H as [?|?]; done.
  - right; right. split_and!; try done. intros H. apply H2 in H as [?|?]; done.
Qed.

Lemma net_layout_ext s s' d1 d2 :
  net_layout s d1 d2 -> same_ram (lw_heap s) (lw_heap s') -> memp_pools (lw_memp s') = memp_pools (lw_memp s) -> net_layout s' d1 d2.
Proof. intros [L1 L2 L3 L4 L5] [R1 R2] E. split; rewrite ?E, ?R1, ?R2; done. Qed.

(** Giving an element back to one of the two pools. *)
Lemma memp_give s d1 d2 U F1 F2 ty p :
  net_rep s d1 d2 U F1 F2 -> 0 < p ->
  (ty = MEMP_PBUF /\ p ∈ elems d1 /\ (p ∉ F1)) \/ (ty = MEMP_PBUF_POOL /\ p ∈ elems d2 /\ (p ∉ F2)) ->
  exists m frs, memp_free ty p (lw_memp s) = Done (tt, m) /\ memp_rep m frs /\ memp_pools m = memp_pools (lw_memp s) /\
    frs !! Z.to_nat MEMP_PBUF = Some (if ty =? MEMP_PBUF then p :: F1 else F1) /\
    frs !! Z.to_nat MEMP_PBUF_POOL = Some (if ty =? MEMP_PBUF then F2 else p :: F2).
Proof.
  intros HR Hp Hty. destruct (nr_memp _ _ _ _ _ _ HR) as (frs & Hrep & H1 & H2). pose proof (nr_layout _ _ _ _ _ _ HR) as HL.
  destruct (memp_do_run (lw_memp s) frs (Put ty p) Hrep) as (m & Hrun & Hrep' & Hpo).
  { destruct Hty as [(-> & He & Hn)|(-> & He & Hn)]; (split; [done|]); right; intros d es Hd Hes;
      rewrite ?(nl_pbuf _ _ _ HL), ?(nl_pool _ _ _ HL), ?H1, ?H2 in *; by simplify_eq. }
  apply bind_done_inv in Hrun as ([] & m' & Hrun & [= _ ->]). simpl in Hrep'. destruct (Z.eqb_spec p 0); [lia|].
  destruct Hty as [(-> & He & Hn)|(-> & He & Hn)]; rewrite ?H1, ?H2 in Hrep'; simpl in Hrep'; eexists m, _; split_and!; try done; simpl.
  - rewrite list_lookup_insert_eq; [done|]. by apply lookup_lt_Some in H1.
  - by rewrite list_lookup_insert_ne.
  - by rewrite list_lookup_insert_ne.
  - rewrite list_lookup_insert_eq; [done|]. by apply lookup_lt_Some in H2.
Qed.

Lemma elem_range s frs i d e : memp_rep (lw_memp s) frs -> memp_pools (lw_memp s) !! i = Some d -> e ∈ elems d -> 0 < e < 2 ^ 32.
Proof.
  intros [Hok _] Hd He. pose proof (po_range _ Hok) as Hr. rewrite Forall_lookup in Hr. destruct (Hr _ _ Hd) as [Hsz Hr'].
  destruct (proj1 (Forall_forall _ _) Hr' e He). lia.
Qed.

Lemma release_pbuf_run s d1 d2 U F1 F2 p b :
  net_rep s d1 d2 U F1 F2 -> pbufs s !! p = Some b -> is_custom b = false ->
  exists s' U' F1' F2', release_pbuf call_free p b s = Done (tt, s') /\ net_rep s' d1 d2 U' F1' F2' /\
    pbufs s' = delete p (pbufs s) /\ same_memory s s' /\ given_back [(p, b)] U F1 F2 U' F1' F2'.
Proof.
  intros HR Hb Hc. pose proof HR as [HL (bs & Hheap & HU) (frs & Hmemp & HF1 & HF2) Hpl].
  pose proof (Hpl _ _ Hb) as Hpb. unfold placed in Hpb. rewrite Hc in Hpb. unfold release_pbuf, is_custom in *. rewrite Hc.
  destruct Hpb as [(E & n & Hn & _)|[(E & He & Hf)|(E & He & Hf & _)]]; rewrite E; cbn [Z.eqb PBUF_TYPE_ALLOC_SRC_MASK_STD_HEAP
    PBUF_TYPE_ALLOC_SRC_MASK_STD_MEMP_PBUF PBUF_TYPE_ALLOC_SRC_MASK_STD_MEMP_PBUF_POOL Pos.eqb].
  - rewrite HU in Hn. destruct (lheap_free _ _ _ _ Hheap Hn) as (h' & bs' & Hrun & Hrep' & Hsr & Hperm).
    run_by ltac:(apply on_heap_run; exact Hrun). eexists _, (used_at (ram (lw_heap s)) bs'), F1, F2. split; [done|]. split_and!; try done.
    + split; [by eapply net_layout_ext | | by exists frs |]; simpl.
      * exists bs'. split; [done|]. by destruct Hsr as [-> _].
      * intros p' b' Hb'. apply lookup_delete_Some in Hb' as [Hne Hb']. destruct Hsr as [R1 R2].
        eapply placed_frame; [by apply Hpl | by apply not_eq_sym | done | done | | by auto | by auto].
        intros n' Hn'. rewrite HU, Hperm in Hn'. apply elem_of_cons in Hn' as [[= <- _]|Hn']; done.
    + apply (given_back_one _ _ n). left. rewrite HU. done.
  - pose proof (elem_range _ _ _ _ _ Hmemp (nl_pbuf _ _ _ HL) He) as Hr.
    destruct (memp_give s d1 d2 U F1 F2 MEMP_PBUF p HR) as (m & frs' & Hrun & Hrep' & Hpo & G1 & G2); [lia | by left|].
    run_by ltac:(apply on_memp_run; exact Hrun). eexists _, U, (p :: F1), F2. split; [done|]. split_and!; try done.
    + split; [by eapply net_layout_ext | by exists bs | by exists frs' |]; simpl.
      intros p' b' Hb'. apply lookup_delete_Some in Hb' as [Hne Hb'].
      eapply placed_frame; [by apply Hpl | by apply not_eq_sym | done | done | done | by intros e [->|?]%elem_of_cons; auto | by auto].
    + apply (given_back_one _ _ 0). right; left. done.
  - pose proof (elem_range _ _ _ _ _ Hmemp (nl_pool _ _ _ HL) He) as Hr.
    destruct (memp_give s d1 d2 U F1 F2 MEMP_PBUF_POOL p HR) as (m & frs' & Hrun & Hrep' & Hpo & G1 & G2); [lia | by right|].
    run_by ltac:(apply on_memp_run; exact Hrun). eexists _, U, F1, (p :: F2). split; [done|]. split_and!; try done.
    + split; [by eapply net_layout_ext | by exists bs | by exists frs' |]; simpl.
      intros p' b' Hb'. apply lookup_delete_Some in Hb' as [Hne Hb'].
      eapply placed_frame; [by apply Hpl | by apply not_eq_sym | done | done | done | by auto | by intros e [->|?]%elem_of_cons; auto].
    + apply (given_back_one _ _ 0). right; right. done.
Qed.

(** ** Release of a chain *)

(** The pbufs at the head of the chain that lose their last reference. *)
Fixpoint dying (cs : list cell) : list cell :=
  match cs with
  | [] => []
  | c :: cs' => if ref c.2 =? 1 then c :: dying cs' else []
  end.

(** The pbufs after the release: the first that survives loses one reference. *)
Fixpoint free_map (P : gmap Z pbuf) (cs : list cell) : gmap Z pbuf :=
  match cs with
  | [] => P
  | (q, b) :: cs' => if ref b =? 1 then free_map (delete q P) cs' else <[q := set_ref (ref b - 1) b]> P
  end.

Definition refs_ok (cs : list cell) : Prop := Forall (fun c => 1 <= ref c.2 < 2 ^ 8 /\ is_custom c.2 = false) cs.

Lemma pchain_frame P P' p cs : chain_at P p cs -> (forall q b, (q, b) ∈ cs -> P' !! q = Some b) -> chain_at P' p cs.
Proof.
  revert p. induction cs as [|[q b] cs IH]; intros p; simpl; [done|]. intros (-> & Hq & HP & Hc) HP'.
  split_and!; [done | done | apply HP'; left | apply IH; [done|]]. intros q' b' Hin. apply HP'. by right.
Qed.

Lemma chain_tail_delete P q b cs : chain_at P q ((q, b) :: cs) -> chain_at (delete q P) (p_next b) cs.
Proof.
  intros Hc. pose proof (chain_nodup _ _ _ Hc) as Hnd. simpl in Hnd. apply NoDup_cons in Hnd as [Hni _].
  destruct Hc as (_ & _ & _ & Hc). eapply pchain_frame; [done|]. intros q' b' Hin. rewrite lookup_delete_ne.
  - by eapply chain_lookup.
  - intros ->. apply Hni. by apply (list_elem_of_fmap_2 fst) in Hin.
Qed.

(** A change of a pbuf that keeps its place. *)
Definition same_place (b b' : pbuf) : Prop :=
  payload b' = payload b /\ (len b' = len b \/ 0 <= len b' <= len b) /\ type_internal b' = type_internal b /\ flags b' = flags b.

Lemma net_rep_put s d1 d2 U F1 F2 p b b' :
  net_rep s d1 d2 U F1 F2 -> pbufs s !! p = Some b -> same_place b b' -> net_rep (put_pbuf p b' s) d1 d2 U F1 F2.
Proof.
  intros [HL HH HM HP] Hb (E1 & E2 & E3 & E4). split; try done; [by eapply net_layout_ext|]. simpl. intros p' c Hc.
  apply lookup_insert_Some in Hc as [[<- <-]|[_ Hc]]; [|by apply HP]. specialize (HP _ _ Hb).
  unfold placed, is_custom, pbuf_get_allocsrc in *. rewrite E3, E4.
  assert (Hin : forall n, in_block p n b -> in_block p n b') by (unfold in_block; rewrite E1; lia).
  destruct (negb (Z.land (flags b) PBUF_FLAG_IS_CUSTOM =? 0)); [done|].
  destruct HP as [(E & n & Hn & H)|[H|(E & He & Hf & H)]]; [left; eauto | by right; left | right; right; split_and!; auto].
Qed.

Lemma upd_pbuf_run s p f b : pbufs s !! p = Some b -> upd_pbuf p f s = Done (tt, put_pbuf p (f b) s).
Proof. intros H. unfold upd_pbuf. by run_with (pbuf_at_run _ _ _ H). Qed.

Lemma u8_add x y : u8 (u8 x + y) = u8 (x + y).
Proof. unfold u8. by rewrite Zplus_mod_idemp_l. Qed.

Lemma free_loop_run d1 d2 : forall cs fuel s p count U F1 F2,
  net_rep s d1 d2 U F1 F2 -> chain_at (pbufs s) p cs -> refs_ok cs -> (length cs < fuel)%nat -> 0 <= count < 2 ^ 8 ->
  exists s' U' F1' F2', free_loop call_free fuel p count s = Done (u8 (count + size_of (dying cs)), s') /\
    net_rep s' d1 d2 U' F1' F2' /\ pbufs s' = free_map (pbufs s) cs /\ same_memory s s' /\
    given_back (dying cs) U F1 F2 U' F1' F2'.
Proof.
  induction cs as [|[q b] cs IH]; intros [|fuel] s p count U F1 F2 HR Hc Hr Hf Hn; try (simpl in Hf; lia); cbn [free_loop].
  - simpl in Hc. subst p. rewrite Z.eqb_refl. exists s, U, F1, F2. split_and!; try done; [|apply given_back_nil].
    simpl. unfold size_of. simpl. by rewrite Z.add_0_r, u8_small.
  - pose proof Hc as (-> & Hq & HP & _). apply Forall_cons in Hr as [[Hr1 Hcu] Hr]. simpl in Hr1, Hcu.
    destruct (Z.eqb_spec q 0); [done|]. cbn [negb]. run_by ltac:(apply upd_pbuf_run; exact HP).
    rewrite (u8_small (ref b - 1)) by lia. set (b' := set_ref (ref b - 1) b). set (s1 := put_pbuf q b' s).
    assert (HP1 : pbufs s1 !! q = Some b') by (simpl; apply lookup_insert_eq). run_with (pbuf_at_run _ _ _ HP1).
    assert (HR1 : net_rep s1 d1 d2 U F1 F2) by (eapply net_rep_put; [done.. | split_and!; auto]). cbn [dying free_map snd]. cbn [ref b' set_ref].
    destruct (Z.eqb_spec (ref b - 1) 0) as [E0|E0], (Z.eqb_spec (ref b) 1) as [E1|E1]; try lia.
    + destruct (release_pbuf_run s1 d1 d2 U F1 F2 q b' HR1 HP1 Hcu) as (s2 & U2 & G1 & G2 & Hrun2 & HR2 & HP2 & [Hm2 Hm2'] & Hg2).
      run_with Hrun2. destruct (IH fuel s2 (p_next b) (u8 (count + 1)) U2 G1 G2) as (s' & U' & F1' & F2' & Hrun & HR' & HP' & [Hm Hm'] & Hg); try done.
      * rewrite HP2. simpl. rewrite delete_insert_eq. by apply chain_tail_delete.
      * simpl in Hf. lia.
      * apply u8_range.
      * exists s', U', F1', F2'. split_and!; [| done | | split; [by rewrite Hm, Hm2 | by rewrite Hm', Hm2'] |].
        -- cbn [b' set_ref p_next]. rewrite Hrun. rewrite u8_add. do 3 f_equal. unfold size_of. simpl. lia.
        -- rewrite HP', HP2. simpl. by rewrite delete_insert_eq.
        -- apply (given_back_app [(q, b)] (dying cs) _ _ _ U2 G1 G2); [|exact Hg].
           unfold given_back in Hg2 |- *. rewrite !from_source_one in Hg2 |- *. exact Hg2.
    + exists s1, U, F1, F2. split_and!; try done; [|apply given_back_nil]. unfold size_of. simpl. by rewrite Z.add_0_r, u8_small.
Qed.

Lemma pbuf_free_run s d1 d2 U F1 F2 p cs :
  net_rep s d1 d2 U F1 F2 -> chain_at (pbufs s) p cs -> refs_ok cs ->
  exists s' U' F1' F2', pbuf_free call_free p s = Done (u8 (size_of (dying cs)), s') /\
    net_rep s' d1 d2 U' F1' F2' /\ pbufs s' = free_map (pbufs s) cs /\ same_memory s s' /\
    given_back (dying cs) U F1 F2 U' F1' F2'.
Proof.
  intros HR Hc Hr. unfold pbuf_free. destruct cs as [|[q b] cs].
  - simpl in Hc. subst p. simpl. exists s, U, F1, F2. split_and!; try done. apply given_back_nil.
  - pose proof Hc as (-> & Hq & _). destruct (Z.eqb_spec q 0); [done|]. kstep.
    destruct (free_loop_run d1 d2 _ (chain_fuel s) s q 0 U F1 F2 HR Hc Hr) as (s' & U' & F1' & F2' & Hrun & H);
      [by eapply chain_fuel_enough | lia|]. exists s', U', F1', F2'. by split.
Qed.
End release.

(** ** Taking memory *)

(** An element a pool can still give out is no pbuf. *)
Lemma pool_fresh s d1 d2 U F1 F2 e :
  net_rep s d1 d2 U F1 F2 -> (e ∈ elems d1 /\ e ∈ F1) \/ (e ∈ elems d2 /\ e ∈ F2) -> pbufs s !! e = None.
Proof.
  intros [HL (bs & Hheap & HU) (frs & Hmemp & _) Hpl] He. destruct (pbufs s !! e) as [b|] eqn:Hb; [|done]. exfalso.
  specialize (Hpl _ _ Hb). unfold placed in Hpl. pose proof (live_ok_rep _ _ Hheap) as Hlive. rewrite <- HU in Hlive.
  pose proof (elems_apart _ _ _ _ e HL Hmemp) as Hap. destruct (is_custom b); [naive_solver|].
  destruct Hpl as [(_ & n & Hn & _)|[(_ & H1 & H2)|(_ & H1 & H2 & _)]]; [|naive_solver..].
  destruct (live_no_elem _ _ _ _ _ _ HL Hlive Hn). naive_solver.
Qed.

(** Taking an element of one of the two pools. *)
Lemma memp_take s d1 d2 U F1 F2 ty :
  net_rep s d1 d2 U F1 F2 -> ty = MEMP_PBUF \/ ty = MEMP_PBUF_POOL ->
  let F := if ty =? MEMP_PBUF then F1 else F2 in
  exists m frs, memp_malloc ty (lw_memp s) = Done (hd 0 F, m) /\ memp_rep m frs /\ memp_pools m = memp_pools (lw_memp s) /\
    (F = [] -> m = lw_memp s) /\
    frs !! Z.to_nat MEMP_PBUF = Some (if ty =? MEMP_PBUF then tail F1 else F1) /\
    frs !! Z.to_nat MEMP_PBUF_POOL = Some (if ty =? MEMP_PBUF then F2 else tail F2).
Proof.
  intros HR Hty F. destruct (nr_memp _ _ _ _ _ _ HR) as (frs & Hrep & H1 & H2). pose proof (nr_layout _ _ _ _ _ _ HR) as HL.
  destruct (memp_do_run (lw_memp s) frs (Take ty) Hrep) as (m & Hrun & Hrep' & Hpo); [by destruct Hty as [-> | ->]|].
  simpl in Hrun, Hrep'.
  assert (HF : exists i d, Z.to_nat ty = i /\ memp_pools (lw_memp s) !! i = Some d /\ frs !! i = Some F).
  { destruct Hty as [-> | ->]; eexists _, _; split_and!; [done | apply HL | done | done | apply HL | done]. }
  destruct HF as (i & d & Hi & Hd & HF). rewrite Hi, HF in Hrun, Hrep'. simpl in Hrun, Hrep'. eexists m, _.
  split_and!; [exact Hrun | exact Hrep' | done | | |].
  - intros E. rewrite E in HF, Hrun. destruct Hrep as [_ Hrep]. destruct (Forall2_lookup_lr _ _ _ _ _ _ Hrep Hd HF) as ((t & Ht & Hl) & _).
    simpl in Hl. subst t. unfold memp_malloc, MEMP_MAX in Hrun. rewrite bind_gets in Hrun. unfold id in Hrun.
    destruct (Z.ltb_spec ty (Z.of_nat (length (memp_pools (lw_memp s))))); [|by injection Hrun].
    rewrite Hi in Hrun. rewrite (bind_done _ _ _ _ _ (deref_some (fun s => memp_pools s !! i) _ _ Hd)) in Hrun. unfold do_memp_malloc_pool in Hrun.
    rewrite (bind_done _ _ _ _ _ (deref_some (fun s => tabs s !! tab d) _ _ Ht)) in Hrun. by injection Hrun.
  - destruct Hty as [-> | ->]; subst i; simpl; [rewrite list_lookup_insert_eq; [done | by apply lookup_lt_Some in H1] | by rewrite list_lookup_insert_ne].
  - destruct Hty as [-> | ->]; subst i; simpl; [by rewrite list_lookup_insert_ne | rewrite list_lookup_insert_eq; [done | by apply lookup_lt_Some in H2]].
Qed.

Lemma pool_free_nodup s d1 d2 U F1 F2 :
  net_rep s d1 d2 U F1 F2 -> (NoDup F1 /\ F1 ⊆ elems d1) /\ (NoDup F2 /\ F2 ⊆ elems d2).
Proof.
  intros [HL _ (frs & [_ Hrep] & H1 & H2) _]. split.
  - destruct (Forall2_lookup_lr _ _ _ _ _ _ Hrep (nl_pbuf _ _ _ HL) H1) as (_ & ?). done.
  - destruct (Forall2_lookup_lr _ _ _ _ _ _ Hrep (nl_pool _ _ _ HL) H2) as (_ & ?). done.
Qed.

(** A new pbuf in memory that was just given out. *)
Lemma net_rep_add s s1 d1 d2 U F1 F2 U' F1' F2' p b :
  net_rep s d1 d2 U F1 F2 -> pbufs s1 = pbufs s -> same_ram (lw_heap s) (lw_heap s1) ->
  memp_pools (lw_memp s1) = memp_pools (lw_memp s) ->
  (exists bs, lheap_rep (lw_heap s1) bs /\ U' = used_at (ram (lw_heap s1)) bs) ->
  (exists frs, memp_rep (lw_memp s1) frs /\ frs !! Z.to_nat MEMP_PBUF = Some F1' /\ frs !! Z.to_nat MEMP_PBUF_POOL = Some F2') ->
  U ⊆ U' -> F1' ⊆ F1 -> F2' ⊆ F2 -> placed d1 d2 U' F1' F2' (lw_heap s1) p b ->
  net_rep (put_pbuf p b s1) d1 d2 U' F1' F2'.
Proof.
  intros [HL _ _ HP] Hpb Hsr Hpo Hheap Hmemp HU H1 H2 Hp. split; try done; [by eapply net_layout_ext|]. simpl.
  intros q c Hc. apply lookup_insert_Some in Hc as [[<- <-]|[_ Hc]]; [done|]. rewrite Hpb in Hc. specialize (HP _ _ Hc).
  destruct Hsr as [R1 R2]. unfold placed in *. rewrite R1, R2. destruct (is_custom c); [done|].
  destruct HP as [(E & n & Hn & Hb)|[(E & He & Hf)|(E & He & Hf & Hb)]].
  - left. split; [done|]. exists n. auto.
  - right; left. split_and!; auto.
  - right; right. split_and!; auto.
Qed.

(** ** Pool buffers *)

(** The pbufs of a pool chain as [pbuf_alloc] makes them. *)
Definition pool_cell (c : cell) : Prop :=
  type_internal c.2 = u8 PBUF_POOL /\ flags c.2 = 0 /\ ref c.2 = 1 /\ if_idx c.2 = NETIF_NO_INDEX /\ payload c.2 mod 4 = 0.

Lemma pool_cell_source c : pool_cell c -> source c.2 = PBUF_TYPE_ALLOC_SRC_MASK_STD_MEMP_PBUF_POOL /\ is_custom c.2 = false.
Proof. intros (E & Ef & _). unfold source, pbuf_get_allocsrc, is_custom. rewrite E, Ef. done. Qed.

(** The lengths of the pbufs for [rem] bytes, the first with room for [cap]. *)
Fixpoint cuts (fuel : nat) (rem cap : Z) : list Z :=
  match fuel with
  | O => []
  | S fuel' =>
      let q := Z.min rem cap in
      q :: (if rem - q >? 0 then cuts fuel' (rem - q) 1516 else [])
  end.

(** [tot_len] while [rem] bytes are still to be allocated behind the chain. *)
Fixpoint lens_plus (rem : Z) (cs : list cell) : Prop :=
  match cs with
  | [] => True
  | (_, b) :: cs' => 0 <= len b /\ tot_len b = len b + total cs' + rem /\ tot_len b < 2 ^ 16 /\ lens_plus rem cs'
  end.

Lemma lens_plus_snoc rem x cs q b :
  0 <= x -> lens_plus rem cs -> len b = x -> tot_len b = rem -> rem < 2 ^ 16 -> lens_plus (rem - x) (cs ++ [(q, b)]).
Proof.
  intros Hx Hl El Et Hr. induction cs as [|[q' b'] cs IH]; simpl in *; [split_and!; [lia.. | done]|].
  destruct Hl as (H1 & H2 & H3 & H4). split_and!; [lia | | lia | by apply IH]. rewrite total_app. simpl. lia.
Qed.

Lemma lens_plus_0 cs : lens_plus 0 cs -> lens_ok cs.
Proof. induction cs as [|[q b] cs IH]; simpl; [done|]. intros (H1 & H2 & H3 & H4). split_and!; [lia.. | auto]. Qed.

Lemma lens_plus_link rem cs l b x : lens_plus rem (cs ++ [(l, b)]) -> lens_plus rem (cs ++ [(l, set_p_next x b)]).
Proof.
  induction cs as [|[q' b'] cs IH]; simpl; [done|]. rewrite !total_app. simpl. intros (H1 & H2 & H3 & H4). split_and!; auto.
Qed.

(** The chain is extended at its end. *)
Lemma chain_snoc P p cs l b q nb :
  chain_at P p (cs ++ [(l, b)]) -> P !! q = None -> q <> 0 -> p_next nb = 0 ->
  chain_at (<[l := set_p_next q b]> (<[q := nb]> P)) p (cs ++ [(l, set_p_next q b); (q, nb)]).
Proof.
  intros Hc Hq Hq0 Hn. pose proof (chain_nodup _ _ _ Hc) as Hnd. rewrite fmap_app in Hnd. simpl in Hnd.
  revert p Hc. induction cs as [|[q' b'] cs IH]; intros p; simpl.
  - intros (-> & Hl & HP & Hnx). assert (l <> q) by congruence. split_and!; try done.
    + by rewrite lookup_insert_eq.
    + by rewrite lookup_insert_ne, lookup_insert_eq.
  - intros (-> & Hq' & HP & Hc). simpl in Hnd. apply NoDup_cons in Hnd as [Hni Hnd].
    split_and!; try done; [|by apply IH]. rewrite !lookup_insert_ne; [done | congruence |].
    intros ->. apply Hni. apply elem_of_app. right. left.
Qed.

(** A chain under construction: what was taken from the pool, in order. *)
Record building (s0 s : lwip) (d1 d2 : memp_desc) (U : list (Z * Z)) (F1 F F2 : list Z) (cs : list cell) (rem : Z) : Prop := {
  bl_rep : net_rep s d1 d2 U F1 F2;
  bl_free : F = cs.*1 ++ F2;
  bl_chain : chain_at (pbufs s) (head_addr cs) cs;
  bl_lens : lens_plus rem cs;
  bl_cells : Forall pool_cell cs;
  bl_old : forall x, x ∉ cs.*1 -> pbufs s !! x = pbufs s0 !! x;
  bl_new : forall x, x ∈ cs.*1 -> pbufs s0 !! x = None;
  bl_mem : same_memory s0 s /\ lw_heap s = lw_heap s0
}.

Definition end_cell (cs : list cell) : Z := match last cs with Some c => c.1 | None => 0 end.

Definition room (off : Z) : Z := 1516 - LWIP_MEM_ALIGN_SIZE off.

Definition new_cell (q rem off : Z) : pbuf :=
  mk_pbuf 0 (q + 16 + LWIP_MEM_ALIGN_SIZE off) rem (Z.min rem (room off)) (u8 PBUF_POOL) 0 1 NETIF_NO_INDEX.

(** The payload of a new pbuf at an aligned address. *)
Lemma payload_aligned q off : q mod 4 = 0 -> 0 < q -> 0 <= off <= 54 -> q + 16 + off + 4 < 2 ^ 32 ->
  LWIP_MEM_ALIGN (u32 (q + SIZEOF_STRUCT_PBUF + off)) = q + 16 + LWIP_MEM_ALIGN_SIZE off /\
  off <= LWIP_MEM_ALIGN_SIZE off <= 56 /\ (q + 16 + LWIP_MEM_ALIGN_SIZE off) mod 4 = 0.
Proof.
  intros Hq H0 Ho Hr. change SIZEOF_STRUCT_PBUF with 16. destruct (lwip_align_spec off) as [A1 A2]; [lia|].
  assert (A3 : LWIP_MEM_ALIGN_SIZE off <= 56).
  { apply Z.mod_divide in A2 as [k E]; [|done]. lia. }
  split_and!; [|lia..|].
  - unfold LWIP_MEM_ALIGN, LWIP_MEM_ALIGN_SIZE, MEM_ALIGNMENT in *. change (4 - 1) with 3 in *. rewrite (u32_small (q + 16 + off)) by lia.
    rewrite !u32_small by lia. rewrite !land_not3 by lia. apply Z.mod_divide in Hq as [k ->]; [|done].
    replace (k * 4 + 16 + off + 4 - 1) with (off + 4 - 1 + (k + 4) * 4) by lia. rewrite Z.div_add by done. lia.
  - apply Z.mod_divide in Hq as [k ->]; [|done]. apply Z.mod_divide in A2 as [j ->]; [|done].
    apply Z.mod_divide; [done|]. exists (k + 4 + j). lia.
Qed.

Lemma new_cell_placed d1 d2 U F1 F2 h q rem off :
  q ∈ elems d2 -> q ∉ F2 -> 0 <= rem -> 0 <= off <= LWIP_MEM_ALIGN_SIZE off -> LWIP_MEM_ALIGN_SIZE off <= 56 ->
  placed d1 d2 U F1 F2 h q (new_cell q rem off).
Proof.
  intros He Hf Hr Ho Ho'. unfold placed. change (is_custom (new_cell q rem off)) with false. right; right.
  split_and!; try done. unfold in_block, new_cell, room, POOL_ELEM. simpl. lia.
Qed.

Lemma end_cell_snoc cs c : end_cell (cs ++ [c]) = c.1.
Proof. unfold end_cell. by rewrite last_snoc. Qed.

(** The links of a chain for one more pbuf at its end. *)
Definition link_end (q : Z) (cs : list cell) : list cell :=
  match last cs with
  | Some (l, b) => removelast cs ++ [(l, set_p_next q b)]
  | None => []
  end.

Lemma link_end_snoc q cs l b : link_end q (cs ++ [(l, b)]) = cs ++ [(l, set_p_next q b)].
Proof. unfold link_end. by rewrite last_snoc, removelast_last. Qed.

Lemma building_step s0 s d1 d2 U F1 F F2 cs rem off q :
  building s0 s d1 d2 U F1 F (q :: F2) cs rem -> 0 <= rem < 2 ^ 16 -> 0 <= off <= 54 ->
  let nb := new_cell q rem off in let cs' := link_end q cs ++ [(q, nb)] in
  exists s1 s2, on_memp (memp_malloc MEMP_PBUF_POOL) s = Done (q, s1) /\ q <> 0 /\
    LWIP_MEM_ALIGN (u32 (q + SIZEOF_STRUCT_PBUF + off)) = payload nb /\
    (modify (put_pbuf q nb);; (if head_addr cs =? 0 then mret tt else upd_pbuf (end_cell cs) (set_p_next q))) s1 = Done (tt, s2) /\
    building s0 s2 d1 d2 U F1 F F2 cs' (rem - len nb).
Proof.
  intros [HR HF Hc Hl Hcells Hold Hnew [[Hm Hm'] Hh]] Hrem Hoff nb cs'. subst cs'. pose proof (nr_layout _ _ _ _ _ _ HR) as HL.
  destruct (memp_take s d1 d2 U F1 (q :: F2) MEMP_PBUF_POOL HR) as (m & frs & Hrun & Hrep & Hpo & _ & G1 & G2); [by right|].
  simpl in Hrun, G1, G2. destruct (pool_free_nodup _ _ _ _ _ _ HR) as (_ & [Hqn Hnd]%NoDup_cons & Hsub).
  assert (Hq : q ∈ elems d2) by (apply Hsub; left). pose proof (nr_memp _ _ _ _ _ _ HR) as (frs0 & Hrep0 & _).
  pose proof (elem_range _ _ _ _ _ Hrep0 (nl_pool _ _ _ HL) Hq) as Hqr.
  assert (Hqr' : q + POOL_ELEM < 2 ^ 32).
  { pose proof (po_range _ (proj1 Hrep0)) as Hr. rewrite Forall_lookup in Hr. destruct (Hr _ _ (nl_pool _ _ _ HL)) as [_ Hr'].
    destruct (proj1 (Forall_forall _ _) Hr' q Hq) as [_ H]. by rewrite (proj2 (nl_sizes _ _ _ HL)) in H. }
  unfold POOL_ELEM in Hqr'. destruct (payload_aligned q off (nl_aligned _ _ _ HL q Hq)) as (A1 & A2 & A3); [lia..|].
  assert (Hfresh : pbufs s !! q = None) by (eapply pool_fresh; [exact HR | right; split; [done | left]]).
  set (s1 := set_lw_memp m s).
  assert (HR1 : net_rep (put_pbuf q nb s1) d1 d2 U F1 F2).
  { apply (net_rep_add s s1 d1 d2 U F1 (q :: F2)); try done; [apply HR | by exists frs | set_solver |].
    apply new_cell_placed; [done | done | lia..]. }
  assert (Hcell : pool_cell (q, nb)) by (by split_and!).
  assert (Hlen : 0 <= len nb) by (unfold nb, new_cell, room; simpl; lia).
  assert (Hni : q ∉ cs.*1).
  { intros Hin. apply list_elem_of_fmap in Hin as ([q' b'] & -> & Hin). destruct (chain_lookup _ _ _ _ _ Hc Hin). simpl in *. congruence. }
  assert (Hq0 : pbufs s0 !! q = None) by (by rewrite <- Hold).
  exists s1. destruct cs as [|[l b] cs0 _] using rev_ind.
  - exists (put_pbuf q nb s1). split_and!; [by apply on_memp_run | lia | done | done |].
    split; simpl; try done.
    + split_and!; [done | lia | by rewrite lookup_insert_eq | done].
    + split_and!; [done | simpl; lia | simpl; lia | done].
    + by constructor.
    + intros x Hx. rewrite lookup_insert_ne by set_solver. by apply Hold, not_elem_of_nil.
    + intros x ->%list_elem_of_singleton. done.
  - rewrite end_cell_snoc. rewrite link_end_snoc in *. cbn [fst].
    assert (Hlb : pbufs s !! l = Some b /\ l <> 0) by (eapply chain_lookup; [exact Hc | apply elem_of_app; right; left]).
    assert (Hne : l <> q) by (intros ->; naive_solver).
    assert (Hhd : head_addr (cs0 ++ [(l, b)]) <> 0).
    { destruct cs0 as [|[q' b'] cs0]; simpl in *; naive_solver. }
    destruct (Z.eqb_spec (head_addr (cs0 ++ [(l, b)])) 0); [done|].
    assert (Hlb1 : pbufs (put_pbuf q nb s1) !! l = Some b) by (simpl; rewrite lookup_insert_ne by done; naive_solver).
    exists (put_pbuf l (set_p_next q b) (put_pbuf q nb s1)). split_and!; [by apply on_memp_run | lia | done | |].
    { kstep. by apply upd_pbuf_run. }
    rewrite <- app_assoc. cbn [app]. split; try done.
    + eapply net_rep_put; [done.. | split_and!; auto].
    + rewrite HF, !fmap_app. simpl. rewrite <- !app_assoc. done.
    + replace (head_addr _) with (head_addr (cs0 ++ [(l, b)])) by (by destruct cs0).
      apply chain_snoc; [done | done | lia | done].
    + replace (cs0 ++ [(l, set_p_next q b); (q, nb)]) with ((cs0 ++ [(l, set_p_next q b)]) ++ [(q, nb)]) by (by rewrite <- app_assoc).
      apply (lens_plus_snoc rem); [done | by apply lens_plus_link | done | done | lia].
    + apply Forall_app in Hcells as [H1 [H2 _]%Forall_cons]. apply Forall_app. split; [done|]. by apply Forall_cons; split; [|apply Forall_cons].
    + intros x Hx. rewrite fmap_app in Hx. simpl in *. rewrite !lookup_insert_ne by set_solver. apply Hold. rewrite fmap_app. simpl. set_solver.
    + intros x Hx. rewrite fmap_app in Hx. simpl in *.
      destruct (decide (x = q)) as [->|]; [done|]. apply Hnew. rewrite fmap_app. simpl. set_solver.
Qed.

(** The chain of pool buffers is given back as a whole. *)
Definition unshared (c : cell) : Prop := ref c.2 = 1 /\ is_custom c.2 = false.

Lemma pool_cells_unshared cs : Forall pool_cell cs -> Forall unshared cs.
Proof. intros H. eapply Forall_impl; [exact H|]. intros c Hc. split; [apply Hc | by apply pool_cell_source]. Qed.

Lemma unshared_refs cs : Forall unshared cs -> refs_ok cs.
Proof. intros H. eapply Forall_impl; [exact H|]. by intros c [-> ->]. Qed.

Lemma dying_all cs : Forall unshared cs -> dying cs = cs.
Proof.
  induction cs as [|[q b] cs IH]; simpl; [done|]. intros [[Hr _] Hc]%Forall_cons. simpl in Hr.
  rewrite Hr. simpl. by rewrite IH.
Qed.

Lemma free_map_all cs : forall P, Forall unshared cs ->
  forall x, free_map P cs !! x = if decide (x ∈ cs.*1) then None else P !! x.
Proof.
  induction cs as [|[q b] cs IH]; intros P; [done|]. intros [[Hr _] Hc]%Forall_cons x. simpl in Hr.
  cbn [free_map]. rewrite Hr, Z.eqb_refl, IH, fmap_cons by done. cbn [fst]. destruct (decide (x = q)) as [->|Hne].
  - rewrite lookup_delete_eq. rewrite (decide_True (P := q ∈ q :: cs.*1)) by left. by case_decide.
  - rewrite lookup_delete_ne by done. apply decide_ext. rewrite elem_of_cons. naive_solver.
Qed.

Lemma from_source_pool cs : Forall pool_cell cs ->
  from_source PBUF_TYPE_ALLOC_SRC_MASK_STD_HEAP cs = [] /\ from_source PBUF_TYPE_ALLOC_SRC_MASK_STD_MEMP_PBUF cs = [] /\
  from_source PBUF_TYPE_ALLOC_SRC_MASK_STD_MEMP_PBUF_POOL cs = cs.*1.
Proof.
  induction cs as [|c cs IH]; [done|]. intros [[Hs _]%pool_cell_source Hc]%Forall_cons. destruct (IH Hc) as (I1 & I2 & I3).
  unfold from_source in *. rewrite !(filter_cons_False _ c), filter_cons_True by (rewrite Hs; done).
  by rewrite fmap_cons, I1, I2, I3.
Qed.

Section alloc.
Context (call_free : Z -> Z -> prog lwip unit).

(** A chain that nobody shares is given back as a whole. *)
Lemma free_unshared s0 s d1 d2 U F1 F2 cs :
  net_rep s d1 d2 U F1 F2 -> chain_at (pbufs s) (head_addr cs) cs -> Forall unshared cs ->
  (forall x, x ∉ cs.*1 -> pbufs s !! x = pbufs s0 !! x) -> (forall x, x ∈ cs.*1 -> pbufs s0 !! x = None) ->
  exists s' U' F1' F2', pbuf_free call_free (head_addr cs) s = Done (u8 (size_of cs), s') /\ net_rep s' d1 d2 U' F1' F2' /\
    given_back cs U F1 F2 U' F1' F2' /\ pbufs s' = pbufs s0 /\ same_memory s s'.
Proof.
  intros HR Hc Hu Hold Hnew.
  destruct (pbuf_free_run call_free s d1 d2 U F1 F2 _ _ HR Hc (unshared_refs _ Hu)) as (s' & U' & F1' & F2' & Hrun & HR' & HP & Hs & Hg).
  rewrite (dying_all _ Hu) in *. exists s', U', F1', F2'. split_and!; try done.
  apply map_eq. intros x. rewrite HP, free_map_all by done. case_decide; [by rewrite Hnew | by apply Hold].
Qed.

Lemma building_undo s0 s d1 d2 U F1 F cs rem :
  building s0 s d1 d2 U F1 F [] cs rem ->
  exists n s' U' F', pbuf_free call_free (head_addr cs) s = Done (n, s') /\ net_rep s' d1 d2 U' F1 F' /\
    U' ≡ₚ U /\ F' ≡ₚ F /\ pbufs s' = pbufs s0 /\ same_memory s0 s'.
Proof.
  intros [HR HF Hc Hl Hcells Hold Hnew [[Hm Hm'] Hh]].
  destruct (free_unshared s0 s d1 d2 U F1 [] cs HR Hc (pool_cells_unshared _ Hcells) Hold Hnew)
    as (s' & U' & F1' & F' & Hrun & HR' & ((bs & HU & Hbs) & H1 & H2) & HP & [Hs Hs']).
  destruct (from_source_pool _ Hcells) as (I1 & I2 & I3). rewrite I1 in Hbs. rewrite I2 in H1. rewrite I3 in H2.
  apply fmap_nil_inv in Hbs as ->. simpl in HU, H1. subst F1' F'. rewrite app_nil_r in *. eexists _, s', U', _.
  split_and!; [exact Hrun | done | done | by rewrite HF, reverse_Permutation | done | split; congruence].
Qed.

(** A packet of pool buffers with the given lengths, made of the first free elements. *)
Definition pool_packet (s s' : lwip) (F : list Z) (v : Z) (ls : list Z) : Prop :=
  exists cs, v = head_addr cs /\ v <> 0 /\ chain_at (pbufs s') v cs /\ lens_ok cs /\ Forall pool_cell cs /\
    cs.*1 = take (length ls) F /\ map (fun c => len c.2) cs = ls /\
    (forall x, x ∉ cs.*1 -> pbufs s' !! x = pbufs s !! x) /\ (forall x, x ∈ cs.*1 -> pbufs s !! x = None).

Lemma link_end_lens q cs nb : map (fun c => len c.2) (link_end q cs ++ [(q, nb)]) = map (fun c => len c.2) cs ++ [len nb].
Proof.
  rewrite map_app. f_equal. destruct cs as [|[l b] cs0 _] using rev_ind; [done|]. rewrite link_end_snoc, !map_app. done.
Qed.

Lemma link_end_head q cs nb : head_addr (link_end q cs ++ [(q, nb)]) = if decide (cs = []) then q else head_addr cs.
Proof.
  destruct cs as [|[l b] cs0 _] using rev_ind; [done|]. rewrite link_end_snoc. rewrite decide_False by (by destruct cs0). by destruct cs0.
Qed.

Lemma building_head s0 s d1 d2 U F1 F F2 cs rem : building s0 s d1 d2 U F1 F F2 cs rem -> head_addr cs = 0 -> cs = [].
Proof. intros HB H. destruct cs as [|[q b] cs]; [done|]. apply bl_chain in HB as (_ & Hq & _). done. Qed.

Lemma building_done s0 s d1 d2 U F1 F F2 cs ls :
  building s0 s d1 d2 U F1 F F2 cs 0 -> cs <> [] -> map (fun c => len c.2) cs = ls ->
  pool_packet s0 s F (head_addr cs) ls /\ F2 = drop (length ls) F.
Proof.
  intros HB Hne <-. pose proof HB as [HR HF Hc Hl Hcells Hold Hnew _].
  assert (Hlen : length (map (fun c : cell => len c.2) cs) = length cs.*1) by (by rewrite !length_map).
  rewrite Hlen, HF, drop_app_length. split; [|done]. exists cs. split_and!; try done.
  - intros H. by eapply Hne, building_head.
  - by apply lens_plus_0.
  - by rewrite Hlen, take_app_length.
Qed.

Lemma alloc_loop_run s0 d1 d2 U F1 F : forall fuel s F2 cs rem off,
  building s0 s d1 d2 U F1 F F2 cs rem -> 0 <= rem < 2 ^ 16 -> 0 <= off <= 54 -> (Z.to_nat rem < fuel)%nat ->
  let ls := cuts fuel rem (room off) in
  exists v s', alloc_loop call_free fuel (head_addr cs) (end_cell cs) rem off PBUF_POOL s = Done (v, s') /\ same_memory s0 s' /\
    if decide (length ls <= length F2)%nat then
      let ls' := map (fun c => len c.2) cs ++ ls in
      pool_packet s0 s' F v ls' /\ net_rep s' d1 d2 U F1 (drop (length ls') F)
    else v = 0 /\ pbufs s' = pbufs s0 /\ exists U' F', net_rep s' d1 d2 U' F1 F' /\ U' ≡ₚ U /\ F' ≡ₚ F.
Proof.
  induction fuel as [|fuel IH]; intros s F2 cs rem off HB Hrem Hoff Hf; [lia|]. cbn [alloc_loop cuts]. cbv zeta.
  destruct F2 as [|q F2].
  - pose proof (bl_rep _ _ _ _ _ _ _ _ _ _ HB) as HR.
    destruct (memp_take s d1 d2 U F1 [] MEMP_PBUF_POOL HR) as (m & frs & Hrun & _ & _ & Hm & _); [by right|].
    simpl in Hrun. rewrite (Hm eq_refl) in Hrun. run_by ltac:(apply on_memp_run; exact Hrun). cbn [Z.eqb].
    replace (set_lw_memp (lw_memp s) s) with s by (by destruct s).
    destruct (decide _) as [Hle|_]; [simpl in Hle; lia|].
    destruct (building_undo _ _ _ _ _ _ _ _ _ HB) as (n & s' & U' & F' & Hfree & HR' & HU & HF' & HP & Hsm).
    exists 0, s'. split_and!; try done; [|by exists U', F'].
    destruct (Z.eqb_spec (head_addr cs) 0) as [E|E]; cbn [negb].
    + rewrite E in Hfree. injection Hfree as _ ->. done.
    + rewrite bind_assoc. run_with Hfree. done.
  - destruct (building_step _ _ _ _ _ _ _ _ _ _ off _ HB Hrem Hoff) as (s1 & s2 & Hmal & Hq & Hpl & Hst & HB2).
    assert (Hroom : u16 (PBUF_POOL_BUFSIZE_ALIGNED - LWIP_MEM_ALIGN_SIZE off) = room off /\ 0 < room off).
    { destruct (lwip_align_spec off) as [A _]; [lia|]. change PBUF_POOL_BUFSIZE_ALIGNED with 1516. unfold room. rewrite u16_small; lia. }
    destruct Hroom as [Hroom Hpos]. run_with Hmal. destruct (Z.eqb_spec q 0); [done|]. unfold pbuf_init_alloced_pbuf. rewrite Hpl, Hroom.
    change (mk_pbuf 0 _ _ _ _ _ _ _) with (new_cell q rem off). rewrite (bind_bind_run _ _ _ _ _ _ Hst).
    change (len (new_cell q rem off)) with (Z.min rem (room off)) in HB2. rewrite u16_small by lia.
    pose proof (link_end_lens q cs (new_cell q rem off)) as Hlens. pose proof (link_end_head q cs (new_cell q rem off)) as Hhead.
    pose proof (end_cell_snoc (link_end q cs) (q, new_cell q rem off)) as Hend.
    set (cs' := link_end q cs ++ [(q, new_cell q rem off)]) in *.
    assert (Hhd : (if head_addr cs =? 0 then q else head_addr cs) = head_addr cs').
    { rewrite Hhead. destruct (Z.eqb_spec (head_addr cs) 0) as [E|E].
      - by rewrite (building_head _ _ _ _ _ _ _ _ _ _ HB E).
      - rewrite decide_False; [done|]. by intros ->. }
    rewrite Hhd. destruct (Z.gtb_spec (rem - Z.min rem (room off)) 0) as [Hgt|Hle].
    + destruct (IH s2 F2 cs' (rem - Z.min rem (room off)) 0 HB2) as (v & s' & Hrun & Hsm & Hres); [lia..|].
      exists v, s'. split_and!; [by rewrite Hend in Hrun | done |]. change (room 0) with 1516 in Hres.
      rewrite Hlens in Hres. cbn [length]. rewrite <- app_assoc in Hres. cbn [app] in Hres.
      destruct (decide (length _ <= length F2)%nat), (decide (S (length _) <= S (length F2))%nat); try lia; done.
    + exists (head_addr cs'), s2. split; [done|]. split; [apply HB2|]. rewrite decide_True by (simpl; lia).
      replace (rem - Z.min rem (room off)) with 0 in HB2 by lia.
      destruct (building_done _ _ _ _ _ _ _ _ _ _ HB2 ltac:(unfold cs'; by destruct (link_end q cs)) Hlens) as [H1 H2].
      split; [done|]. apply bl_rep in HB2. rewrite H2 in HB2. exact HB2.
Qed.

(** ** Allocation *)

(** A single pbuf without a payload of its own. *)
Definition ref_pbuf (length type : Z) : pbuf := mk_pbuf 0 0 length length (u8 type) 0 1 NETIF_NO_INDEX.

(** A single pbuf with the payload behind the structure and the headers. *)
Definition ram_pbuf (v layer length : Z) : pbuf :=
  mk_pbuf 0 (v + 16 + LWIP_MEM_ALIGN_SIZE layer) length length (u8 PBUF_RAM) 0 1 NETIF_NO_INDEX.

Definition ram_need (layer length : Z) : Z := 16 + LWIP_MEM_ALIGN_SIZE layer + LWIP_MEM_ALIGN_SIZE length.

Definition ram_effect (s s' : lwip) d1 d2 U F1 F2 (v layer length : Z) : Prop :=
  (v = 0 /\ s' = s /\ exists bs, lheap_rep (lw_heap s) bs /\ Forall (fun b => fits (ram_need layer length) b = false) bs) \/
  (v <> 0 /\ pbufs s !! v = None /\ pbufs s' = <[v := ram_pbuf v layer length]> (pbufs s) /\ same_memory s s' /\
   exists U' n, net_rep s' d1 d2 U' F1 F2 /\ U' ≡ₚ (v, n) :: U /\ ram_need layer length <= n).

Definition ref_effect (s s' : lwip) d1 d2 U F1 F2 (v length type : Z) : Prop :=
  match F1 with
  | [] => v = 0 /\ s' = s
  | e :: F1' => v = e /\ v <> 0 /\ pbufs s !! v = None /\ pbufs s' = <[v := ref_pbuf length type]> (pbufs s) /\
                same_memory s s' /\ net_rep s' d1 d2 U F1' F2
  end.

Definition pool_effect (s s' : lwip) d1 d2 U F1 F2 (v layer length : Z) : Prop :=
  let ls := cuts (S (Z.to_nat length)) length (room layer) in
  same_memory s s' /\
  if decide (List.length ls <= List.length F2)%nat then
    pool_packet s s' F2 v ls /\ net_rep s' d1 d2 U F1 (drop (List.length ls) F2)
  else v = 0 /\ pbufs s' = pbufs s /\ exists U' F2', net_rep s' d1 d2 U' F1 F2' /\ U' ≡ₚ U /\ F2' ≡ₚ F2.

Lemma alloc_pool_run s d1 d2 U F1 F2 layer length :
  net_rep s d1 d2 U F1 F2 -> 0 <= layer <= 54 -> 0 <= length < 2 ^ 16 ->
  exists v s', pbuf_alloc call_free layer length PBUF_POOL s = Done (v, s') /\ pool_effect s s' d1 d2 U F1 F2 v layer length.
Proof.
  intros HR Hl Hn. unfold pbuf_alloc. rewrite (u16_small layer) by lia. cbn [orb Z.eqb].
  destruct (alloc_loop_run s d1 d2 U F1 F2 (S (Z.to_nat length)) s F2 [] length layer) as (v & s' & Hrun & H); [|lia..|].
  - split; try done. intros x Hx. by apply elem_of_nil in Hx.
  - exists v, s'. split; [exact Hrun|]. exact H.
Qed.

Lemma alloc_ref_run s d1 d2 U F1 F2 layer length type :
  net_rep s d1 d2 U F1 F2 -> type = PBUF_REF \/ type = PBUF_ROM ->
  exists v s', pbuf_alloc call_free layer length type s = Done (v, s') /\ ref_effect s s' d1 d2 U F1 F2 v length type.
Proof.
  intros HR Ht. destruct (memp_take s d1 d2 U F1 F2 MEMP_PBUF HR) as (m & frs & Hrun & Hrep & Hpo & Hm & G1 & G2); [by left|].
  assert (Hty : (type =? PBUF_REF) || (type =? PBUF_ROM) = true) by (by destruct Ht as [-> | ->]).
  unfold pbuf_alloc. rewrite Hty. unfold pbuf_alloc_reference. cbn [Z.eqb MEMP_PBUF] in *.
  run_by ltac:(apply on_memp_run; exact Hrun). destruct F1 as [|e F1]; simpl in Hm, G1, G2 |- *.
  - rewrite Hm by done. exists 0, s. split; [|done]. by destruct s.
  - pose proof (nr_layout _ _ _ _ _ _ HR) as HL. destruct (pool_free_nodup _ _ _ _ _ _ HR) as ((Hnd & Hsub) & _).
    assert (He : e ∈ elems d1) by (apply Hsub; left). pose proof (nr_memp _ _ _ _ _ _ HR) as (frs0 & Hrep0 & _).
    pose proof (elem_range _ _ _ _ _ Hrep0 (nl_pbuf _ _ _ HL) He) as Hr. destruct (Z.eqb_spec e 0); [lia|].
    eexists e, _. split; [unfold pbuf_init_alloced_pbuf; kstep; done|]. split_and!; try done.
    + eapply pool_fresh; [exact HR | left; split; [done | left]].
    + apply (net_rep_add s (set_lw_memp m s) d1 d2 U (e :: F1) F2); try done; [apply HR | by exists frs | set_solver |].
      apply NoDup_cons in Hnd as [Hnd _]. unfold placed. cbn [is_custom flags]. right; left. split_and!; try done.
      by destruct Ht as [-> | ->].
Qed.

(** The sizes are 16 bits wide; what does not fit is refused, as the heap is smaller. *)
Lemma ram_size layer length : 0 <= layer <= 54 -> 0 <= length < 2 ^ 16 ->
  let al := LWIP_MEM_ALIGN_SIZE length in
  let payload_len := u16 (LWIP_MEM_ALIGN_SIZE layer + al) in
  let alloc_len := u16 (LWIP_MEM_ALIGN_SIZE SIZEOF_STRUCT_PBUF + payload_len) in
  ((payload_len <? al) || (alloc_len <? al) = true /\ 2 ^ 16 <= ram_need layer length) \/
  ((payload_len <? al) || (alloc_len <? al) = false /\ alloc_len = ram_need layer length /\ 0 < alloc_len < 2 ^ 16).
Proof.
  intros Hl Hn al. subst al. change (LWIP_MEM_ALIGN_SIZE SIZEOF_STRUCT_PBUF) with 16. unfold ram_need. destruct (lwip_align_spec layer) as [A1 _]; [lia|].
  destruct (lwip_align_spec length) as [A2 A3]; [lia|]. set (al := LWIP_MEM_ALIGN_SIZE length) in *. set (ao := LWIP_MEM_ALIGN_SIZE layer) in *.
  apply Z.mod_divide in A3 as [k A3]; [|done]. cbv zeta. destruct (decide (ao + al < 2 ^ 16)) as [H1|H1].
  - rewrite (u16_small (ao + al)) by lia. destruct (Z.ltb_spec (ao + al) al) as [|_]; [lia|]. cbn [orb].
    destruct (decide (16 + (ao + al) < 2 ^ 16)) as [H2|H2].
    + rewrite u16_small by lia. right. destruct (Z.ltb_spec (16 + (ao + al)) al); lia.
    + left. replace (u16 (16 + (ao + al))) with (16 + (ao + al) - 2 ^ 16) by (unfold u16; apply (Z.mod_unique_pos _ _ 1); lia).
      split; [|lia]. apply Z.ltb_lt. lia.
  - left. replace (u16 (ao + al)) with (ao + al - 2 ^ 16) by (unfold u16; apply (Z.mod_unique_pos _ _ 1); lia).
    split; [|lia]. apply orb_true_iff. left. apply Z.ltb_lt. lia.
Qed.

Lemma no_block_large h bs n : lheap_rep h bs -> 2 ^ 16 <= n -> Forall (fun b => fits n b = false) bs.
Proof.
  intros HR Hn. apply Forall_forall. intros b Hb. destruct (block_bound _ _ _ (lr_tiled _ _ HR) Hb) as [Hb1 _].
  change MEM_SIZE_ALIGNED with 25600 in Hb1. unfold fits. destruct (Z.leb_spec n b.1); [lia|]. by rewrite andb_false_r.
Qed.

(** A block that was just given out is no pbuf. *)
Lemma heap_fresh s d1 d2 U F1 F2 h' U' v n :
  net_rep s d1 d2 U F1 F2 -> live_ok h' U' -> same_ram (lw_heap s) h' -> U' ≡ₚ (v, n) :: U -> pbufs s !! v = None.
Proof.
  intros [HL _ (frs & Hmemp & _) Hpl] Hlive [R1 R2] HU. destruct (pbufs s !! v) as [b|] eqn:Hb; [|done]. exfalso.
  specialize (Hpl _ _ Hb). pose proof (live_nodup _ _ Hlive) as Hnd. rewrite HU in Hnd. apply NoDup_cons in Hnd as [Hni _].
  assert (Hin : (v, n) ∈ U') by (rewrite HU; left).
  assert (Hr : ram (lw_heap s) <= v < ram_end (lw_heap s)).
  { destruct Hlive as [Hf _]. rewrite Forall_forall in Hf. destruct (Hf _ Hin) as (_ & H1 & H2 & H3). simpl in *.
    change SIZEOF_STRUCT_MEM with 8 in H1. lia. }
  assert (Hne : (v ∉ elems d1) /\ (v ∉ elems d2)) by (split; intros He; destruct (nl_apart _ _ _ HL v); try lia; auto).
  unfold placed in Hpl. destruct (is_custom b); [lia|].
  destruct Hpl as [(_ & m & Hm & _)|[(_ & H1 & _)|(_ & H1 & _)]]; [|naive_solver..].
  apply Hni. by apply (list_elem_of_fmap_2 fst) in Hm.
Qed.

Lemma alloc_ram_run s d1 d2 U F1 F2 layer length :
  net_rep s d1 d2 U F1 F2 -> 0 <= layer <= 54 -> 0 <= length < 2 ^ 16 ->
  exists v s', pbuf_alloc call_free layer length PBUF_RAM s = Done (v, s') /\ ram_effect s s' d1 d2 U F1 F2 v layer length.
Proof.
  intros HR Hl Hn. pose proof HR as [HL (bs & Hheap & HU) Hmemp Hpl]. unfold pbuf_alloc. rewrite (u16_small layer) by lia.
  change ((PBUF_RAM =? PBUF_REF) || (PBUF_RAM =? PBUF_ROM)) with false. change (PBUF_RAM =? PBUF_POOL) with false. rewrite Z.eqb_refl.
  destruct (ram_size layer length Hl Hn) as [[-> Hbig]|(-> & -> & Ha)].
  - exists 0, s. split; [done|]. left. split_and!; try done. exists bs. split; [done|]. by eapply no_block_large.
  - destruct (lheap_malloc _ bs _ Hheap Ha) as (v & h' & Hrun & Hres). run_by ltac:(apply on_heap_run; exact Hrun).
    unfold malloc_result in Hres. destruct (decide (v = 0)) as [->|Hv]; simpl.
    + destruct Hres as [-> Hnf]. exists 0, s. split; [by destruct s|]. left. split_and!; try done. by exists bs.
    + destruct (Z.eqb_spec v 0); [done|]. destruct Hres as (bs' & n' & Hrep' & Hsr & Hsz & Hperm). destruct Hsr as [R1 R2].
      rewrite <- R1 in Hperm at 1. rewrite <- HU in Hperm. pose proof (live_ok_rep _ _ Hrep') as Hlive.
      assert (Hin : (v, n') ∈ used_at (ram h') bs') by (rewrite Hperm; left).
      pose proof (proj1 (Forall_forall _ _) (proj1 Hlive) _ Hin) as (V1 & V2 & _ & V3). simpl in V1, V2, V3.
      change SIZEOF_STRUCT_MEM with 8 in V2. pose proof (lr_ram _ _ (lr_tiled _ _ Hrep')) as (Q1 & _ & Q2).
      pose proof (lr_ram_end _ _ (lr_tiled _ _ Hrep')) as Q3. change SIZEOF_STRUCT_MEM with 8 in Q2. change MEM_SIZE_ALIGNED with 25600 in *.
      unfold ram_need in *. destruct (lwip_align_spec length) as [A4 _]; [lia|]. destruct (lwip_align_spec layer) as [A5 _]; [lia|].
      destruct (payload_aligned v layer V1) as (A1 & A2 & _); [lia..|]. rewrite A1.
      assert (Hfresh : pbufs s !! v = None) by (by eapply heap_fresh).
      eexists v, _. split; [unfold pbuf_init_alloced_pbuf; kstep; done|]. right. split_and!; try done.
      exists (used_at (ram h') bs'), n'. split_and!; [|done | done].
      apply (net_rep_add s (set_lw_heap h' s) d1 d2 U F1 F2); try done; [by exists bs' | |].
      * intros u Hu. rewrite Hperm. by right.
      * unfold placed. cbn [is_custom flags]. left. split; [done|]. exists n'. split; [done|]. unfold in_block. simpl. lia.
Qed.

Lemma alloc_other s layer length type :
  type ∉ [PBUF_REF; PBUF_ROM; PBUF_POOL; PBUF_RAM] -> pbuf_alloc call_free layer length type s = Done (0, s).
Proof.
  intros Ht. unfold pbuf_alloc.
  destruct (Z.eqb_spec type PBUF_REF), (Z.eqb_spec type PBUF_ROM), (Z.eqb_spec type PBUF_POOL), (Z.eqb_spec type PBUF_RAM); done || set_solver.
Qed.

(** The block of a pbuf is given back with the size it had. *)
Lemma give_block h U' U U2 v n bs :
  live_ok h U' -> U' ≡ₚ (v, n) :: U -> U' ≡ₚ bs ++ U2 -> bs.*1 = [v] -> U2 ≡ₚ U.
Proof.
  intros Hlive HU HU2 Hbs. destruct bs as [|[v' m] [|]]; simplify_eq/=. pose proof (live_nodup _ _ Hlive) as Hnd.
  rewrite HU in Hnd. apply NoDup_cons in Hnd as [Hni _]. assert (Hin : (v, m) ∈ (v, n) :: U) by (rewrite <- HU, HU2; left).
  apply elem_of_cons in Hin as [[= ->]|Hin]; [|by apply (list_elem_of_fmap_2 fst) in Hin].
  rewrite HU in HU2. symmetry. by apply Permutation_cons_inv in HU2.
Qed.

Definition restored (s s2 : lwip) d1 d2 (U : list (Z * Z)) F1 F2 : Prop :=
  pbufs s2 = pbufs s /\ same_memory s s2 /\
  exists U2 G1 G2, net_rep s2 d1 d2 U2 G1 G2 /\ U2 ≡ₚ U /\ G1 ≡ₚ F1 /\ G2 ≡ₚ F2.

Lemma restored_intro s s' s2 d1 d2 U F1 F2 U2 G1 G2 :
  same_memory s s' -> same_memory s' s2 -> pbufs s2 = pbufs s -> net_rep s2 d1 d2 U2 G1 G2 ->
  U2 ≡ₚ U -> G1 ≡ₚ F1 -> G2 ≡ₚ F2 -> restored s s2 d1 d2 U F1 F2.
Proof. intros [M1 M2] [M3 M4] HP HR HU H1 H2. split; [done|]. split; [split; congruence|]. by exists U2, G1, G2. Qed.

(** A packet of one pbuf. *)
Lemma free_single s s' d1 d2 U F1 F2 v b :
  net_rep s' d1 d2 U F1 F2 -> v <> 0 -> pbufs s !! v = None -> pbufs s' = <[v := b]> (pbufs s) -> p_next b = 0 -> unshared (v, b) ->
  exists s2 U2 G1 G2, pbuf_free call_free v s' = Done (1, s2) /\ net_rep s2 d1 d2 U2 G1 G2 /\
    given_back [(v, b)] U F1 F2 U2 G1 G2 /\ pbufs s2 = pbufs s /\ same_memory s' s2.
Proof.
  intros HR Hv Hn HP Hnx Hu. apply (free_unshared s s' d1 d2 U F1 F2 [(v, b)]); try done.
  - simpl. rewrite HP, lookup_insert_eq. done.
  - by constructor.
  - intros x Hx. rewrite HP. apply lookup_insert_ne. set_solver.
  - by intros x ->%list_elem_of_singleton.
Qed.

Lemma free_alloced s d1 d2 U F1 F2 layer length type :
  net_rep s d1 d2 U F1 F2 -> 0 <= layer <= 54 -> 0 <= length < 2 ^ 16 -> type ∈ [PBUF_REF; PBUF_ROM; PBUF_POOL; PBUF_RAM] ->
  exists v s', pbuf_alloc call_free layer length type s = Done (v, s') /\
    (v <> 0 -> exists n s2, 1 <= n /\ pbuf_free call_free v s' = Done (u8 n, s2) /\ restored s s2 d1 d2 U F1 F2).
Proof.
  intros HR Hl Hn Ht.
  assert (Ht' : (type = PBUF_REF \/ type = PBUF_ROM) \/ type = PBUF_POOL \/ type = PBUF_RAM) by set_solver.
  destruct Ht' as [Ht'|[->| ->]].
  - destruct (alloc_ref_run s d1 d2 U F1 F2 layer length type HR Ht') as (v & s' & Hrun & He). exists v, s'. split; [done|].
    intros Hv. unfold ref_effect in He. destruct F1 as [|e F1]; [by destruct He|]. destruct He as (-> & _ & Hf & HP & Hm & HR').
    destruct (free_single s s' d1 d2 U F1 F2 e _ HR' Hv Hf HP) as (s2 & U2 & G1 & G2 & Hfree & HR2 & Hg & HP2 & Hm2); [done | done|].
    exists 1, s2. split_and!; [done | done |].
    destruct Hg as ((bs & HU & Hbs) & -> & ->). rewrite !from_source_one in *.
    assert (Hsrc : source (ref_pbuf length type) = 1) by (by destruct Ht' as [-> | ->]). rewrite Hsrc in *.
    apply fmap_nil_inv in Hbs as ->. by eapply restored_intro.
  - destruct (alloc_pool_run s d1 d2 U F1 F2 layer length HR Hl Hn) as (v & s' & Hrun & Hm & He). exists v, s'. split; [done|].
    intros Hv. destruct (decide _) as [Hle|Hle]; [|by destruct He]. destruct He as [(cs & -> & _ & Hc & _ & Hcells & Hcs & _ & Hold & Hnew) HR'].
    destruct (free_unshared s s' d1 d2 U F1 _ cs HR' Hc (pool_cells_unshared _ Hcells) Hold Hnew)
      as (s2 & U2 & G1 & G2 & Hfree & HR2 & ((bs & HU & Hbs) & H1 & H2) & HP & Hs).
    destruct (from_source_pool _ Hcells) as (I1 & I2 & I3). rewrite I1 in Hbs. rewrite I2 in H1. rewrite I3 in H2.
    apply fmap_nil_inv in Hbs as ->. simpl in HU, H1. exists (size_of cs), s2. split_and!; [| done |].
    + destruct cs; [done|]. unfold size_of. simpl. lia.
    + eapply restored_intro; try done; [by subst|]. by rewrite H2, reverse_Permutation, Hcs, take_drop.
  - destruct (alloc_ram_run s d1 d2 U F1 F2 layer length HR Hl Hn) as (v & s' & Hrun & He). exists v, s'. split; [done|].
    intros Hv. destruct He as [(? & _)|(_ & Hf & HP & Hm & U' & n & HR' & HU' & Hsz)]; [done|].
    destruct (free_single s s' d1 d2 U' F1 F2 v _ HR' Hv Hf HP) as (s2 & U2 & G1 & G2 & Hfree & HR2 & Hg & HP2 & Hm2); [done | done|].
    exists 1, s2. split_and!; [done | done |].
    destruct Hg as ((bs & HU & Hbs) & -> & ->). rewrite !from_source_one in *. simpl in Hbs. eapply restored_intro; try done.
    destruct (nr_heap _ _ _ _ _ _ HR') as (bs' & Hh & ->). eapply give_block; [by apply live_ok_rep | done..].
Qed.
End alloc.

(** ** The properties *)

(** C32: Allocation of packets.  For a header layer and a 16-bit length, [pbuf_alloc]
    returns and either makes a fresh packet or changes nothing and returns null.  A
    reference or ROM pbuf is the next element of its pool, null only when the pool
    is empty.  A RAM pbuf is one block of the heap with the structure, the aligned
    room for the headers and the payload inside it, null only when no free block is
    large enough, also when the 16-bit sizes overflow.  A pool packet is a chain of
    the next free buffers, the first shorter by the headers and all but the last
    one full, with [tot_len] the length from each pbuf on; when the pool has fewer
    buffers than it needs, those already taken are given back.  No other pbuf
    changes, and every pbuf keeps lying in memory its allocator gave out.  A packet
    it returned is given back by [pbuf_free] as a whole: afterwards there are the
    same pbufs as before, and the heap and both pools have the same blocks and
    elements in use and free, so that no memory leaks and none is freed twice. *)
Theorem pbuf_alloc_ok call_free s d1 d2 U F1 F2 layer length type :
  net_rep s d1 d2 U F1 F2 -> 0 <= layer <= 54 -> 0 <= length < 2 ^ 16 ->
  exists v s', pbuf_alloc call_free layer length type s = Done (v, s') /\
    (if decide (type = PBUF_REF \/ type = PBUF_ROM) then ref_effect s s' d1 d2 U F1 F2 v length type
     else if decide (type = PBUF_POOL) then pool_effect s s' d1 d2 U F1 F2 v layer length
     else if decide (type = PBUF_RAM) then ram_effect s s' d1 d2 U F1 F2 v layer length
     else v = 0 /\ s' = s) /\
    (v <> 0 -> exists n s2, 1 <= n /\ pbuf_free call_free v s' = Done (u8 n, s2) /\ restored s s2 d1 d2 U F1 F2).
Proof.
  intros HR Hl Hn. destruct (decide (type ∈ [PBUF_REF; PBUF_ROM; PBUF_POOL; PBUF_RAM])) as [Ht|Ht].
  - destruct (free_alloced call_free s d1 d2 U F1 F2 layer length type HR Hl Hn Ht) as (v & s' & Hrun & Hfree).
    exists v, s'. split; [done|]. split; [|done]. repeat case_decide.
    + destruct (alloc_ref_run call_free s d1 d2 U F1 F2 layer length type HR) as (v' & s'' & Hrun' & He); [done|]. congruence.
    + subst type. destruct (alloc_pool_run call_free s d1 d2 U F1 F2 layer length HR Hl Hn) as (v' & s'' & Hrun' & He). congruence.
    + subst type. destruct (alloc_ram_run call_free s d1 d2 U F1 F2 layer length HR Hl Hn) as (v' & s'' & Hrun' & He). congruence.
    + set_solver.
  - exists 0, s. split; [by apply alloc_other|]. split; [|done]. repeat case_decide; [set_solver.. | done].
Qed.

(** C33: Release of packets.  [pbuf_free] of a chain of pbufs with at least one
    reference each, none of them a custom pbuf ([refs_ok]), returns the number,
    modulo 256, of pbufs it released: exactly those at the head of the chain that
    lose their last reference.  Each of them is gone and
    its memory is back with the allocator it came from; the first pbuf with more
    references loses one and the rest of the chain stays as it is.  No byte
    changes, and every pbuf that is left keeps lying in memory in use. *)
Theorem pbuf_free_ok call_free s d1 d2 U F1 F2 p cs :
  net_rep s d1 d2 U F1 F2 -> chain_at (pbufs s) p cs -> refs_ok cs ->
  exists s' U' F1' F2', pbuf_free call_free p s = Done (u8 (size_of (dying cs)), s') /\
    net_rep s' d1 d2 U' F1' F2' /\ pbufs s' = free_map (pbufs s) cs /\ same_memory s s' /\
    given_back (dying cs) U F1 F2 U' F1' F2'.
Proof. apply pbuf_free_run. Qed.

(** ** A stack with a heap, the two pools and a chain through all three *)

Fixpoint free_list_check (N : gmap Z Z) (a : Z) (es : list Z) : bool :=
  match es with
  | [] => a =? 0
  | e :: es' => (a =? e) && (0 <? e) && (e <? 2 ^ 32) && match N !! e with Some n => free_list_check N n es' | None => false end
  end.

Lemma free_list_check_sound N a es : free_list_check N a es = true -> free_list N a es.
Proof.
  revert a. induction es as [|e es IH]; intros a; simpl; [apply Z.eqb_eq|]. destruct (N !! e) as [n|]; [|by rewrite andb_false_r].
  intros [[[H1%Z.eqb_eq H2%Z.ltb_lt]%andb_true_iff H3%Z.ltb_lt]%andb_true_iff H4]%andb_true_iff.
  split_and!; [done | done | done |]. exists n. auto.
Qed.

Definition pool_check (s : memp_state) (d : memp_desc) (es : list Z) : bool :=
  match tabs s !! tab d with Some t => free_list_check (memp_next s) t es | None => false end &&
  bool_decide (NoDup es) && forallb (fun e => bool_decide (e ∈ elems d)) es.

Lemma pool_check_sound s d es : pool_check s d es = true -> pool_rep s d es.
Proof.
  unfold pool_check. intros [[H1 H2%bool_decide_eq_true]%andb_true_iff H3]%andb_true_iff. destruct (tabs s !! tab d) as [t|] eqn:Ht; [|done].
  split_and!; [exists t; split; [done | by apply free_list_check_sound] | done |]. intros e He. rewrite forallb_forall in H3.
  apply (bool_decide_eq_true_1 _), H3. by apply list_elem_of_In.
Qed.

Definition demo_refs : memp_desc := mk_desc PBUF_ELEM 3 0x20020000 0x200.
Definition demo_bufs : memp_desc := mk_desc POOL_ELEM 4 0x20030000 0x204.
Definition demo_descs : list memp_desc :=
  map (fun i => mk_desc 8 0 0 (4 * Z.of_nat i)) (seq 0 11) ++ [demo_refs; demo_bufs].

(** The last elements of the two pools are in use. *)
Definition demo_memp : memp_state :=
  match (memp_init;; memp_malloc MEMP_PBUF;; memp_malloc MEMP_PBUF_POOL) (mk_memp demo_descs ∅ ∅) with
  | Done (_, m) => m | _ => mk_memp [] ∅ ∅ end.

Definition demo_F1 : list Z := [0x20020010; 0x20020000].
Definition demo_F2 : list Z := [0x20030000 + 3064; 0x20030000 + 1532; 0x20030000].

(** A pool buffer, a reference and a block of the heap that someone else holds too. *)
Definition demo_cells : list cell :=
  [(0x20030000 + 4596, mk_pbuf 0x20020020 (0x20030000 + 4612) 1230 1000 0x82 0 1 0);
   (0x20020020, mk_pbuf 0x20010078 0x08001000 230 130 0x41 0 1 0);
   (0x20010078, mk_pbuf 0 0x20010098 100 100 0x80 0 2 0)].

Definition demo_stack : lwip := mk_lwip lwip_demo demo_memp (list_to_map demo_cells) ∅ ∅.
Definition demo_U : list (Z * Z) := used_at (ram lwip_demo) demo_lblocks.

Lemma demo_stack_rep : net_rep demo_stack demo_refs demo_bufs demo_U demo_F1 demo_F2.
Proof.
  split.
  - split; [by vm_compute | by vm_compute | done | |].
    + assert (H : Forall (fun e => e < ram lwip_demo \/ ram_end lwip_demo <= e) (elems demo_refs ++ elems demo_bufs))
        by (apply (bool_decide_eq_true_1 _); vm_compute; reflexivity).
      intros e He. rewrite Forall_forall in H. apply H, elem_of_app, He.
    + apply Forall_forall. apply (bool_decide_eq_true_1 _). vm_compute. reflexivity.
  - exists demo_lblocks. split; [apply lwip_demo_rep | done].
  - exists (replicate 11 [] ++ [demo_F1; demo_F2]). split; [|by vm_compute]. split.
    + split; [| | repeat constructor; vm_compute; done]; apply (bool_decide_eq_true_1 _); vm_compute; reflexivity.
    + change (memp_pools (lw_memp demo_stack)) with (memp_pools demo_memp).
      replace (memp_pools demo_memp) with demo_descs by (by vm_compute).
      repeat (apply Forall2_cons; split; [apply pool_check_sound; vm_compute; reflexivity|]). by apply Forall2_nil.
  - intros p b Hb. apply elem_of_list_to_map_2 in Hb. unfold placed.
    repeat (apply elem_of_cons in Hb as [[= -> ->]|Hb]); [| | | by apply elem_of_nil in Hb].
    + right; right. split_and!; [done | | | done..]; apply (bool_decide_eq_true_1 _); vm_compute; reflexivity.
    + right; left. split_and!; [done | |]; apply (bool_decide_eq_true_1 _); vm_compute; reflexivity.
    + left. split; [done|]. exists 200. split; [|done]. apply (bool_decide_eq_true_1 _). vm_compute. reflexivity.
Qed.

Definition no_custom (f p : Z) : prog lwip unit := mret tt.

Definition value {A} (r : result (A * lwip)) : option A := match r with Done (a, _) => Some a | _ => None end.

Lemma value_done {A} (r : result (A * lwip)) a s v : r = Done (a, s) -> value r = Some v -> a = v.
Proof. intros -> [= ->]. done. Qed.

Lemma pbuf_free_ok_witness :
  exists s', pbuf_free no_custom (0x20030000 + 4596) demo_stack = Done (2, s') /\
    (exists U', net_rep s' demo_refs demo_bufs U' (0x20020020 :: demo_F1) (0x20030000 + 4596 :: demo_F2)).
Proof.
  destruct (pbuf_free_ok no_custom demo_stack demo_refs demo_bufs demo_U demo_F1 demo_F2 (0x20030000 + 4596) demo_cells demo_stack_rep)
    as (s' & U' & F1' & F2' & Hrun & HR & _ & _ & _ & -> & ->).
  - vm_compute. done.
  - repeat constructor; vm_compute; done.
  - exists s'. split; [exact Hrun|]. exists U'. exact HR.
Defined.

(** 4000 bytes behind the headers of a TCP segment: three buffers. *)
Lemma pbuf_alloc_ok_witness :
  exists s' n s2, pbuf_alloc no_custom PBUF_TRANSPORT 4000 PBUF_POOL demo_stack = Done (0x20030000 + 3064, s') /\
    pool_packet demo_stack s' demo_F2 (0x20030000 + 3064) [1460; 1516; 1024] /\
    pbuf_free no_custom (0x20030000 + 3064) s' = Done (u8 n, s2) /\ restored demo_stack s2 demo_refs demo_bufs demo_U demo_F1 demo_F2.
Proof.
  destruct (pbuf_alloc_ok no_custom demo_stack demo_refs demo_bufs demo_U demo_F1 demo_F2 PBUF_TRANSPORT 4000 PBUF_POOL demo_stack_rep)
    as (v & s' & Hrun & H & Hfree); [done | done|].
  assert (Hv : v = 0x20030000 + 3064) by (apply (value_done _ _ _ _ Hrun); vm_compute; reflexivity). subst v.
  destruct Hfree as (n & s2 & _ & Hf & Hres); [discriminate|]. exists s', n, s2. split; [exact Hrun|]. split; [|exact (conj Hf Hres)].
  rewrite (decide_False (P := PBUF_POOL = PBUF_REF \/ PBUF_POOL = PBUF_ROM)), (decide_True (P := PBUF_POOL = PBUF_POOL)) in H
    by (intros [?|?] || reflexivity; discriminate). destruct H as [_ H].
  assert (E : cuts (S (Z.to_nat 4000)) 4000 (room PBUF_TRANSPORT) = [1460; 1516; 1024]) by (vm_compute; reflexivity).
  rewrite E in H. rewrite decide_True in H by (simpl; lia). exact (proj1 H).
Defined.
