(* ===== verification/PbufChain.v ===== *)
(** * Chains of packet buffers

    [pbuf_cat] appends one packet to another, [pbuf_realloc] cuts a packet: the
    lengths, the links and the contents are those of the concatenation and of the
    prefix, and what is cut off goes back to the allocators ([PbufSpec]). *)

From S2P Require Import Prelude Mem MemSpec LwipMem LwipMemSpec LwipMemp LwipMempSpec Pbuf PbufData PbufSpec.

(** ** Adjusting [tot_len] of a prefix *)

Definition retot (x : Z) (b : pbuf) : pbuf := set_tot_len (tot_len b + x) b.
Definition retot_cells (x : Z) (cs : list cell) : list cell := map (fun c => (c.1, retot x c.2)) cs.

Fixpoint retot_map (x : Z) (cs : list cell) (P : gmap Z pbuf) : gmap Z pbuf :=
  match cs with
  | [] => P
  | (q, b) :: cs' => retot_map x cs' (<[q := retot x b]> P)
  end.

Definition with_pbufs (P : gmap Z pbuf) (s : lwip) : lwip := set_pbufs (fun _ => P) s.

Lemma with_pbufs_id s : with_pbufs (pbufs s) s = s.
Proof. by destruct s. Qed.

Lemma retot_map_other x cs : forall P a, a ∉ cs.*1 -> retot_map x cs P !! a = P !! a.
Proof.
  induction cs as [|[q b] cs IH]; intros P a Ha; [done|]. rewrite fmap_cons, not_elem_of_cons in Ha. destruct Ha as [H1 H2].
  simpl in *. rewrite IH by done. by apply lookup_insert_ne.
Qed.

Lemma retot_map_in x cs : forall P q b, NoDup cs.*1 -> (q, b) ∈ cs -> retot_map x cs P !! q = Some (retot x b).
Proof.
  induction cs as [|[q' b'] cs IH]; intros P q b Hnd Hin; [by apply elem_of_nil in Hin|].
  rewrite fmap_cons in Hnd. apply NoDup_cons in Hnd as [Hni Hnd]. simpl in *. apply elem_of_cons in Hin as [[= -> ->]|Hin].
  - rewrite retot_map_other by done. apply lookup_insert_eq.
  - by apply IH.
Qed.

(** The chain after its first pbufs were adjusted and another rest was linked to it. *)
Lemma pchain_relink x P P' p cs l b rest b' rest' :
  chain_at P p (cs ++ (l, b) :: rest) -> (forall q c, (q, c) ∈ cs -> P' !! q = Some (retot x c)) ->
  P' !! l = Some b' -> chain_at P' (p_next b') rest' -> chain_at P' p (retot_cells x cs ++ (l, b') :: rest').
Proof.
  revert p. induction cs as [|[q c] cs IH]; intros p Hc H1 Hl Hr; destruct Hc as (-> & Hq & HP & Hc); [done|].
  simpl. split_and!; [done | done | apply H1; left |]. apply (IH (p_next c)); [done | | done | done]. intros q' c' Hin. apply H1. by right.
Qed.

Lemma holds_retot M x cs ds : holds M cs ds -> holds M (retot_cells x cs) ds.
Proof. intros H. induction H; constructor; done. Qed.

Lemma retot_addrs x cs : (retot_cells x cs).*1 = cs.*1.
Proof. unfold retot_cells. induction cs as [|c cs IH]; [done|]. rewrite map_cons, !fmap_cons, IH. done. Qed.

Lemma chain_insert_head P q b b' cs : chain_at P q ((q, b) :: cs) -> chain_at (<[q := b']> P) (p_next b) cs.
Proof.
  intros Hc. pose proof (chain_nodup _ _ _ Hc) as Hnd. rewrite fmap_cons in Hnd. apply NoDup_cons in Hnd as [Hni _].
  pose proof Hc as (_ & _ & _ & Hc'). eapply pchain_frame; [done|]. intros q' b'' Hin. rewrite lookup_insert_ne.
  - by eapply chain_lookup.
  - intros <-. apply Hni. by apply (list_elem_of_fmap_2 fst) in Hin.
Qed.

Lemma chain_head_nonzero P p c cs : chain_at P p (c :: cs) -> p <> 0.
Proof. destruct c. by intros (-> & ? & _). Qed.

(** ** Concatenation *)

Lemma cat_loop_run t tb l b : forall cs fuel s p,
  chain_at (pbufs s) p (cs ++ [(l, b)]) -> p_next b = 0 -> t ∉ cs.*1 -> pbufs s !! t = Some tb ->
  Forall (fun c => 0 <= tot_len c.2 + tot_len tb < 2 ^ 16) cs -> (length cs < fuel)%nat ->
  cat_loop fuel p t s = Done (l, with_pbufs (retot_map (tot_len tb) cs (pbufs s)) s).
Proof.
  induction cs as [|[q b0] cs IH]; intros [|fuel] s p Hc Hn Ht Htb Htot Hf; try (simpl in Hf; lia); cbn [cat_loop].
  - destruct Hc as (-> & _ & HP & _). run_with (pbuf_at_run _ _ _ HP). rewrite Hn. simpl. by rewrite with_pbufs_id.
  - pose proof Hc as (-> & Hq & HP & Hc'). run_with (pbuf_at_run _ _ _ HP).
    assert (Hnx : p_next b0 <> 0) by (destruct cs as [|[q' b'] cs]; eapply chain_head_nonzero; exact Hc').
    destruct (Z.eqb_spec (p_next b0) 0); [done|]. cbn [negb]. run_with (pbuf_at_run _ _ _ Htb).
    run_by ltac:(apply upd_pbuf_run; exact HP). apply Forall_cons in Htot as [Ht0 Htot]. cbn [snd] in Ht0. rewrite u16_small by lia.
    rewrite fmap_cons, not_elem_of_cons in Ht. destruct Ht as [Ht1 Ht]. cbn [fst] in Ht1.
    rewrite IH; [done | | done | done | | done | simpl in Hf; lia].
    + by apply chain_insert_head.
    + simpl. by rewrite lookup_insert_ne.
Qed.

Lemma lens_retot x cs1 cs2 cs2' :
  lens_ok (cs1 ++ cs2) -> lens_ok cs2' -> total cs2' = total cs2 + x -> total (cs1 ++ cs2) + x < 2 ^ 16 ->
  lens_ok (retot_cells x cs1 ++ cs2').
Proof.
  intros Hl Hl2 Ht. induction cs1 as [|[q b] cs1 IH]; [done|]. simpl in *. destruct Hl as (L1 & L2 & L3 & L4). intros Hlt.
  pose proof (lens_total _ L4). specialize (IH L4 ltac:(lia)).
  assert (E : total (retot_cells x cs1 ++ cs2') = total (cs1 ++ cs2) + x).
  { rewrite !total_app. enough (total (retot_cells x cs1) = total cs1) by lia. clear. induction cs1 as [|[] cs1 IH]; simpl; lia. }
  rewrite E. split_and!; [done | lia | lia | done].
Qed.

Lemma tot_bound x cs c : lens_ok cs -> total cs + x < 2 ^ 16 -> c ∈ cs -> 0 <= tot_len c.2 /\ tot_len c.2 + x < 2 ^ 16.
Proof.
  induction cs as [|[q b] cs IH]; simpl; [by intros _ _ ?%elem_of_nil|]. intros (L1 & L2 & L3 & L4) Ht. pose proof (lens_total _ L4).
  intros [->|Hin]%elem_of_cons; [simpl; lia|]. apply IH; [done | lia | done].
Qed.

Section cat.
Context (s : lwip) (h l t : Z) (b tb : pbuf) (cs cs2 : list cell).
Hypothesis Hc : chain_at (pbufs s) h (cs ++ [(l, b)]).
Hypothesis Hl : lens_ok (cs ++ [(l, b)]).
Hypothesis Hc2 : chain_at (pbufs s) t ((t, tb) :: cs2).
Hypothesis Hl2 : lens_ok ((t, tb) :: cs2).
Hypothesis Hdis : forall a, a ∈ (cs ++ [(l, b)]).*1 -> a ∉ ((t, tb) :: cs2).*1.
Hypothesis Htot : total (cs ++ [(l, b)]) + total ((t, tb) :: cs2) < 2 ^ 16.

Local Abbreviation x := (tot_len tb).

(** The last pbuf of the first chain, and the pbufs afterwards. *)
Definition cat_last : pbuf := set_p_next t (retot x b).
Definition cat_map : gmap Z pbuf := <[l := cat_last]> (<[l := retot x b]> (retot_map x cs (pbufs s))).

Lemma cat_apart : NoDup cs.*1 /\ (l ∉ cs.*1) /\ (t ∉ cs.*1) /\ t <> l.
Proof.
  pose proof (chain_nodup _ _ _ Hc) as Hnd. rewrite fmap_app in Hnd. apply NoDup_app in Hnd as (Hnd & Hln & _).
  assert (Ht : t ∉ (cs ++ [(l, b)]).*1) by (intros H; apply (Hdis _ H); left). rewrite fmap_app, not_elem_of_app in Ht.
  destruct Ht as [Ht Htl]. split_and!; [done | intros H; apply (Hln _ H); left | done | intros ->; apply Htl; left].
Qed.

Lemma cat_next : p_next b = 0.
Proof. clear -Hc. revert h Hc. induction cs as [|[q c] cs' IH]; intros h (_ & _ & _ & Hc); [done | by eapply IH]. Qed.

Lemma cat_bounds : x = total ((t, tb) :: cs2) /\ 0 <= x /\
  (forall c, c ∈ cs ++ [(l, b)] -> 0 <= tot_len c.2 + x < 2 ^ 16) /\ 0 <= len b /\ tot_len b = len b.
Proof.
  pose proof (lens_total _ Hl2) as H0. assert (Hx : x = total ((t, tb) :: cs2)) by (destruct Hl2 as (_ & -> & _); done).
  split_and!; [done | lia | | |].
  - intros c Hin. destruct (tot_bound x _ c Hl); [lia | done | lia].
  - apply lens_app in Hl as (B1 & _). done.
  - apply lens_app in Hl as (_ & B2 & _). simpl in B2. lia.
Qed.

Lemma cat_out a : a ∉ (cs ++ [(l, b)]).*1 -> cat_map !! a = pbufs s !! a.
Proof.
  intros Ha. rewrite fmap_app, not_elem_of_app in Ha. destruct Ha as [Ha1 Ha2]. unfold cat_map.
  rewrite !lookup_insert_ne by (intros ->; apply Ha2; left). by apply retot_map_other.
Qed.

Lemma cat_run : pbuf_cat h t s = Done (tt, with_pbufs cat_map s).
Proof.
  destruct cat_apart as (Hnd & Hl1 & Ht1 & Htl). destruct cat_bounds as (_ & _ & Hbd & _). pose proof Hc2 as (_ & Ht0 & HPt & _).
  unfold pbuf_cat. rewrite (proj2 (Z.eqb_neq h 0)) by (destruct cs as [|[]]; eapply chain_head_nonzero; exact Hc).
  rewrite (proj2 (Z.eqb_neq t 0)) by done. cbn [orb]. kstep. pose proof (chain_fuel_enough _ _ _ Hc) as Hf. rewrite length_app in Hf.
  assert (Hbd' : Forall (fun c => 0 <= tot_len c.2 + x < 2 ^ 16) cs) by (apply Forall_forall; intros c Hin; apply Hbd, elem_of_app; by left).
  run_by ltac:(apply (cat_loop_run t tb l b cs); [exact Hc | exact cat_next | exact Ht1 | exact HPt | exact Hbd' | simpl in Hf; lia]).
  assert (Ht2 : retot_map x cs (pbufs s) !! t = Some tb) by (by rewrite retot_map_other).
  assert (Hl2' : retot_map x cs (pbufs s) !! l = Some b).
  { rewrite retot_map_other by done. eapply chain_lookup; [exact Hc | apply elem_of_app; right; left]. }
  rewrite (bind_done _ _ _ _ _ (pbuf_at_run (with_pbufs _ s) t tb Ht2)), (bind_done _ _ _ _ _ (upd_pbuf_run (with_pbufs _ s) l _ b Hl2')).
  rewrite u16_small by (apply (Hbd (l, b)), elem_of_app; right; left). fold (retot x b).
  erewrite upd_pbuf_run; [|simpl; apply lookup_insert_eq]. done.
Qed.

Lemma cat_second : chain_at cat_map t ((t, tb) :: cs2).
Proof.
  eapply pchain_frame; [exact Hc2|]. intros q c Hin. rewrite cat_out; [by eapply chain_lookup|].
  intros H. apply (Hdis _ H). by apply (list_elem_of_fmap_2 fst) in Hin.
Qed.

Lemma cat_chain : chain_at cat_map h (retot_cells x cs ++ (l, cat_last) :: (t, tb) :: cs2).
Proof.
  destruct cat_apart as (Hnd & Hl1 & _). eapply pchain_relink; [exact Hc | | apply lookup_insert_eq | exact cat_second].
  intros q c Hin. assert (q <> l) by (intros ->; apply Hl1; by apply (list_elem_of_fmap_2 fst) in Hin).
  unfold cat_map. rewrite !lookup_insert_ne by done. by apply retot_map_in.
Qed.

Lemma cat_lens : lens_ok (retot_cells x cs ++ (l, cat_last) :: (t, tb) :: cs2).
Proof.
  destruct cat_bounds as (Hx & H0 & Hbd & Hb1 & Hb2). specialize (Hbd (l, b) ltac:(apply elem_of_app; right; left)). cbn [snd] in Hbd.
  apply (lens_retot x cs [(l, b)]); [done | | simpl in *; lia | lia].
  split_and!; [done | simpl in *; lia | simpl; lia | done].
Qed.
End cat.

(** Appending the packet [t] to the packet [h]. *)
Definition joined (s s' : lwip) (cs cs2 cs' : list cell) : Prop :=
  cs'.*1 = cs.*1 ++ cs2.*1 /\ (exists cs1', cs' = cs1' ++ cs2) /\
  (forall a, a ∉ cs.*1 -> pbufs s' !! a = pbufs s !! a) /\ s' = with_pbufs (pbufs s') s.

(** Concatenation.  [pbuf_cat] of two packets without a common pbuf, whose lengths
    fit in 16 bits together, returns and makes the first of them the packet with
    the contents of both: the pbufs of the first chain followed by those of the
    second, [tot_len] of every one the length from there on.  The second packet, all
    other pbufs and the memory are unchanged. *)
Theorem pbuf_cat_ok s h t cs cs2 ds ds2 :
  packet s h cs ds -> packet s t cs2 ds2 -> cs <> [] -> cs2 <> [] ->
  (forall a, a ∈ cs.*1 -> a ∉ cs2.*1) -> total cs + total cs2 < 2 ^ 16 ->
  exists s' cs', pbuf_cat h t s = Done (tt, s') /\ packet s' h cs' (ds ++ ds2) /\ packet s' t cs2 ds2 /\ joined s s' cs cs2 cs'.
Proof.
  intros [Hc Hl Hd] [Hc2 Hl2 Hd2] Hne Hne2 Hdis Htot. destruct cs as [|[l b] cs _] using rev_ind; [done|].
  destruct cs2 as [|[t' tb] cs2]; [done|]. pose proof Hc2 as (-> & _).
  exists (with_pbufs (cat_map s l t' b tb cs) s), (retot_cells (tot_len tb) cs ++ (l, cat_last t' b tb) :: (t', tb) :: cs2). split_and!.
  - by eapply cat_run.
  - split; [by eapply cat_chain | by eapply cat_lens |]. simpl.
    apply Forall2_app_inv_l in Hd as (ds0 & dl & Hd & Hdl & ->). rewrite <- app_assoc. apply Forall2_app; [by apply holds_retot|].
    apply Forall2_cons_inv_l in Hdl as (d & dn & Hd1 & ->%Forall2_nil_inv_l & ->). by apply Forall2_cons.
  - split; [by eapply cat_second | done | done].
  - split_and!; [| by exists (retot_cells (tot_len tb) cs ++ [(l, cat_last t' b tb)]); rewrite <- app_assoc | | done].
    + rewrite !fmap_app, retot_addrs, <- app_assoc. done.
    + intros a Ha. by eapply cat_out.
Qed.

(** ** Cutting *)

(** The pbufs that are kept whole when [rem] bytes are kept. *)
Fixpoint passes (rem : Z) (cs : list cell) : Prop :=
  match cs with [] => True | (_, b) :: cs' => len b < rem /\ passes (rem - len b) cs' end.

Lemma cut_exists cs : forall rem, lens_ok cs -> 0 <= rem < total cs ->
  exists cs1 q b cs2, cs = cs1 ++ (q, b) :: cs2 /\ passes rem cs1 /\ 0 <= rem - total cs1 <= len b.
Proof.
  induction cs as [|[q b] cs IH]; intros rem; simpl; [lia|]. intros (L1 & L2 & L3 & L4) Hr. destruct (decide (len b < rem)) as [H|H].
  - destruct (IH (rem - len b) L4) as (cs1 & q' & b' & cs2 & -> & Hp & Hb); [lia|]. exists ((q, b) :: cs1), q', b', cs2.
    simpl. split_and!; [done | done | done | lia | lia].
  - exists [], q, b, cs. simpl. split_and!; [done | done | lia | lia].
Qed.

Lemma shrink_loop_run q b cs2 shrink : forall cs1 fuel s p rem,
  chain_at (pbufs s) p (cs1 ++ (q, b) :: cs2) -> lens_ok (cs1 ++ (q, b) :: cs2) ->
  total (cs1 ++ (q, b) :: cs2) - shrink = rem -> rem < 2 ^ 16 -> passes rem cs1 -> rem - total cs1 <= len b -> (length cs1 < fuel)%nat ->
  shrink_loop fuel p rem shrink s = Done ((q, rem - total cs1), with_pbufs (retot_map (- shrink) cs1 (pbufs s)) s).
Proof.
  induction cs1 as [|[q0 b0] cs1 IH]; intros [|fuel] s p rem Hc Hl Ht Hr Hp Hb Hf; try (simpl in Hf; lia); cbn [shrink_loop].
  - destruct Hc as (-> & _ & HP & _). run_with (pbuf_at_run _ _ _ HP). simpl in Hb. destruct (Z.gtb_spec rem (len b)); [lia|].
    simpl. by rewrite Z.sub_0_r, with_pbufs_id.
  - pose proof Hc as (-> & _ & HP & _). run_with (pbuf_at_run _ _ _ HP). destruct Hp as [Hp1 Hp]. destruct Hl as (L1 & L2 & L3 & Hl).
    simpl in Ht, Hb. destruct (Z.gtb_spec rem (len b0)); [|lia]. run_by ltac:(apply upd_pbuf_run; exact HP).
    rewrite (u16_small (tot_len b0 - shrink)), (u16_small (rem - len b0)) by lia. change (tot_len b0 - shrink) with (tot_len b0 + - shrink).
    fold (retot (- shrink) b0). rewrite IH; [| | done | lia | lia | done | lia | simpl in Hf; lia].
    + simpl. rewrite Z.sub_add_distr. done.
    + by apply chain_insert_head.
Qed.

Lemma put_pbuf_twice q b b' s : put_pbuf q b' (put_pbuf q b s) = put_pbuf q b' s.
Proof. destruct s. unfold put_pbuf, set_pbufs. simpl. by rewrite insert_insert_eq. Qed.

(** Only the pbuf [q] changed, and its block was shrunk. *)
Lemma net_rep_trim s d1 d2 U F1 F2 q b b' h' bs' n n' rest :
  net_rep s d1 d2 U F1 F2 -> pbufs s !! q = Some b -> lheap_rep h' bs' -> same_ram (lw_heap s) h' ->
  U ≡ₚ (q, n) :: rest -> used_at (ram h') bs' ≡ₚ (q, n') :: rest -> is_custom b' = false ->
  pbuf_get_allocsrc b' = PBUF_TYPE_ALLOC_SRC_MASK_STD_HEAP -> in_block q n' b' ->
  net_rep (put_pbuf q b' (set_lw_heap h' s)) d1 d2 (used_at (ram h') bs') F1 F2.
Proof.
  intros [HL HH HM HP] Hb Hrep Hsr HU HU' Hc Hsrc Hin. split; [by eapply net_layout_ext | by exists bs' | done |]. simpl.
  destruct Hsr as [R1 R2]. intros p c Hp. apply lookup_insert_Some in Hp as [[<- <-]|[Hne Hp]].
  - unfold placed. rewrite Hc. left. split; [done|]. exists n'. split; [rewrite HU'; left | done].
  - eapply (placed_frame _ _ _ _ _ _ _ _ _ _ q); [by apply HP | by apply not_eq_sym | done | done | | by auto | by auto].
    intros m. rewrite HU, HU', !elem_of_cons. intros [[= -> ->]|?]; [done | by right].
Qed.

(** Lengths and links do not matter for where the pbufs lie. *)
Lemma net_rep_retot x cs : forall s d1 d2 U F1 F2,
  net_rep s d1 d2 U F1 F2 -> NoDup cs.*1 -> (forall q b, (q, b) ∈ cs -> pbufs s !! q = Some b) ->
  net_rep (with_pbufs (retot_map x cs (pbufs s)) s) d1 d2 U F1 F2.
Proof.
  induction cs as [|[q b] cs IH]; intros s d1 d2 U F1 F2 HR Hnd HP; cbn [retot_map]; [by rewrite with_pbufs_id|].
  rewrite fmap_cons in Hnd. apply NoDup_cons in Hnd as [Hni Hnd]. apply (IH (put_pbuf q (retot x b) s)); [| done |].
  - eapply net_rep_put; [done | apply HP; left | by split_and!; auto].
  - intros q' b' Hin. simpl. rewrite lookup_insert_ne; [apply HP; by right|].
    intros <-. apply Hni. by apply (list_elem_of_fmap_2 fst) in Hin.
Qed.

(** The packet after the cut in the pbuf [q]. *)
Definition cut_cell (rem : Z) (b : pbuf) : pbuf := set_p_next 0 (set_tot_len rem (set_len rem b)).

Lemma free_map_other cs : forall P a, a ∉ cs.*1 -> free_map P cs !! a = P !! a.
Proof.
  induction cs as [|[q b] cs IH]; intros P a Ha; [done|]. rewrite fmap_cons, not_elem_of_cons in Ha. destruct Ha as [H1 H2].
  simpl in *. destruct (ref b =? 1); [rewrite IH by done; by apply lookup_delete_ne | by apply lookup_insert_ne].
Qed.

Lemma total_nonneg cs1 cs2 : lens_ok (cs1 ++ cs2) -> 0 <= total cs1.
Proof. induction cs1 as [|[q b] cs1 IH]; simpl; [lia|]. intros (L1 & _ & _ & L4). specialize (IH L4). lia. Qed.

Lemma holds_cut M cs1 q b cs2 ds rem b' :
  holds M (cs1 ++ (q, b) :: cs2) ds -> lens_ok (cs1 ++ (q, b) :: cs2) -> 0 <= rem <= len b -> payload b' = payload b -> len b' = rem ->
  exists ds', holds M (cs1 ++ [(q, b')]) ds' /\ concat ds' = take (Z.to_nat (total cs1 + rem)) (concat ds).
Proof.
  revert ds. induction cs1 as [|[q0 b0] cs1 IH]; intros ds Hd Hl Hr E1 E2; apply Forall2_cons_inv_l in Hd as (d & ds2 & Hd & Hd2 & ->).
  - exists [take (Z.to_nat rem) d]. cbn [snd] in Hd. pose proof (load_lookup _ _ _ _ Hd) as [Hld _]. split.
    + constructor; [|constructor]. cbn [snd]. rewrite E1, E2. replace (payload b) with (payload b + Z.of_nat 0) by lia.
      change d with (drop 0 d). eapply load_sub; [exact Hd | lia].
    + simpl. rewrite app_nil_r, take_app_le by lia. done.
  - destruct Hl as (L1 & L2 & L3 & L4). destruct (IH ds2 Hd2 L4 Hr E1 E2) as (ds' & Hh & Hc). exists (d :: ds'). split; [by constructor|].
    cbn [snd] in Hd. pose proof (load_lookup _ _ _ _ Hd) as [Hld _]. simpl. rewrite Hc.
    pose proof (total_nonneg _ _ L4) as H0.
    replace (Z.to_nat (len b0 + total cs1 + rem)) with (length d + Z.to_nat (total cs1 + rem))%nat by lia. by rewrite take_app_add.
Qed.

Lemma cut_packet s s' p cs1 q b cs2 ds n :
  let cs := cs1 ++ (q, b) :: cs2 in let shrink := total cs - n in let rem := n - total cs1 in
  packet s p cs ds -> 0 <= n < total cs -> 0 <= rem <= len b -> bytes s' = bytes s ->
  pbufs s' = <[q := cut_cell rem b]> (free_map (<[q := set_tot_len rem (set_len rem b)]> (retot_map (- shrink) cs1 (pbufs s))) cs2) ->
  exists ds', packet s' p (retot_cells (- shrink) cs1 ++ [(q, cut_cell rem b)]) ds' /\ concat ds' = take (Z.to_nat n) (concat ds) /\
    (forall a, a ∉ cs.*1 -> pbufs s' !! a = pbufs s !! a).
Proof.
  intros cs shrink rem [Hc Hl Hd] Hn Hr Hm HP. pose proof (chain_nodup _ _ _ Hc) as Hnd. pose proof (lens_total _ Hl) as Htot.
  unfold cs in Hnd. rewrite fmap_app, fmap_cons in Hnd. cbn [fst] in Hnd. apply NoDup_app in Hnd as (Hnd1 & Hd1 & [Hq2 _]%NoDup_cons).
  destruct (holds_cut _ _ _ _ _ _ rem (cut_cell rem b) Hd Hl Hr eq_refl eq_refl) as (ds' & Hh & Hcc).
  replace (total cs1 + rem) with n in Hcc by lia. exists ds'. split_and!; [|done|].
  - split.
    + eapply pchain_relink; [exact Hc | | rewrite HP; apply lookup_insert_eq | done]. intros a c Hin.
      apply (list_elem_of_fmap_2 fst) in Hin as Hin'. cbn [fst] in Hin'. specialize (Hd1 _ Hin'). rewrite not_elem_of_cons in Hd1.
      rewrite HP, lookup_insert_ne, free_map_other, lookup_insert_ne by naive_solver. by apply retot_map_in.
    + apply (lens_retot (- shrink) cs1 ((q, b) :: cs2)); [done | | | unfold shrink, cs in *; lia].
      * pose proof (total_nonneg _ _ Hl). simpl. split_and!; [lia.. | done].
      * unfold shrink, rem, cs. rewrite total_app. simpl. lia.
    + rewrite Hm. apply Forall2_app_inv_l in Hh as (e1 & e2 & H1 & H2 & ->). apply Forall2_app; [by apply holds_retot | done].
  - intros a Ha. unfold cs in Ha. rewrite fmap_app, fmap_cons, not_elem_of_app, not_elem_of_cons in Ha. cbn [fst] in Ha.
    rewrite HP, lookup_insert_ne, free_map_other, lookup_insert_ne, retot_map_other by naive_solver. done.
Qed.

Section realloc.
Context (call_free : Z -> Z -> prog lwip unit).

(** The heap blocks after the pbuf [q] was cut to [rem] bytes: a pbuf in a heap
    block of its own keeps its address and what it needs, up to the rounding of
    the sizes and a rest too small for a block of its own (header 8, smallest
    block 12); no other block changes. *)
Definition trimmed (q : Z) (b : pbuf) (rem : Z) (U U1 : list (Z * Z)) : Prop :=
  let need := payload b - q + rem in
  if (source b =? PBUF_TYPE_ALLOC_SRC_MASK_STD_HEAP) && negb (rem =? len b) then
    exists n n' rest, U ≡ₚ (q, n) :: rest /\ U1 ≡ₚ (q, n') :: rest /\ need <= n' <= n /\ n' < Z.max 12 (need + 3) + 20
  else U1 = U.

(** The block of the last pbuf is trimmed if it is one of the heap. *)
Lemma realloc_trim s d1 d2 U F1 F2 q b rem :
  net_rep s d1 d2 U F1 F2 -> pbufs s !! q = Some b -> is_custom b = false -> 0 <= rem <= len b ->
  exists s2 U2, (if pbuf_match_allocsrc b PBUF_TYPE_ALLOC_SRC_MASK_STD_HEAP && negb (rem =? len b) &&
            (Z.land (flags b) PBUF_FLAG_IS_CUSTOM =? 0)
         then on_heap (mem_trim q (u16 (payload b - q + rem))) else mret q) s = Done (q, s2) /\
    pbufs s2 = pbufs s /\ same_memory s s2 /\ trimmed q b rem U U2 /\
    forall b', payload b' = payload b -> len b' = rem -> type_internal b' = type_internal b -> flags b' = flags b ->
      net_rep (put_pbuf q b' s2) d1 d2 U2 F1 F2.
Proof.
  intros HR Hb Hc Hrem. destruct (pbuf_match_allocsrc b PBUF_TYPE_ALLOC_SRC_MASK_STD_HEAP && negb (rem =? len b) &&
    (Z.land (flags b) PBUF_FLAG_IS_CUSTOM =? 0)) eqn:Hcond.
  all: pose proof Hc as Hc'; unfold is_custom in Hc'; apply negb_false_iff in Hc'; rewrite Hc', andb_true_r in Hcond.
  all: change (pbuf_match_allocsrc b PBUF_TYPE_ALLOC_SRC_MASK_STD_HEAP) with (source b =? PBUF_TYPE_ALLOC_SRC_MASK_STD_HEAP) in Hcond.
  all: unfold trimmed; rewrite Hcond.
  - apply andb_true_iff in Hcond as [Hsrc%Z.eqb_eq _]. change (source b) with (pbuf_get_allocsrc b) in Hsrc. cbn in Hsrc.
    pose proof HR as [HL (bs & Hheap & HU) HM HP]. pose proof (HP _ _ Hb) as Hpb. unfold placed in Hpb. rewrite Hc in Hpb.
    destruct Hpb as [(_ & n & Hn & Hin)|[(E & _)|(E & _)]]; [|rewrite E in Hsrc; done..].
    destruct Hin as (I1 & I2 & I3). pose proof (live_ok_rep _ _ Hheap) as [Hlive _]. rewrite <- HU in Hlive.
    pose proof (proj1 (Forall_forall _ _) Hlive _ Hn) as (_ & V2 & _ & V3). cbn [fst snd] in V2, V3.
    pose proof (lr_ram_end _ _ (lr_tiled _ _ Hheap)) as Q3. change SIZEOF_STRUCT_MEM with 8 in V2. change MEM_SIZE_ALIGNED with 25600 in Q3.
    rewrite HU in Hn. destruct (lheap_trim _ bs q n (payload b - q + rem) Hheap Hn) as (h' & bs' & n' & rest & Hrun & Hrep & Hsr & Hsz & Hup & U1 & U2); [lia|].
    rewrite u16_small by lia. eexists _, (used_at (ram h') bs'). split_and!; [by apply on_heap_run | done | done | |].
    + exists n, n', rest. destruct Hsr as [-> _]. rewrite HU. split_and!; [done | done | lia | lia | lia].
    + intros b' E1 E2 E3 E4. eapply (net_rep_trim s); [exact HR | exact Hb | exact Hrep | exact Hsr | by rewrite HU | | | |].
      * destruct Hsr as [-> _]. done.
      * unfold is_custom in *. by rewrite E4.
      * unfold pbuf_get_allocsrc in *. by rewrite E3.
      * unfold in_block. rewrite E1, E2. lia.
  - exists s, U. split_and!; try done. intros b' E1 E2 E3 E4. eapply net_rep_put; [done.. |]. split_and!; try done. right. lia.
Qed.

(** The rest of the chain is released. *)
Lemma release_rest s d1 d2 U F1 F2 p cs :
  net_rep s d1 d2 U F1 F2 -> chain_at (pbufs s) p cs -> refs_ok cs ->
  exists s' U' F1' F2', (if negb (p =? 0) then pbuf_free call_free p;; mret tt else mret tt) s = Done (tt, s') /\
    net_rep s' d1 d2 U' F1' F2' /\ pbufs s' = free_map (pbufs s) cs /\ same_memory s s' /\
    given_back (dying cs) U F1 F2 U' F1' F2'.
Proof.
  intros HR Hc Hr. destruct (pbuf_free_run call_free s d1 d2 U F1 F2 p cs HR Hc Hr) as (s' & U' & F1' & F2' & Hrun & H).
  exists s', U', F1', F2'. split; [|done]. destruct (Z.eqb_spec p 0) as [->|Hp]; cbn [negb].
  - injection Hrun as _ ->. done.
  - by run_with Hrun.
Qed.

Lemma realloc_run s d1 d2 U F1 F2 p cs1 q b cs2 n :
  let cs := cs1 ++ (q, b) :: cs2 in let shrink := total cs - n in let rem := n - total cs1 in
  net_rep s d1 d2 U F1 F2 -> chain_at (pbufs s) p cs -> lens_ok cs -> refs_ok cs ->
  0 <= n < total cs -> passes n cs1 -> 0 <= rem <= len b ->
  exists s' U1 U' F1' F2', pbuf_realloc call_free p n s = Done (tt, s') /\
    net_rep s' d1 d2 U' F1' F2' /\ trimmed q b rem U U1 /\ given_back (dying cs2) U1 F1 F2 U' F1' F2' /\ same_memory s s' /\
    pbufs s' = <[q := cut_cell rem b]> (free_map (<[q := set_tot_len rem (set_len rem b)]> (retot_map (- shrink) cs1 (pbufs s))) cs2).
Proof.
  intros cs shrink rem HR Hc Hl Hr Hn Hp Hb. pose proof (lens_total _ Hl) as Htot. pose proof (chain_nodup _ _ _ Hc) as Hnd.
  unfold cs in Hnd. rewrite fmap_app, fmap_cons in Hnd. cbn [fst] in Hnd. apply NoDup_app in Hnd as (Hnd1 & Hd1 & [Hq2 _]%NoDup_cons).
  assert (Hq1 : q ∉ cs1.*1) by (intros H; apply (Hd1 _ H); left).
  assert (Hqb : pbufs s !! q = Some b) by (eapply chain_lookup; [exact Hc | apply elem_of_app; right; left]).
  apply Forall_app in Hr as [_ [[_ Hcu] Hr2]%Forall_cons]. cbn [snd] in Hcu.
  assert (Hhead : exists b0, pbufs s !! p = Some b0 /\ tot_len b0 = total cs).
  { unfold cs in *. destruct cs1 as [|[q0 b0] cs1]; destruct Hc as (-> & _ & HP & _); destruct Hl as (_ & L & _); eexists; split; try exact HP; done. }
  destruct Hhead as (b0 & Hb0 & Ht0). unfold pbuf_realloc. run_with (pbuf_at_run _ _ _ Hb0). rewrite Ht0.
  destruct (Z.geb_spec n (total cs)); [lia|]. rewrite u16_small by lia. fold shrink. kstep.
  pose proof (chain_fuel_enough _ _ _ Hc) as Hf. unfold cs in Hf. rewrite length_app in Hf.
  run_by ltac:(apply (shrink_loop_run q b cs2 shrink cs1); [exact Hc | exact Hl | unfold shrink, cs; lia | lia | exact Hp | lia | lia]).
  fold rem. set (P1 := retot_map (- shrink) cs1 (pbufs s)). set (s1 := with_pbufs P1 s). cbn match.
  assert (Hq : pbufs s1 !! q = Some b) by (unfold s1, P1; simpl; by rewrite retot_map_other).
  assert (HR1 : net_rep s1 d1 d2 U F1 F2) by (apply net_rep_retot; [done.. |]; intros a c Hin; eapply chain_lookup; [exact Hc | by apply elem_of_app; left]).
  run_with (pbuf_at_run _ _ _ Hq). destruct (realloc_trim s1 d1 d2 U F1 F2 q b rem HR1 Hq Hcu Hb) as (s2 & U1 & Hrun2 & HP2 & Hm2 & HU1 & HR2).
  run_with Hrun2. rewrite <- HP2 in Hq. run_by ltac:(apply upd_pbuf_run; exact Hq).
  run_by ltac:(apply upd_pbuf_run; apply lookup_insert_eq). rewrite put_pbuf_twice. cbn [len set_len].
  set (b3 := set_tot_len rem (set_len rem b)). specialize (HR2 b3 eq_refl eq_refl eq_refl eq_refl). set (s3 := put_pbuf q b3 s2) in *.
  assert (Hq3 : pbufs s3 !! q = Some b3) by apply lookup_insert_eq. run_with (pbuf_at_run _ _ _ Hq3).
  assert (Hc3 : chain_at (pbufs s3) (p_next b3) cs2).
  { destruct (chain_suffix _ _ _ _ Hc) as (p' & -> & _ & _ & Hc'). eapply pchain_frame; [exact Hc'|]. intros a c Hin.
    apply (list_elem_of_fmap_2 fst) in Hin as Hin'. cbn [fst] in Hin'. simpl. rewrite lookup_insert_ne by (intros ->; done).
    rewrite HP2. unfold s1, P1. simpl. rewrite retot_map_other; [by eapply chain_lookup in Hc' as [? _]|].
    intros Ha. apply (Hd1 _ Ha). by right. }
  destruct (release_rest s3 d1 d2 U1 F1 F2 _ cs2 HR2 Hc3 Hr2) as (s4 & U' & F1' & F2' & Hrun4 & HR4 & HP4 & Hm4 & Hg).
  run_with Hrun4. assert (Hq4 : pbufs s4 !! q = Some b3) by (by rewrite HP4, free_map_other).
  rewrite (upd_pbuf_run _ _ _ _ Hq4). eexists _, U1, U', F1', F2'. split_and!; [done | | done | done | |].
  - eapply net_rep_put; [exact HR4 | exact Hq4 | by split_and!; auto].
  - destruct Hm2 as [M1 M2], Hm4 as [M3 M4]. split; [by transitivity (bytes s2) | by transitivity (custom_free_function s2)].
  - simpl. rewrite HP4. simpl. by rewrite HP2.
Qed.

(** C34: Cutting a packet.  [pbuf_realloc] of a packet of pbufs none of which is a
    custom pbuf, with at least one reference each, to [n] bytes returns and leaves a
    packet with the first [n] bytes of the old one: the pbufs up to the one the cut
    falls into, [tot_len] of each the length from there on.  That pbuf, if it lies in
    a heap block of its own and gets shorter, keeps the front part of its block that
    it needs, and the rest of the block is free again ([trimmed]); all other blocks
    stay.  The pbufs behind the cut are released like by [pbuf_free] and go back to
    their allocators.  A packet that is not longer is left as it is.  No other pbuf
    and no byte changes, and every pbuf keeps lying in memory in use. *)
Theorem pbuf_realloc_ok s d1 d2 U F1 F2 p cs ds n :
  net_rep s d1 d2 U F1 F2 -> packet s p cs ds -> cs <> [] -> refs_ok cs -> 0 <= n < 2 ^ 16 ->
  exists s' cs' ds' cut U1 U' F1' F2', pbuf_realloc call_free p n s = Done (tt, s') /\
    packet s' p cs' ds' /\ concat ds' = take (Z.to_nat n) (concat ds) /\
    (if n <? total cs then exists pre q b, cs = pre ++ (q, b) :: cut /\ cs'.*1 = pre.*1 ++ [q] /\
       0 <= n - total pre <= len b /\ trimmed q b (n - total pre) U U1
     else s' = s /\ cut = [] /\ U1 = U) /\
    net_rep s' d1 d2 U' F1' F2' /\ given_back (dying cut) U1 F1 F2 U' F1' F2' /\
    same_memory s s' /\ (forall a, a ∉ cs.*1 -> pbufs s' !! a = pbufs s !! a).
Proof.
  intros HR HP Hne Hr Hn. pose proof HP as [Hc Hl Hd]. pose proof (holds_length _ _ _ Hd Hl) as Hlen.
  destruct (Z.ltb_spec n (total cs)) as [Hlt|Hge].
  - destruct (cut_exists cs n Hl) as (cs1 & q & b & cs2 & -> & Hpass & Hb); [lia|].
    destruct (realloc_run s d1 d2 U F1 F2 p cs1 q b cs2 n HR Hc Hl Hr) as (s' & U1 & U' & F1' & F2' & Hrun & HR' & HU1 & Hg & Hm & HP'); try done; try lia.
    destruct (cut_packet s s' p cs1 q b cs2 ds n HP) as (ds' & HPk & Hds & Hout); [lia | lia | exact (proj1 Hm) | exact HP' |].
    eexists s', _, ds', cs2, U1, U', F1', F2'. split_and!; [done | exact HPk | done | | done..].
    exists cs1, q, b. split; [done|]. split; [|done]. by rewrite fmap_app, retot_addrs.
  - exists s, cs, ds, [], U, U, F1, F2. split_and!; try done.
    + unfold pbuf_realloc. destruct cs as [|[q b] cs]; [done|]. pose proof Hc as (-> & _ & Hq & _). destruct Hl as (_ & L2 & _).
      run_with (pbuf_at_run _ _ _ Hq). simpl in Hge. destruct (Z.geb_spec n (tot_len b)); [done | lia].
    + rewrite take_ge; [done|]. unfold size_of in Hlen. lia.
    + apply given_back_nil.
Qed.
End realloc.

(** ** Headers *)

Definition with_header (n : Z) (b : pbuf) : pbuf :=
  mk_pbuf (p_next b) (payload b - n) (tot_len b + n) (len b + n) (type_internal b) (flags b) (ref b) (if_idx b).

(** A header that fits between the structure and the payload of a pbuf with its own
    memory is added in place, and removing it again restores the pbuf; a header that
    does not fit is refused and nothing changes. *)
Theorem pbuf_header_roundtrip s p b n :
  pbufs s !! p = Some b -> 0 < p -> p + 16 <= payload b < 2 ^ 32 -> 0 < n < 2 ^ 16 -> 0 <= len b <= tot_len b -> n + tot_len b < 2 ^ 16 ->
  Z.land (type_internal b) PBUF_TYPE_FLAG_STRUCT_DATA_CONTIGUOUS <> 0 ->
  if decide (p + 16 <= payload b - n) then
    pbuf_add_header p n s = Done (0, put_pbuf p (with_header n b) s) /\
    pbuf_remove_header p n (put_pbuf p (with_header n b) s) = Done (0, s)
  else n <= payload b -> pbuf_add_header p n s = Done (1, s).
Proof.
  intros Hb Hp Hpl Hn Hlen Htot Hty. unfold pbuf_add_header, pbuf_add_header_impl, pbuf_remove_header. change SIZEOF_STRUCT_PBUF with 16.
  destruct (Z.eqb_spec p 0); [lia|]. destruct (Z.gtb_spec n 0xFFFF); [lia|]. destruct (Z.eqb_spec n 0); [lia|]. cbn [orb].
  rewrite (u16_small n) by lia. run_with (pbuf_at_run _ _ _ Hb). rewrite (u16_small (n + tot_len b)) by lia.
  destruct (Z.ltb_spec (n + tot_len b) n); [lia|]. destruct (Z.eqb_spec (Z.land (type_internal b) PBUF_TYPE_FLAG_STRUCT_DATA_CONTIGUOUS) 0); [done|].
  cbn [negb]. rewrite (u32_small (p + 16)) by lia. case_decide as Hfit.
  - rewrite (u32_small (payload b - n)) by lia. destruct (Z.ltb_spec (payload b - n) (p + 16)); [lia|]. cbn [negb]. split.
    + do 3 (run_by ltac:(apply upd_pbuf_run; first [exact Hb | apply lookup_insert_eq])). rewrite !put_pbuf_twice. cbn [set_payload set_len set_tot_len len tot_len].
      rewrite !u16_small by lia. done.
    + assert (Hb1 : pbufs (put_pbuf p (with_header n b) s) !! p = Some (with_header n b)) by apply lookup_insert_eq.
      run_with (pbuf_at_run _ _ _ Hb1). cbn [with_header len payload]. destruct (Z.leb_spec n (len b + n)); [|lia].
      do 3 (run_by ltac:(apply upd_pbuf_run; first [exact Hb1 | apply lookup_insert_eq])). rewrite !put_pbuf_twice.
      cbn [set_payload set_len set_tot_len len tot_len with_header payload]. rewrite u32_small, !u16_small by lia. rewrite !Z.add_simpl_r, Z.sub_add.
      unfold mret, prog_ret. do 2 f_equal. destruct s, b. unfold put_pbuf, set_pbufs. simpl in *. by rewrite insert_id.
  - intros Hge. rewrite (u32_small (payload b - n)) by lia. destruct (Z.ltb_spec (payload b - n) (p + 16)); [done | lia].
Qed.

(** ** Examples *)

Lemma net_rep_bytes f s d1 d2 U F1 F2 : net_rep s d1 d2 U F1 F2 -> net_rep (set_bytes f s) d1 d2 U F1 F2.
Proof. intros [HL HH HM HP]. split; [by eapply net_layout_ext | done..]. Qed.

(** The stack of [PbufSpec] with the bytes of its packet. *)
Definition demo_payload : list (list Z) := [repeat 1 1000; repeat 2 130; repeat 3 100].
Definition demo_bytes_map : gmap Z Z :=
  bytes_from (0x20030000 + 4612) (repeat 1 1000) (bytes_from 0x08001000 (repeat 2 130) (bytes_from 0x20010098 (repeat 3 100) ∅)).
Definition demo_long : lwip := set_bytes (fun _ => demo_bytes_map) demo_stack.

Lemma demo_long_packet : packet demo_long (0x20030000 + 4596) demo_cells demo_payload.
Proof.
  split; [vm_compute; repeat split; discriminate | vm_compute; repeat split; discriminate |].
  repeat (apply Forall2_cons; split; [vm_compute; reflexivity|]). apply Forall2_nil. exact I.
Qed.

Lemma pbuf_realloc_ok_witness :
  exists s' cs' ds', pbuf_realloc no_custom (0x20030000 + 4596) 600 demo_long = Done (tt, s') /\
    packet s' (0x20030000 + 4596) cs' ds' /\ concat ds' = repeat 1 600.
Proof.
  destruct (pbuf_realloc_ok no_custom demo_long demo_refs demo_bufs demo_U demo_F1 demo_F2 (0x20030000 + 4596) demo_cells demo_payload 600
    (net_rep_bytes _ _ _ _ _ _ _ demo_stack_rep) demo_long_packet) as (s' & cs' & ds' & _ & _ & _ & _ & _ & Hrun & HP & Hds & _).
  - discriminate.
  - repeat constructor; vm_compute; done.
  - lia.
  - exists s', cs', ds'. split; [exact Hrun|]. split; [exact HP|]. rewrite Hds. vm_compute. reflexivity.
Defined.

(** A packet of three pbufs and one of a single pbuf. *)
Definition demo_tail : list cell := [(500, mk_pbuf 0 200 4 4 0x82 0 1 0)].
Definition demo_two : lwip := with_pbufs (list_to_map (demo_chain ++ demo_tail)) demo_net.

Lemma pbuf_cat_ok_witness :
  exists s' cs', pbuf_cat 16 500 demo_two = Done (tt, s') /\ packet s' 16 cs' [[1; 2; 3]; []; [4; 5; 6; 7]; [3; 4; 5; 9]].
Proof.
  destruct (pbuf_cat_ok demo_two 16 500 demo_chain demo_tail demo_data [[3; 4; 5; 9]]) as (s' & cs' & Hrun & HP & _).
  - split; [vm_compute; repeat split; discriminate | vm_compute; repeat split; discriminate |]. repeat constructor.
  - split; [vm_compute; repeat split; discriminate | vm_compute; repeat split; discriminate |]. repeat constructor.
  - discriminate.
  - discriminate.
  - intros a Ha. assert (H : Forall (fun a => a ∉ demo_tail.*1) demo_chain.*1) by (apply (bool_decide_eq_true_1 _); vm_compute; reflexivity).
    rewrite Forall_forall in H. by apply H.
  - vm_compute. done.
  - exists s', cs'. split; [exact Hrun | exact HP].
Defined.
